(* ===== verification/_CoqProject ===== *)
-Q . S2P
Prelude.v
Abi.v
Handle.v
Event.v
Ipc.v
BootAbi.v
Bitmap.v
Pmm.v
Bytes.v
Crc32.v
StoreFmt.v
Store.v
StoreDev.v
StoreFacts.v
StoreIo.v
StoreInv.v
StoreTx.v
StoreCrash.v
StoreMount.v
StoreSnap.v
StoreThm.v
ElfPlan.v
MmapConvert.v
BootCheck.v
BootSafe.v
Cpio.v
Pt.v
PtFree.v
Vmm.v
Program.v
KernelSpace.v
Sched.v
SchedInv.v
SchedThm.v
KStack.v
Json.v
JsonList.v
JsonGram.v
JsonText.v
JsonWrite.v
JsonSpell.v
JsonThm.v
Bn.v
BnFacts.v
BnMont.v
BnThm.v
Blocks.v
Sha256.v
Sha256Fips.v
Sha512.v
Hash.v
Rsa.v
RsaThm.v
RsaPss.v
Chacha.v
Poly.v
ChachaThm.v
Uaccess.v
Blk.v
BlkThm.v
BlkStore.v
