(* ===== verification/Prelude.v ===== *)
(** * NANOX-OS: verification library

    NANOX-OS is a small operating system: a UEFI loader, a kernel with capability handles,
    a crash-safe object store, a network stack with TLS, and a user-space core program.  The
    repository holds two lines of it: a C system, whose parts are the ones listed here, and
    a younger line in Rust with its own loader, kernel and libraries.  This library is about
    the C system.  Definitions are shallow: a C function is a Rocq function of the same
    name, state is passed explicitly, and paths below are relative to [src/].

    ** How the parts fit together

    The loader plans the kernel image ([ElfPlan]) and converts the memory map of the
    firmware ([MmapConvert]).  The kernel validates what it is handed ([BootCheck]), sets up
    its page allocator ([Pmm], [BootSafe]) and its page tables ([Pt], [KernelSpace]), and
    finds programs in the initramfs ([Cpio]).  Tasks get an address space with their program
    ([Vmm], [Program]) and a kernel stack ([KStack]), and are run by the scheduler
    ([Sched]).  They hold objects by handles ([Handle]), send messages ([Ipc]), read the
    event log ([Event]), and the kernel reaches their memory by checked copies ([Uaccess]).
    The core program keeps its data in a store ([Store]) on the block layer of the kernel
    ([Blk]), and talks to its peers with JSON ([Json]) and cryptography ([Bn], [Sha256],
    [Sha512], [Hash], [Rsa], [Chacha]).

    ** Conventions

    A [w]-bit unsigned integer is a [Z] with its wrap-around written out ([u8] .. [u64]); a
    pointer into an array is an index; a byte string is a list of [Z].  An error return is a
    value of [res], a sum or the status type of the component.  Where the C code could read
    or write outside an object, the access is checked and [None] stands for the violation;
    where a loop is not structural, it takes fuel and [None] also stands for running out of
    it.  The theorems on these functions state that the result is [Some _]: the bound is
    enough and nothing is accessed out of bounds.  The fuel is the length of the text or
    buffer, or the number of pages, blocks or table slots the loop runs over.
    Code outside the sources enters as a parameter with its documented behaviour as a class:
    the object heap and its destructors ([ObjHeap]), the page source of the page tables
    ([PtEnv], discharged by the allocator), the block device of the store ([StDevLaws],
    discharged by the block layer) and the virtio device below it ([VblkLaws]).

    ** Kernel objects

    - [Abi]: error codes, rights and limits of [abi/nanox/syscall.h].
    - [Handle]: [kernel/obj/handle.c].  [handle_table_refines]: every operation implements
      the abstract capability semantics [cap_step]: results, errors, the capabilities held
      and the references taken and given up.  [stale_handle_rejected],
      [rights_never_amplified]: a closed handle value stays dead, rights never grow.
      [generation_wrap_revives_handle]: the bound in the former is needed.
    - [Event]: [kernel/obj/event.c]; reading gives the stored part of the whole history.
    - [Ipc]: [kernel/obj/ipc.c]; the ring buffer is a bounded queue and its release gives up
      every reference.

    ** Memory

    - [BootAbi], [MmapConvert], [BootCheck], [BootSafe]: [abi/nanox/bootinfo.h],
      [boot/uefi/mmap_convert.c], [kernel/bootinfo_check.c] and their composition with the
      allocator.  [bootinfo_check_sound]: what an accepted boot information guarantees.
      [boot_pages_safe]: no page handed out overlaps what the boot information reserves; the
      stack of the loader is safe until [reclaim_boot_memory] adds it on purpose.
    - [Bitmap], [Pmm]: [kernel/mm/pmm.c]; refinement to a set of free pages, and no page is
      handed out twice.
    - [Pt], [PtFree]: [kernel/mm/pt.c]; mapping changes exactly the addresses asked for, and
      tearing down reports every leaf and frees every table once.
    - [ElfPlan]: [lib/elf_plan.c]; acceptance is equivalent to a declarative specification
      (which shares with the model the reading of header fields), and all reads are inside
      the image.
    - [Vmm], [Program], [KernelSpace], [KStack]: [kernel/mm/vmm.c] and the parts of
      [kernel/task.c] that build address spaces and stacks.  The page tables of new tasks
      and of the kernel have exactly the mappings they should, nothing is writable and
      executable, failure gives every page back; a kernel stack is mapped between guard
      pages and released completely.  Page tables and the bytes of other pages are separate
      memories ([pt_mem], [v_data]): the allocator hands out distinct pages for the two, and
      writing a table through a data pointer is not expressible.  The TLB and the control
      registers are not modelled.
    - [Uaccess]: [kernel/mm/uaccess.c]; copies touch exactly the bytes of user pages that
      the user may touch, or nothing.
    - [Cpio]: [kernel/initramfs.c] against [tools/image/mkinitrd.py]; a round trip.

    ** Tasks

    - [Sched], [SchedInv], [SchedThm]: [kernel/task.c].  Steps are timer ticks and the
      operations, creation of the reaper included ([sched_step]).  [sched_invariant]: from
      [nx_sched_init] on exactly the current task runs and the processor is set up for it.
      [ready_task_runs]: with preemption a ready task runs within 64 ticks.
      [ended_never_runs]: the end of a task is final.  What clearing the handles of a task
      releases is an argument of reaping, with the condition that the references are held.
      Register contents are not modelled.

    ** The store

    - [Bytes], [Crc32], [StoreFmt], [Store]: [lib/crc32.c] and [lib/store.c].
    - [StoreDev]: the contract of the device, in which unflushed writes may reach the medium
      in any order, in part, torn, or not at all, and any request may fail.
    - [StoreFacts], [StoreIo], [StoreInv], [StoreTx], [StoreCrash], [StoreMount],
      [StoreSnap]: invariant, transactions, commit and recovery.
    - [StoreThm]: [store_crash_atomic], [store_transaction] and [store_snapshots_stable].
      [read_error_loses_snapshot] shows that the last needs readable retained roots.
    - [Blk], [BlkThm], [BlkStore]: [kernel/dev/blk.c], the requests of
      [kernel/dev/virtio_blk.c], the block system calls of [kernel/syscall.c] and the device
      functions of [user/core/persist.c].  [blk_layer_contract] and
      [store_on_blk_crash_atomic]: the layer keeps the contract of the store, with its
      emulated cache and at its crash point under every policy, if flushes are not switched
      off ([honest_flush]) and, while the emulated cache is on, the device fails no write
      ([reliable_writeback]).  The second condition is needed:
      [evict_failure_loses_write].  The handle of the device is assumed to be valid and the
      buffers of the program to be accessible.

    ** Text and cryptography

    - [Json], [JsonList], [JsonGram], [JsonText], [JsonWrite], [JsonSpell], [JsonThm]:
      [lib/http/json.c].  The reader accepts exactly the grammar and stays in its text; the
      writer produces the one string literal that spells the given bytes.
    - [Bn], [BnFacts], [BnMont], [BnThm]: [lib/crypto/bn.c]; Montgomery exponentiation is the
      modular power.
    - [Blocks], [Sha256], [Sha256Fips], [Sha512], [Hash]: [lib/sha256.c],
      [lib/crypto/sha512.c] and [lib/crypto/hash.c].  Streaming is independent of how the
      message is cut, SHA-256 is the function of FIPS 180-4 written out on its own, HMAC and
      HKDF are those of the RFCs over the digests.
    - [Rsa], [RsaThm], [RsaPss]: [lib/crypto/rsa.c]; verification accepts exactly the
      encodings of RFC 8017, for moduli of 128 to 512 bytes.
    - [Chacha], [Poly], [ChachaThm]: [lib/crypto/chacha.c]; Poly1305 and the AEAD of RFC 8439.
      Timing is not modelled.

    ** What is not modelled

    Assembly, interrupt entry, descriptor tables and device registers; serial output,
    formatting and message tables; the remaining system calls and the objects they combine;
    the PCI, virtio, network and clock drivers; the loader's firmware calls; the network
    stack, HTTP, TLS and X.509; AES, elliptic curves and the random generator; the core
    program itself, test programs and host tools; the Rust line.  They are input and output,
    or left for later work; the theorems do not depend on them.

    This file holds what the components share: integers, arrays, loops, bit lemmas and the
    tactics [breflect], [dlia] and [guard_case]. *)
From Stdlib Require Export ZArith Lia.
From stdpp Require Export numbers gmap list.

#[global] Open Scope Z_scope.

(** ** Machine integers

    A [w]-bit unsigned value is a [Z] in [[0, 2^w)]; every C operation that can
    leave that range is written with its wrap-around. *)

Definition wrap (w x : Z) : Z := x mod 2 ^ w.

Abbreviation u8 := (wrap 8).
Abbreviation u16 := (wrap 16).
Abbreviation u32 := (wrap 32).
Abbreviation u64 := (wrap 64).

Definition UINT32_MAX : Z := 0xFFFFFFFF.
Definition UINT64_MAX : Z := 0xFFFFFFFFFFFFFFFF.

(** [fits w x]: [x] is a value of a [w]-bit unsigned type. *)
Definition fits (w x : Z) : Prop := 0 <= x < 2 ^ w.

Declare Scope nx_scope.
Delimit Scope nx_scope with nx.
Notation "x &. y" := (Z.land x y) (at level 40, left associativity) : nx_scope.
Notation "x |. y" := (Z.lor x y) (at level 45, left associativity) : nx_scope.
Notation "x ^. y" := (Z.lxor x y) (at level 43, left associativity) : nx_scope.
Notation "x <<. y" := (Z.shiftl x y) (at level 38, left associativity) : nx_scope.
Notation "x >>. y" := (Z.shiftr x y) (at level 38, left associativity) : nx_scope.
Notation "~. x" := (Z.lnot x) (at level 30, right associativity) : nx_scope.

(** Arrays are lists indexed by C integers.  [a .[ i ]] and [a .[ i := x ]] are
    only used where the source guarantees that [i] is in range. *)
Notation "a .[ i ]" := (a !!! Z.to_nat i)
  (at level 1, left associativity, format "a .[ i ]") : nx_scope.
Notation "a .[ i := x ]" := (<[Z.to_nat i := x]> a)
  (at level 1, left associativity, format "a .[ i  :=  x ]") : nx_scope.

#[global] Open Scope nx_scope.

(** ** Loops *)

(** [for (i = lo; i < lo + n; i++) if (p(i)) break;]: the first index that
    satisfies [p]. *)
Fixpoint find_first {A} (p : A -> bool) (l : list A) : option A :=
  match l with
  | [] => None
  | x :: l' => if p x then Some x else find_first p l'
  end.

(** [n = 0; for each x: n += p(x);] *)
Fixpoint countb {A} (p : A -> bool) (l : list A) : Z :=
  match l with
  | [] => 0
  | x :: l' => (if p x then 1 else 0) + countb p l'
  end.

(** [for each x: s = f(s, x);] *)
Definition for_each {A S} (l : list A) (f : S -> A -> S) (s : S) : S :=
  fold_left f l s.

(** ** Lists *)

(** [R] holds between every entry and the later ones. *)
Fixpoint pairwise {A} (R : A -> A -> Prop) (l : list A) : Prop :=
  match l with
  | [] => True
  | x :: l' => Forall (R x) l' /\ pairwise R l'
  end.

(** ** Tactics *)

(** Split boolean guards of the source into propositions. *)
Ltac breflect :=
  repeat match goal with
  | H : _ && _ = true |- _ => apply andb_prop in H as [? ?]
  | H : _ || _ = false |- _ => apply orb_false_elim in H as [? ?]
  | H : negb _ = true |- _ => apply negb_true_iff in H
  | H : negb _ = false |- _ => apply negb_false_iff in H
  | H : (_ =? _) = true |- _ => apply Z.eqb_eq in H
  | H : (_ =? _) = false |- _ => apply Z.eqb_neq in H
  | H : (_ <? _) = true |- _ => apply Z.ltb_lt in H
  | H : (_ <? _) = false |- _ => apply Z.ltb_ge in H
  | H : (_ <=? _) = true |- _ => apply Z.leb_le in H
  | H : (_ <=? _) = false |- _ => apply Z.leb_gt in H
  | H : (_ >? _) = _ |- _ => rewrite Z.gtb_ltb in H
  | H : (_ >=? _) = _ |- _ => rewrite Z.geb_leb in H
  | H : bool_decide _ = true |- _ => apply bool_decide_eq_true in H
  | H : bool_decide _ = false |- _ => apply bool_decide_eq_false in H
  end.

(** [lia] on goals with [/] and [mod] by constants. *)
Ltac dlia := Z.to_euclidean_division_equations; lia.

(** Case analysis on the guard of the goal or of a hypothesis. *)
Ltac guard_case :=
  match goal with
  | |- context [if ?b then _ else _] => destruct b eqn:?
  | H : context [if ?b then _ else _] |- _ => destruct b eqn:?
  end.

(** ** Lemmas: integers *)

Lemma wrap_small w x : fits w x -> wrap w x = x.
Proof. apply Z.mod_small. Qed.

Lemma wrap_fits w x : 0 <= w -> fits w (wrap w x).
Proof. intros. apply Z.mod_pos_bound. lia. Qed.

Lemma testbit_high w x i : fits w x -> w <= i -> Z.testbit x i = false.
Proof.
  intros [H1 H2] Hi. destruct (decide (x = 0)) as [->|]; [apply Z.bits_0|].
  apply Z.bits_above_log2; [lia|].
  assert (0 <= w) by (destruct (Z.le_gt_cases 0 w); [done|]; rewrite Z.pow_neg_r in H2; lia).
  assert (Z.log2 x < w) by (apply Z.log2_lt_pow2; lia). lia.
Qed.

Lemma fits_bits w x : 0 <= w -> 0 <= x ->
  (forall i, w <= i -> Z.testbit x i = false) -> fits w x.
Proof.
  intros Hw Hx Hb. split; [done|].
  destruct (decide (x = 0)) as [->|]; [lia|].
  apply Z.log2_lt_pow2; [lia|].
  destruct (Z.lt_ge_cases (Z.log2 x) w) as [|Hge]; [done|].
  apply Hb in Hge. rewrite Z.bit_log2 in Hge by lia. done.
Qed.

Lemma fits_land w x y : 0 <= w -> fits w x -> 0 <= y -> fits w (x &. y).
Proof.
  intros Hw Hx Hy. apply fits_bits; [done| |].
  - apply Z.land_nonneg. left. apply Hx.
  - intros i Hi. rewrite Z.land_spec, (testbit_high w x) by done. done.
Qed.

Lemma fits_lor w x y : 0 <= w -> fits w x -> fits w y -> fits w (x |. y).
Proof.
  intros Hw Hx Hy. apply fits_bits; [done| |].
  - apply Z.lor_nonneg. split; [apply Hx|apply Hy].
  - intros i Hi. rewrite Z.lor_spec, !(testbit_high w) by done. done.
Qed.

Lemma lxor_fits w a b : 0 <= w -> fits w a -> fits w b -> fits w (a ^. b).
Proof.
  intros Hw Ha Hb. apply fits_bits; [lia|apply Z.lxor_nonneg; unfold fits in *; lia|].
  intros k Hk. rewrite Z.lxor_spec, (testbit_high w a), (testbit_high w b) by done. done.
Qed.

Lemma land_ones_mod x n : 0 <= n -> x &. Z.ones n = x mod 2 ^ n.
Proof. apply Z.land_ones. Qed.

Lemma mod_ne_near a b n : 0 < n -> a < b -> b < a + n -> a mod n <> b mod n.
Proof.
  intros Hn Hab Hba Heq.
  assert ((b - a) mod n = 0) as Hz by (rewrite Zminus_mod, Heq, Z.sub_diag; apply Z.mod_0_l; lia).
  rewrite Z.mod_small in Hz by lia. lia.
Qed.

(** Subset of a bit mask, as the source tests it: [(x & ~m) == 0]. *)
Lemma ldiff_subset x m :
  x &. ~. m = 0 -> forall i, Z.testbit x i = true -> Z.testbit m i = true.
Proof.
  intros H i Hi. destruct (decide (0 <= i)).
  - apply (f_equal (fun z => Z.testbit z i)) in H.
    rewrite Z.land_spec, Z.lnot_spec, Z.bits_0, Hi in H by lia.
    simpl in H. by destruct (Z.testbit m i).
  - rewrite Z.testbit_neg_r in Hi by lia. done.
Qed.

Lemma subset_trans_mask x y m :
  x &. ~. y = 0 -> y &. ~. m = 0 -> x &. ~. m = 0.
Proof.
  intros H1 H2. apply Z.bits_inj'. intros i Hi.
  rewrite Z.land_spec, Z.lnot_spec, Z.bits_0 by lia.
  destruct (Z.testbit x i) eqn:E; [|done].
  rewrite (ldiff_subset y m H2 i); [done|]. by apply (ldiff_subset x y H1).
Qed.

(** Rounding down with a mask: [x & ~(2^n - 1)]. *)
Lemma mask_down w n x : 0 <= n <= w -> fits w x -> x &. wrap w (~. Z.ones n) = x / 2 ^ n * 2 ^ n.
Proof.
  intros Hn Hx. rewrite <- Z.shiftr_div_pow2, <- Z.shiftl_mul_pow2 by lia.
  apply Z.bits_inj'. intros i Hi. unfold wrap.
  rewrite Z.land_spec, <- Z.land_ones, Z.land_spec, Z.lnot_spec, !Z.testbit_ones_nonneg by lia.
  destruct (Z.ltb_spec i n) as [Hlt|Hge].
  - rewrite Z.shiftl_spec_low by lia. simpl. apply andb_false_r.
  - rewrite Z.shiftl_spec_high, Z.shiftr_spec by lia. replace (i - n + n) with i by lia. simpl.
    destruct (Z.ltb_spec i w); [apply andb_true_r|]. by rewrite (testbit_high w x).
Qed.

(** Testing one flag: [x & (1 << n)]. *)
(** Concatenation of bit fields. *)
Lemma lor_shiftl a b n : 0 <= n -> 0 <= b < 2 ^ n -> (a <<. n) |. b = a * 2 ^ n + b.
Proof.
  intros Hn Hb. rewrite <- Z.shiftl_mul_pow2 by done. symmetry. apply Z.add_nocarry_lor.
  apply Z.bits_inj'. intros i Hi. rewrite Z.land_spec, Z.bits_0.
  destruct (Z.ltb_spec i n); [by rewrite Z.shiftl_spec_low|]. rewrite (testbit_high n b) by (unfold fits; lia). apply andb_false_r.
Qed.

Lemma land_pow2 x n : 0 <= n -> x &. 2 ^ n = if Z.testbit x n then 2 ^ n else 0.
Proof.
  intros Hn. apply Z.bits_inj'. intros i Hi. rewrite Z.land_spec, Z.pow2_bits_eqb by lia.
  destruct (Z.eqb_spec n i) as [<-|Hne].
  - rewrite andb_true_r. destruct (Z.testbit x n); [|by rewrite Z.bits_0].
    by rewrite Z.pow2_bits_true by lia.
  - rewrite andb_false_r. destruct (Z.testbit x n); [|by rewrite Z.bits_0].
    by rewrite Z.pow2_bits_false.
Qed.

Lemma flag_testbit x n : 0 <= n -> negb (x &. 2 ^ n =? 0) = Z.testbit x n.
Proof.
  intros Hn. rewrite land_pow2 by done. destruct (Z.testbit x n); [|done].
  pose proof (Z.pow_pos_nonneg 2 n). rewrite (proj2 (Z.eqb_neq _ 0)) by lia. done.
Qed.

(** ** Lemmas: loops *)

Lemma find_first_Some {A} (p : A -> bool) l x :
  find_first p l = Some x ->
  p x = true /\ exists l1 l2, l = l1 ++ x :: l2 /\ Forall (fun y => p y = false) l1.
Proof.
  induction l as [|y l IH]; simpl; [done|].
  destruct (p y) eqn:E; intros H; simplify_eq.
  - split; [done|]. exists [], l. auto.
  - destruct (IH H) as (? & l1 & l2 & -> & ?). split; [done|].
    exists (y :: l1), l2. split; [done|]. by constructor.
Qed.

Lemma find_first_elem {A} (p : A -> bool) l x :
  find_first p l = Some x -> x ∈ l /\ p x = true.
Proof.
  intros H. destruct (find_first_Some _ _ _ H) as (? & l1 & l2 & -> & ?).
  split; [|done]. set_solver.
Qed.

Lemma find_first_None {A} (p : A -> bool) l :
  find_first p l = None <-> Forall (fun y => p y = false) l.
Proof.
  induction l as [|y l IH]; simpl; [split; [constructor|done]|].
  rewrite Forall_cons. destruct (p y); naive_solver.
Qed.

Lemma find_first_is_Some {A} (p : A -> bool) l x :
  x ∈ l -> p x = true -> is_Some (find_first p l).
Proof.
  intros Hx Hp. destruct (find_first p l) eqn:E; [done|].
  apply find_first_None in E. rewrite Forall_forall in E.
  specialize (E x Hx). congruence.
Qed.

Lemma find_first_ext {A} (p q : A -> bool) l :
  (forall x, x ∈ l -> p x = q x) -> find_first p l = find_first q l.
Proof.
  induction l as [|y l IH]; intros H; simpl; [done|].
  rewrite (H y) by set_solver. destruct (q y); [done|]. apply IH. set_solver.
Qed.

Lemma countb_nonneg {A} (p : A -> bool) l : 0 <= countb p l.
Proof. induction l; simpl; [done|]. destruct (p a); lia. Qed.

Lemma countb_le_length {A} (p : A -> bool) l : countb p l <= Z.of_nat (length l).
Proof. induction l; cbn [countb length]; [done|]. destruct (p a); lia. Qed.

Lemma countb_app {A} (p : A -> bool) l1 l2 :
  countb p (l1 ++ l2) = countb p l1 + countb p l2.
Proof. induction l1; simpl; [done|]. rewrite IHl1. lia. Qed.

Lemma countb_ext {A} (p q : A -> bool) l :
  (forall x, x ∈ l -> p x = q x) -> countb p l = countb q l.
Proof.
  induction l as [|y l IH]; intros H; simpl; [done|].
  rewrite (H y), IH by set_solver. done.
Qed.

Lemma countb_pos {A} (p : A -> bool) l :
  0 < countb p l <-> exists x, x ∈ l /\ p x = true.
Proof.
  induction l as [|y l IH]; simpl.
  - split; [lia|]. intros (x & Hx & _). set_solver.
  - pose proof (countb_nonneg p l). destruct (p y) eqn:E.
    + split; [|lia]. intros _. exists y. set_solver.
    + rewrite Z.add_0_l, IH. split; intros (x & Hx & Hp); exists x; split; auto; [set_solver|].
      apply elem_of_cons in Hx as [->|]; congruence.
Qed.

(** Changing a predicate at one element of a duplicate-free list. *)
Lemma countb_change {A} (p q : A -> bool) l x :
  NoDup l -> x ∈ l -> (forall y, y ∈ l -> y <> x -> q y = p y) ->
  countb q l = countb p l + (if q x then 1 else 0) - (if p x then 1 else 0).
Proof.
  induction l as [|y l IH]; intros Hnd Hx Hq; [set_solver|].
  apply NoDup_cons in Hnd as [Hy Hnd]. simpl.
  apply elem_of_cons in Hx as [->|Hx].
  - rewrite (countb_ext q p l); [lia|]. intros z Hz. apply Hq; set_solver.
  - assert (y <> x) by set_solver. rewrite (Hq y), IH by set_solver. lia.
Qed.

Lemma filter_ext_in {A} (P Q : A -> Prop) `{!forall x, Decision (P x)} `{!forall x, Decision (Q x)} (l : list A) :
  (forall x, x ∈ l -> P x <-> Q x) -> filter P l = filter Q l.
Proof.
  induction l as [|x l IH]; intros Hpq; [done|]. rewrite !filter_cons, IH by set_solver.
  assert (P x <-> Q x) by set_solver. repeat case_decide; tauto.
Qed.

(** ** Lemmas: pairwise relations *)

Lemma pairwise_app {A} (R : A -> A -> Prop) l1 l2 :
  pairwise R (l1 ++ l2) <->
  pairwise R l1 /\ pairwise R l2 /\ forall x y, x ∈ l1 -> y ∈ l2 -> R x y.
Proof.
  induction l1 as [|x l1 IH]; simpl; [set_solver|]. rewrite IH, Forall_app, !Forall_forall. set_solver.
Qed.

Lemma pairwise_perm {A} (R : A -> A -> Prop) l1 l2 :
  (forall x y, R x y -> R y x) -> l1 ≡ₚ l2 -> pairwise R l1 -> pairwise R l2.
Proof.
  intros Hsym. induction 1 as [|x l l' Hp IH|x y l|l l' l'' _ IH1 _ IH2]; simpl; [done| | |tauto].
  - intros [Hx Hl]. split; [by rewrite <- Hp|auto].
  - rewrite !Forall_cons. naive_solver.
Qed.

Lemma pairwise_impl {A} (R S : A -> A -> Prop) l :
  (forall x y, x ∈ l -> y ∈ l -> R x y -> S x y) -> pairwise R l -> pairwise S l.
Proof.
  induction l as [|x l IH]; simpl; [done|]. intros HRS [Hx Hl]. split.
  - rewrite Forall_forall in *. set_solver.
  - apply IH; set_solver.
Qed.

Lemma pairwise_fmap {A B} (R : B -> B -> Prop) (f : A -> B) l :
  pairwise R (f <$> l) <-> pairwise (fun x y => R (f x) (f y)) l.
Proof.
  induction l as [|x l IH]; simpl; [done|]. rewrite IH, Forall_fmap. done.
Qed.

Lemma pairwise_lookup {A} (R : A -> A -> Prop) l i j x y :
  pairwise R l -> (i < j)%nat -> l !! i = Some x -> l !! j = Some y -> R x y.
Proof.
  revert i j. induction l as [|z l IH]; intros i j Hp Hij Hi Hj; [done|].
  destruct Hp as [Hz Hp], j as [|j]; [lia|]. destruct i as [|i]; simpl in Hi, Hj.
  - injection Hi as ->. by eapply Forall_lookup_1 in Hz.
  - apply (IH i j); [done|lia|done..].
Qed.

(** ** Lemmas: arrays *)

Section array.
Context {A : Type} `{Inhabited A}.
Implicit Types l : list A.

Lemma arr_get_set_eq l i x : 0 <= i < Z.of_nat (length l) -> l.[i := x].[i] = x.
Proof. intros. apply list_lookup_total_insert_eq. lia. Qed.

Lemma arr_get_set_ne l i j x : 0 <= i -> 0 <= j -> i <> j -> l.[i := x].[j] = l.[j].
Proof. intros. apply list_lookup_total_insert_ne. lia. Qed.

Lemma arr_set_length l i x : length (l.[i := x]) = length l.
Proof. apply length_insert. Qed.

Lemma arr_get_elem l i : 0 <= i < Z.of_nat (length l) -> l.[i] ∈ l.
Proof.
  intros. apply list_elem_of_lookup. exists (Z.to_nat i).
  apply list_lookup_lookup_total_lt. lia.
Qed.

(** The entries in use of an array with [n] of them. *)
Lemma arr_take_lookup l n i :
  0 <= n <= Z.of_nat (length l) -> 0 <= i < n ->
  take (Z.to_nat n) l !! Z.to_nat i = Some l.[i].
Proof.
  intros Hn Hi. rewrite lookup_take_lt by lia. apply list_lookup_lookup_total_lt. lia.
Qed.

Lemma arr_take_forall l n (P : Z -> A -> Prop) :
  0 <= n <= Z.of_nat (length l) ->
  (forall i, 0 <= i < n -> P i l.[i]) <->
  (forall i x, take (Z.to_nat n) l !! i = Some x -> P (Z.of_nat i) x).
Proof.
  intros Hn. split; intros HP.
  - intros i x Hx. pose proof Hx as Hlt%lookup_lt_Some. rewrite length_take in Hlt.
    rewrite lookup_take_lt in Hx by lia. apply list_lookup_total_correct in Hx.
    specialize (HP (Z.of_nat i) ltac:(lia)). by rewrite Nat2Z.id, Hx in HP.
  - intros i Hi. specialize (HP (Z.to_nat i) l.[i]). rewrite Z2Nat.id in HP by lia.
    apply HP. by apply arr_take_lookup.
Qed.

(** Iterating over the indices in use visits the entries in use. *)
Lemma arr_take_seqZ l n :
  0 <= n <= Z.of_nat (length l) -> (fun i => l.[i]) <$> seqZ 0 n = take (Z.to_nat n) l.
Proof.
  intros Hn. apply list_eq. intros i. rewrite list_lookup_fmap.
  destruct (decide (i < Z.to_nat n)%nat).
  - rewrite lookup_seqZ_lt by lia. simpl. rewrite lookup_take_lt by lia.
    replace (Z.to_nat (0 + Z.of_nat i)) with i by lia. symmetry. apply list_lookup_lookup_total_lt. lia.
  - rewrite lookup_seqZ_ge, lookup_take_ge by lia. done.
Qed.

Lemma arr_take_length l n :
  0 <= n <= Z.of_nat (length l) -> Z.of_nat (length (take (Z.to_nat n) l)) = n.
Proof. intros. rewrite length_take. lia. Qed.

Lemma arr_take_set l n i x :
  0 <= i < n -> take (Z.to_nat n) (l.[i := x]) = (take (Z.to_nat n) l).[i := x].
Proof. intros. apply take_insert_lt. lia. Qed.

Lemma arr_take_push l n x :
  0 <= n < Z.of_nat (length l) ->
  take (Z.to_nat (n + 1)) (l.[n := x]) = take (Z.to_nat n) l ++ [x].
Proof.
  intros Hn. replace (Z.to_nat (n + 1)) with (S (Z.to_nat n)) by lia.
  rewrite (take_S_r _ _ x) by (apply list_lookup_insert_eq; lia).
  rewrite take_insert_ge by lia. done.
Qed.
End array.

Lemma forallb_seqZ (f : Z -> bool) a n :
  forallb f (seqZ a n) = true <-> (forall i, a <= i < a + n -> f i = true).
Proof.
  rewrite forallb_forall. setoid_rewrite <- list_elem_of_In. split; intros H i Hi.
  - apply H, elem_of_seqZ. lia.
  - apply elem_of_seqZ in Hi. apply H. lia.
Qed.

(** ** Automation *)

Create HintDb nx.
#[export] Hint Resolve wrap_fits countb_nonneg : nx.

(** ** Loops over an index *)

Lemma for_seqZ {A} (I : Z -> A -> Prop) (f : A -> Z -> A) lo n s :
  0 <= n -> I lo s -> (forall i s, lo <= i < lo + n -> I i s -> I (i + 1) (f s i)) ->
  I (lo + n) (for_each (seqZ lo n) f s).
Proof.
  intros Hn. revert lo s. pattern n. apply natlike_ind; [| |done].
  - intros lo s H0 _. by rewrite Z.add_0_r.
  - intros m Hm IH lo s H0 Hstep. rewrite seqZ_cons, Z.pred_succ by lia. unfold for_each. simpl.
    replace (lo + Z.succ m) with (Z.succ lo + m) by lia. apply IH.
    + rewrite <- Z.add_1_r. apply Hstep; [lia|done].
    + intros i s' Hi. apply Hstep. lia.
Qed.

Lemma for_each_snoc {A B} (l : list A) x (f : B -> A -> B) s : for_each (l ++ [x]) f s = f (for_each l f s) x.
Proof. unfold for_each. by rewrite fold_left_app. Qed.

Lemma rev_for_seqZ {A} (I : Z -> A -> Prop) (f : A -> Z -> A) lo n s :
  0 <= n -> I (lo + n) s -> (forall i s, lo <= i < lo + n -> I (i + 1) s -> I i (f s i)) ->
  I lo (for_each (reverse (seqZ lo n)) f s).
Proof.
  intros Hn. revert s. pattern n. apply natlike_ind; [|clear n Hn|done].
  - intros s H0 _. by rewrite Z.add_0_r in H0.
  - intros n Hn IH s H0 Hstep. replace (Z.succ n) with (Z.of_nat (S (Z.to_nat n))) by lia.
    rewrite seqZ_S, reverse_snoc. unfold for_each. simpl. rewrite Z2Nat.id by lia. apply IH.
    + apply Hstep; [lia|]. by replace (lo + n + 1) with (lo + Z.succ n) by lia.
    + intros i s' Hi. apply Hstep. lia.
Qed.
