(* ===== verification/Abi.v ===== *)
(** * System call ABI: error codes, handle rights and limits

    Constants of [abi/nanox/syscall.h] used by every kernel component, and the
    status type the kernel functions return ([NX_OK] is [Ok]). *)
From S2P Require Import Prelude.

(** [enum nx_error]; [NX_OK] is the constructor [Ok] of [res]. *)
Inductive nx_error : Set :=
| NX_ENOSYS | NX_EINVAL | NX_EFAULT | NX_EBADHANDLE | NX_EWRONGTYPE | NX_EACCESS
| NX_ENOMEM | NX_EFULL | NX_EEXISTS | NX_ERANGE | NX_EDEAD | NX_ENOENT | NX_EIO
| NX_ENOLINK | NX_ENODEV.

#[export] Instance nx_error_eq_dec : EqDecision nx_error.
Proof. solve_decision. Defined.

Definition nx_error_code (e : nx_error) : Z :=
  match e with
  | NX_ENOSYS => 1 | NX_EINVAL => 2 | NX_EFAULT => 3 | NX_EBADHANDLE => 4
  | NX_EWRONGTYPE => 5 | NX_EACCESS => 6 | NX_ENOMEM => 7 | NX_EFULL => 8
  | NX_EEXISTS => 9 | NX_ERANGE => 10 | NX_EDEAD => 11 | NX_ENOENT => 12
  | NX_EIO => 13 | NX_ENOLINK => 14 | NX_ENODEV => 15
  end.

(** Result of a fallible kernel function: its out-parameters or the status. *)
Inductive res (A : Type) : Type :=
| Ok (a : A)
| Err (e : nx_error).
Arguments Ok {A} a.
Arguments Err {A} e.

Definition NX_RIGHT_READ : Z := 1 <<. 0.
Definition NX_RIGHT_WRITE : Z := 1 <<. 1.
Definition NX_RIGHT_MAP : Z := 1 <<. 2.
Definition NX_RIGHT_TRANSFER : Z := 1 <<. 3.
Definition NX_RIGHT_DUPLICATE : Z := 1 <<. 4.
Definition NX_RIGHT_SEND : Z := 1 <<. 5.
Definition NX_RIGHT_RECV : Z := 1 <<. 6.
Definition NX_RIGHT_INSPECT : Z := 1 <<. 7.
Definition NX_RIGHT_MANAGE : Z := 1 <<. 8.
Definition NX_RIGHT_SOVEREIGN : Z := 1 <<. 9.
Definition NX_RIGHTS_ALL : Z := 0x3FF.

Definition NX_PROT_READ : Z := 1.
Definition NX_PROT_WRITE : Z := 2.

Definition NX_USER_BASE : Z := 0x0000008000000000.
Definition NX_USER_TOP : Z := 0x0000800000000000.
Definition NX_USER_STACK_TOP : Z := 0x00007FFFFFFF0000.
Definition NX_USER_STACK_PAGES : Z := 16.

Definition NX_IPC_MSG_MAX : Z := 128.
Definition NX_DEBUG_WRITE_MAX : Z := 256.
Definition NX_VMO_MAX_PAGES : Z := 64.
Definition NX_SLEEP_MAX : Z := 1000.
Definition NX_SPAWN_PATH_MAX : Z := 64.

(** [enum nx_event_type] *)
Definition NX_EV_TASK_CREATED : Z := 1.
Definition NX_EV_TASK_STARTED : Z := 2.
Definition NX_EV_TASK_EXITED : Z := 3.
Definition NX_EV_TASK_KILLED : Z := 4.
Definition NX_EV_TASK_FAULTED : Z := 5.
Definition NX_EV_TASK_REAPED : Z := 6.

(** [struct nx_event] *)
Record nx_event := mk_event {
  ev_seq : Z;
  ev_tick : Z;
  ev_type : Z;
  ev_task : Z;
  ev_arg : Z;
}.

#[export] Instance nx_event_inhabited : Inhabited nx_event :=
  populate (mk_event 0 0 0 0 0).
