(* ===== verification/Handle.v ===== *)
(** * Kernel objects and per-task handle tables

    Models [kernel/obj/handle.h] and [kernel/obj/handle.c].  The objects
    themselves live in a world [W] that the table operations reach through the
    interface [ObjHeap]: reading and writing the [struct nx_object] header
    behind a pointer and running the [destroy] callback stored in it. *)
From S2P Require Import Prelude Abi.

(** ** Objects *)

Definition NX_HANDLE_SLOTS : Z := 32.
Definition NX_HANDLE_GEN_MAX : Z := 0x7FFFFF.

(** [enum nx_obj_type] *)
Definition NX_OBJ_ANY : Z := 0.
Definition NX_OBJ_TASK : Z := 1.
Definition NX_OBJ_ENDPOINT : Z := 2.
Definition NX_OBJ_VMO : Z := 3.
Definition NX_OBJ_SOVEREIGN : Z := 4.
Definition NX_OBJ_CHANNEL : Z := 5.
Definition NX_OBJ_BLOCKDEV : Z := 6.
Definition NX_OBJ_NETDEV : Z := 7.

(** [struct nx_object]; [o_destroy] tells whether the callback is non-NULL. *)
Record nx_object := mk_object {
  o_type : Z;
  o_refs : Z;
  o_destroy : bool;
}.

Class ObjHeap (oid W : Type) := {
  obj_get : W -> oid -> nx_object;
  obj_set : W -> oid -> nx_object -> W;
  (** [o->destroy(o)] *)
  obj_destroy : W -> oid -> W;
}.

(** What the table operations rely on: headers are plain memory cells. *)
Class ObjHeapLaws (oid W : Type) `{ObjHeap oid W} := {
  obj_get_set_eq : forall w o x, obj_get (obj_set w o x) o = x;
  obj_get_set_ne : forall w o o' x, o <> o' -> obj_get (obj_set w o x) o' = obj_get w o';
}.

Section objects.
Context {oid W : Type} `{ObjHeap oid W}.

Definition set_refs (x : nx_object) (n : Z) : nx_object :=
  mk_object (o_type x) n (o_destroy x).

Definition nx_obj_ref (w : W) (o : oid) : W :=
  let x := obj_get w o in obj_set w o (set_refs x (u32 (o_refs x + 1))).

Definition nx_obj_unref (w : W) (o : oid) : W :=
  let x := obj_get w o in
  if o_refs x =? 0 then w
  else
    let n := o_refs x - 1 in
    let w1 := obj_set w o (set_refs x n) in
    if (n =? 0) && o_destroy x then obj_destroy w1 o else w1.
End objects.

(** ** Handle tables *)

(** [struct nx_handle_entry]; [h_obj = None] is the NULL pointer (free slot). *)
Record nx_handle_entry (oid : Type) := mk_entry {
  h_obj : option oid;
  h_rights : Z;
  h_gen : Z;
}.
Arguments mk_entry {oid}.
Arguments h_obj {oid}.
Arguments h_rights {oid}.
Arguments h_gen {oid}.

#[export] Instance nx_handle_entry_inhabited {oid} : Inhabited (nx_handle_entry oid) :=
  populate (mk_entry None 0 0).

(** [struct nx_handle_table]: the array [e] of [NX_HANDLE_SLOTS] entries. *)
Abbreviation nx_handle_table oid := (list (nx_handle_entry oid)).

Definition slots : list Z := seqZ 0 NX_HANDLE_SLOTS.

Definition encode (index gen : Z) : Z := u32 (u32 (gen <<. 8) |. (index + 1)).

Section table.
Context {oid W : Type} `{EqDecision oid} `{ObjHeap oid W}.
Implicit Types (t : nx_handle_table oid) (w : W).

Definition bump (e : nx_handle_entry oid) : nx_handle_entry oid :=
  mk_entry (h_obj e) (h_rights e)
    (if h_gen e >=? NX_HANDLE_GEN_MAX then 1 else u32 (h_gen e + 1)).

(** [e->obj = 0; e->rights = 0; bump(e);] *)
Definition release (e : nx_handle_entry oid) : nx_handle_entry oid :=
  bump (mk_entry None 0 (h_gen e)).

Definition nx_ht_init (t : nx_handle_table oid) : nx_handle_table oid :=
  for_each slots (fun t i => t.[i := mk_entry None 0 1]) t.

Definition is_free (e : nx_handle_entry oid) : bool :=
  match h_obj e with None => true | Some _ => false end.

Definition nx_ht_install t w (obj : oid) (rights : Z) :
    res Z * nx_handle_table oid * W :=
  if negb (rights &. ~. NX_RIGHTS_ALL =? 0) then (Err NX_EINVAL, t, w)
  else
    match find_first (fun i => is_free t.[i]) slots with
    | None => (Err NX_ENOMEM, t, w)
    | Some i =>
        (Ok (encode i (h_gen t.[i])),
         t.[i := mk_entry (Some obj) rights (h_gen t.[i])],
         nx_obj_ref w obj)
    end.

(** Index of the entry that [h] resolves to (the C code returns its address). *)
Definition entry t (h : Z) : option Z :=
  let slot := h &. 0xFF in
  let gen := h >>. 8 in
  if (slot =? 0) || (slot >? NX_HANDLE_SLOTS) || negb (h >>. 31 =? 0) then None
  else
    let e := t.[slot - 1] in
    if is_free e || negb (h_gen e =? gen) then None else Some (slot - 1).

Definition nx_ht_lookup t w (h type need : Z) : res (oid * Z) :=
  match entry t h with
  | None => Err NX_EBADHANDLE
  | Some i =>
      match h_obj t.[i] with
      | None => Err NX_EBADHANDLE (* excluded by [entry] *)
      | Some o =>
          if negb (type =? NX_OBJ_ANY) && negb (o_type (obj_get w o) =? type)
          then Err NX_EWRONGTYPE
          else if negb (h_rights t.[i] &. need =? need) then Err NX_EACCESS
          else Ok (o, h_rights t.[i])
      end
  end.

Definition nx_ht_close t w (h : Z) : res unit * nx_handle_table oid * W :=
  match entry t h with
  | None => (Err NX_EBADHANDLE, t, w)
  | Some i =>
      match h_obj t.[i] with
      | None => (Err NX_EBADHANDLE, t, w) (* excluded by [entry] *)
      | Some o => (Ok tt, t.[i := release t.[i]], nx_obj_unref w o)
      end
  end.

Definition nx_ht_dup t w (h rights : Z) : res Z * nx_handle_table oid * W :=
  match nx_ht_lookup t w h NX_OBJ_ANY NX_RIGHT_DUPLICATE with
  | Err e => (Err e, t, w)
  | Ok (o, have) =>
      if negb (rights &. ~. have =? 0) then (Err NX_EACCESS, t, w)
      else nx_ht_install t w o rights
  end.

(** The table's reference moves to the caller: [w] does not change. *)
Definition nx_ht_take t w (h rights : Z) : res oid * nx_handle_table oid :=
  match nx_ht_lookup t w h NX_OBJ_ANY NX_RIGHT_TRANSFER with
  | Err e => (Err e, t)
  | Ok (o, have) =>
      if negb (rights &. ~. have =? 0) then (Err NX_EACCESS, t)
      else
        match entry t h with
        | None => (Err NX_EBADHANDLE, t) (* excluded: the lookup succeeded *)
        | Some i => (Ok o, t.[i := release t.[i]])
        end
  end.

Definition nx_ht_clear t w : nx_handle_table oid * W :=
  for_each slots
    (fun '(t, w) i =>
       if is_free t.[i] then (t, w)
       else let '(_, t', w') := nx_ht_close t w (encode i (h_gen t.[i])) in (t', w'))
    (t, w).

Definition nx_ht_count t : Z := countb (fun i => negb (is_free t.[i])) slots.

(** ** Specification *)

(** Type invariant of a table. *)
Definition entry_wf (e : nx_handle_entry oid) : Prop :=
  1 <= h_gen e <= NX_HANDLE_GEN_MAX /\
  0 <= h_rights e /\ h_rights e &. ~. NX_RIGHTS_ALL = 0 /\
  (h_obj e = None -> h_rights e = 0).

Definition table_wf t : Prop :=
  Z.of_nat (length t) = NX_HANDLE_SLOTS /\ Forall entry_wf t.

(** Abstract state: the capabilities the table holds, by handle value. *)
Definition ht_caps t : gmap Z (oid * Z) :=
  list_to_map
    (omap (fun i =>
             match h_obj t.[i] with
             | Some o => Some (encode i (h_gen t.[i]), (o, h_rights t.[i]))
             | None => None
             end) slots).

(** Operations of a table and their execution, ignoring results. *)
Inductive ht_op : Type :=
| OpInstall (o : oid) (rights : Z)
| OpClose (h : Z)
| OpDup (h rights : Z)
| OpTake (h rights : Z)
| OpLookup (h type need : Z)
| OpClear.

(** Abstract semantics of the operations on a set of capabilities: what each
    result promises about the capabilities before and after. *)
Inductive ht_ret : Type :=
| RetHandle (r : res Z)
| RetUnit (r : res unit)
| RetObj (r : res oid)
| RetLookup (r : res (oid * Z))
| RetVoid.

Definition subset_of (r m : Z) : Prop := r &. ~. m = 0.

(** Taking a reference: the count goes up by one, nothing else changes. *)
Definition took_ref w (o : oid) w' : Prop :=
  w' = obj_set w o (mk_object (o_type (obj_get w o)) ((o_refs (obj_get w o) + 1) mod 2 ^ 32) (o_destroy (obj_get w o))).

(** Giving one up: an object that is not counted stays as it is, the count of any other goes
    down by one, and the callback runs when it reaches zero. *)
Inductive gave_ref w (o : oid) : W -> Prop :=
| gave_uncounted : o_refs (obj_get w o) = 0 -> gave_ref w o w
| gave_counted :
    o_refs (obj_get w o) <> 0 -> o_refs (obj_get w o) <> 1 \/ o_destroy (obj_get w o) = false ->
    gave_ref w o (obj_set w o (mk_object (o_type (obj_get w o)) (o_refs (obj_get w o) - 1) (o_destroy (obj_get w o))))
| gave_last :
    o_refs (obj_get w o) = 1 -> o_destroy (obj_get w o) = true ->
    gave_ref w o (obj_destroy (obj_set w o (mk_object (o_type (obj_get w o)) 0 true)) o).

Inductive gave_refs : W -> list oid -> W -> Prop :=
| gave_nil w : gave_refs w [] w
| gave_cons w o w1 l w' : gave_ref w o w1 -> gave_refs w1 l w' -> gave_refs w (o :: l) w'.

(** The type a lookup asks for. *)
Definition type_ok w (o : oid) (type : Z) : Prop := type = NX_OBJ_ANY \/ o_type (obj_get w o) = type.

Inductive cap_step (c : gmap Z (oid * Z)) w : ht_op -> ht_ret -> gmap Z (oid * Z) -> W -> Prop :=
| cap_install o r h w' :
    subset_of r NX_RIGHTS_ALL -> c !! h = None -> 0 < h < 2 ^ 31 -> took_ref w o w' ->
    cap_step c w (OpInstall o r) (RetHandle (Ok h)) (<[h := (o, r)]> c) w'
| cap_install_inval o r :
    ~ subset_of r NX_RIGHTS_ALL ->
    cap_step c w (OpInstall o r) (RetHandle (Err NX_EINVAL)) c w
| cap_install_full o r :
    subset_of r NX_RIGHTS_ALL -> Z.of_nat (size c) = NX_HANDLE_SLOTS ->
    cap_step c w (OpInstall o r) (RetHandle (Err NX_ENOMEM)) c w
| cap_close h o r w' :
    c !! h = Some (o, r) -> gave_ref w o w' -> cap_step c w (OpClose h) (RetUnit (Ok tt)) (delete h c) w'
| cap_close_bad h :
    c !! h = None -> cap_step c w (OpClose h) (RetUnit (Err NX_EBADHANDLE)) c w
| cap_dup h o have r h' w' :
    c !! h = Some (o, have) -> have &. NX_RIGHT_DUPLICATE = NX_RIGHT_DUPLICATE ->
    subset_of r have -> c !! h' = None -> 0 < h' < 2 ^ 31 -> took_ref w o w' ->
    cap_step c w (OpDup h r) (RetHandle (Ok h')) (<[h' := (o, r)]> c) w'
| cap_dup_bad h r :
    c !! h = None -> cap_step c w (OpDup h r) (RetHandle (Err NX_EBADHANDLE)) c w
| cap_dup_access h o have r :
    c !! h = Some (o, have) ->
    have &. NX_RIGHT_DUPLICATE <> NX_RIGHT_DUPLICATE \/ ~ subset_of r have ->
    cap_step c w (OpDup h r) (RetHandle (Err NX_EACCESS)) c w
| cap_dup_full h o have r :
    c !! h = Some (o, have) -> have &. NX_RIGHT_DUPLICATE = NX_RIGHT_DUPLICATE ->
    subset_of r have -> Z.of_nat (size c) = NX_HANDLE_SLOTS ->
    cap_step c w (OpDup h r) (RetHandle (Err NX_ENOMEM)) c w
| cap_take h o have r : (* the reference moves to the caller *)
    c !! h = Some (o, have) -> have &. NX_RIGHT_TRANSFER = NX_RIGHT_TRANSFER ->
    subset_of r have -> cap_step c w (OpTake h r) (RetObj (Ok o)) (delete h c) w
| cap_take_bad h r :
    c !! h = None -> cap_step c w (OpTake h r) (RetObj (Err NX_EBADHANDLE)) c w
| cap_take_access h o have r :
    c !! h = Some (o, have) ->
    have &. NX_RIGHT_TRANSFER <> NX_RIGHT_TRANSFER \/ ~ subset_of r have ->
    cap_step c w (OpTake h r) (RetObj (Err NX_EACCESS)) c w
| cap_lookup h type need o have : (* no reference is taken *)
    c !! h = Some (o, have) -> type_ok w o type -> have &. need = need ->
    cap_step c w (OpLookup h type need) (RetLookup (Ok (o, have))) c w
| cap_lookup_bad h type need :
    c !! h = None -> cap_step c w (OpLookup h type need) (RetLookup (Err NX_EBADHANDLE)) c w
| cap_lookup_type h type need o have :
    c !! h = Some (o, have) -> ~ type_ok w o type ->
    cap_step c w (OpLookup h type need) (RetLookup (Err NX_EWRONGTYPE)) c w
| cap_lookup_access h type need o have :
    c !! h = Some (o, have) -> type_ok w o type -> have &. need <> need ->
    cap_step c w (OpLookup h type need) (RetLookup (Err NX_EACCESS)) c w
| cap_clear l w' : (* every capability gives up its reference *)
    l ≡ₚ (map_to_list c).*2.*1 -> gave_refs w l w' -> cap_step c w OpClear RetVoid ∅ w'.

(** Arguments of the operations are 32-bit values. *)
Definition op_typed (op : ht_op) : Prop :=
  match op with
  | OpInstall _ r => fits 32 r
  | OpClose h => fits 32 h
  | OpDup h r | OpTake h r => fits 32 h /\ fits 32 r
  | OpLookup h type need => fits 32 h /\ fits 32 type /\ fits 32 need
  | OpClear => True
  end.

(** One table operation with its result. *)
Definition ht_exec t w (op : ht_op) : ht_ret * nx_handle_table oid * W :=
  match op with
  | OpInstall o r => let '(x, t', w') := nx_ht_install t w o r in (RetHandle x, t', w')
  | OpClose h => let '(x, t', w') := nx_ht_close t w h in (RetUnit x, t', w')
  | OpDup h r => let '(x, t', w') := nx_ht_dup t w h r in (RetHandle x, t', w')
  | OpTake h r => let '(x, t') := nx_ht_take t w h r in (RetObj x, t', w)
  | OpLookup h type need => (RetLookup (nx_ht_lookup t w h type need), t, w)
  | OpClear => let '(t', w') := nx_ht_clear t w in (RetVoid, t', w')
  end.

Definition ht_run (s : nx_handle_table oid * W) (ops : list ht_op) :
    nx_handle_table oid * W :=
  fold_left (fun '(t, w) op => let '(_, t', w') := ht_exec t w op in (t', w')) ops s.
End table.

(** A small heap of objects named by numbers, on which the operations run; the
    callback only records which object was destroyed. *)
Record sample_heap := mk_heap {
  sh_objs : gmap Z nx_object;
  sh_dead : list Z;
}.

#[export] Instance sample_ObjHeap : ObjHeap Z sample_heap := {|
  obj_get w o := default (mk_object 0 0 false) (sh_objs w !! o);
  obj_set w o x := mk_heap (<[o := x]> (sh_objs w)) (sh_dead w);
  obj_destroy w o := mk_heap (sh_objs w) (sh_dead w ++ [o]);
|}.

#[export] Instance sample_ObjHeapLaws : ObjHeapLaws Z sample_heap.
Proof.
  split; intros; simpl.
  - by rewrite lookup_insert_eq.
  - by rewrite lookup_insert_ne.
Qed.

Definition sample_table : nx_handle_table Z := nx_ht_init (replicate 32 inhabitant).
Definition sample_world : sample_heap :=
  mk_heap {[1 := mk_object NX_OBJ_VMO 1 true; 2 := mk_object NX_OBJ_TASK 1 true]} [].

(** ** Handle values *)

Lemma slots_elem i : i ∈ slots <-> 0 <= i < NX_HANDLE_SLOTS.
Proof. unfold slots. rewrite elem_of_seqZ. lia. Qed.

Lemma encode_val i g :
  0 <= i < NX_HANDLE_SLOTS -> 0 <= g <= NX_HANDLE_GEN_MAX -> encode i g = g * 256 + (i + 1).
Proof.
  unfold encode, NX_HANDLE_SLOTS, NX_HANDLE_GEN_MAX. intros Hi Hg.
  rewrite Z.shiftl_mul_pow2, (wrap_small 32 (_ * _)) by (unfold fits; lia).
  rewrite <- Z.add_nocarry_lor.
  - rewrite wrap_small by (unfold fits; lia). lia.
  - rewrite <- Z.shiftl_mul_pow2 by lia. apply Z.bits_inj'. intros n Hn.
    rewrite Z.land_spec, Z.bits_0. destruct (Z.lt_ge_cases n 8).
    + rewrite Z.shiftl_spec_low by lia. done.
    + rewrite (testbit_high 8 (i + 1)) by (unfold fits; lia). apply andb_false_r.
Qed.

Lemma handle_fields h :
  h &. 0xFF = h mod 256 /\ h >>. 8 = h / 256 /\ h >>. 31 = h / 2 ^ 31.
Proof.
  split_and!.
  - change 0xFF with (Z.ones 8). apply land_ones_mod. lia.
  - apply Z.shiftr_div_pow2. lia.
  - apply Z.shiftr_div_pow2. lia.
Qed.

Section table_lemmas.
Context {oid W : Type} `{EqDecision oid} `{HW : ObjHeap oid W}.
Implicit Types (t : nx_handle_table oid) (w : W).

Lemma table_wf_entry t i :
  table_wf t -> 0 <= i < NX_HANDLE_SLOTS -> entry_wf t.[i].
Proof.
  intros [Hl Ht] Hi. rewrite Forall_forall in Ht. apply Ht, arr_get_elem. lia.
Qed.

Lemma entry_Some t h i :
  table_wf t ->
  entry t h = Some i <->
  0 <= i < NX_HANDLE_SLOTS /\ is_free t.[i] = false /\ h = encode i (h_gen t.[i]).
Proof.
  intros Hwf. unfold entry. destruct (handle_fields h) as (-> & -> & ->).
  pose proof (Z.div_mod h 256 ltac:(lia)) as Hdm.
  pose proof (Z.mod_pos_bound h 256 ltac:(lia)) as Hm.
  split.
  - cbv zeta. repeat guard_case; intros Hs; simplify_eq. breflect.
    pose proof (table_wf_entry t (h mod 256 - 1) Hwf ltac:(lia)) as [Hg _].
    split_and!; [lia|lia|done|]. rewrite encode_val by lia. lia.
  - intros (Hi & Hf & ->). pose proof (table_wf_entry t i Hwf Hi) as [Hg _].
    set (g := h_gen t.[i]) in *.
    rewrite encode_val in * by lia. unfold NX_HANDLE_SLOTS, NX_HANDLE_GEN_MAX in *.
    assert (Hmod : (g * 256 + (i + 1)) mod 256 = i + 1).
    { rewrite Z.add_comm, Z.mod_add by lia. apply Z.mod_small. lia. }
    assert (Hdiv : (g * 256 + (i + 1)) / 256 = g) by lia.
    rewrite Hmod, Hdiv, (Z.div_small _ (2 ^ 31)) by lia.
    replace (i + 1 - 1) with i by lia.
    rewrite Hf. fold g.
    destruct (Z.eqb_spec (i + 1) 0); [lia|]. rewrite Z.gtb_ltb.
    destruct (Z.ltb_spec 32 (i + 1)); [lia|]. by rewrite !Z.eqb_refl.
Qed.

Lemma entry_None t h :
  table_wf t ->
  (forall i, 0 <= i < NX_HANDLE_SLOTS -> is_free t.[i] = false -> h <> encode i (h_gen t.[i])) ->
  entry t h = None.
Proof.
  intros Hwf Hn. destruct (entry t h) as [i|] eqn:E; [|done].
  apply entry_Some in E as (? & ? & ->); [|done..]. exfalso. by eapply Hn.
Qed.

Lemma encode_inj i j g g' :
  0 <= i < NX_HANDLE_SLOTS -> 0 <= j < NX_HANDLE_SLOTS ->
  1 <= g <= NX_HANDLE_GEN_MAX -> 1 <= g' <= NX_HANDLE_GEN_MAX ->
  encode i g = encode j g' -> i = j /\ g = g'.
Proof.
  intros. rewrite !encode_val in * by lia.
  unfold NX_HANDLE_SLOTS, NX_HANDLE_GEN_MAX in *. lia.
Qed.

Lemma encode_pos i g :
  0 <= i < NX_HANDLE_SLOTS -> 0 <= g <= NX_HANDLE_GEN_MAX -> 0 < encode i g < 2 ^ 31.
Proof.
  intros. rewrite encode_val by lia. unfold NX_HANDLE_SLOTS, NX_HANDLE_GEN_MAX in *. lia.
Qed.

Lemma is_free_obj (e : nx_handle_entry oid) :
  is_free e = false <-> is_Some (h_obj e).
Proof. rewrite is_Some_alt. unfold is_free. destruct (h_obj e); naive_solver. Qed.

(** ** The abstract state *)

(** The list behind [ht_caps] has no duplicate handle value. *)
Lemma ht_caps_nodup t :
  table_wf t ->
  NoDup (omap (fun i =>
             match h_obj t.[i] with
             | Some o => Some (encode i (h_gen t.[i]), (o, h_rights t.[i]))
             | None => None
             end) slots).*1.
Proof.
  intros Hwf. set (f := fun i : Z => _).
  assert (Hsub : forall l, NoDup l -> Forall (fun i => 0 <= i < NX_HANDLE_SLOTS) l ->
    NoDup (omap f l).*1).
  { induction l as [|i l IH]; intros Hnl Hl; [constructor|].
    apply NoDup_cons in Hnl as [Hi Hnl]. apply Forall_cons in Hl as [Hi' Hl].
    simpl. unfold f at 1. destruct (h_obj t.[i]) as [o|] eqn:E; [|auto].
    simpl. apply NoDup_cons. split; [|auto].
    intros (p & Hp & Hin)%list_elem_of_fmap.
    apply list_elem_of_omap in Hin as (j & Hj & Hfj). unfold f in Hfj.
    destruct (h_obj t.[j]) eqn:Ej; [|done]. simplify_eq. simpl in Hp.
    rewrite Forall_forall in Hl.
    destruct (table_wf_entry t i), (table_wf_entry t j); auto.
    apply encode_inj in Hp as [-> _]; auto. }
  apply Hsub; [apply NoDup_seqZ|]. apply Forall_forall. intros i. apply slots_elem.
Qed.

Lemma ht_caps_entry t h :
  table_wf t ->
  ht_caps t !! h =
    match entry t h with
    | Some i => match h_obj t.[i] with
                | Some o => Some (o, h_rights t.[i])
                | None => None
                end
    | None => None
    end.
Proof.
  intros Hwf. pose proof (ht_caps_nodup t Hwf) as Hnd.
  unfold ht_caps. set (f := fun i : Z => _) in *.
  destruct (entry t h) as [i|] eqn:E.
  - apply entry_Some in E as (Hi & Hf & ->); [|done].
    apply is_free_obj in Hf as [o Ho]. rewrite Ho.
    apply elem_of_list_to_map; [done|].
    apply list_elem_of_omap. exists i. split; [by apply slots_elem|].
    unfold f. by rewrite Ho.
  - apply not_elem_of_list_to_map. intros (p & Hp & Hin)%list_elem_of_fmap.
    apply list_elem_of_omap in Hin as (j & Hj & Hfj). unfold f in Hfj.
    destruct (h_obj t.[j]) eqn:Ej; [|done]. simplify_eq. simpl in E.
    assert (Hs : entry t (encode j (h_gen t.[j])) = Some j); [|congruence].
    apply slots_elem in Hj. apply entry_Some; [done|].
    split_and!; [lia|lia| |done]. apply is_free_obj. by rewrite Ej.
Qed.

Lemma ht_caps_size t : table_wf t -> Z.of_nat (size (ht_caps t)) = nx_ht_count t.
Proof.
  intros Hwf. unfold ht_caps, nx_ht_count.
  rewrite map_size_list_to_map by by apply ht_caps_nodup.
  induction slots as [|i l IH]; [done|]. cbn [countb omap list_omap].
  unfold is_free at 1. destruct (h_obj t.[i]); cbn [negb]; simpl length; lia.
Qed.

Lemma no_free_slot_count t :
  find_first (fun i => is_free t.[i]) slots = None -> nx_ht_count t = NX_HANDLE_SLOTS.
Proof.
  unfold nx_ht_count. intros Hn. apply find_first_None in Hn.
  rewrite (countb_ext _ (fun _ => true)); [done|].
  intros i Hi. rewrite Forall_forall in Hn. by rewrite Hn.
Qed.

Lemma ht_caps_Some t h o r :
  table_wf t ->
  ht_caps t !! h = Some (o, r) <->
  exists i, 0 <= i < NX_HANDLE_SLOTS /\ h = encode i (h_gen t.[i]) /\
            h_obj t.[i] = Some o /\ h_rights t.[i] = r.
Proof.
  intros Hwf. rewrite ht_caps_entry by done. split.
  - destruct (entry t h) as [i|] eqn:E; [|done].
    apply entry_Some in E as (? & ? & ->); [|done].
    destruct (h_obj t.[i]) eqn:Ho; [|done]. intros [= <- <-]. by exists i.
  - intros (i & Hi & -> & Ho & Hr).
    rewrite (proj2 (entry_Some t _ i Hwf)); [by rewrite Ho, Hr|].
    split_and!; [lia..| |done]. apply is_free_obj. by rewrite Ho.
Qed.

Lemma set_entry_wf t i e :
  table_wf t -> entry_wf e -> table_wf t.[i := e].
Proof.
  intros [Hl Ht] He. split; [by rewrite arr_set_length|]. by apply Forall_insert.
Qed.

Lemma release_wf (e : nx_handle_entry oid) : entry_wf e -> entry_wf (release e).
Proof.
  unfold entry_wf, release, bump. cbn. intros (Hg & _).
  unfold NX_HANDLE_GEN_MAX in *. rewrite Z.geb_leb.
  destruct (Z.leb_spec 8388607 (h_gen e)); split_and!; try lia; try done.
  all: rewrite wrap_small by (unfold fits; lia); lia.
Qed.

(** Two tables that agree outside slot [i] hold the same other capabilities. *)
Lemma ht_caps_set_ne t i e h :
  table_wf t -> entry_wf e -> 0 <= i < NX_HANDLE_SLOTS ->
  h <> encode i (h_gen e) -> h <> encode i (h_gen t.[i]) ->
  ht_caps t.[i := e] !! h = ht_caps t !! h.
Proof.
  intros Hwf He Hi Hn1 Hn2. pose proof (set_entry_wf t i e Hwf He) as Hwf'.
  pose proof Hwf as [Hl _].
  apply option_eq. intros [o r]. rewrite !ht_caps_Some by done.
  split; intros (j & Hj & -> & Ho & Hr); exists j;
    (destruct (decide (i = j)) as [->|]; [by rewrite ?arr_get_set_eq in * by lia|]);
    by rewrite !arr_get_set_ne in * by lia.
Qed.

Lemma ht_caps_install t i o r :
  table_wf t -> 0 <= i < NX_HANDLE_SLOTS -> is_free t.[i] = true ->
  entry_wf (mk_entry (Some o) r (h_gen t.[i])) ->
  ht_caps t.[i := mk_entry (Some o) r (h_gen t.[i])] =
    <[encode i (h_gen t.[i]) := (o, r)]> (ht_caps t) /\
  ht_caps t !! encode i (h_gen t.[i]) = None.
Proof.
  intros Hwf Hi Hf He. pose proof (set_entry_wf t i _ Hwf He) as Hwf'.
  pose proof Hwf as [Hl _]. split.
  - apply map_eq. intros h. destruct (decide (h = encode i (h_gen t.[i]))) as [->|Hne].
    + rewrite lookup_insert_eq. apply ht_caps_Some; [done|]. exists i.
      by rewrite arr_get_set_eq by lia.
    + rewrite lookup_insert_ne by done. by apply ht_caps_set_ne.
  - destruct (ht_caps t !! _) as [[o' r']|] eqn:E; [|done].
    apply ht_caps_Some in E as (j & Hj & Heq & Ho & _); [|done].
    pose proof (table_wf_entry t i Hwf Hi) as [? _].
    pose proof (table_wf_entry t j Hwf Hj) as [? _].
    apply encode_inj in Heq as [-> _]; [|lia..].
    unfold is_free in Hf. by rewrite Ho in Hf.
Qed.

Lemma ht_caps_release t i :
  table_wf t -> 0 <= i < NX_HANDLE_SLOTS ->
  ht_caps t.[i := release t.[i]] = delete (encode i (h_gen t.[i])) (ht_caps t).
Proof.
  intros Hwf Hi. pose proof (table_wf_entry t i Hwf Hi) as He.
  pose proof (release_wf _ He) as Hr. pose proof (set_entry_wf t i _ Hwf Hr) as Hwf'.
  pose proof Hwf as [Hl _].
  apply map_eq. intros h. apply option_eq. intros [o r].
  rewrite lookup_delete_Some, !ht_caps_Some by done. split.
  - intros (j & Hj & -> & Ho & Hr'). destruct (decide (i = j)) as [->|Hij].
    + rewrite arr_get_set_eq in Ho by lia. done.
    + rewrite !arr_get_set_ne in * by lia.
      pose proof (table_wf_entry t j Hwf Hj) as [? _]. destruct He as [? _].
      split; [|by exists j]. intros Heq. apply encode_inj in Heq as [? _]; lia.
  - intros (Hne & j & Hj & -> & Ho & Hr'). exists j.
    destruct (decide (i = j)) as [->|Hij]; [done|]. by rewrite !arr_get_set_ne by lia.
Qed.

(** ** Each operation against the abstract semantics *)

Lemma lookup_caps t w h type need :
  table_wf t ->
  nx_ht_lookup t w h type need =
    match ht_caps t !! h with
    | None => Err NX_EBADHANDLE
    | Some (o, r) =>
        if negb (type =? NX_OBJ_ANY) && negb (o_type (obj_get w o) =? type)
        then Err NX_EWRONGTYPE
        else if negb (r &. need =? need) then Err NX_EACCESS
        else Ok (o, r)
    end.
Proof.
  intros Hwf. rewrite ht_caps_entry by done. unfold nx_ht_lookup.
  destruct (entry t h) as [i|]; [|done]. by destruct (h_obj t.[i]).
Qed.

Lemma install_cases t w o r :
  table_wf t -> 0 <= r ->
  let '(x, t', w') := nx_ht_install t w o r in
  table_wf t' /\
  match x with
  | Ok h => subset_of r NX_RIGHTS_ALL /\ ht_caps t !! h = None /\ 0 < h < 2 ^ 31 /\
            ht_caps t' = <[h := (o, r)]> (ht_caps t) /\ w' = nx_obj_ref w o
  | Err NX_EINVAL => ~ subset_of r NX_RIGHTS_ALL /\ t' = t /\ w' = w
  | Err NX_ENOMEM => subset_of r NX_RIGHTS_ALL /\ nx_ht_count t = NX_HANDLE_SLOTS /\
                     t' = t /\ w' = w
  | Err _ => False
  end.
Proof.
  intros Hwf Hr. unfold nx_ht_install. guard_case; breflect; [done|].
  destruct (find_first _ slots) as [i|] eqn:E.
  - apply find_first_elem in E as [Hi Hf]. apply slots_elem in Hi.
    pose proof (table_wf_entry t i Hwf Hi) as Hi'.
    assert (entry_wf (mk_entry (Some o) r (h_gen t.[i]))) as He by (unfold entry_wf in *; naive_solver).
    split; [by apply set_entry_wf|].
    destruct (ht_caps_install t i o r) as [? ?]; [done..|].
    split_and!; try done; apply encode_pos; destruct Hi'; lia.
  - split_and!; try done. by apply no_free_slot_count.
Qed.

Lemma close_cases t w h :
  table_wf t ->
  let '(x, t', w') := nx_ht_close t w h in
  table_wf t' /\
  match x with
  | Ok _ => exists o r, ht_caps t !! h = Some (o, r) /\
                        ht_caps t' = delete h (ht_caps t) /\ w' = nx_obj_unref w o
  | Err NX_EBADHANDLE => ht_caps t !! h = None /\ t' = t /\ w' = w
  | Err _ => False
  end.
Proof.
  intros Hwf. unfold nx_ht_close. rewrite ht_caps_entry by done.
  destruct (entry t h) as [i|] eqn:E; [|done].
  apply entry_Some in E as (Hi & Hf & ->); [|done].
  apply is_free_obj in Hf as [o Ho]. rewrite Ho. split.
  - apply set_entry_wf; [done|]. by apply release_wf, table_wf_entry.
  - exists o, (h_rights t.[i]). split_and!; [done| |done]. by apply ht_caps_release.
Qed.

Lemma take_cases t w h r :
  table_wf t ->
  let '(x, t') := nx_ht_take t w h r in
  table_wf t' /\
  match x with
  | Ok o => exists have, ht_caps t !! h = Some (o, have) /\
                         have &. NX_RIGHT_TRANSFER = NX_RIGHT_TRANSFER /\
                         subset_of r have /\ ht_caps t' = delete h (ht_caps t)
  | Err NX_EBADHANDLE => ht_caps t !! h = None /\ t' = t
  | Err NX_EACCESS => t' = t /\ exists o have, ht_caps t !! h = Some (o, have) /\
      (have &. NX_RIGHT_TRANSFER <> NX_RIGHT_TRANSFER \/ ~ subset_of r have)
  | Err _ => False
  end.
Proof.
  intros Hwf. unfold nx_ht_take. rewrite lookup_caps by done.
  destruct (ht_caps t !! h) as [[o have]|] eqn:Ec; [|done]. simpl.
  guard_case; breflect; [naive_solver|]. guard_case; breflect; [naive_solver|].
  rewrite ht_caps_entry in Ec by done.
  destruct (entry t h) as [i|] eqn:E; [|done].
  apply entry_Some in E as (Hi & Hf & ->); [|done]. split.
  - apply set_entry_wf; [done|]. by apply release_wf, table_wf_entry.
  - exists have. split_and!; try done. by apply ht_caps_release.
Qed.

Lemma dup_cases t w h r :
  table_wf t -> 0 <= r ->
  let '(x, t', w') := nx_ht_dup t w h r in
  table_wf t' /\
  match x with
  | Ok h' => exists o have, ht_caps t !! h = Some (o, have) /\
      have &. NX_RIGHT_DUPLICATE = NX_RIGHT_DUPLICATE /\ subset_of r have /\
      ht_caps t !! h' = None /\ 0 < h' < 2 ^ 31 /\
      ht_caps t' = <[h' := (o, r)]> (ht_caps t) /\ w' = nx_obj_ref w o
  | Err NX_EBADHANDLE => ht_caps t !! h = None /\ t' = t /\ w' = w
  | Err NX_EACCESS => t' = t /\ w' = w /\ exists o have, ht_caps t !! h = Some (o, have) /\
      (have &. NX_RIGHT_DUPLICATE <> NX_RIGHT_DUPLICATE \/ ~ subset_of r have)
  | Err NX_ENOMEM => t' = t /\ w' = w /\ nx_ht_count t = NX_HANDLE_SLOTS /\
      exists o have, ht_caps t !! h = Some (o, have) /\ have &. NX_RIGHT_DUPLICATE = NX_RIGHT_DUPLICATE /\ subset_of r have
  | Err _ => False
  end.
Proof.
  intros Hwf Hr. unfold nx_ht_dup. rewrite lookup_caps by done.
  destruct (ht_caps t !! h) as [[o have]|] eqn:Ec; [|done]. simpl.
  guard_case; breflect; [naive_solver|]. guard_case; breflect; [naive_solver|].
  assert (subset_of r NX_RIGHTS_ALL) as Hsub.
  { apply ht_caps_Some in Ec as (i & Hi & -> & _ & <-); [|done].
    pose proof (table_wf_entry t i Hwf Hi) as (_ & _ & ? & _). by eapply subset_trans_mask. }
  pose proof (install_cases t w o r Hwf Hr) as Hc.
  destruct (nx_ht_install t w o r) as [[[h'|[]] t'] w']; naive_solver.
Qed.

(** The loop of [nx_ht_clear] over any set of slots. *)
Lemma clear_loop l t w :
  table_wf t -> NoDup l -> Forall (fun i => 0 <= i < NX_HANDLE_SLOTS) l ->
  let '(t', w') :=
    for_each l
      (fun '(t, w) i =>
         if is_free t.[i] then (t, w)
         else let '(_, t', w') := nx_ht_close t w (encode i (h_gen t.[i])) in (t', w'))
      (t, w) in
  table_wf t' /\
  (forall i, 0 <= i < NX_HANDLE_SLOTS ->
     t'.[i] = if decide (i ∈ l) then (if is_free t.[i] then t.[i] else release t.[i])
              else t.[i]) /\
  w' = fold_left nx_obj_unref (omap (fun i => h_obj t.[i]) l) w.
Proof.
  unfold for_each. revert t w. induction l as [|i l IH]; intros t w Hwf Hnd Hl; [done|].
  apply NoDup_cons in Hnd as [Hi Hnd]. apply Forall_cons in Hl as [Hi' Hl].
  assert (Hfm : forall e, omap (fun j => h_obj t.[i := e].[j]) l = omap (fun j => h_obj t.[j]) l).
  { intros e. apply list_omap_ext, Forall_Forall2_diag, Forall_forall.
    intros j Hj. rewrite Forall_forall in Hl. specialize (Hl j Hj).
    rewrite arr_get_set_ne; [done|lia|lia|set_solver]. }
  pose proof Hwf as [Hlen _]. simpl. destruct (is_free t.[i]) eqn:Hf.
  - specialize (IH t w Hwf Hnd Hl). destruct (fold_left _ l (t, w)) as [t' w'].
    destruct IH as (? & Ht' & ->). unfold is_free in Hf.
    destruct (h_obj t.[i]) eqn:Ho; [done|]. split_and!; [done| |done].
    intros j Hj. rewrite Ht' by done.
    destruct (decide (j = i)) as [->|].
    + unfold is_free. rewrite Ho. by repeat case_decide.
    + do 2 case_decide; set_solver.
  - unfold nx_ht_close. rewrite (proj2 (entry_Some t _ i Hwf)) by done.
    pose proof Hf as [o Ho]%is_free_obj. rewrite Ho.
    set (t1 := t.[i := release t.[i]]).
    assert (table_wf t1) as Hwf1 by (by apply set_entry_wf, release_wf, table_wf_entry).
    specialize (IH t1 (nx_obj_unref w o) Hwf1 Hnd Hl).
    destruct (fold_left _ l (t1, _)) as [t' w']. destruct IH as (? & Ht' & ->).
    split_and!; [done| |unfold t1; by rewrite Hfm].
    intros j Hj. rewrite Ht' by done. unfold t1.
    destruct (decide (j = i)) as [->|].
    + rewrite arr_get_set_eq by lia. rewrite Hf. do 2 case_decide; set_solver.
    + rewrite arr_get_set_ne by lia. do 2 case_decide; set_solver.
Qed.

Lemma clear_cases t w :
  table_wf t ->
  let '(t', w') := nx_ht_clear t w in
  table_wf t' /\ ht_caps t' = ∅ /\
  (forall i, 0 <= i < NX_HANDLE_SLOTS ->
     t'.[i] = if is_free t.[i] then t.[i] else release t.[i]) /\
  w' = fold_left nx_obj_unref (omap (fun i => h_obj t.[i]) slots) w.
Proof.
  intros Hwf. unfold nx_ht_clear.
  pose proof (clear_loop slots t w Hwf (NoDup_seqZ _ _)) as Hc.
  destruct (for_each slots _ (t, w)) as [t' w'].
  destruct Hc as (Hwf' & Ht' & ->). { apply Forall_forall. intros i. apply slots_elem. }
  assert (forall i, 0 <= i < NX_HANDLE_SLOTS ->
     t'.[i] = if is_free t.[i] then t.[i] else release t.[i]) as Hi.
  { intros i Hi. rewrite Ht' by done. case_decide as Hd; [done|].
    by rewrite slots_elem in Hd. }
  split_and!; try done. apply map_eq. intros h. rewrite lookup_empty.
  apply eq_None_not_Some. intros [[o r] Hs].
  apply ht_caps_Some in Hs as (i & Hr & _ & Ho & _); [|done].
  rewrite Hi in Ho by done. unfold is_free in Ho.
  destruct (h_obj t.[i]) eqn:E; [done|]. congruence.
Qed.

(** Generations only move forward, one step per operation at most. *)
Lemma bump_mod (e : nx_handle_entry oid) :
  entry_wf e -> h_gen (release e) mod NX_HANDLE_GEN_MAX = (h_gen e + 1) mod NX_HANDLE_GEN_MAX.
Proof.
  intros (Hg & _). unfold release, bump, NX_HANDLE_GEN_MAX in *. cbn. rewrite Z.geb_leb.
  destruct (Z.leb_spec 8388607 (h_gen e)) as [Hle|].
  - replace (h_gen e) with 8388607 by lia. done.
  - rewrite wrap_small by (unfold fits; lia). done.
Qed.

Lemma exec_wf t w op :
  table_wf t -> op_typed op ->
  let '(_, t', _) := ht_exec t w op in table_wf t'.
Proof.
  intros Hwf Hop. destruct op as [o r|h|h r|h r|h type need|]; simpl in *.
  - pose proof (install_cases t w o r Hwf (proj1 Hop)) as Hc.
    by destruct (nx_ht_install t w o r) as [[? ?] ?]; destruct Hc.
  - pose proof (close_cases t w h Hwf) as Hc.
    by destruct (nx_ht_close t w h) as [[? ?] ?]; destruct Hc.
  - pose proof (dup_cases t w h r Hwf (proj1 (proj2 Hop))) as Hc.
    by destruct (nx_ht_dup t w h r) as [[? ?] ?]; destruct Hc.
  - pose proof (take_cases t w h r Hwf) as Hc.
    by destruct (nx_ht_take t w h r) as [? ?]; destruct Hc.
  - done.
  - pose proof (clear_cases t w Hwf) as Hc.
    by destruct (nx_ht_clear t w) as [? ?]; destruct Hc.
Qed.

Lemma run_wf ops t w :
  table_wf t -> Forall op_typed ops -> table_wf (ht_run (t, w) ops).1.
Proof.
  revert t w. induction ops as [|op ops IH]; intros t w Hwf Hops; [done|].
  apply Forall_cons in Hops as [Hop Hops]. simpl.
  pose proof (exec_wf t w op Hwf Hop) as He.
  destruct (ht_exec t w op) as [[? t'] w']. by apply IH.
Qed.

Lemma set_gen_cases t i j e :
  table_wf t -> 0 <= i < NX_HANDLE_SLOTS -> 0 <= j < NX_HANDLE_SLOTS ->
  h_gen e = h_gen t.[j] \/ e = release t.[j] ->
  h_gen t.[j := e].[i] = h_gen t.[i] \/ t.[j := e].[i] = release t.[i].
Proof.
  intros [Hl _] Hi Hj He. destruct (decide (j = i)) as [->|].
  - rewrite arr_get_set_eq by lia. done.
  - rewrite arr_get_set_ne by lia. by left.
Qed.

Lemma exec_gen t w op i :
  table_wf t -> 0 <= i < NX_HANDLE_SLOTS ->
  let '(_, t', _) := ht_exec t w op in
  h_gen t'.[i] = h_gen t.[i] \/ t'.[i] = release t.[i].
Proof.
  intros Hwf Hi.
  assert (Hins : forall o r, let '(_, t', _) := nx_ht_install t w o r in
    h_gen t'.[i] = h_gen t.[i] \/ t'.[i] = release t.[i]).
  { intros o r. unfold nx_ht_install. guard_case; [by left|].
    destruct (find_first _ slots) as [j|] eqn:E; [|by left].
    apply find_first_elem in E as [Hj%slots_elem _].
    apply set_gen_cases; auto. }
  assert (Hrel : forall h j, entry t h = Some j ->
    h_gen t.[j := release t.[j]].[i] = h_gen t.[i] \/ t.[j := release t.[j]].[i] = release t.[i]).
  { intros h j (? & ? & _)%entry_Some; [|done]. apply set_gen_cases; auto. }
  destruct op as [o r|h|h r|h r|h type need|]; simpl.
  - specialize (Hins o r). by destruct (nx_ht_install t w o r) as [[? ?] ?].
  - unfold nx_ht_close. destruct (entry t h) as [j|] eqn:E; [|by left].
    destruct (h_obj t.[j]); [by eapply Hrel|by left].
  - unfold nx_ht_dup. destruct (nx_ht_lookup _ _ _ _ _) as [[o have]|]; [|by left].
    guard_case; [by left|]. specialize (Hins o r). by destruct (nx_ht_install t w o r) as [[? ?] ?].
  - unfold nx_ht_take. destruct (nx_ht_lookup _ _ _ _ _) as [[o have]|]; [|by left].
    guard_case; [by left|]. destruct (entry t h) as [j|] eqn:E; [by eapply Hrel|by left].
  - by left.
  - pose proof (clear_cases t w Hwf) as Hc. destruct (nx_ht_clear t w) as [t' w'].
    destruct Hc as (_ & _ & Ht' & _). rewrite Ht' by done.
    destruct (is_free t.[i]); auto.
Qed.

Lemma run_gen ops t w i :
  table_wf t -> Forall op_typed ops -> 0 <= i < NX_HANDLE_SLOTS ->
  exists k, 0 <= k <= Z.of_nat (length ops) /\
    h_gen (ht_run (t, w) ops).1.[i] mod NX_HANDLE_GEN_MAX =
    (h_gen t.[i] + k) mod NX_HANDLE_GEN_MAX.
Proof.
  revert t w. induction ops as [|op ops IH]; intros t w Hwf Hops Hi.
  { exists 0. by rewrite Z.add_0_r. }
  apply Forall_cons in Hops as [Hop Hops]. cbn [ht_run fold_left length].
  pose proof (exec_wf t w op Hwf Hop) as Hwf'. pose proof (exec_gen t w op i Hwf Hi) as Hg.
  destruct (ht_exec t w op) as [[? t'] w'].
  destruct (IH t' w' Hwf' Hops Hi) as (k & Hk & Heq). unfold ht_run in Heq. rewrite Heq.
  destruct Hg as [->|Hr].
  - exists k. split; [lia|done].
  - exists (k + 1). split; [lia|]. pose proof (table_wf_entry t i Hwf Hi) as He.
    rewrite <- Z.add_mod_idemp_l, Hr, bump_mod, Z.add_mod_idemp_l by done. f_equal. lia.
Qed.

Lemma ht_run_app s l1 l2 : ht_run s (l1 ++ l2) = ht_run (ht_run s l1) l2.
Proof. unfold ht_run. apply fold_left_app. Qed.

Lemma init_entries t i :
  Z.of_nat (length t) = NX_HANDLE_SLOTS -> 0 <= i < NX_HANDLE_SLOTS ->
  (nx_ht_init t).[i] = mk_entry None 0 1.
Proof.
  intros Hl. unfold nx_ht_init, for_each.
  assert (Hgen : forall l (t : nx_handle_table oid),
    Z.of_nat (length t) = NX_HANDLE_SLOTS -> Forall (fun i => 0 <= i < NX_HANDLE_SLOTS) l ->
    length (fold_left (fun t i => t.[i := mk_entry None 0 1]) l t) = length t /\
    forall i, 0 <= i < NX_HANDLE_SLOTS ->
      (fold_left (fun t i => t.[i := mk_entry None 0 1]) l t).[i] =
      if decide (i ∈ l) then mk_entry None 0 1 else t.[i]).
  { induction l as [|j l IH]; intros t' Hlt Hall; simpl; [done|].
    apply Forall_cons in Hall as [Hj Hall].
    destruct (IH t'.[j := mk_entry None 0 1]) as [Hlen Hget];
      [by rewrite arr_set_length|done|].
    split; [by rewrite Hlen, arr_set_length|]. intros k Hk. rewrite Hget by done.
    destruct (decide (k = j)) as [->|].
    - rewrite arr_get_set_eq by lia. do 2 case_decide; set_solver.
    - rewrite arr_get_set_ne by lia. do 2 case_decide; set_solver. }
  intros Hi. destruct (Hgen slots t Hl) as [_ Hget].
  { apply Forall_forall. intros j. apply slots_elem. }
  rewrite Hget by done. case_decide as Hd; [done|]. by rewrite slots_elem in Hd.
Qed.

Lemma init_length t : length (nx_ht_init t) = length t.
Proof.
  unfold nx_ht_init, for_each. generalize slots. intros l. revert t.
  induction l as [|j l IH]; intros t; simpl; [done|]. by rewrite IH, arr_set_length.
Qed.

Lemma init_wf t :
  Z.of_nat (length t) = NX_HANDLE_SLOTS -> table_wf (nx_ht_init t).
Proof.
  intros Hl. split; [by rewrite init_length|]. apply Forall_lookup_2. intros k e Hk.
  pose proof (lookup_lt_Some _ _ _ Hk) as Hlt. rewrite init_length in Hlt.
  pose proof (init_entries t (Z.of_nat k) Hl ltac:(lia)) as He.
  rewrite Nat2Z.id, (list_lookup_total_correct _ _ _ Hk) in He. by subst.
Qed.

(** A table whose only slot in motion is the first one. *)
Lemma first_slot_cycle t w g o r :
  table_wf t -> t.[0] = mk_entry None 0 g -> fits 32 r -> subset_of r NX_RIGHTS_ALL ->
  ht_run (t, w) [OpInstall o r; OpClose (encode 0 g)] =
    (t.[0 := release t.[0]], nx_obj_unref (nx_obj_ref w o) o).
Proof.
  intros Hwf H0 Hr Hsub. pose proof Hwf as [Hl _].
  unfold NX_HANDLE_SLOTS in Hl. unfold ht_run. cbn [fold_left ht_exec]. unfold nx_ht_install.
  unfold subset_of in Hsub. rewrite Hsub. cbn [negb Z.eqb].
  change slots with (0 :: seqZ 1 31). cbn [find_first]. rewrite H0. cbn [is_free h_obj]. rewrite ?H0. cbn [h_gen ht_exec].
  set (t1 := t.[0 := mk_entry (Some o) r g]).
  assert (Ht1 : t1.[0] = mk_entry (Some o) r g) by (apply arr_get_set_eq; lia).
  pose proof (table_wf_entry t 0 Hwf ltac:(done)) as He. rewrite H0 in He.
  assert (Hwf1 : table_wf t1).
  { apply set_entry_wf; [done|]. destruct He as (Hg & _). by split_and!; cbn; try apply Hg; try apply Hr. }
  unfold nx_ht_close. rewrite (proj2 (entry_Some t1 (encode 0 g) 0 Hwf1)).
  - rewrite Ht1. cbn [h_obj]. f_equal. unfold t1. unfold release. cbn [h_gen].
    by rewrite list_insert_insert_eq.
  - rewrite Ht1. done.
Qed.

Lemma first_slot_spin n t w (o : oid) r :
  table_wf t -> is_free t.[0] = true -> fits 32 r -> subset_of r NX_RIGHTS_ALL ->
  exists ops w', Forall op_typed ops /\ length ops = (2 * n)%nat /\
    ht_run (t, w) ops = (t.[0 := Nat.iter n release t.[0]], w').
Proof.
  revert t w. induction n as [|n IH]; intros t w Hwf Hf Hr Hsub.
  - exists [], w. split_and!; [constructor|done|]. simpl. f_equal.
    unfold lookup_total. symmetry. apply list_insert_id.
    apply list_lookup_lookup_total_lt. destruct Hwf as [Hl _]. unfold NX_HANDLE_SLOTS in Hl. lia.
  - pose proof (table_wf_entry t 0 Hwf ltac:(done)) as He.
    assert (H0 : t.[0] = mk_entry None 0 (h_gen t.[0])).
    { destruct He as (_ & _ & _ & Hz). unfold is_free in Hf.
      destruct t.[0] as [[o'|] r' g']; [done|]. cbn in *. by rewrite Hz. }
    pose proof (first_slot_cycle t w (h_gen t.[0]) o r Hwf H0 Hr Hsub) as Hc.
    set (t1 := t.[0 := release t.[0]]) in *.
    assert (Hl0 : 0 <= 0 < Z.of_nat (length t)) by (destruct Hwf as [Hl _]; unfold NX_HANDLE_SLOTS in Hl; lia).
    destruct (IH t1 (nx_obj_unref (nx_obj_ref w o) o)) as (ops & w' & Ht & Hlen & Hrun); auto.
    { by apply set_entry_wf, release_wf. }
    { unfold t1. by rewrite arr_get_set_eq. }
    exists ([OpInstall o r; OpClose (encode 0 (h_gen t.[0]))] ++ ops), w'. split_and!.
    + constructor; [done|]. constructor; [|done]. simpl. destruct He as (? & _).
      pose proof (encode_pos 0 (h_gen t.[0]) ltac:(done) ltac:(lia)). unfold fits. lia.
    + rewrite length_app, Hlen. simpl. lia.
    + rewrite ht_run_app, Hc, Hrun. f_equal. unfold t1. rewrite list_insert_insert_eq.
      rewrite arr_get_set_eq by lia. by rewrite Nat.iter_succ_r.
Qed.

Lemma iter_release_gen n (e : nx_handle_entry oid) :
  entry_wf e -> is_free e = true ->
  Nat.iter n release e =
    mk_entry None 0 ((h_gen e - 1 + Z.of_nat n) mod NX_HANDLE_GEN_MAX + 1).
Proof.
  intros He Hf. induction n as [|n IH].
  - destruct He as (Hg & _ & _ & Hz). unfold is_free in Hf.
    destruct e as [[o'|] r' g']; [done|]. cbn in *. rewrite Hz by done.
    rewrite Z.mod_small by lia. f_equal. lia.
  - rewrite Nat.iter_succ, IH. unfold release, bump. cbn [h_obj h_rights h_gen]. f_equal.
    set (x := h_gen e - 1 + Z.of_nat n).
    replace (h_gen e - 1 + Z.of_nat (S n)) with (x + 1) by lia.
    rewrite Z.geb_leb. unfold NX_HANDLE_GEN_MAX.
    pose proof (Z.mod_pos_bound x 8388607 ltac:(lia)).
    destruct (Z.leb_spec 8388607 (x mod 8388607 + 1)).
    + rewrite <- Z.add_mod_idemp_l by lia.
      replace (x mod 8388607 + 1) with 8388607 by lia. done.
    + rewrite <- (Z.add_mod_idemp_l x) by lia.
      rewrite (Z.mod_small (x mod 8388607 + 1)) by lia.
      rewrite wrap_small; [done|]. unfold fits. lia.
Qed.

Lemma handle_caps_step t w op :
  table_wf t -> op_typed op ->
  let '(_, t', _) := ht_exec t w op in
  forall h o r, ht_caps t' !! h = Some (o, r) ->
    exists r0, subset_of r r0 /\
      ((exists h0, ht_caps t !! h0 = Some (o, r0)) \/ op = OpInstall o r0).
Proof.
  intros Hwf Hop.
  assert (Hsame : forall h o r, ht_caps t !! h = Some (o, r) ->
    exists r0, subset_of r r0 /\
      ((exists h0, ht_caps t !! h0 = Some (o, r0)) \/ op = OpInstall o r0)).
  { intros h o r Hh. exists r. split; [apply Z.land_lnot_diag|]. left. by exists h. }
  destruct op as [o r|h|h r|h r|h type need|]; simpl in *.
  - pose proof (install_cases t w o r Hwf (proj1 Hop)) as Hc.
    destruct (nx_ht_install t w o r) as [[[h'|[]] t'] w']; try tauto.
    + destruct Hc as (_ & ? & ? & ? & -> & _). intros h2 o2 r2 Hh2.
      apply lookup_insert_Some in Hh2 as [[_ [= -> ->]]|[_ ?]]; [|by eapply Hsame].
      exists r2. split; [apply Z.land_lnot_diag|]. by right.
    + by destruct Hc as (_ & ? & -> & _).
    + by destruct Hc as (_ & ? & ? & -> & _).
  - pose proof (close_cases t w h Hwf) as Hc.
    destruct (nx_ht_close t w h) as [[[[]|[]] t'] w']; try tauto.
    + destruct Hc as (_ & o & r & ? & -> & _).
      intros h2 o2 r2 [_ Hh2]%lookup_delete_Some. by eapply Hsame.
    + by destruct Hc as (_ & ? & -> & _).
  - pose proof (dup_cases t w h r Hwf (proj1 (proj2 Hop))) as Hc.
    destruct (nx_ht_dup t w h r) as [[[h'|[]] t'] w']; try tauto.
    + destruct Hc as (_ & o & have & ? & ? & ? & ? & ? & -> & _). intros h2 o2 r2 Hh2.
      apply lookup_insert_Some in Hh2 as [[_ [= -> ->]]|[_ ?]]; [|by eapply Hsame].
      exists have. split; [done|]. left. by exists h.
    + by destruct Hc as (_ & ? & -> & _).
    + by destruct Hc as (_ & -> & _).
    + by destruct Hc as (_ & -> & _).
  - pose proof (take_cases t w h r Hwf) as Hc.
    destruct (nx_ht_take t w h r) as [[o|[]] t']; try tauto.
    + destruct Hc as (_ & have & ? & ? & ? & ->).
      intros h2 o2 r2 [_ Hh2]%lookup_delete_Some. by eapply Hsame.
    + by destruct Hc as (_ & ? & ->).
    + by destruct Hc as (_ & -> & _).
  - exact Hsame.
  - pose proof (clear_cases t w Hwf) as Hc. destruct (nx_ht_clear t w) as [t' w'].
    destruct Hc as (_ & -> & _). done.
Qed.

Lemma install_first_lookup t w w1 o r :
  table_wf t -> t.[0] = mk_entry None 0 1 -> fits 32 r -> subset_of r NX_RIGHTS_ALL ->
  nx_ht_lookup (ht_run (t, w) [OpInstall o r]).1 w1 (encode 0 1) NX_OBJ_ANY 0 = Ok (o, r).
Proof.
  intros Hwf H0 Hr Hsub. pose proof Hwf as [Hl _]. unfold NX_HANDLE_SLOTS in Hl.
  unfold ht_run. cbn [fold_left ht_exec]. unfold nx_ht_install.
  unfold subset_of in Hsub. rewrite Hsub. cbn [negb Z.eqb].
  change slots with (0 :: seqZ 1 31). cbn [find_first]. rewrite H0. cbn [is_free h_obj].
  rewrite ?H0. cbn [h_gen ht_exec fst].
  assert (He : entry_wf (mk_entry (Some o) r 1)) by (split_and!; cbn; try done; apply Hr).
  rewrite lookup_caps by by apply set_entry_wf.
  pose proof (ht_caps_install t 0 o r Hwf ltac:(done)) as Hi. rewrite H0 in Hi. cbn [h_gen] in Hi.
  destruct Hi as [-> _]; [done..|]. rewrite lookup_insert_eq. simpl.
  by rewrite Z.land_0_r.
Qed.

(** ** References *)

Lemma unref_gave w o : gave_ref w o (nx_obj_unref w o).
Proof.
  unfold nx_obj_unref, set_refs. destruct (Z.eqb_spec (o_refs (obj_get w o)) 0); [by constructor|].
  destruct (Z.eqb_spec (o_refs (obj_get w o) - 1) 0) as [E|E]; cbn [andb]; [|apply gave_counted; [done|left; lia]].
  destruct (o_destroy (obj_get w o)) eqn:Ed.
  - rewrite E. apply gave_last; [lia|done].
  - pose proof (gave_counted w o ltac:(done) (or_intror Ed)) as Hg. by rewrite Ed in Hg.
Qed.

Lemma unrefs_gave l w : gave_refs w l (fold_left nx_obj_unref l w).
Proof. revert w. induction l as [|o l IH]; intros w; simpl; econstructor; [apply unref_gave|apply IH]. Qed.

Lemma type_ok_check w o type : negb (type =? NX_OBJ_ANY) && negb (o_type (obj_get w o) =? type) = false <-> type_ok w o type.
Proof. unfold type_ok. rewrite andb_false_iff, !negb_false_iff, !Z.eqb_eq. done. Qed.

(** The objects in the slots are those of the capabilities. *)
Lemma caps_objects t : table_wf t -> omap (fun i => h_obj t.[i]) slots ≡ₚ (map_to_list (ht_caps t)).*2.*1.
Proof.
  intros Hwf. unfold ht_caps. rewrite map_to_list_to_map by by apply ht_caps_nodup.
  apply reflexive_eq. generalize slots as l. intros l. induction l as [|i l IH]; [done|]. cbn [omap list_omap].
  destruct (h_obj t.[i]); cbn [fmap list_fmap fst snd]; by rewrite IH.
Qed.

(** ** Properties *)

(** C6: Every handle-table operation refines the abstract capability semantics
    [cap_step]: the result (handle, object, rights or error code), the capabilities
    held afterwards and the references taken and given up are exactly those the
    abstract operation allows, on the success path and on every error path. *)
Theorem handle_table_refines t w op :
  table_wf t -> op_typed op ->
  let '(ret, t', w') := ht_exec t w op in cap_step (ht_caps t) w op ret (ht_caps t') w'.
Proof.
  intros Hwf Hop. destruct op as [o r|h|h r|h r|h type need|]; simpl in *.
  - pose proof (install_cases t w o r Hwf (proj1 Hop)) as Hc.
    destruct (nx_ht_install t w o r) as [[[h'|[]] t'] w']; try tauto.
    + destruct Hc as (_ & ? & ? & ? & -> & ->). by constructor.
    + destruct Hc as (_ & ? & -> & ->). by constructor.
    + destruct Hc as (_ & ? & ? & -> & ->). constructor; [done|]. by rewrite ht_caps_size.
  - pose proof (close_cases t w h Hwf) as Hc.
    destruct (nx_ht_close t w h) as [[[[]|[]] t'] w']; try tauto.
    + destruct Hc as (_ & o & r & ? & -> & ->). econstructor; [done|apply unref_gave].
    + destruct Hc as (_ & ? & -> & ->). by constructor.
  - pose proof (dup_cases t w h r Hwf (proj1 (proj2 Hop))) as Hc.
    destruct (nx_ht_dup t w h r) as [[[h'|[]] t'] w']; try tauto.
    + destruct Hc as (_ & o & have & ? & ? & ? & ? & ? & -> & ->). by econstructor.
    + destruct Hc as (_ & ? & -> & ->). by constructor.
    + destruct Hc as (_ & -> & -> & o & have & ? & ?). by econstructor.
    + destruct Hc as (_ & -> & -> & ? & o & have & ? & ? & ?).
      eapply cap_dup_full; [done..|]. by rewrite ht_caps_size.
  - pose proof (take_cases t w h r Hwf) as Hc.
    destruct (nx_ht_take t w h r) as [[o|[]] t']; try tauto.
    + destruct Hc as (_ & have & ? & ? & ? & ->). by econstructor.
    + destruct Hc as (_ & ? & ->). by constructor.
    + destruct Hc as (_ & -> & o & have & ? & ?). by econstructor.
  - rewrite lookup_caps by done. destruct (ht_caps t !! h) as [[o have]|] eqn:E; [|by constructor].
    destruct (negb (type =? NX_OBJ_ANY) && negb (o_type (obj_get w o) =? type)) eqn:Et.
    { eapply cap_lookup_type; [done|]. rewrite <- type_ok_check. by rewrite Et. }
    apply type_ok_check in Et. guard_case; breflect; by econstructor.
  - pose proof (clear_cases t w Hwf) as Hc. destruct (nx_ht_clear t w) as [t' w'].
    destruct Hc as (_ & -> & _ & ->). econstructor; [by apply caps_objects|apply unrefs_gave].
Qed.

(** C14: A handle value that was closed (or moved out of the table for a
    transfer) stays invalid: after fewer than [NX_HANDLE_GEN_MAX - 1] further
    operations of any kind on the table, looking it up fails with
    [NX_EBADHANDLE] for every type and right, even when its slot was reused. *)
Theorem stale_handle_rejected t w h t1 w1 ops w2 type need :
  table_wf t -> fits 32 h ->
  nx_ht_close t w h = (Ok tt, t1, w1) \/ (exists o r, nx_ht_take t w h r = (Ok o, t1)) ->
  Forall op_typed ops -> Z.of_nat (length ops) < NX_HANDLE_GEN_MAX - 1 ->
  nx_ht_lookup (ht_run (t1, w1) ops).1 w2 h type need = Err NX_EBADHANDLE.
Proof.
  intros Hwf Hh Hcl Hops Hlen.
  assert (exists i, 0 <= i < NX_HANDLE_SLOTS /\ h = encode i (h_gen t.[i]) /\
                    t1 = t.[i := release t.[i]]) as (i & Hi & -> & ->).
  { destruct Hcl as [Hcl|(o & r & Hcl)].
    - unfold nx_ht_close in Hcl. destruct (entry t h) as [i|] eqn:E; [|done].
      apply entry_Some in E as (? & ? & ?); [|done].
      destruct (h_obj t.[i]); simplify_eq. by exists i.
    - unfold nx_ht_take in Hcl. destruct (nx_ht_lookup _ _ _ _ _) as [[? ?]|]; [|done].
      guard_case; [done|]. destruct (entry t h) as [i|] eqn:E; [|done].
      apply entry_Some in E as (? & ? & ?); [|done]. simplify_eq. by exists i. }
  pose proof (table_wf_entry t i Hwf Hi) as He. pose proof (release_wf _ He) as Hr.
  set (t1 := t.[i := release t.[i]]).
  assert (Hwf1 : table_wf t1) by by apply set_entry_wf.
  pose proof (run_wf ops t1 w1 Hwf1 Hops) as Hwf2.
  destruct (run_gen ops t1 w1 i Hwf1 Hops Hi) as (k & Hk & Hg).
  unfold t1 in Hg at 2. rewrite arr_get_set_eq in Hg by (destruct Hwf; lia).
  rewrite <- Z.add_mod_idemp_l, bump_mod, Z.add_mod_idemp_l in Hg by done.
  unfold nx_ht_lookup. rewrite entry_None; [done|done|].
  intros j Hj _ Heq. pose proof (table_wf_entry _ j Hwf2 Hj) as [Hgj _]. destruct He as [Hgi _].
  apply encode_inj in Heq as [<- Hge]; [|lia..].
  rewrite <- Hge in Hg. unfold NX_HANDLE_GEN_MAX in *.
  assert ((h_gen t.[i] + 1 + k - h_gen t.[i]) mod 8388607 = 0) as Hz.
  { rewrite Zminus_mod, <- Hg, Z.sub_diag. done. }
  replace (h_gen t.[i] + 1 + k - h_gen t.[i]) with (k + 1) in Hz by lia.
  rewrite Z.mod_small in Hz by lia. lia.
Qed.

(** C15: Rights are never added: every capability held after any sequence of
    operations has rights contained in those of a capability to the same object
    held at the start, or in the rights the kernel passed to [nx_ht_install]
    for that object during the sequence. *)
Theorem rights_never_amplified t w ops h o r :
  table_wf t -> Forall op_typed ops ->
  ht_caps (ht_run (t, w) ops).1 !! h = Some (o, r) ->
  exists r0, subset_of r r0 /\
    ((exists h0, ht_caps t !! h0 = Some (o, r0)) \/ OpInstall o r0 ∈ ops).
Proof.
  intros Hwf Hops. revert t w Hwf h r. induction ops as [|op ops IH]; intros t w Hwf h r Hc.
  { exists r. split; [apply Z.land_lnot_diag|]. left. by exists h. }
  apply Forall_cons in Hops as [Hop Hops]. cbn [ht_run fold_left] in Hc.
  pose proof (exec_wf t w op Hwf Hop) as Hwf'.
  pose proof (handle_caps_step t w op Hwf Hop) as Hs.
  destruct (ht_exec t w op) as [[ret t'] w'].
  destruct (IH Hops t' w' Hwf' h r Hc) as (r0 & Hsub & [[h0 Hh0]|Hin]).
  - destruct (Hs h0 o r0 Hh0) as (r1 & Hsub1 & Hor). exists r1.
    split; [by eapply subset_trans_mask|]. destruct Hor as [?| ->]; [by left|right; set_solver].
  - exists r0. split; [done|]. right. set_solver.
Qed.

(** C29: (finding) The 23-bit generation wraps: there is a sequence of
    operations after which a closed handle value is valid again and names a
    different object, although [handle.h] states that an old identifier never
    reaches a new object. *)
Theorem generation_wrap_revives_handle t w (o o2 : oid) r :
  Z.of_nat (length t) = NX_HANDLE_SLOTS -> fits 32 r -> subset_of r NX_RIGHTS_ALL ->
  let t0 := nx_ht_init t in
  let h := encode 0 1 in
  exists ops w1,
    Forall op_typed ops /\
    nx_ht_lookup (ht_run (t0, w) [OpInstall o r]).1 w1 h NX_OBJ_ANY 0 = Ok (o, r) /\
    nx_ht_lookup (ht_run (t0, w) [OpInstall o r; OpClose h]).1 w1 h NX_OBJ_ANY 0
      = Err NX_EBADHANDLE /\
    nx_ht_lookup (ht_run (t0, w) ([OpInstall o r; OpClose h] ++ ops)).1 w1 h NX_OBJ_ANY 0
      = Ok (o2, r).
Proof.
  intros Hl Hr Hsub t0 h.
  assert (Hwf : table_wf t0) by by apply init_wf.
  assert (H0 : t0.[0] = mk_entry None 0 1) by by apply init_entries.
  assert (Hl0 : Z.of_nat (length t0) = 32) by by unfold t0; rewrite init_length.
  pose proof (first_slot_cycle t0 w 1 o r Hwf H0 Hr Hsub) as Hc.
  set (t1 := t0.[0 := release t0.[0]]) in *. set (w1 := nx_obj_unref (nx_obj_ref w o) o) in *.
  assert (H1 : t1.[0] = mk_entry None 0 2) by (unfold t1; rewrite arr_get_set_eq by lia; by rewrite H0).
  assert (Hwf1 : table_wf t1) by (apply set_entry_wf; [done|]; by rewrite H0).
  destruct (first_slot_spin (Z.to_nat (NX_HANDLE_GEN_MAX - 1)) t1 w1 o2 r)
    as (ops & w' & Hops & _ & Hrun); auto; [by rewrite H1|].
  rewrite iter_release_gen in Hrun by (rewrite H1; done). rewrite H1 in Hrun.
  rewrite Z2Nat.id in Hrun by done.
  set (e := mk_entry None 0 _) in Hrun. replace e with (mk_entry (oid := oid) None 0 1) in Hrun
    by (unfold e; f_equal; by vm_compute).
  set (t2 := t1.[0 := mk_entry None 0 1]) in *.
  assert (Hwf2 : table_wf t2) by by apply set_entry_wf.
  assert (H2 : t2.[0] = mk_entry None 0 1).
  { apply arr_get_set_eq. unfold t1. rewrite arr_set_length. lia. }
  exists (ops ++ [OpInstall o2 r]), w1. split_and!.
  - apply Forall_app. split; [done|]. by constructor.
  - by apply install_first_lookup.
  - fold h in Hc. rewrite Hc. cbn [fst]. unfold nx_ht_lookup.
    rewrite entry_None; [done|done|]. intros i Hi Hf.
    destruct (decide (i = 0)) as [->|]; [by rewrite H1 in Hf|].
    unfold t1 in Hf. rewrite arr_get_set_ne in Hf by lia.
    unfold t0 in Hf. by rewrite init_entries in Hf.
  - rewrite app_assoc, ht_run_app, ht_run_app. fold h in Hc. rewrite Hc, Hrun.
    by apply install_first_lookup.
Qed.
End table_lemmas.

(** ** Witnesses *)

Lemma sample_table_wf : table_wf sample_table.
Proof. by apply init_wf. Qed.

Lemma handle_table_refines_witness :
  op_typed (oid := Z) (OpInstall 1 NX_RIGHT_READ) /\
  let '(ret, t', w') := ht_exec sample_table sample_world (OpInstall 1 NX_RIGHT_READ) in
  cap_step (ht_caps sample_table) sample_world (OpInstall 1 NX_RIGHT_READ) ret (ht_caps t') w'.
Proof.
  assert (op_typed (oid := Z) (OpInstall 1 NX_RIGHT_READ)) as H by (by vm_compute).
  split; [done|].
  exact (handle_table_refines sample_table sample_world _ sample_table_wf H).
Defined.

Lemma stale_handle_rejected_witness :
  nx_ht_lookup (ht_run (sample_table, sample_world)
      [OpInstall 1 NX_RIGHT_TRANSFER; OpClose 0x101; OpInstall 2 NX_RIGHT_READ]).1
    sample_world 0x101 NX_OBJ_ANY 0 = Err NX_EBADHANDLE.
Proof.
  pose (t1 := (ht_run (sample_table, sample_world) [OpInstall 1 NX_RIGHT_TRANSFER]).1).
  pose (w1 := (ht_run (sample_table, sample_world) [OpInstall 1 NX_RIGHT_TRANSFER]).2).
  assert (table_wf t1) as Hwf by (apply run_wf; [apply sample_table_wf|]; by repeat constructor).
  pose (t2 := (nx_ht_close t1 w1 0x101).1.2). pose (w2 := (nx_ht_close t1 w1 0x101).2).
  assert (nx_ht_close t1 w1 0x101 = (Ok tt, t2, w2)) as Hc by (by vm_compute).
  exact (stale_handle_rejected t1 w1 0x101 t2 w2 [OpInstall 2 NX_RIGHT_READ] sample_world
    NX_OBJ_ANY 0 Hwf ltac:(by vm_compute) (or_introl Hc) ltac:(by repeat constructor)
    ltac:(by vm_compute)).
Defined.

Lemma rights_never_amplified_witness :
  exists r0, subset_of NX_RIGHT_READ r0 /\
    ((exists h0, ht_caps sample_table !! h0 = Some (1, r0)) \/
     OpInstall 1 r0 ∈ [OpInstall 1 (NX_RIGHT_READ |. NX_RIGHT_DUPLICATE);
                       OpDup 0x101 NX_RIGHT_READ]).
Proof.
  apply (rights_never_amplified sample_table sample_world
    [OpInstall 1 (NX_RIGHT_READ |. NX_RIGHT_DUPLICATE); OpDup 0x101 NX_RIGHT_READ] 0x102
    1 NX_RIGHT_READ sample_table_wf).
  - by repeat constructor.
  - by vm_compute.
Defined.

Lemma generation_wrap_revives_handle_witness :
  exists ops w1,
    Forall op_typed ops /\
    nx_ht_lookup (ht_run (sample_table, sample_world) [OpInstall 1 1]).1 w1 0x101 NX_OBJ_ANY 0
      = Ok (1, 1) /\
    nx_ht_lookup (ht_run (sample_table, sample_world) [OpInstall 1 1; OpClose 0x101]).1 w1
      0x101 NX_OBJ_ANY 0 = Err NX_EBADHANDLE /\
    nx_ht_lookup (ht_run (sample_table, sample_world) ([OpInstall 1 1; OpClose 0x101] ++ ops)).1
      w1 0x101 NX_OBJ_ANY 0 = Ok (2, 1).
Proof.
  exact (generation_wrap_revives_handle (replicate 32 inhabitant) sample_world 1 2 1
    ltac:(by vm_compute) ltac:(by vm_compute) ltac:(by vm_compute)).
Defined.
