(* ===== verification/Event.v ===== *)
(** * Kernel state event log

    Models [kernel/obj/event.h] and [kernel/obj/event.c]: a ring of the last
    [NX_EVLOG_SIZE] events with gapless sequence numbers from 1. *)
From S2P Require Import Prelude Abi.

Definition NX_EVLOG_SIZE : Z := 128.

(** [struct nx_evlog] *)
Record nx_evlog := mk_evlog {
  el_ev : list nx_event;
  el_next : Z;
  el_disabled : bool;
}.

Definition nx_evlog_init (l : nx_evlog) : nx_evlog := mk_evlog (el_ev l) 1 false.

(** Returns the sequence number of the event (0 when disabled). *)
Definition nx_evlog_push (l : nx_evlog) (tick type task arg : Z) : Z * nx_evlog :=
  if el_disabled l then (0, l)
  else
    let e := mk_event (el_next l) tick type task arg in
    (el_next l,
     mk_evlog ((el_ev l).[el_next l mod NX_EVLOG_SIZE := e]) (u64 (el_next l + 1))
       (el_disabled l)).

Definition nx_evlog_oldest (l : nx_evlog) : Z :=
  if el_next l >? NX_EVLOG_SIZE + 1 then el_next l - NX_EVLOG_SIZE else 1.

(** [for (; seq < l->next && n < cap; seq++, n++) out[n] = ...], with
    [left = cap - n]. *)
Fixpoint evlog_read_loop (l : nx_evlog) (left : nat) (seq : Z) : list nx_event :=
  match left with
  | O => []
  | S left' =>
      if seq <? el_next l
      then (el_ev l).[seq mod NX_EVLOG_SIZE] :: evlog_read_loop l left' (u64 (seq + 1))
      else []
  end.

(** The events copied to [out]; the C function returns their number. *)
Definition nx_evlog_read (l : nx_evlog) (since cap : Z) : list nx_event :=
  let seq := if since <? nx_evlog_oldest l then nx_evlog_oldest l else since in
  evlog_read_loop l (Z.to_nat cap) seq.

(** ** Specification *)

(** Arguments of one [nx_evlog_push]: tick, type, task, arg. *)
Definition event_args : Type := Z * Z * Z * Z.

Definition push_all (l : nx_evlog) (evs : list event_args) : nx_evlog :=
  fold_left (fun l '(tick, type, task, arg) => (nx_evlog_push l tick type task arg).2) evs l.

(** The whole history: the [k]-th event ever pushed carries number [k + 1]. *)
Definition history (evs : list event_args) : list nx_event :=
  imap (fun i '(tick, type, task, arg) =>
          mk_event (Z.of_nat i + 1) tick type task arg) evs.

(** The ring holds the newest events of the history [h]. *)
Definition evlog_inv (l : nx_evlog) (h : list nx_event) : Prop :=
  Z.of_nat (length (el_ev l)) = NX_EVLOG_SIZE /\
  el_disabled l = false /\
  el_next l = Z.of_nat (length h) + 1 /\
  Z.of_nat (length h) < UINT64_MAX /\
  forall k e, h !! k = Some e -> Z.of_nat (length h) - NX_EVLOG_SIZE <= Z.of_nat k ->
    (el_ev l).[(Z.of_nat k + 1) mod NX_EVLOG_SIZE] = e.

Lemma evlog_inv_init l :
  Z.of_nat (length (el_ev l)) = NX_EVLOG_SIZE -> evlog_inv (nx_evlog_init l) [].
Proof. intros. by split_and!. Qed.

Lemma evlog_inv_push l h tick type task arg :
  evlog_inv l h -> Z.of_nat (length h) + 1 < UINT64_MAX ->
  evlog_inv (nx_evlog_push l tick type task arg).2
    (h ++ [mk_event (Z.of_nat (length h) + 1) tick type task arg]) /\
  (nx_evlog_push l tick type task arg).1 = Z.of_nat (length h) + 1.
Proof.
  intros (Hl & Hd & Hn & Hb & Hr) Hb'. unfold nx_evlog_push. rewrite Hd, Hn. cbn.
  split; [|done]. unfold evlog_inv. cbn. rewrite arr_set_length, length_app. cbn [length].
  unfold NX_EVLOG_SIZE, UINT64_MAX in *.
  split_and!; [done|done|rewrite wrap_small; unfold fits; lia|lia|].
  intros k e Hk Hge. apply lookup_app_Some in Hk as [Hk|[Hlt Hk]].
  - pose proof (lookup_lt_Some _ _ _ Hk).
    pose proof (mod_ne_near (Z.of_nat k + 1) (Z.of_nat (length h) + 1) 128) as Hne.
    pose proof (Z.mod_pos_bound (Z.of_nat k + 1) 128 ltac:(lia)).
    pose proof (Z.mod_pos_bound (Z.of_nat (length h) + 1) 128 ltac:(lia)).
    rewrite arr_get_set_ne by lia. apply Hr; [done|lia].
  - destruct (k - length h)%nat as [|j] eqn:Ek; simpl in Hk; simplify_eq.
    replace k with (length h) by lia.
    pose proof (Z.mod_pos_bound (Z.of_nat (length h) + 1) 128 ltac:(lia)).
    by rewrite arr_get_set_eq by lia.
Qed.

Lemma history_snoc evs tick type task arg :
  history (evs ++ [(tick, type, task, arg)]) =
    history evs ++ [mk_event (Z.of_nat (length evs) + 1) tick type task arg].
Proof.
  unfold history. rewrite imap_app. f_equal. cbn. by rewrite Nat.add_0_r.
Qed.

Lemma history_length evs : length (history evs) = length evs.
Proof. apply length_imap. Qed.

Lemma evlog_inv_push_all l evs :
  Z.of_nat (length (el_ev l)) = NX_EVLOG_SIZE -> Z.of_nat (length evs) < UINT64_MAX ->
  evlog_inv (push_all (nx_evlog_init l) evs) (history evs).
Proof.
  intros Hl. induction evs as [|[[[tick type] task] arg] evs IH] using rev_ind; intros Hb.
  - by apply evlog_inv_init.
  - rewrite length_app in Hb. cbn in Hb. unfold push_all. rewrite fold_left_app.
    rewrite history_snoc, <- history_length. cbn [fold_left].
    apply evlog_inv_push; [apply IH; lia|]. rewrite history_length. lia.
Qed.

Lemma oldest_spec l h :
  evlog_inv l h -> nx_evlog_oldest l = Z.max 1 (Z.of_nat (length h) + 1 - NX_EVLOG_SIZE).
Proof.
  intros (_ & _ & Hn & _). unfold nx_evlog_oldest. rewrite Hn, Z.gtb_ltb.
  unfold NX_EVLOG_SIZE. destruct (Z.ltb_spec (128 + 1) (Z.of_nat (length h) + 1)); lia.
Qed.

Lemma evlog_read_loop_spec l h left seq :
  evlog_inv l h -> 1 <= seq -> Z.of_nat (length h) + 1 - NX_EVLOG_SIZE <= seq ->
  evlog_read_loop l left seq = take left (drop (Z.to_nat (seq - 1)) h).
Proof.
  intros Hinv. pose proof Hinv as (Hl & _ & Hn & Hb & Hr). revert seq.
  induction left as [|left IH]; intros seq H1 Ho; [done|]. simpl.
  destruct (Z.ltb_spec seq (el_next l)) as [Hlt|Hge].
  - unfold UINT64_MAX in Hb. rewrite wrap_small by (unfold fits; lia). rewrite IH by lia.
    destruct (lookup_lt_is_Some_2 h (Z.to_nat (seq - 1))) as [e He]; [lia|].
    rewrite (drop_S h e _ He). simpl. f_equal.
    + specialize (Hr _ _ He ltac:(lia)). rewrite <- Hr. f_equal. f_equal. f_equal. lia.
    + f_equal. f_equal. lia.
  - rewrite drop_ge by lia. by rewrite take_nil.
Qed.

(** ** Properties *)

(** C27: Reading the event log returns exactly the contiguous run of the
    complete event history that starts at [max(since, oldest)] and has at most
    [cap] events, where [oldest] is the first of the last [NX_EVLOG_SIZE]
    events: nothing is lost inside the window, reordered, duplicated or
    overwritten, and a gap shows up only as a larger first sequence number. *)
Theorem evlog_read_window l evs since cap :
  Z.of_nat (length (el_ev l)) = NX_EVLOG_SIZE -> Z.of_nat (length evs) < UINT64_MAX ->
  fits 64 since -> fits 32 cap ->
  let start := Z.max since (Z.max 1 (Z.of_nat (length evs) + 1 - NX_EVLOG_SIZE)) in
  nx_evlog_read (push_all (nx_evlog_init l) evs) since cap =
    take (Z.to_nat cap) (drop (Z.to_nat (start - 1)) (history evs)).
Proof.
  intros Hl Hb Hs Hc start. pose proof (evlog_inv_push_all l evs Hl Hb) as Hinv.
  unfold nx_evlog_read. rewrite (oldest_spec _ _ Hinv), history_length.
  replace (if _ <? _ then _ else _) with start.
  - apply evlog_read_loop_spec; [done|lia|rewrite history_length; lia].
  - unfold start. destruct (Z.ltb_spec since (Z.max 1 (Z.of_nat (length evs) + 1 - NX_EVLOG_SIZE))); lia.
Qed.

(** Two hundred events: those from number 73 on are still stored. *)
Lemma evlog_read_window_witness :
  nx_evlog_read
    (push_all (nx_evlog_init (mk_evlog (replicate 128 inhabitant) 0 true))
       (replicate 200 (7, NX_EV_TASK_CREATED, 3, 0))) 5 2 =
    [mk_event 73 7 NX_EV_TASK_CREATED 3 0; mk_event 74 7 NX_EV_TASK_CREATED 3 0].
Proof.
  rewrite (evlog_read_window (mk_evlog (replicate 128 inhabitant) 0 true)
    (replicate 200 (7, NX_EV_TASK_CREATED, 3, 0)) 5 2); by vm_compute.
Defined.
