(* ===== verification/Ipc.v ===== *)
(** * IPC endpoint message queue

    Models [kernel/obj/ipc.h] and [kernel/obj/ipc.c]: a ring buffer of
    [NX_IPC_QUEUE] messages; a queued message owns a reference to the object it
    transfers.  Blocking and handle installation belong to the system calls. *)
From S2P Require Import Prelude Abi Handle.

Definition NX_IPC_QUEUE : Z := 8.

(** [struct nx_ipc_msg] *)
Record nx_ipc_msg (oid : Type) := mk_msg {
  m_len : Z;
  m_sender_task : Z;
  m_obj : option oid;
  m_rights : Z;
  m_data : list Z;
}.
Arguments mk_msg {oid}.
Arguments m_len {oid}.
Arguments m_sender_task {oid}.
Arguments m_obj {oid}.
Arguments m_rights {oid}.
Arguments m_data {oid}.

#[export] Instance nx_ipc_msg_inhabited {oid} : Inhabited (nx_ipc_msg oid) :=
  populate (mk_msg 0 0 None 0 []).

(** [struct nx_endpoint] without its object header; [ep_waiter] names the task
    blocked in receive. *)
Record nx_endpoint (oid : Type) := mk_ep {
  ep_q : list (nx_ipc_msg oid);
  ep_head : Z;
  ep_count : Z;
  ep_waiter : option oid;
}.
Arguments mk_ep {oid}.
Arguments ep_q {oid}.
Arguments ep_head {oid}.
Arguments ep_count {oid}.
Arguments ep_waiter {oid}.

Section ipc.
Context {oid W : Type} `{ObjHeap oid W}.
Implicit Types (ep : nx_endpoint oid) (m : nx_ipc_msg oid) (w : W).

Definition nx_ep_init ep : nx_endpoint oid := mk_ep (ep_q ep) 0 0 None.

Definition nx_ep_push ep m : res unit * nx_endpoint oid :=
  if m_len m >? NX_IPC_MSG_MAX then (Err NX_EINVAL, ep)
  else if ep_count ep =? NX_IPC_QUEUE then (Err NX_EFULL, ep)
  else
    (Ok tt,
     mk_ep ((ep_q ep).[u32 (ep_head ep + ep_count ep) mod NX_IPC_QUEUE := m])
       (ep_head ep) (u32 (ep_count ep + 1)) (ep_waiter ep)).

Definition nx_ep_peek ep : option (nx_ipc_msg oid) :=
  if ep_count ep =? 0 then None else Some (ep_q ep).[ep_head ep].

Definition nx_ep_pop ep : nx_endpoint oid :=
  if ep_count ep =? 0 then ep
  else mk_ep (ep_q ep) (u32 (ep_head ep + 1) mod NX_IPC_QUEUE) (ep_count ep - 1) (ep_waiter ep).

(** [while ((m = nx_ep_peek(ep)))]: every iteration pops one message, so
    [ep_count] iterations are enough ([ep_drain_enough]). *)
Fixpoint ep_drain_loop (fuel : nat) ep w : nx_endpoint oid * W :=
  match fuel with
  | O => (ep, w)
  | S fuel' =>
      match nx_ep_peek ep with
      | None => (ep, w)
      | Some m =>
          let w' := match m_obj m with Some o => nx_obj_unref w o | None => w end in
          ep_drain_loop fuel' (nx_ep_pop ep) w'
      end
  end.

Definition nx_ep_drain ep w : nx_endpoint oid * W :=
  ep_drain_loop (Z.to_nat (ep_count ep)) ep w.

(** ** Specification *)

Definition ep_wf ep : Prop :=
  Z.of_nat (length (ep_q ep)) = NX_IPC_QUEUE /\
  0 <= ep_head ep < NX_IPC_QUEUE /\ 0 <= ep_count ep <= NX_IPC_QUEUE.

(** The queue as a list, oldest message first. *)
Definition ep_queue ep : list (nx_ipc_msg oid) :=
  (fun k => (ep_q ep).[(ep_head ep + k) mod NX_IPC_QUEUE]) <$> seqZ 0 (ep_count ep).

(** Operations of an endpoint as the system calls use them. *)
Inductive ep_op : Type :=
| EpPush (m : nx_ipc_msg oid)
| EpPop.

Definition ep_exec ep (op : ep_op) : nx_endpoint oid :=
  match op with
  | EpPush m => (nx_ep_push ep m).2
  | EpPop => nx_ep_pop ep
  end.

(** The same operations on an unbounded FIFO with [NX_IPC_QUEUE] places. *)
Definition fifo_exec (q : list (nx_ipc_msg oid)) (op : ep_op) : list (nx_ipc_msg oid) :=
  match op with
  | EpPush m =>
      if (m_len m >? NX_IPC_MSG_MAX) || (Z.of_nat (length q) =? NX_IPC_QUEUE) then q
      else q ++ [m]
  | EpPop => tail q
  end.

(** ** Lemmas *)

Lemma ep_queue_length ep : ep_wf ep -> Z.of_nat (length (ep_queue ep)) = ep_count ep.
Proof. intros (_ & _ & ?). unfold ep_queue. rewrite length_fmap, length_seqZ. lia. Qed.

Lemma push_spec ep m :
  ep_wf ep ->
  ep_wf (nx_ep_push ep m).2 /\
  ep_queue (nx_ep_push ep m).2 = fifo_exec (ep_queue ep) (EpPush m) /\
  (nx_ep_push ep m).1 =
    (if m_len m >? NX_IPC_MSG_MAX then Err NX_EINVAL
     else if Z.of_nat (length (ep_queue ep)) =? NX_IPC_QUEUE then Err NX_EFULL else Ok tt).
Proof.
  intros Hwf. unfold fifo_exec. rewrite ep_queue_length by done.
  pose proof Hwf as (Hl & Hh & Hc). unfold nx_ep_push, NX_IPC_QUEUE in *.
  guard_case; [done|]. destruct (Z.eqb_spec (ep_count ep) 8) as [|Hne]; [done|].
  rewrite !wrap_small by (unfold fits; lia).
  unfold ep_wf, ep_queue, NX_IPC_QUEUE. cbn. rewrite arr_set_length. split_and!; try (done || lia).
  rewrite seqZ_app, fmap_app by lia. f_equal.
  - apply list_fmap_ext. intros i k Hk. apply lookup_seqZ in Hk as [-> Hk].
    pose proof (Z.mod_pos_bound (ep_head ep + ep_count ep) 8 ltac:(lia)).
    pose proof (Z.mod_pos_bound (ep_head ep + (0 + Z.of_nat i)) 8 ltac:(lia)).
    apply arr_get_set_ne; [lia..|].
    apply not_eq_sym, mod_ne_near; lia.
  - rewrite seqZ_cons by lia. cbn. f_equal. rewrite Z.add_0_l.
    pose proof (Z.mod_pos_bound (ep_head ep + ep_count ep) 8 ltac:(lia)).
    apply arr_get_set_eq. lia.
Qed.

Lemma pop_spec ep :
  ep_wf ep ->
  ep_wf (nx_ep_pop ep) /\ ep_queue (nx_ep_pop ep) = tail (ep_queue ep) /\
  nx_ep_peek ep = head (ep_queue ep).
Proof.
  intros (Hl & Hh & Hc). unfold nx_ep_pop, nx_ep_peek, ep_wf, ep_queue.
  destruct (Z.eqb_spec (ep_count ep) 0) as [->|Hne]; [done|].
  unfold NX_IPC_QUEUE in *. rewrite !wrap_small by (unfold fits; lia).
  pose proof (Z.mod_pos_bound (ep_head ep + 1) 8 ltac:(lia)).
  rewrite (seqZ_cons 0 (ep_count ep)) by lia. cbn. split_and!; try (done || lia).
  - rewrite <- (fmap_add_seqZ 1 0), <- list_fmap_compose. apply list_fmap_ext.
    intros i k Hk. cbn. f_equal. f_equal. rewrite Z.add_mod_idemp_l by lia. f_equal. lia.
  - do 2 f_equal. rewrite Z.add_0_r, Z.mod_small by lia. done.
Qed.

(** Draining with at least [ep_count] iterations empties the queue and drops
    one reference per transferred object, oldest message first. *)
Lemma ep_drain_enough fuel ep w :
  ep_wf ep -> ep_count ep <= Z.of_nat fuel ->
  let '(ep', w') := ep_drain_loop fuel ep w in
  ep_wf ep' /\ ep_count ep' = 0 /\
  w' = fold_left nx_obj_unref (omap m_obj (ep_queue ep)) w.
Proof.
  revert ep w. induction fuel as [|fuel IH]; intros ep w Hwf Hle; simpl.
  - pose proof Hwf as (_ & _ & ?). assert (ep_count ep = 0) as Hz by lia.
    unfold ep_queue. by rewrite Hz.
  - destruct (pop_spec ep Hwf) as (Hwf' & Hq & Hp). rewrite Hp.
    destruct (ep_queue ep) as [|m q] eqn:E; simpl.
    + split_and!; try done. rewrite <- ep_queue_length by done. by rewrite E.
    + pose proof (ep_queue_length ep Hwf) as Hlen. rewrite E in Hlen.
      pose proof (ep_queue_length _ Hwf') as Hlen'. rewrite Hq in Hlen'. simpl in Hlen, Hlen'.
      specialize (IH (nx_ep_pop ep)
        (match m_obj m with Some o => nx_obj_unref w o | None => w end) Hwf' ltac:(lia)).
      destruct (ep_drain_loop fuel _ _) as [ep' w']. rewrite Hq in IH. simpl in IH.
      destruct IH as (? & ? & ->). split_and!; try done. by destruct (m_obj m).
Qed.

Lemma exec_fifo ep op :
  ep_wf ep -> ep_wf (ep_exec ep op) /\ ep_queue (ep_exec ep op) = fifo_exec (ep_queue ep) op.
Proof.
  intros Hwf. destruct op as [m|]; simpl.
  - destruct (push_spec ep m Hwf) as (? & ? & _). done.
  - destruct (pop_spec ep Hwf) as (? & ? & _). done.
Qed.

(** ** Properties *)

(** C28: Under any sequence of pushes and pops the endpoint's ring buffer
    behaves as a bounded FIFO: it holds exactly the accepted messages that were
    not yet popped, in the order they were sent, and [nx_ep_peek] returns the
    oldest of them. *)
Theorem endpoint_is_fifo ep ops :
  Z.of_nat (length (ep_q ep)) = NX_IPC_QUEUE ->
  let ep' := fold_left ep_exec ops (nx_ep_init ep) in
  ep_wf ep' /\ ep_queue ep' = fold_left fifo_exec ops [] /\
  nx_ep_peek ep' = head (fold_left fifo_exec ops []).
Proof.
  intros Hl ep'.
  assert (ep_wf ep' /\ ep_queue ep' = fold_left fifo_exec ops []) as [Hwf Hq].
  { unfold ep'. induction ops as [|op ops IH] using rev_ind; [done|].
    rewrite !fold_left_app. simpl. destruct IH as [Hwf <-]. by apply exec_fifo. }
  split_and!; [done..|]. rewrite <- Hq. by apply pop_spec.
Qed.

(** Draining an endpoint terminates with an empty queue and releases
    exactly one reference of every object a queued message carried. *)
Theorem drain_releases_all ep w :
  ep_wf ep ->
  let '(ep', w') := nx_ep_drain ep w in
  nx_ep_peek ep' = None /\ w' = fold_left nx_obj_unref (omap m_obj (ep_queue ep)) w.
Proof.
  intros Hwf. unfold nx_ep_drain. pose proof Hwf as (_ & _ & ?).
  pose proof (ep_drain_enough (Z.to_nat (ep_count ep)) ep w Hwf ltac:(lia)) as Hd.
  destruct (ep_drain_loop _ ep w) as [ep' w']. destruct Hd as (_ & Hc & ->).
  split; [|done]. unfold nx_ep_peek. by rewrite Hc.
Qed.
End ipc.

(** ** Witnesses *)

Lemma endpoint_is_fifo_witness :
  let m k := mk_msg (oid := Z) 1 k None 0 [k] in
  nx_ep_peek (fold_left ep_exec [EpPush (m 1); EpPush (m 2); EpPop; EpPush (m 3)]
    (nx_ep_init (mk_ep (replicate 8 inhabitant) 5 3 None))) = Some (m 2).
Proof.
  intros m.
  destruct (endpoint_is_fifo (mk_ep (replicate 8 inhabitant) 5 3 None)
    [EpPush (m 1); EpPush (m 2); EpPop; EpPush (m 3)] eq_refl) as (_ & _ & ->).
  reflexivity.
Defined.

Lemma drain_releases_all_witness :
  let ep := mk_ep [mk_msg 0 0 (Some 1) 0 []; inhabitant; inhabitant; inhabitant; inhabitant;
                   inhabitant; inhabitant; mk_msg 0 0 (Some 2) 0 []] 7 2 None in
  let '(ep', w') := nx_ep_drain ep sample_world in
  nx_ep_peek ep' = None /\ sh_dead w' = [2; 1].
Proof.
  intros ep. pose proof (drain_releases_all ep sample_world ltac:(by vm_compute)) as Hd.
  destruct (nx_ep_drain ep sample_world) as [ep' w']. destruct Hd as [? ->].
  split; [done|]. reflexivity.
Defined.
