(* ===== verification/BootAbi.v ===== *)
(** * Boot information ABI

    Constants and records of [abi/nanox/bootinfo.h]: what the UEFI loader hands
    to the kernel. *)
From S2P Require Import Prelude.

Definition NX_BOOTINFO_MAGIC : Z := 0x49425F584F4E414E.
Definition NX_BOOTINFO_VERSION_MAJOR : Z := 1.
Definition NX_BOOTINFO_VERSION_MINOR : Z := 1.
Definition NX_BOOTINFO_V1_SIZE : Z := 192.
Definition NX_BOOTINFO_V1_1_SIZE : Z := 224.
Definition NX_BOOTINFO_MAX_SIZE : Z := 4096.

Definition NX_BI_HAS_ACPI_RSDP : Z := 1 <<. 0.
Definition NX_BI_HAS_FRAMEBUFFER : Z := 1 <<. 1.
Definition NX_BI_HAS_INITRD : Z := 1 <<. 2.
Definition NX_BI_KNOWN_FLAGS_V1_0 : Z := NX_BI_HAS_ACPI_RSDP |. NX_BI_HAS_FRAMEBUFFER.
Definition NX_BI_KNOWN_FLAGS_V1_1 : Z := NX_BI_KNOWN_FLAGS_V1_0 |. NX_BI_HAS_INITRD.

(** [enum nx_mem_type] *)
Definition NX_MEM_USABLE : Z := 1.
Definition NX_MEM_RESERVED : Z := 2.
Definition NX_MEM_ACPI_RECLAIMABLE : Z := 3.
Definition NX_MEM_ACPI_NVS : Z := 4.
Definition NX_MEM_MMIO : Z := 5.
Definition NX_MEM_BOOT_RECLAIMABLE : Z := 6.
Definition NX_MEM_KERNEL_IMAGE : Z := 7.
Definition NX_MEM_KERNEL_STACK : Z := 8.
Definition NX_MEM_BOOT_INFO : Z := 9.
Definition NX_MEM_FIRMWARE_RUNTIME : Z := 10.
Definition NX_MEM_INITRD : Z := 11.

Definition NX_MEM_TYPE_MIN : Z := 1.
Definition NX_MEM_TYPE_MAX_V1_0 : Z := 10.
Definition NX_MEM_TYPE_MAX : Z := 11.

Definition NX_PAGE_SIZE : Z := 4096.
Definition NX_MMAP_MAX_ENTRIES : Z := 4096.
Definition NX_CMDLINE_MAX : Z := 4095.

(** [struct nx_mem_region] *)
Record nx_mem_region := mk_region {
  r_base : Z;
  r_length : Z;
  r_type : Z;
  r_flags : Z;
}.

(** [enum nx_fb_format] *)
Definition NX_FB_NONE : Z := 0.
Definition NX_FB_RGBX8888 : Z := 1.
Definition NX_FB_BGRX8888 : Z := 2.

(** [struct nx_boot_info], without the two fields no code reads
    ([uefi_system_table_phys], [kernel_sha256]). *)
Record nx_boot_info := mk_boot_info {
  bi_magic : Z;
  bi_version_major : Z;
  bi_version_minor : Z;
  bi_size : Z;
  bi_flags : Z;
  bi_mmap_phys : Z;
  bi_mmap_count : Z;
  bi_mmap_entry_size : Z;
  bi_kernel_phys_base : Z;
  bi_kernel_phys_size : Z;
  bi_kernel_entry : Z;
  bi_stack_phys_base : Z;
  bi_stack_size : Z;
  bi_cmdline_phys : Z;
  bi_cmdline_len : Z;
  bi_reserved0 : Z;
  bi_initrd_phys : Z;
  bi_initrd_size : Z;
  bi_acpi_rsdp_phys : Z;
  bi_fb_phys : Z;
  bi_fb_size : Z;
  bi_fb_width : Z;
  bi_fb_height : Z;
  bi_fb_pitch : Z;
  bi_fb_format : Z;
  bi_initrd_sha256 : list Z;
}.

#[export] Instance nx_mem_region_eq_dec : EqDecision nx_mem_region.
Proof. solve_decision. Defined.

#[export] Instance nx_mem_region_inhabited : Inhabited nx_mem_region :=
  populate (mk_region 0 0 0 0).

(** End of a region, as the source computes it ([base + length], 64 bits). *)
Definition r_end (r : nx_mem_region) : Z := u64 (r_base r + r_length r).

(** A region as [bootinfo.h] describes it: page aligned, non-empty, not
    wrapping around the address space. *)
Definition region_wf (r : nx_mem_region) : Prop :=
  0 <= r_base r /\ 0 < r_length r /\ r_base r + r_length r <= UINT64_MAX /\
  r_base r mod NX_PAGE_SIZE = 0 /\ r_length r mod NX_PAGE_SIZE = 0.

(** Byte [a] lies in the region; has type [t] according to the regions. *)
Definition in_region (a : Z) (r : nx_mem_region) : Prop := r_base r <= a < r_base r + r_length r.
Definition typed (rs : list nx_mem_region) (a t : Z) : Prop :=
  exists r, r ∈ rs /\ in_region a r /\ r_type r = t.

Definition regions_disjoint (r s : nx_mem_region) : Prop := forall a, ~ (in_region a r /\ in_region a s).

(** Regions as the boot information promises them: well-formed, ascending and
    disjoint. *)
Definition regions_sorted (rs : list nx_mem_region) : Prop :=
  Forall region_wf rs /\ pairwise (fun r s => r_base r + r_length r <= r_base s) rs.

Lemma region_wf_end r : region_wf r -> r_end r = r_base r + r_length r.
Proof.
  intros (? & ? & ? & _). unfold r_end, UINT64_MAX in *. apply wrap_small.
  unfold fits. lia.
Qed.

Lemma region_wf_end_aligned r : region_wf r -> r_end r mod NX_PAGE_SIZE = 0.
Proof.
  intros Hr. rewrite region_wf_end by done. destruct Hr as (_ & _ & _ & Hb & Hl).
  unfold NX_PAGE_SIZE in *. rewrite Z.add_mod, Hb, Hl by lia. done.
Qed.

Lemma typed_app rs ss a t : typed (rs ++ ss) a t <-> typed rs a t \/ typed ss a t.
Proof. unfold typed. set_solver. Qed.

Lemma typed_singleton r a t : typed [r] a t <-> in_region a r /\ r_type r = t.
Proof. unfold typed. set_solver. Qed.

Lemma typed_cons r rs a t : typed (r :: rs) a t <-> (in_region a r /\ r_type r = t) \/ typed rs a t.
Proof. unfold typed. set_solver. Qed.

Lemma regions_sorted_cons r rs :
  regions_sorted (r :: rs) ->
  region_wf r /\ regions_sorted rs /\
  forall s, s ∈ rs -> region_wf s /\ r_base r + r_length r <= r_base s.
Proof.
  intros [Hw Hp]. apply Forall_cons in Hw as [Hr Hw]. destruct Hp as [Hr' Hp].
  split; [done|]. split; [done|]. intros s Hs. rewrite Forall_forall in Hw, Hr'. auto.
Qed.

(** A byte has at most one type. *)
Lemma typed_unique rs a t u : regions_sorted rs -> typed rs a t -> typed rs a u -> t = u.
Proof.
  induction rs as [|r rs IH]; intros Hs; [intros (s & Hs' & _); set_solver|].
  apply regions_sorted_cons in Hs as (Hr & Hs & Hlt). rewrite !typed_cons.
  assert (Hno : forall v, in_region a r -> ~ typed rs a v).
  { intros v Ha (s & Hin & Has & _). destruct (Hlt s Hin) as [_ ?]. unfold in_region in *. lia. }
  intros [[Ha <-]|Ha] [[Hb <-]|Hb]; [done|by apply Hno in Hb|by apply Hno in Ha|by apply IH].
Qed.
