(* ===== verification/Bitmap.v ===== *)
(** * Byte bitmaps

    The bitmaps of [kernel/mm/pmm.c] ([bit], [set_bit], [clear_bit]) and of
    [lib/store.c] ([bit_get], [bit_set]): bit [i] of byte [i / 8], bytes as
    integers. *)
From S2P Require Import Prelude.

Definition bit (m : list Z) (i : Z) : bool :=
  negb ((m.[i >>. 3] >>. (i &. 7)) &. 1 =? 0).

Definition set_bit (m : list Z) (i : Z) : list Z :=
  m.[i >>. 3 := u8 (m.[i >>. 3] |. u8 (1 <<. (i &. 7)))].

Definition clear_bit (m : list Z) (i : Z) : list Z :=
  m.[i >>. 3 := u8 (m.[i >>. 3] &. u8 (~. (1 <<. (i &. 7))))].

(** [bit_get] and [bit_set] of [lib/store.c] *)
Definition bit_get (map : list Z) (b : Z) : bool := negb ((map.[b >>. 3] >>. (b &. 7)) &. 1 =? 0).

Definition bit_set (map : list Z) (b : Z) : list Z :=
  map.[b >>. 3 := u8 (map.[b >>. 3] |. u8 (1 <<. (b &. 7)))].

(** ** Lemmas: bitmaps *)

Lemma byte_index i : i >>. 3 = i / 8 /\ i &. 7 = i mod 8.
Proof.
  split; [apply Z.shiftr_div_pow2; lia|]. change 7 with (Z.ones 3). apply land_ones_mod. lia.
Qed.

Lemma bit_testbit m i : bit m i = Z.testbit m.[i / 8] (i mod 8).
Proof.
  unfold bit. destruct (byte_index i) as [-> ->].
  rewrite Z.testbit_odd. change 1 with (Z.ones 1) at 1. rewrite land_ones_mod, Zmod_odd by lia.
  by destruct (Z.odd _).
Qed.

Lemma testbit_u8 x k : 0 <= k < 8 -> Z.testbit (u8 x) k = Z.testbit x k.
Proof. intros. unfold wrap. apply Z.mod_pow2_bits_low. lia. Qed.

Lemma testbit_pow2 n k : 0 <= n -> 0 <= k -> Z.testbit (1 <<. n) k = bool_decide (k = n).
Proof.
  intros. rewrite Z.shiftl_1_l. case_bool_decide as Hd.
  - subst. by apply Z.pow2_bits_true.
  - by apply Z.pow2_bits_false.
Qed.

Lemma bit_set_bit m i j :
  0 <= i -> i / 8 < Z.of_nat (length m) -> 0 <= j ->
  bit (set_bit m i) j = (i =? j) || bit m j.
Proof.
  intros Hi Hlt Hj. rewrite !bit_testbit. unfold set_bit. destruct (byte_index i) as [-> ->].
  pose proof (Z.mod_pos_bound i 8 ltac:(lia)). pose proof (Z.mod_pos_bound j 8 ltac:(lia)).
  assert (0 <= i / 8) by (apply Z.div_pos; lia). assert (0 <= j / 8) by (apply Z.div_pos; lia).
  destruct (decide (i / 8 = j / 8)) as [He|Hne].
  - rewrite <- He, arr_get_set_eq, testbit_u8, Z.lor_spec, testbit_u8, testbit_pow2 by lia.
    rewrite orb_comm. f_equal. destruct (Z.eqb_spec i j); [subst; by case_bool_decide|].
    case_bool_decide; [exfalso; dlia|done].
  - rewrite arr_get_set_ne by lia. destruct (Z.eqb_spec i j); [congruence|done].
Qed.

Lemma bit_clear_bit m i j :
  0 <= i -> i / 8 < Z.of_nat (length m) -> 0 <= j ->
  bit (clear_bit m i) j = negb (i =? j) && bit m j.
Proof.
  intros Hi Hlt Hj. rewrite !bit_testbit. unfold clear_bit. destruct (byte_index i) as [-> ->].
  pose proof (Z.mod_pos_bound i 8 ltac:(lia)). pose proof (Z.mod_pos_bound j 8 ltac:(lia)).
  assert (0 <= i / 8) by (apply Z.div_pos; lia). assert (0 <= j / 8) by (apply Z.div_pos; lia).
  destruct (decide (i / 8 = j / 8)) as [He|Hne].
  - rewrite <- He, arr_get_set_eq, testbit_u8, Z.land_spec, testbit_u8, Z.lnot_spec,
      testbit_pow2 by lia.
    rewrite andb_comm. f_equal. f_equal. destruct (Z.eqb_spec i j); [subst; by case_bool_decide|].
    case_bool_decide; [exfalso; dlia|done].
  - rewrite arr_get_set_ne by lia. destruct (Z.eqb_spec i j); [congruence|done].
Qed.

Lemma set_bit_length m i : length (set_bit m i) = length m.
Proof. apply arr_set_length. Qed.
Lemma clear_bit_length m i : length (clear_bit m i) = length m.
Proof. apply arr_set_length. Qed.

