(* ===== verification/Pmm.v ===== *)
(** * Physical page allocator

    Models [kernel/mm/pmm.h] and [kernel/mm/pmm.c]: two bitmaps over the
    physical pages ([managed], [used]), next-fit allocation.  The bitmaps are
    byte lists ([Bitmap.v]); [p_access] is the address through which the kernel reaches
    them. *)
From S2P Require Import Prelude Bitmap BootAbi.

Definition PAGE : Z := 4096.
Definition NX_PMM_MIN_PHYS : Z := 0x100000.

(** [enum nx_pmm_status] *)
Inductive nx_pmm_status : Set :=
| NX_PMM_OK | NX_PMM_E_ALIGN | NX_PMM_E_UNMANAGED | NX_PMM_E_DOUBLE_FREE
| NX_PMM_E_STORAGE | NX_PMM_E_EMPTY.

(** [struct nx_pmm] *)
Record nx_pmm := mk_pmm {
  p_used : list Z;
  p_managed : list Z;
  p_npages : Z;
  p_managed_pages : Z;
  p_free_pages : Z;
  p_next : Z;
  p_storage_first : Z;
  p_storage_last : Z;
  p_access : Z;
}.

(** ** Setup *)

Definition manageable (type : Z) : bool :=
  (type =? NX_MEM_USABLE) || (type =? NX_MEM_BOOT_RECLAIMABLE) ||
  (type =? NX_MEM_KERNEL_STACK) || (type =? NX_MEM_INITRD) ||
  (type =? NX_MEM_ACPI_RECLAIMABLE).

Definition nx_pmm_span_pages (rg : list nx_mem_region) : Z :=
  for_each rg (fun e r => if manageable (r_type r) && (r_end r >? e) then r_end r else e) 0
    / PAGE.

Definition nx_pmm_storage_bytes (npages : Z) : Z :=
  let one := u64 (npages + 7) / 8 in
  u64 (2 * one + PAGE - 1) &. ~. (PAGE - 1).

(** [base] clamped to the first manageable address. *)
Definition clamp_base (base : Z) : Z := if base <? NX_PMM_MIN_PHYS then NX_PMM_MIN_PHYS else base.

Definition nx_pmm_find_storage (rg : list nx_mem_region) (bytes : Z) : Z :=
  match find_first
          (fun r => (r_type r =? NX_MEM_USABLE) && (clamp_base (r_base r) <? r_end r) &&
                    (r_end r - clamp_base (r_base r) >=? bytes)) rg with
  | Some r => clamp_base (r_base r)
  | None => 0
  end.

(** Body of the loop of [add_pages]; the accumulator is (managed, used, added). *)
Definition add_page (p : nx_pmm) (s : list Z * list Z * Z) (i : Z) : list Z * list Z * Z :=
  let '(managed, used, added) := s in
  if bit managed i || ((i >=? p_storage_first p) && (i <? p_storage_last p)) then s
  else (set_bit managed i, clear_bit used i, u64 (added + 1)).

Definition add_pages (p : nx_pmm) (base end_ : Z) : Z * nx_pmm :=
  let base := clamp_base base in
  let first := u64 (base + PAGE - 1) / PAGE in
  let last := end_ / PAGE in
  let last := if last >? p_npages p then p_npages p else last in
  let '(managed, used, added) :=
    for_each (seqZ first (last - first)) (add_page p) (p_managed p, p_used p, 0) in
  (added,
   mk_pmm used managed (p_npages p) (u64 (p_managed_pages p + added))
     (u64 (p_free_pages p + added)) (p_next p) (p_storage_first p) (p_storage_last p)
     (p_access p)).

(** Returns [NX_PMM_OK] always; the number of added pages is the out-parameter. *)
Definition nx_pmm_add_type (p : nx_pmm) (rg : list nx_mem_region) (type : Z) : Z * nx_pmm :=
  for_each rg
    (fun '(added, p) r =>
       if (r_type r =? type) && manageable type then
         let '(n, p') := add_pages p (r_base r) (r_end r) in (u64 (added + n), p')
       else (added, p))
    (0, p).

Definition nx_pmm_init (p : nx_pmm) (rg : list nx_mem_region)
    (storage storage_phys storage_bytes : Z) : nx_pmm_status * nx_pmm :=
  let npages := nx_pmm_span_pages rg in
  let p0 := mk_pmm (p_used p) (p_managed p) npages (p_managed_pages p) (p_free_pages p)
              (p_next p) (p_storage_first p) (p_storage_last p) (p_access p) in
  if npages =? 0 then (NX_PMM_E_EMPTY, p0)
  else
    let one := u64 (npages + 7) / 8 in
    if (storage =? 0) || negb (storage_phys &. (PAGE - 1) =? 0) ||
       (storage_bytes <? 2 * one) ||
       (storage_phys >? u64 (u64 (UINT64_MAX - storage_bytes) - PAGE))
    then (NX_PMM_E_STORAGE, p0)
    else
      let p1 := mk_pmm (replicate (Z.to_nat one) 0xFF) (replicate (Z.to_nat one) 0)
                  npages 0 0 0 (storage_phys / PAGE)
                  (u64 (storage_phys + storage_bytes + PAGE - 1) / PAGE) storage in
      let '(_, p2) := nx_pmm_add_type p1 rg NX_MEM_USABLE in
      (if p_managed_pages p2 =? 0 then NX_PMM_E_EMPTY else NX_PMM_OK, p2).

Definition nx_pmm_relocate (p : nx_pmm) (storage : Z) : nx_pmm :=
  mk_pmm (p_used p) (p_managed p) (p_npages p) (p_managed_pages p) (p_free_pages p)
    (p_next p) (p_storage_first p) (p_storage_last p) storage.

(** ** Allocation *)

Definition nx_pmm_alloc (p : nx_pmm) : Z * nx_pmm :=
  if p_free_pages p =? 0 then (0, p)
  else
    match find_first
            (fun k => let i := u64 (p_next p + k) mod p_npages p in
                      bit (p_managed p) i && negb (bit (p_used p) i))
            (seqZ 0 (p_npages p)) with
    | Some k =>
        let i := u64 (p_next p + k) mod p_npages p in
        (u64 (i * PAGE),
         mk_pmm (set_bit (p_used p) i) (p_managed p) (p_npages p) (p_managed_pages p)
           (u64 (p_free_pages p - 1)) ((i + 1) mod p_npages p)
           (p_storage_first p) (p_storage_last p) (p_access p))
    | None => (0, p)
    end.

Definition nx_pmm_free (p : nx_pmm) (phys : Z) : nx_pmm_status * nx_pmm :=
  if negb (phys &. (PAGE - 1) =? 0) then (NX_PMM_E_ALIGN, p)
  else
    let i := phys / PAGE in
    if (i >=? p_npages p) || negb (bit (p_managed p) i) then (NX_PMM_E_UNMANAGED, p)
    else if negb (bit (p_used p) i) then (NX_PMM_E_DOUBLE_FREE, p)
    else
      (NX_PMM_OK,
       mk_pmm (clear_bit (p_used p) i) (p_managed p) (p_npages p) (p_managed_pages p)
         (u64 (p_free_pages p + 1)) (p_next p) (p_storage_first p) (p_storage_last p)
         (p_access p)).

Definition nx_pmm_is_free (p : nx_pmm) (phys : Z) : bool :=
  let i := phys / PAGE in
  (i <? p_npages p) && bit (p_managed p) i && negb (bit (p_used p) i).

(** ** Specification *)

(** Pages owned by the allocator, and those of them that are free. *)
Definition managed_set (p : nx_pmm) : gset Z :=
  list_to_set (filter (fun i => bit (p_managed p) i = true) (seqZ 0 (p_npages p))).
Definition free_set (p : nx_pmm) : gset Z :=
  list_to_set (filter (fun i => bit (p_managed p) i && negb (bit (p_used p) i) = true)
                 (seqZ 0 (p_npages p))).

(** Pages that hold the bitmaps. *)
Definition in_storage (p : nx_pmm) (i : Z) : bool :=
  (i >=? p_storage_first p) && (i <? p_storage_last p).

(** Page [i] lies in [[base, end_)], can be managed and is not bitmap storage. *)
Definition takes (p : nx_pmm) (base end_ i : Z) : Prop :=
  0 <= i < p_npages p /\ Z.max base NX_PMM_MIN_PHYS <= i * PAGE /\ (i + 1) * PAGE <= end_ /\
  in_storage p i = false.

(** [p'] is [p] with the pages of [new] marked managed and free in both bitmaps. *)
Definition extends (p p' : nx_pmm) (new : list Z) : Prop :=
  p_npages p' = p_npages p /\ p_next p' = p_next p /\
  length (p_managed p') = length (p_managed p) /\ length (p_used p') = length (p_used p) /\
  p_storage_first p' = p_storage_first p /\ p_storage_last p' = p_storage_last p /\
  (forall j, 0 <= j -> bit (p_managed p') j = bit (p_managed p) j || bool_decide (j ∈ new)) /\
  (forall j, 0 <= j -> bit (p_used p') j = bit (p_used p) j && negb (bool_decide (j ∈ new))).

(** Bytes of one bitmap. *)
Definition map_bytes (npages : Z) : Z := (npages + 7) / 8.

(** The allocator invariant of [pmm.h]. *)
Definition pmm_wf (p : nx_pmm) : Prop :=
  0 < p_npages p < 2 ^ 52 /\
  Z.of_nat (length (p_used p)) = map_bytes (p_npages p) /\
  Z.of_nat (length (p_managed p)) = map_bytes (p_npages p) /\
  0 <= p_next p < p_npages p /\
  p_managed_pages p = Z.of_nat (size (managed_set p)) /\
  p_free_pages p = Z.of_nat (size (free_set p)) /\
  (forall i, i ∈ managed_set p ->
     NX_PMM_MIN_PHYS <= i * PAGE /\ ~ (p_storage_first p <= i < p_storage_last p)) /\
  (forall i, 0 <= i < p_npages p -> bit (p_managed p) i = false -> bit (p_used p) i = true).

(** Page [i] lies inside a region of [rg] of type [type], at or above 1 MiB. *)
Definition in_type (rg : list nx_mem_region) (type i : Z) : Prop :=
  exists r, r ∈ rg /\ r_type r = type /\
    Z.max (r_base r) NX_PMM_MIN_PHYS <= i * PAGE /\ (i + 1) * PAGE <= r_base r + r_length r.

(** Page [i] overlaps the bytes [[base, base + len)]. *)
Definition overlaps (base len i : Z) : Prop := base < (i + 1) * PAGE /\ i * PAGE < base + len.

(** The calls the kernel makes once the allocator is set up, and their results. *)
Inductive pmm_op : Type :=
| PmmAlloc
| PmmFree (phys : Z)
| PmmAddType (rg : list nx_mem_region) (type : Z)
| PmmIsFree (phys : Z).

Inductive pmm_res : Type :=
| RPage (phys : Z)
| RStatus (st : nx_pmm_status)
| RAdded (n : Z)
| RBool (b : bool).

#[export] Instance nx_pmm_status_eq_dec : EqDecision nx_pmm_status.
Proof. solve_decision. Defined.
#[export] Instance pmm_op_eq_dec : EqDecision pmm_op.
Proof. solve_decision. Defined.
#[export] Instance pmm_res_eq_dec : EqDecision pmm_res.
Proof. solve_decision. Defined.

Definition pmm_exec (p : nx_pmm) (op : pmm_op) : pmm_res * nx_pmm :=
  match op with
  | PmmAlloc => let '(phys, p') := nx_pmm_alloc p in (RPage phys, p')
  | PmmFree phys => let '(st, p') := nx_pmm_free p phys in (RStatus st, p')
  | PmmAddType rg type => let '(n, p') := nx_pmm_add_type p rg type in (RAdded n, p')
  | PmmIsFree phys => (RBool (nx_pmm_is_free p phys), p)
  end.

Definition pmm_op_ok (op : pmm_op) : Prop :=
  match op with
  | PmmAlloc => True
  | PmmFree phys | PmmIsFree phys => 0 <= phys
  | PmmAddType rg _ => Forall region_wf rg
  end.

(** The abstract allocator: the managed pages and the free ones among them.
    [grow] are the pages a call of [nx_pmm_add_type] may take. *)
Inductive page_step (grow : Z -> list nx_mem_region -> Z -> Prop) :
    gset Z * gset Z -> pmm_op -> pmm_res -> gset Z * gset Z -> Prop :=
| PS_alloc m f i :
    i ∈ f -> page_step grow (m, f) PmmAlloc (RPage (i * PAGE)) (m, f ∖ {[i]})
| PS_alloc_none m :
    page_step grow (m, ∅) PmmAlloc (RPage 0) (m, ∅)
| PS_free m f i :
    i ∈ m -> i ∉ f ->
    page_step grow (m, f) (PmmFree (i * PAGE)) (RStatus NX_PMM_OK) (m, f ∪ {[i]})
| PS_free_align m f phys :
    phys mod PAGE <> 0 ->
    page_step grow (m, f) (PmmFree phys) (RStatus NX_PMM_E_ALIGN) (m, f)
| PS_free_unmanaged m f i :
    i ∉ m -> page_step grow (m, f) (PmmFree (i * PAGE)) (RStatus NX_PMM_E_UNMANAGED) (m, f)
| PS_free_double m f i :
    i ∈ f -> page_step grow (m, f) (PmmFree (i * PAGE)) (RStatus NX_PMM_E_DOUBLE_FREE) (m, f)
| PS_add m f rg type new :
    new ## m -> (forall i, i ∈ new <-> grow type rg i /\ i ∉ m) ->
    page_step grow (m, f) (PmmAddType rg type) (RAdded (Z.of_nat (size new))) (m ∪ new, f ∪ new)
| PS_is_free m f phys :
    page_step grow (m, f) (PmmIsFree phys) (RBool (bool_decide (phys / PAGE ∈ f))) (m, f).

(** A sequence of calls with the results it returns. *)
Fixpoint pmm_run (p : nx_pmm) (ops : list pmm_op) : list (pmm_op * pmm_res) * nx_pmm :=
  match ops with
  | [] => ([], p)
  | op :: ops' =>
      let '(r, p') := pmm_exec p op in
      let '(tr, p'') := pmm_run p' ops' in ((op, r) :: tr, p'')
  end.

Inductive page_steps grow : gset Z * gset Z -> list (pmm_op * pmm_res) -> gset Z * gset Z -> Prop :=
| PSs_nil s : page_steps grow s [] s
| PSs_cons s op r s' tr s'' :
    page_step grow s op r s' -> page_steps grow s' tr s'' -> page_steps grow s ((op, r) :: tr) s''.

(** Pages [nx_pmm_add_type] may take: of a manageable type, inside the span,
    outside the bitmaps. *)
Definition pmm_grow (p : nx_pmm) (type : Z) (rg : list nx_mem_region) (i : Z) : Prop :=
  manageable type = true /\ in_type rg type i /\ i < p_npages p /\ in_storage p i = false.

Definition pmm_abs (p : nx_pmm) : gset Z * gset Z := (managed_set p, free_set p).

(** ** Sample states for the witnesses *)

Definition zero_pmm : nx_pmm := mk_pmm [] [] 0 0 0 0 0 0 0.
Definition sample_map : list nx_mem_region :=
  [mk_region 0x100000 0x10000 NX_MEM_USABLE 0; mk_region 0x110000 0x4000 NX_MEM_INITRD 0].
Definition sample_pmm : nx_pmm := (nx_pmm_init zero_pmm sample_map 1 0x100000 4096).2.
Definition sample_ops : list pmm_op :=
  [PmmAlloc; PmmFree 0x101000; PmmFree 0x101000; PmmFree 5; PmmFree 0;
   PmmAddType sample_map NX_MEM_INITRD; PmmIsFree 0x110000].

Definition sample_realloc : list pmm_op :=
  PmmAlloc :: PmmFree 0x101000 :: repeat PmmAlloc 15.

(** ** Lemmas: sizes *)

Lemma map_bytes_bound n i : 0 <= i < n -> 0 <= i / 8 < map_bytes n.
Proof. intros. unfold map_bytes. dlia. Qed.

Lemma page_mask x : x &. (PAGE - 1) = x mod PAGE.
Proof. change (PAGE - 1) with (Z.ones 12). apply land_ones_mod. lia. Qed.

(** ** Lemmas: the abstract sets *)

Lemma elem_managed p i :
  i ∈ managed_set p <-> 0 <= i < p_npages p /\ bit (p_managed p) i = true.
Proof.
  unfold managed_set. rewrite elem_of_list_to_set, list_elem_of_filter, elem_of_seqZ.
  rewrite Z.add_0_l. tauto.
Qed.

Lemma elem_free p i :
  i ∈ free_set p <->
  0 <= i < p_npages p /\ bit (p_managed p) i = true /\ bit (p_used p) i = false.
Proof.
  unfold free_set. rewrite elem_of_list_to_set, list_elem_of_filter, elem_of_seqZ, Z.add_0_l.
  destruct (bit (p_managed p) i), (bit (p_used p) i); simpl; naive_solver.
Qed.

Lemma free_subset_managed p : free_set p ⊆ managed_set p.
Proof. intros i. rewrite elem_free, elem_managed. tauto. Qed.

Lemma set_size_le (s : gset Z) n : 0 <= n -> (forall i, i ∈ s -> 0 <= i < n) -> Z.of_nat (size s) <= n.
Proof.
  intros Hn Hs. assert (s ⊆ list_to_set (seqZ 0 n)) as Hsub.
  { intros i Hi. apply elem_of_list_to_set, elem_of_seqZ. specialize (Hs i Hi). lia. }
  apply subseteq_size in Hsub. rewrite size_list_to_set in Hsub by apply NoDup_seqZ.
  rewrite length_seqZ in Hsub. lia.
Qed.

Lemma managed_size_le p : 0 <= p_npages p -> Z.of_nat (size (managed_set p)) <= p_npages p.
Proof. intros. apply set_size_le; [done|]. by intros i [? _]%elem_managed. Qed.

Lemma free_size_le p : 0 <= p_npages p -> Z.of_nat (size (free_set p)) <= p_npages p.
Proof. intros. apply set_size_le; [done|]. by intros i [? _]%elem_free. Qed.

(** ** Lemmas: allocation *)

Lemma next_fit_hits n next i :
  0 < n < 2 ^ 52 -> 0 <= next < n -> 0 <= i < n ->
  exists k, k ∈ seqZ 0 n /\ u64 (next + k) mod n = i.
Proof.
  intros Hn Hx Hi. exists ((i - next) mod n).
  pose proof (Z.mod_pos_bound (i - next) n ltac:(lia)).
  rewrite elem_of_seqZ. split; [lia|]. rewrite wrap_small by (unfold fits; lia).
  rewrite Z.add_mod_idemp_r by lia. replace (next + (i - next)) with i by lia.
  by apply Z.mod_small.
Qed.

Lemma alloc_cases p :
  pmm_wf p ->
  let '(phys, p') := nx_pmm_alloc p in
  pmm_wf p' /\ managed_set p' = managed_set p /\
  ((free_set p = ∅ /\ phys = 0 /\ p' = p) \/
   exists i, i ∈ free_set p /\ phys = i * PAGE /\ free_set p' = free_set p ∖ {[i]}).
Proof.
  intros Hwf. pose proof Hwf as (Hn & Hu & Hm & Hx & Hmp & Hfp & Hs & Hun).
  unfold nx_pmm_alloc. destruct (Z.eqb_spec (p_free_pages p) 0) as [Hz|Hz].
  { split_and!; try done. left. split_and!; try done.
    apply leibniz_equiv, size_empty_inv. lia. }
  assert (exists i, i ∈ free_set p) as (i & Hi).
  { destruct (set_choose_or_empty (free_set p)) as [[i ?]|He]; [by exists i|].
    apply leibniz_equiv in He. rewrite He, size_empty in Hfp. lia. }
  pose proof Hi as (Hir & Him & Hiu)%elem_free.
  destruct (next_fit_hits (p_npages p) (p_next p) i) as (k & Hk & Hki); [done..|].
  destruct (find_first_is_Some
    (fun k => let i := u64 (p_next p + k) mod p_npages p in
              bit (p_managed p) i && negb (bit (p_used p) i))
    (seqZ 0 (p_npages p)) k Hk) as [k' Hk'].
  { cbv zeta. by rewrite Hki, Him, Hiu. }
  cbv zeta in Hk' |- *. rewrite Hk'. apply find_first_elem in Hk' as [_ Hb]. clear k Hk Hki i Hi Hir Him Hiu.
  set (i := u64 (p_next p + k') mod p_npages p) in *. breflect.
  assert (Hi : 0 <= i < p_npages p) by (apply Z.mod_pos_bound; lia).
  assert (Hif : i ∈ free_set p) by (by apply elem_free).
  rewrite (wrap_small 64 (i * PAGE)) by (unfold fits, PAGE; lia).
  set (p' := mk_pmm _ _ _ _ _ _ _ _ _).
  assert (Hbit : forall j, 0 <= j -> bit (p_used p') j = (i =? j) || bit (p_used p) j).
  { intros j Hj. apply bit_set_bit; [lia| |done]. rewrite Hu. by apply map_bytes_bound. }
  assert (Hms : managed_set p' = managed_set p) by done.
  assert (Hfs : free_set p' = free_set p ∖ {[i]}).
  { apply set_eq. intros j. rewrite elem_of_difference, elem_of_singleton, !elem_free.
    change (p_npages p') with (p_npages p). change (p_managed p') with (p_managed p).
    split.
    - intros (Hj & ? & Hjb). rewrite Hbit in Hjb by lia.
      destruct (Z.eqb_spec i j); [done|]. simpl in Hjb. naive_solver.
    - intros ((Hj & ? & ?) & Hne). rewrite Hbit by lia.
      destruct (Z.eqb_spec i j); [congruence|]. done. }
  split_and!; [|done|right; by exists i].
  pose proof (free_size_le p ltac:(lia)).
  split; [exact Hn|]. split; [exact (eq_trans (f_equal Z.of_nat (set_bit_length _ _)) Hu)|].
  split; [exact Hm|]. split; [exact (Z.mod_pos_bound (i + 1) (p_npages p) (proj1 Hn))|]. split; [exact Hmp|].
  split; [|split; [exact Hs|]].
  - rewrite Hfs. change (p_free_pages p') with (u64 (p_free_pages p - 1)).
    rewrite size_difference, size_singleton by set_solver.
    assert (size (free_set p) <> 0%nat) by lia. rewrite wrap_small by (unfold fits; lia). lia.
  - intros j Hj Hjm. rewrite Hbit by lia. rewrite Hun; [by rewrite orb_true_r|done|done].
Qed.

Lemma free_cases p phys :
  pmm_wf p -> 0 <= phys ->
  let '(st, p') := nx_pmm_free p phys in
  pmm_wf p' /\ managed_set p' = managed_set p /\
  match st with
  | NX_PMM_OK => phys mod PAGE = 0 /\ phys / PAGE ∈ managed_set p ∖ free_set p /\
                 free_set p' = free_set p ∪ {[phys / PAGE]}
  | NX_PMM_E_ALIGN => phys mod PAGE <> 0 /\ p' = p
  | NX_PMM_E_UNMANAGED => phys mod PAGE = 0 /\ phys / PAGE ∉ managed_set p /\ p' = p
  | NX_PMM_E_DOUBLE_FREE => phys mod PAGE = 0 /\ phys / PAGE ∈ free_set p /\ p' = p
  | _ => False
  end.
Proof.
  intros Hwf Hp. pose proof Hwf as (Hn & Hu & Hm & Hx & Hmp & Hfp & Hs & Hun).
  unfold nx_pmm_free. rewrite page_mask. guard_case; breflect; [done|].
  assert (Hi0 : 0 <= phys / PAGE) by (apply Z.div_pos; unfold PAGE; lia).
  set (i := phys / PAGE) in *. guard_case; breflect.
  { split_and!; try done. rewrite elem_managed. intros [? ?].
    apply orb_true_iff in Heqb0 as [?|?]; breflect; [lia|congruence]. }
  guard_case; breflect.
  { split_and!; try done. by apply elem_free. }
  set (p' := mk_pmm _ _ _ _ _ _ _ _ _).
  assert (Hbit : forall j, 0 <= j -> bit (p_used p') j = negb (i =? j) && bit (p_used p) j).
  { intros j Hj. apply bit_clear_bit; [lia| |done]. rewrite Hu. by apply map_bytes_bound. }
  assert (Him : i ∈ managed_set p) by (by apply elem_managed).
  assert (Hif : i ∉ free_set p) by (rewrite elem_free; naive_solver congruence).
  assert (Hms : managed_set p' = managed_set p) by done.
  assert (Hfs : free_set p' = free_set p ∪ {[i]}).
  { apply set_eq. intros j. rewrite elem_of_union, elem_of_singleton, !elem_free.
    change (p_npages p') with (p_npages p). change (p_managed p') with (p_managed p).
    split.
    - intros (Hj & ? & Hjb). rewrite Hbit in Hjb by lia.
      destruct (Z.eqb_spec i j); [by right|]. left. done.
    - intros [(Hj & ? & Hju)| ->]; (split_and!; try done; try lia).
      + rewrite Hbit by lia. rewrite Hju. apply andb_false_r.
      + rewrite Hbit by lia. by rewrite Z.eqb_refl. }
  pose proof (free_size_le p ltac:(lia)).
  split; [|split; [done|split_and!; [done|set_solver|done]]].
  split; [exact Hn|]. split; [exact (eq_trans (f_equal Z.of_nat (clear_bit_length _ _)) Hu)|].
  split; [exact Hm|]. split; [exact Hx|]. split; [exact Hmp|].
  split; [|split; [exact Hs|]].
  - rewrite Hfs. change (p_free_pages p') with (u64 (p_free_pages p + 1)).
    rewrite size_union, size_singleton by set_solver.
    rewrite wrap_small by (unfold fits; lia). lia.
  - intros j Hj Hjm. change (p_managed p') with (p_managed p) in Hjm. rewrite Hbit by lia.
    destruct (Z.eqb_spec i j); [congruence|]. by rewrite Hun.
Qed.

(** ** Lemmas: handing pages to the allocator *)

Lemma add_loop p l managed used added :
  NoDup l -> (forall i, i ∈ l -> 0 <= i /\ i / 8 < Z.of_nat (length managed) /\
                                i / 8 < Z.of_nat (length used)) ->
  0 <= added -> added + Z.of_nat (length l) < 2 ^ 64 ->
  let new := filter (fun i => bit managed i || in_storage p i = false) l in
  let '(managed', used', added') := for_each l (add_page p) (managed, used, added) in
  length managed' = length managed /\ length used' = length used /\
  added' = added + Z.of_nat (length new) /\
  (forall j, 0 <= j -> bit managed' j = bit managed j || bool_decide (j ∈ new)) /\
  (forall j, 0 <= j -> bit used' j = bit used j && negb (bool_decide (j ∈ new))).
Proof.
  unfold for_each. revert managed used added.
  induction l as [|i l IH]; intros m u n Hnd Hl Hn Hb; cbv zeta.
  { cbn [fold_left]. rewrite filter_nil. split_and!; [done..|cbn; lia| |]; intros j _;
      rewrite (bool_decide_eq_false_2 (j ∈ [])) by set_solver.
    - by rewrite orb_false_r.
    - by rewrite andb_true_r. }
  apply NoDup_cons in Hnd as [Hi Hnd]. cbn [length] in Hb.
  cbn [fold_left]. unfold add_page at 2. fold (in_storage p i).
  rewrite filter_cons. destruct (bit m i || in_storage p i) eqn:Hskip.
  { rewrite decide_False by congruence. apply IH; [done| |lia|lia]. set_solver. }
  rewrite decide_True by done. destruct (Hl i ltac:(set_solver)) as (Hi0 & Him & Hiu).
  rewrite (wrap_small 64) by (unfold fits; lia).
  specialize (IH (set_bit m i) (clear_bit u i) (n + 1) Hnd). cbv zeta in IH.
  rewrite set_bit_length, clear_bit_length in IH.
  rewrite (filter_ext_in (fun j => bit (set_bit m i) j || in_storage p j = false)
    (fun j => bit m j || in_storage p j = false) l) in IH.
  2:{ intros j Hj. destruct (Hl j ltac:(set_solver)) as (Hj0 & _).
      rewrite bit_set_bit by done. destruct (Z.eqb_spec i j); [set_solver|done]. }
  specialize (IH ltac:(set_solver) ltac:(lia) ltac:(lia)).
  set (new := filter _ l) in *.
  destruct (fold_left (add_page p) l _) as [[m' u'] n'].
  destruct IH as (? & ? & -> & Hm' & Hu'). split_and!; [done..|cbn [length]; lia| |].
  - intros j Hj. rewrite Hm', bit_set_bit by done. destruct (Z.eqb_spec i j) as [->|Hne].
    + rewrite (bool_decide_eq_true_2 (j ∈ j :: new)) by set_solver. by rewrite orb_true_r.
    + simpl. f_equal. apply bool_decide_ext. set_solver.
  - intros j Hj. rewrite Hu', bit_clear_bit by done. destruct (Z.eqb_spec i j) as [->|Hne].
    + rewrite (bool_decide_eq_true_2 (j ∈ j :: new)) by set_solver. by rewrite andb_false_r.
    + simpl. f_equal. f_equal. apply bool_decide_ext. set_solver.
Qed.

Lemma ceil_page base i : 0 <= base ->
  (base + PAGE - 1) / PAGE <= i <-> base <= i * PAGE.
Proof. unfold PAGE. intros. split; dlia. Qed.

Lemma floor_page e i : i < e / PAGE <-> (i + 1) * PAGE <= e.
Proof. unfold PAGE. split; dlia. Qed.

Lemma clamp_base_spec base : clamp_base base = Z.max base NX_PMM_MIN_PHYS.
Proof. unfold clamp_base. destruct (Z.ltb_spec base NX_PMM_MIN_PHYS); lia. Qed.

Lemma extends_sets p p' new :
  extends p p' new -> (forall i, i ∈ new -> 0 <= i < p_npages p) ->
  managed_set p' = managed_set p ∪ list_to_set new /\
  free_set p' = free_set p ∪ list_to_set new.
Proof.
  intros (Hn & _ & _ & _ & _ & _ & Hm & Hu) Hr. split; apply set_eq; intros i.
  - rewrite elem_of_union, elem_of_list_to_set, !elem_managed, Hn.
    assert (Hi : i ∈ new -> 0 <= i < p_npages p) by auto.
    split; [intros [? Hb]|intros [[? Hb]|Hb]].
    + rewrite Hm in Hb by lia. case_bool_decide; [by right|left]. by rewrite orb_false_r in Hb.
    + rewrite Hm, Hb by lia. done.
    + specialize (Hi Hb). rewrite Hm, (bool_decide_eq_true_2 (i ∈ new)) by (done || lia).
      by rewrite orb_true_r.
  - rewrite elem_of_union, elem_of_list_to_set, !elem_free, Hn.
    assert (Hi : i ∈ new -> 0 <= i < p_npages p) by auto.
    split; [intros (? & Hb & Hc)|intros [(? & Hb & Hc)|Hb]].
    + rewrite Hm in Hb by lia. rewrite Hu in Hc by lia. case_bool_decide; [by right|left].
      rewrite orb_false_r in Hb. by rewrite andb_true_r in Hc.
    + rewrite Hm, Hu, Hb, Hc by lia. done.
    + specialize (Hi Hb). rewrite Hm, Hu, (bool_decide_eq_true_2 (i ∈ new)) by (done || lia).
      by rewrite orb_true_r, andb_false_r.
Qed.

Lemma extends_wf p p' new :
  pmm_wf p -> extends p p' new -> NoDup new ->
  (forall i, i ∈ new -> 0 <= i < p_npages p /\ NX_PMM_MIN_PHYS <= i * PAGE /\
     in_storage p i = false /\ i ∉ managed_set p) ->
  p_managed_pages p' = u64 (p_managed_pages p + Z.of_nat (length new)) ->
  p_free_pages p' = u64 (p_free_pages p + Z.of_nat (length new)) ->
  pmm_wf p'.
Proof.
  intros (Hn & Hu & Hm & Hx & Hmp & Hfp & Hs & Hun) Hex Hnd Hnew Hmp' Hfp'.
  destruct (extends_sets p p' new Hex) as [Hms Hfs]; [naive_solver|].
  destruct Hex as (En & Enx & Elm & Elu & Es1 & Es2 & Hbm & Hbu).
  assert (Hsz : size (list_to_set (C := gset Z) new) = length new) by by apply size_list_to_set.
  assert (Hm' : size (managed_set p') = (size (managed_set p) + length new)%nat).
  { rewrite Hms, size_union, Hsz; [done|]. intros i ? Hi%elem_of_list_to_set%Hnew. tauto. }
  assert (Hf' : size (free_set p') = (size (free_set p) + length new)%nat).
  { rewrite Hfs, size_union, Hsz; [done|].
    intros i ?%free_subset_managed Hi%elem_of_list_to_set%Hnew. tauto. }
  pose proof (managed_size_le p' ltac:(lia)). pose proof (free_size_le p' ltac:(lia)).
  rewrite wrap_small in Hmp', Hfp' by (unfold fits; lia).
  unfold pmm_wf. rewrite En, Enx, Elm, Elu, Es1, Es2, Hm', Hf'.
  do 4 (split; [done|]). split; [lia|]. split; [lia|]. split.
  - intros i. rewrite Hms, elem_of_union, elem_of_list_to_set.
    intros [Hi|(_ & ? & Hst & _)%Hnew]; [by apply Hs|]. split; [done|].
    unfold in_storage in Hst. rewrite Z.geb_leb in Hst. intros ?.
    rewrite (proj2 (Z.leb_le _ _)), (proj2 (Z.ltb_lt _ _)) in Hst by lia. done.
  - intros i Hi. rewrite Hbm, Hbu by lia. intros [Hf Hd]%orb_false_elim. by rewrite Hd, Hun.
Qed.

Lemma add_pages_cases p base end_ :
  pmm_wf p -> 0 <= base -> base + PAGE <= 2 ^ 64 -> 0 <= end_ ->
  let '(n, p') := add_pages p base end_ in
  pmm_wf p' /\ p_npages p' = p_npages p /\
  p_storage_first p' = p_storage_first p /\ p_storage_last p' = p_storage_last p /\
  (forall i, i ∈ managed_set p' <-> i ∈ managed_set p \/ takes p base end_ i) /\
  (forall i, i ∈ free_set p' <->
     i ∈ free_set p \/ (takes p base end_ i /\ i ∉ managed_set p)) /\
  n = Z.of_nat (size (managed_set p')) - Z.of_nat (size (managed_set p)).
Proof.
  intros Hwf Hb0 Hb1 He. pose proof Hwf as (Hn & Hu & Hm & _).
  unfold add_pages. rewrite clamp_base_spec.
  rewrite (wrap_small 64 (_ + PAGE - 1)) by (unfold fits, PAGE, NX_PMM_MIN_PHYS in *; lia).
  set (first := (_ + PAGE - 1) / PAGE).
  set (last := if _ >? _ then _ else _).
  set (l := seqZ first (last - first)).
  assert (Hl : forall i, i ∈ l <-> 0 <= i < p_npages p /\
      Z.max base NX_PMM_MIN_PHYS <= i * PAGE /\ (i + 1) * PAGE <= end_).
  { intros i. unfold l. rewrite elem_of_seqZ.
    pose proof (ceil_page (Z.max base NX_PMM_MIN_PHYS) i ltac:(lia)) as Hc. fold first in Hc.
    pose proof (floor_page end_ i) as Hf. unfold last. rewrite Z.gtb_ltb.
    destruct (Z.ltb_spec (p_npages p) (end_ / PAGE)); unfold PAGE, NX_PMM_MIN_PHYS in *; lia. }
  assert (Hlen : Z.of_nat (length l) <= p_npages p).
  { rewrite <- (size_list_to_set (C := gset Z) l) by apply NoDup_seqZ.
    apply set_size_le; [lia|]. intros i Hi. apply elem_of_list_to_set, Hl in Hi. lia. }
  pose proof (add_loop p l (p_managed p) (p_used p) 0 (NoDup_seqZ _ _)) as Ha. cbv zeta in Ha.
  set (new := filter _ l) in Ha.
  assert (Hnew : forall i, i ∈ new <-> takes p base end_ i /\ i ∉ managed_set p).
  { intros i. unfold new, takes. rewrite list_elem_of_filter, Hl, elem_managed.
    destruct (bit (p_managed p) i), (in_storage p i); simpl; naive_solver. }
  destruct (for_each l (add_page p) (p_managed p, p_used p, 0)) as [[managed used] added].
  destruct Ha as (Hlm & Hlu & -> & Hbm & Hbu); [|lia|lia|].
  { intros i Hi%Hl. rewrite Hm, Hu. pose proof (map_bytes_bound (p_npages p) i). lia. }
  rewrite Z.add_0_l. set (p' := mk_pmm _ _ _ _ _ _ _ _ _).
  assert (Hex : extends p p' new) by (unfold extends; done).
  destruct (extends_sets p p' new Hex) as [Hms Hfs]; [intros i [[? _] _]%Hnew; done|].
  split_and!; try done.
  - apply (extends_wf p p' new); [done|done|by apply NoDup_filter, NoDup_seqZ| |done|done].
    intros i [(? & ? & ? & ?) ?]%Hnew. unfold PAGE, NX_PMM_MIN_PHYS in *. split_and!; auto; lia.
  - intros i. rewrite Hms, elem_of_union, elem_of_list_to_set, Hnew.
    destruct (decide (i ∈ managed_set p)); tauto.
  - intros i. by rewrite Hfs, elem_of_union, elem_of_list_to_set, Hnew.
  - rewrite Hms, size_union by (intros i ? Hi%elem_of_list_to_set%Hnew; tauto).
    rewrite size_list_to_set by by apply NoDup_filter, NoDup_seqZ. lia.
Qed.

Lemma region_bounds r : region_wf r -> r_base r + PAGE <= 2 ^ 64.
Proof. unfold region_wf, UINT64_MAX, NX_PAGE_SIZE, PAGE. intros. dlia. Qed.

Lemma add_type_cases p rg type :
  pmm_wf p -> Forall region_wf rg ->
  let '(n, p') := nx_pmm_add_type p rg type in
  pmm_wf p' /\ p_npages p' = p_npages p /\
  p_storage_first p' = p_storage_first p /\ p_storage_last p' = p_storage_last p /\
  (forall i, i ∈ managed_set p' <-> i ∈ managed_set p \/ pmm_grow p type rg i) /\
  free_set p' = free_set p ∪ (managed_set p' ∖ managed_set p) /\
  n = Z.of_nat (size (managed_set p' ∖ managed_set p)).
Proof.
  intros Hwf Hrg. unfold nx_pmm_add_type, for_each.
  induction rg as [|r rg IH] using rev_ind.
  { simpl. assert (Hd : managed_set p ∖ managed_set p = ∅) by set_solver. rewrite Hd, size_empty.
    split_and!; try done; [|set_solver]. intros i. unfold pmm_grow, in_type. set_solver. }
  rewrite fold_left_app. cbn [fold_left]. apply Forall_app in Hrg as [Hrg Hr].
  rewrite Forall_singleton in Hr. specialize (IH Hrg).
  destruct (fold_left _ rg (0, p)) as [n p1].
  destruct IH as (Hw1 & En & E1 & E2 & Hm & Hf & Hc).
  assert (Hgrow : forall i, pmm_grow p type (rg ++ [r]) i <-> pmm_grow p type rg i \/
    (r_type r = type /\ manageable type = true /\ takes p1 (r_base r) (r_end r) i)).
  { intros i. unfold pmm_grow, in_type, takes, in_storage. rewrite (region_wf_end r) by done. rewrite En, E1, E2.
    setoid_rewrite elem_of_app. setoid_rewrite list_elem_of_singleton.
    split.
    - intros (Hmt & (r' & [?| ->] & ? & ? & ?) & ? & ?); [left; eauto 10|right].
      split_and!; try done. unfold PAGE, NX_PMM_MIN_PHYS in *. lia.
    - intros [(Hmt & (r' & ? & ? & ? & ?) & ? & ?)|(? & ? & [? ?] & ? & ? & ?)]; eauto 10. }
  destruct ((r_type r =? type) && manageable type) eqn:Hc1.
  - apply andb_true_iff in Hc1 as [Ht%Z.eqb_eq Hman].
    pose proof (add_pages_cases p1 (r_base r) (r_end r) Hw1) as Ha.
    destruct Hr as (Hb0 & Hr'). specialize (Ha Hb0 (region_bounds r (conj Hb0 Hr')) ltac:(apply wrap_fits; lia)).
    destruct (add_pages p1 _ _) as [n2 p2]. destruct Ha as (Hw2 & En2 & E12 & E22 & Hm2 & Hf2 & Hn2).
    assert (managed_set p ⊆ managed_set p1) by (intros i ?; apply Hm; by left).
    assert (managed_set p1 ⊆ managed_set p2) by (intros i ?; apply Hm2; by left).
    rewrite En2, E12, E22. split_and!; try done.
    + intros i. rewrite Hm2, Hm, Hgrow. naive_solver.
    + apply set_eq. intros i. pose proof (Hm i). pose proof (Hm2 i).
      rewrite Hf2, Hf, !elem_of_union, !elem_of_difference.
      destruct (decide (i ∈ managed_set p)), (decide (i ∈ managed_set p1)); tauto.
    + pose proof (managed_size_le p2) as Hle. destruct Hw2 as (Hnp & _).
      rewrite size_difference by (by etrans). rewrite size_difference in Hc by done.
      pose proof (subseteq_size (managed_set p) (managed_set p1) ltac:(done)).
      pose proof (subseteq_size (managed_set p1) (managed_set p2) ltac:(done)).
      rewrite wrap_small by (unfold fits; lia). lia.
  - split_and!; try done. intros i. rewrite Hm, Hgrow. apply andb_false_iff in Hc1.
    rewrite Z.eqb_neq in Hc1. naive_solver congruence.
Qed.

(** ** Lemmas: operations against the abstract allocator *)

Lemma page_div i : i * PAGE / PAGE = i.
Proof. unfold PAGE. apply Z.div_mul. lia. Qed.

Lemma page_of phys : phys mod PAGE = 0 -> phys = phys / PAGE * PAGE.
Proof. unfold PAGE. intros. dlia. Qed.

Lemma is_free_spec p phys : 0 <= phys -> nx_pmm_is_free p phys = bool_decide (phys / PAGE ∈ free_set p).
Proof.
  intros Hp. assert (0 <= phys / PAGE) by (apply Z.div_pos; unfold PAGE; lia).
  unfold nx_pmm_is_free. apply eq_bool_prop_intro. rewrite bool_decide_spec, elem_free, !andb_True.
  rewrite !Is_true_true, negb_true_iff, Z.ltb_lt. naive_solver.
Qed.

Lemma grow_ext p p' :
  p_npages p' = p_npages p -> p_storage_first p' = p_storage_first p ->
  p_storage_last p' = p_storage_last p -> pmm_grow p' = pmm_grow p.
Proof. intros E1 E2 E3. unfold pmm_grow, in_storage. by rewrite E1, E2, E3. Qed.

Lemma exec_frame p op :
  pmm_wf p -> pmm_op_ok op ->
  pmm_grow (pmm_exec p op).2 = pmm_grow p.
Proof.
  intros Hwf Hok. destruct op as [|phys|rg type|phys]; simpl.
  - unfold nx_pmm_alloc. destruct (_ =? 0); [done|]. by destruct (find_first _ _).
  - unfold nx_pmm_free. repeat (destruct (negb _); [done|]). cbv zeta.
    destruct (_ || _); [done|]. by destruct (negb _).
  - pose proof (add_type_cases p rg type Hwf Hok) as Ha.
    destruct (nx_pmm_add_type p rg type) as [n p']. apply grow_ext; tauto.
  - done.
Qed.

Lemma exec_refines p op :
  pmm_wf p -> pmm_op_ok op ->
  let '(r, p') := pmm_exec p op in
  pmm_wf p' /\ page_step (pmm_grow p) (pmm_abs p) op r (pmm_abs p').
Proof.
  intros Hwf Hok. unfold pmm_abs. destruct op as [|phys|rg type|phys]; simpl in *.
  - pose proof (alloc_cases p Hwf) as Ha. destruct (nx_pmm_alloc p) as [phys p'].
    destruct Ha as (Hw & -> & [(He & -> & ->)|(i & Hi & -> & ->)]); (split; [done|]).
    + rewrite He. constructor.
    + by constructor.
  - pose proof (free_cases p phys Hwf Hok) as Ha. destruct (nx_pmm_free p phys) as [st p'].
    destruct Ha as (Hw & -> & Hst). split; [done|].
    destruct st; try done.
    + destruct Hst as (Hal & Hi & ->). rewrite (page_of phys Hal) at 1.
      constructor; set_solver.
    + destruct Hst as (Hal & ->). by constructor.
    + destruct Hst as (Hal & Hi & ->). rewrite (page_of phys Hal). by constructor.
    + destruct Hst as (Hal & Hi & ->). rewrite (page_of phys Hal). by constructor.
  - pose proof (add_type_cases p rg type Hwf Hok) as Ha.
    destruct (nx_pmm_add_type p rg type) as [n p'].
    destruct Ha as (Hw & _ & _ & _ & Hm & -> & ->). split; [done|].
    set (new := managed_set p' ∖ managed_set p).
    assert (Hu : managed_set p' = managed_set p ∪ new).
    2:{ rewrite Hu. constructor; [set_solver|]. intros i. unfold new.
        rewrite elem_of_difference, Hm. tauto. }
    + apply set_eq. unfold new. intros i. rewrite elem_of_union, elem_of_difference, Hm.
      destruct (decide (i ∈ managed_set p)); tauto.
  - split; [done|]. rewrite is_free_spec by done. constructor.
Qed.

Lemma page_steps_app grow s tr1 tr2 s' :
  page_steps grow s (tr1 ++ tr2) s' ->
  exists s1, page_steps grow s tr1 s1 /\ page_steps grow s1 tr2 s'.
Proof.
  revert s. induction tr1 as [|[op r] tr1 IH]; intros s H; simpl in *.
  - exists s. split; [constructor|done].
  - inv H. destruct (IH _ ltac:(eassumption)) as (s1 & ? & ?). exists s1. split; [by econstructor|done].
Qed.

(** A page in use stays in use until it is freed. *)
Lemma in_use_stable grow m f tr m' f' i :
  page_steps grow (m, f) tr (m', f') -> i ∈ m -> i ∉ f ->
  (PmmFree (i * PAGE), RStatus NX_PMM_OK) ∉ tr -> i ∈ m' /\ i ∉ f'.
Proof.
  intros H. remember (m, f) as s eqn:Es. remember (m', f') as s' eqn:Es'. revert m f Es.
  induction H as [s|s op r s1 tr s2 Hs Hss IH]; intros m f -> Him Hif Hno; subst; [naive_solver|].
  apply not_elem_of_cons in Hno as [Hne Hno].
  inv Hs; eapply IH; eauto; try set_solver.
Qed.

Lemma page_steps_subset grow s tr s' :
  page_steps grow s tr s' -> s.2 ⊆ s.1 -> s'.2 ⊆ s'.1.
Proof.
  induction 1 as [|s op r s1 tr s2 Hs Hss IH]; intros Hsub; [done|].
  apply IH. inv Hs; set_solver.
Qed.

(** Runs refine runs of the abstract allocator. *)
Lemma run_refines p ops :
  pmm_wf p -> Forall pmm_op_ok ops ->
  let '(tr, p') := pmm_run p ops in
  pmm_wf p' /\ page_steps (pmm_grow p) (pmm_abs p) tr (pmm_abs p').
Proof.
  revert p. induction ops as [|op ops IH]; intros p Hwf Hok; simpl.
  { split; [done|constructor]. }
  apply Forall_cons in Hok as [Hop Hok].
  pose proof (exec_refines p op Hwf Hop) as He. pose proof (exec_frame p op Hwf Hop) as Hf.
  destruct (pmm_exec p op) as [r p1]. simpl in Hf. destruct He as [Hw1 Hs].
  specialize (IH p1 Hw1 Hok). destruct (pmm_run p1 ops) as [tr p2]. rewrite Hf in IH.
  split; [tauto|]. econstructor; [done|tauto].
Qed.

(** ** Lemmas: initialisation *)

Lemma span_pages_bound rg r :
  Forall region_wf rg -> r ∈ rg -> manageable (r_type r) = true ->
  r_end r / PAGE <= nx_pmm_span_pages rg.
Proof.
  intros Hrg Hr Hm. unfold nx_pmm_span_pages, for_each.
  apply Z.div_le_mono; [unfold PAGE; lia|].
  set (F := fun e r => _). clear Hrg.
  assert (Hmono : forall l e, e <= fold_left F l e).
  { induction l as [|x l IH]; intros e; simpl; [lia|]. etrans; [|apply IH].
    unfold F. rewrite Z.gtb_ltb. destruct (_ && _) eqn:E; breflect; lia. }
  generalize 0. induction rg as [|x rg IH]; intros e; [set_solver|]. simpl.
  apply elem_of_cons in Hr as [->|Hr]; [|by apply IH].
  etrans; [|apply Hmono]. unfold F. rewrite Hm, Z.gtb_ltb. simpl.
  destruct (Z.ltb_spec e (r_end x)); lia.
Qed.

Lemma span_pages_range rg : Forall region_wf rg -> 0 <= nx_pmm_span_pages rg < 2 ^ 52.
Proof.
  intros Hrg. unfold nx_pmm_span_pages, for_each. set (F := fun e r => _).
  assert (H : forall e, 0 <= e < 2 ^ 64 -> 0 <= fold_left F rg e < 2 ^ 64).
  { clear Hrg. induction rg as [|x rg IH]; intros e He; simpl; [done|]. apply IH. unfold F.
    destruct (_ && _); [apply wrap_fits; lia|done]. }
  specialize (H 0 ltac:(lia)). unfold PAGE. split; dlia.
Qed.

Lemma bit_replicate n x i k : x = 0 \/ x = 0xFF -> 0 <= i -> i / 8 < Z.of_nat n -> k = x ->
  bit (replicate n x) i = (0 <? k).
Proof.
  intros Hx Hi Hn ->. rewrite bit_testbit.
  rewrite list_lookup_total_alt, lookup_replicate_2
    by (apply Nat2Z.inj_lt; rewrite Z2Nat.id; [lia|apply Z.div_pos; lia]). simpl.
  destruct Hx as [->| ->]; [apply Z.testbit_0_l|].
  change 0xFF with (Z.ones 8). rewrite Z.ones_spec_low; [done|]. apply Z.mod_pos_bound. lia.
Qed.

(** The allocator before the first pages are added. *)
Lemma init_empty_wf npages s1 s2 access :
  0 < npages < 2 ^ 52 ->
  let p := mk_pmm (replicate (Z.to_nat (map_bytes npages)) 0xFF)
             (replicate (Z.to_nat (map_bytes npages)) 0) npages 0 0 0 s1 s2 access in
  pmm_wf p /\ managed_set p = ∅ /\ free_set p = ∅.
Proof.
  intros Hn p.
  assert (0 <= map_bytes npages) by (unfold map_bytes; apply Z.div_pos; lia).
  assert (Hm : forall i, 0 <= i < npages -> bit (p_managed p) i = false).
  { intros i Hi. pose proof (map_bytes_bound npages i Hi).
    apply (bit_replicate _ 0 i 0); [by left|lia|lia|done]. }
  assert (Hms : managed_set p = ∅).
  { apply set_eq. intros i. rewrite elem_managed. change (p_npages p) with npages.
    split; [|set_solver]. intros [Hi Hb]. by rewrite Hm in Hb. }
  assert (Hfs : free_set p = ∅) by (pose proof (free_subset_managed p); set_solver).
  split_and!; [|done..]. unfold pmm_wf. rewrite Hms, Hfs, size_empty.
  subst p. cbn [p_npages p_used p_managed p_next p_managed_pages p_free_pages].
  rewrite !length_replicate, !Z2Nat.id by done. split_and!; try done; try lia.
  intros i Hi _. pose proof (map_bytes_bound npages i Hi).
  apply (bit_replicate _ 0xFF i 0xFF); [by right|lia|lia|done].
Qed.

Lemma storage_overlap base len i :
  0 <= len -> base mod PAGE = 0 ->
  (base / PAGE <= i < (base + len + PAGE - 1) / PAGE) <-> overlaps base len i.
Proof. unfold overlaps, PAGE. intros. split; dlia. Qed.

Lemma init_cases p rg storage storage_phys storage_bytes :
  Forall region_wf rg -> 0 <= storage_phys ->
  0 <= storage_bytes -> storage_bytes + PAGE <= UINT64_MAX ->
  let usable i := in_type rg NX_MEM_USABLE i /\ ~ overlaps storage_phys storage_bytes i in
  match nx_pmm_init p rg storage storage_phys storage_bytes with
  | (NX_PMM_OK, p') =>
      pmm_wf p' /\ managed_set p' = free_set p' /\ free_set p' <> ∅ /\
      forall i, i ∈ free_set p' <-> usable i
  | (NX_PMM_E_EMPTY, _) => forall i, ~ usable i
  | (NX_PMM_E_STORAGE, _) =>
      storage = 0 \/ storage_phys mod PAGE <> 0 \/
      storage_bytes < 2 * map_bytes (nx_pmm_span_pages rg) \/
      2 ^ 64 <= storage_phys + storage_bytes + PAGE
  | _ => False
  end.
Proof.
  intros Hrg Hp Hb0 Hb1 usable. pose proof (span_pages_range rg Hrg) as Hspan.
  assert (Hin : forall i, in_type rg NX_MEM_USABLE i -> 0 <= i < nx_pmm_span_pages rg).
  { intros i (r & Hr & Ht & Hlo & Hhi).
    pose proof (span_pages_bound rg r Hrg Hr ltac:(by rewrite Ht)) as Hs.
    rewrite region_wf_end in Hs by (by eapply Forall_forall in Hrg).
    unfold PAGE, NX_PMM_MIN_PHYS in *. split; [lia|]. dlia. }
  unfold nx_pmm_init. rewrite page_mask.
  rewrite (wrap_small 64 (nx_pmm_span_pages rg + 7)) by (unfold fits; lia).
  fold (map_bytes (nx_pmm_span_pages rg)). cbv zeta.
  destruct (Z.eqb_spec (nx_pmm_span_pages rg) 0) as [Hz|Hz].
  { intros i [Hi _]. apply Hin in Hi. lia. }
  rewrite (wrap_small 64 (UINT64_MAX - storage_bytes)) by (unfold fits, UINT64_MAX, PAGE in *; lia).
  rewrite (wrap_small 64 (_ - PAGE)) by (unfold fits, UINT64_MAX, PAGE in *; lia).
  guard_case.
  { rewrite Z.gtb_ltb in *. rewrite !orb_true_iff, negb_true_iff, Z.eqb_eq, Z.eqb_neq, !Z.ltb_lt in *.
    unfold UINT64_MAX in *. intuition lia. }
  breflect. rewrite (wrap_small 64 (_ + _ - 1)) by (unfold fits, UINT64_MAX, PAGE in *; lia).
  destruct (init_empty_wf (nx_pmm_span_pages rg) (storage_phys / PAGE)
    ((storage_phys + storage_bytes + PAGE - 1) / PAGE) storage ltac:(lia)) as (Hw & Hm0 & Hf0).
  set (p1 := mk_pmm _ _ _ _ _ _ _ _ _) in *.
  pose proof (add_type_cases p1 rg NX_MEM_USABLE Hw Hrg) as Ha.
  destruct (nx_pmm_add_type p1 rg NX_MEM_USABLE) as [n p2].
  destruct Ha as (Hw2 & En & E1 & E2 & Hm2 & Hf2 & _). rewrite Hm0, Hf0 in *.
  assert (Hmf : managed_set p2 = free_set p2) by set_solver.
  assert (Hu : forall i, i ∈ free_set p2 <-> usable i).
  { intros i. rewrite <- Hmf, Hm2. unfold usable, pmm_grow.
    rewrite <- storage_overlap by done. change (p_npages p1) with (nx_pmm_span_pages rg).
    unfold in_storage. change (p_storage_first p1) with (storage_phys / PAGE).
    change (p_storage_last p1) with ((storage_phys + storage_bytes + PAGE - 1) / PAGE).
    rewrite andb_false_iff, Z.geb_leb, Z.leb_gt, Z.ltb_ge.
    assert (in_type rg NX_MEM_USABLE i -> i < nx_pmm_span_pages rg) by (intros ?%Hin; lia).
    split; [|intros [? ?]; right; split_and!; auto; lia].
    intros [?|(? & ? & ? & ?)]; [set_solver|]. split; [done|lia]. }
  destruct Hw2 as (? & ? & ? & ? & Hc & Hrest). pose proof Hc as Hc'.
  destruct (Z.eqb_spec (p_managed_pages p2) 0) as [Hz2|Hz2].
  - intros i Hi%Hu. rewrite <- Hmf in Hi. rewrite Hz2 in Hc.
    assert (Hempty : managed_set p2 = ∅) by (apply leibniz_equiv, size_empty_inv; lia). set_solver.
  - split; [unfold pmm_wf; tauto|]. split_and!; auto. rewrite <- Hmf. intros He.
    rewrite He, size_empty in Hc. lia.
Qed.

(** A 64 KiB machine above 1 MiB whose first page holds the bitmaps. *)
Lemma sample_pmm_wf : pmm_wf sample_pmm.
Proof.
  pose proof (init_cases zero_pmm sample_map 1 0x100000 4096) as H. cbv zeta in H.
  assert (Hst : (nx_pmm_init zero_pmm sample_map 1 0x100000 4096).1 = NX_PMM_OK) by by vm_compute.
  unfold sample_pmm. destruct (nx_pmm_init _ _ _ _ _) as [st p]. simpl in Hst. subst st.
  apply H; try (unfold UINT64_MAX, PAGE; lia). repeat constructor; simpl; unfold UINT64_MAX; lia.
Qed.

(** ** Properties *)

(** C16: every sequence of allocator calls behaves like the abstract allocator:
    allocation returns a free page and fails only when none is free, a free is
    accepted exactly for a managed page in use and otherwise reports the right
    error, the counters and bitmaps stay consistent. *)
Theorem pmm_refines p ops :
  pmm_wf p -> Forall pmm_op_ok ops ->
  let '(tr, p') := pmm_run p ops in
  pmm_wf p' /\ page_steps (pmm_grow p) (pmm_abs p) tr (pmm_abs p').
Proof. apply run_refines. Qed.

Lemma pmm_refines_witness :
  pmm_wf sample_pmm /\ Forall pmm_op_ok sample_ops /\
  (pmm_run sample_pmm sample_ops).1.*2 =
    [RPage 0x101000; RStatus NX_PMM_OK; RStatus NX_PMM_E_DOUBLE_FREE; RStatus NX_PMM_E_ALIGN;
     RStatus NX_PMM_E_UNMANAGED; RAdded 4; RBool true] /\
  page_steps (pmm_grow sample_pmm) (pmm_abs sample_pmm) (pmm_run sample_pmm sample_ops).1
    (pmm_abs (pmm_run sample_pmm sample_ops).2).
Proof.
  assert (Hok : Forall pmm_op_ok sample_ops)
    by (repeat constructor; simpl; unfold UINT64_MAX; lia).
  pose proof (pmm_refines sample_pmm sample_ops sample_pmm_wf Hok) as H.
  split; [apply sample_pmm_wf|]. split; [exact Hok|]. split; [by vm_compute|].
  destruct (pmm_run sample_pmm sample_ops) as [tr p']. apply H.
Defined.

(** C17: exclusive ownership: a page the allocator returns is not returned again
    before it was freed. *)
Theorem pmm_no_double_alloc p ops tr1 tr2 tr3 phys :
  pmm_wf p -> Forall pmm_op_ok ops -> phys <> 0 ->
  (pmm_run p ops).1 =
    tr1 ++ (PmmAlloc, RPage phys) :: tr2 ++ (PmmAlloc, RPage phys) :: tr3 ->
  (PmmFree phys, RStatus NX_PMM_OK) ∈ tr2.
Proof.
  intros Hwf Hok Hp Htr. pose proof (run_refines p ops Hwf Hok) as Hr.
  destruct (pmm_run p ops) as [tr p']. destruct Hr as [_ Hs]. simpl in Htr. subst tr.
  apply page_steps_app in Hs as (s1 & Hs1 & Hs).
  assert (Hsub : s1.2 ⊆ s1.1).
  { apply (page_steps_subset _ _ _ _ Hs1). apply free_subset_managed. }
  inv Hs. match goal with H : page_steps _ _ (_ ++ _) _ |- _ =>
    apply page_steps_app in H as ([m2 f2] & Hs2 & Hs3) end.
  match goal with H : page_step _ s1 _ _ _ |- _ => inv H end.
  destruct (decide ((PmmFree (i * PAGE), RStatus NX_PMM_OK) ∈ tr2)) as [?|Hno]; [done|].
  destruct (in_use_stable _ _ _ _ _ _ i Hs2) as [_ Hf2]; [set_solver..|].
  inv Hs3. match goal with H : page_step _ (m2, f2) _ _ _ |- _ => inv H end.
  assert (i0 = i) by (unfold PAGE in *; lia). subst. done.
Qed.

Lemma pmm_no_double_alloc_witness :
  let tr := (pmm_run sample_pmm sample_realloc).1 in
  tr = [] ++ (PmmAlloc, RPage 0x101000) :: take 15 (drop 1 tr) ++ (PmmAlloc, RPage 0x101000) :: [] /\
  (PmmFree 0x101000, RStatus NX_PMM_OK) ∈ take 15 (drop 1 tr).
Proof.
  intros tr. assert (Hr : tr = [] ++ (PmmAlloc, RPage 0x101000) :: take 15 (drop 1 tr) ++
    (PmmAlloc, RPage 0x101000) :: []) by by vm_compute.
  split; [exact Hr|].
  refine (pmm_no_double_alloc sample_pmm sample_realloc [] _ [] 0x101000 sample_pmm_wf _ _ Hr);
    [repeat constructor; simpl; lia|done].
Defined.

(** Initialisation from a boot memory map makes exactly the usable pages at
    or above 1 MiB, outside the bitmap storage, managed and free; it fails with
    E_EMPTY when there is no such page and with E_STORAGE when the storage is
    missing, misaligned, too small or wraps. *)
Theorem pmm_init_spec p rg storage storage_phys storage_bytes :
  Forall region_wf rg -> 0 <= storage_phys ->
  0 <= storage_bytes -> storage_bytes + PAGE <= UINT64_MAX ->
  let usable i := in_type rg NX_MEM_USABLE i /\ ~ overlaps storage_phys storage_bytes i in
  match nx_pmm_init p rg storage storage_phys storage_bytes with
  | (NX_PMM_OK, p') =>
      pmm_wf p' /\ managed_set p' = free_set p' /\ free_set p' <> ∅ /\
      forall i, i ∈ free_set p' <-> usable i
  | (NX_PMM_E_EMPTY, _) => forall i, ~ usable i
  | (NX_PMM_E_STORAGE, _) =>
      storage = 0 \/ storage_phys mod PAGE <> 0 \/
      storage_bytes < 2 * map_bytes (nx_pmm_span_pages rg) \/
      2 ^ 64 <= storage_phys + storage_bytes + PAGE
  | _ => False
  end.
Proof. apply init_cases. Qed.

Lemma pmm_init_spec_witness :
  (nx_pmm_init zero_pmm sample_map 1 0x100000 4096).1 = NX_PMM_OK /\
  forall i, i ∈ free_set sample_pmm <->
    in_type sample_map NX_MEM_USABLE i /\ ~ overlaps 0x100000 4096 i.
Proof.
  assert (Hst : (nx_pmm_init zero_pmm sample_map 1 0x100000 4096).1 = NX_PMM_OK) by by vm_compute.
  split; [exact Hst|].
  assert (Hrg : Forall region_wf sample_map) by (repeat constructor; simpl; unfold UINT64_MAX; lia).
  pose proof (pmm_init_spec zero_pmm sample_map 1 0x100000 4096 Hrg ltac:(lia) ltac:(lia)
    ltac:(unfold UINT64_MAX, PAGE; lia)) as H. cbv zeta in H. unfold sample_pmm.
  destruct (nx_pmm_init _ _ _ _ _) as [st p]. simpl in Hst. subst st. apply H.
Defined.
