(* ===== verification/Bytes.v ===== *)
(** * Bytes and little-endian integers

    The packed structures of the program (disk blocks, message payloads) are
    byte lists; [le_enc]/[le_dec] are the representation of an n-byte integer on
    a little-endian machine, and the [get_*] readers take a structure apart in
    the order of its fields. *)
From S2P Require Import Prelude.

Fixpoint le_enc (n : nat) (x : Z) : list Z :=
  match n with
  | O => []
  | S n' => x mod 256 :: le_enc n' (x / 256)
  end.

Fixpoint le_dec (b : list Z) : Z :=
  match b with
  | [] => 0
  | x :: b' => x + 256 * le_dec b'
  end.

Definition byte_ok (x : Z) : Prop := 0 <= x < 256.

(** Readers: the value and the bytes that follow it. *)
Definition get_le (n : nat) (b : list Z) : Z * list Z := (le_dec (take n b), drop n b).
Definition get_bytes (n : nat) (b : list Z) : list Z * list Z := (take n b, drop n b).

Fixpoint get_list {A} (n : nat) (get : list Z -> A * list Z) (b : list Z) : list A * list Z :=
  match n with
  | O => ([], b)
  | S n' =>
      let '(x, b) := get b in
      let '(l, b) := get_list n' get b in (x :: l, b)
  end.

(** [rd8 b i]: the byte [b[i]] of a buffer; [None] is a read outside of it. *)
Definition rd8 (b : list Z) (i : Z) : option Z :=
  if i <? 0 then None else b !! Z.to_nat i.

(** [ld n b off]: the [n]-byte field at offset [off] of a structure in buffer [b]. *)
Definition ld (n : nat) (b : list Z) (off : Z) : option Z :=
  if (off <? 0) || (off + Z.of_nat n >? Z.of_nat (length b)) then None
  else Some (le_dec (take n (drop (Z.to_nat off) b))).

(** ** Lemmas *)

Lemma le_enc_length n x : length (le_enc n x) = n.
Proof. revert x. induction n as [|n IH]; intros x; simpl; [done|]. by rewrite IH. Qed.

Lemma le_enc_bytes n x : Forall byte_ok (le_enc n x).
Proof.
  revert x. induction n as [|n IH]; intros x; simpl; constructor; [|apply IH].
  apply Z.mod_pos_bound. lia.
Qed.

Lemma le_dec_enc n x : 0 <= x < 2 ^ (8 * Z.of_nat n) -> le_dec (le_enc n x) = x.
Proof.
  revert x. induction n as [|n IH]; intros x Hx; simpl; [simpl in Hx; lia|].
  rewrite Nat2Z.inj_succ, Z.mul_succ_r, Z.pow_add_r in Hx by lia.
  change (2 ^ 8) with 256 in Hx. rewrite IH; [dlia|]. dlia.
Qed.

Lemma le_dec_bound b : Forall byte_ok b -> 0 <= le_dec b < 2 ^ (8 * Z.of_nat (length b)).
Proof.
  induction b as [|x b IH]; intros Hb; [simpl; lia|].
  apply Forall_cons in Hb as [Hx Hb]. specialize (IH Hb). unfold byte_ok in Hx.
  cbn [length le_dec]. rewrite Nat2Z.inj_succ, Z.mul_succ_r, Z.pow_add_r by lia.
  change (2 ^ 8) with 256. lia.
Qed.

Lemma le_dec_inj a b :
  length a = length b -> Forall byte_ok a -> Forall byte_ok b -> le_dec a = le_dec b -> a = b.
Proof.
  revert b. induction a as [|x a IH]; intros [|y b] Hl Ha Hb He; try done.
  apply Forall_cons in Ha as [Hx Ha]. apply Forall_cons in Hb as [Hy Hb].
  unfold byte_ok in *. simpl in Hl, He. assert (x = y) as -> by lia.
  f_equal. apply IH; auto; lia.
Qed.

Lemma get_le_enc n x rest :
  0 <= x < 2 ^ (8 * Z.of_nat n) -> get_le n (le_enc n x ++ rest) = (x, rest).
Proof.
  intros Hx. unfold get_le. rewrite take_app_length', drop_app_length' by by rewrite le_enc_length.
  by rewrite le_dec_enc.
Qed.

Lemma get_bytes_app n b rest : length b = n -> get_bytes n (b ++ rest) = (b, rest).
Proof. intros <-. unfold get_bytes. by rewrite take_app_length, drop_app_length. Qed.

Lemma get_list_enc {A} n (get : list Z -> A * list Z) (enc : A -> list Z) (l : list A) rest :
  length l = n ->
  Forall (fun x => forall rest, get (enc x ++ rest) = (x, rest)) l ->
  get_list n get ((l ≫= enc) ++ rest) = (l, rest).
Proof.
  revert n. induction l as [|x l IH]; intros [|n] Hl Hf; try done.
  apply Forall_cons in Hf as [Hx Hf]. rewrite bind_cons, <- (assoc_L (++)).
  cbn [get_list]. rewrite Hx, IH; [done|simpl in Hl; lia|done].
Qed.

Lemma bind_length {A} (enc : A -> list Z) l k :
  (forall x, x ∈ l -> length (enc x) = k) -> length (l ≫= enc) = (k * length l)%nat.
Proof.
  induction l as [|x l IH]; intros Hk; [simpl; lia|]. rewrite bind_cons, length_app, IH, Hk by set_solver.
  simpl. lia.
Qed.

Lemma bind_bytes {A} (enc : A -> list Z) l :
  Forall (fun x => Forall byte_ok (enc x)) l -> Forall byte_ok (l ≫= enc).
Proof.
  induction 1 as [|x l Hx Hl IH]; [constructor|]. rewrite bind_cons. by apply Forall_app.
Qed.

(** ** Lemmas: reads from a buffer *)

Lemma rd8_Some b i x : rd8 b i = Some x -> 0 <= i < Z.of_nat (length b) /\ x = b.[i].
Proof.
  unfold rd8. destruct (Z.ltb_spec i 0); [done|]. intros Hx.
  split; [apply lookup_lt_Some in Hx; lia|]. by rewrite (list_lookup_total_correct _ _ _ Hx).
Qed.

Lemma rd8_in b i : 0 <= i < Z.of_nat (length b) -> rd8 b i = Some b.[i].
Proof.
  intros Hi. unfold rd8. rewrite (proj2 (Z.ltb_ge i 0)) by lia.
  apply list_lookup_lookup_total_lt. lia.
Qed.

Lemma rd8_byte b i x : Forall byte_ok b -> rd8 b i = Some x -> byte_ok x.
Proof.
  intros Hb Hx. unfold rd8 in Hx. destruct (i <? 0); [done|].
  by eapply Forall_lookup_1 in Hx.
Qed.

Lemma ld_in n b off :
  Forall byte_ok b -> 0 <= off -> off + Z.of_nat n <= Z.of_nat (length b) ->
  exists v, ld n b off = Some v /\ 0 <= v < 2 ^ (8 * Z.of_nat n).
Proof.
  intros Hb H1 H2. unfold ld. rewrite (proj2 (Z.ltb_ge off 0)), Z.gtb_ltb by lia.
  rewrite (proj2 (Z.ltb_ge (Z.of_nat (length b)) _)) by lia. simpl. eexists. split; [done|].
  assert (Hl : length (take n (drop (Z.to_nat off) b)) = n) by (rewrite length_take, length_drop; lia).
  rewrite <- Hl at 3. apply le_dec_bound. by apply Forall_take, Forall_drop.
Qed.
