(* ===== verification/Crc32.v ===== *)
(** * CRC-32

    Models [lib/crc32.c]: the nibble-table CRC-32 of the store, and its
    relation to the bitwise definition (IEEE 802.3, reflected polynomial
    0xEDB88320). *)
From S2P Require Import Prelude Bytes.

Definition NIBBLE : list Z :=
  [0x00000000; 0x1DB71064; 0x3B6E20C8; 0x26D930AC; 0x76DC4190; 0x6B6B51F4;
   0x4DB26158; 0x5005713C; 0xEDB88320; 0xF00F9344; 0xD6D6A3E8; 0xCB61B38C;
   0x9B64C2B0; 0x86D3D2D4; 0xA00AE278; 0xBDBDF21C].

(** Loop body of [nx_crc32_update]: one data byte, two nibble steps. *)
Definition crc_nibble (crc : Z) : Z := (crc >>. 4) ^. NIBBLE.[crc &. 15].
Definition crc_byte (crc p : Z) : Z := crc_nibble (crc_nibble (crc ^. p)).

Definition nx_crc32_update (crc : Z) (data : list Z) : Z :=
  u32 (~. (for_each data crc_byte (u32 (~. crc)))).

Definition nx_crc32 (data : list Z) : Z := nx_crc32_update 0 data.

(** ** Reference: one bit at a time *)

Definition CRC_POLY : Z := 0xEDB88320.

Definition crc_bit (c : Z) : Z := if Z.odd c then (c >>. 1) ^. CRC_POLY else c >>. 1.

Definition crc_ref (data : list Z) : Z :=
  u32 (~. (for_each data (fun c p => Nat.iter 8 crc_bit (c ^. p)) (u32 (~. 0)))).

(** ** Lemmas *)

Lemma shiftr_fits w a k : 0 <= k -> fits w a -> fits w (a >>. k).
Proof.
  unfold fits. intros Hk [Ha1 Ha2]. rewrite Z.shiftr_div_pow2 by lia.
  pose proof (Z.pow_pos_nonneg 2 k ltac:(lia) Hk). split; [by apply Z.div_pos; lia|].
  eapply Z.le_lt_trans; [|exact Ha2]. apply Z.div_le_upper_bound; nia.
Qed.

Lemma crc_bit_fits c : fits 32 c -> fits 32 (crc_bit c).
Proof.
  intros Hc. unfold crc_bit. destruct (Z.odd c).
  - apply lxor_fits; [lia|apply shiftr_fits; [lia|done]|]. unfold fits, CRC_POLY. lia.
  - by apply shiftr_fits.
Qed.

Lemma crc_bits_fits n c : fits 32 c -> fits 32 (Nat.iter n crc_bit c).
Proof. intros Hc. induction n as [|n IH]; [done|]. by apply crc_bit_fits. Qed.

Lemma crc_bit_xor a b : crc_bit (a ^. b) = crc_bit a ^. crc_bit b.
Proof.
  assert (Hodd : Z.odd (a ^. b) = xorb (Z.odd a) (Z.odd b)).
  { rewrite <- !Z.bit0_odd. apply Z.lxor_spec. }
  unfold crc_bit. rewrite Hodd, Z.shiftr_lxor.
  destruct (Z.odd a), (Z.odd b); simpl; apply Z.bits_inj'; intros k Hk; rewrite !Z.lxor_spec;
    destruct (Z.testbit _ k), (Z.testbit _ k), (Z.testbit CRC_POLY k); done.
Qed.

Lemma crc_bits_xor n a b :
  Nat.iter n crc_bit (a ^. b) = Nat.iter n crc_bit a ^. Nat.iter n crc_bit b.
Proof. induction n as [|n IH]; [done|]. simpl. by rewrite IH, crc_bit_xor. Qed.

Lemma crc_bits_shift n x : Nat.iter n crc_bit (x <<. Z.of_nat n) = x.
Proof.
  induction n as [|n IH]; [apply Z.shiftl_0_r|].
  rewrite Nat.iter_succ_r. unfold crc_bit at 2.
  rewrite <- Z.bit0_odd, Z.shiftl_spec_low by lia.
  rewrite Z.shiftr_shiftl_l by lia. replace (Z.of_nat (S n) - 1) with (Z.of_nat n) by lia.
  apply IH.
Qed.

Lemma nibble_table l : 0 <= l < 16 -> NIBBLE.[l] = Nat.iter 4 crc_bit l.
Proof.
  intros Hl. assert (Hin : l ∈ seqZ 0 16) by (apply elem_of_seqZ; lia).
  clear Hl. revert l Hin. apply Forall_forall. vm_compute. repeat constructor.
Qed.

Lemma split_nibble c : c = ((c >>. 4) <<. 4) ^. (c &. 15).
Proof.
  change 15 with (Z.ones 4). apply Z.bits_inj'. intros k Hk. rewrite Z.lxor_spec, Z.land_spec.
  destruct (Z.ltb_spec k 4) as [?|?].
  - rewrite Z.shiftl_spec_low, Z.ones_spec_low by lia. by rewrite andb_true_r.
  - rewrite Z.shiftl_spec_high, Z.shiftr_spec, Z.ones_spec_high by lia.
    rewrite andb_false_r, xorb_false_r. f_equal. lia.
Qed.

Lemma crc_nibble_bits c : crc_nibble c = Nat.iter 4 crc_bit c.
Proof.
  unfold crc_nibble. rewrite (split_nibble c) at 3. rewrite crc_bits_xor.
  change ((c >>. 4) <<. 4) with ((c >>. 4) <<. Z.of_nat 4). rewrite crc_bits_shift.
  rewrite nibble_table; [done|]. change 15 with (Z.ones 4). rewrite land_ones_mod by lia.
  apply Z.mod_pos_bound. lia.
Qed.

Lemma crc_byte_bits c p : crc_byte c p = Nat.iter 8 crc_bit (c ^. p).
Proof. unfold crc_byte. by rewrite !crc_nibble_bits. Qed.

Lemma byte_fits p : byte_ok p -> fits 32 p.
Proof. unfold byte_ok, fits. lia. Qed.

Lemma crc_byte_fits c p : fits 32 c -> byte_ok p -> fits 32 (crc_byte c p).
Proof.
  intros. rewrite crc_byte_bits. apply crc_bits_fits, lxor_fits; [lia|done|by apply byte_fits].
Qed.

Lemma crc_loop_fits data c :
  Forall byte_ok data -> fits 32 c -> fits 32 (for_each data crc_byte c).
Proof.
  revert c. induction data as [|p data IH]; intros c Hd Hc; [done|].
  apply Forall_cons in Hd as [Hp Hd]. apply IH; [done|]. by apply crc_byte_fits.
Qed.

Lemma not32 x : fits 32 x -> u32 (~. x) = 2 ^ 32 - 1 - x.
Proof.
  unfold fits, wrap. intros Hx. replace (~. x) with (2 ^ 32 - 1 - x + (-1) * 2 ^ 32)
    by (unfold Z.lnot; lia).
  rewrite Z.mod_add, Z.mod_small by lia. done.
Qed.

Lemma crc_update_fits c data : fits 32 (nx_crc32_update c data).
Proof. apply wrap_fits. lia. Qed.

Lemma crc32_fits data : fits 32 (nx_crc32 data).
Proof. apply crc_update_fits. Qed.

Lemma crc_bit_inj a b : fits 32 a -> fits 32 b -> crc_bit a = crc_bit b -> a = b.
Proof.
  intros Ha Hb He.
  assert (Htop : forall c, fits 32 c -> Z.testbit (crc_bit c) 31 = Z.odd c).
  { intros c Hc. unfold crc_bit. destruct (Z.odd c); rewrite ?Z.lxor_spec, Z.shiftr_spec by lia;
      rewrite (testbit_high 32 c) by (done || lia); done. }
  assert (Hodd : Z.odd a = Z.odd b) by (rewrite <- !Htop by done; by rewrite He).
  apply Z.bits_inj'. intros k Hk. destruct (decide (k = 0)) as [->|Hne].
  { by rewrite !Z.bit0_odd. }
  assert (Hsh : a >>. 1 = b >>. 1).
  { unfold crc_bit in He. rewrite Hodd in He. destruct (Z.odd b); [|done].
    apply (f_equal (fun x => x ^. CRC_POLY)) in He.
    by rewrite !Z.lxor_assoc, !Z.lxor_nilpotent, !Z.lxor_0_r in He. }
  replace k with (k - 1 + 1) by lia. rewrite <- !Z.shiftr_spec by lia. by rewrite Hsh.
Qed.

Lemma crc_bits_inj n a b :
  fits 32 a -> fits 32 b -> Nat.iter n crc_bit a = Nat.iter n crc_bit b -> a = b.
Proof.
  intros Ha Hb. induction n as [|n IH]; [done|]. simpl. intros He.
  apply IH, crc_bit_inj; [apply crc_bits_fits..|]; done.
Qed.

Lemma lxor_inj_l c a b : c ^. a = c ^. b -> a = b.
Proof.
  intros He. apply (f_equal (Z.lxor c)) in He.
  by rewrite <- !Z.lxor_assoc, !Z.lxor_nilpotent, !Z.lxor_0_l in He.
Qed.

(** The loop is injective in the running value. *)
Lemma crc_loop_inj data a b :
  Forall byte_ok data -> fits 32 a -> fits 32 b ->
  for_each data crc_byte a = for_each data crc_byte b -> a = b.
Proof.
  revert a b. induction data as [|p data IH]; intros a b Hd Ha Hb He; [done|].
  apply Forall_cons in Hd as [Hp Hd]. apply IH in He; [|done|by apply crc_byte_fits..].
  rewrite !crc_byte_bits in He. apply byte_fits in Hp.
  apply crc_bits_inj in He; [|apply lxor_fits; (done || lia)..].
  rewrite !(Z.lxor_comm _ p) in He. by apply lxor_inj_l in He.
Qed.

(** Bytes consumed together act as one little-endian word. *)
Lemma crc_loop_word data c :
  Forall byte_ok data ->
  for_each data crc_byte c = Nat.iter (8 * length data) crc_bit (c ^. le_dec data).
Proof.
  revert c. induction data as [|p data IH]; intros c Hd; [simpl; by rewrite Z.lxor_0_r|].
  apply Forall_cons in Hd as [Hp Hd]. cbn [for_each fold_left length le_dec].
  change (fold_left crc_byte data) with (for_each data crc_byte). rewrite IH by done.
  replace (8 * S (length data))%nat with (8 * length data + 8)%nat by lia.
  rewrite Nat.iter_add. f_equal. rewrite crc_byte_bits.
  replace (p + 256 * le_dec data) with (p ^. (le_dec data <<. Z.of_nat 8)).
  { by rewrite <- Z.lxor_assoc, (crc_bits_xor 8 _ (_ <<. _)), crc_bits_shift. }
  pose proof (le_dec_bound data Hd). rewrite Z.shiftl_mul_pow2 by lia.
  rewrite <- Z.add_nocarry_lxor; [change (2 ^ Z.of_nat 8) with 256; lia|].
  apply Z.bits_inj'. intros k Hk. rewrite Z.land_spec, Z.bits_0.
  destruct (Z.ltb_spec k 8).
  - rewrite Z.mul_pow2_bits_low by lia. apply andb_false_r.
  - rewrite (testbit_high 8 p) by (unfold fits; unfold byte_ok in Hp; lia). done.
Qed.

Lemma crc_update_loop c data :
  fits 32 c -> Forall byte_ok data ->
  nx_crc32_update c data = 2 ^ 32 - 1 - for_each data crc_byte (2 ^ 32 - 1 - c).
Proof.
  intros Hc Hd. unfold nx_crc32_update. rewrite (not32 c) by done.
  apply not32, crc_loop_fits; [done|]. unfold fits in *. lia.
Qed.

Lemma crc_update_app c a b :
  fits 32 c -> Forall byte_ok a -> Forall byte_ok b ->
  nx_crc32_update (nx_crc32_update c a) b = nx_crc32_update c (a ++ b).
Proof.
  intros Hc Ha Hb. assert (Hab : Forall byte_ok (a ++ b)) by by apply Forall_app.
  rewrite (crc_update_loop _ b), (crc_update_loop c a), (crc_update_loop c (a ++ b))
    by (done || apply crc_update_fits).
  unfold for_each. rewrite fold_left_app. do 2 f_equal. lia.
Qed.

(** ** Properties *)

(** The table-driven CRC is the bitwise CRC-32 of IEEE 802.3, on every
    byte string. *)
Theorem crc32_is_bitwise data : nx_crc32 data = crc_ref data.
Proof.
  unfold nx_crc32, nx_crc32_update, crc_ref. do 2 f_equal. generalize (u32 (~. 0)).
  unfold for_each. induction data as [|p data IH]; intros c; [done|]. simpl.
  rewrite crc_byte_bits. apply IH.
Qed.

(** Checksums chain: continuing the checksum of [a] with [b] gives the
    checksum of the concatenation. *)
Theorem crc32_chains a b :
  Forall byte_ok a -> Forall byte_ok b ->
  nx_crc32_update (nx_crc32 a) b = nx_crc32 (a ++ b).
Proof. intros. apply crc_update_app; [unfold fits; lia|done..]. Qed.

Lemma crc32_chains_witness :
  nx_crc32_update (nx_crc32 [49; 50; 51; 52]) [53; 54; 55; 56; 57] = 0xCBF43926.
Proof.
  rewrite (crc32_chains [49; 50; 51; 52] [53; 54; 55; 56; 57]);
    [by vm_compute|repeat constructor; unfold byte_ok; lia..].
Defined.

(** The checksum detects every change confined to four consecutive bytes
    (bursts of up to 32 bits). *)
Theorem crc32_detects_burst pre a b post :
  Forall byte_ok pre -> Forall byte_ok a -> Forall byte_ok b -> Forall byte_ok post ->
  length a = length b -> (length a <= 4)%nat -> a <> b ->
  nx_crc32 (pre ++ a ++ post) <> nx_crc32 (pre ++ b ++ post).
Proof.
  intros Hpre Ha Hb Hpost Hl Hn Hne He. apply Hne. unfold nx_crc32 in He.
  rewrite !crc_update_loop in He by (repeat apply Forall_app_2; done || (unfold fits; lia)).
  unfold for_each in He. rewrite !fold_left_app in He.
  set (c := fold_left crc_byte pre _) in He.
  assert (Hc : fits 32 c) by (apply crc_loop_fits; [done|unfold fits; lia]).
  assert (He' : for_each post crc_byte (for_each a crc_byte c) =
                for_each post crc_byte (for_each b crc_byte c)) by (unfold for_each; lia).
  apply crc_loop_inj in He'; [|done|by apply crc_loop_fits..].
  rewrite !crc_loop_word, Hl in He' by done.
  assert (Hw : forall l, Forall byte_ok l -> (length l <= 4)%nat -> fits 32 (le_dec l)).
  { intros l Hb' Hl'. pose proof (le_dec_bound l Hb') as Hd. unfold fits. split; [lia|].
    eapply Z.lt_le_trans; [apply Hd|]. apply Z.pow_le_mono_r; lia. }
  apply crc_bits_inj in He'; [|apply lxor_fits; [lia|done|apply Hw; (done || lia)]..].
  apply lxor_inj_l in He'. by apply le_dec_inj.
Qed.

Lemma crc32_detects_burst_witness :
  nx_crc32 ([1; 2] ++ [3; 4; 5; 6] ++ [7]) <> nx_crc32 ([1; 2] ++ [3; 0; 0; 9] ++ [7]).
Proof.
  apply (crc32_detects_burst [1; 2] [3; 4; 5; 6] [3; 0; 0; 9] [7]); try done;
    try (repeat constructor; unfold byte_ok; lia).
Defined.
