(* ===== verification/StoreFmt.v ===== *)
(** * nxstore: on-disk format

    The structures of [lib/include/nanox/store.h], their byte layout (4096-byte
    blocks, little endian) and the structural checks of [lib/store.c].  Character
    arrays are byte lists; reading a C string past the end of its list reads the
    terminating NUL. *)
From S2P Require Import Prelude Bytes Crc32.

Definition ST_BLOCK : Z := 4096.
Definition ST_VERSION : Z := 1.
Definition ST_FIRST_DATA : Z := 2.
Definition ST_MIN_BLOCKS : Z := 16.
Definition ST_MAX_BLOCKS : Z := 32768.
Definition ST_HIST_MAX : Z := 8.
Definition ST_PIN_MAX : Z := 4.
Definition ST_LOG_MAX : Z := 16.
Definition ST_OBJ_MAX : Z := 49.
Definition ST_NAME_MAX : Z := 27.
Definition ST_PIN_NAME_MAX : Z := 15.
Definition ST_LABEL_MAX : Z := 15.
Definition ST_OBJ_MAX_BLOCKS : Z := 8.
Definition ST_OBJ_MAX_BYTES : Z := ST_OBJ_MAX_BLOCKS * ST_BLOCK.
Definition ST_RETAIN_MIN : Z := 2.
Definition ST_RETAIN_MAX : Z := ST_HIST_MAX + 1.
Definition ST_RESERVE_BLOCKS : Z := 10.

(** "NXSTSUP1" and "NXSTROOT" *)
Definition ST_SUPER_MAGIC : list Z := [78; 88; 83; 84; 83; 85; 80; 49].
Definition ST_ROOT_MAGIC : list Z := [78; 88; 83; 84; 82; 79; 79; 84].

Record st_ref := mk_ref { ref_gen : Z; ref_blk : Z; ref_crc : Z }.
Record st_pin_entry := mk_pin { pin_name : list Z; pin_ref : st_ref }.
Record st_log := mk_log { log_gen : Z; log_boot_id : Z; log_label : list Z }.

Record st_obj := mk_obj {
  o_oid : Z; o_mod_gen : Z; o_version : Z; o_blk : Z; o_len : Z; o_crc : Z;
  o_kind : Z; o_nblk : Z; o_name : list Z;
}.

Record st_super := mk_super {
  sb_magic : list Z; sb_version : Z; sb_block_size : Z; sb_block_count : Z;
  sb_store_id : Z; sb_gen : Z; sb_root_blk : Z; sb_root_crc : Z;
  sb_retain : Z; sb_reserved0 : Z; sb_boot_id : Z; sb_zero : list Z; sb_crc : Z;
}.

Record st_root := mk_root {
  rt_magic : list Z; rt_gen : Z; rt_parent_gen : Z; rt_store_id : Z; rt_next_oid : Z;
  rt_boot_id : Z; rt_nobj : Z; rt_nhist : Z; rt_npin : Z; rt_nlog : Z;
  rt_retain : Z; rt_flags : Z; rt_label : list Z; rt_reserved : list Z;
  rt_hist : list st_ref; rt_pin : list st_pin_entry; rt_log : list st_log;
  rt_obj : list st_obj; rt_pad : list Z; rt_crc : Z;
}.

Definition zero_ref : st_ref := mk_ref 0 0 0.
Definition zero_pin : st_pin_entry := mk_pin (replicate 16 0) zero_ref.
Definition zero_log : st_log := mk_log 0 0 (replicate 16 0).
Definition zero_obj : st_obj := mk_obj 0 0 0 0 0 0 0 0 (replicate 28 0).
Definition zero_root : st_root :=
  mk_root (replicate 8 0) 0 0 0 0 0 0 0 0 0 0 0 (replicate 16 0) (replicate 40 0)
    (replicate 8 zero_ref) (replicate 4 zero_pin) (replicate 16 zero_log)
    (replicate 49 zero_obj) (replicate 60 0) 0.

#[export] Instance st_ref_inhabited : Inhabited st_ref := populate zero_ref.
#[export] Instance st_pin_inhabited : Inhabited st_pin_entry := populate zero_pin.
#[export] Instance st_log_inhabited : Inhabited st_log := populate zero_log.
#[export] Instance st_obj_inhabited : Inhabited st_obj := populate zero_obj.
#[export] Instance st_ref_eq_dec : EqDecision st_ref.
Proof. solve_decision. Defined.
#[export] Instance st_pin_eq_dec : EqDecision st_pin_entry.
Proof. solve_decision. Defined.
#[export] Instance st_log_eq_dec : EqDecision st_log.
Proof. solve_decision. Defined.
#[export] Instance st_obj_eq_dec : EqDecision st_obj.
Proof. solve_decision. Defined.
#[export] Instance st_root_eq_dec : EqDecision st_root.
Proof. solve_decision. Defined.

(** ** Layout *)

Definition enc_ref (r : st_ref) : list Z :=
  le_enc 8 (ref_gen r) ++ le_enc 4 (ref_blk r) ++ le_enc 4 (ref_crc r).
Definition enc_pin (p : st_pin_entry) : list Z := pin_name p ++ enc_ref (pin_ref p).
Definition enc_log (l : st_log) : list Z :=
  le_enc 8 (log_gen l) ++ le_enc 8 (log_boot_id l) ++ log_label l.
Definition enc_obj (o : st_obj) : list Z :=
  le_enc 8 (o_oid o) ++ le_enc 8 (o_mod_gen o) ++ le_enc 4 (o_version o) ++
  le_enc 4 (o_blk o) ++ le_enc 4 (o_len o) ++ le_enc 4 (o_crc o) ++
  le_enc 2 (o_kind o) ++ le_enc 2 (o_nblk o) ++ o_name o.

(** All of a root or superblock but its final checksum. *)
Definition enc_root_body (r : st_root) : list Z :=
  rt_magic r ++ le_enc 8 (rt_gen r) ++ le_enc 8 (rt_parent_gen r) ++
  le_enc 8 (rt_store_id r) ++ le_enc 8 (rt_next_oid r) ++ le_enc 8 (rt_boot_id r) ++
  le_enc 4 (rt_nobj r) ++ le_enc 4 (rt_nhist r) ++ le_enc 4 (rt_npin r) ++
  le_enc 4 (rt_nlog r) ++ le_enc 4 (rt_retain r) ++ le_enc 4 (rt_flags r) ++
  rt_label r ++ rt_reserved r ++ (rt_hist r ≫= enc_ref) ++ (rt_pin r ≫= enc_pin) ++
  (rt_log r ≫= enc_log) ++ (rt_obj r ≫= enc_obj) ++ rt_pad r.
Definition enc_root (r : st_root) : list Z := enc_root_body r ++ le_enc 4 (rt_crc r).

Definition enc_super_body (s : st_super) : list Z :=
  sb_magic s ++ le_enc 4 (sb_version s) ++ le_enc 4 (sb_block_size s) ++
  le_enc 8 (sb_block_count s) ++ le_enc 8 (sb_store_id s) ++ le_enc 8 (sb_gen s) ++
  le_enc 4 (sb_root_blk s) ++ le_enc 4 (sb_root_crc s) ++ le_enc 4 (sb_retain s) ++
  le_enc 4 (sb_reserved0 s) ++ le_enc 8 (sb_boot_id s) ++ sb_zero s.
Definition enc_super (s : st_super) : list Z := enc_super_body s ++ le_enc 4 (sb_crc s).

Definition get_ref (b : list Z) : st_ref * list Z :=
  let '(g, b) := get_le 8 b in let '(k, b) := get_le 4 b in let '(c, b) := get_le 4 b in
  (mk_ref g k c, b).
Definition get_pin (b : list Z) : st_pin_entry * list Z :=
  let '(n, b) := get_bytes 16 b in let '(r, b) := get_ref b in (mk_pin n r, b).
Definition get_log (b : list Z) : st_log * list Z :=
  let '(g, b) := get_le 8 b in let '(i, b) := get_le 8 b in let '(l, b) := get_bytes 16 b in
  (mk_log g i l, b).
Definition get_obj (b : list Z) : st_obj * list Z :=
  let '(oid, b) := get_le 8 b in let '(mg, b) := get_le 8 b in let '(v, b) := get_le 4 b in
  let '(k, b) := get_le 4 b in let '(l, b) := get_le 4 b in let '(c, b) := get_le 4 b in
  let '(kd, b) := get_le 2 b in let '(nb, b) := get_le 2 b in let '(n, b) := get_bytes 28 b in
  (mk_obj oid mg v k l c kd nb n, b).

Definition dec_root (b : list Z) : st_root :=
  let '(magic, b) := get_bytes 8 b in let '(gen, b) := get_le 8 b in
  let '(parent, b) := get_le 8 b in let '(store_id, b) := get_le 8 b in
  let '(next_oid, b) := get_le 8 b in let '(boot_id, b) := get_le 8 b in
  let '(nobj, b) := get_le 4 b in let '(nhist, b) := get_le 4 b in
  let '(npin, b) := get_le 4 b in let '(nlog, b) := get_le 4 b in
  let '(retain, b) := get_le 4 b in let '(flags, b) := get_le 4 b in
  let '(label, b) := get_bytes 16 b in let '(reserved, b) := get_bytes 40 b in
  let '(hist, b) := get_list 8 get_ref b in let '(pin, b) := get_list 4 get_pin b in
  let '(log, b) := get_list 16 get_log b in let '(obj, b) := get_list 49 get_obj b in
  let '(pad, b) := get_bytes 60 b in let '(crc, _) := get_le 4 b in
  mk_root magic gen parent store_id next_oid boot_id nobj nhist npin nlog retain flags label
    reserved hist pin log obj pad crc.

Definition dec_super (b : list Z) : st_super :=
  let '(magic, b) := get_bytes 8 b in let '(version, b) := get_le 4 b in
  let '(block_size, b) := get_le 4 b in let '(block_count, b) := get_le 8 b in
  let '(store_id, b) := get_le 8 b in let '(gen, b) := get_le 8 b in
  let '(root_blk, b) := get_le 4 b in let '(root_crc, b) := get_le 4 b in
  let '(retain, b) := get_le 4 b in let '(reserved0, b) := get_le 4 b in
  let '(boot_id, b) := get_le 8 b in let '(zero, b) := get_bytes 4028 b in
  let '(crc, _) := get_le 4 b in
  mk_super magic version block_size block_count store_id gen root_blk root_crc retain
    reserved0 boot_id zero crc.

(** ** Helpers *)

Definition block_crc (blk : list Z) : Z := nx_crc32 (take 4092 blk).

Fixpoint str_eq (a b : list Z) : bool :=
  match a with
  | [] => hd 0 b =? 0
  | x :: a' => if negb (x =? 0) && (x =? hd 0 b) then str_eq a' (tl b) else x =? hd 0 b
  end.

(** The characters of a C string. *)
Fixpoint cstr (s : list Z) : list Z :=
  match s with
  | [] => []
  | c :: s' => if c =? 0 then [] else c :: cstr s'
  end.

Fixpoint str_nlen (s : list Z) (cap : nat) : Z :=
  match cap, s with
  | S cap', c :: s' => if c =? 0 then 0 else 1 + str_nlen s' cap'
  | _, _ => 0
  end.

Definition str_copy (cap : nat) (src : list Z) : list Z :=
  let c := take (cap - 1) (cstr src) in c ++ replicate (cap - length c) 0.

Definition in_range (lo c hi : Z) : bool := (lo <=? c) && (c <=? hi).

(** ['a'..'z'], ['A'..'Z'], ['0'..'9'], ['.'], ['_'], ['-'], ['/'] *)
Definition name_char (c : Z) : bool :=
  in_range 97 c 122 || in_range 65 c 90 || in_range 48 c 57 ||
  (c =? 46) || (c =? 95) || (c =? 45) || (c =? 47).

(** [for (; s[n]; n++) if (n >= max || !ok(s[n])) return 0; return n > 0;] *)
Fixpoint chars_ok (ok : Z -> bool) (max n : Z) (s : list Z) : bool :=
  match s with
  | [] => n >? 0
  | c :: s' =>
      if c =? 0 then n >? 0
      else if (n >=? max) || negb (ok c) then false
      else chars_ok ok max (n + 1) s'
  end.

Definition st_name_ok (name : list Z) : bool := chars_ok name_char ST_NAME_MAX 0 name.
Definition st_pin_name_ok (name : list Z) : bool :=
  chars_ok (fun c => in_range 97 c 122 || in_range 48 c 57 || (c =? 95) || (c =? 45))
    ST_PIN_NAME_MAX 0 name.
(** [' ' < c <= '~']; a [char] is signed, bytes above 127 compare below [' ']. *)
Definition st_label_ok (label : list Z) : bool :=
  chars_ok (fun c => (32 <? c) && (c <=? 126)) ST_LABEL_MAX 0 label.

Definition nblk_for (len : Z) : Z := u32 (len + ST_BLOCK - 1) / ST_BLOCK.

Definition overlap (a an b bn : Z) : bool := (a <? u32 (b + bn)) && (b <? u32 (a + an)).

(** ** Structure checks *)

Definition hist_sane (r : st_root) (blocks i : Z) : bool :=
  let h := (rt_hist r).[i] in
  negb ((ref_gen h >=? (if i =? 0 then rt_gen r else ref_gen (rt_hist r).[i - 1])) ||
        (ref_gen h =? 0) || (ref_blk h <? ST_FIRST_DATA) || (ref_blk h >=? blocks)).

Definition pin_sane (r : st_root) (blocks i : Z) : bool :=
  let p := (rt_pin r).[i] in
  negb ((str_nlen (pin_name p) 16 =? 16) || negb (st_pin_name_ok (pin_name p)) ||
        (ref_gen (pin_ref p) =? 0) || (ref_gen (pin_ref p) >=? rt_gen r) ||
        (ref_blk (pin_ref p) <? ST_FIRST_DATA) || (ref_blk (pin_ref p) >=? blocks)) &&
  forallb (fun j => negb (str_eq (pin_name (rt_pin r).[j]) (pin_name p))) (seqZ 0 i).

(** Two entries of an object table are compatible. *)
Definition obj_pair_sane (o p : st_obj) : bool :=
  negb (str_eq (o_name p) (o_name o) || (o_oid p =? o_oid o) ||
        (negb (o_nblk o =? 0) && negb (o_nblk p =? 0) &&
         overlap (o_blk o) (o_nblk o) (o_blk p) (o_nblk p))).

Definition obj_sane (r : st_root) (blocks : Z) (o : st_obj) : bool :=
  negb ((str_nlen (o_name o) 28 =? 28) || negb (st_name_ok (o_name o)) || (o_oid o =? 0) ||
        (o_oid o >=? rt_next_oid r) || (o_version o =? 0) || (o_mod_gen o =? 0) ||
        (o_mod_gen o >? rt_gen r) || (o_len o >? ST_OBJ_MAX_BYTES) ||
        negb (o_nblk o =? nblk_for (o_len o))) &&
  negb (if negb (o_nblk o =? 0)
        then (o_blk o <? ST_FIRST_DATA) || (u64 (o_blk o + o_nblk o) >? blocks)
        else negb (o_blk o =? 0)).

Definition root_sane (r : st_root) (blocks : Z) : bool :=
  negb (negb (bool_decide (rt_magic r = ST_ROOT_MAGIC)) || (rt_gen r =? 0) ||
        (rt_parent_gen r >=? rt_gen r) || (rt_nobj r >? ST_OBJ_MAX) ||
        (rt_nhist r >? ST_HIST_MAX) || (rt_npin r >? ST_PIN_MAX) || (rt_nlog r =? 0) ||
        (rt_nlog r >? ST_LOG_MAX) || negb (log_gen (rt_log r).[0] =? rt_gen r) ||
        (rt_retain r <? ST_RETAIN_MIN) || (rt_retain r >? ST_RETAIN_MAX) ||
        (rt_next_oid r =? 0)) &&
  negb (str_nlen (rt_label r) 16 =? 16) &&
  forallb (hist_sane r blocks) (seqZ 0 (rt_nhist r)) &&
  forallb (pin_sane r blocks) (seqZ 0 (rt_npin r)) &&
  forallb (fun i => obj_sane r blocks (rt_obj r).[i] &&
                    forallb (fun j => obj_pair_sane (rt_obj r).[i] (rt_obj r).[j]) (seqZ 0 i))
    (seqZ 0 (rt_nobj r)).

(** ** Value ranges of the fields *)

Definition chars (n : nat) (s : list Z) : Prop := length s = n /\ Forall byte_ok s.

Definition ref_wf (r : st_ref) : Prop :=
  fits 64 (ref_gen r) /\ fits 32 (ref_blk r) /\ fits 32 (ref_crc r).
Definition pin_wf (p : st_pin_entry) : Prop := chars 16 (pin_name p) /\ ref_wf (pin_ref p).
Definition log_wf (l : st_log) : Prop :=
  fits 64 (log_gen l) /\ fits 64 (log_boot_id l) /\ chars 16 (log_label l).
Definition obj_wf (o : st_obj) : Prop :=
  fits 64 (o_oid o) /\ fits 64 (o_mod_gen o) /\ fits 32 (o_version o) /\ fits 32 (o_blk o) /\
  fits 32 (o_len o) /\ fits 32 (o_crc o) /\ fits 16 (o_kind o) /\ fits 16 (o_nblk o) /\
  chars 28 (o_name o).
Definition super_wf (s : st_super) : Prop :=
  chars 8 (sb_magic s) /\ fits 32 (sb_version s) /\ fits 32 (sb_block_size s) /\
  fits 64 (sb_block_count s) /\ fits 64 (sb_store_id s) /\ fits 64 (sb_gen s) /\
  fits 32 (sb_root_blk s) /\ fits 32 (sb_root_crc s) /\ fits 32 (sb_retain s) /\
  fits 32 (sb_reserved0 s) /\ fits 64 (sb_boot_id s) /\ chars 4028 (sb_zero s) /\
  fits 32 (sb_crc s).
Definition root_wf (r : st_root) : Prop :=
  chars 8 (rt_magic r) /\ fits 64 (rt_gen r) /\ fits 64 (rt_parent_gen r) /\
  fits 64 (rt_store_id r) /\ fits 64 (rt_next_oid r) /\ fits 64 (rt_boot_id r) /\
  fits 32 (rt_nobj r) /\ fits 32 (rt_nhist r) /\ fits 32 (rt_npin r) /\ fits 32 (rt_nlog r) /\
  fits 32 (rt_retain r) /\ fits 32 (rt_flags r) /\ chars 16 (rt_label r) /\
  chars 40 (rt_reserved r) /\ (length (rt_hist r) = 8%nat /\ Forall ref_wf (rt_hist r)) /\
  (length (rt_pin r) = 4%nat /\ Forall pin_wf (rt_pin r)) /\
  (length (rt_log r) = 16%nat /\ Forall log_wf (rt_log r)) /\
  (length (rt_obj r) = 49%nat /\ Forall obj_wf (rt_obj r)) /\
  chars 60 (rt_pad r) /\ fits 32 (rt_crc r).

(** ** Lemmas: codec *)

Lemma get_ref_enc r rest : ref_wf r -> get_ref (enc_ref r ++ rest) = (r, rest).
Proof.
  intros (H1 & H2 & H3). unfold get_ref, enc_ref. rewrite <- !(assoc_L (++)).
  rewrite !get_le_enc by done. by destruct r.
Qed.

Lemma get_pin_enc p rest : pin_wf p -> get_pin (enc_pin p ++ rest) = (p, rest).
Proof.
  intros ([H1 _] & H2). unfold get_pin, enc_pin. rewrite <- !(assoc_L (++)).
  rewrite get_bytes_app, get_ref_enc by done. by destruct p.
Qed.

Lemma get_log_enc l rest : log_wf l -> get_log (enc_log l ++ rest) = (l, rest).
Proof.
  intros (H1 & H2 & [H3 _]). unfold get_log, enc_log. rewrite <- !(assoc_L (++)).
  rewrite !get_le_enc, get_bytes_app by done. by destruct l.
Qed.

Lemma get_obj_enc o rest : obj_wf o -> get_obj (enc_obj o ++ rest) = (o, rest).
Proof.
  intros (H1 & H2 & H3 & H4 & H5 & H6 & H7 & H8 & [H9 _]). unfold get_obj, enc_obj.
  rewrite <- !(assoc_L (++)). rewrite !get_le_enc, get_bytes_app by done. by destruct o.
Qed.

Lemma dec_enc_root r : root_wf r -> dec_root (enc_root r) = r.
Proof.
  intros ([H1 _] & H2 & H3 & H4 & H5 & H6 & H7 & H8 & H9 & H10 & H11 & H12 & [H13 _] & [H14 _] &
    [H15 F15] & [H16 F16] & [H17 F17] & [H18 F18] & [H19 _] & H20).
  unfold dec_root, enc_root, enc_root_body. rewrite <- !(assoc_L (++)).
  rewrite (get_bytes_app 8) by done. rewrite !get_le_enc by done.
  rewrite (get_bytes_app 16), (get_bytes_app 40) by done.
  rewrite (get_list_enc 8 get_ref enc_ref) by
    (done || (eapply Forall_impl; [exact F15|]; intros; by apply get_ref_enc)).
  rewrite (get_list_enc 4 get_pin enc_pin) by
    (done || (eapply Forall_impl; [exact F16|]; intros; by apply get_pin_enc)).
  rewrite (get_list_enc 16 get_log enc_log) by
    (done || (eapply Forall_impl; [exact F17|]; intros; by apply get_log_enc)).
  rewrite (get_list_enc 49 get_obj enc_obj) by
    (done || (eapply Forall_impl; [exact F18|]; intros; by apply get_obj_enc)).
  rewrite (get_bytes_app 60) by done.
  rewrite <- (app_nil_r (le_enc 4 (rt_crc r))), get_le_enc by done. by destruct r.
Qed.

Lemma dec_enc_super s : super_wf s -> dec_super (enc_super s) = s.
Proof.
  intros ([H1 _] & H2 & H3 & H4 & H5 & H6 & H7 & H8 & H9 & H10 & H11 & [H12 _] & H13).
  unfold dec_super, enc_super, enc_super_body. rewrite <- !(assoc_L (++)).
  rewrite (get_bytes_app 8) by done. rewrite !get_le_enc by done.
  rewrite (get_bytes_app 4028) by done.
  rewrite <- (app_nil_r (le_enc 4 (sb_crc s))), get_le_enc by done. by destruct s.
Qed.

(** The bytes of a superblock before its padding. *)
Definition super_head (s : st_super) : list Z :=
  sb_magic s ++ le_enc 4 (sb_version s) ++ le_enc 4 (sb_block_size s) ++
  le_enc 8 (sb_block_count s) ++ le_enc 8 (sb_store_id s) ++ le_enc 8 (sb_gen s) ++
  le_enc 4 (sb_root_blk s) ++ le_enc 4 (sb_root_crc s) ++ le_enc 4 (sb_retain s) ++
  le_enc 4 (sb_reserved0 s) ++ le_enc 8 (sb_boot_id s).

Lemma enc_super_head s : super_wf s ->
  length (super_head s) = 64%nat /\ enc_super s = super_head s ++ sb_zero s ++ le_enc 4 (sb_crc s).
Proof.
  intros ([H1 _] & _). split.
  - unfold super_head. rewrite !length_app, !le_enc_length, H1. done.
  - unfold enc_super, enc_super_body, super_head. by rewrite <- !(assoc_L (++)).
Qed.

(** The fields of a superblock lie in its first sector. *)
Lemma dec_super_head s rest : super_wf s ->
  let d := dec_super (super_head s ++ rest) in
  sb_magic d = sb_magic s /\ sb_version d = sb_version s /\ sb_block_size d = sb_block_size s /\
  sb_block_count d = sb_block_count s /\ sb_store_id d = sb_store_id s /\ sb_gen d = sb_gen s /\
  sb_root_blk d = sb_root_blk s /\ sb_root_crc d = sb_root_crc s.
Proof.
  intros ([H1 _] & H2 & H3 & H4 & H5 & H6 & H7 & H8 & H9 & H10 & H11 & _ & _).
  unfold dec_super, super_head. rewrite <- !(assoc_L (++)).
  rewrite (get_bytes_app 8) by done. rewrite !get_le_enc by done.
  destruct (get_bytes 4028 rest) as [z r1]. by destruct (get_le 4 r1) as [c r2].
Qed.
