(* ===== verification/Store.v ===== *)
(** * nxstore: operations

    Models [lib/store.c] over an abstract block device ([struct st_dev]).  The
    state of [struct store] is split in two records: [store] (mount and
    transaction state) and [io] (the device and the operation counters).  The
    scratch buffers [tmp], [buf] and [ext] are local values of the functions that
    fill them. *)
From S2P Require Import Prelude Bytes Bitmap Crc32 StoreFmt.

(** ** Block device *)

(** [struct st_dev]: a read of one block ([None]: error), a write of consecutive
    blocks and a flush ([false]: error). *)
Class st_dev (D : Type) := {
  bd_read : D -> Z -> option (list Z) * D;
  bd_write : D -> Z -> list (list Z) -> bool * D;
  bd_flush : D -> bool * D;
}.

(** ** State *)

Inductive st_error : Set :=
| ST_OK | ST_E_IO | ST_E_NOROOT | ST_E_NOSPC | ST_E_OBJFULL | ST_E_NOTFOUND | ST_E_TOOBIG
| ST_E_NAME | ST_E_CORRUPT | ST_E_PRUNED | ST_E_STATE | ST_E_PINFULL | ST_E_EXISTS
| ST_E_FORMAT | ST_E_UNKNOWN.

Inductive st_slot_state : Set :=
| ST_SLOT_EMPTY | ST_SLOT_BAD_CRC | ST_SLOT_BAD_HEADER | ST_SLOT_BAD_ROOT | ST_SLOT_BAD_DATA
| ST_SLOT_CURRENT | ST_SLOT_OLDER.

#[export] Instance st_error_eq_dec : EqDecision st_error.
Proof. solve_decision. Defined.
#[export] Instance st_slot_state_eq_dec : EqDecision st_slot_state.
Proof. solve_decision. Defined.

Definition is_ok (e : st_error) : bool := match e with ST_OK => true | _ => false end.

Record st_mount_report := mk_report {
  rp_slot_state : st_slot_state * st_slot_state;
  rp_slot_gen : Z * Z;
  rp_slot : Z;
  rp_gen : Z;
  rp_max_gen : Z;
  rp_fallback : bool;
  rp_rejected_gen : Z;
  rp_rejected_state : st_slot_state;
  rp_hist_damaged : Z;
}.

Record store := mk_store {
  s_blocks : Z;
  s_flags : Z;
  s_mounted : bool;
  s_in_tx : bool;
  s_tx_prune : bool;
  s_tx_reserve : bool;
  s_cur_slot : Z;
  s_cur_blk : Z;
  s_max_gen : Z;
  s_boot_id : Z;
  s_cur : st_root;
  s_work : st_root;
  s_used : list Z;
  s_txused : list Z;
  s_rep : st_mount_report;
  s_commits : Z;
}.

Definition ST_TEST_NO_BARRIER : Z := 1.
Definition ST_TEST_NO_FINAL_FLUSH : Z := 2.
Definition ST_TEST_NO_VERIFY : Z := 4.
Definition ST_TEST_SAME_SLOT : Z := 8.
Definition ST_TEST_IN_PLACE : Z := 16.

Definition flag (s : store) (f : Z) : bool := negb (s_flags s &. f =? 0).

(** A block of zeros. *)
Definition zero_block : list Z := replicate 4096 0.

(** [ST_MAX_BLOCKS / 8] zero bytes. *)
Definition empty_map : list Z := replicate 4096 0.

Definition zero_report : st_mount_report :=
  mk_report (ST_SLOT_EMPTY, ST_SLOT_EMPTY) (0, 0) 0 0 0 false 0 ST_SLOT_EMPTY 0.
Definition zero_store : store :=
  mk_store 0 0 false false false false 0 0 0 0 zero_root zero_root empty_map empty_map
    zero_report 0.

(** Field updates. *)
Definition set_tx (s : store) (in_tx prune reserve : bool) (txused : list Z) : store :=
  mk_store (s_blocks s) (s_flags s) (s_mounted s) in_tx prune reserve (s_cur_slot s)
    (s_cur_blk s) (s_max_gen s) (s_boot_id s) (s_cur s) (s_work s) (s_used s) txused
    (s_rep s) (s_commits s).
Definition set_work (s : store) (w : st_root) : store :=
  mk_store (s_blocks s) (s_flags s) (s_mounted s) (s_in_tx s) (s_tx_prune s) (s_tx_reserve s)
    (s_cur_slot s) (s_cur_blk s) (s_max_gen s) (s_boot_id s) (s_cur s) w (s_used s)
    (s_txused s) (s_rep s) (s_commits s).
Definition set_used (s : store) (m : list Z) : store :=
  mk_store (s_blocks s) (s_flags s) (s_mounted s) (s_in_tx s) (s_tx_prune s) (s_tx_reserve s)
    (s_cur_slot s) (s_cur_blk s) (s_max_gen s) (s_boot_id s) (s_cur s) (s_work s) m
    (s_txused s) (s_rep s) (s_commits s).
Definition set_txused (s : store) (m : list Z) : store :=
  set_tx s (s_in_tx s) (s_tx_prune s) (s_tx_reserve s) m.
Definition set_mounted (s : store) (b : bool) : store :=
  mk_store (s_blocks s) (s_flags s) b (s_in_tx s) (s_tx_prune s) (s_tx_reserve s)
    (s_cur_slot s) (s_cur_blk s) (s_max_gen s) (s_boot_id s) (s_cur s) (s_work s) (s_used s)
    (s_txused s) (s_rep s) (s_commits s).

Definition set_objs (w : st_root) (next_oid nobj : Z) (obj : list st_obj) : st_root :=
  mk_root (rt_magic w) (rt_gen w) (rt_parent_gen w) (rt_store_id w) next_oid (rt_boot_id w)
    nobj (rt_nhist w) (rt_npin w) (rt_nlog w) (rt_retain w) (rt_flags w) (rt_label w)
    (rt_reserved w) (rt_hist w) (rt_pin w) (rt_log w) obj (rt_pad w) (rt_crc w).
Definition set_pins (w : st_root) (npin : Z) (pin : list st_pin_entry) : st_root :=
  mk_root (rt_magic w) (rt_gen w) (rt_parent_gen w) (rt_store_id w) (rt_next_oid w)
    (rt_boot_id w) (rt_nobj w) (rt_nhist w) npin (rt_nlog w) (rt_retain w) (rt_flags w)
    (rt_label w) (rt_reserved w) (rt_hist w) pin (rt_log w) (rt_obj w) (rt_pad w) (rt_crc w).
Definition set_crc (w : st_root) (crc : Z) : st_root :=
  mk_root (rt_magic w) (rt_gen w) (rt_parent_gen w) (rt_store_id w) (rt_next_oid w)
    (rt_boot_id w) (rt_nobj w) (rt_nhist w) (rt_npin w) (rt_nlog w) (rt_retain w) (rt_flags w)
    (rt_label w) (rt_reserved w) (rt_hist w) (rt_pin w) (rt_log w) (rt_obj w) (rt_pad w) crc.

(** A slot as [read_slot] sees it. *)
Record slot_info := mk_slot {
  si_state : st_slot_state;
  si_gen : Z;
  si_store_id : Z;
  si_blocks : Z;
  si_root_blk : Z;
  si_root_crc : Z;
}.

(** One extent found by the consistency check. *)
Record st_extent := mk_extent {
  e_blk : Z; e_nblk : Z; e_crc : Z; e_owner : Z; e_oid : Z;
}.

#[export] Instance st_extent_inhabited : Inhabited st_extent := populate (mk_extent 0 0 0 0 0).

(** [problems] counts; the kind of the first problem is kept with its value. *)
Inductive st_problem : Set :=
| P_not_mounted | P_superblock_mismatch_slot | P_root_invalid_gen
| P_current_root_differs_on_disk_gen | P_extent_crc_oid | P_too_many_extents
| P_overlapping_extents_at_block | P_referenced_block_not_marked_used
| P_used_block_not_referenced.

Record st_check_report := mk_check {
  ck_roots : Z; ck_objects : Z; ck_extents : Z; ck_used_blocks : Z; ck_free_blocks : Z;
  ck_problems : Z; ck_first : option (st_problem * Z);
}.

Section operations.
Context {D : Type} `{!st_dev D}.

Record io := mk_io { io_dev : D; io_reads : Z; io_writes : Z; io_flushes : Z }.

(** ** Device access *)

(** Every caller reads one block. *)
Definition dev_read (blocks : Z) (x : io) (blk : Z) : st_error * list Z * io :=
  if (u64 (blk + 1) >? blocks) || (u64 (blk + 1) <? blk) then (ST_E_CORRUPT, [], x)
  else
    let '(r, d) := bd_read (io_dev x) blk in
    let x := mk_io d (u64 (io_reads x + 1)) (io_writes x) (io_flushes x) in
    match r with
    | Some b => (ST_OK, b, x)
    | None => (ST_E_IO, [], x)
    end.

Definition dev_write (blocks : Z) (x : io) (blk : Z) (bs : list (list Z)) : st_error * io :=
  let n := Z.of_nat (length bs) in
  if (u64 (blk + n) >? blocks) || (u64 (blk + n) <? blk) then (ST_E_IO, x)
  else
    let '(r, d) := bd_write (io_dev x) blk bs in
    let x := mk_io d (io_reads x) (u64 (io_writes x + 1)) (io_flushes x) in
    (if r then ST_OK else ST_E_IO, x).

Definition dev_flush (x : io) : st_error * io :=
  let '(r, d) := bd_flush (io_dev x) in
  (if r then ST_OK else ST_E_IO,
   mk_io d (io_reads x) (io_writes x) (u64 (io_flushes x + 1))).

(** ** Reading generations *)

Definition load_root (blocks : Z) (x : io) (blk gen crc : Z) : st_error * st_root * io :=
  if (blk <? ST_FIRST_DATA) || (blk >=? blocks) then (ST_E_CORRUPT, zero_root, x)
  else
    match dev_read blocks x blk with
    | (ST_OK, b, x) =>
        let out := dec_root b in
        let c := block_crc b in
        if negb (c =? rt_crc out) || (negb (crc =? 0) && negb (c =? crc)) ||
           (negb (gen =? 0) && negb (rt_gen out =? gen)) || negb (root_sane out blocks)
        then (ST_E_CORRUPT, out, x)
        else (ST_OK, out, x)
    | (st, _, x) => (st, zero_root, x)
    end.

(** The loop of [verify_extent] from block [i] on, [todo] blocks left; returns
    the checksum and the bytes copied to the caller's buffer of [cap] bytes. *)
Fixpoint verify_loop (blocks : Z) (x : io) (blk : Z) (todo : nat) (i crc left cap : Z)
    : st_error * Z * list Z * io :=
  match todo with
  | O => (ST_OK, crc, [], x)
  | S todo' =>
      match dev_read blocks x (blk + i) with
      | (ST_OK, buf, x) =>
          let n := if left <? ST_BLOCK then left else ST_BLOCK in
          let crc := nx_crc32_update crc (take (Z.to_nat n) buf) in
          let off := i * ST_BLOCK in
          let copied := if off <? cap
                        then take (Z.to_nat (if cap - off <? n then cap - off else n)) buf
                        else [] in
          let '(st, crc, out, x) := verify_loop blocks x blk todo' (i + 1) crc (left - n) cap in
          (st, crc, copied ++ out, x)
      | (st, _, x) => (st, crc, [], x)
      end
  end.

(** A null destination is [cap = 0]. *)
Definition verify_extent (blocks : Z) (x : io) (o : st_obj) (cap : Z)
    : st_error * list Z * io :=
  match verify_loop blocks x (o_blk o) (Z.to_nat (o_nblk o)) 0 0 (o_len o) cap with
  | (ST_OK, crc, out, x) => (if crc =? o_crc o then ST_OK else ST_E_CORRUPT, out, x)
  | (st, _, out, x) => (st, out, x)
  end.

(** ** Allocation map *)

Definition mark_blocks (map : list Z) (first n blocks : Z) : list Z :=
  for_each (seqZ 0 n) (fun m b => if first + b <? blocks then bit_set m (first + b) else m) map.

Definition mark_root (map : list Z) (r : st_root) (blk blocks : Z) : list Z :=
  let map := if blk <? blocks then bit_set map blk else map in
  for_each (seqZ 0 (rt_nobj r))
    (fun m i => mark_blocks m (o_blk (rt_obj r).[i]) (o_nblk (rt_obj r).[i]) blocks) map.

(** Reference number [i] of a root: its history, then its pins. *)
Definition nth_ref (r : st_root) (i : Z) : st_ref :=
  if i <? rt_nhist r then (rt_hist r).[i] else pin_ref (rt_pin r).[i - rt_nhist r].

Definition mark_ref (s : store) (a : list Z * Z * io) (i : Z) : list Z * Z * io :=
  let '(used, damaged, x) := a in
  let ref := nth_ref (s_cur s) i in
  let used := if ref_blk ref <? s_blocks s then bit_set used (ref_blk ref) else used in
  match load_root (s_blocks s) x (ref_blk ref) (ref_gen ref) (ref_crc ref) with
  | (ST_OK, r, x) => (mark_root used r (ref_blk ref) (s_blocks s), damaged, x)
  | (_, _, x) => (used, damaged + 1, x)
  end.

Definition recompute_used (s : store) (x : io) : Z * store * io :=
  let used := bit_set (bit_set empty_map 0) 1 in
  let used := mark_root used (s_cur s) (s_cur_blk s) (s_blocks s) in
  let '(used, damaged, x) :=
    for_each (seqZ 0 (u32 (rt_nhist (s_cur s) + rt_npin (s_cur s)))) (mark_ref s) (used, 0, x) in
  (damaged, set_used s used, x).

Definition st_free_blocks (s : store) : Z :=
  countb (fun b => negb (bit_get (s_used s) b))
    (seqZ ST_FIRST_DATA (s_blocks s - ST_FIRST_DATA)).

Definition blk_free (s : store) (b : Z) : bool :=
  negb (bit_get (s_txused s) b) && (flag s ST_TEST_IN_PLACE || negb (bit_get (s_used s) b)).

(** First block of the first run of [n] free blocks, [run] free blocks ending
    just before the list. *)
Fixpoint find_run (free : Z -> bool) (n run : Z) (bs : list Z) : option Z :=
  match bs with
  | [] => None
  | b :: bs' =>
      let run := if free b then run + 1 else 0 in
      if run =? n then Some (b + 1 - n) else find_run free n run bs'
  end.

Definition alloc (s : store) (n : Z) (reserve_ok : bool) : Z * store :=
  let bs := seqZ ST_FIRST_DATA (s_blocks s - ST_FIRST_DATA) in
  let free_total := countb (blk_free s) bs in
  if (free_total <? n) || (negb reserve_ok && (free_total - n <? ST_RESERVE_BLOCKS)) then (0, s)
  else
    match find_run (blk_free s) n 0 bs with
    | Some first =>
        (first, set_txused s (for_each (seqZ 0 n) (fun m i => bit_set m (first + i)) (s_txused s)))
    | None => (0, s)
    end.

(** ** Format and mount *)

Definition make_super (r : st_root) (root_blk blocks : Z) : st_super :=
  let sb := mk_super ST_SUPER_MAGIC ST_VERSION ST_BLOCK blocks (rt_store_id r) (rt_gen r)
              root_blk (rt_crc r) (rt_retain r) 0 (rt_boot_id r) (replicate 4028 0) 0 in
  mk_super (sb_magic sb) (sb_version sb) (sb_block_size sb) (sb_block_count sb)
    (sb_store_id sb) (sb_gen sb) (sb_root_blk sb) (sb_root_crc sb) (sb_retain sb)
    (sb_reserved0 sb) (sb_boot_id sb) (sb_zero sb) (block_crc (enc_super sb)).

(** "format" *)
Definition format_label : list Z := [102; 111; 114; 109; 97; 116].

Definition format_root (store_id retain boot_id : Z) : st_root :=
  let r := mk_root ST_ROOT_MAGIC 1 0 store_id 1 boot_id 0 0 0 1 retain 0
             (str_copy 16 format_label) (replicate 40 0) (replicate 8 zero_ref)
             (replicate 4 zero_pin)
             ((replicate 16 zero_log).[0 := mk_log 1 boot_id (str_copy 16 format_label)])
             (replicate 49 zero_obj) (replicate 60 0) 0 in
  set_crc r (block_crc (enc_root r)).

Definition st_format (x : io) (blocks store_id retain boot_id : Z) : st_error * io :=
  if (blocks <? ST_MIN_BLOCKS) || (blocks >? ST_MAX_BLOCKS) then (ST_E_FORMAT, x)
  else if (retain <? ST_RETAIN_MIN) || (retain >? ST_RETAIN_MAX) then (ST_E_FORMAT, x)
  else
    let r := format_root store_id retain boot_id in
    let sb := make_super r ST_FIRST_DATA blocks in
    match dev_write blocks x ST_FIRST_DATA [enc_root r] with
    | (ST_OK, x) =>
        match dev_write blocks x 1 [zero_block] with
        | (ST_OK, x) =>
            match dev_flush x with
            | (ST_OK, x) =>
                match dev_write blocks x 0 [enc_super sb] with
                | (ST_OK, x) => dev_flush x
                | e => e
                end
            | e => e
            end
        | e => e
        end
    | e => e
    end.

Definition no_slot (st : st_slot_state) : slot_info := mk_slot st 0 0 0 0 0.

(** What [read_slot] makes of the block it has read. *)
Definition slot_of_block (blocks : Z) (b : list Z) : slot_info :=
  let sb := dec_super b in
  if negb (bool_decide (sb_magic sb = ST_SUPER_MAGIC)) then no_slot ST_SLOT_EMPTY
  else if negb (block_crc b =? sb_crc sb) then no_slot ST_SLOT_BAD_CRC
  else
    let st := if negb (sb_version sb =? ST_VERSION) || negb (sb_block_size sb =? ST_BLOCK) ||
                 (sb_gen sb =? 0) || (sb_block_count sb <? ST_MIN_BLOCKS) ||
                 (sb_block_count sb >? blocks)
              then ST_SLOT_BAD_HEADER else ST_SLOT_OLDER in
    mk_slot st (sb_gen sb) (sb_store_id sb) (sb_block_count sb) (sb_root_blk sb) (sb_root_crc sb).

Definition read_slot (blocks : Z) (x : io) (slot : Z) : slot_info * io :=
  let '(r, d) := bd_read (io_dev x) slot in
  match r with
  | None => (no_slot ST_SLOT_BAD_CRC, mk_io d (io_reads x) (io_writes x) (io_flushes x))
  | Some b =>
      (slot_of_block blocks b, mk_io d (u64 (io_reads x + 1)) (io_writes x) (io_flushes x))
  end.

(** Verifies the objects of a root one after the other. *)
Fixpoint verify_objs (blocks : Z) (x : io) (objs : list st_obj) : bool * io :=
  match objs with
  | [] => (true, x)
  | o :: objs' =>
      match verify_extent blocks x o 0 with
      | (ST_OK, _, x) => verify_objs blocks x objs'
      | (_, _, x) => (false, x)
      end
  end.

(** The objects of a root that are in use. *)
Definition objs (r : st_root) : list st_obj := take (Z.to_nat (rt_nobj r)) (rt_obj r).

(** The state, the root read into [s->cur] and the device size in effect
    afterwards ([saved_blocks] restored on failure). *)
Definition try_slot (s : store) (x : io) (si : slot_info) : st_slot_state * st_root * Z * io :=
  if flag s ST_TEST_NO_VERIFY then
    if (si_root_blk si <? ST_FIRST_DATA) || (si_root_blk si >=? si_blocks si)
    then (ST_SLOT_BAD_ROOT, s_cur s, s_blocks s, x)
    else
      match dev_read (si_blocks si) x (si_root_blk si) with
      | (ST_OK, b, x) => (ST_SLOT_CURRENT, dec_root b, si_blocks si, x)
      | (_, _, x) => (ST_SLOT_BAD_ROOT, s_cur s, s_blocks s, x)
      end
  else
    match load_root (si_blocks si) x (si_root_blk si) (si_gen si) (si_root_crc si) with
    | (ST_OK, r, x) =>
        if negb (rt_store_id r =? si_store_id si) then (ST_SLOT_BAD_ROOT, r, s_blocks s, x)
        else
          let '(ok, x) := verify_objs (si_blocks si) x (objs r) in
          if ok then (ST_SLOT_CURRENT, r, si_blocks si, x)
          else (ST_SLOT_BAD_DATA, r, s_blocks s, x)
    | (_, r, x) => (ST_SLOT_BAD_ROOT, r, s_blocks s, x)
    end.

(** [si->gen] of a slot whose superblock checksum is right, 0 otherwise. *)
Definition slot_gen (si : slot_info) : Z :=
  if bool_decide (si_state si = ST_SLOT_OLDER) || bool_decide (si_state si = ST_SLOT_BAD_HEADER)
  then si_gen si else 0.

Definition set_slot_state (si : slot_info) (st : st_slot_state) : slot_info :=
  mk_slot st (si_gen si) (si_store_id si) (si_blocks si) (si_root_blk si) (si_root_crc si).

Definition st_mount (x : io) (dev_blocks boot_id flags : Z) : st_error * store * io :=
  let s0 := mk_store dev_blocks flags false false false false 0 0 0 boot_id zero_root zero_root
              empty_map empty_map zero_report 0 in
  if dev_blocks <? ST_MIN_BLOCKS then (ST_E_FORMAT, s0, x)
  else
    let blocks := if dev_blocks >? ST_MAX_BLOCKS then ST_MAX_BLOCKS else dev_blocks in
    let '(si0, x) := read_slot blocks x 0 in
    let '(si1, x) := read_slot blocks x 1 in
    let gens := (slot_gen si0, slot_gen si1) in
    let max_gen := Z.max (slot_gen si0) (slot_gen si1) in
    (* Newest candidate first; slot A wins a tie. *)
    let swap := bool_decide (si_state si1 = ST_SLOT_OLDER) &&
                (negb (bool_decide (si_state si0 = ST_SLOT_OLDER)) || (si_gen si1 >? si_gen si0)) in
    let i := if swap then 1 else 0 in
    let '(sa, sb) := if swap then (si1, si0) else (si0, si1) in
    let st (mounted : Z) (blocks : Z) (cur : st_root) (cur_blk : Z) rep :=
      mk_store blocks flags false false false false mounted cur_blk max_gen boot_id cur zero_root
        empty_map empty_map rep 0 in
    let states a b := if swap then (b, a) else (a, b) in
    let s1 := st 0 blocks zero_root 0 zero_report in
    (* first slot in the order *)
    let '(sa', cur, blocks, x) :=
      if bool_decide (si_state sa = ST_SLOT_OLDER)
      then let '(r, cur, blocks, x) := try_slot s1 x sa in (set_slot_state sa r, cur, blocks, x)
      else (sa, zero_root, blocks, x) in
    let mounted_a := bool_decide (si_state sa' = ST_SLOT_CURRENT) in
    let rejected_a := bool_decide (si_state sa = ST_SLOT_OLDER) && negb mounted_a in
    (* second slot *)
    let '(sb', cur, blocks, x) :=
      if bool_decide (si_state sb = ST_SLOT_OLDER) && negb mounted_a
      then let '(r, cur, blocks, x) := try_slot (st 0 blocks cur 0 zero_report) x sb in
           (set_slot_state sb r, cur, blocks, x)
      else (sb, cur, blocks, x) in
    let mounted_b := negb mounted_a && bool_decide (si_state sb' = ST_SLOT_CURRENT) in
    let rejected_b := bool_decide (si_state sb = ST_SLOT_OLDER) && negb mounted_a && negb mounted_b in
    let fallback := rejected_a || rejected_b in
    let '(rej_gen, rej_state) :=
      if rejected_a then (si_gen sa, si_state sa')
      else if rejected_b then (si_gen sb, si_state sb') else (0, ST_SLOT_EMPTY) in
    let rep slot gen fb := mk_report (states (si_state sa') (si_state sb')) gens slot gen max_gen
                             fb rej_gen rej_state 0 in
    if negb (mounted_a || mounted_b)
    then (ST_E_NOROOT, st 0 blocks cur 0 (rep (-1) 0 fallback), x)
    else
      let slot := if mounted_a then i else 1 - i in
      let blk := if mounted_a then si_root_blk sa else si_root_blk sb in
      let fallback := fallback && negb (rej_gen <? rt_gen cur) in
      let s2 := st slot blocks cur blk (rep slot (rt_gen cur) fallback) in
      let '(damaged, s3, x) := recompute_used s2 x in
      let r := s_rep s3 in
      (ST_OK,
       mk_store (s_blocks s3) (s_flags s3) true false false false (s_cur_slot s3) (s_cur_blk s3)
         (s_max_gen s3) (s_boot_id s3) (s_cur s3) (s_work s3) (s_used s3) (s_txused s3)
         (mk_report (rp_slot_state r) (rp_slot_gen r) (rp_slot r) (rp_gen r) (rp_max_gen r)
            (rp_fallback r) (rp_rejected_gen r) (rp_rejected_state r) damaged) 0, x).

(** ** Transactions *)

Definition st_next_gen (s : store) : Z := u64 (s_max_gen s + 1).

Definition st_begin (s : store) : st_error * store :=
  if negb (s_mounted s) || s_in_tx s then (ST_E_STATE, s)
  else (ST_OK, set_work (set_tx s true false false empty_map) (s_cur s)).

Definition st_abort (s : store) : store := set_tx s false false false empty_map.

(** Index of the object called [name], -1 if there is none. *)
Definition find_index (r : st_root) (name : list Z) : Z :=
  match find_first (fun i => str_eq (o_name (rt_obj r).[i]) name) (seqZ 0 (rt_nobj r)) with
  | Some i => i
  | None => -1
  end.

Definition st_find (r : st_root) (name : list Z) : option st_obj :=
  let i := find_index r name in if i <? 0 then None else Some (rt_obj r).[i].

(** Block [i] of the data, as written by [st_put]: the last one is zero-filled. *)
Definition data_block (data : list Z) (i : Z) : list Z :=
  let b := take 4096 (drop (Z.to_nat (i * ST_BLOCK)) data) in
  b ++ replicate (4096 - length b) 0.

(** Writes the data of an object to its extent: the full blocks in one write,
    then the zero-filled last one. *)
Definition write_extent (s : store) (x : io) (blk nblk : Z) (data : list Z) : st_error * io :=
  let len := Z.of_nat (length data) in
  let full := len / ST_BLOCK in
  let '(st, x) :=
    if negb (full =? 0)
    then dev_write (s_blocks s) x blk (data_block data <$> seqZ 0 full) else (ST_OK, x) in
  if is_ok st && (full <? nblk)
  then dev_write (s_blocks s) x (blk + full) [data_block data full]
  else (st, x).

(** The object table after a put: a new entry, or the next version of entry [idx]. *)
Definition put_entry (s : store) (w : st_root) (idx : Z) (name : list Z)
    (kind blk nblk : Z) (data : list Z) : st_root :=
  let len := Z.of_nat (length data) in
  if idx <? 0 then
    set_objs w (u64 (rt_next_oid w + 1)) (u32 (rt_nobj w + 1))
      (rt_obj w).[rt_nobj w := mk_obj (rt_next_oid w) (st_next_gen s) 1 blk len (nx_crc32 data)
                                 kind (u16 nblk) (str_copy 28 name)]
  else
    let o := (rt_obj w).[idx] in
    set_objs w (rt_next_oid w) (rt_nobj w)
      (rt_obj w).[idx := mk_obj (o_oid o) (st_next_gen s) (u32 (o_version o + 1)) blk len
                           (nx_crc32 data) kind (u16 nblk) (o_name o)].

Definition st_put (s : store) (x : io) (name : list Z) (kind : Z) (data : list Z)
    : st_error * store * io :=
  let len := Z.of_nat (length data) in
  if negb (s_mounted s) || negb (s_in_tx s) then (ST_E_STATE, s, x)
  else if negb (st_name_ok name) then (ST_E_NAME, s, x)
  else if len >? ST_OBJ_MAX_BYTES then (ST_E_TOOBIG, s, x)
  else
    let w := s_work s in
    let idx := find_index w name in
    if (idx <? 0) && (rt_nobj w =? ST_OBJ_MAX) then (ST_E_OBJFULL, s, x)
    else
      let nblk := nblk_for len in
      if negb (nblk =? 0) then
        let '(blk, s) := alloc s nblk (s_tx_reserve s) in
        if blk =? 0 then (ST_E_NOSPC, s, x)
        else
          match write_extent s x blk nblk data with
          | (ST_OK, x) => (ST_OK, set_work s (put_entry s w idx name kind blk nblk data), x)
          | (st, x) => (st, s, x)
          end
      else (ST_OK, set_work s (put_entry s w idx name kind 0 nblk data), x).

(** Entries after [idx] move down by one, the last slot is cleared. *)
Definition del_at {A} (idx n : Z) (zero : A) (l : list A) : list A :=
  take (Z.to_nat idx) l ++ drop (Z.to_nat (idx + 1)) (take (Z.to_nat n) l) ++
  [zero] ++ drop (Z.to_nat n) l.

Definition st_del (s : store) (name : list Z) : st_error * store :=
  if negb (s_mounted s) || negb (s_in_tx s) then (ST_E_STATE, s)
  else
    let w := s_work s in
    let idx := find_index w name in
    if idx <? 0 then (ST_E_NOTFOUND, s)
    else (ST_OK, set_work s (set_objs w (rt_next_oid w) (rt_nobj w - 1)
                               (del_at idx (rt_nobj w) zero_obj (rt_obj w)))).

Definition find_ref (s : store) (gen : Z) : option st_ref :=
  let r := s_cur s in
  if gen =? rt_gen r then Some (mk_ref (rt_gen r) (s_cur_blk s) (rt_crc r))
  else
    match find_first (fun i => ref_gen (rt_hist r).[i] =? gen) (seqZ 0 (rt_nhist r)) with
    | Some i => Some (rt_hist r).[i]
    | None =>
        match find_first (fun i => ref_gen (pin_ref (rt_pin r).[i]) =? gen)
                (seqZ 0 (rt_npin r)) with
        | Some i => Some (pin_ref (rt_pin r).[i])
        | None => None
        end
    end.

Definition st_is_retained (s : store) (gen : Z) : bool :=
  s_mounted s && match find_ref s gen with Some _ => true | None => false end.

(** First pin called [name]. *)
Definition find_pin (w : st_root) (name : list Z) : option Z :=
  find_first (fun i => str_eq (pin_name (rt_pin w).[i]) name) (seqZ 0 (rt_npin w)).

Definition st_pin (s : store) (pin : list Z) (gen : Z) : st_error * store :=
  if negb (s_mounted s) || negb (s_in_tx s) then (ST_E_STATE, s)
  else if negb (st_pin_name_ok pin) then (ST_E_NAME, s)
  else
    let w := s_work s in
    match find_pin w pin with
    | Some _ => (ST_E_EXISTS, s)
    | None =>
        if rt_npin w =? ST_PIN_MAX then (ST_E_PINFULL, s)
        else
          match find_ref s gen with
          | None => (ST_E_PRUNED, s)
          | Some ref =>
              (ST_OK, set_work s (set_pins w (rt_npin w + 1)
                 (rt_pin w).[rt_npin w := mk_pin (str_copy 16 pin) ref]))
          end
    end.

Definition st_unpin (s : store) (pin : list Z) : st_error * store :=
  if negb (s_mounted s) || negb (s_in_tx s) then (ST_E_STATE, s)
  else
    let w := s_work s in
    match find_pin w pin with
    | Some i => (ST_OK, set_work s (set_pins w (rt_npin w - 1)
                                      (del_at i (rt_npin w) zero_pin (rt_pin w))))
    | None => (ST_E_NOTFOUND, s)
    end.

Definition st_prune (s : store) : store :=
  if s_in_tx s then set_tx s (s_in_tx s) true (s_tx_reserve s) (s_txused s) else s.

Definition st_allow_reserve (s : store) : store :=
  if s_in_tx s then set_tx s (s_in_tx s) (s_tx_prune s) true (s_txused s) else s.

(** ** Commit *)

(** [l] padded with [zero] to [n] entries. *)
Definition pad_to {A} (n : nat) (zero : A) (l : list A) : list A :=
  l ++ replicate (n - length l) zero.

(** History of the new root: the current generation, then the retained ones of
    the current root up to [keep] entries. *)
Definition commit_hist (s : store) (keep : Z) : list st_ref :=
  mk_ref (rt_gen (s_cur s)) (s_cur_blk s) (rt_crc (s_cur s)) ::
  take (Z.to_nat (keep - 1)) (take (Z.to_nat (rt_nhist (s_cur s))) (rt_hist (s_cur s))).

Definition commit_log (s : store) (gen : Z) (label : list Z) : list st_log :=
  mk_log gen (s_boot_id s) (str_copy 16 label) ::
  take (Z.to_nat (ST_LOG_MAX - 1)) (take (Z.to_nat (rt_nlog (s_cur s))) (rt_log (s_cur s))).

(** The root of the new generation, its checksum still that of the work root. *)
Definition commit_root (s : store) (label : list Z) : st_root :=
  let w := s_work s in
  let gen := st_next_gen s in
  let keep := u32 ((if s_tx_prune s then ST_RETAIN_MIN else rt_retain (s_cur s)) - 1) in
  let hist := commit_hist s keep in
  let log := commit_log s gen label in
  mk_root (rt_magic w) gen (rt_gen (s_cur s)) (rt_store_id w) (rt_next_oid w) (s_boot_id s)
    (rt_nobj w) (Z.of_nat (length hist)) (rt_npin w) (Z.of_nat (length log)) (rt_retain w) 0
    (str_copy 16 label) (rt_reserved w) (pad_to 8 zero_ref hist) (rt_pin w)
    (pad_to 16 zero_log log) (rt_obj w) (rt_pad w) (rt_crc w).

(** Steps 1 and 2: the root, then the barrier. *)
Definition commit_barrier (s : store) (x : io) (blk : Z) (w : st_root) : st_error * io :=
  match dev_write (s_blocks s) x blk [enc_root w] with
  | (ST_OK, x) => if flag s ST_TEST_NO_BARRIER then (ST_OK, x) else dev_flush x
  | e => e
  end.

(** Steps 3 and 4: the superblock, then the final flush. *)
Definition commit_publish (s : store) (x : io) (blk slot : Z) (w : st_root) : st_error * io :=
  match dev_write (s_blocks s) x slot [enc_super (make_super w blk (s_blocks s))] with
  | (ST_OK, x) => if flag s ST_TEST_NO_FINAL_FLUSH then (ST_OK, x) else dev_flush x
  | e => e
  end.

(** The committed generation is the second component, 0 on failure. *)
Definition st_commit (s : store) (x : io) (label : list Z) : st_error * Z * store * io :=
  if negb (s_mounted s) || negb (s_in_tx s) then (ST_E_STATE, 0, s, x)
  else if negb (st_label_ok label) then (ST_E_NAME, 0, st_abort s, x)
  else
    let gen := st_next_gen s in
    let w := commit_root s label in
    let '(blk, s) := alloc (set_work s w) 1 true in
    if blk =? 0 then (ST_E_NOSPC, 0, st_abort s, x)
    else
      let w := set_crc w (block_crc (enc_root w)) in
      let s := set_work s w in
      let '(st, x) := commit_barrier s x blk w in
      if negb (is_ok st) then (ST_E_IO, 0, st_abort s, x)
      else
        let slot := if flag s ST_TEST_SAME_SLOT then 0 else 1 - s_cur_slot s in
        let '(st, x) := commit_publish s x blk slot w in
        if negb (is_ok st) then (ST_E_UNKNOWN, 0, set_mounted (st_abort s) false, x)
        else
          let s := mk_store (s_blocks s) (s_flags s) (s_mounted s) false false false slot blk gen
                     (s_boot_id s) w w (s_used s) empty_map (s_rep s) (u64 (s_commits s + 1)) in
          let '(_, s, x) := recompute_used s x in
          (ST_OK, gen, s, x).

(** ** Reading *)

Definition st_root_of (s : store) (x : io) (gen : Z) : st_error * st_root * io :=
  if negb (s_mounted s) then (ST_E_STATE, zero_root, x)
  else
    match find_ref s gen with
    | None => (ST_E_PRUNED, zero_root, x)
    | Some ref =>
        if gen =? rt_gen (s_cur s) then (ST_OK, s_cur s, x)
        else load_root (s_blocks s) x (ref_blk ref) (ref_gen ref) (ref_crc ref)
    end.

(** Status, the bytes stored in [buf] and the object's metadata. *)
Definition st_read (s : store) (x : io) (gen : Z) (name : list Z) (cap : Z)
    : st_error * list Z * option st_obj * io :=
  if negb (s_mounted s) then (ST_E_STATE, [], None, x)
  else
    let '(st, r, x) :=
      if negb (gen =? 0) && negb (gen =? rt_gen (s_cur s)) then st_root_of s x gen
      else (ST_OK, s_cur s, x) in
    if negb (is_ok st) then (st, [], None, x)
    else
      match st_find r name with
      | None => (ST_E_NOTFOUND, [], None, x)
      | Some o =>
          if o_len o >? cap then (ST_E_TOOBIG, [], Some o, x)
          else
            let '(st, out, x) := verify_extent (s_blocks s) x o cap in (st, out, Some o, x)
      end.

(** ** Consistency check *)

Definition problem (r : st_check_report) (what : st_problem) (v : Z) : st_check_report :=
  mk_check (ck_roots r) (ck_objects r) (ck_extents r) (ck_used_blocks r) (ck_free_blocks r)
    (ck_problems r + 1) (if ck_problems r =? 0 then Some (what, v) else ck_first r).

Definition ST_CHECK_EXTENTS_MAX : Z := (1 + ST_HIST_MAX + ST_PIN_MAX) * ST_OBJ_MAX.

Definition add_extent (ext : list st_extent) (r : st_check_report) (blk nblk crc oid owner : Z)
    : list st_extent * st_check_report :=
  if existsb (fun e => (e_blk e =? blk) && (e_nblk e =? nblk) && (e_crc e =? crc) &&
                       (e_oid e =? oid)) ext
  then (ext, r)
  else if Z.of_nat (length ext) =? ST_CHECK_EXTENTS_MAX
  then (ext, problem r P_too_many_extents (Z.of_nat (length ext)))
  else (ext ++ [mk_extent blk nblk crc owner oid], r).

(** The references to check: the current root, its history and pins, each once. *)
Definition check_refs (s : store) : list st_ref :=
  for_each (seqZ 0 (rt_nhist (s_cur s) + rt_npin (s_cur s)))
    (fun refs i =>
       let ref := nth_ref (s_cur s) i in
       if existsb (fun r => (ref_gen r =? ref_gen ref) && (ref_blk r =? ref_blk ref)) refs
       then refs else refs ++ [ref])
    [mk_ref (rt_gen (s_cur s)) (s_cur_blk s) (rt_crc (s_cur s))].

(** One object of root number [k]. *)
Definition check_obj (blocks k : Z) (a : list st_extent * st_check_report * io) (o : st_obj)
    : list st_extent * st_check_report * io :=
  let '(ext, r, x) := a in
  let r := mk_check (ck_roots r) (ck_objects r + 1) (ck_extents r) (ck_used_blocks r)
             (ck_free_blocks r) (ck_problems r) (ck_first r) in
  let '(st, _, x) := verify_extent blocks x o 0 in
  let r := if is_ok st then r else problem r P_extent_crc_oid (o_oid o) in
  let '(ext, r) :=
    if negb (o_nblk o =? 0)
    then add_extent ext r (o_blk o) (o_nblk o) (o_crc o) (o_oid o) k else (ext, r) in
  (ext, r, x).

Definition check_root (s : store) (refs : list st_ref)
    (a : list st_extent * st_check_report * io) (k : Z)
    : list st_extent * st_check_report * io :=
  let '(ext, r, x) := a in
  let ref := refs.[k] in
  match load_root (s_blocks s) x (ref_blk ref) (ref_gen ref) (ref_crc ref) with
  | (ST_OK, t, x) =>
      let r := if (k =? 0) && negb (bool_decide (t = s_cur s))
               then problem r P_current_root_differs_on_disk_gen (ref_gen ref) else r in
      let r := mk_check (ck_roots r + 1) (ck_objects r) (ck_extents r) (ck_used_blocks r)
                 (ck_free_blocks r) (ck_problems r) (ck_first r) in
      let '(ext, r) := add_extent ext r (ref_blk ref) 1 (ref_crc ref) 0 k in
      for_each (objs t) (check_obj (s_blocks s) k) (ext, r, x)
  | (_, _, x) => (ext, problem r P_root_invalid_gen (ref_gen ref), x)
  end.

(** Extent [i] overlaps no later one and its blocks are marked used. *)
Definition check_extent (used : list Z) (ext : list st_extent) (r : st_check_report) (i : Z)
    : st_check_report :=
  let a := ext.[i] in
  let n := Z.of_nat (length ext) in
  let r := for_each (seqZ (i + 1) (n - (i + 1)))
             (fun r j => if overlap (e_blk a) (e_nblk a) (e_blk ext.[j]) (e_nblk ext.[j])
                         then problem r P_overlapping_extents_at_block (e_blk a) else r) r in
  for_each (seqZ 0 (e_nblk a))
    (fun r b => if negb (bit_get used (e_blk a + b))
                then problem r P_referenced_block_not_marked_used (e_blk a + b) else r) r.

(** A used block belongs to some extent. *)
Definition check_block (used : list Z) (ext : list st_extent) (r : st_check_report) (b : Z)
    : st_check_report :=
  if negb (bit_get used b) then r
  else
    let r := mk_check (ck_roots r) (ck_objects r) (ck_extents r) (ck_used_blocks r + 1)
               (ck_free_blocks r) (ck_problems r) (ck_first r) in
    if existsb (fun e => (b >=? e_blk e) && (b <? e_blk e + e_nblk e)) ext then r
    else problem r P_used_block_not_referenced b.

Definition st_check (s : store) (x : io) : st_error * st_check_report * io :=
  let r := mk_check 0 0 0 0 0 0 None in
  if negb (s_mounted s) then (ST_E_CORRUPT, problem r P_not_mounted 0, x)
  else
    let '(st, b, x) := dev_read (s_blocks s) x (s_cur_slot s) in
    let sb := dec_super b in
    let r := if negb (is_ok st) || negb (block_crc b =? sb_crc sb) ||
                negb (bool_decide (sb_magic sb = ST_SUPER_MAGIC)) ||
                negb (sb_gen sb =? rt_gen (s_cur s)) || negb (sb_root_blk sb =? s_cur_blk s) ||
                negb (sb_root_crc sb =? rt_crc (s_cur s))
             then problem r P_superblock_mismatch_slot (s_cur_slot s) else r in
    let refs := check_refs s in
    let '(ext, r, x) :=
      for_each (seqZ 0 (Z.of_nat (length refs))) (check_root s refs) ([], r, x) in
    let r := mk_check (ck_roots r) (ck_objects r) (Z.of_nat (length ext)) (ck_used_blocks r)
               (ck_free_blocks r) (ck_problems r) (ck_first r) in
    let r := for_each (seqZ 0 (Z.of_nat (length ext))) (check_extent (s_used s) ext) r in
    let r := for_each (seqZ ST_FIRST_DATA (s_blocks s - ST_FIRST_DATA))
               (check_block (s_used s) ext) r in
    let r := mk_check (ck_roots r) (ck_objects r) (ck_extents r) (ck_used_blocks r)
               (st_free_blocks s) (ck_problems r) (ck_first r) in
    (if negb (ck_problems r =? 0) then ST_E_CORRUPT else ST_OK, r, x).

End operations.

Arguments io : clear implicits.
