(* ===== verification/StoreDev.v ===== *)
(** * nxstore: the block device contract

    What [lib/store.c] relies on from its device ([struct st_dev] in
    [lib/include/nanox/store.h]: "write() may be volatile until flush() returns, a
    write-back cache that persists unflushed writes in any order or not at all")
    as the class [StDevLaws], and a write-back cache with injected faults that
    satisfies it. *)
From S2P Require Import Prelude Bytes Bitmap Crc32 StoreFmt Store.

(** A block whose write was cut short: it does not carry its own checksum. *)
Definition torn (b : list Z) : Prop := block_crc b <> sb_crc (dec_super b).

(** Content [b] may be left of a write of the block [c] that power failure interrupts: [c]
    itself, a block that begins with the first sector of [c] (the device wrote some of its
    sectors), or a torn one.  Nothing is promised for a [c] shorter than a sector, which is
    not a block. *)
Definition leaves (c b : list Z) : Prop := (length c < 512)%nat \/ take 512 b = take 512 c \/ torn b.

(** Block [x] lies in a write of [n] blocks from [b] on. *)
Definition in_write (b n x : Z) : Prop := b <= x < b + n.

(** [bd_view] is what reads return; [bd_durable d img] says that [img] can be on
    the medium when power fails in state [d]; a [bd_readable] device has no read
    errors below its capacity (as far as a store can use it).  Writes and flushes may fail at
    any time, a device that lost power being one where they all do. *)
Class StDevLaws (D : Type) `{!st_dev D} := {
  bd_view : D -> Z -> list Z;
  bd_durable : D -> (Z -> list Z) -> Prop;
  bd_readable : D -> Prop;
  bd_capacity : Z;
  bd_capacity_max : bd_capacity <= ST_MAX_BLOCKS;
  bd_read_some d b c d' : bd_read d b = (Some c, d') -> c = bd_view d b;
  bd_read_view d b x : bd_view (bd_read d b).2 x = bd_view d x;
  bd_read_durable d b img : bd_durable (bd_read d b).2 img -> bd_durable d img;
  bd_read_ok d b : bd_readable d -> 0 <= b < bd_capacity -> is_Some (bd_read d b).1;
  bd_read_readable d b : bd_readable d -> bd_readable (bd_read d b).2;
  bd_write_view_in d b bs x :
    (bd_write d b bs).1 = true -> in_write b (Z.of_nat (length bs)) x ->
    bd_view (bd_write d b bs).2 x = bs.[x - b];
  bd_write_view_out d b bs x :
    ~ in_write b (Z.of_nat (length bs)) x ->
    bd_view (bd_write d b bs).2 x = bd_view d x;
  bd_write_durable d b bs img :
    bd_durable (bd_write d b bs).2 img ->
    exists img0, bd_durable d img0 /\ forall x,
      img x = img0 x \/
      (in_write b (Z.of_nat (length bs)) x /\ leaves bs.[x - b] (img x));
  bd_write_readable d b bs : bd_readable d -> bd_readable (bd_write d b bs).2;
  bd_flush_view d x : bd_view (bd_flush d).2 x = bd_view d x;
  bd_flush_durable d img :
    bd_durable (bd_flush d).2 img ->
    if (bd_flush d).1 then forall x, img x = bd_view d x else bd_durable d img;
  bd_flush_readable d : bd_readable d -> bd_readable (bd_flush d).2;
}.
Arguments bd_capacity D {_ _}.

(** ** A write-back cache *)

(** The medium, the cached writes (newest first) and one flag per future read,
    write and flush ([true]: it fails; past the end of a plan nothing fails). *)
Record wb_dev := mk_wb {
  wb_disk : gmap Z (list Z);
  wb_cache : list (Z * list Z);
  wb_rfail : list bool;
  wb_wfail : list bool;
  wb_ffail : list bool;
}.

Definition disk_block (m : gmap Z (list Z)) (x : Z) : list Z := default (replicate 4096 0) (m !! x).

Fixpoint cache_block (c : list (Z * list Z)) (x : Z) (b : list Z) : list Z :=
  match c with
  | [] => b
  | (y, b') :: c' => if y =? x then b' else cache_block c' x b
  end.

Definition wb_view (d : wb_dev) (x : Z) : list Z := cache_block (wb_cache d) x (disk_block (wb_disk d) x).

Definition wb_read (d : wb_dev) (b : Z) : option (list Z) * wb_dev :=
  (if hd false (wb_rfail d) then None else Some (wb_view d b),
   mk_wb (wb_disk d) (wb_cache d) (tl (wb_rfail d)) (wb_wfail d) (wb_ffail d)).

(** A failing write still caches its first block. *)
Definition wb_write (d : wb_dev) (b : Z) (bs : list (list Z)) : bool * wb_dev :=
  let fail := hd false (wb_wfail d) in
  let c := imap (fun i c => (b + Z.of_nat i, c)) (if fail then take 1 bs else bs) in
  (negb fail, mk_wb (wb_disk d) (c ++ wb_cache d) (wb_rfail d) (tl (wb_wfail d)) (wb_ffail d)).

Definition wb_flush (d : wb_dev) : bool * wb_dev :=
  if hd false (wb_ffail d)
  then (false, mk_wb (wb_disk d) (wb_cache d) (wb_rfail d) (wb_wfail d) (tl (wb_ffail d)))
  else (true, mk_wb (foldr (fun '(x, b) m => <[x := b]> m) (wb_disk d) (wb_cache d)) []
                (wb_rfail d) (wb_wfail d) (tl (wb_ffail d))).

#[export] Instance wb_st_dev : st_dev wb_dev :=
  { bd_read := wb_read; bd_write := wb_write; bd_flush := wb_flush }.

(** Content [b] is possible for block [x] after power loss. *)
Definition wb_possible (d : wb_dev) (x : Z) (b : list Z) : Prop :=
  b = disk_block (wb_disk d) x \/ Exists (fun e => e.1 = x /\ leaves e.2 b) (wb_cache d).

#[export] Instance torn_decision b : Decision (torn b).
Proof. unfold torn. apply _. Defined.
#[export] Instance leaves_decision c b : Decision (leaves c b).
Proof. unfold leaves. apply _. Defined.
#[export] Instance wb_possible_decision d x b : Decision (wb_possible d x b).
Proof. unfold wb_possible. apply _. Defined.

Definition wb_durable (d : wb_dev) (img : Z -> list Z) : Prop := forall x, wb_possible d x (img x).

Definition wb_readable (d : wb_dev) : Prop := Forall (fun f => f = false) (wb_rfail d).

(** ** Lemmas *)

Lemma cache_block_flush c m x :
  disk_block (foldr (fun '(x, b) m => <[x := b]> m) m c) x = cache_block c x (disk_block m x).
Proof.
  induction c as [|[y b] c IH]; [done|]. simpl. destruct (Z.eqb_spec y x) as [->|Hne].
  - unfold disk_block. by rewrite lookup_insert_eq.
  - unfold disk_block in *. by rewrite lookup_insert_ne.
Qed.

Lemma cache_block_app c1 c2 x b : cache_block (c1 ++ c2) x b = cache_block c1 x (cache_block c2 x b).
Proof. induction c1 as [|[y b'] c1 IH]; [done|]. simpl. by destruct (y =? x). Qed.

Lemma imap_cache_elem b (bs : list (list Z)) x c :
  (x, c) ∈ imap (fun i c => (b + Z.of_nat i, c)) bs ->
  in_write b (Z.of_nat (length bs)) x /\ c = bs.[x - b].
Proof.
  rewrite list_elem_of_lookup. intros (i & Hi). rewrite list_lookup_imap in Hi.
  destruct (bs !! i) as [c'|] eqn:E; [|done]. simpl in Hi. injection Hi as <- <-.
  pose proof (lookup_lt_Some _ _ _ E). unfold in_write. split; [lia|].
  rewrite list_lookup_total_alt. replace (Z.to_nat _) with i by lia. by rewrite E.
Qed.

Lemma imap_cache_in b (bs : list (list Z)) x c0 :
  in_write b (Z.of_nat (length bs)) x ->
  cache_block (imap (fun i c => (b + Z.of_nat i, c)) bs) x c0 = bs.[x - b].
Proof.
  revert b. induction bs as [|c bs IH]; intros b [H1 H2]; [simpl in H2; lia|].
  simpl. destruct (Z.eqb_spec (b + Z.of_nat 0) x) as [He|Hne].
  - replace (x - b) with 0 by lia. done.
  - rewrite (imap_ext _ (fun i c => (b + 1 + Z.of_nat i, c))).
    2:{ intros i y _. simpl. f_equal. lia. }
    rewrite IH by (unfold in_write; simpl in H2; lia).
    replace (x - b) with (x - (b + 1) + 1) by lia.
    rewrite Z2Nat.inj_add by lia. change (Z.to_nat 1) with 1%nat.
    rewrite Nat.add_comm. done.
Qed.

Lemma imap_cache_out b (bs : list (list Z)) x c0 :
  ~ in_write b (Z.of_nat (length bs)) x ->
  cache_block (imap (fun i c => (b + Z.of_nat i, c)) bs) x c0 = c0.
Proof.
  revert b. induction bs as [|c bs IH]; intros b Hn; [done|]. unfold in_write in *. simpl in *.
  destruct (Z.eqb_spec (b + Z.of_nat 0) x) as [He|Hne]; [lia|].
  rewrite (imap_ext _ (fun i c => (b + 1 + Z.of_nat i, c))).
  2:{ intros i y _. simpl. f_equal. lia. }
  apply IH. lia.
Qed.

Lemma wb_write_durable d b bs img :
  wb_durable (wb_write d b bs).2 img ->
  exists img0, wb_durable d img0 /\ forall x,
    img x = img0 x \/
    (in_write b (Z.of_nat (length bs)) x /\ leaves bs.[x - b] (img x)).
Proof.
  intros Hd. exists (fun x => if decide (wb_possible d x (img x)) then img x
                              else disk_block (wb_disk d) x). split.
  - intros x. case_decide; [done|by left].
  - intros x. case_decide as Hp; [by left|right]. specialize (Hd x).
    unfold wb_possible in Hd, Hp. simpl in Hd.
    set (bs' := if hd false (wb_wfail d) then take 1 bs else bs) in *.
    destruct Hd as [Hd|Hd]; [tauto|]. apply Exists_app in Hd as [Hd|Hd]; [|tauto].
    apply Exists_exists in Hd as ([y c] & Hyc & Hx & Hl). simpl in Hx, Hl. subst y.
    apply imap_cache_elem in Hyc as [Hin ->]. unfold in_write, bs' in *.
    destruct (hd _ _); [|done]. rewrite length_take in Hin. split; [lia|].
    replace (x - b) with 0 in * by lia. by destruct bs.
Qed.

(** The write-back cache satisfies the contract. *)
#[export] Instance wb_laws : StDevLaws wb_dev.
Proof.
  refine {| bd_view := wb_view; bd_durable := wb_durable; bd_readable := wb_readable; bd_capacity := ST_MAX_BLOCKS |}.
  - done.
  - intros d b c d'. simpl. unfold wb_read. destruct (hd false _); congruence.
  - done.
  - done.
  - intros d b Hr _. simpl. unfold wb_readable in *. destruct (wb_rfail d) as [|f l]; simpl; [done|].
    by apply Forall_cons in Hr as [-> _].
  - intros d b Hr. simpl. unfold wb_readable in *. destruct (wb_rfail d) as [|f l]; simpl; [done|].
    by apply Forall_cons in Hr as [_ Hr].
  - intros d b bs x. simpl. intros Hok Hin. unfold wb_view. simpl.
    apply negb_true_iff in Hok. rewrite Hok, cache_block_app. by apply imap_cache_in.
  - intros d b bs x Hout. unfold wb_view. simpl. rewrite cache_block_app.
    apply imap_cache_out. unfold in_write in *. destruct (hd _ _); [|done].
    rewrite length_take. lia.
  - apply wb_write_durable.
  - done.
  - intros d x. simpl. unfold wb_flush. destruct (hd false _); [done|].
    unfold wb_view. simpl. apply cache_block_flush.
  - intros d img. simpl. unfold wb_flush. destruct (hd false _); simpl; [done|].
    intros Hd x. destruct (Hd x) as [->|Hx].
    + simpl. apply cache_block_flush.
    + by apply Exists_nil in Hx.
  - intros d. simpl. unfold wb_flush. by destruct (hd false _).
Defined.
