(* ===== verification/StoreFacts.v ===== *)
(** * nxstore: facts about roots and allocation maps

    What the structural check of a root ([root_sane]) amounts to, and the effect
    of the bitmap operations of [lib/store.c]. *)
From S2P Require Import Prelude Bytes Bitmap Crc32 StoreFmt Store.

(** ** Meaning of the structural checks *)

(** The extents of two objects share no block. *)
Definition ext_disj (o p : st_obj) : Prop :=
  o_nblk o = 0 \/ o_nblk p = 0 \/ o_blk o + o_nblk o <= o_blk p \/ o_blk p + o_nblk p <= o_blk o.

Definition compat (o p : st_obj) : Prop :=
  cstr (o_name o) <> cstr (o_name p) /\ o_oid o <> o_oid p /\ ext_disj o p.

Definition obj_good (next gen blocks : Z) (o : st_obj) : Prop :=
  str_nlen (o_name o) 28 <> 28 /\ st_name_ok (o_name o) = true /\ o_oid o <> 0 /\
  o_oid o < next /\ o_version o <> 0 /\ o_mod_gen o <> 0 /\ o_mod_gen o <= gen /\
  o_len o <= ST_OBJ_MAX_BYTES /\ o_nblk o = nblk_for (o_len o) /\
  (o_nblk o <> 0 -> ST_FIRST_DATA <= o_blk o /\ o_blk o + o_nblk o <= blocks) /\
  (o_nblk o = 0 -> o_blk o = 0).

Definition objs_good (next gen blocks : Z) (os : list st_obj) : Prop :=
  (forall i o, os !! i = Some o -> obj_good next gen blocks o) /\
  (forall i j o p, os !! i = Some o -> os !! j = Some p -> i <> j -> compat o p).

Definition ref_good (gen blocks : Z) (h : st_ref) : Prop :=
  ref_gen h <> 0 /\ ref_gen h < gen /\ ST_FIRST_DATA <= ref_blk h < blocks.

Definition hist_good (gen blocks : Z) (hs : list st_ref) : Prop :=
  forall i h, hs !! i = Some h ->
    ref_good (match i with O => gen | S j => ref_gen (hs !!! j) end) blocks h.

Definition pins_good (gen blocks : Z) (ps : list st_pin_entry) : Prop :=
  (forall i p, ps !! i = Some p ->
     str_nlen (pin_name p) 16 <> 16 /\ st_pin_name_ok (pin_name p) = true /\
     ref_good gen blocks (pin_ref p)) /\
  (forall i j p q, ps !! i = Some p -> ps !! j = Some q -> i <> j ->
     cstr (pin_name p) <> cstr (pin_name q)).

Definition hists (r : st_root) : list st_ref := take (Z.to_nat (rt_nhist r)) (rt_hist r).
Definition pins (r : st_root) : list st_pin_entry := take (Z.to_nat (rt_npin r)) (rt_pin r).

Definition root_good (r : st_root) (blocks : Z) : Prop :=
  (rt_magic r = ST_ROOT_MAGIC /\ rt_gen r <> 0 /\ rt_parent_gen r < rt_gen r /\
   rt_nobj r <= ST_OBJ_MAX /\ rt_nhist r <= ST_HIST_MAX /\ rt_npin r <= ST_PIN_MAX /\
   rt_nlog r <> 0 /\ rt_nlog r <= ST_LOG_MAX /\ log_gen (rt_log r).[0] = rt_gen r /\
   ST_RETAIN_MIN <= rt_retain r <= ST_RETAIN_MAX /\ rt_next_oid r <> 0 /\
   str_nlen (rt_label r) 16 <> 16) /\
  hist_good (rt_gen r) blocks (hists r) /\ pins_good (rt_gen r) blocks (pins r) /\
  objs_good (rt_next_oid r) (rt_gen r) blocks (objs r).

(** ** Lemmas: strings *)

Lemma str_eq_cstr a b : str_eq a b = true <-> cstr a = cstr b.
Proof.
  revert b. induction a as [|x a IH]; intros b; cbn [str_eq cstr].
  - destruct b as [|y b]; cbn [hd cstr]; [done|].
    destruct (Z.eqb_spec y 0); [done|]. split; congruence.
  - destruct (Z.eqb_spec x 0) as [->|Hx]; cbn [negb andb].
    + destruct b as [|y b]; cbn [hd cstr]; [done|]. rewrite Z.eqb_eq.
      destruct (Z.eqb_spec y 0); split; congruence.
    + destruct b as [|y b]; cbn [hd tl cstr].
      { destruct (Z.eqb_spec x 0); [done|]. split; congruence. }
      destruct (Z.eqb_spec x y) as [->|Hne].
      * rewrite IH. destruct (Z.eqb_spec y 0); [done|]. split; congruence.
      * destruct (Z.eqb_spec y 0); split; congruence.
Qed.

Lemma str_eq_false a b : str_eq a b = false <-> cstr a <> cstr b.
Proof. rewrite <- str_eq_cstr. by destruct (str_eq a b). Qed.

Lemma cstr_length s : (length (cstr s) <= length s)%nat.
Proof. induction s as [|c s IH]; simpl; [lia|]. destruct (c =? 0); simpl; lia. Qed.

Lemma cstr_no_zero s c : c ∈ cstr s -> c <> 0.
Proof.
  induction s as [|x s IH]; simpl; [set_solver|].
  destruct (Z.eqb_spec x 0); set_solver.
Qed.

Lemma cstr_app_zero s t : (forall c, c ∈ s -> c <> 0) -> cstr (s ++ 0 :: t) = s.
Proof.
  induction s as [|x s IH]; intros Hs; simpl; [done|].
  destruct (Z.eqb_spec x 0) as [->|]; [set_solver|]. rewrite IH by set_solver. done.
Qed.

Lemma str_nlen_cstr s cap : (length s <= cap)%nat -> str_nlen s cap = Z.of_nat (length (cstr s)).
Proof.
  revert s. induction cap as [|cap IH]; intros [|c s] Hl; simpl in *; try lia.
  destruct (c =? 0); [done|]. rewrite IH by lia. simpl. lia.
Qed.

Lemma str_copy_length cap src : (1 <= cap)%nat -> length (str_copy cap src) = cap.
Proof. intros. unfold str_copy. rewrite length_app, length_replicate, length_take. lia. Qed.

Lemma str_copy_cstr cap src :
  (length (cstr src) < cap)%nat -> cstr (str_copy cap src) = cstr src.
Proof.
  intros Hl. unfold str_copy. rewrite take_ge by lia.
  replace (cap - length (cstr src))%nat with (S (cap - length (cstr src) - 1)) by lia.
  cbn [replicate]. apply cstr_app_zero. apply cstr_no_zero.
Qed.

Lemma str_copy_bytes cap src : Forall byte_ok src -> Forall byte_ok (str_copy cap src).
Proof.
  intros Hs. unfold str_copy. apply Forall_app. split; [|apply Forall_replicate; unfold byte_ok; lia].
  apply Forall_take. induction Hs as [|c s Hc Hs IH]; simpl; [done|]. destruct (c =? 0); [done|].
  by constructor.
Qed.

Lemma str_copy_nlen cap src :
  (1 <= cap)%nat -> str_nlen (str_copy cap src) cap <> Z.of_nat cap.
Proof.
  intros Hc. rewrite str_nlen_cstr by (rewrite str_copy_length; lia). unfold str_copy.
  set (t := take (cap - 1) (cstr src)).
  assert (Ht : (length t <= cap - 1)%nat) by (unfold t; rewrite length_take; lia).
  replace (cap - length t)%nat with (S (cap - length t - 1)) by lia. cbn [replicate].
  rewrite cstr_app_zero; [lia|]. intros c Hin%elem_of_take.
  destruct Hin as (i & Hi & _). by eapply cstr_no_zero, list_elem_of_lookup_2.
Qed.

Lemma chars_ok_cstr ok max n s : chars_ok ok max n (cstr s) = chars_ok ok max n s.
Proof.
  revert n. induction s as [|c s IH]; intros n; simpl; [done|].
  destruct (Z.eqb_spec c 0) as [->|Hc]; simpl; [done|].
  destruct (Z.eqb_spec c 0); [done|]. by rewrite IH.
Qed.

Lemma chars_ok_length ok max n s :
  0 <= n -> chars_ok ok max n s = true -> n + Z.of_nat (length (cstr s)) <= Z.max n max.
Proof.
  revert n. induction s as [|c s IH]; intros n Hn; simpl; [lia|].
  destruct (c =? 0); simpl; [lia|]. destruct (Z.geb_spec n max); [done|]. simpl.
  destruct (ok c); simpl; [|done]. intros H'%IH; lia.
Qed.

Lemma name_ok_length s : st_name_ok s = true -> (length (cstr s) < 28)%nat.
Proof. intros H%chars_ok_length; unfold ST_NAME_MAX in *; lia. Qed.

Lemma pin_name_ok_length s : st_pin_name_ok s = true -> (length (cstr s) < 16)%nat.
Proof. intros H%chars_ok_length; unfold ST_PIN_NAME_MAX in *; lia. Qed.

Lemma name_ok_copy s : st_name_ok s = true -> st_name_ok (str_copy 28 s) = true.
Proof.
  intros H. pose proof (name_ok_length s H). unfold st_name_ok in *.
  by rewrite <- chars_ok_cstr, str_copy_cstr, chars_ok_cstr.
Qed.

Lemma pin_name_ok_copy s : st_pin_name_ok s = true -> st_pin_name_ok (str_copy 16 s) = true.
Proof.
  intros H. pose proof (pin_name_ok_length s H). unfold st_pin_name_ok in *.
  by rewrite <- chars_ok_cstr, str_copy_cstr, chars_ok_cstr.
Qed.

(** ** Lemmas: structural checks *)

Lemma compat_sym o p : compat o p -> compat p o.
Proof. unfold compat, ext_disj. intuition congruence. Qed.

Lemma obj_sane_good r blocks o :
  obj_wf o -> blocks <= ST_MAX_BLOCKS ->
  obj_sane r blocks o = true <-> obj_good (rt_next_oid r) (rt_gen r) blocks o.
Proof.
  intros (_ & _ & _ & Hb & _ & _ & _ & Hn & _) Hbl. unfold obj_sane, obj_good.
  rewrite (wrap_small 64 (o_blk o + o_nblk o)) by (unfold fits in *; lia).
  rewrite andb_true_iff, !negb_true_iff, !orb_false_iff, !negb_false_iff, !Z.eqb_neq, Z.geb_leb,
    Z.leb_gt, !Z.gtb_ltb, !Z.ltb_ge, Z.eqb_eq.
  destruct (Z.eqb_spec (o_nblk o) 0) as [Hz|Hz]; cbn [negb].
  - rewrite negb_false_iff, Z.eqb_eq. intuition lia.
  - rewrite orb_false_iff, !Z.ltb_ge. intuition lia.
Qed.

Lemma obj_pair_compat N o p :
  obj_wf o -> obj_wf p -> N <= ST_MAX_BLOCKS ->
  (o_nblk o <> 0 -> o_blk o + o_nblk o <= N) -> (o_nblk p <> 0 -> o_blk p + o_nblk p <= N) ->
  obj_pair_sane o p = true <-> compat o p.
Proof.
  intros (_ & _ & _ & Hb & _ & _ & _ & Hn & _) (_ & _ & _ & Hb' & _ & _ & _ & Hn' & _) HN Ho Hp.
  unfold obj_pair_sane, compat, overlap, ext_disj, ST_MAX_BLOCKS, fits in *.
  rewrite negb_true_iff, !orb_false_iff, str_eq_false, Z.eqb_neq.
  destruct (Z.eqb_spec (o_nblk o) 0), (Z.eqb_spec (o_nblk p) 0); cbn [negb andb];
    try (intuition congruence).
  rewrite !wrap_small by (unfold fits; lia). rewrite andb_false_iff, !Z.ltb_ge.
  intuition (congruence || lia).
Qed.

Lemma hist_sane_good r blocks :
  root_wf r -> rt_nhist r <= ST_HIST_MAX ->
  forallb (hist_sane r blocks) (seqZ 0 (rt_nhist r)) = true <->
  hist_good (rt_gen r) blocks (hists r).
Proof.
  intros Hwf Hn. destruct Hwf as (_ & _ & _ & _ & _ & _ & _ & Hf & _ & _ & _ & _ & _ & _ & [Hl _] & _).
  unfold hist_good, hists, ST_HIST_MAX, fits in *.
  assert (Hr : 0 <= rt_nhist r <= Z.of_nat (length (rt_hist r))) by (rewrite Hl; lia).
  rewrite forallb_seqZ.
  split.
  - intros H i h Hi. pose proof Hi as Hlt%lookup_lt_Some. rewrite length_take in Hlt.
    rewrite lookup_take_lt in Hi by lia. apply list_lookup_total_correct in Hi.
    specialize (H (Z.of_nat i) ltac:(lia)). unfold hist_sane in H. rewrite Nat2Z.id, Hi in H.
    breflect. unfold ref_good. destruct i as [|j].
    + simpl in *. lia.
    + rewrite (proj2 (Z.eqb_neq _ 0)) in * by lia.
      rewrite list_lookup_total_alt, lookup_take_lt by lia.
      rewrite <- list_lookup_total_alt. replace (Z.to_nat (Z.of_nat (S j) - 1)) with j in * by lia.
      lia.
  - intros H i Hi. specialize (H (Z.to_nat i) (rt_hist r).[i] ltac:(by apply arr_take_lookup; lia)).
    unfold ref_good in H. unfold hist_sane. apply negb_true_iff.
    rewrite !orb_false_iff, !Z.geb_leb, !Z.leb_gt, Z.eqb_neq, Z.ltb_ge.
    destruct (Z.eqb_spec i 0) as [->|Hne]; [simpl in H; lia|].
    destruct (Z.to_nat i) as [|j] eqn:Ej; [lia|]. replace (Z.to_nat (i - 1)) with j by lia.
    rewrite (list_lookup_total_alt (take _ _)), lookup_take_lt, <- list_lookup_total_alt in H by lia.
    lia.
Qed.

Lemma pin_sane_good r blocks :
  root_wf r -> rt_npin r <= ST_PIN_MAX ->
  forallb (pin_sane r blocks) (seqZ 0 (rt_npin r)) = true <->
  pins_good (rt_gen r) blocks (pins r).
Proof.
  intros Hwf Hn.
  destruct Hwf as (_ & _ & _ & _ & _ & _ & _ & _ & Hf & _ & _ & _ & _ & _ & _ & [Hl _] & _).
  unfold pins_good, pins, ST_PIN_MAX, fits in *.
  assert (Hr : 0 <= rt_npin r <= Z.of_nat (length (rt_pin r))) by (rewrite Hl; lia).
  set (P := fun p => str_nlen (pin_name p) 16 <> 16 /\ st_pin_name_ok (pin_name p) = true /\
                     ref_good (rt_gen r) blocks (pin_ref p)).
  assert (Hs : forall i, pin_sane r blocks i = true <-> P (rt_pin r).[i] /\
     forall j, 0 <= j < i -> cstr (pin_name (rt_pin r).[j]) <> cstr (pin_name (rt_pin r).[i])).
  { intros i. unfold pin_sane, P, ref_good. rewrite andb_true_iff, forallb_seqZ.
    setoid_rewrite negb_true_iff. setoid_rewrite str_eq_false.
    rewrite !orb_false_iff, negb_false_iff, !Z.geb_leb, !Z.leb_gt, !Z.eqb_neq, Z.ltb_ge.
    rewrite Z.add_0_l. intuition lia. }
  rewrite forallb_seqZ, Z.add_0_l. setoid_rewrite Hs. split.
  - intros H. split.
    + apply (arr_take_forall (rt_pin r) (rt_npin r) (fun _ p => P p)); [lia|].
      intros i Hi. by apply H.
    + assert (Hlt : forall i j p q, take (Z.to_nat (rt_npin r)) (rt_pin r) !! i = Some p ->
        take (Z.to_nat (rt_npin r)) (rt_pin r) !! j = Some q -> (j < i)%nat ->
        cstr (pin_name q) <> cstr (pin_name p)).
      { intros i j p q Hi Hj Hlt. pose proof Hi as Hi'%lookup_lt_Some. rewrite length_take in Hi'.
        rewrite lookup_take_lt in Hi, Hj by lia. apply list_lookup_total_correct in Hi, Hj.
        destruct (H (Z.of_nat i) ltac:(lia)) as [_ Hd]. specialize (Hd (Z.of_nat j) ltac:(lia)).
        by rewrite !Nat2Z.id, Hi, Hj in Hd. }
      intros i j p q Hi Hj Hne. destruct (decide (j < i)%nat).
      * intros He. by apply (Hlt i j p q).
      * apply (Hlt j i q p); [done|done|lia].
  - intros [H1 H2] i Hi. split.
    + apply (H1 (Z.to_nat i)). by apply arr_take_lookup.
    + intros j Hj. apply (H2 (Z.to_nat j) (Z.to_nat i)); [apply arr_take_lookup; lia..|lia].
Qed.

Lemma objs_lookup_wf r i o : root_wf r -> objs r !! i = Some o -> obj_wf o.
Proof.
  intros Hwf Hi.
  destruct Hwf as (_&_&_&_&_&_&_&_&_&_&_&_&_&_&_&_&_&[_ Hall]&_).
  eapply Forall_forall; [exact Hall|]. unfold objs in Hi.
  apply lookup_take_Some in Hi as [Hi _]. by eapply list_elem_of_lookup_2.
Qed.

Lemma objs_sane_good r blocks :
  root_wf r -> rt_nobj r <= ST_OBJ_MAX -> blocks <= ST_MAX_BLOCKS ->
  forallb (fun i => obj_sane r blocks (rt_obj r).[i] &&
                    forallb (fun j => obj_pair_sane (rt_obj r).[i] (rt_obj r).[j]) (seqZ 0 i))
    (seqZ 0 (rt_nobj r)) = true <->
  objs_good (rt_next_oid r) (rt_gen r) blocks (objs r).
Proof.
  intros Hwf Hn Hb. pose proof Hwf as (_&_&_&_&_&_&Hf&_&_&_&_&_&_&_&_&_&_&[Hl Hall]&_).
  unfold ST_OBJ_MAX, fits in *.
  assert (Hr : 0 <= rt_nobj r <= Z.of_nat (length (rt_obj r))) by (rewrite Hl; lia).
  assert (Hlk : forall i, 0 <= i < rt_nobj r -> objs r !! Z.to_nat i = Some (rt_obj r).[i])
    by (intros; by apply arr_take_lookup).
  assert (Hnth : forall i o, objs r !! i = Some o ->
    (rt_obj r).[Z.of_nat i] = o /\ 0 <= Z.of_nat i < rt_nobj r).
  { intros i o Hi. unfold objs in Hi. apply lookup_take_Some in Hi as [Hi Hlt].
    rewrite Nat2Z.id. split; [by apply list_lookup_total_correct|lia]. }
  rewrite forallb_seqZ, Z.add_0_l. setoid_rewrite andb_true_iff. setoid_rewrite forallb_seqZ.
  split.
  - intros H. assert (Hg : forall i o, objs r !! i = Some o ->
      obj_good (rt_next_oid r) (rt_gen r) blocks o).
    { intros i o Hi. pose proof (objs_lookup_wf r i o Hwf Hi). apply Hnth in Hi as [<- Hi].
      apply obj_sane_good; [done|done|]. by apply H. }
    split; [exact Hg|].
    assert (Hlt : forall i j o p, objs r !! i = Some o -> objs r !! j = Some p ->
      (j < i)%nat -> compat o p).
    { intros i j o p Hi Hj Hlt. pose proof (Hg i o Hi) as Go. pose proof (Hg j p Hj) as Gp.
      pose proof (objs_lookup_wf r i o Hwf Hi). pose proof (objs_lookup_wf r j p Hwf Hj).
      apply Hnth in Hi as [<- Hi]. apply Hnth in Hj as [<- Hj].
      apply (obj_pair_compat blocks); try done; [unfold obj_good in *; tauto..|apply H; lia]. }
    intros i j o p Hi Hj Hne. destruct (decide (j < i)%nat); [by apply (Hlt i j)|].
    apply compat_sym, (Hlt j i); [done|done|lia].
  - intros [Hg Hp] i Hi. pose proof (Hlk i Hi) as Ho.
    pose proof (objs_lookup_wf r _ _ Hwf Ho). split.
    + apply obj_sane_good; [done|done|]. by eapply Hg.
    + intros j Hj. pose proof (Hlk j ltac:(lia)) as Hj'.
      pose proof (objs_lookup_wf r _ _ Hwf Hj').
      apply (obj_pair_compat blocks); try done;
        [pose proof (Hg _ _ Ho)|pose proof (Hg _ _ Hj')|]; try (unfold obj_good in *; tauto).
      eapply Hp; [exact Ho|exact Hj'|lia].
Qed.

Lemma root_sane_good r blocks :
  root_wf r -> blocks <= ST_MAX_BLOCKS -> root_sane r blocks = true <-> root_good r blocks.
Proof.
  intros Hwf Hb. unfold root_sane, root_good.
  rewrite !andb_true_iff, !negb_true_iff, !orb_false_iff, !negb_false_iff, bool_decide_eq_true,
    !Z.gtb_ltb, !Z.geb_leb, !Z.ltb_ge, !Z.leb_gt, !Z.eqb_neq, Z.eqb_eq.
  split.
  - intros ((((Hh & Hlab) & H1) & H2) & H3).
    split; [intuition lia|]. split; [apply hist_sane_good; tauto|].
    split; [apply pin_sane_good; tauto|]. apply objs_sane_good; tauto.
  - intros (Hh & H1 & H2 & H3).
    split; [split; [split; [split; [intuition lia|tauto]|]|]|].
    + apply hist_sane_good; tauto.
    + apply pin_sane_good; tauto.
    + apply objs_sane_good; tauto.
Qed.

(** ** Lemmas: allocation maps *)

Definition map_ok (m : list Z) : Prop := length m = 4096%nat.

Lemma bit_get_set m i b :
  map_ok m -> 0 <= i < ST_MAX_BLOCKS -> 0 <= b -> bit_get (bit_set m i) b = (i =? b) || bit_get m b.
Proof.
  unfold map_ok, ST_MAX_BLOCKS. intros Hm Hi Hb. apply bit_set_bit; [lia| |done]. rewrite Hm. dlia.
Qed.

Lemma bit_set_ok m i : map_ok m -> map_ok (bit_set m i).
Proof. unfold map_ok. intros <-. apply arr_set_length. Qed.

Lemma empty_map_ok : map_ok empty_map.
Proof. apply length_replicate. Qed.

Lemma bit_get_empty b : 0 <= b < ST_MAX_BLOCKS -> bit_get empty_map b = false.
Proof.
  intros Hb. change (bit empty_map b = false). rewrite bit_testbit. unfold empty_map.
  rewrite list_lookup_total_alt, lookup_replicate_2; [apply Z.testbit_0_l|].
  unfold ST_MAX_BLOCKS in Hb. dlia.
Qed.

Lemma mark_blocks_spec m first n blocks :
  map_ok m -> 0 <= first -> blocks <= ST_MAX_BLOCKS ->
  map_ok (mark_blocks m first n blocks) /\
  forall b, 0 <= b -> bit_get (mark_blocks m first n blocks) b =
    bit_get m b || bool_decide (first <= b < first + n /\ b < blocks).
Proof.
  intros Hm Hf Hbl. unfold mark_blocks, for_each.
  destruct (decide (n <= 0)) as [Hn|Hn].
  { rewrite seqZ_nil by lia. simpl. split; [done|]. intros b Hb.
    rewrite bool_decide_eq_false_2 by lia. by rewrite orb_false_r. }
  replace n with (Z.of_nat (Z.to_nat n)) by lia. generalize (Z.to_nat n) as k. clear n Hn.
  induction k as [|k IH].
  { split; [done|]. intros b Hb. rewrite bool_decide_eq_false_2 by lia. by rewrite orb_false_r. }
  rewrite seqZ_S, fold_left_app, Nat2Z.inj_succ, Z.add_0_l by lia. cbn [fold_left].
  destruct IH as [IHm IHb]. set (m' := fold_left _ _ m) in *.
  destruct (Z.ltb_spec (first + Z.of_nat k) blocks).
  - split; [by apply bit_set_ok|]. intros b Hb. rewrite bit_get_set, IHb by (done || lia).
    destruct (Z.eqb_spec (first + Z.of_nat k) b); simpl.
    + rewrite (bool_decide_eq_true_2 (first <= b < first + Z.succ (Z.of_nat k) /\ b < blocks)) by lia.
      by rewrite orb_true_r.
    + f_equal. apply bool_decide_ext. lia.
  - split; [done|]. intros b Hb. rewrite IHb by done. f_equal. apply bool_decide_ext. lia.
Qed.

(** Block [b] belongs to the extent of [o]. *)
Definition in_ext (o : st_obj) (b : Z) : Prop := o_blk o <= b < o_blk o + o_nblk o.

Lemma mark_root_spec m r blk blocks :
  map_ok m -> root_wf r -> root_good r blocks -> 0 <= blk -> blocks <= ST_MAX_BLOCKS ->
  map_ok (mark_root m r blk blocks) /\
  forall b, 0 <= b < blocks ->
    bit_get (mark_root m r blk blocks) b = true <->
    bit_get m b = true \/ b = blk \/ exists o, o ∈ objs r /\ in_ext o b.
Proof.
  intros Hm Hwf Hg Hblk Hbl. unfold mark_root, for_each.
  set (m1 := if blk <? blocks then bit_set m blk else m).
  assert (H1 : map_ok m1 /\ forall b, 0 <= b < blocks -> bit_get m1 b = true <->
    bit_get m b = true \/ b = blk).
  { unfold m1. destruct (Z.ltb_spec blk blocks).
    - split; [by apply bit_set_ok|]. intros b Hb. rewrite bit_get_set by (done || lia).
      rewrite orb_true_iff, Z.eqb_eq. intuition congruence.
    - split; [done|]. intros b Hb. intuition lia. }
  destruct H1 as [Hm1 Hb1].
  assert (Hn : 0 <= rt_nobj r <= Z.of_nat (length (rt_obj r))).
  { destruct Hg as ((_&_&_&Hn&_)&_). destruct Hwf as (_&_&_&_&_&_&Hf&_&_&_&_&_&_&_&_&_&_&[Hl _]&_).
    unfold ST_OBJ_MAX, fits in *. rewrite Hl. lia. }
  assert (Hobj : forall o, o ∈ objs r -> 0 <= o_blk o).
  { intros o [i Hi]%list_elem_of_lookup. pose proof (objs_lookup_wf r i o Hwf Hi) as Hw.
    unfold obj_wf, fits in Hw. lia. }
  assert (Hfold : forall os m0, map_ok m0 -> (forall o, o ∈ os -> 0 <= o_blk o) ->
    let m2 := fold_left (fun m o => mark_blocks m (o_blk o) (o_nblk o) blocks) os m0 in
    map_ok m2 /\ forall b, 0 <= b < blocks -> bit_get m2 b = true <->
      bit_get m0 b = true \/ exists o, o ∈ os /\ in_ext o b).
  { induction os as [|o os IH]; intros m0 Hm0 Hos; simpl.
    { split; [done|]. intros b Hb. set_solver. }
    destruct (mark_blocks_spec m0 (o_blk o) (o_nblk o) blocks Hm0) as [Hm2 Hb2];
      [apply Hos; set_solver|done|].
    destruct (IH _ Hm2) as [Hm3 Hb3]; [set_solver|]. split; [done|]. intros b Hb.
    rewrite Hb3, Hb2, orb_true_iff, bool_decide_eq_true by lia. unfold in_ext.
    set_solver by lia. }
  assert (Heq : fold_left (fun m i => mark_blocks m (o_blk (rt_obj r).[i]) (o_nblk (rt_obj r).[i]) blocks)
      (seqZ 0 (rt_nobj r)) m1 =
    fold_left (fun m o => mark_blocks m (o_blk o) (o_nblk o) blocks) (objs r) m1).
  { unfold objs. rewrite <- (arr_take_seqZ (rt_obj r) (rt_nobj r) Hn).
    generalize m1. induction (seqZ 0 (rt_nobj r)) as [|i l IH]; intros m'; [done|].
    simpl. apply IH. }
  rewrite Heq. destruct (Hfold (objs r) m1 Hm1 Hobj) as [Hm2 Hb2]. split; [done|].
  intros b Hb. rewrite Hb2, Hb1 by done. tauto.
Qed.

(** Setting bits never clears one. *)
Lemma bit_set_mono m i b : bit_get m b = true -> bit_get (bit_set m i) b = true.
Proof.
  change (bit m b = true -> bit (bit_set m i) b = true). rewrite !bit_testbit. unfold bit_set.
  intros Hb. destruct (byte_index i) as [-> ->].
  destruct (decide (Z.to_nat (i / 8) = Z.to_nat (b / 8))) as [He|Hne].
  - rewrite He. destruct (decide (Z.to_nat (b / 8) < length m)%nat).
    + rewrite list_lookup_total_insert_eq by done.
      rewrite testbit_u8 by (apply Z.mod_pos_bound; lia). rewrite Z.lor_spec, Hb. done.
    + by rewrite list_insert_ge by lia.
  - by rewrite list_lookup_total_insert_ne.
Qed.

Lemma for_each_mono {A} (l : list A) (f : list Z -> A -> list Z) m b :
  (forall m x, bit_get m b = true -> bit_get (f m x) b = true) ->
  bit_get m b = true -> bit_get (for_each l f m) b = true.
Proof.
  intros Hf. unfold for_each. revert m. induction l as [|x l IH]; intros m Hm; [done|]. simpl. auto.
Qed.

Lemma for_each_map_ok {A} (l : list A) (f : list Z -> A -> list Z) m :
  (forall m x, map_ok m -> map_ok (f m x)) -> map_ok m -> map_ok (for_each l f m).
Proof.
  intros Hf. unfold for_each. revert m. induction l as [|x l IH]; intros m Hm; [done|]. simpl. auto.
Qed.

Lemma mark_root_mono m r blk blocks b :
  bit_get m b = true -> bit_get (mark_root m r blk blocks) b = true.
Proof.
  intros Hm. unfold mark_root. apply for_each_mono.
  - intros m' i Hm'. unfold mark_blocks. apply for_each_mono; [|done].
    intros m2 j Hm2. destruct (_ <? _); [by apply bit_set_mono|done].
  - destruct (_ <? _); [by apply bit_set_mono|done].
Qed.

Lemma mark_root_ok m r blk blocks : map_ok m -> map_ok (mark_root m r blk blocks).
Proof.
  intros Hm. unfold mark_root. apply for_each_map_ok.
  - intros m' i Hm'. unfold mark_blocks. apply for_each_map_ok; [|done].
    intros m2 j Hm2. destruct (_ <? _); [by apply bit_set_ok|done].
  - destruct (_ <? _); [by apply bit_set_ok|done].
Qed.

(** ** Lemmas: allocation *)

Lemma find_run_spec free n run a k f :
  0 <= run < n -> (forall j, a - run <= j < a -> free j = true) ->
  find_run free n run (seqZ a (Z.of_nat k)) = Some f ->
  a - run <= f /\ f + n <= a + Z.of_nat k /\ forall j, f <= j < f + n -> free j = true.
Proof.
  revert run a. induction k as [|k IH]; intros run a Hrun Hfree; [done|].
  rewrite seqZ_cons by lia. cbn [find_run].
  replace (Z.pred (Z.of_nat (S k))) with (Z.of_nat k) by lia.
  destruct (free a) eqn:Ea.
  - destruct (Z.eqb_spec (run + 1) n) as [He|Hne].
    + intros [= <-]. split; [lia|]. split; [lia|]. intros j Hj.
      destruct (decide (j = a)) as [->|]; [done|]. apply Hfree. lia.
    + intros Hf. apply IH in Hf as (? & ? & ?); [| lia |].
      * split; [lia|]. split; [lia|done].
      * intros j Hj. destruct (decide (j = a)) as [->|]; [done|]. apply Hfree. lia.
  - destruct (Z.eqb_spec 0 n); [lia|]. intros Hf.
    apply IH in Hf as (? & ? & ?); [|lia|intros; lia]. split; [lia|]. split; [lia|done].
Qed.

Lemma bit_set_range m first n :
  map_ok m -> 0 <= first -> 0 <= n -> first + n <= ST_MAX_BLOCKS ->
  let m' := for_each (seqZ 0 n) (fun m i => bit_set m (first + i)) m in
  map_ok m' /\ forall b, 0 <= b ->
    bit_get m' b = bit_get m b || bool_decide (first <= b < first + n).
Proof.
  intros Hm Hf Hn Hmax m'.
  assert (Hm' : m' = mark_blocks m first n ST_MAX_BLOCKS).
  { unfold m', mark_blocks, for_each.
    assert (Hl : forall i, i ∈ seqZ 0 n -> first + i < ST_MAX_BLOCKS)
      by (intros i Hi%elem_of_seqZ; lia).
    clear -Hl. revert m. induction (seqZ 0 n) as [|i l IH]; intros m; [done|]. simpl.
    rewrite (proj2 (Z.ltb_lt _ _)) by (apply Hl; set_solver). apply IH. set_solver. }
  rewrite Hm'. destruct (mark_blocks_spec m first n ST_MAX_BLOCKS Hm Hf) as [Hok Hb]; [done|].
  split; [done|]. intros b Hb'. rewrite Hb by done. f_equal. apply bool_decide_ext. lia.
Qed.

Lemma alloc_spec s n res blk s' :
  s_flags s = 0 -> map_ok (s_txused s) -> s_blocks s <= ST_MAX_BLOCKS -> 1 <= n ->
  alloc s n res = (blk, s') ->
  (blk = 0 /\ s' = s) \/
  (ST_FIRST_DATA <= blk /\ blk + n <= s_blocks s /\
   (forall b, blk <= b < blk + n -> bit_get (s_used s) b = false /\ bit_get (s_txused s) b = false) /\
   exists m, s' = set_txused s m /\ map_ok m /\
     (forall b, bit_get (s_txused s) b = true -> bit_get m b = true) /\
     forall b, blk <= b < blk + n -> bit_get m b = true).
Proof.
  intros Hfl Hm Hbl Hn. unfold alloc. destruct (_ || _); [intros [= <- <-]; by left|].
  destruct (find_run _ _ _ _) as [f|] eqn:Hf; [|intros [= <- <-]; by left].
  intros [= <- <-]. right.
  assert (Hk : exists k, seqZ ST_FIRST_DATA (s_blocks s - ST_FIRST_DATA) =
    seqZ ST_FIRST_DATA (Z.of_nat k) /\ (Z.of_nat k = s_blocks s - ST_FIRST_DATA \/ k = 0%nat)).
  { destruct (decide (0 <= s_blocks s - ST_FIRST_DATA)).
    - exists (Z.to_nat (s_blocks s - ST_FIRST_DATA)). rewrite Z2Nat.id by done. tauto.
    - exists 0%nat. split; [|tauto]. by rewrite !seqZ_nil by lia. }
  destruct Hk as (k & Hk & Hks). rewrite Hk in Hf.
  destruct Hks as [Hks| ->]; [|done].
  apply find_run_spec in Hf as (H1 & H2 & H3); [|lia|intros; lia].
  unfold ST_FIRST_DATA in *.
  split; [lia|]. split; [lia|]. split.
  - intros b Hb. specialize (H3 b Hb). unfold blk_free, flag in H3. rewrite Hfl in H3.
    simpl in H3. breflect. done.
  - eexists. split; [done|].
    destruct (bit_set_range (s_txused s) f n Hm) as [Hok Hb]; [lia..|]. split; [exact Hok|]. split.
    + intros b Hb'. apply for_each_mono; [|done]. intros m' i Hm'. by apply bit_set_mono.
    + intros b Hb'. rewrite Hb by lia. rewrite bool_decide_eq_true_2 by lia. apply orb_true_r.
Qed.
