(* ===== verification/StoreIo.v ===== *)
(** * nxstore: device accesses under the device contract

    How the reading and writing helpers of [lib/store.c] act on what a device
    satisfying [StDevLaws] shows and on what it may hold after a power failure. *)
From S2P Require Import Prelude Bytes Bitmap Crc32 StoreFmt Store StoreDev StoreFacts.

(** Bytes and checksum of an extent, block by block, on a disk with content [g]. *)
Fixpoint ext_bytes (g : Z -> list Z) (blk : Z) (todo : nat) (i left : Z) : list Z :=
  match todo with
  | O => []
  | S todo' =>
      let n := if left <? ST_BLOCK then left else ST_BLOCK in
      take (Z.to_nat n) (g (blk + i)) ++ ext_bytes g blk todo' (i + 1) (left - n)
  end.

Fixpoint ext_crc (g : Z -> list Z) (blk : Z) (todo : nat) (i crc left : Z) : Z :=
  match todo with
  | O => crc
  | S todo' =>
      let n := if left <? ST_BLOCK then left else ST_BLOCK in
      ext_crc g blk todo' (i + 1) (nx_crc32_update crc (take (Z.to_nat n) (g (blk + i)))) (left - n)
  end.

(** The data of an object, and that it matches the object's checksum. *)
Definition obj_data (g : Z -> list Z) (o : st_obj) : list Z :=
  ext_bytes g (o_blk o) (Z.to_nat (o_nblk o)) 0 (o_len o).
Definition ext_ok (g : Z -> list Z) (o : st_obj) : Prop :=
  ext_crc g (o_blk o) (Z.to_nat (o_nblk o)) 0 0 (o_len o) = o_crc o.

(** Block [blk] holds root [r]; [load_root] accepts it. *)
Definition root_at (g : Z -> list Z) (blk : Z) (r : st_root) : Prop :=
  dec_root (g blk) = r /\ block_crc (g blk) = rt_crc r.

#[local] Opaque block_crc dec_root dec_super root_sane nx_crc32_update.

Section io.
Context {D : Type} `{!st_dev D, !StDevLaws D}.
Implicit Types x : io D.

Definition view x : Z -> list Z := bd_view (io_dev x).
Definition readable x : Prop := bd_readable (io_dev x).

(** [Q] holds of block [b] now and after a power failure. *)
Definition holds x (b : Z) (Q : list Z -> Prop) : Prop :=
  Q (view x b) /\ forall img, bd_durable (io_dev x) img -> Q (img b).

(** The content of block [b] is on the medium. *)
Definition settled x (b : Z) : Prop := holds x b (eq (view x b)).

(** From [x] to [x'] the blocks in [P] keep their content and stay as durable as
    they were. *)
Definition keeps (P : Z -> Prop) x x' : Prop :=
  (forall b, P b -> view x' b = view x b) /\
  (forall b Q, P b -> holds x b Q -> holds x' b Q) /\
  (readable x -> readable x').

Lemma keeps_refl P x : keeps P x x.
Proof. unfold keeps. auto. Qed.

Lemma keeps_trans P x1 x2 x3 : keeps P x1 x2 -> keeps P x2 x3 -> keeps P x1 x3.
Proof.
  intros (V1 & H1 & R1) (V2 & H2 & R2). split; [|split; [|auto]].
  - intros b Hb. by rewrite V2, V1.
  - intros b Q Hb Hq. auto.
Qed.

Lemma keeps_mono (P P' : Z -> Prop) x x' :
  (forall b, P' b -> P b) -> keeps P x x' -> keeps P' x x'.
Proof. unfold keeps. intuition. Qed.

Lemma keeps_view P x x' b : keeps P x x' -> P b -> view x' b = view x b.
Proof. intros (V & _ & _). auto. Qed.

Lemma keeps_holds P x x' b Q : keeps P x x' -> P b -> holds x b Q -> holds x' b Q.
Proof. intros (_ & H & _). auto. Qed.

Lemma keeps_readable P x x' : keeps P x x' -> readable x -> readable x'.
Proof. intros (_ & _ & R). done. Qed.

Lemma keeps_settled P x x' b : keeps P x x' -> P b -> settled x b -> settled x' b.
Proof.
  intros (V & H & _) Hb Hs. unfold settled. rewrite V by done. by apply H.
Qed.

Lemma holds_impl x b (Q Q' : list Z -> Prop) :
  (forall c, Q c -> Q' c) -> holds x b Q -> holds x b Q'.
Proof. intros HQ [H1 H2]. split; auto. Qed.

(** ** Single accesses *)

Lemma dev_read_keeps blocks x blk st b x' :
  dev_read blocks x blk = (st, b, x') ->
  keeps (fun _ => True) x x' /\ (st = ST_OK -> b = view x blk).
Proof.
  unfold dev_read. destruct (_ || _).
  { intros [= <- <- <-]. split; [apply keeps_refl|done]. }
  destruct (bd_read (io_dev x) blk) as [r d] eqn:E.
  assert (Hk : forall x1, io_dev x1 = d -> keeps (fun _ => True) x x1).
  { intros x1 <-. pose proof (bd_read_view (io_dev x) blk) as Hv.
    pose proof (bd_read_durable (io_dev x) blk) as Hd. pose proof (bd_read_readable (io_dev x) blk) as Hr.
    rewrite E in Hv, Hd, Hr. simpl in *. split; [|split].
    - intros c _. apply Hv.
    - intros c Q _ [H1 H2]. split; [unfold view; by rewrite Hv|auto].
    - intros Hx. by apply Hr. }
  destruct r as [c|]; intros [= <- <- <-]; (split; [by apply Hk|]); [|done].
  intros _. by apply bd_read_some in E.
Qed.

Lemma dev_read_ok blocks x blk :
  readable x -> 0 <= blk < blocks -> blocks <= bd_capacity D ->
  exists x', dev_read blocks x blk = (ST_OK, view x blk, x').
Proof.
  intros Hr Hb Hbl. pose proof bd_capacity_max as Hmax. unfold dev_read, ST_MAX_BLOCKS in *.
  rewrite wrap_small by (unfold fits; lia). rewrite Z.gtb_ltb.
  rewrite (proj2 (Z.ltb_ge blocks (blk + 1))), (proj2 (Z.ltb_ge (blk + 1) blk)) by lia. simpl.
  destruct (bd_read (io_dev x) blk) as [r d] eqn:E.
  destruct (bd_read_ok (io_dev x) blk Hr) as [c Hc]; [lia|]. rewrite E in Hc. simpl in Hc. subst r.
  apply bd_read_some in E as ->. eauto.
Qed.

Lemma dev_write_keeps blocks x blk bs st x' :
  dev_write blocks x blk bs = (st, x') ->
  keeps (fun b => ~ in_write blk (Z.of_nat (length bs)) b) x x' /\
  (st = ST_OK -> forall b, in_write blk (Z.of_nat (length bs)) b -> view x' b = bs.[b - blk]) /\
  (st = ST_OK \/ st = ST_E_IO).
Proof.
  unfold dev_write. destruct (_ || _).
  { intros [= <- <-]. split; [apply keeps_refl|]. split; [done|by right]. }
  destruct (bd_write (io_dev x) blk bs) as [r d] eqn:E.
  pose proof (bd_write_view_out (io_dev x) blk bs) as Ho.
  pose proof (bd_write_view_in (io_dev x) blk bs) as Hi.
  pose proof (bd_write_durable (io_dev x) blk bs) as Hd.
  pose proof (bd_write_readable (io_dev x) blk bs) as Hr.
  rewrite E in *. simpl in *. intros [= <- <-]. split; [split; [|split]|].
  - intros b Hb. by apply Ho.
  - intros b Q Hb [H1 H2]. split; [unfold view; simpl; by rewrite Ho|].
    intros img Himg. destruct (Hd img Himg) as (img0 & H0 & Hx).
    destruct (Hx b) as [->|[? _]]; [auto|done].
  - done.
  - destruct r; [split; [|by left]|split; [done|by right]]. intros _ b Hb. by apply Hi.
Qed.

(** A single block may end up old or as the write leaves it. *)
Lemma dev_write_one_durable blocks x blk c st x' (Q : list Z -> Prop) img :
  dev_write blocks x blk [c] = (st, x') ->
  (forall img0, bd_durable (io_dev x) img0 -> Q (img0 blk)) -> (forall b, leaves c b -> Q b) ->
  bd_durable (io_dev x') img -> Q (img blk).
Proof.
  unfold dev_write. destruct (_ || _).
  { intros [= <- <-] Hq _ Hd. by apply Hq. }
  pose proof (bd_write_durable (io_dev x) blk [c] img) as Hd.
  destruct (bd_write (io_dev x) blk [c]) as [r d]. simpl in *.
  intros [= <- <-] Hq Hl Himg. destruct (Hd Himg) as (img0 & H0 & Hx).
  destruct (Hx blk) as [->|[_ Hy]]; [by apply Hq|]. rewrite Z.sub_diag in Hy. by apply Hl.
Qed.

Lemma dev_flush_keeps x st x' :
  dev_flush x = (st, x') ->
  keeps (fun _ => True) x x' /\ (st = ST_OK -> forall b, settled x' b) /\
  (st = ST_OK \/ st = ST_E_IO).
Proof.
  unfold dev_flush. pose proof (bd_flush_view (io_dev x)) as Hv.
  pose proof (bd_flush_durable (io_dev x)) as Hd. pose proof (bd_flush_readable (io_dev x)) as Hr.
  destruct (bd_flush (io_dev x)) as [r d]. simpl in *. intros [= <- <-].
  split; [split; [|split]|].
  - intros b _. apply Hv.
  - intros b Q _ [H1 H2]. split; [unfold view; simpl; by rewrite Hv|].
    intros img Himg. apply Hd in Himg. destruct r; [rewrite Himg; done|auto].
  - done.
  - destruct r; [split; [|by left]|split; [done|by right]]. intros _ b.
    split; [done|]. intros img Himg. unfold view. simpl. rewrite Hv. symmetry. by apply Hd.
Qed.

(** ** Roots and extents *)

Lemma load_root_keeps blocks x blk gen crc st r x' :
  load_root blocks x blk gen crc = (st, r, x') -> keeps (fun _ => True) x x'.
Proof.
  unfold load_root. destruct (_ || _); [intros [= <- <- <-]; apply keeps_refl|].
  destruct (dev_read blocks x blk) as [[st1 b] x1] eqn:E. apply dev_read_keeps in E as [Hk _].
  destruct st1; try (intros [= <- <- <-]; done).
  destruct (_ || _); intros [= <- <- <-]; done.
Qed.

Lemma load_root_ok blocks x blk r :
  readable x -> blocks <= bd_capacity D -> ST_FIRST_DATA <= blk < blocks ->
  root_at (view x) blk r -> root_sane r blocks = true ->
  exists x', load_root blocks x blk (rt_gen r) (rt_crc r) = (ST_OK, r, x').
Proof.
  intros Hr Hbl Hb [Hd Hc] Hs. unfold load_root, ST_FIRST_DATA in *.
  rewrite (proj2 (Z.ltb_ge blk 2)), Z.geb_leb, (proj2 (Z.leb_gt blocks blk)) by lia. simpl.
  destruct (dev_read_ok blocks x blk Hr) as (x' & ->); [lia|done|].
  rewrite Hd, Hc, Hs, !Z.eqb_refl, !andb_false_r. simpl. eauto.
Qed.

Lemma verify_loop_keeps blocks x blk todo i crc left cap st crc' out x' :
  verify_loop blocks x blk todo i crc left cap = (st, crc', out, x') ->
  keeps (fun _ => True) x x' /\
  (st = ST_OK -> crc' = ext_crc (view x) blk todo i crc left).
Proof.
  revert x i crc left st crc' out x'.
  induction todo as [|todo IH]; intros x i crc left st crc' out x'; cbn [verify_loop].
  { intros [= <- <- <- <-]. split; [apply keeps_refl|done]. }
  destruct (dev_read blocks x (blk + i)) as [[st1 b] x1] eqn:E.
  apply dev_read_keeps in E as [Hk Hb].
  destruct st1; try (intros [= <- <- <- <-]; by split).
  specialize (Hb eq_refl). cbv zeta.
  destruct (verify_loop _ _ _ _ _ _ _ _) as [[[st2 crc2] out2] x2] eqn:E2.
  apply IH in E2 as [Hk2 Hc2]. intros [= <- <- <- <-].
  split; [by eapply keeps_trans|]. intros Hst. rewrite (Hc2 Hst). cbn [ext_crc].
  rewrite Hb. assert (Hv : forall c, view x1 c = view x c) by (intros; by eapply keeps_view).
  clear -Hv. generalize (nx_crc32_update crc (take (Z.to_nat (if left <? ST_BLOCK then left else ST_BLOCK)) (view x (blk + i)))).
  generalize (left - (if left <? ST_BLOCK then left else ST_BLOCK)) as left'. generalize (i + 1).
  induction todo as [|todo IH]; intros j left' c; [done|]. cbn [ext_crc]. rewrite Hv. apply IH.
Qed.

Lemma ext_crc_ext g g' blk todo i crc left :
  (forall j, i <= j < i + Z.of_nat todo -> g' (blk + j) = g (blk + j)) ->
  ext_crc g' blk todo i crc left = ext_crc g blk todo i crc left.
Proof.
  revert i crc left. induction todo as [|todo IH]; intros i crc left Hg; [done|].
  cbn [ext_crc]. rewrite Hg by lia. apply IH. intros j Hj. apply Hg. lia.
Qed.

Lemma ext_bytes_ext g g' blk todo i left :
  (forall j, i <= j < i + Z.of_nat todo -> g' (blk + j) = g (blk + j)) ->
  ext_bytes g' blk todo i left = ext_bytes g blk todo i left.
Proof.
  revert i left. induction todo as [|todo IH]; intros i left Hg; [done|].
  cbn [ext_bytes]. rewrite Hg by lia. f_equal. apply IH. intros j Hj. apply Hg. lia.
Qed.

Lemma ext_ok_ext g g' o :
  (forall b, in_ext o b -> g' b = g b) -> ext_ok g o -> ext_ok g' o.
Proof.
  unfold ext_ok, in_ext. intros Hg <-. apply ext_crc_ext. intros j Hj. apply Hg. lia.
Qed.

Lemma obj_data_ext g g' o :
  (forall b, in_ext o b -> g' b = g b) -> obj_data g' o = obj_data g o.
Proof. unfold obj_data, in_ext. intros Hg. apply ext_bytes_ext. intros j Hj. apply Hg. lia. Qed.

(** Reading an extent whose blocks are all readable; the copied bytes are the
    object's when the buffer is large enough. *)
Lemma verify_loop_ok blocks x blk todo i crc left cap :
  readable x -> blocks <= bd_capacity D -> 0 <= blk -> 0 <= i -> blk + i + Z.of_nat todo <= blocks ->
  0 <= left ->
  exists out x', verify_loop blocks x blk todo i crc left cap =
    (ST_OK, ext_crc (view x) blk todo i crc left, out, x') /\
    (left = 0 \/ i * ST_BLOCK + left <= cap -> out = ext_bytes (view x) blk todo i left).
Proof.
  revert x i crc left. induction todo as [|todo IH];
    intros x i crc left Hr Hbl Hblk Hi Hfit Hleft; cbn [verify_loop].
  { exists [], x. split; [done|]. done. }
  destruct (dev_read_ok blocks x (blk + i) Hr) as (x1 & E); [lia|done|]. rewrite E.
  apply dev_read_keeps in E as [Hk _]. cbv zeta.
  set (n := if left <? ST_BLOCK then left else ST_BLOCK).
  assert (Hn : 0 <= n <= left) by (unfold n, ST_BLOCK; destruct (Z.ltb_spec left 4096); lia).
  destruct (IH x1 (i + 1) (nx_crc32_update crc (take (Z.to_nat n) (view x (blk + i)))) (left - n))
    as (out & x2 & -> & Hout); [by eapply keeps_readable|done|lia..|].
  eexists _, x2. split.
  - f_equal. f_equal. f_equal. cbn [ext_crc]. fold n.
    apply ext_crc_ext. intros j Hj. by eapply keeps_view.
  - intros Hcap. cbn [ext_bytes]. fold n. f_equal.
    + unfold ST_BLOCK in *. destruct (Z.ltb_spec (i * 4096) cap).
      * destruct (Z.ltb_spec (cap - i * 4096) n); [|done].
        assert (n = 0) as -> by lia. f_equal. lia.
      * assert (n = 0) as -> by lia. done.
    + rewrite Hout.
      * apply ext_bytes_ext. intros j Hj. by eapply keeps_view.
      * unfold n, ST_BLOCK in *. destruct (Z.ltb_spec left 4096); lia.
Qed.

Lemma verify_extent_keeps blocks x o cap st out x' :
  verify_extent blocks x o cap = (st, out, x') -> keeps (fun _ => True) x x'.
Proof.
  unfold verify_extent. destruct (verify_loop _ _ _ _ _ _ _ _) as [[[st1 c] out1] x1] eqn:E.
  apply verify_loop_keeps in E as [Hk _]. destruct st1; intros [= <- <- <-]; done.
Qed.

Lemma verify_extent_ok blocks x o cap :
  readable x -> blocks <= bd_capacity D -> 0 <= o_blk o -> 0 <= o_nblk o ->
  o_blk o + o_nblk o <= blocks -> 0 <= o_len o -> ext_ok (view x) o ->
  exists out x', verify_extent blocks x o cap = (ST_OK, out, x') /\
    (o_len o <= cap -> out = obj_data (view x) o).
Proof.
  intros Hr Hbl Hb Hn Hfit Hlen Hok. unfold verify_extent.
  destruct (verify_loop_ok blocks x (o_blk o) (Z.to_nat (o_nblk o)) 0 0 (o_len o) cap)
    as (out & x' & -> & Hout); [done|done|done|lia|lia|done|].
  rewrite Hok, Z.eqb_refl. exists out, x'. split; [done|]. intros Hc. apply Hout. lia.
Qed.

Lemma verify_objs_keeps blocks x os ok x' :
  verify_objs blocks x os = (ok, x') -> keeps (fun _ => True) x x'.
Proof.
  revert x. induction os as [|o os IH]; intros x; cbn [verify_objs].
  { intros [= <- <-]. apply keeps_refl. }
  destruct (verify_extent blocks x o 0) as [[st out] x1] eqn:E. apply verify_extent_keeps in E.
  destruct st; try (intros [= <- <-]; done). intros E2%IH. by eapply keeps_trans.
Qed.

Lemma verify_objs_ok blocks x os :
  readable x -> blocks <= bd_capacity D ->
  (forall o, o ∈ os -> 0 <= o_blk o /\ 0 <= o_nblk o /\ o_blk o + o_nblk o <= blocks /\
     0 <= o_len o /\ ext_ok (view x) o) ->
  exists x', verify_objs blocks x os = (true, x').
Proof.
  intros Hr Hbl. revert x Hr. induction os as [|o os IH]; intros x Hr Hos; cbn [verify_objs].
  { eauto. }
  destruct (Hos o) as (? & ? & ? & ? & Hok); [set_solver|].
  destruct (verify_extent_ok blocks x o 0) as (out & x1 & E & _); [done..|]. rewrite E.
  apply verify_extent_keeps in E. apply IH; [by eapply keeps_readable|].
  intros o' Ho'. destruct (Hos o') as (? & ? & ? & ? & Hok'); [set_solver|]. split_and!; try done.
  eapply ext_ok_ext; [|exact Hok']. intros b _. by eapply keeps_view.
Qed.
End io.
