(* ===== verification/StoreInv.v ===== *)
(** * nxstore: the invariant of a mounted store

    [store_ok]: the current generation is on the medium and its superblock slot
    selects it; [tx_ok]: the transaction being built is consistent and uses only
    blocks outside the current generation.  Every operation preserves them. *)
From S2P Require Import Prelude Bytes Bitmap Crc32 StoreFmt Store StoreDev StoreFacts StoreIo.

#[local] Opaque dec_root dec_super root_sane nx_crc32_update nx_crc32.

(** ** Stored structures *)

(** The superblock in [b] selects root [r] in block [blk]. *)
Definition slot_points (N : Z) (r : st_root) (blk : Z) (b : list Z) : Prop :=
  let sb := dec_super b in
  sb_magic sb = ST_SUPER_MAGIC /\ block_crc b = sb_crc sb /\ sb_version sb = ST_VERSION /\
  sb_block_size sb = ST_BLOCK /\ sb_block_count sb = N /\ sb_store_id sb = rt_store_id r /\
  sb_gen sb = rt_gen r /\ sb_root_blk sb = blk /\ sb_root_crc sb = rt_crc r.

(** A valid superblock in [b] is of a generation before [gen]. *)
Definition slot_older (gen : Z) (b : list Z) : Prop :=
  let sb := dec_super b in
  sb_magic sb = ST_SUPER_MAGIC -> block_crc b = sb_crc sb -> sb_gen sb < gen.

(** The map [m] marks block [blk] and every extent of [r]. *)
Definition marks (m : list Z) (r : st_root) (blk : Z) : Prop :=
  bit_get m blk = true /\ forall o b, o ∈ objs r -> in_ext o b -> bit_get m b = true.

(** The references a root keeps to other generations. *)
Definition refs (r : st_root) : list st_ref := hists r ++ (pin_ref <$> pins r).

(** The content of a generation: object names and data. *)
Definition kv (g : Z -> list Z) (r : st_root) : gmap (list Z) (list Z) :=
  list_to_map ((fun o => (cstr (o_name o), obj_data g o)) <$> objs r).

Section inv.
Context {D : Type} `{!st_dev D, !StDevLaws D}.
Implicit Types x : io D.

(** Root [r] in block [blk] and all its data are on the medium. *)
Definition gen_stored x (N : Z) (r : st_root) (blk : Z) : Prop :=
  ST_FIRST_DATA <= blk < N /\ root_wf r /\ root_good r N /\ settled x blk /\
  root_at (view x) blk r /\
  forall o, o ∈ objs r -> ext_ok (view x) o /\ forall b, in_ext o b -> settled x b.

Record store_ok (s : store) x : Prop := {
  so_flags : s_flags s = 0;
  so_capacity : ST_MIN_BLOCKS <= s_blocks s <= bd_capacity D;
  so_mounted : s_mounted s = true;
  so_slot : s_cur_slot s = 0 \/ s_cur_slot s = 1;
  so_used : map_ok (s_used s);
  so_gen : gen_stored x (s_blocks s) (s_cur s) (s_cur_blk s);
  so_settled : settled x (s_cur_slot s);
  so_points : slot_points (s_blocks s) (s_cur s) (s_cur_blk s) (view x (s_cur_slot s));
  so_other : holds x (1 - s_cur_slot s) (slot_older (rt_gen (s_cur s)));
  so_max : rt_gen (s_cur s) <= s_max_gen s < 2 ^ 64;
  so_boot : fits 64 (s_boot_id s);
  so_marks : marks (s_used s) (s_cur s) (s_cur_blk s);
  so_super : bit_get (s_used s) 0 = true /\ bit_get (s_used s) 1 = true;
}.

Lemma so_blocks s x : store_ok s x -> ST_MIN_BLOCKS <= s_blocks s <= ST_MAX_BLOCKS.
Proof. intros Hs. pose proof (so_capacity _ _ Hs). pose proof bd_capacity_max. lia. Qed.

(** Transaction state; [n] more puts fit the version and identity counters. *)
Record tx_ok (s : store) x (n : Z) : Prop := {
  to_store : store_ok s x;
  to_in : s_in_tx s = true;
  to_txused : map_ok (s_txused s);
  to_wf : root_wf (s_work s);
  to_magic : rt_magic (s_work s) = ST_ROOT_MAGIC;
  to_retain : ST_RETAIN_MIN <= rt_retain (s_work s) <= ST_RETAIN_MAX;
  to_nobj : rt_nobj (s_work s) <= ST_OBJ_MAX;
  to_npin : rt_npin (s_work s) <= ST_PIN_MAX;
  to_oid : rt_next_oid (s_work s) <> 0;
  to_pins : pins_good (s_max_gen s + 1) (s_blocks s) (pins (s_work s));
  to_objs : objs_good (rt_next_oid (s_work s)) (s_max_gen s + 1) (s_blocks s) (objs (s_work s));
  to_data : forall o, o ∈ objs (s_work s) -> ext_ok (view x) o /\
    forall b, in_ext o b -> bit_get (s_used s) b = true \/ bit_get (s_txused s) b = true;
  to_room : 0 <= n < 2 ^ 31 /\ s_max_gen s + 1 < 2 ^ 64 /\ rt_next_oid (s_work s) + n < 2 ^ 64 /\
    forall o, o ∈ objs (s_work s) -> o_version o + n < 2 ^ 32;
  to_pinref : forall p, p ∈ pins (s_work s) ->
    pin_ref p = mk_ref (rt_gen (s_cur s)) (s_cur_blk s) (rt_crc (s_cur s)) \/
    pin_ref p ∈ refs (s_cur s);
}.

(** ** Lemmas: encoded blocks *)

Lemma enc_ref_length r : length (enc_ref r) = 16%nat.
Proof. unfold enc_ref. by rewrite !length_app, !le_enc_length. Qed.

Lemma root_body_length r : root_wf r -> length (enc_root_body r) = 4092%nat.
Proof.
  intros ([H1 _] & _ & _ & _ & _ & _ & _ & _ & _ & _ & _ & _ & [H13 _] & [H14 _] &
    [H15 _] & [H16 F16] & [H17 F17] & [H18 F18] & [H19 _] & _).
  unfold enc_root_body. rewrite !length_app, !le_enc_length, H1, H13, H14, H19.
  rewrite (bind_length enc_ref _ 16), (bind_length enc_pin _ 32), (bind_length enc_log _ 32),
    (bind_length enc_obj _ 64).
  - rewrite H15, H16, H17, H18. done.
  - intros o Ho. eapply Forall_forall in F18; [|done]. destruct F18 as (_&_&_&_&_&_&_&_&[Hn _]).
    unfold enc_obj. by rewrite !length_app, !le_enc_length, Hn.
  - intros l Hl. eapply Forall_forall in F17; [|done]. destruct F17 as (_ & _ & [Hn _]).
    unfold enc_log. by rewrite !length_app, !le_enc_length, Hn.
  - intros p Hp. eapply Forall_forall in F16; [|done]. destruct F16 as ([Hn _] & _).
    unfold enc_pin. by rewrite length_app, enc_ref_length, Hn.
  - intros r' _. apply enc_ref_length.
Qed.

Lemma super_body_length s : super_wf s -> length (enc_super_body s) = 4092%nat.
Proof.
  intros ([H1 _] & _ & _ & _ & _ & _ & _ & _ & _ & _ & _ & [H12 _] & _).
  unfold enc_super_body. by rewrite !length_app, !le_enc_length, H1, H12.
Qed.

Lemma block_crc_app b t : length b = 4092%nat -> block_crc (b ++ t) = nx_crc32 b.
Proof. intros Hl. unfold block_crc. by rewrite <- Hl, take_app_length. Qed.

Lemma block_crc_fits b : fits 32 (block_crc b).
Proof. apply crc32_fits. Qed.

#[local] Opaque block_crc enc_root_body enc_super_body.

Lemma set_crc_wf w c : root_wf w -> fits 32 c -> root_wf (set_crc w c).
Proof. unfold root_wf. simpl. tauto. Qed.

(** A root written with its own checksum is accepted when read back. *)
Lemma root_at_enc g blk w :
  root_wf w -> let w' := set_crc w (block_crc (enc_root w)) in
  g blk = enc_root w' -> root_at g blk w'.
Proof.
  intros Hw w' Hg. pose proof (root_body_length w Hw) as Hl.
  split; rewrite Hg.
  - apply dec_enc_root, set_crc_wf; [done|apply block_crc_fits].
  - unfold w'. simpl. unfold enc_root. change (enc_root_body (set_crc w _)) with (enc_root_body w).
    by rewrite !block_crc_app.
Qed.

Lemma make_super_wf w blk N : root_wf w -> fits 32 blk -> fits 64 N -> super_wf (make_super w blk N).
Proof.
  intros Hw Hb HN. destruct Hw as (_&Hg&_&Hs&_&Hbo&_&_&_&_&Hr&_&_&_&_&_&_&_&_&Hc).
  unfold super_wf, make_super, chars. cbn -[replicate enc_super].
  match goal with |- context [block_crc ?b] => pose proof (block_crc_fits b) as Hk; revert Hk; generalize (block_crc b) end. intros k Hk.
  split_and!; try done; try (unfold fits; lia); try (apply Forall_replicate; unfold byte_ok; lia).
  repeat constructor; unfold byte_ok; lia.
Qed.

Lemma make_super_points w blk N :
  root_wf w -> fits 32 blk -> fits 64 N ->
  slot_points N w blk (enc_super (make_super w blk N)).
Proof.
  intros Hw Hb HN. pose proof (make_super_wf w blk N Hw Hb HN) as Hw1.
  pose proof (dec_enc_super _ Hw1) as Hd. unfold slot_points. rewrite Hd.
  split; [reflexivity|]. split; [|do 6 (split; [reflexivity|]); reflexivity].
  pose proof (super_body_length _ Hw1) as Hl1. unfold enc_super at 1. rewrite block_crc_app by done.
  unfold make_super at 2. cbn [sb_crc]. unfold enc_super. by rewrite block_crc_app.
Qed.

Lemma leaves_head s b : super_wf s -> leaves (enc_super s) b -> torn b \/ exists rest, b = super_head s ++ rest.
Proof.
  intros Hs. destruct (enc_super_head s Hs) as [Hl He].
  intros [Hn|[Ht|Ht]]; [|right|by left].
  - rewrite He, !length_app in Hn. destruct Hs as (_&_&_&_&_&_&_&_&_&_&_&[H12 _]&_). lia.
  - exists (drop 64 b). rewrite <- (take_drop 64 b) at 1. f_equal.
    change 64%nat with (64 `min` 512)%nat. rewrite <- take_take, Ht, take_take, He.
    change (64 `min` 512)%nat with 64%nat. by rewrite take_app_length' by done.
Qed.

(** What is left of a write of the superblock is torn or selects its root. *)
Lemma leaves_points w blk N b :
  root_wf w -> fits 32 blk -> fits 64 N -> leaves (enc_super (make_super w blk N)) b ->
  torn b \/ slot_points N w blk b.
Proof.
  intros Hw Hb HN Hl. pose proof (make_super_wf w blk N Hw Hb HN) as Hw1.
  destruct (leaves_head _ b Hw1 Hl) as [Ht|[rest ->]]; [by left|].
  destruct (decide (torn (super_head (make_super w blk N) ++ rest))) as [|Ht]; [by left|right].
  destruct (dec_super_head _ rest Hw1) as (E0 & E1 & E2 & E3 & E4 & E5 & E6 & E7).
  unfold slot_points. cbv zeta. rewrite E0, E1, E2, E3, E4, E5, E6, E7. split_and!; try done.
  by apply dec_stable.
Qed.
End inv.
