(* ===== verification/StoreTx.v ===== *)
(** * nxstore: transactions

    Every operation of an open transaction preserves [tx_ok], touches no block of
    the current generation, and acts on the object names and data like the
    corresponding operation on a finite map. *)
From S2P Require Import Prelude Bytes Bitmap Crc32 StoreFmt Store StoreDev StoreFacts StoreIo.
From S2P Require Import StoreInv.

#[local] Opaque block_crc dec_root dec_super enc_root_body enc_super_body root_sane
  nx_crc32_update nx_crc32.

(** ** Transaction operations *)

Inductive tx_op : Type :=
| TPut (name : list Z) (kind : Z) (data : list Z)
| TDel (name : list Z)
| TPin (pin : list Z) (gen : Z)
| TUnpin (pin : list Z)
| TPrune
| TReserve.

(** Arguments in the range of their C types. *)
Definition tx_op_ok (op : tx_op) : Prop :=
  match op with
  | TPut name kind data =>
      Forall byte_ok name /\ fits 16 kind /\ Forall byte_ok data /\ Z.of_nat (length data) < 2 ^ 32
  | TDel name | TUnpin name | TPin name _ => Forall byte_ok name
  | TPrune | TReserve => True
  end.

(** Effect of an operation with result [e] on the content of the transaction. *)
Definition kv_apply (m : gmap (list Z) (list Z)) (op : tx_op) (e : st_error) : gmap (list Z) (list Z) :=
  match op, e with
  | TPut name _ data, ST_OK => <[cstr name := data]> m
  | TDel name, ST_OK => delete (cstr name) m
  | _, _ => m
  end.

Section tx.
Context {D : Type} `{!st_dev D}.
Implicit Types x : io D.

Definition tx_exec (s : store) x (op : tx_op) : st_error * store * io D :=
  match op with
  | TPut name kind data => st_put s x name kind data
  | TDel name => let '(e, s) := st_del s name in (e, s, x)
  | TPin pin gen => let '(e, s) := st_pin s pin gen in (e, s, x)
  | TUnpin pin => let '(e, s) := st_unpin s pin in (e, s, x)
  | TPrune => (ST_OK, st_prune s, x)
  | TReserve => (ST_OK, st_allow_reserve s, x)
  end.

(** A caller that goes on whatever an operation returns; [m] is the content the
    results amount to. *)
Fixpoint tx_run (s : store) x (m : gmap (list Z) (list Z)) (ops : list tx_op)
    : gmap (list Z) (list Z) * store * io D :=
  match ops with
  | [] => (m, s, x)
  | op :: ops' =>
      let '(e, s, x) := tx_exec s x op in tx_run s x (kv_apply m op e) ops'
  end.
End tx.

(** ** Lemmas: object data *)

Lemma data_block_length data i : length (data_block data i) = 4096%nat.
Proof. unfold data_block. rewrite length_app, length_replicate, length_take. lia. Qed.

Lemma nblk_for_spec len : 0 <= len < 2 ^ 31 ->
  len <= nblk_for len * ST_BLOCK < len + ST_BLOCK /\ 0 <= nblk_for len.
Proof.
  intros Hl. unfold nblk_for, ST_BLOCK. rewrite wrap_small by (unfold fits; lia). dlia.
Qed.

Lemma ext_bytes_data g blk data todo i :
  0 <= i -> (forall j, i <= j < i + Z.of_nat todo -> g (blk + j) = data_block data j) ->
  Z.of_nat (length data) - i * ST_BLOCK <= Z.of_nat todo * ST_BLOCK ->
  ext_bytes g blk todo i (Z.max 0 (Z.of_nat (length data) - i * ST_BLOCK)) =
    drop (Z.to_nat (i * ST_BLOCK)) data.
Proof.
  unfold ST_BLOCK. revert i. induction todo as [|todo IH]; intros i Hi Hg Hl; cbn [ext_bytes].
  { rewrite drop_ge by lia. done. }
  rewrite Hg by lia. unfold ST_BLOCK.
  set (left := Z.max 0 (Z.of_nat (length data) - i * 4096)).
  set (n := if left <? 4096 then left else 4096).
  assert (Hn : n = Z.min left 4096) by (unfold n; destruct (Z.ltb_spec left 4096); lia).
  replace (left - n) with (Z.max 0 (Z.of_nat (length data) - (i + 1) * 4096)) by lia.
  rewrite IH by (intros; try apply Hg; lia).
  unfold data_block, ST_BLOCK. rewrite take_app_le by (rewrite length_take, length_drop; lia).
  rewrite take_take. replace (Z.to_nat n `min` 4096)%nat with (Z.to_nat n) by lia.
  replace (Z.to_nat ((i + 1) * 4096)) with (Z.to_nat (i * 4096) + 4096)%nat by lia.
  rewrite <- drop_drop. destruct (Z.ltb_spec left 4096).
  - rewrite (drop_ge (drop _ data)) by (rewrite length_drop; lia). rewrite app_nil_r.
    apply take_ge. rewrite length_drop. lia.
  - replace (Z.to_nat n) with 4096%nat by lia. apply take_drop.
Qed.

Lemma ext_crc_bytes g blk todo i crc left :
  fits 32 crc -> Forall byte_ok (ext_bytes g blk todo i left) ->
  ext_crc g blk todo i crc left = nx_crc32_update crc (ext_bytes g blk todo i left).
Proof.
  revert i crc left. induction todo as [|todo IH]; intros i crc left Hc Hb; cbn [ext_crc ext_bytes] in *.
  { rewrite crc_update_loop by done. unfold for_each. simpl. lia. }
  apply Forall_app in Hb as [H1 H2]. rewrite IH by (done || apply crc_update_fits).
  by rewrite crc_update_app.
Qed.

Lemma obj_data_new g data o :
  (forall j, 0 <= j < o_nblk o -> g (o_blk o + j) = data_block data j) ->
  o_len o = Z.of_nat (length data) -> o_len o < 2 ^ 31 -> o_nblk o = nblk_for (o_len o) ->
  Forall byte_ok data -> o_crc o = nx_crc32 data ->
  obj_data g o = data /\ ext_ok g o.
Proof.
  intros Hg Hl Hlt Hn Hb Hc. pose proof (nblk_for_spec (o_len o) ltac:(lia)) as Hs.
  unfold ST_BLOCK in Hs. rewrite <- Hn in Hs.
  pose proof (ext_bytes_data g (o_blk o) data (Z.to_nat (o_nblk o)) 0 ltac:(lia)) as He.
  unfold ST_BLOCK in He.
  assert (Hd : obj_data g o = data).
  { unfold obj_data. replace (o_len o) with (Z.max 0 (Z.of_nat (length data) - 0 * 4096)) by lia.
    rewrite He; [by rewrite drop_0|intros j Hj; apply Hg; lia|lia]. }
  split; [done|]. unfold ext_ok. rewrite ext_crc_bytes; fold (obj_data g o); rewrite ?Hd;
    [by rewrite Hc|unfold fits; lia|done].
Qed.

(** ** Lemmas: the object table *)

Lemma objs_nth r i : root_wf r -> rt_nobj r <= ST_OBJ_MAX -> 0 <= i < rt_nobj r ->
  objs r !! Z.to_nat i = Some (rt_obj r).[i].
Proof.
  intros Hw Hn Hi. apply arr_take_lookup; [|done].
  destruct Hw as (_&_&_&_&_&_&Hf&_&_&_&_&_&_&_&_&_&_&[Hl _]&_).
  unfold ST_OBJ_MAX, fits in *. rewrite Hl. lia.
Qed.

Lemma nobj_range r : root_wf r -> rt_nobj r <= ST_OBJ_MAX ->
  0 <= rt_nobj r <= 49 /\ length (rt_obj r) = 49%nat /\ Z.of_nat (length (objs r)) = rt_nobj r.
Proof.
  intros Hw Hn. destruct Hw as (_&_&_&_&_&_&Hf&_&_&_&_&_&_&_&_&_&_&[Hl _]&_).
  unfold ST_OBJ_MAX, fits, objs in *. rewrite length_take, Hl. lia.
Qed.

(** What [find_index] returns. *)
Lemma find_index_spec r name :
  root_wf r -> rt_nobj r <= ST_OBJ_MAX ->
  (find_index r name = -1 /\ forall o, o ∈ objs r -> cstr (o_name o) <> cstr name) \/
  (exists o, 0 <= find_index r name < rt_nobj r /\ objs r !! Z.to_nat (find_index r name) = Some o /\
     (rt_obj r).[find_index r name] = o /\ cstr (o_name o) = cstr name).
Proof.
  intros Hw Hn. pose proof (nobj_range r Hw Hn) as (Hr & Hl & _). unfold find_index.
  destruct (find_first _ _) as [i|] eqn:E.
  - right. apply find_first_elem in E as [Hi Hs]. apply elem_of_seqZ in Hi.
    exists (rt_obj r).[i]. split; [lia|]. split; [apply objs_nth; (done || lia)|].
    split; [done|]. by apply str_eq_cstr.
  - left. split; [done|]. intros o Ho. apply list_elem_of_lookup in Ho as [i Hi].
    assert (Hlt : (i < Z.to_nat (rt_nobj r))%nat) by (apply lookup_take_Some in Hi; tauto).
    apply find_first_None in E. rewrite Forall_forall in E. specialize (E (Z.of_nat i)) as Hf.
    rewrite elem_of_seqZ in Hf. specialize (Hf ltac:(lia)). apply str_eq_false in Hf.
    pose proof (objs_nth r (Z.of_nat i) Hw Hn ltac:(lia)) as Ho. rewrite Nat2Z.id in Ho, Hf.
    rewrite Hi in Ho. injection Ho as ->. done.
Qed.

(** Names of a good table are distinct, so a name determines its object. *)
Definition names_distinct (os : list st_obj) : Prop :=
  forall i j o p, os !! i = Some o -> os !! j = Some p -> i <> j ->
    cstr (o_name o) <> cstr (o_name p).

Lemma objs_good_names next gen N os : objs_good next gen N os -> names_distinct os.
Proof. intros [_ Hp] i j o p Hi Hj Hne. by destruct (Hp i j o p Hi Hj Hne). Qed.

Lemma kv_lookup g r k d :
  names_distinct (objs r) ->
  kv g r !! k = Some d <-> exists o, o ∈ objs r /\ cstr (o_name o) = k /\ obj_data g o = d.
Proof.
  intros Hd. unfold kv. rewrite <- elem_of_list_to_map.
  - rewrite list_elem_of_fmap. split.
    + intros (o & [= -> ->] & Ho). eauto.
    + intros (o & Ho & <- & <-). eauto.
  - rewrite <- list_fmap_compose. apply NoDup_alt. intros i j k' Hi Hj.
    rewrite list_lookup_fmap in Hi, Hj.
    destruct (objs r !! i) as [o|] eqn:Eo; [|done]. destruct (objs r !! j) as [p|] eqn:Ep; [|done].
    simpl in *. destruct (decide (i = j)); [done|]. exfalso.
    eapply (Hd i j o p); [done..|congruence].
Qed.

Lemma kv_ext g g' r :
  (forall o b, o ∈ objs r -> in_ext o b -> g' b = g b) -> kv g' r = kv g r.
Proof.
  intros Hg. unfold kv. f_equal. apply list_fmap_ext. intros i o Ho. f_equal.
  apply obj_data_ext. intros b Hb. eapply Hg; [|done]. by eapply list_elem_of_lookup_2.
Qed.

(** ** Frames *)

(** The parts of the state a transaction does not change. *)
Definition same_base (s s' : store) : Prop :=
  s_blocks s' = s_blocks s /\ s_flags s' = s_flags s /\ s_mounted s' = s_mounted s /\
  s_cur_slot s' = s_cur_slot s /\ s_cur_blk s' = s_cur_blk s /\ s_max_gen s' = s_max_gen s /\
  s_boot_id s' = s_boot_id s /\ s_cur s' = s_cur s /\ s_used s' = s_used s.

(** Blocks no operation of the open transaction may touch. *)
Definition protected (s : store) (b : Z) : Prop :=
  bit_get (s_used s) b = true \/ bit_get (s_txused s) b = true.

Section frames.
Context {D : Type} `{!st_dev D, !StDevLaws D}.
Implicit Types x : io D.

Lemma gen_stored_keeps (P : Z -> Prop) x x' N r blk :
  keeps P x x' -> P blk -> (forall o b, o ∈ objs r -> in_ext o b -> P b) ->
  gen_stored x N r blk -> gen_stored x' N r blk.
Proof.
  intros Hk Hb Ho (H1 & H2 & H3 & H4 & [H5 H6] & H7).
  split; [done|]. split; [done|]. split; [done|]. split; [by eapply keeps_settled|].
  split; [unfold root_at; by rewrite (keeps_view P x x')|].
  intros o Hin. destruct (H7 o Hin) as [He Hs]. split.
  - eapply ext_ok_ext; [|exact He]. intros b Hb'. eapply keeps_view; [done|]. by eapply Ho.
  - intros b Hb'. eapply keeps_settled; [done| |by apply Hs]. by eapply Ho.
Qed.

Lemma store_ok_keeps (P : Z -> Prop) s x x' :
  keeps P x x' -> (forall b, bit_get (s_used s) b = true -> P b) ->
  store_ok s x -> store_ok s x'.
Proof.
  intros Hk HP H. destruct H as [? ? ? Hslot ? Hg Hs Hp Ho ? ? [Hm1 Hm2] [Hb0 Hb1]].
  assert (P (s_cur_slot s) /\ P (1 - s_cur_slot s)) as [P1 P2]
    by (destruct Hslot as [-> | ->]; split; by apply HP).
  split; try done.
  - eapply gen_stored_keeps; [done|by apply HP| |done]. intros o b Hin Hb. by eapply HP, Hm2.
  - by eapply keeps_settled.
  - by rewrite (keeps_view P x x').
  - by eapply keeps_holds.
Qed.

Lemma store_ok_base s s' x : same_base s s' -> store_ok s x -> store_ok s' x.
Proof.
  intros (E1 & E2 & E3 & E4 & E5 & E6 & E7 & E8 & E9) [].
  split; rewrite ?E1, ?E2, ?E3, ?E4, ?E5, ?E6, ?E7, ?E8, ?E9; done.
Qed.

Lemma write_extent_spec s x blk nblk data st x' :
  0 <= blk -> Z.of_nat (length data) < 2 ^ 31 -> nblk = nblk_for (Z.of_nat (length data)) ->
  write_extent s x blk nblk data = (st, x') ->
  keeps (fun b => ~ (blk <= b < blk + nblk)) x x' /\
  (st = ST_OK -> forall j, 0 <= j < nblk -> view x' (blk + j) = data_block data j) /\
  (st = ST_OK \/ st = ST_E_IO).
Proof.
  intros Hblk Hlen Hn. set (len := Z.of_nat (length data)) in *.
  pose proof (nblk_for_spec len ltac:(lia)) as Hs. rewrite <- Hn in Hs.
  unfold write_extent. cbv zeta. fold len. set (full := len / ST_BLOCK).
  assert (Hfull : 0 <= full /\ full * ST_BLOCK <= len < (full + 1) * ST_BLOCK)
    by (unfold full, ST_BLOCK; dlia).
  unfold ST_BLOCK in *.
  destruct (if negb (full =? 0) then _ else _) as [st1 x1] eqn:E1.
  assert (H1 : keeps (fun b => ~ (blk <= b < blk + full)) x x1 /\
    (st1 = ST_OK -> forall j, 0 <= j < full -> view x1 (blk + j) = data_block data j) /\
    (st1 = ST_OK \/ st1 = ST_E_IO)).
  { destruct (Z.eqb_spec full 0) as [Hz|Hz]; simpl in E1.
    - injection E1 as <- <-. split; [apply keeps_refl|]. split; [intros; lia|by left].
    - apply dev_write_keeps in E1 as (Hk & Hv & Hst). rewrite length_fmap, length_seqZ in *.
      unfold in_write in *. replace (Z.of_nat (Z.to_nat full)) with full in * by lia.
      split; [done|]. split; [|done]. intros Hok j Hj. rewrite (Hv Hok) by lia.
      replace (blk + j - blk) with j by lia.
      rewrite list_lookup_total_alt, list_lookup_fmap, lookup_seqZ_lt by lia. simpl. f_equal. lia. }
  destruct H1 as (Hk1 & Hv1 & Hst1). destruct (is_ok st1) eqn:Eok; simpl.
  - assert (st1 = ST_OK) as -> by (by destruct st1). specialize (Hv1 eq_refl).
    destruct (Z.ltb_spec full nblk).
    + intros E2. apply dev_write_keeps in E2 as (Hk2 & Hv2 & Hst2). simpl in *.
      unfold in_write in *. split; [|split; [|done]].
      * eapply keeps_trans; [eapply keeps_mono; [|exact Hk1]|eapply keeps_mono; [|exact Hk2]];
          intros b; simpl; lia.
      * intros Hok j Hj. destruct (decide (j = full)) as [->|].
        -- rewrite (Hv2 Hok) by lia. by rewrite Z.sub_diag.
        -- rewrite (keeps_view _ _ _ _ Hk2) by (simpl; lia). apply Hv1. lia.
    + intros [= <- <-]. assert (nblk = full) as -> by lia. split; [done|]. split; [done|by left].
  - intros [= <- <-]. split; [|split; [by intros ->|done]].
    eapply keeps_mono; [|exact Hk1]. intros b. simpl. lia.
Qed.
End frames.

(** ** Lemmas: good tables *)

Lemma objs_good_app next gen N os o :
  objs_good next gen N os -> obj_good (next + 1) gen N o -> o_oid o = next ->
  (forall p, p ∈ os -> cstr (o_name o) <> cstr (o_name p)) -> (forall p, p ∈ os -> ext_disj o p) ->
  objs_good (next + 1) gen N (os ++ [o]).
Proof.
  intros [Hg Hp] Ho Hoid Hname Hext. split.
  - intros i q Hq. apply lookup_app_Some in Hq as [Hq|[_ Hq]].
    + apply Hg in Hq. unfold obj_good in *. intuition lia.
    + apply list_lookup_singleton_Some in Hq as [_ <-]. done.
  - assert (Hnew : forall q, q ∈ os -> compat o q).
    { intros q Hq. split; [by apply Hname|]. split; [|by apply Hext].
      apply list_elem_of_lookup in Hq as [i Hi]. apply Hg in Hi. unfold obj_good in Hi. lia. }
    intros i j p q Hi Hj Hne. apply lookup_app_Some in Hi as [Hi|[Hli Hi]];
      apply lookup_app_Some in Hj as [Hj|[Hlj Hj]].
    + by apply (Hp i j).
    + apply list_lookup_singleton_Some in Hj as [_ <-]. apply compat_sym, Hnew.
      by eapply list_elem_of_lookup_2.
    + apply list_lookup_singleton_Some in Hi as [_ <-]. apply Hnew. by eapply list_elem_of_lookup_2.
    + apply list_lookup_singleton_Some in Hi as [Hi _], Hj as [Hj _]. lia.
Qed.

Lemma objs_good_insert next gen N os k o p :
  objs_good next gen N os -> os !! k = Some p -> obj_good next gen N o ->
  cstr (o_name o) = cstr (o_name p) -> o_oid o = o_oid p -> (forall q, q ∈ os -> ext_disj o q) ->
  objs_good next gen N (<[k := o]> os).
Proof.
  intros [Hg Hp] Hk Ho Hname Hoid Hext. split.
  - intros i q Hq. apply list_lookup_insert_Some in Hq as [(_ & <- & _)|[_ Hq]]; [done|].
    by eapply Hg.
  - assert (Hnew : forall j q, os !! j = Some q -> j <> k -> compat o q).
    { intros j q Hj Hne. destruct (Hp k j p q Hk Hj ltac:(done)) as (H1 & H2 & _).
      split; [congruence|]. split; [congruence|]. by eapply Hext, list_elem_of_lookup_2. }
    intros i j q q' Hi Hj Hne.
    apply list_lookup_insert_Some in Hi as [(-> & <- & _)|[Hik Hi]];
      apply list_lookup_insert_Some in Hj as [(-> & <- & _)|[Hjk Hj]]; [done| | |].
    + eauto.
    + apply compat_sym. eauto.
    + by apply (Hp i j).
Qed.

Lemma lookup_delete_shift {A} (l : list A) i k x :
  delete i l !! k = Some x -> exists k', l !! k' = Some x /\ k' = (if decide (k < i)%nat then k else S k).
Proof.
  intros Hk. destruct (decide (k < i)%nat).
  - rewrite list_lookup_delete_lt in Hk by done. eauto.
  - rewrite list_lookup_delete_ge in Hk by lia. eauto.
Qed.

Lemma objs_good_delete next gen N os k :
  objs_good next gen N os -> objs_good next gen N (delete k os).
Proof.
  intros [Hg Hp]. split.
  - intros i o Hi. apply lookup_delete_shift in Hi as (i' & Hi & _). by eapply Hg.
  - intros i j o p Hi Hj Hne. apply lookup_delete_shift in Hi as (i' & Hi & Ei).
    apply lookup_delete_shift in Hj as (j' & Hj & Ej). apply (Hp i' j'); [done..|].
    destruct (decide (i < k)%nat), (decide (j < k)%nat); lia.
Qed.

Lemma elem_of_delete {A} (l : list A) k x : x ∈ delete k l -> x ∈ l.
Proof.
  rewrite list_elem_of_lookup. intros (i & Hi). apply lookup_delete_shift in Hi as (i' & Hi & _).
  by eapply list_elem_of_lookup_2.
Qed.

Lemma del_at_take {A} `{Inhabited A} idx n (zero : A) l :
  0 <= idx < n -> n <= Z.of_nat (length l) ->
  take (Z.to_nat (n - 1)) (del_at idx n zero l) = delete (Z.to_nat idx) (take (Z.to_nat n) l).
Proof.
  intros Hi Hn. unfold del_at. rewrite delete_take_drop, take_take.
  replace (Z.to_nat idx `min` Z.to_nat n)%nat with (Z.to_nat idx) by lia.
  replace (S (Z.to_nat idx)) with (Z.to_nat (idx + 1)) by lia.
  rewrite (assoc_L (++) (take _ _)). apply take_app_length'.
  rewrite length_app, length_drop, !length_take. lia.
Qed.

Lemma del_at_length {A} idx n (zero : A) l :
  0 <= idx < n -> n <= Z.of_nat (length l) -> length (del_at idx n zero l) = length l.
Proof.
  intros Hi Hn. unfold del_at. rewrite !length_app, !length_drop, !length_take. simpl. lia.
Qed.

Lemma del_at_Forall {A} (P : A -> Prop) idx n zero l :
  Forall P l -> P zero -> Forall P (del_at idx n zero l).
Proof.
  intros Hl Hz. unfold del_at. repeat apply Forall_app_2; try (by apply Forall_take || by apply Forall_drop).
  - by apply Forall_drop, Forall_take.
  - by constructor.
Qed.

(** ** Lemmas: contents *)

Lemma names_distinct_delete os k : names_distinct os -> names_distinct (delete k os).
Proof.
  intros Hd i j o p Hi Hj Hne. apply lookup_delete_shift in Hi as (i' & Hi & Ei).
  apply lookup_delete_shift in Hj as (j' & Hj & Ej). apply (Hd i' j'); [done..|].
  destruct (decide (i < k)%nat), (decide (j < k)%nat); lia.
Qed.

Lemma kv_put_app g g' w w' o data :
  objs w' = objs w ++ [o] -> (forall p, p ∈ objs w -> cstr (o_name o) <> cstr (o_name p)) ->
  obj_data g' o = data -> (forall p, p ∈ objs w -> obj_data g' p = obj_data g p) ->
  kv g' w' = <[cstr (o_name o) := data]> (kv g w).
Proof.
  intros Ho Hname Hd Hold. unfold kv. rewrite Ho, fmap_app. simpl. rewrite list_to_map_snoc, Hd.
  - f_equal. f_equal. apply list_fmap_ext. intros i p Hp. f_equal.
    by eapply Hold, list_elem_of_lookup_2.
  - rewrite <- list_fmap_compose. intros Hin. apply list_elem_of_fmap in Hin as (p & He & Hp).
    simpl in He. by apply (Hname p).
Qed.

Lemma kv_put_insert g g' w w' k o p data :
  names_distinct (objs w) -> objs w !! k = Some p -> objs w' = <[k := o]> (objs w) ->
  cstr (o_name o) = cstr (o_name p) -> obj_data g' o = data ->
  (forall q, q ∈ objs w -> obj_data g' q = obj_data g q) ->
  kv g' w' = <[cstr (o_name o) := data]> (kv g w).
Proof.
  intros Hnd Hk Ho Hname Hd Hold.
  assert (Hlt : (k < length (objs w))%nat) by by eapply lookup_lt_Some.
  assert (Hnd' : names_distinct (objs w')).
  { rewrite Ho. intros i j q q' Hi Hj Hne.
    apply list_lookup_insert_Some in Hi as [(-> & <- & _)|[Hik Hi]];
      apply list_lookup_insert_Some in Hj as [(-> & <- & _)|[Hjk Hj]]; [done| | |by apply (Hnd i j)].
    - rewrite Hname. by apply (Hnd i j).
    - rewrite Hname. by apply (Hnd i j). }
  apply map_eq. intros n. apply option_eq. intros d. rewrite kv_lookup by done.
  destruct (decide (n = cstr (o_name o))) as [->|Hne].
  - rewrite lookup_insert_eq. split.
    + intros (q & Hq & Hn & Hqd). rewrite Ho in Hq. apply list_elem_of_lookup in Hq as [j Hj].
      apply list_lookup_insert_Some in Hj as [(-> & <- & _)|[Hjk Hj]]; [congruence|].
      exfalso. apply (Hnd j k q p); [done..|congruence].
    + intros [= <-]. exists o. split; [|done]. rewrite Ho.
      eapply list_elem_of_lookup_2, list_lookup_insert_eq. done.
  - rewrite lookup_insert_ne by done. rewrite kv_lookup by done. split.
    + intros (q & Hq & Hn & Hqd). rewrite Ho in Hq. apply list_elem_of_lookup in Hq as [j Hj].
      apply list_lookup_insert_Some in Hj as [(-> & <- & _)|[Hjk Hj]]; [congruence|].
      exists q. apply list_elem_of_lookup_2 in Hj. split; [done|]. split; [done|]. by rewrite <- Hold.
    + intros (q & Hq & Hn & Hqd). apply list_elem_of_lookup in Hq as [j Hj]. exists q.
      split; [|split; [done|]].
      * rewrite Ho. apply list_elem_of_lookup_2 with j. rewrite list_lookup_insert_ne; [done|].
        intros ->. rewrite Hk in Hj. injection Hj as ->. congruence.
      * rewrite Hold; [done|]. by eapply list_elem_of_lookup_2.
Qed.

Lemma kv_delete g w w' k p :
  names_distinct (objs w) -> objs w !! k = Some p -> objs w' = delete k (objs w) ->
  kv g w' = delete (cstr (o_name p)) (kv g w).
Proof.
  intros Hnd Hk Ho.
  assert (Hnd' : names_distinct (objs w')) by (rewrite Ho; by apply names_distinct_delete).
  apply map_eq. intros n. apply option_eq. intros d. rewrite kv_lookup by done.
  destruct (decide (n = cstr (o_name p))) as [->|Hne].
  - rewrite lookup_delete_eq. split; [|done]. intros (q & Hq & Hn & _). exfalso.
    rewrite Ho in Hq. apply list_elem_of_lookup in Hq as [i Hi].
    apply lookup_delete_shift in Hi as (i' & Hi & Ei).
    apply (Hnd i' k q p); [done..| |done]. destruct (decide (i < k)%nat); lia.
  - rewrite lookup_delete_ne by done. rewrite kv_lookup by done. split.
    + intros (q & Hq & ?). exists q. rewrite Ho in Hq. by apply elem_of_delete in Hq.
    + intros (q & Hq & Hn & Hd). exists q. split; [|done]. rewrite Ho.
      apply list_elem_of_lookup in Hq as [i Hi]. apply list_elem_of_lookup.
      destruct (decide (i < k)%nat).
      * exists i. by rewrite list_lookup_delete_lt.
      * assert (i <> k) by (intros ->; rewrite Hk in Hi; injection Hi as ->; congruence).
        exists (i - 1)%nat. rewrite list_lookup_delete_ge by lia. by replace (S (i - 1)) with i by lia.
Qed.

(** ** Lemmas: operations preserve the invariant *)

Lemma set_objs_wf w next nobj obj :
  root_wf w -> fits 64 next -> fits 32 nobj -> length obj = 49%nat -> Forall obj_wf obj ->
  root_wf (set_objs w next nobj obj).
Proof. unfold root_wf. simpl. tauto. Qed.

Lemma set_pins_wf w npin pin :
  root_wf w -> fits 32 npin -> length pin = 4%nat -> Forall pin_wf pin ->
  root_wf (set_pins w npin pin).
Proof. unfold root_wf. simpl. tauto. Qed.

Lemma zero_obj_wf : obj_wf zero_obj.
Proof.
  unfold obj_wf, zero_obj, chars, fits. simpl. split_and!; try lia.
  repeat constructor; unfold byte_ok; lia.
Qed.

Lemma zero_pin_wf : pin_wf zero_pin.
Proof.
  unfold pin_wf, zero_pin, ref_wf, chars, fits. simpl. split_and!; try lia.
  repeat constructor; unfold byte_ok; lia.
Qed.

Section preservation.
Context {D : Type} `{!st_dev D, !StDevLaws D}.
Implicit Types x : io D.

Lemma tx_ok_less s x n m : tx_ok s x n -> 0 <= m <= n -> tx_ok s x m.
Proof.
  intros Ht Hm. pose proof (to_room _ _ _ Ht) as (? & ? & ? & Hv). destruct Ht.
  split; try done. split_and!; try lia. intros o Ho. specialize (Hv o Ho). lia.
Qed.

Lemma tx_ok_frame s s' x x' n :
  tx_ok s x n -> same_base s s' -> s_in_tx s' = true -> s_work s' = s_work s ->
  map_ok (s_txused s') -> (forall b, bit_get (s_txused s) b = true -> bit_get (s_txused s') b = true) ->
  keeps (protected s) x x' -> tx_ok s' x' n.
Proof.
  intros Ht Hb Hin Hw Hm Hmono Hk. destruct Ht as [Hs ? ? ? ? ? ? ? ? Hp Ho Hd Hr Hpr].
  pose proof Hb as (E1 & E2 & E3 & E4 & E5 & E6 & E7 & E8 & E9).
  split; rewrite ?Hw, ?E1, ?E5, ?E6, ?E8; try done.
  - eapply store_ok_base; [done|]. eapply store_ok_keeps; [done| |done]. intros b. by left.
  - intros o Hin'. destruct (Hd o Hin') as [He Hbits]. split.
    + eapply ext_ok_ext; [|exact He]. intros b Hb'. eapply keeps_view; [done|]. apply (Hbits b Hb').
    + intros b Hb'. rewrite E9. destruct (Hbits b Hb'); auto.
Qed.

Lemma put_entry_objs s w idx name kind blk nblk data :
  root_wf w -> rt_nobj w <= ST_OBJ_MAX -> (idx < 0 -> rt_nobj w <> ST_OBJ_MAX) ->
  (0 <= idx -> idx < rt_nobj w) ->
  objs (put_entry s w idx name kind blk nblk data) =
    if idx <? 0
    then objs w ++ [mk_obj (rt_next_oid w) (st_next_gen s) 1 blk (Z.of_nat (length data))
                      (nx_crc32 data) kind (u16 nblk) (str_copy 28 name)]
    else <[Z.to_nat idx := let o := (rt_obj w).[idx] in
             mk_obj (o_oid o) (st_next_gen s) (u32 (o_version o + 1)) blk
               (Z.of_nat (length data)) (nx_crc32 data) kind (u16 nblk) (o_name o)]> (objs w).
Proof.
  intros Hw Hn H1 H2. pose proof (nobj_range w Hw Hn) as (Hr & Hl & _).
  unfold put_entry, objs, ST_OBJ_MAX in *. cbv zeta. destruct (Z.ltb_spec idx 0); simpl.
  - rewrite wrap_small by (unfold fits; lia). apply arr_take_push. rewrite Hl. lia.
  - apply arr_take_set. lia.
Qed.

(** The new object of a put, its block range and its name. *)
Lemma new_obj_good (next gen N : Z) (o : st_obj) :
  str_nlen (o_name o) 28 <> 28 -> st_name_ok (o_name o) = true ->
  o_oid o <> 0 -> o_oid o < next -> o_version o <> 0 -> o_mod_gen o <> 0 -> o_mod_gen o <= gen ->
  o_len o <= ST_OBJ_MAX_BYTES -> o_nblk o = nblk_for (o_len o) ->
  (o_nblk o <> 0 -> ST_FIRST_DATA <= o_blk o /\ o_blk o + o_nblk o <= N) ->
  (o_nblk o = 0 -> o_blk o = 0) -> obj_good next gen N o.
Proof. unfold obj_good. tauto. Qed.

Lemma ext_disj_blocks o p :
  0 <= o_nblk o -> 0 <= o_nblk p -> (forall b, in_ext p b -> ~ in_ext o b) -> ext_disj o p.
Proof.
  unfold in_ext, ext_disj. intros Ho Hp Hd.
  destruct (decide (o_nblk o = 0)); [by left|]. destruct (decide (o_nblk p = 0)); [by right; left|].
  right. right. destruct (decide (o_blk o + o_nblk o <= o_blk p)); [by left|right].
  destruct (decide (o_blk p + o_nblk p <= o_blk o)); [done|exfalso].
  apply (Hd (Z.max (o_blk o) (o_blk p))); lia.
Qed.

Lemma tx_ok_work s x n n' w :
  tx_ok s x n -> root_wf w -> rt_magic w = ST_ROOT_MAGIC ->
  rt_retain w = rt_retain (s_work s) -> rt_nobj w <= ST_OBJ_MAX -> rt_npin w <= ST_PIN_MAX ->
  rt_next_oid w <> 0 -> pins_good (s_max_gen s + 1) (s_blocks s) (pins w) ->
  objs_good (rt_next_oid w) (s_max_gen s + 1) (s_blocks s) (objs w) ->
  (forall o, o ∈ objs w -> ext_ok (view x) o /\ forall b, in_ext o b -> protected s b) ->
  0 <= n' <= n -> rt_next_oid w + n' < 2 ^ 64 -> (forall o, o ∈ objs w -> o_version o + n' < 2 ^ 32) ->
  (forall p, p ∈ pins w -> pin_ref p = mk_ref (rt_gen (s_cur s)) (s_cur_blk s) (rt_crc (s_cur s)) \/
     pin_ref p ∈ refs (s_cur s)) ->
  tx_ok (set_work s w) x n'.
Proof.
  intros Ht Hw Hmag Hret Hno Hnp Hoid Hp Ho Hd Hn Hnext Hv Hpr.
  pose proof (to_room _ _ _ Ht) as (Hn31 & Hmax & _). pose proof (to_retain _ _ _ Ht).
  destruct Ht as [Hs ? ? ? ? ? ? ? ? ? ? ? ? ?].
  split; simpl; try done; [by eapply store_ok_base; [|exact Hs]|by rewrite Hret|].
  split_and!; try done; lia.
Qed.

Section put_entry.
Variables (s : store) (x : io D) (n : Z) (name data : list Z) (kind blk : Z).
Let w := s_work s.
Let idx := find_index w name.
Let len := Z.of_nat (length data).
Let nblk := nblk_for len.

Hypothesis Ht : tx_ok s x (n + 1).
Hypothesis Hn : 0 <= n.
Hypothesis Hname : st_name_ok name = true.
Hypothesis Hbytes : Forall byte_ok name /\ fits 16 kind /\ Forall byte_ok data.
Hypothesis Hlen : len <= ST_OBJ_MAX_BYTES.
Hypothesis Hfull : idx < 0 -> rt_nobj w <> ST_OBJ_MAX.
Hypothesis Hblk0 : nblk = 0 -> blk = 0.
Hypothesis Hblk : nblk <> 0 -> ST_FIRST_DATA <= blk /\ blk + nblk <= s_blocks s.
Hypothesis Hview : forall j, 0 <= j < nblk -> view x (blk + j) = data_block data j.
Hypothesis Htx : forall b, blk <= b < blk + nblk -> bit_get (s_txused s) b = true.
Hypothesis Hdisj : forall p b, p ∈ objs w -> in_ext p b -> ~ (blk <= b < blk + nblk).

Definition put_obj : st_obj :=
  if idx <? 0
  then mk_obj (rt_next_oid w) (st_next_gen s) 1 blk len (nx_crc32 data) kind (u16 nblk)
         (str_copy 28 name)
  else let o := (rt_obj w).[idx] in
       mk_obj (o_oid o) (st_next_gen s) (u32 (o_version o + 1)) blk len (nx_crc32 data) kind
         (u16 nblk) (o_name o).

Lemma put_sizes :
  0 <= nblk <= 8 /\ u16 nblk = nblk /\ fits 32 blk /\ fits 32 len /\ len < 2 ^ 31 /\
  st_next_gen s = s_max_gen s + 1 /\ 0 < s_max_gen s + 1 < 2 ^ 64.
Proof using All.
  pose proof (to_room _ _ _ Ht) as (_ & Hmax & _).
  pose proof (so_max _ _ (to_store _ _ _ Ht)) as Hmg.
  destruct (so_gen _ _ (to_store _ _ _ Ht)) as (_ & (_ & [Hg0 _] & _) & _).
  unfold ST_OBJ_MAX_BYTES, ST_OBJ_MAX_BLOCKS, ST_BLOCK in *.
  pose proof (nblk_for_spec len ltac:(unfold len in *; lia)) as Hnb. fold nblk in Hnb.
  unfold ST_BLOCK in Hnb. pose proof (so_blocks _ _ (to_store _ _ _ Ht)) as Hbl.
  unfold ST_MAX_BLOCKS, ST_FIRST_DATA in *.
  assert (0 <= nblk <= 8) by lia.
  assert (fits 32 blk) by (unfold fits; destruct (decide (nblk = 0)); lia).
  unfold st_next_gen. rewrite !wrap_small by (unfold fits; lia).
  split_and!; try done; unfold fits, len in *; lia.
Qed.

Lemma put_obj_wf : obj_wf put_obj /\ obj_data (view x) put_obj = data /\ ext_ok (view x) put_obj /\
  (forall b, in_ext put_obj b <-> blk <= b < blk + nblk).
Proof using All.
  destruct put_sizes as (Hnb & Hu & Hfb & Hfl & Hl31 & Hng & Hg).
  destruct Hbytes as (Hbn & Hk & Hbd).
  assert (Hfields : o_blk put_obj = blk /\ o_nblk put_obj = nblk /\ o_len put_obj = len /\
    o_crc put_obj = nx_crc32 data).
  { unfold put_obj. cbv zeta. rewrite Hu. by destruct (idx <? 0). }
  destruct Hfields as (E1 & E2 & E3 & E4).
  assert (Hd : obj_data (view x) put_obj = data /\ ext_ok (view x) put_obj).
  { apply obj_data_new; rewrite ?E1, ?E2, ?E3, ?E4; done. }
  split; [|split; [apply Hd|split; [apply Hd|by intros b; unfold in_ext; rewrite E1, E2]]].
  pose proof (to_room _ _ _ Ht) as (_ & _ & Hoid & Hver). fold w in Hoid, Hver.
  assert (Hcrc : fits 32 (nx_crc32 data)) by apply crc32_fits.
  assert (Hfn : fits 16 nblk) by (unfold fits; lia).
  assert (Hfg : fits 64 (s_max_gen s + 1)) by (unfold fits; lia).
  destruct (find_index_spec w name (to_wf _ _ _ Ht) (to_nobj _ _ _ Ht)) as [[Hi _]|(o & Hi & Ho & Eo & _)];
    fold idx in Hi; unfold put_obj; cbv zeta; rewrite Hu, Hng.
  - rewrite Hi. simpl. assert (fits 64 (rt_next_oid w)).
    { pose proof (to_wf _ _ _ Ht) as (_&_&_&_&Hf&_). done. }
    unfold obj_wf. simpl. split_and!; try done.
    split; [by apply str_copy_length; lia|by apply str_copy_bytes].
  - rewrite (proj2 (Z.ltb_ge idx 0)) by lia. fold idx in Ho, Eo. rewrite Eo.
    destruct (objs_lookup_wf w _ o (to_wf _ _ _ Ht) Ho) as (Hw1&_&Hw3&_&_&_&_&_&Hw9).
    unfold obj_wf. simpl. split_and!; try done; [apply wrap_fits; lia|apply Hw9..].
Qed.

Lemma put_obj_good :
  obj_good (if idx <? 0 then rt_next_oid w + 1 else rt_next_oid w) (s_max_gen s + 1) (s_blocks s)
    put_obj /\ o_version put_obj + n < 2 ^ 32.
Proof using All.
  destruct put_sizes as (Hnb & Hu & Hfb & Hfl & Hl31 & Hng & Hg).
  pose proof (to_room _ _ _ Ht) as (Hn31 & _ & Hoid & Hver). fold w in Hoid, Hver.
  pose proof (to_oid _ _ _ Ht) as Ho0. fold w in Ho0.
  destruct (find_index_spec w name (to_wf _ _ _ Ht) (to_nobj _ _ _ Ht)) as [[Hi _]|(o & Hi & Ho & Eo & _)];
    fold idx in Hi; unfold put_obj; cbv zeta; rewrite Hu, Hng.
  - rewrite Hi. simpl. split; [|lia]. apply new_obj_good; simpl; try done; try lia.
    + apply (str_copy_nlen 28). lia.
    + by apply name_ok_copy.
  - rewrite (proj2 (Z.ltb_ge idx 0)) by lia. fold idx in Ho, Eo. rewrite Eo.
    destruct (to_objs _ _ _ Ht) as [Hgood _]. pose proof (Hgood _ _ Ho) as Go.
    specialize (Hver o ltac:(by eapply list_elem_of_lookup_2)).
    destruct (objs_lookup_wf w _ o (to_wf _ _ _ Ht) Ho) as (_&_&Hw3&_).
    unfold obj_good, fits in Go, Hw3. rewrite wrap_small by (unfold fits; lia).
    split; [|simpl; lia]. apply new_obj_good; simpl; try tauto; try lia.
Qed.

Lemma put_entry_ok :
  let w' := put_entry s w idx name kind blk nblk data in
  tx_ok (set_work s w') x n /\ kv (view x) w' = <[cstr name := data]> (kv (view x) w).
Proof using All.
  intros w'. destruct put_obj_wf as (Hwf & Hdata & Hext & Hin). destruct put_obj_good as [Hgood Hver].
  destruct put_sizes as (Hnb & Hu & Hfb & Hfl & Hl31 & Hng & Hg).
  pose proof (to_wf _ _ _ Ht) as Hww. pose proof (to_nobj _ _ _ Ht) as Hno. fold w in Hww, Hno.
  pose proof (nobj_range w Hww Hno) as (Hr & Hlo & _).
  pose proof (to_room _ _ _ Ht) as (_ & _ & Hoid & Hvers). fold w in Hoid, Hvers.
  pose proof (to_objs _ _ _ Ht) as Hobjs. fold w in Hobjs.
  pose proof (find_index_spec w name Hww Hno) as Hfi. fold idx in Hfi.
  assert (Hdis : forall p, p ∈ objs w -> ext_disj put_obj p).
  { intros p Hp. apply ext_disj_blocks.
    - unfold obj_wf, fits in Hwf. tauto.
    - apply list_elem_of_lookup in Hp as [i Hi]. pose proof (objs_lookup_wf w i p Hww Hi) as Hpw.
      unfold obj_wf, fits in Hpw. tauto.
    - intros b Hb. rewrite Hin. by eapply Hdisj. }
  assert (Hobj' : objs w' = if idx <? 0 then objs w ++ [put_obj] else <[Z.to_nat idx := put_obj]> (objs w)).
  { unfold w'. rewrite put_entry_objs; [|done|done|done|].
    - unfold put_obj. by destruct (idx <? 0).
    - intros Hi. destruct Hfi as [[? _]|(o & ? & _)]; lia. }
  assert (Hwf' : root_wf w').
  { unfold w', put_entry. cbv zeta. pose proof Hww as (_&_&_&_&Hf5&_&_&_&_&_&_&_&_&_&_&_&_&[_ Hall]&_).
    unfold put_obj in Hwf. cbv zeta in Hwf. fold len. destruct (idx <? 0).
    - apply set_objs_wf; [done|apply wrap_fits; lia..|by rewrite arr_set_length|].
      by apply Forall_insert.
    - apply set_objs_wf; [done|done|unfold fits; lia|by rewrite arr_set_length|].
      by apply Forall_insert. }
  assert (Hnext : rt_next_oid w' = if idx <? 0 then rt_next_oid w + 1 else rt_next_oid w).
  { unfold w', put_entry. cbv zeta. destruct (idx <? 0); [|done]. simpl.
    pose proof Hww as (_&_&_&_&Hf5&_). apply wrap_small. unfold fits in *. lia. }
  assert (Hnobj' : rt_nobj w' <= ST_OBJ_MAX).
  { unfold w', put_entry, ST_OBJ_MAX in *. cbv zeta. destruct (Z.ltb_spec idx 0); simpl; [|lia].
    rewrite wrap_small by (unfold fits; lia). specialize (Hfull ltac:(lia)). lia. }
  assert (Hother : rt_magic w' = rt_magic w /\ rt_retain w' = rt_retain w /\ rt_npin w' = rt_npin w /\
    pins w' = pins w).
  { unfold w', put_entry. cbv zeta. by destruct (idx <? 0). }
  destruct Hother as (Em & Er & Enp & Epins).
  assert (Hsub : forall o, o ∈ objs w' -> o = put_obj \/ o ∈ objs w).
  { intros o. rewrite Hobj'. destruct (idx <? 0); [set_solver|].
    intros [i Hi]%list_elem_of_lookup.
    apply list_lookup_insert_Some in Hi as [(_ & <- & _)|[_ Hi]]; [by left|right].
    by eapply list_elem_of_lookup_2. }
  pose proof (to_oid _ _ _ Ht) as Ho0. fold w in Ho0.
  pose proof Hww as (_&_&_&_&Hf5&_). unfold fits in Hf5.
  split.
  - apply (tx_ok_work s x (n + 1)); rewrite ?Enp, ?Epins, ?Em, ?Er; try done; try apply Ht; try lia.
    + rewrite Hnext. destruct (idx <? 0); lia.
    + rewrite Hnext, Hobj'. destruct (Z.ltb_spec idx 0) as [Hlt|Hge].
      * apply objs_good_app; try done; [by unfold put_obj; rewrite (proj2 (Z.ltb_lt idx 0))|].
        intros p Hp. destruct Hfi as [[_ Hnm]|(o & ? & _)]; [|lia].
        unfold put_obj. rewrite (proj2 (Z.ltb_lt idx 0)) by done. simpl.
        rewrite str_copy_cstr by (by apply name_ok_length). intros He. by apply (Hnm p).
      * destruct Hfi as [[? _]|(o & _ & Ho & Eo & _)]; [lia|].
        eapply objs_good_insert; try done; unfold put_obj;
          rewrite (proj2 (Z.ltb_ge idx 0)) by done; cbv zeta; simpl; by rewrite Eo.
    + intros o [->|Ho]%Hsub.
      * split; [done|]. intros b Hb%Hin. right. by apply Htx.
      * by apply (to_data _ _ _ Ht).
    + rewrite Hnext. destruct (idx <? 0); lia.
    + intros o [->|Ho]%Hsub; [done|]. specialize (Hvers o Ho). lia.
  - destruct (Z.ltb_spec idx 0) as [Hlt|Hge].
    + destruct Hfi as [[_ Hnm]|(o & ? & _)]; [|lia].
      assert (Hcn : cstr (o_name put_obj) = cstr name).
      { unfold put_obj. rewrite (proj2 (Z.ltb_lt idx 0)) by done. simpl.
        by apply str_copy_cstr, name_ok_length. }
      rewrite <- Hcn. eapply kv_put_app; [done| |done|done].
      intros p Hp. rewrite Hcn. intros He. by apply (Hnm p).
    + destruct Hfi as [[? _]|(o & _ & Ho & Eo & Hcn)]; [lia|]. rewrite <- Hcn.
      assert (Hcn' : cstr (o_name put_obj) = cstr (o_name o)).
      { unfold put_obj. rewrite (proj2 (Z.ltb_ge idx 0)) by done. cbv zeta. simpl. by rewrite Eo. }
      rewrite <- Hcn'. eapply kv_put_insert; [by eapply objs_good_names|done..].
Qed.
End put_entry.

(** What every operation of a transaction guarantees. *)
Definition step_ok (s : store) x (s' : store) x' (n : Z) (m : gmap (list Z) (list Z)) : Prop :=
  tx_ok s' x' n /\ same_base s s' /\ keeps (protected s) x x' /\
  (forall b, protected s b -> protected s' b) /\ kv (view x') (s_work s') = m.

Lemma step_ok_refl s x n m :
  tx_ok s x (n + 1) -> 0 <= n -> kv (view x) (s_work s) = m -> step_ok s x s x n m.
Proof.
  intros Ht Hn Hm. split; [eapply tx_ok_less; [done|lia]|]. split; [done|].
  split; [apply keeps_refl|]. done.
Qed.

Lemma step_ok_tx s x n b1 b2 m :
  tx_ok s x (n + 1) -> 0 <= n -> kv (view x) (s_work s) = m ->
  step_ok s x (set_tx s true b1 b2 (s_txused s)) x n m.
Proof.
  intros Ht Hn Hm. split.
  { eapply tx_ok_frame; [eapply (tx_ok_less _ _ (n + 1)); [done|lia]|done..| | |apply keeps_refl].
    - apply Ht.
    - done. }
  split; [done|]. split; [apply keeps_refl|]. done.
Qed.

Lemma put_ok s x n name kind data e s' x' :
  tx_ok s x (n + 1) -> 0 <= n -> tx_op_ok (TPut name kind data) ->
  st_put s x name kind data = (e, s', x') ->
  step_ok s x s' x' n (kv_apply (kv (view x) (s_work s)) (TPut name kind data) e).
Proof.
  intros Ht Hn (Hb1 & Hb2 & Hb3 & Hl32). unfold st_put. cbv zeta.
  rewrite (so_mounted _ _ (to_store _ _ _ Ht)), (to_in _ _ _ Ht). simpl.
  destruct (st_name_ok name) eqn:Hname; simpl; [|intros [= <- <- <-]; by apply step_ok_refl].
  destruct (Z.gtb_spec (Z.of_nat (length data)) ST_OBJ_MAX_BYTES) as [|Hlen];
    [intros [= <- <- <-]; by apply step_ok_refl|].
  destruct ((_ <? 0) && _) eqn:Hfull; [intros [= <- <- <-]; by apply step_ok_refl|].
  assert (Hfull' : find_index (s_work s) name < 0 -> rt_nobj (s_work s) <> ST_OBJ_MAX).
  { intros Hi ?. rewrite (proj2 (Z.ltb_lt _ _)), (proj2 (Z.eqb_eq _ _)) in Hfull by done. done. }
  set (nblk := nblk_for (Z.of_nat (length data))). pose proof (to_store _ _ _ Ht) as Hst.
  assert (Hnb : 0 <= nblk) by (apply nblk_for_spec; unfold ST_OBJ_MAX_BYTES, ST_OBJ_MAX_BLOCKS, ST_BLOCK in *; lia).
  destruct (Z.eqb_spec nblk 0) as [Hz|Hz]; simpl.
  - intros [= <- <- <-].
    pose proof (put_entry_ok s x n name data kind 0) as Hpe. cbv zeta in Hpe. fold nblk in Hpe.
    rewrite Hz in Hpe |- *. destruct Hpe as [Hok Hkv]; try done; try (intros; lia).
  - destruct (alloc s nblk (s_tx_reserve s)) as [blk s1] eqn:Ea.
    apply alloc_spec in Ea as [[-> ->]|(Hb & Hbn & Hfree & m & -> & Hm & Hmono & Hbits)];
      [| |apply Hst|apply Ht|apply (so_blocks _ _ Hst)|lia].
    { simpl. intros [= <- <- <-]. by apply step_ok_refl. }
    unfold ST_FIRST_DATA in Hb. rewrite (proj2 (Z.eqb_neq blk 0)) by lia.
    destruct (write_extent _ x blk nblk data) as [st x1] eqn:Ew.
    apply write_extent_spec in Ew as (Hk & Hv & Hst1);
      [|lia|unfold ST_OBJ_MAX_BYTES, ST_OBJ_MAX_BLOCKS, ST_BLOCK in *; lia|done].
    assert (Hk' : keeps (protected s) x x1).
    { eapply keeps_mono; [|exact Hk]. intros b [Hb'|Hb'] Hr; destruct (Hfree b Hr); congruence. }
    assert (Ht1 : tx_ok (set_txused s m) x1 (n + 1)).
    { eapply tx_ok_frame; [exact Ht|done|apply Ht|done|done|done|done]. }
    assert (Hkv1 : kv (view x1) (s_work s) = kv (view x) (s_work s)).
    { apply kv_ext. intros o b Ho Hb'. eapply keeps_view; [done|]. by apply (to_data _ _ _ Ht o). }
    assert (Hprot : forall b, protected s b -> protected (set_txused s m) b).
    { intros b [?|?]; [by left|right]. by apply Hmono. }
    destruct Hst1 as [Est|Est]; rewrite Est; intros [= <- <- <-].
    + assert (Hdisj : forall p b, p ∈ objs (s_work s) -> in_ext p b -> ~ (blk <= b < blk + nblk)).
      { intros p b Hp Hb' Hr. destruct (Hfree b Hr).
        destruct (to_data _ _ _ Ht p Hp) as [_ Hpb]. destruct (Hpb b Hb'); congruence. }
      destruct (put_entry_ok (set_txused s m) x1 n name data kind blk Ht1 Hn Hname
        (conj Hb1 (conj Hb2 Hb3)) Hlen Hfull' ltac:(done) (fun _ => conj Hb Hbn) (Hv Est) Hbits Hdisj)
        as [Hok Hkv].
      split; [exact Hok|]. split; [done|]. split; [done|]. split; [done|].
      simpl in Hkv. rewrite Hkv1 in Hkv. exact Hkv.
    + split; [eapply tx_ok_less; [exact Ht1|lia]|]. split; [done|]. split; [done|]. by split.
Qed.

Lemma del_ok s x n name e s' :
  tx_ok s x (n + 1) -> 0 <= n -> st_del s name = (e, s') ->
  step_ok s x s' x n (kv_apply (kv (view x) (s_work s)) (TDel name) e).
Proof.
  intros Ht Hn. unfold st_del. cbv zeta.
  rewrite (so_mounted _ _ (to_store _ _ _ Ht)), (to_in _ _ _ Ht). simpl.
  set (w := s_work s). pose proof (to_wf _ _ _ Ht) as Hww. pose proof (to_nobj _ _ _ Ht) as Hno.
  fold w in Hww, Hno. pose proof (nobj_range w Hww Hno) as (Hr & Hlo & _).
  destruct (find_index_spec w name Hww Hno) as [[Hi _]|(o & Hi & Ho & Eo & Hcn)].
  { rewrite Hi. simpl. intros [= <- <-]. by apply step_ok_refl. }
  set (idx := find_index w name) in *. rewrite (proj2 (Z.ltb_ge idx 0)) by lia.
  intros [= <- <-].
  set (w' := set_objs _ _ _ _).
  assert (Hobj' : objs w' = delete (Z.to_nat idx) (objs w)).
  { unfold objs, w'. simpl. apply del_at_take; [lia|]. rewrite Hlo. lia. }
  pose proof (to_room _ _ _ Ht) as (Hn31 & Hmx & Hoid & Hvers).
  split; [|split; [done|split; [apply keeps_refl|split; [done|]]]].
  - apply (tx_ok_work s x (n + 1)); try done; try apply Ht; try lia.
    + pose proof Hww as (_&_&_&_&Hf5&_&_&_&_&_&_&_&_&_&_&_&_&[_ Hall]&_).
      apply set_objs_wf; [done|done|unfold fits; lia| |].
      * rewrite del_at_length; [done|lia|rewrite Hlo; lia].
      * apply del_at_Forall; [done|apply zero_obj_wf].
    + unfold w', ST_OBJ_MAX in *. simpl. lia.
    + rewrite Hobj'. apply objs_good_delete, Ht.
    + intros p Hp. rewrite Hobj' in Hp. apply elem_of_delete in Hp. by apply (to_data _ _ _ Ht).
    + unfold w'. simpl. fold w in Hoid. lia.
    + intros p Hp. rewrite Hobj' in Hp. apply elem_of_delete in Hp. specialize (Hvers p Hp). lia.
  - simpl. rewrite <- Hcn. eapply kv_delete; [|done|done]. eapply objs_good_names, Ht.
Qed.

Lemma prune_ok s x n :
  tx_ok s x (n + 1) -> 0 <= n ->
  step_ok s x (st_prune s) x n (kv (view x) (s_work s)).
Proof. intros Ht Hn. unfold st_prune. rewrite (to_in _ _ _ Ht). by apply step_ok_tx. Qed.

Lemma reserve_ok s x n :
  tx_ok s x (n + 1) -> 0 <= n ->
  step_ok s x (st_allow_reserve s) x n (kv (view x) (s_work s)).
Proof. intros Ht Hn. unfold st_allow_reserve. rewrite (to_in _ _ _ Ht). by apply step_ok_tx. Qed.

Lemma npin_range r : root_wf r -> rt_npin r <= ST_PIN_MAX ->
  0 <= rt_npin r <= 4 /\ length (rt_pin r) = 4%nat /\ Z.of_nat (length (pins r)) = rt_npin r.
Proof.
  intros Hw Hn. destruct Hw as (_&_&_&_&_&_&_&_&Hf&_&_&_&_&_&_&[Hl _]&_).
  unfold ST_PIN_MAX, fits, pins in *. rewrite length_take, Hl. lia.
Qed.

Lemma find_pin_spec r name :
  root_wf r -> rt_npin r <= ST_PIN_MAX ->
  match find_pin r name with
  | None => forall p, p ∈ pins r -> cstr (pin_name p) <> cstr name
  | Some i => 0 <= i < rt_npin r
  end.
Proof.
  intros Hw Hn. pose proof (npin_range r Hw Hn) as (Hr & Hl & _). unfold find_pin.
  destruct (find_first _ _) as [i|] eqn:E.
  - apply find_first_elem in E as [Hi _]. apply elem_of_seqZ in Hi. lia.
  - intros p Hp. apply find_first_None in E. rewrite Forall_forall in E.
    apply list_elem_of_lookup in Hp as [i Hi].
    assert (Hlt : (i < Z.to_nat (rt_npin r))%nat) by (apply lookup_take_Some in Hi; tauto).
    specialize (E (Z.of_nat i)). rewrite elem_of_seqZ in E. specialize (E ltac:(lia)).
    apply str_eq_false in E. pose proof (arr_take_lookup (rt_pin r) (rt_npin r) (Z.of_nat i)) as Hp.
    rewrite Nat2Z.id in E, Hp. unfold pins in Hi. rewrite Hi in Hp.
    rewrite Hl in Hp. specialize (Hp ltac:(lia) ltac:(lia)). injection Hp as ->. done.
Qed.

(** A reference found in the current root is one it keeps. *)
Lemma find_ref_spec s ref gen :
  root_wf (s_cur s) -> root_good (s_cur s) (s_blocks s) -> find_ref s gen = Some ref ->
  ref = mk_ref (rt_gen (s_cur s)) (s_cur_blk s) (rt_crc (s_cur s)) \/ ref ∈ refs (s_cur s).
Proof.
  intros Hw Hg. unfold find_ref. cbv zeta. destruct (_ =? _); [intros [= <-]; by left|].
  pose proof Hw as (_&_&_&_&_&_&_&Hfh&_&_&_&_&_&_&[Hlh _]&_).
  destruct Hg as ((_&_&_&_&Hnh&Hnp&_)&_). unfold ST_HIST_MAX in Hnh.
  pose proof (npin_range (s_cur s) Hw Hnp) as (Hr & Hl & _).
  destruct (find_first _ (seqZ 0 (rt_nhist _))) as [i|] eqn:E.
  - intros [= <-]. right. apply find_first_elem in E as [Hi _]. apply elem_of_seqZ in Hi.
    apply elem_of_app. left. unfold hists. eapply list_elem_of_lookup_2, arr_take_lookup;
      unfold fits in *; rewrite ?Hlh; lia.
  - destruct (find_first _ (seqZ 0 (rt_npin _))) as [i|] eqn:E2; [|done]. intros [= <-]. right.
    apply find_first_elem in E2 as [Hi _]. apply elem_of_seqZ in Hi.
    apply elem_of_app. right. apply list_elem_of_fmap. eexists. split; [done|]. unfold pins.
    eapply list_elem_of_lookup_2, arr_take_lookup; rewrite ?Hl; lia.
Qed.

(** References kept by a good root are in range and of earlier generations. *)
Lemma refs_good r N ref :
  root_wf r -> root_good r N -> ref ∈ refs r -> ref_wf ref /\ ref_good (rt_gen r) N ref.
Proof.
  intros Hw (_ & Hh & [Hp _] & _) Hin. apply elem_of_app in Hin as [Hin|Hin].
  - pose proof Hw as (_&_&_&_&_&_&_&_&_&_&_&_&_&_&[_ Hall]&_). apply list_elem_of_lookup in Hin as [i Hi].
    split.
    { eapply Forall_forall; [exact Hall|]. unfold hists in Hi. apply lookup_take_Some in Hi as [Hi _].
      by eapply list_elem_of_lookup_2. }
    revert ref Hi. induction i as [|i IH]; intros ref Hi; [by apply (Hh 0%nat)|].
    pose proof (Hh (S i) ref Hi) as Hr. simpl in Hr.
    destruct (hists r !! i) as [h|] eqn:Eh.
    + rewrite (list_lookup_total_correct _ _ _ Eh) in Hr. specialize (IH h eq_refl).
      unfold ref_good in *. lia.
    + apply lookup_ge_None in Eh. apply lookup_lt_Some in Hi. lia.
  - apply list_elem_of_fmap in Hin as (p & -> & Hin).
    pose proof Hw as (_&_&_&_&_&_&_&_&_&_&_&_&_&_&_&[_ Hall]&_). apply list_elem_of_lookup in Hin as [i Hi].
    split; [|by apply (Hp i p)].
    assert (Hpw : pin_wf p); [|apply Hpw]. eapply Forall_forall; [exact Hall|].
    unfold pins in Hi. apply lookup_take_Some in Hi as [Hi _]. by eapply list_elem_of_lookup_2.
Qed.

Lemma cur_ref_good s x :
  store_ok s x -> let ref := mk_ref (rt_gen (s_cur s)) (s_cur_blk s) (rt_crc (s_cur s)) in
  ref_wf ref /\ ref_good (s_max_gen s + 1) (s_blocks s) ref.
Proof.
  intros Hs. pose proof (so_gen _ _ Hs) as (Hb & Hw & Hg & _). pose proof (so_max _ _ Hs).
  pose proof (so_blocks _ _ Hs) as Hbl. unfold ST_MAX_BLOCKS, ST_FIRST_DATA in *.
  pose proof Hw as (_&Hf1&_&_&_&_&_&_&_&_&_&_&_&_&_&_&_&_&_&Hf2).
  destruct Hg as ((_&Hg0&_)&_). unfold ref_wf, ref_good, fits, ST_FIRST_DATA in *. simpl.
  split_and!; try done; lia.
Qed.

Lemma pin_ok s x n pin gen e s' :
  tx_ok s x (n + 1) -> 0 <= n -> Forall byte_ok pin -> st_pin s pin gen = (e, s') ->
  step_ok s x s' x n (kv (view x) (s_work s)).
Proof.
  intros Ht Hn Hb. unfold st_pin. cbv zeta. pose proof (to_store _ _ _ Ht) as Hst.
  rewrite (so_mounted _ _ Hst), (to_in _ _ _ Ht). simpl.
  destruct (st_pin_name_ok pin) eqn:Hname; simpl; [|intros [= <- <-]; by apply step_ok_refl].
  set (w := s_work s). pose proof (to_wf _ _ _ Ht) as Hww. pose proof (to_npin _ _ _ Ht) as Hnp.
  fold w in Hww, Hnp. pose proof (find_pin_spec w pin Hww Hnp) as Hfp.
  destruct (find_pin w pin) as [i|]; [intros [= <- <-]; by apply step_ok_refl|].
  destruct (Z.eqb_spec (rt_npin w) ST_PIN_MAX) as [|Hne]; [intros [= <- <-]; by apply step_ok_refl|].
  pose proof (so_gen _ _ Hst) as (_ & Hcw & Hcg & _). pose proof (so_max _ _ Hst) as Hmax.
  destruct (find_ref s gen) as [ref|] eqn:Er; [|intros [= <- <-]; by apply step_ok_refl].
  apply find_ref_spec in Er; [|done|done]. intros [= <- <-].
  assert (Href : ref_wf ref /\ ref_good (s_max_gen s + 1) (s_blocks s) ref).
  { destruct Er as [->|Hin]; [by eapply cur_ref_good|].
    destruct (refs_good _ _ _ Hcw Hcg Hin) as [Hrw Hrg]. split; [done|]. unfold ref_good in *. lia. }
  destruct Href as [Hrw Hrg].
  pose proof (npin_range w Hww Hnp) as (Hr & Hl & _). unfold ST_PIN_MAX in *.
  set (p := mk_pin (str_copy 16 pin) ref). set (w' := set_pins _ _ _).
  assert (Hpins' : pins w' = pins w ++ [p]).
  { unfold pins, w'. simpl. apply arr_take_push. rewrite Hl. lia. }
  pose proof (to_room _ _ _ Ht) as (Hn31 & Hmx & Hoid & Hvers). fold w in Hoid, Hvers.
  pose proof (to_pins _ _ _ Ht) as [Hpg Hpd]. fold w in Hpg, Hpd.
  split; [|split; [done|split; [apply keeps_refl|done]]].
  apply (tx_ok_work s x (n + 1)); try done; try apply Ht; try (unfold w', ST_PIN_MAX; simpl; lia).
  - pose proof Hww as (_&_&_&_&_&_&_&_&_&_&_&_&_&_&_&[_ Hall]&_).
    apply set_pins_wf; [done|unfold fits; lia|by rewrite arr_set_length|].
    apply Forall_insert; [done|]. split; [|done]. split; [by apply str_copy_length; lia|by apply str_copy_bytes].
  - rewrite Hpins'. split.
    + intros i q Hq. apply lookup_app_Some in Hq as [Hq|[_ Hq]]; [by eapply Hpg|].
      apply list_lookup_singleton_Some in Hq as [_ <-]. unfold p. simpl.
      split; [apply (str_copy_nlen 16); lia|]. split; [by apply pin_name_ok_copy|done].
    + assert (Hnew : forall q, q ∈ pins w -> cstr (pin_name p) <> cstr (pin_name q)).
      { intros q Hq He. apply (Hfp q Hq). rewrite <- He. apply str_copy_cstr. by apply pin_name_ok_length. }
      intros i j q q' Hi Hj Hij. apply lookup_app_Some in Hi as [Hi|[Hli Hi]];
        apply lookup_app_Some in Hj as [Hj|[Hlj Hj]].
      * by apply (Hpd i j).
      * apply list_lookup_singleton_Some in Hj as [_ <-]. intros He. symmetry in He. revert He.
        apply Hnew. by eapply list_elem_of_lookup_2.
      * apply list_lookup_singleton_Some in Hi as [_ <-]. apply Hnew. by eapply list_elem_of_lookup_2.
      * apply list_lookup_singleton_Some in Hi as [Hi _], Hj as [Hj _]. lia.
  - intros o Ho. specialize (Hvers o Ho). lia.
  - intros q Hq. rewrite Hpins' in Hq. apply elem_of_app in Hq as [Hq|Hq].
    + by apply (to_pinref _ _ _ Ht).
    + apply list_elem_of_singleton in Hq as ->. done.
Qed.

Lemma unpin_ok s x n pin e s' :
  tx_ok s x (n + 1) -> 0 <= n -> st_unpin s pin = (e, s') ->
  step_ok s x s' x n (kv (view x) (s_work s)).
Proof.
  intros Ht Hn. unfold st_unpin. cbv zeta. pose proof (to_store _ _ _ Ht) as Hst.
  rewrite (so_mounted _ _ Hst), (to_in _ _ _ Ht). simpl.
  set (w := s_work s). pose proof (to_wf _ _ _ Ht) as Hww. pose proof (to_npin _ _ _ Ht) as Hnp.
  fold w in Hww, Hnp. pose proof (find_pin_spec w pin Hww Hnp) as Hfp.
  destruct (find_pin w pin) as [i|]; [|intros [= <- <-]; by apply step_ok_refl].
  intros [= <- <-]. pose proof (npin_range w Hww Hnp) as (Hr & Hl & _). unfold ST_PIN_MAX in *.
  set (w' := set_pins _ _ _).
  assert (Hpins' : pins w' = delete (Z.to_nat i) (pins w)).
  { unfold pins, w'. simpl. apply del_at_take; [lia|]. rewrite Hl. lia. }
  pose proof (to_room _ _ _ Ht) as (Hn31 & Hmx & Hoid & Hvers). fold w in Hoid, Hvers.
  pose proof (to_pins _ _ _ Ht) as [Hpg Hpd]. fold w in Hpg, Hpd.
  split; [|split; [done|split; [apply keeps_refl|done]]].
  apply (tx_ok_work s x (n + 1)); try done; try apply Ht; try (unfold w', ST_PIN_MAX; simpl; lia).
  - pose proof Hww as (_&_&_&_&_&_&_&_&_&_&_&_&_&_&_&[_ Hall]&_).
    apply set_pins_wf; [done|unfold fits; lia| |].
    + rewrite del_at_length; [done|lia|rewrite Hl; lia].
    + apply del_at_Forall; [done|apply zero_pin_wf].
  - rewrite Hpins'. split.
    + intros j q Hq. apply lookup_delete_shift in Hq as (j' & Hq & _). by eapply Hpg.
    + intros j k q q' Hj Hk Hjk. apply lookup_delete_shift in Hj as (j' & Hj & Ej).
      apply lookup_delete_shift in Hk as (k' & Hk & Ek). apply (Hpd j' k'); [done..|].
      destruct (decide (j < Z.to_nat i)%nat), (decide (k < Z.to_nat i)%nat); lia.
  - intros o Ho. specialize (Hvers o Ho). lia.
  - intros q Hq. rewrite Hpins' in Hq. apply elem_of_delete in Hq. by apply (to_pinref _ _ _ Ht).
Qed.

Lemma tx_exec_ok s x n op e s' x' :
  tx_ok s x (n + 1) -> 0 <= n -> tx_op_ok op -> tx_exec s x op = (e, s', x') ->
  step_ok s x s' x' n (kv_apply (kv (view x) (s_work s)) op e).
Proof.
  intros Ht Hn Hop. destruct op as [name kind data|name|pin gen|pin| |]; simpl.
  - by apply put_ok.
  - destruct (st_del s name) as [e1 s1] eqn:E. intros [= <- <- <-]. by apply (del_ok s x n name).
  - destruct (st_pin s pin gen) as [e1 s1] eqn:E. intros [= <- <- <-]. by eapply pin_ok.
  - destruct (st_unpin s pin) as [e1 s1] eqn:E. intros [= <- <- <-]. by eapply unpin_ok.
  - intros [= <- <- <-]. by apply prune_ok.
  - intros [= <- <- <-]. by apply reserve_ok.
Qed.

Lemma tx_run_ok s x ops m s' x' :
  tx_ok s x (Z.of_nat (length ops)) -> Forall tx_op_ok ops ->
  tx_run s x (kv (view x) (s_work s)) ops = (m, s', x') ->
  tx_ok s' x' 0 /\ same_base s s' /\ keeps (fun b => bit_get (s_used s) b = true) x x' /\
  kv (view x') (s_work s') = m.
Proof.
  revert s x. induction ops as [|op ops IH]; intros s x Ht Hops; cbn [tx_run].
  { intros [= <- <- <-]. split; [done|]. split; [done|]. split; [apply keeps_refl|done]. }
  apply Forall_cons in Hops as [Hop Hops].
  destruct (tx_exec s x op) as [[e s1] x1] eqn:E. cbn [length] in Ht.
  rewrite Nat2Z.inj_succ in Ht.
  destruct (tx_exec_ok s x (Z.of_nat (length ops)) op e s1 x1) as (Ht1 & Hb1 & Hk1 & Hp1 & Hm1);
    [done|lia|done|done|].
  rewrite <- Hm1. intros Hrun. apply IH in Hrun as (Ht2 & Hb2 & Hk2 & Hm2); [|done|done].
  split; [done|].
  assert (Hu : s_used s1 = s_used s) by (unfold same_base in Hb1; tauto).
  split; [unfold same_base in *; intuition congruence|]. split; [|done].
  eapply keeps_trans; [eapply keeps_mono; [|exact Hk1]|eapply keeps_mono; [|exact Hk2]].
  - intros b Hb. by left.
  - intros b Hb. by rewrite Hu.
Qed.

(** Room for [n] more puts in the version and identity counters. *)
Definition room (s : store) (n : Z) : Prop :=
  0 <= n < 2 ^ 31 /\ s_max_gen s + 1 < 2 ^ 64 /\ rt_next_oid (s_cur s) + n < 2 ^ 64 /\
  forall o, o ∈ objs (s_cur s) -> o_version o + n < 2 ^ 32.

Lemma begin_ok s x s' n :
  store_ok s x -> room s n -> st_begin s = (ST_OK, s') ->
  tx_ok s' x n /\ same_base s s' /\ s_work s' = s_cur s.
Proof.
  intros Hs Hr. unfold st_begin. rewrite (so_mounted _ _ Hs). simpl.
  destruct (s_in_tx s); [done|]. intros [= <-]. split; [|done].
  pose proof (so_gen _ _ Hs) as (_ & Hw & Hg & _ & _ & Hd).
  pose proof (so_marks _ _ Hs) as [_ Hmk]. pose proof (so_max _ _ Hs) as Hmax.
  pose proof Hg as ((Hmag&_&_&Hno&_&Hnp&_&_&_&Hret&Hoid&_) & _ & Hpins & Hobjs).
  split; simpl; try done.
  - by eapply store_ok_base; [|exact Hs].
  - destruct Hpins as [H1 H2]. split; [|done]. intros i p Hi. destruct (H1 i p Hi) as (? & ? & Hrg).
    split_and!; try done; unfold ref_good in *; lia.
  - destruct Hobjs as [H1 H2]. split; [|done]. intros i o Hi. specialize (H1 i o Hi).
    unfold obj_good in *. intuition lia.
  - intros o Ho. split; [by apply Hd|]. intros b Hb. left. by eapply Hmk.
  - intros p Hp. right. apply elem_of_app. right. apply list_elem_of_fmap. eauto.
Qed.
End preservation.
