(* ===== verification/StoreCrash.v ===== *)
(** * nxstore: commit, mount and crash safety

    The durability protocol of [st_commit] and the recovery of [st_mount]: after
    any transaction, with any device errors and a power failure at any time, a
    mount finds the generation before the transaction or the complete new one,
    and the new one once the commit has reported success. *)
From S2P Require Import Prelude Bytes Bitmap Crc32 StoreFmt Store StoreDev StoreFacts StoreIo.
From S2P Require Import StoreInv StoreTx.

#[local] Opaque block_crc dec_root dec_super enc_root_body enc_super_body root_sane
  nx_crc32_update nx_crc32.

(** ** What a mount needs to find on the medium *)

Definition mountable (img : Z -> list Z) (N : Z) (r : st_root) (blk slot : Z) : Prop :=
  (slot = 0 \/ slot = 1) /\ ST_MIN_BLOCKS <= N <= ST_MAX_BLOCKS /\ root_wf r /\ root_good r N /\
  ST_FIRST_DATA <= blk < N /\ root_at img blk r /\ slot_points N r blk (img slot) /\
  slot_older (rt_gen r) (img (1 - slot)) /\ forall o, o ∈ objs r -> ext_ok img o.

(** ** Lemmas: the allocation map *)

Lemma obj_ext_range r N o b :
  root_wf r -> root_good r N -> o ∈ objs r -> in_ext o b -> ST_FIRST_DATA <= b < N.
Proof.
  intros Hw (_ & _ & _ & [Hg _]) Ho Hb. apply list_elem_of_lookup in Ho as [i Hi].
  specialize (Hg i o Hi). unfold obj_good, in_ext in *.
  destruct (decide (o_nblk o = 0)); [lia|]. intuition lia.
Qed.

Lemma mark_root_marks m r blk N :
  map_ok m -> root_wf r -> root_good r N -> 0 <= blk < N -> N <= ST_MAX_BLOCKS ->
  marks (mark_root m r blk N) r blk.
Proof.
  intros Hm Hw Hg Hb HN. destruct (mark_root_spec m r blk N) as [_ Hs]; try done; [lia|].
  split; [apply Hs; [done|]; tauto|]. intros o b Ho Hin.
  pose proof (obj_ext_range r N o b Hw Hg Ho Hin). unfold ST_FIRST_DATA in *.
  apply Hs; [lia|]. eauto.
Qed.

Lemma marks_mono m m' r blk :
  (forall b, bit_get m b = true -> bit_get m' b = true) -> marks m r blk -> marks m' r blk.
Proof. intros Hm [H1 H2]. split; [auto|]. intros o b Ho Hb. eauto. Qed.

(** Iterating over [nth_ref] visits the references of a root. *)
Lemma nth_refs r :
  root_wf r -> rt_nhist r <= ST_HIST_MAX -> rt_npin r <= ST_PIN_MAX ->
  nth_ref r <$> seqZ 0 (rt_nhist r + rt_npin r) = refs r.
Proof.
  intros Hw Hh Hp. pose proof (npin_range r Hw Hp) as (Hr & Hl & _).
  pose proof Hw as (_&_&_&_&_&_&_&Hfh&_&_&_&_&_&_&[Hlh _]&_). unfold ST_HIST_MAX, fits in *.
  rewrite (seqZ_app 0 (rt_nhist r) (rt_npin r)) by lia. rewrite fmap_app. unfold refs. f_equal.
  - unfold hists. rewrite <- (arr_take_seqZ (rt_hist r) (rt_nhist r)) by (rewrite Hlh; lia).
    apply list_fmap_ext. intros i k Hk%list_elem_of_lookup_2. apply elem_of_seqZ in Hk.
    unfold nth_ref. by rewrite (proj2 (Z.ltb_lt _ _)) by lia.
  - unfold pins. rewrite <- (arr_take_seqZ (rt_pin r) (rt_npin r)) by (rewrite Hl; lia).
    rewrite <- list_fmap_compose. rewrite Z.add_0_l.
    rewrite <- (Z.add_0_r (rt_nhist r)) at 1. rewrite <- fmap_add_seqZ, <- list_fmap_compose.
    apply list_fmap_ext. intros i k Hk%list_elem_of_lookup_2. apply elem_of_seqZ in Hk.
    unfold nth_ref. simpl. rewrite (proj2 (Z.ltb_ge _ _)) by lia. f_equal. f_equal. f_equal. lia.
Qed.

Section crash.
Context {D : Type} `{!st_dev D, !StDevLaws D}.
Implicit Types x : io D.

Lemma mark_refs_spec s x l m d m' d' x' :
  s_blocks s <= bd_capacity D -> map_ok m ->
  for_each l (mark_ref s) (m, d, x) = (m', d', x') ->
  keeps (fun _ => True) x x' /\ map_ok m' /\
  (forall b, bit_get m b = true -> bit_get m' b = true) /\
  (readable x -> forall i r, i ∈ l -> gen_stored x (s_blocks s) r (ref_blk (nth_ref (s_cur s) i)) ->
     rt_gen r = ref_gen (nth_ref (s_cur s) i) -> rt_crc r = ref_crc (nth_ref (s_cur s) i) ->
     marks m' r (ref_blk (nth_ref (s_cur s) i))).
Proof.
  intros HN. pose proof bd_capacity_max as Hmx. assert (HM : s_blocks s <= ST_MAX_BLOCKS) by lia.
  unfold for_each. revert m d x. induction l as [|i l IH]; intros m d x Hm; cbn [fold_left].
  { intros [= <- <- <-]. split; [apply keeps_refl|]. split; [done|]. split; [done|]. set_solver. }
  set (ref := nth_ref (s_cur s) i).
  destruct (mark_ref s (m, d, x) i) as [[m1 d1] x1] eqn:E.
  assert (H1 : keeps (fun _ => True) x x1 /\ map_ok m1 /\
    (forall b, bit_get m b = true -> bit_get m1 b = true) /\
    (readable x -> forall r, gen_stored x (s_blocks s) r (ref_blk ref) ->
       rt_gen r = ref_gen ref -> rt_crc r = ref_crc ref -> marks m1 r (ref_blk ref))).
  { unfold mark_ref in E. cbv zeta in E. fold ref in E.
    set (m0 := if ref_blk ref <? s_blocks s then bit_set m (ref_blk ref) else m) in E.
    assert (Hm0 : map_ok m0) by (unfold m0; destruct (_ <? _); [by apply bit_set_ok|done]).
    assert (Hmono0 : forall b, bit_get m b = true -> bit_get m0 b = true)
      by (intros b Hb; unfold m0; destruct (_ <? _); [by apply bit_set_mono|done]).
    destruct (load_root (s_blocks s) x _ _ _) as [[st r1] x2] eqn:El.
    pose proof (load_root_keeps _ _ _ _ _ _ _ _ El) as Hk.
    assert (Hx : x1 = x2 /\ map_ok m1 /\ (forall b, bit_get m b = true -> bit_get m1 b = true)).
    { destruct st; injection E as <- <- <-; (split; [done|]); (split; [|auto]); try done.
      - by apply mark_root_ok.
      - intros b Hb. by apply mark_root_mono, Hmono0. }
    destruct Hx as (-> & Hm1 & Hmono1). split_and!; try done.
    intros Hr r Hg Eg Ec. pose proof Hg as (Hb & Hw & Hgood & _ & Hat & _).
    destruct (load_root_ok (s_blocks s) x (ref_blk ref) r) as (x3 & El'); try done.
    { by apply root_sane_good. }
    rewrite Eg, Ec, El in El'. injection El' as -> -> <-.
    injection E as <- <-. apply mark_root_marks; try done. unfold ST_FIRST_DATA in Hb. lia. }
  destruct H1 as (Hk1 & Hm1 & Hmono1 & Hmk1). intros Hrest.
  apply IH in Hrest as (Hk2 & Hm2 & Hmono2 & Hmk2); [|done].
  split; [by eapply keeps_trans|]. split; [done|]. split; [auto|].
  intros Hr j r Hj Hg Eg Ec. apply elem_of_cons in Hj as [->|Hj].
  - eapply marks_mono; [done|]. by apply Hmk1.
  - apply Hmk2; try done; [by eapply keeps_readable|]. by eapply gen_stored_keeps.
Qed.

Lemma recompute_used_spec s x d s' x' :
  root_wf (s_cur s) -> root_good (s_cur s) (s_blocks s) ->
  ST_FIRST_DATA <= s_cur_blk s < s_blocks s -> ST_MIN_BLOCKS <= s_blocks s <= bd_capacity D ->
  recompute_used s x = (d, s', x') ->
  keeps (fun _ => True) x x' /\ exists m, s' = set_used s m /\ map_ok m /\
  bit_get m 0 = true /\ bit_get m 1 = true /\ marks m (s_cur s) (s_cur_blk s) /\
  (readable x -> forall ref r, ref ∈ refs (s_cur s) -> gen_stored x (s_blocks s) r (ref_blk ref) ->
     rt_gen r = ref_gen ref -> rt_crc r = ref_crc ref -> marks m r (ref_blk ref)).
Proof.
  intros Hw Hg Hb HN. pose proof bd_capacity_max as Hmx. unfold recompute_used. cbv zeta. unfold ST_MIN_BLOCKS, ST_MAX_BLOCKS, ST_FIRST_DATA in *.
  set (m0 := bit_set (bit_set empty_map 0) 1).
  assert (Hm0 : map_ok m0) by (apply bit_set_ok, bit_set_ok, empty_map_ok).
  assert (Hb0 : bit_get m0 0 = true /\ bit_get m0 1 = true).
  { unfold m0. rewrite !bit_get_set by (try apply bit_set_ok; try apply empty_map_ok; unfold ST_MAX_BLOCKS; lia).
    done. }
  set (m1 := mark_root m0 (s_cur s) (s_cur_blk s) (s_blocks s)).
  assert (Hm1 : map_ok m1) by by apply mark_root_ok.
  assert (Hmk1 : marks m1 (s_cur s) (s_cur_blk s)).
  { apply mark_root_marks; try done; unfold ST_MAX_BLOCKS; lia. }
  destruct (for_each _ (mark_ref s) (m1, 0, x)) as [[m2 d2] x2] eqn:E. intros [= <- <- <-].
  apply mark_refs_spec in E as (Hk & Hm2 & Hmono & Hmk); [|lia|done].
  split; [done|]. exists m2. split; [done|]. split; [done|].
  split; [apply Hmono, mark_root_mono, Hb0|]. split; [apply Hmono, mark_root_mono, Hb0|].
  split; [by eapply marks_mono|].
  intros Hr ref r Hin Hgs Eg Ec. pose proof Hg as ((_&_&_&_&Hnh&Hnp&_)&_).
  rewrite <- nth_refs in Hin by done. apply list_elem_of_fmap in Hin as (i & -> & Hi).
  apply Hmk; try done. rewrite wrap_small; [done|].
  pose proof (npin_range (s_cur s) Hw Hnp) as (Hr' & _).
  pose proof Hw as (_&_&_&_&_&_&_&Hfh&_). unfold fits, ST_HIST_MAX in *. lia.
Qed.

(** ** Lemmas: the root of a new generation *)

Lemma commit_hist_facts s x keep :
  store_ok s x -> 1 <= keep <= 8 ->
  (1 <= length (commit_hist s keep) <= 8)%nat /\ Forall ref_wf (commit_hist s keep) /\
  hist_good (s_max_gen s + 1) (s_blocks s) (commit_hist s keep) /\
  (forall ref, ref ∈ commit_hist s keep ->
     ref = mk_ref (rt_gen (s_cur s)) (s_cur_blk s) (rt_crc (s_cur s)) \/ ref ∈ refs (s_cur s)).
Proof.
  intros Hs Hk. destruct (cur_ref_good s x Hs) as [Hrw Hrg].
  pose proof (so_gen _ _ Hs) as (_ & Hw & Hg & _).
  set (cur := mk_ref _ _ _) in *. unfold commit_hist. fold cur. fold (hists (s_cur s)).
  set (hs := take (Z.to_nat (keep - 1)) (hists (s_cur s))).
  assert (Hsub : forall h, h ∈ hs -> h ∈ refs (s_cur s)).
  { intros h Hh. apply elem_of_app. left. unfold hs in Hh. apply elem_of_take in Hh as (i & Hi & _).
    by eapply list_elem_of_lookup_2. }
  split; [|split; [|split]].
  - simpl. unfold hs. rewrite length_take. lia.
  - constructor; [done|]. apply Forall_forall. intros h Hh%Hsub. by eapply refs_good.
  - intros [|i] h Hi; simpl in Hi; [by injection Hi as <-|].
    unfold hs in Hi. apply lookup_take_Some in Hi as [Hi Hlt].
    destruct Hg as (_ & Hh & _). pose proof (Hh i h Hi) as Hgood. simpl.
    destruct i as [|j]; [exact Hgood|]. simpl.
    unfold hs. rewrite list_lookup_total_alt, lookup_take_lt by lia.
    rewrite <- list_lookup_total_alt. exact Hgood.
  - intros ref [->|Hin]%elem_of_cons; [by left|right]. auto.
Qed.

Lemma commit_log_facts s x gen label :
  store_ok s x -> fits 64 gen -> Forall byte_ok label ->
  (1 <= length (commit_log s gen label) <= 16)%nat /\ Forall log_wf (commit_log s gen label).
Proof.
  intros Hs Hgen Hl. unfold commit_log, ST_LOG_MAX. split.
  - simpl. rewrite length_take. lia.
  - constructor.
    + split; [done|]. split; [apply Hs|]. split; [by apply str_copy_length; lia|by apply str_copy_bytes].
    + pose proof (so_gen _ _ Hs) as (_ & Hw & _).
      destruct Hw as (_&_&_&_&_&_&_&_&_&_&_&_&_&_&_&_&[_ Hall]&_).
      by apply Forall_take, Forall_take.
Qed.

Lemma pad_to_Forall {A} (P : A -> Prop) n zero l : Forall P l -> P zero -> Forall P (pad_to n zero l).
Proof. intros. apply Forall_app. split; [done|]. by apply Forall_replicate. Qed.

Lemma pad_to_length {A} n (zero : A) l : (length l <= n)%nat -> length (pad_to n zero l) = n.
Proof. intros. unfold pad_to. rewrite length_app, length_replicate. lia. Qed.

Lemma commit_root_facts s x n label :
  tx_ok s x n -> st_label_ok label = true -> Forall byte_ok label ->
  let w := commit_root s label in
  root_wf w /\ root_good w (s_blocks s) /\ objs w = objs (s_work s) /\
  rt_gen w = s_max_gen s + 1 /\
  (forall ref, ref ∈ refs w -> ref = mk_ref (rt_gen (s_cur s)) (s_cur_blk s) (rt_crc (s_cur s)) \/
     ref ∈ refs (s_cur s)).
Proof.
  intros Ht Hlab Hlb w. pose proof (to_store _ _ _ Ht) as Hs.
  pose proof (to_room _ _ _ Ht) as (_ & Hmx & _). pose proof (so_max _ _ Hs) as Hmax.
  pose proof (so_gen _ _ Hs) as (_ & Hcw & Hcg & _).
  pose proof Hcw as (_&Hfg&_&_&_&_&_&_&_&_&Hfr&_). unfold fits in Hfg.
  assert (Hgen : st_next_gen s = s_max_gen s + 1)
    by (unfold st_next_gen; apply wrap_small; unfold fits; lia).
  assert (Hfgen : fits 64 (s_max_gen s + 1)) by (unfold fits; lia).
  set (keep := u32 ((if s_tx_prune s then ST_RETAIN_MIN else rt_retain (s_cur s)) - 1)).
  assert (Hkeep : 1 <= keep <= 8).
  { unfold keep. pose proof Hcg as ((_&_&_&_&_&_&_&_&_&Hret&_)&_).
    unfold ST_RETAIN_MIN, ST_RETAIN_MAX, ST_HIST_MAX in *.
    rewrite wrap_small; destruct (s_tx_prune s); unfold fits; lia. }
  destruct (commit_hist_facts s x keep Hs Hkeep) as (Hhl & Hhw & Hhg & Hhr).
  destruct (commit_log_facts s x (s_max_gen s + 1) label Hs Hfgen Hlb) as (Hll & Hlw).
  pose proof (to_wf _ _ _ Ht) as (Wm&_&_&Wsid&Woid&_&Wno&_&Wnp&_&Wret&_&_&Wres&_&Wpin&_&Wobj&Wpad&Wcrc).
  assert (Hw : root_wf w).
  { unfold w, commit_root. rewrite Hgen. cbv zeta. fold keep. unfold root_wf.
    cbn -[pad_to commit_hist commit_log length str_copy Z.of_nat Z.to_nat].
    split_and!; try done; try (apply Wm || apply Wres || apply Wpin || apply Wobj || apply Wpad);
      try (unfold fits; lia).
    - apply Hs.
    - split; [by apply str_copy_length; lia|by apply str_copy_bytes].
    - apply pad_to_length. lia.
    - apply pad_to_Forall; [done|]. unfold ref_wf, fits. simpl. lia.
    - apply pad_to_length. lia.
    - apply pad_to_Forall; [done|]. unfold log_wf, chars, fits. simpl. split_and!; try lia.
      repeat constructor; unfold byte_ok; lia. }
  assert (Hh : hists w = commit_hist s keep).
  { unfold hists, w, commit_root. cbv zeta. fold keep.
    cbn -[pad_to commit_hist length Z.of_nat Z.to_nat]. rewrite Nat2Z.id. unfold pad_to. apply take_app_length. }
  split; [done|]. split; [|split; [done|split; [exact Hgen|]]].
  - split; [|split; [|split]].
    + unfold w, commit_root. cbv zeta. rewrite Hgen. fold keep.
      cbn -[pad_to commit_hist commit_log length str_copy Z.of_nat Z.to_nat].
      unfold ST_HIST_MAX, ST_LOG_MAX.
      pose proof (to_magic _ _ _ Ht). pose proof (to_nobj _ _ _ Ht). pose proof (to_npin _ _ _ Ht).
      pose proof (to_oid _ _ _ Ht). pose proof (to_retain _ _ _ Ht).
      split_and!; try done; try lia. apply (str_copy_nlen 16). lia.
    + rewrite Hh. unfold w, commit_root. cbv zeta. simpl. by rewrite Hgen.
    + unfold w, commit_root. cbv zeta. simpl. rewrite Hgen. apply Ht.
    + unfold w, commit_root. cbv zeta. simpl. rewrite Hgen. apply Ht.
  - intros ref [Hin|Hin]%elem_of_app; [rewrite Hh in Hin; by apply Hhr|].
    apply list_elem_of_fmap in Hin as (p & -> & Hp). by apply (to_pinref _ _ _ Ht).
Qed.

(** ** Lemmas: commit *)

Lemma mountable_ext img img' N r blk slot :
  mountable img N r blk slot -> (forall b, img' b = img b) -> mountable img' N r blk slot.
Proof.
  intros (H1 & H2 & H3 & H4 & H5 & H6 & H7 & H8 & H9) He. unfold mountable, root_at in *.
  rewrite !He. split_and!; try done; try tauto.
  intros o Ho. eapply ext_ok_ext; [|by apply H9]. intros b _. apply He.
Qed.

Lemma gen_stored_img x img N r blk :
  gen_stored x N r blk -> (forall b, ST_FIRST_DATA <= b -> settled x b -> img b = view x b) ->
  root_at img blk r /\ (forall o, o ∈ objs r -> ext_ok img o) /\ kv img r = kv (view x) r.
Proof.
  intros (Hb & Hw & Hg & Hs & Hat & Ho) Hi.
  assert (Hx : forall o b, o ∈ objs r -> in_ext o b -> img b = view x b).
  { intros o b Hin Hb'. apply Hi; [by eapply obj_ext_range|]. by apply (Ho o Hin). }
  split_and!.
  - unfold root_at. rewrite Hi; [done|lia|done].
  - intros o Hin. destruct (Ho o Hin) as [He _]. eapply ext_ok_ext; [|exact He]. eauto.
  - apply kv_ext. eauto.
Qed.

(** A mounted store survives a power failure. *)
Lemma store_ok_mountable s x img :
  store_ok s x -> bd_durable (io_dev x) img ->
  mountable img (s_blocks s) (s_cur s) (s_cur_blk s) (s_cur_slot s) /\
  kv img (s_cur s) = kv (view x) (s_cur s).
Proof.
  intros Hs Hd. pose proof (so_gen _ _ Hs) as Hg.
  assert (Hi : forall b, settled x b -> img b = view x b) by (intros b [_ Hb]; symmetry; auto).
  destruct (gen_stored_img x img _ _ _ Hg) as (Hat & Ho & Hkv); [auto|].
  destruct Hg as (Hb & Hw & Hgood & _).
  split; [|done]. split; [apply Hs|]. split; [by eapply so_blocks|]. split_and!; try done; try tauto.
  - rewrite Hi by apply Hs. apply Hs.
  - by apply (so_other _ _ Hs).
Qed.

Lemma slot_points_older N r blk b gen : slot_points N r blk b -> rt_gen r < gen -> slot_older gen b.
Proof. unfold slot_points, slot_older. intros (_&_&_&_&_&_&Hg&_) Hlt _ _. lia. Qed.

Lemma torn_older gen b : torn b -> slot_older gen b.
Proof. unfold torn, slot_older. done. Qed.

(** Writing the root and the barrier. *)
Lemma barrier_ok s x blk w' st x' :
  s_flags s = 0 -> commit_barrier s x blk w' = (st, x') ->
  keeps (fun b => b <> blk) x x' /\
  (st = ST_OK -> (forall b, settled x' b) /\ view x' blk = enc_root w').
Proof.
  intros Hf. unfold commit_barrier, flag. rewrite Hf. simpl.
  destruct (dev_write _ x blk [enc_root w']) as [st1 x1] eqn:E1.
  apply dev_write_keeps in E1 as (Hk1 & Hv1 & Hst1). unfold in_write in *. simpl in *.
  assert (Hk1' : keeps (fun b => b <> blk) x x1) by (eapply keeps_mono; [|exact Hk1]; simpl; lia).
  destruct Hst1 as [-> | ->]; [|intros [= <- <-]; by split].
  specialize (Hv1 eq_refl). destruct (dev_flush x1) as [st2 x2] eqn:E2.
  apply dev_flush_keeps in E2 as (Hk2 & Hs2 & _). intros [= <- <-]. split.
  - eapply keeps_trans; [done|]. by eapply keeps_mono; [|exact Hk2].
  - intros ->. split; [by apply Hs2|]. rewrite (keeps_view _ _ _ _ Hk2) by done.
    rewrite Hv1 by lia. by rewrite Z.sub_diag.
Qed.

(** Writing the superblock and the final flush. *)
Lemma publish_ok s x blk slot w' st x' (Q : list Z -> Prop) :
  s_flags s = 0 -> commit_publish s x blk slot w' = (st, x') ->
  (forall img, bd_durable (io_dev x) img -> Q (img slot)) ->
  (forall b, leaves (enc_super (make_super w' blk (s_blocks s))) b -> Q b) ->
  keeps (fun b => b <> slot) x x' /\
  (forall img, bd_durable (io_dev x') img -> Q (img slot)) /\
  (st = ST_OK -> (forall b, settled x' b) /\
     view x' slot = enc_super (make_super w' blk (s_blocks s))).
Proof.
  intros Hf. unfold commit_publish, flag. rewrite Hf. simpl.
  set (sb := enc_super _). destruct (dev_write _ x slot [sb]) as [st1 x1] eqn:E1.
  pose proof E1 as E1'. apply dev_write_keeps in E1' as (Hk1 & Hv1 & Hst1).
  unfold in_write in *. simpl in *.
  assert (Hk1' : keeps (fun b => b <> slot) x x1) by (eapply keeps_mono; [|exact Hk1]; simpl; lia).
  intros Hrest Hold Hnew.
  assert (Hq1 : forall img, bd_durable (io_dev x1) img -> Q (img slot)).
  { intros img Himg. by eapply dev_write_one_durable. }
  destruct Hst1 as [-> | ->]; [|injection Hrest as <- <-; by split].
  specialize (Hv1 eq_refl). destruct (dev_flush x1) as [st2 x2] eqn:E2.
  assert (Hsb : view x1 slot = sb) by (rewrite Hv1 by lia; by rewrite Z.sub_diag).
  apply dev_flush_keeps in E2 as (Hk2 & Hs2 & _). injection Hrest as <- <-. split; [|split].
  - eapply keeps_trans; [done|]. by eapply keeps_mono; [|exact Hk2].
  - assert (Hh : holds x1 slot Q) by (split; [rewrite Hsb; apply Hnew; right; by left|done]).
    apply (keeps_holds _ _ _ slot Q Hk2) in Hh; [|done]. apply Hh.
  - intros ->. split; [by apply Hs2|]. by rewrite (keeps_view _ _ _ _ Hk2).
Qed.

(** Root of the generation a commit writes. *)
Definition new_root (s : store) (label : list Z) : st_root :=
  set_crc (commit_root s label) (block_crc (enc_root (commit_root s label))).

Definition still_old (s : store) x (s' : store) x' : Prop :=
  store_ok s' x' /\ same_base s s' /\ s_in_tx s' = false /\
  kv (view x') (s_cur s) = kv (view x) (s_cur s).

Lemma still_old_keeps (P : Z -> Prop) s x s' x' :
  store_ok s x -> keeps P x x' -> (forall b, bit_get (s_used s) b = true -> P b) ->
  same_base s s' -> s_in_tx s' = false -> still_old s x s' x'.
Proof.
  intros Hs Hk HP Hb Hin. split; [|split; [done|split; [done|]]].
  - eapply store_ok_base; [done|]. by eapply store_ok_keeps.
  - apply kv_ext. intros o b Ho Hb'. eapply keeps_view; [done|]. apply HP.
    by apply (so_marks _ _ Hs) with o.
Qed.

(** After the barrier the new generation is complete on the medium. *)
Lemma new_gen_stored s x n label blk x2 :
  tx_ok s x n -> st_label_ok label = true -> Forall byte_ok label ->
  ST_FIRST_DATA <= blk < s_blocks s -> ~ protected s blk ->
  keeps (fun b => b <> blk) x x2 -> (forall b, settled x2 b) ->
  view x2 blk = enc_root (new_root s label) ->
  gen_stored x2 (s_blocks s) (new_root s label) blk /\
  kv (view x2) (new_root s label) = kv (view x) (s_work s).
Proof.
  intros Ht Hl Hlb Hblk Hfree Hk Hset Hv.
  destruct (commit_root_facts s x n label Ht Hl Hlb) as (Hw & Hg & Hobjs & _).
  assert (Hne : forall o b, o ∈ objs (s_work s) -> in_ext o b -> b <> blk).
  { intros o b Ho Hb ->. by apply Hfree, (to_data _ _ _ Ht o). }
  assert (Hobj' : objs (new_root s label) = objs (s_work s)) by exact Hobjs.
  split.
  - split; [done|]. split; [by apply set_crc_wf; [|apply block_crc_fits]|]. split; [exact Hg|].
    split; [done|]. split; [by apply root_at_enc|]. rewrite Hobj'. intros o Ho. split; [|done].
    eapply ext_ok_ext; [|by apply (to_data _ _ _ Ht o)]. intros b Hb. eapply keeps_view; [done|]. by eapply Hne.
  - unfold kv. rewrite Hobj'. f_equal. apply list_fmap_ext. intros i o Ho. f_equal.
    apply obj_data_ext. intros b Hb. eapply keeps_view; [done|]. eapply Hne; [|done].
    by eapply list_elem_of_lookup_2.
Qed.

(** The new generation is mounted. *)
Lemma store_ok_new s x0 x label blk d s' x' :
  store_ok s x0 -> view x (s_cur_slot s) = view x0 (s_cur_slot s) -> s_max_gen s + 1 < 2 ^ 64 -> rt_gen (new_root s label) = s_max_gen s + 1 ->
  gen_stored x (s_blocks s) (new_root s label) blk -> (forall b, settled x b) ->
  slot_points (s_blocks s) (new_root s label) blk (view x (1 - s_cur_slot s)) ->
  let s1 := mk_store (s_blocks s) (s_flags s) (s_mounted s) false false false (1 - s_cur_slot s) blk
              (st_next_gen s) (s_boot_id s) (new_root s label) (new_root s label) (s_used s)
              empty_map (s_rep s) (u64 (s_commits s + 1)) in
  recompute_used s1 x = (d, s', x') ->
  store_ok s' x' /\ s_in_tx s' = false /\ s_cur s' = new_root s label /\
  s_blocks s' = s_blocks s /\ s_cur_blk s' = blk /\ s_max_gen s' = s_max_gen s + 1 /\
  keeps (fun _ => True) x x' /\
  (readable x -> forall ref r, ref ∈ refs (new_root s label) ->
     gen_stored x (s_blocks s) r (ref_blk ref) ->
     rt_gen r = ref_gen ref -> rt_crc r = ref_crc ref -> marks (s_used s') r (ref_blk ref)).
Proof.
  intros Hs Hv0 Hmx Hgen Hg Hset Hp s1 Hr. pose proof Hg as (Hb & Hw & Hgood & _).
  pose proof (so_max _ _ Hs) as Hmax. pose proof (so_capacity _ _ Hs) as Hbl.
  pose proof (so_gen _ _ Hs) as (_ & Hcw & ((_&Hg0&_)&_) & _). pose proof Hcw as (_&Hfg&_). unfold fits in Hfg.
  assert (Hng : st_next_gen s = s_max_gen s + 1) by (apply wrap_small; unfold fits; lia).
  apply recompute_used_spec in Hr as (Hk & m & -> & Hm & H0 & H1 & Hmk & Hrefs); try done.
  split; [|split_and!; done].
  split; simpl; try done; try apply Hs.
  - destruct (so_slot _ _ Hs) as [-> | ->]; [by right|by left].
  - eapply gen_stored_keeps; [done|done|done|done].
  - by eapply keeps_settled.
  - by rewrite (keeps_view _ _ _ _ Hk).
  - replace (1 - (1 - s_cur_slot s)) with (s_cur_slot s) by lia.
    eapply keeps_holds; [done|done|]. rewrite Hng.
    assert (Hold : slot_older (s_max_gen s + 1) (view x (s_cur_slot s))).
    { rewrite Hv0. eapply slot_points_older; [apply Hs|]. lia. }
    eapply holds_impl; [|apply (Hset (s_cur_slot s))]. by intros c <-.
  - rewrite Hng. lia.
Qed.

(** A generation all of whose blocks are marked used is left alone. *)
Lemma gen_stored_marked s x x' N r blk :
  keeps (fun b => protected s b /\ ST_FIRST_DATA <= b) x x' ->
  gen_stored x N r blk -> marks (s_used s) r blk -> gen_stored x' N r blk.
Proof.
  intros Hk Hg [Hm1 Hm2]. pose proof Hg as (Hb & Hw & Hgood & _).
  eapply gen_stored_keeps; [exact Hk|split; [by left|lia]| |exact Hg].
  intros o b Ho Hin. split; [left; by eapply Hm2|]. by apply (obj_ext_range r N o b).
Qed.

Lemma commit_ok s x n label e g s' x' :
  tx_ok s x n -> Forall byte_ok label -> st_commit s x label = (e, g, s', x') ->
  keeps (fun b => protected s b /\ ST_FIRST_DATA <= b) x x' /\
  ((e = ST_OK /\ g = rt_gen (new_root s label) /\ rt_gen (new_root s label) = s_max_gen s + 1 /\
    store_ok s' x' /\ s_in_tx s' = false /\
    s_cur s' = new_root s label /\ s_blocks s' = s_blocks s /\ s_max_gen s' = s_max_gen s + 1 /\
    kv (view x') (new_root s label) = kv (view x) (s_work s) /\
    (readable x -> forall ref r, ref ∈ refs (new_root s label) ->
       gen_stored x (s_blocks s) r (ref_blk ref) -> marks (s_used s) r (ref_blk ref) ->
       rt_gen r = ref_gen ref -> rt_crc r = ref_crc ref -> marks (s_used s') r (ref_blk ref))) \/
   (e = ST_E_UNKNOWN /\ s_mounted s' = false /\ exists blk, forall img,
    bd_durable (io_dev x') img ->
    (mountable img (s_blocks s) (s_cur s) (s_cur_blk s) (s_cur_slot s) /\
     kv img (s_cur s) = kv (view x) (s_cur s)) \/
    (mountable img (s_blocks s) (new_root s label) blk (1 - s_cur_slot s) /\
     kv img (new_root s label) = kv (view x) (s_work s))) \/
   ((e = ST_E_NAME \/ e = ST_E_NOSPC \/ e = ST_E_IO) /\ still_old s x s' x')).
Proof.
  intros Ht Hlb. pose proof (to_store _ _ _ Ht) as Hs. unfold st_commit. cbv zeta.
  rewrite (so_mounted _ _ Hs), (to_in _ _ _ Ht). cbn [negb orb].
  destruct (st_label_ok label) eqn:Hl; cbn [negb].
  2:{ intros [= <- <- <- <-]. split; [apply keeps_refl|]. right. right. split; [by left|].
      by apply (still_old_keeps (fun _ => True)); [done|apply keeps_refl|done..]. }
  fold (new_root s label).
  destruct (alloc (set_work s (commit_root s label)) 1 true) as [blk s1] eqn:Ea.
  apply alloc_spec in Ea as [[-> ->]|(Hb & Hbn & Hfree & m & -> & Hm & Hmono & Hbits)];
    [| |apply Hs|apply Ht|by apply (so_blocks s x)|lia].
  { cbn [Z.eqb]. intros [= <- <- <- <-]. split; [apply keeps_refl|]. right. right.
    split; [by right; left|]. by apply (still_old_keeps (fun _ => True)); [done|apply keeps_refl|done..]. }
  unfold ST_FIRST_DATA in Hb. rewrite (proj2 (Z.eqb_neq blk 0)) by lia.
  set (s2 := set_work _ (new_root s label)).
  assert (Hfl : s_flags s2 = 0) by apply Hs.
  assert (Hbase : same_base s s2) by done.
  assert (Hnp : ~ protected s blk).
  { intros [Hu|Hu]; destruct (Hfree blk ltac:(lia)) as [H1 H2]; simpl in H1, H2; congruence. }
  destruct (commit_barrier s2 x blk (new_root s label)) as [st x2] eqn:Eb.
  apply barrier_ok in Eb as (Hk2 & Hok2); [|done].
  assert (Hkp : keeps (protected s) x x2) by (eapply keeps_mono; [|exact Hk2]; intros b Hpb ->; done).
  assert (Hkb : keeps (fun b => protected s b /\ ST_FIRST_DATA <= b) x x2)
    by (eapply keeps_mono; [|exact Hkp]; tauto).
  destruct (is_ok st) eqn:Est; cbn [negb].
  2:{ intros [= <- <- <- <-]. split; [done|]. right. right. split; [by right; right|].
      eapply still_old_keeps; [done|exact Hkp|by left|done|done]. }
  assert (st = ST_OK) as -> by (by destruct st). destruct (Hok2 eq_refl) as [Hset Hv]. clear Hok2.
  assert (Hsame : flag s2 ST_TEST_SAME_SLOT = false) by (unfold flag; by rewrite Hfl).
  rewrite Hsame. change (s_cur_slot s2) with (s_cur_slot s).
  pose proof (to_room _ _ _ Ht) as (_ & Hmx & _).
  destruct (commit_root_facts s x n label Ht Hl Hlb) as (_ & _ & _ & Hgen & _).
  change (rt_gen (commit_root s label)) with (rt_gen (new_root s label)) in Hgen.
  destruct (new_gen_stored s x n label blk x2 Ht Hl Hlb) as [Hgs Hkv];
    [unfold ST_FIRST_DATA; simpl in Hbn; lia|done..|].
  assert (Hs2 : store_ok s x2) by (eapply store_ok_keeps; [exact Hkp|by left|done]).
  pose proof (so_max _ _ Hs) as Hmax. pose proof (so_slot _ _ Hs) as Hslot.
  assert (Hpts : forall b, leaves (enc_super (make_super (new_root s label) blk (s_blocks s))) b ->
    torn b \/ slot_points (s_blocks s) (new_root s label) blk b).
  { destruct Hgs as (Hb' & Hw' & _). pose proof (so_blocks _ _ Hs) as HN.
    unfold ST_MAX_BLOCKS, ST_MIN_BLOCKS, ST_FIRST_DATA in *.
    intros b. apply leaves_points; [done|unfold fits; lia..]. }
  destruct (commit_publish s2 x2 blk (1 - s_cur_slot s) (new_root s label)) as [st3 x4] eqn:Ep.
  apply (publish_ok _ _ _ _ _ _ _ (fun b => slot_older (rt_gen (s_cur s)) b \/
    slot_points (s_blocks s) (new_root s label) blk b)) in Ep as (Hk4 & Hq & Hok4); [|done| |].
  2:{ intros img Himg. left. by apply (so_other _ _ Hs2). }
  2:{ intros b [Hb'|Hb']%Hpts; [left; by apply torn_older|by right]. }
  assert (Hkb4 : keeps (fun b => protected s b /\ ST_FIRST_DATA <= b) x x4).
  { eapply keeps_trans; [exact Hkb|]. eapply keeps_mono; [|exact Hk4].
    intros b [_ Hb']. unfold ST_FIRST_DATA in Hb'. destruct Hslot as [-> | ->]; lia. }
  destruct (is_ok st3) eqn:Est3; cbn [negb].
  - assert (st3 = ST_OK) as -> by (by destruct st3). destruct (Hok4 eq_refl) as [Hset4 Hv4].
    change (s_blocks s2) with (s_blocks s) in Hv4.
    assert (Hslot' : forall b, ST_FIRST_DATA <= b -> b <> 1 - s_cur_slot s)
      by (intros b Hb'; unfold ST_FIRST_DATA in Hb'; destruct Hslot as [-> | ->]; lia).
    assert (Hgs4 : gen_stored x4 (s_blocks s) (new_root s label) blk).
    { pose proof Hgs as (Hb' & Hw' & Hg' & _). eapply gen_stored_keeps; [exact Hk4| | |exact Hgs].
      - apply Hslot'. lia.
      - intros o b Ho Hb''. apply Hslot'. by eapply obj_ext_range. }
    destruct (recompute_used _ x4) as [[d s3] x5] eqn:Er. intros [= <- <- <- <-].
    apply (store_ok_new s x2) in Er as (Hok & Hin & Hcur & Hbl & Hcb & Hmg & Hk5 & Hrefs); try done.
    + split; [eapply keeps_trans; [exact Hkb4|]; by eapply keeps_mono; [|exact Hk5]|]. left.
      split; [done|]. split; [symmetry; unfold st_next_gen; rewrite wrap_small; [done|]|].
      { destruct Hgs as (_ & (_ & Hf & _) & _). by rewrite Hgen in Hf. }
      split_and!; try done.
      * rewrite <- Hkv. apply kv_ext. intros o b Ho Hb'. rewrite (keeps_view _ _ _ _ Hk5) by done.
        eapply keeps_view; [exact Hk4|]. destruct Hgs as (_ & Hw' & Hg' & _).
        apply Hslot'. by eapply obj_ext_range.
      * intros Hr ref r Hin' Hgr Hmk Eg Ec. apply Hrefs; try done.
        { eapply keeps_readable; [exact Hk4|]. by eapply keeps_readable. }
        eapply gen_stored_marked; [exact Hkb4|done..].
    + rewrite (keeps_view _ _ _ _ Hk4); [done|]. lia.
    + rewrite Hv4. destruct Hgs as (Hb' & Hw' & _). pose proof (so_blocks _ _ Hs) as HN.
      unfold ST_MAX_BLOCKS, ST_MIN_BLOCKS, ST_FIRST_DATA in *. apply make_super_points; [done|unfold fits; lia..].
  - intros [= <- <- <- <-]. split; [done|]. right. left. split; [done|]. split; [done|].
    exists blk. intros img Himg.
    assert (Hi : forall b, b <> 1 - s_cur_slot s -> img b = view x2 b).
    { intros b Hb'. pose proof (keeps_holds _ _ _ b _ Hk4 Hb' (Hset b)) as [_ Hh].
      symmetry. by apply Hh. }
    assert (Hi2 : forall b, ST_FIRST_DATA <= b -> settled x2 b -> img b = view x2 b).
    { intros b Hb' _. apply Hi. unfold ST_FIRST_DATA in Hb'. destruct Hslot as [-> | ->]; lia. }
    pose proof (so_gen _ _ Hs2) as Hgo.
    destruct (gen_stored_img x2 img _ _ _ Hgs Hi2) as (Hat & Hoks & Hkvi).
    destruct (gen_stored_img x2 img _ _ _ Hgo Hi2) as (Hato & Hokso & Hkvo).
    destruct Hgs as (Hb1 & Hw1 & Hg1 & _). destruct Hgo as (Hb2 & Hw2 & Hg2 & _).
    pose proof (so_blocks _ _ Hs) as HN.
    assert (Hcs : img (s_cur_slot s) = view x2 (s_cur_slot s)) by (apply Hi; lia).
    destruct (Hq img Himg) as [Hold|Hnew]; [left|right].
    + split; [split_and!; try done; try tauto; rewrite Hcs; apply Hs2|].
      rewrite Hkvo. apply kv_ext. intros o b Ho Hb'. eapply keeps_view; [exact Hkp|].
      left. by apply (so_marks _ _ Hs) with o.
    + split; [|by rewrite Hkvi]. split; [destruct Hslot as [-> | ->]; [by right|by left]|].
      split_and!; try done; try tauto.
      replace (1 - (1 - s_cur_slot s)) with (s_cur_slot s) by lia. rewrite Hcs.
      eapply slot_points_older; [apply Hs2|]. rewrite Hgen. lia.
Qed.
End crash.
