(* ===== verification/StoreMount.v ===== *)
(** * nxstore: mount and crash safety

    Recovery by [st_mount] and the theorems on the store as a whole: crash
    atomicity of transactions, reading back, retained generations. *)
From S2P Require Import Prelude Bytes Bitmap Crc32 StoreFmt Store StoreDev StoreFacts StoreIo.
From S2P Require Import StoreInv StoreTx StoreCrash.

#[local] Opaque block_crc dec_root dec_super enc_root_body enc_super_body root_sane
  nx_crc32_update nx_crc32.

Section mount.
Context {D : Type} `{!st_dev D, !StDevLaws D}.
Implicit Types x : io D.

(** ** Lemmas: mount *)

Lemma slot_points_block N M r blk b :
  slot_points N r blk b -> ST_MIN_BLOCKS <= N <= M -> rt_gen r <> 0 ->
  slot_of_block M b = mk_slot ST_SLOT_OLDER (rt_gen r) (rt_store_id r) N blk (rt_crc r).
Proof.
  unfold slot_points, slot_of_block. cbv zeta.
  intros (-> & Hc & -> & -> & -> & -> & -> & -> & ->) HN Hg. rewrite Hc, Z.eqb_refl.
  rewrite bool_decide_eq_true_2 by done. cbn [negb]. rewrite !Z.eqb_refl.
  rewrite (proj2 (Z.eqb_neq _ _) Hg), (proj2 (Z.ltb_ge _ _)), Z.gtb_ltb, (proj2 (Z.ltb_ge _ _)) by lia.
  done.
Qed.

Lemma slot_older_block M gen b :
  0 < gen -> slot_older gen b ->
  let si := slot_of_block M b in
  (si_state si = ST_SLOT_OLDER -> si_gen si < gen) /\ slot_gen si < gen /\
  si_state si <> ST_SLOT_CURRENT.
Proof.
  intros Hgen Ho. unfold slot_of_block, slot_gen, slot_older in *. cbv zeta in *.
  case_bool_decide as Hm; cbn [negb]; [|by simpl].
  destruct (Z.eqb_spec (block_crc b) (sb_crc (dec_super b))) as [Hc|Hc]; cbn [negb]; [|by simpl].
  specialize (Ho Hm Hc). destruct (_ || _); simpl; auto.
Qed.

Lemma read_slot_ok blocks x slot :
  readable x -> 0 <= slot < bd_capacity D -> exists x', read_slot blocks x slot = (slot_of_block blocks (view x slot), x') /\
    keeps (fun _ => True) x x'.
Proof.
  intros Hr Hs. unfold read_slot. destruct (bd_read (io_dev x) slot) as [r d] eqn:E.
  pose proof (bd_read_view (io_dev x) slot) as Hv. pose proof (bd_read_durable (io_dev x) slot) as Hd.
  destruct (bd_read_ok (io_dev x) slot Hr Hs) as [c Hc]. pose proof (bd_read_readable (io_dev x) slot Hr) as Hr'. rewrite E in Hv, Hd, Hc, Hr'. simpl in *.
  subst r. apply bd_read_some in E as ->. eexists. split; [done|]. split; [|split].
  - intros b _. apply Hv.
  - intros b Q _ [H1 H2]. split; [unfold view; simpl; by rewrite Hv|auto].
  - done.
Qed.

Lemma try_slot_ok s x N r blk :
  s_flags s = 0 -> readable x -> N <= bd_capacity D -> root_wf r -> root_good r N ->
  ST_FIRST_DATA <= blk < N -> root_at (view x) blk r -> (forall o, o ∈ objs r -> ext_ok (view x) o) ->
  exists x', try_slot s x (mk_slot ST_SLOT_OLDER (rt_gen r) (rt_store_id r) N blk (rt_crc r)) =
    (ST_SLOT_CURRENT, r, N, x') /\ keeps (fun _ => True) x x'.
Proof.
  intros Hf Hr HN Hw Hg Hb Hat Ho. unfold try_slot, flag. rewrite Hf. simpl.
  destruct (load_root_ok N x blk r Hr HN Hb Hat) as (x1 & E1); [apply root_sane_good; [done|pose proof bd_capacity_max; lia|done]|].
  rewrite E1. apply load_root_keeps in E1. rewrite Z.eqb_refl. simpl.
  destruct (verify_objs_ok N x1 (objs r)) as (x2 & E2); [by eapply keeps_readable|done| |].
  - intros o Hin. apply list_elem_of_lookup in Hin as [i Hi].
    pose proof (objs_lookup_wf r i o Hw Hi) as (_&_&_&Hf4&Hf5&_&_&Hf8&_). unfold fits in *.
    destruct Hg as (_ & _ & _ & [Hgo _]). specialize (Hgo i o Hi). unfold obj_good, ST_FIRST_DATA in *.
    split; [lia|]. split; [lia|]. split; [destruct (decide (o_nblk o = 0)); intuition lia|]. split; [lia|].
    eapply ext_ok_ext; [|apply Ho; by eapply list_elem_of_lookup_2].
    intros b _. by eapply keeps_view.
  - rewrite E2. apply verify_objs_keeps in E2. eexists. split; [done|]. by eapply keeps_trans.
Qed.

(** Recovery: a mount of an image holding generation [r] mounts it. *)
Lemma mount_ok x N M r blk slot boot :
  mountable (view x) N r blk slot -> readable x -> N <= bd_capacity D -> N <= M -> fits 64 boot ->
  (forall b, settled x b) ->
  exists s x', st_mount x M boot 0 = (ST_OK, s, x') /\ store_ok s x' /\ s_in_tx s = false /\
    s_cur s = r /\ s_cur_blk s = blk /\ s_blocks s = N /\ s_max_gen s = rt_gen r /\
    keeps (fun _ => True) x x' /\
    (forall ref r', ref ∈ refs r -> gen_stored x N r' (ref_blk ref) -> rt_gen r' = ref_gen ref ->
       rt_crc r' = ref_crc ref -> marks (s_used s) r' (ref_blk ref)).
Proof.
  intros (Hslot & HN & Hw & Hg & Hb & Hat & Hp & Hold & Ho) Hr HC HM Hboot Hset.
  pose proof Hg as ((_ & Hg0 & _) & _). pose proof Hw as (_ & Hfg & _). unfold fits in Hfg.
  unfold st_mount. rewrite (proj2 (Z.ltb_ge M ST_MIN_BLOCKS)) by lia. cbv zeta.
  set (blocks := if M >? ST_MAX_BLOCKS then ST_MAX_BLOCKS else M).
  assert (Hbl : N <= blocks) by (unfold blocks; rewrite Z.gtb_ltb; destruct (Z.ltb_spec ST_MAX_BLOCKS M); lia).
  assert (H2 : 2 <= bd_capacity D) by (unfold ST_MIN_BLOCKS in HN; lia). destruct (read_slot_ok blocks x 0 Hr) as (x1 & E1 & K1); [lia|]. rewrite E1.
  destruct (read_slot_ok blocks x1 1) as (x2 & E2 & K2); [by eapply keeps_readable|lia|]. rewrite E2.
  rewrite (keeps_view _ _ _ 1 K1) by done. clear E1 E2.
  assert (K12 : keeps (fun _ => True) x x2) by (by eapply keeps_trans). clear K1 K2 x1.
  assert (Hv2 : forall b, view x2 b = view x b) by (intros b; by eapply keeps_view).
  set (cand := mk_slot ST_SLOT_OLDER (rt_gen r) (rt_store_id r) N blk (rt_crc r)).
  set (other := slot_of_block blocks (view x (1 - slot))).
  assert (Hcand : slot_of_block blocks (view x slot) = cand)
    by (apply slot_points_block; [done|lia|done]).
  destruct (slot_older_block blocks (rt_gen r) (view x (1 - slot))) as (Ho1 & Ho2 & Ho3); [lia|done|].
  fold other in Ho1, Ho2, Ho3.
  set (si0 := slot_of_block blocks (view x 0)). set (si1 := slot_of_block blocks (view x 1)).
  set (swap := bool_decide (si_state si1 = ST_SLOT_OLDER) && _).
  assert (Hsw : swap = bool_decide (slot = 1) /\ (if swap then (si1, si0) else (si0, si1)) = (cand, other) /\
    Z.max (slot_gen si0) (slot_gen si1) = rt_gen r).
  { unfold swap, si0, si1, other in *.
    destruct Hslot as [-> | ->]; rewrite Hcand; change (1 - 0) with 1 in *; change (1 - 1) with 0 in *.
    - split; [|split].
      + apply andb_false_iff. case_bool_decide as Hs1; [right|by left].
        rewrite (bool_decide_eq_true_2 (si_state cand = ST_SLOT_OLDER)) by done.
        rewrite Z.gtb_ltb. apply Z.ltb_ge. specialize (Ho1 Hs1). unfold cand. simpl. lia.
      + case_bool_decide as Hs1; [|done]. specialize (Ho1 Hs1). simpl.
        rewrite Z.gtb_ltb, (proj2 (Z.ltb_ge _ _)); [done|lia].
      + unfold cand at 1, slot_gen at 1. simpl. lia.
    - rewrite (bool_decide_eq_true_2 (si_state cand = ST_SLOT_OLDER)) by done. simpl.
      assert (Ht : negb (bool_decide (si_state (slot_of_block blocks (view x 0)) = ST_SLOT_OLDER))
        || (rt_gen r >? si_gen (slot_of_block blocks (view x 0))) = true).
      { case_bool_decide as Hs1; [|done]. specialize (Ho1 Hs1). simpl.
        rewrite Z.gtb_ltb, (proj2 (Z.ltb_lt _ _)); [done|lia]. }
      rewrite Ht. split; [done|]. split; [done|]. unfold cand at 1, slot_gen at 2. simpl. lia. }
  destruct Hsw as (Hsw & Hpair & Hmax). rewrite Hpair, Hmax.
  rewrite (bool_decide_eq_true_2 (si_state cand = ST_SLOT_OLDER)) by done.
  match goal with |- context [try_slot ?s x2 cand] => set (s1 := s) end.
  destruct (try_slot_ok s1 x2 N r blk) as (x3 & E3 & K3); try done; try tauto.
  { by eapply keeps_readable. }
  { unfold root_at. by rewrite Hv2. }
  { intros o Hin. eapply ext_ok_ext; [|by apply Ho]. intros b _. apply Hv2. }
  fold cand in E3. rewrite E3. clear E3.
  cbn [set_slot_state si_state]. rewrite (bool_decide_eq_true_2 (ST_SLOT_CURRENT = ST_SLOT_CURRENT)) by done.
  cbn [negb]. rewrite !andb_false_r. cbn [negb andb orb].
  replace (if swap then 1 else 0) with slot
    by (rewrite Hsw; destruct Hslot as [-> | ->]; by case_bool_decide).
  match goal with |- context [recompute_used ?s x3] => set (s2 := s) end.
  assert (K : keeps (fun _ => True) x x3) by (by eapply keeps_trans).
  assert (Hgs : gen_stored x3 N r blk).
  { eapply gen_stored_keeps; [exact K|done|done|]. split_and!; try done; try apply Hb. auto. }
  destruct (recompute_used s2 x3) as [[d s3] x4] eqn:Er.
  apply recompute_used_spec in Er as (K4 & m & -> & Hm & H0 & H1 & Hmk & Hrefs); try done; try tauto.
  eexists _, x4. split; [reflexivity|].
  assert (K' : keeps (fun _ => True) x x4) by (by eapply keeps_trans).
  split; [|split_and!; try done].
  - split; simpl; try done; try tauto.
    + eapply gen_stored_keeps; [exact K4|done..].
    + eapply keeps_settled; [exact K'|done|apply Hset].
    + by rewrite (keeps_view _ _ _ _ K').
    + eapply keeps_holds; [exact K'|done|].
      eapply holds_impl; [|apply (Hset (1 - slot))]. by intros c <-.
    + lia.
  - intros ref r' Hin Hgr Eg Ec. apply Hrefs; try done.
    + by eapply keeps_readable.
    + eapply gen_stored_keeps; [exact K|done..].
Qed.
End mount.
