(* ===== verification/StoreSnap.v ===== *)
(** * nxstore: whole transactions

    Lemmas on complete transactions (begin, operations, commit), on mounting
    after a power failure, on the generations a store retains, and on reading. *)
From S2P Require Import Prelude Bytes Bitmap Crc32 StoreFmt Store StoreDev StoreFacts StoreIo.
From S2P Require Import StoreInv StoreTx StoreCrash StoreMount.

(** ** Lemmas: a zeroed slot *)

Lemma zero_block_older gen : slot_older gen zero_block.
Proof.
  assert (Hm : bool_decide (sb_magic (dec_super zero_block) = ST_SUPER_MAGIC) = false)
    by by vm_compute.
  apply bool_decide_eq_false in Hm. exact (fun Hmag _ => False_ind _ (Hm Hmag)).
Qed.

#[local] Opaque zero_block enc_root enc_super make_super block_crc dec_root dec_super enc_root_body enc_super_body root_sane
  nx_crc32_update nx_crc32.

Section theorems.
Context {D : Type} `{!st_dev D, !StDevLaws D}.
Implicit Types x y : io D.

(** Reference [ref] names the generation with root [r], which is on the medium. *)
Definition stored_ref x (N : Z) (ref : st_ref) (r : st_root) : Prop :=
  gen_stored x N r (ref_blk ref) /\ rt_gen r = ref_gen ref /\ rt_crc r = ref_crc ref.

(** The current generation and the ones it retains. *)
Definition all_refs (s : store) : list st_ref :=
  mk_ref (rt_gen (s_cur s)) (s_cur_blk s) (rt_crc (s_cur s)) :: refs (s_cur s).

(** Every retained earlier generation is on the medium and marked as used. *)
Record retained_ok (s : store) x : Prop := {
  ro_stored : forall ref, ref ∈ refs (s_cur s) ->
    exists r, stored_ref x (s_blocks s) ref r /\ marks (s_used s) r (ref_blk ref);
  ro_unique : forall a b, a ∈ refs (s_cur s) -> b ∈ refs (s_cur s) -> ref_gen a = ref_gen b -> a = b;
}.

(** What reading [name] in generation [r] of a disk with content [g] returns. *)
Definition read_result (g : Z -> list Z) (r : st_root) (name : list Z) (cap : Z)
    : st_error * list Z * option st_obj :=
  match st_find r name with
  | None => (ST_E_NOTFOUND, [], None)
  | Some o => if o_len o >? cap then (ST_E_TOOBIG, [], Some o) else (ST_OK, obj_data g o, Some o)
  end.

(** [y] is the device after power-up with content [img]. *)
Definition powered_up y (img : Z -> list Z) : Prop :=
  (forall b, view y b = img b) /\ (forall b, settled y b) /\ readable y.

(** ** Lemmas *)

Lemma powered_up_mountable y img N r blk slot :
  powered_up y img -> mountable img N r blk slot ->
  mountable (view y) N r blk slot /\ kv (view y) r = kv img r.
Proof.
  intros (Hv & _) Hm. split; [by eapply mountable_ext|]. apply kv_ext. auto.
Qed.

Lemma remount y img N M boot r blk slot :
  powered_up y img -> mountable img N r blk slot -> N <= bd_capacity D -> N <= M -> fits 64 boot ->
  exists s4 y', st_mount y M boot 0 = (ST_OK, s4, y') /\ store_ok s4 y' /\ readable y' /\
    s_in_tx s4 = false /\ s_cur s4 = r /\ s_blocks s4 = N /\ s_max_gen s4 = rt_gen r /\
    kv (view y') r = kv img r /\
    forall ref r', ref ∈ refs r -> stored_ref y N ref r' ->
      stored_ref y' N ref r' /\ marks (s_used s4) r' (ref_blk ref).
Proof.
  intros Hp Hm HC HM Hb. destruct (powered_up_mountable _ _ _ _ _ _ Hp Hm) as [Hm' Hkv'].
  destruct Hp as (_ & Hset & Hr).
  destruct (mount_ok y N M r blk slot boot Hm' Hr HC HM Hb Hset)
    as (s4 & y' & E & Hok & Htx & Hcur & _ & Hbl & Hmx & Hk & Hmk).
  exists s4, y'. split_and!; try done; [by eapply keeps_readable| |].
  - rewrite <- Hkv'. apply kv_ext. intros o b _ _. by eapply keeps_view.
  - intros ref r' Hin (Hg & Hg1 & Hg2). split; [split; [|done]|by apply Hmk].
    by eapply gen_stored_keeps.
Qed.

Lemma format_root_facts id retain boot :
  fits 64 id -> ST_RETAIN_MIN <= retain <= ST_RETAIN_MAX -> fits 64 boot ->
  forall N, root_wf (format_root id retain boot) /\ root_good (format_root id retain boot) N /\
    objs (format_root id retain boot) = [].
Proof.
  intros Hid Hret Hboot N. unfold ST_RETAIN_MIN, ST_RETAIN_MAX, ST_HIST_MAX in Hret.
  assert (Hbz : forall n, Forall byte_ok (replicate n 0))
    by (intros n; apply Forall_replicate; unfold byte_ok; lia).
  split; [|split; [|done]].
  - unfold format_root. cbv zeta. apply set_crc_wf; [|apply block_crc_fits].
    unfold root_wf, chars. cbn [rt_magic rt_gen rt_parent_gen rt_store_id rt_next_oid rt_boot_id
      rt_nobj rt_nhist rt_npin rt_nlog rt_retain rt_flags rt_label rt_reserved rt_hist rt_pin rt_log
      rt_obj rt_pad rt_crc].
    split_and!; try done; try (unfold fits; lia); try apply Hbz.
    + repeat constructor; unfold byte_ok; lia.
    + apply str_copy_bytes. repeat constructor; unfold byte_ok; lia.
    + apply Forall_replicate. unfold ref_wf, fits. simpl. lia.
    + apply Forall_replicate, zero_pin_wf.
    + apply Forall_insert.
      * apply Forall_replicate. unfold log_wf, chars, fits. simpl. split_and!; try lia; apply Hbz || apply (Hbz 16%nat).
      * unfold log_wf, chars. simpl. split_and!; try done; unfold fits; try lia.
        apply (str_copy_bytes 16). repeat constructor; unfold byte_ok; lia.
    + apply Forall_replicate, zero_obj_wf.
  - unfold root_good. cbn. unfold ST_RETAIN_MIN, ST_RETAIN_MAX, ST_HIST_MAX, ST_OBJ_MAX, ST_PIN_MAX, ST_LOG_MAX.
    split_and!; try done; try lia; by intros [|].
Qed.

Lemma format_root_at g blk id retain boot :
  root_wf (format_root id retain boot) -> g blk = enc_root (format_root id retain boot) ->
  root_at g blk (format_root id retain boot).
Proof.
  intros Hw. pose proof (set_crc_wf _ 0 Hw ltac:(unfold fits; lia)) as Hw0. revert Hw0.
  unfold format_root. cbv zeta. cbn [set_crc rt_magic rt_gen rt_parent_gen rt_store_id rt_next_oid
    rt_boot_id rt_nobj rt_nhist rt_npin rt_nlog rt_retain rt_flags rt_label rt_reserved rt_hist
    rt_pin rt_log rt_obj rt_pad rt_crc].
  intros Hw0 Hg. apply (root_at_enc _ _ _ Hw0 Hg).
Qed.

Lemma format_ok x blocks id retain boot x' :
  fits 64 id -> fits 64 boot -> st_format x blocks id retain boot = (ST_OK, x') ->
  (forall b, settled x' b) /\
  mountable (view x') blocks (format_root id retain boot) ST_FIRST_DATA 0 /\
  kv (view x') (format_root id retain boot) = ∅ /\ (readable x -> readable x').
Proof.
  intros Hid Hboot. unfold st_format.
  destruct ((blocks <? ST_MIN_BLOCKS) || (blocks >? ST_MAX_BLOCKS)) eqn:Hb; [done|].
  destruct ((retain <? ST_RETAIN_MIN) || (retain >? ST_RETAIN_MAX)) eqn:Hret; [done|].
  breflect. set (r := format_root id retain boot).
  destruct (format_root_facts id retain boot Hid ltac:(lia) Hboot blocks) as (Hw & Hg & Ho). fold r in Hw, Hg, Ho.
  destruct (dev_write blocks x ST_FIRST_DATA [enc_root r]) as [e1 x1] eqn:E1.
  apply dev_write_keeps in E1 as (K1 & V1 & [-> | ->]); [|done].
  destruct (dev_write blocks x1 1 [zero_block]) as [e2 x2] eqn:E2.
  apply dev_write_keeps in E2 as (K2 & V2 & [-> | ->]); [|done].
  destruct (dev_flush x2) as [e3 x3] eqn:E3. apply dev_flush_keeps in E3 as (K3 & S3 & [-> | ->]); [|done].
  destruct (dev_write blocks x3 0 [enc_super (make_super r ST_FIRST_DATA blocks)]) as [e4 x4] eqn:E4.
  apply dev_write_keeps in E4 as (K4 & V4 & [-> | ->]); [|done].
  intros E5. apply dev_flush_keeps in E5 as (K5 & S5 & _).
  unfold in_write, ST_FIRST_DATA in *. cbn [length] in *. change (Z.of_nat 1) with 1 in *.
  assert (Hv2 : view x' 2 = enc_root r).
  { rewrite (keeps_view _ _ _ _ K5), (keeps_view _ _ _ _ K4), (keeps_view _ _ _ _ K3),
      (keeps_view _ _ _ _ K2) by (done || lia). exact (V1 eq_refl 2 ltac:(lia)). }
  assert (Hv1 : view x' 1 = zero_block).
  { rewrite (keeps_view _ _ _ _ K5), (keeps_view _ _ _ _ K4), (keeps_view _ _ _ _ K3)
      by (done || lia). exact (V2 eq_refl 1 ltac:(lia)). }
  assert (Hv0 : view x' 0 = enc_super (make_super r 2 blocks)).
  { rewrite (keeps_view _ _ _ _ K5) by done. exact (V4 eq_refl 0 ltac:(lia)). }
  split; [by apply S5|]. unfold ST_MIN_BLOCKS, ST_MAX_BLOCKS in *. split; [|split].
  - split; [by left|]. unfold ST_MIN_BLOCKS, ST_MAX_BLOCKS, ST_FIRST_DATA.
    split; [lia|]. split; [exact Hw|]. split; [exact Hg|]. split; [lia|].
    split; [|split; [|split]].
    + exact (format_root_at (view x') 2 id retain boot Hw Hv2).
    + rewrite Hv0. apply make_super_points; [done|unfold fits; lia..].
    + change (1 - 0) with 1. rewrite Hv1. apply zero_block_older.
    + rewrite Ho. intros o Hin. by apply not_elem_of_nil in Hin.
  - unfold kv. rewrite Ho. reflexivity.
  - intros Hr. eapply keeps_readable; [exact K5|]. eapply keeps_readable; [exact K4|].
    eapply keeps_readable; [exact K3|]. eapply keeps_readable; [exact K2|]. by eapply keeps_readable.
Qed.

(** What a whole transaction leaves behind. *)
Lemma transaction_ok s x ops label s1 m s2 x2 e g s3 x3 :
  store_ok s x -> room s (Z.of_nat (length ops)) -> Forall tx_op_ok ops -> Forall byte_ok label ->
  st_begin s = (ST_OK, s1) -> tx_run s1 x (kv (view x) (s_cur s)) ops = (m, s2, x2) ->
  st_commit s2 x2 label = (e, g, s3, x3) ->
  tx_ok s2 x2 0 /\ same_base s s2 /\ keeps (fun b => bit_get (s_used s) b = true) x x2 /\
  kv (view x2) (s_work s2) = m /\ kv (view x2) (s_cur s) = kv (view x) (s_cur s).
Proof.
  intros Hs Hroom Hops Hl Hb Hrun Hc.
  destruct (begin_ok s x s1 _ Hs Hroom Hb) as (Ht & Hbase & Hwork). rewrite <- Hwork in Hrun.
  apply tx_run_ok in Hrun as (Ht2 & Hbase2 & Hk & Hm); [|done|done].
  assert (Hu : s_used s1 = s_used s) by (unfold same_base in Hbase; tauto). rewrite Hu in Hk.
  split_and!; try done; [unfold same_base in *; intuition congruence|].
  apply kv_ext. intros o b Ho Hin. eapply keeps_view; [exact Hk|]. by apply (so_marks _ _ Hs) with o.
Qed.

(** Only the current generation and the ones it retains can be retained next. *)
Lemma commit_refs s x n label e g s' x' :
  tx_ok s x n -> Forall byte_ok label -> st_commit s x label = (e, g, s', x') ->
  e = ST_OK \/ e = ST_E_UNKNOWN -> forall ref, ref ∈ refs (new_root s label) -> ref ∈ all_refs s.
Proof.
  intros Ht Hlb Hc He ref Hin. unfold st_commit in Hc.
  rewrite (so_mounted _ _ (to_store _ _ _ Ht)), (to_in _ _ _ Ht) in Hc. cbn [negb orb] in Hc.
  destruct (st_label_ok label) eqn:Hl; cbn [negb] in Hc.
  2:{ injection Hc as <- _ _ _. by destruct He. }
  destruct (commit_root_facts s x n label Ht Hl Hlb) as (_ & _ & _ & _ & Hr).
  apply elem_of_cons, Hr. exact Hin.
Qed.

Lemma stored_ref_keeps (P : Z -> Prop) x x' used N ref r :
  keeps P x x' -> (forall b, bit_get used b = true -> ST_FIRST_DATA <= b -> P b) ->
  marks used r (ref_blk ref) -> stored_ref x N ref r ->
  stored_ref x' N ref r /\ kv (view x') r = kv (view x) r.
Proof.
  intros Hk HP [Hm1 Hm2] (Hg & Hr). pose proof Hg as (Hb & Hw & Hgood & _).
  assert (Hx : forall o b, o ∈ objs r -> in_ext o b -> P b).
  { intros o b Ho Hin. apply HP; [by eapply Hm2|]. by apply (obj_ext_range r N o b). }
  split; [split; [|done]|].
  - eapply gen_stored_keeps; [exact Hk| | |exact Hg]; [|done]. apply HP; [done|lia].
  - apply kv_ext. intros o b Ho Hin. eapply keeps_view; [exact Hk|eauto].
Qed.

Lemma stored_ref_power x y img N ref r :
  stored_ref x N ref r -> bd_durable (io_dev x) img -> powered_up y img ->
  stored_ref y N ref r /\ kv (view y) r = kv (view x) r.
Proof.
  intros (Hg & Hr) Hi (Hv & Hset & _).
  destruct (gen_stored_img x (view y) N r (ref_blk ref) Hg) as (Hat & Ho & Hkv).
  { intros b _ [_ Hb]. rewrite Hv. symmetry. by apply Hb. }
  destruct Hg as (Hb & Hw & Hgood & _). split; [|done]. split; [|done].
  split_and!; try done; try lia. intros o Hin. split; [by apply Ho|done].
Qed.

(** Reference generations identify references. *)
Lemma all_refs_unique s x a b :
  store_ok s x -> retained_ok s x -> a ∈ all_refs s -> b ∈ all_refs s -> ref_gen a = ref_gen b -> a = b.
Proof.
  intros Hs Hr Ha Hb. pose proof (so_gen _ _ Hs) as (_ & Hw & Hg & _).
  assert (Hlt : forall c, c ∈ refs (s_cur s) -> ref_gen c < rt_gen (s_cur s))
    by (intros c Hc; by apply (refs_good _ _ _ Hw Hg) in Hc as (_ & _ & ? & _)).
  unfold all_refs in Ha, Hb. rewrite elem_of_cons in Ha, Hb.
  destruct Ha as [->|Ha], Hb as [->|Hb]; simpl; intros E; [done| | |by apply (ro_unique _ _ Hr)].
  - apply Hlt in Hb. lia.
  - apply Hlt in Ha. lia.
Qed.

Lemma all_refs_stored s x ref :
  store_ok s x -> retained_ok s x -> ref ∈ all_refs s ->
  exists r, stored_ref x (s_blocks s) ref r /\ marks (s_used s) r (ref_blk ref).
Proof.
  intros Hs Hr. unfold all_refs. rewrite elem_of_cons. intros [->|Hin]; [|by apply Hr].
  exists (s_cur s). split; [split; [apply Hs|done]|apply Hs].
Qed.

(** [retained_ok] after a successful commit. *)
Lemma retained_next s x s3 x3 (P : Z -> Prop) :
  store_ok s x -> retained_ok s x -> keeps P x x3 ->
  (forall b, bit_get (s_used s) b = true -> ST_FIRST_DATA <= b -> P b) ->
  s_blocks s3 = s_blocks s -> (forall ref, ref ∈ refs (s_cur s3) -> ref ∈ all_refs s) ->
  (forall ref r, ref ∈ refs (s_cur s3) -> stored_ref x (s_blocks s) ref r ->
     marks (s_used s) r (ref_blk ref) -> marks (s_used s3) r (ref_blk ref)) ->
  retained_ok s3 x3.
Proof.
  intros Hs Hr Hk HP Hbl Hsub Hmk. split.
  - intros ref Hin. destruct (all_refs_stored s x ref Hs Hr (Hsub _ Hin)) as (r & Hst & Hm).
    exists r. rewrite Hbl. split; [|by eapply Hmk]. by eapply (stored_ref_keeps P).
  - intros a b Ha Hb. apply (all_refs_unique s x); auto.
Qed.

Definition tx_result (s : store) x (m : gmap (list Z) (list Z)) (e : st_error) (g : Z)
    (s3 : store) x3 : Prop :=
  (e = ST_OK /\ g = s_max_gen s + 1 /\ store_ok s3 x3 /\ s_in_tx s3 = false /\
   rt_gen (s_cur s3) = g /\ s_max_gen s3 = g /\ s_blocks s3 = s_blocks s /\
   kv (view x3) (s_cur s3) = m /\ (forall ref, ref ∈ refs (s_cur s3) -> ref ∈ all_refs s) /\
   (readable x -> retained_ok s x -> retained_ok s3 x3)) \/
  (e = ST_E_UNKNOWN /\ s_mounted s3 = false /\ exists r blk,
   rt_gen r = s_max_gen s + 1 /\ (forall ref, ref ∈ refs r -> ref ∈ all_refs s) /\
   forall img, bd_durable (io_dev x3) img ->
   (mountable img (s_blocks s) (s_cur s) (s_cur_blk s) (s_cur_slot s) /\
    kv img (s_cur s) = kv (view x) (s_cur s)) \/
   (mountable img (s_blocks s) r blk (1 - s_cur_slot s) /\ kv img r = m)) \/
  ((e = ST_E_NAME \/ e = ST_E_NOSPC \/ e = ST_E_IO) /\ store_ok s3 x3 /\ same_base s s3 /\
   s_in_tx s3 = false /\ kv (view x3) (s_cur s3) = kv (view x) (s_cur s) /\
   (retained_ok s x -> retained_ok s3 x3)).

(** Every outcome of a transaction. *)
Lemma transaction_outcome s x ops label s1 m s2 x2 e g s3 x3 :
  store_ok s x -> room s (Z.of_nat (length ops)) -> Forall tx_op_ok ops -> Forall byte_ok label ->
  st_begin s = (ST_OK, s1) -> tx_run s1 x (kv (view x) (s_cur s)) ops = (m, s2, x2) ->
  st_commit s2 x2 label = (e, g, s3, x3) ->
  keeps (fun b => bit_get (s_used s) b = true /\ ST_FIRST_DATA <= b) x x3 /\
  tx_result s x m e g s3 x3.
Proof.
  intros Hs Hroom Hops Hl Hb Hrun Hc.
  destruct (transaction_ok _ _ _ _ _ _ _ _ _ _ _ _ Hs Hroom Hops Hl Hb Hrun Hc)
    as (Ht2 & (E1 & E2 & E3 & E4 & E5 & E6 & E7 & E8 & E9) & Hk & Hm & Hkv).
  pose proof (commit_refs _ _ _ _ _ _ _ _ Ht2 Hl Hc) as Hrefs.
  unfold all_refs in Hrefs. rewrite E5, E8 in Hrefs. fold (all_refs s) in Hrefs.
  apply (commit_ok s2 x2 0) in Hc as (Hk3 & Hc); [|done|done].
  assert (HK : keeps (fun b => bit_get (s_used s) b = true /\ ST_FIRST_DATA <= b) x x3).
  { eapply keeps_trans; [eapply keeps_mono; [|exact Hk]; simpl; tauto|].
    eapply keeps_mono; [|exact Hk3]. intros b [Hu Hd]. split; [|done]. left. by rewrite E9. }
  split; [exact HK|]. unfold tx_result.
  destruct Hc as [Hc|[Hc|Hc]]; [left|right; left|right; right].
  - destruct Hc as (-> & -> & Hgen & Hok & Htx & Hcur & Hbl & Hmx & Hkv3 & Hmk).
    rewrite Hcur, E1, E6 in *. split_and!; try done; [congruence|congruence|apply Hrefs; by left|].
    intros Hrd Hret. apply (retained_next s x s3 x3 _ Hs Hret HK); [tauto|done|rewrite Hcur; apply Hrefs; by left|].
    rewrite Hcur. intros ref r Hin Hst Hmr. rewrite E9 in Hmk.
    destruct (stored_ref_keeps _ _ _ (s_used s) _ _ _ Hk ltac:(auto) Hmr Hst) as [(Hg2 & Hg3 & Hg4) _].
    apply (Hmk ltac:(by eapply keeps_readable) ref r); done.
  - destruct Hc as (-> & Hmt & blk & Hc). split; [done|]. split; [done|].
    exists (new_root s2 label), blk. split_and!; [|apply Hrefs; by right|].
    + unfold new_root. cbn [set_crc rt_gen commit_root]. unfold st_next_gen. rewrite <- E6. apply wrap_small.
      pose proof (to_room _ _ _ Ht2) as (_ & Hmx & _).
      pose proof (so_max _ _ (to_store _ _ _ Ht2)) as Hmax.
      destruct (so_gen _ _ (to_store _ _ _ Ht2)) as (_ & (_ & Hfg & _) & _).
      unfold fits in *. lia.
    + intros img Hi. specialize (Hc img Hi). rewrite E1, E4, E5, E8, Hm, Hkv in Hc. exact Hc.
  - destruct Hc as (He & Hok & Hbase3 & Htx & Hkv3).
    assert (Hbase : same_base s s3) by (unfold same_base in *; intuition congruence).
    pose proof Hbase as (F1 & _ & _ & _ & _ & _ & _ & F8 & F9).
    rewrite F8. rewrite E8 in Hkv3. split_and!; try done; [congruence|].
    intros Hret. apply (retained_next s x s3 x3 _ Hs Hret HK); [tauto|done| |].
    + rewrite F8. intros ref Hin. by apply elem_of_cons; right.
    + rewrite F9. done.
Qed.
(** Mounting after a power failure keeps the retained generations. *)
Lemma retained_remount s x x3 y img M boot r blk slot (P : Z -> Prop) :
  store_ok s x -> retained_ok s x -> keeps P x x3 ->
  (forall b, bit_get (s_used s) b = true -> ST_FIRST_DATA <= b -> P b) ->
  bd_durable (io_dev x3) img -> powered_up y img -> mountable img (s_blocks s) r blk slot ->
  (forall ref, ref ∈ refs r -> ref ∈ all_refs s) -> s_blocks s <= M -> fits 64 boot ->
  forall s4 y', st_mount y M boot 0 = (ST_OK, s4, y') -> retained_ok s4 y'.
Proof.
  intros Hs Hr Hk HP Hi Hy Hm Hsub HM Hb s4 y' E.
  destruct (remount y img _ M boot r blk slot Hy Hm (proj2 (so_capacity _ _ Hs)) HM Hb)
    as (s4' & y'' & E' & Hok & _ & _ & Hcur & Hbl & _ & _ & Hst).
  rewrite E in E'. injection E' as <- <-. split; rewrite Hcur.
  - intros ref Hin. destruct (all_refs_stored s x ref Hs Hr (Hsub _ Hin)) as (r' & Hst' & Hmk).
    destruct (stored_ref_keeps P x x3 (s_used s) _ _ _ Hk HP Hmk Hst') as [H3 _].
    destruct (stored_ref_power x3 y img _ _ _ H3 Hi Hy) as [H4 _].
    exists r'. rewrite Hbl. by apply Hst.
  - intros a b Ha Hb'. apply (all_refs_unique s x); auto.
Qed.

Lemma crash_lemma s x ops label s1 m s2 x2 e g s3 x3 img y M boot :
  store_ok s x -> room s (Z.of_nat (length ops)) -> Forall tx_op_ok ops -> Forall byte_ok label ->
  st_begin s = (ST_OK, s1) -> tx_run s1 x (kv (view x) (s_cur s)) ops = (m, s2, x2) ->
  st_commit s2 x2 label = (e, g, s3, x3) -> bd_durable (io_dev x3) img -> powered_up y img ->
  s_blocks s <= M -> fits 64 boot ->
  exists s4 y', st_mount y M boot 0 = (ST_OK, s4, y') /\ store_ok s4 y' /\ readable y' /\
    (retained_ok s x -> retained_ok s4 y') /\
    ((e <> ST_OK /\ s_cur s4 = s_cur s /\ kv (view y') (s_cur s4) = kv (view x) (s_cur s)) \/
     ((e = ST_OK \/ e = ST_E_UNKNOWN) /\ rt_gen (s_cur s4) = s_max_gen s + 1 /\
      kv (view y') (s_cur s4) = m)).
Proof.
  intros Hs Hroom Hops Hl Hb Hrun Hc Himg Hy HM Hboot.
  destruct (transaction_outcome _ _ _ _ _ _ _ _ _ _ _ _ Hs Hroom Hops Hl Hb Hrun Hc) as [HK Hout].
  assert (HP : forall b, bit_get (s_used s) b = true -> ST_FIRST_DATA <= b ->
    bit_get (s_used s) b = true /\ ST_FIRST_DATA <= b) by auto.
  assert (Hfin : exists r blk slot, mountable img (s_blocks s) r blk slot /\
    (forall ref, ref ∈ refs r -> ref ∈ all_refs s) /\
    ((e <> ST_OK /\ r = s_cur s /\ kv img r = kv (view x) (s_cur s)) \/
     ((e = ST_OK \/ e = ST_E_UNKNOWN) /\ rt_gen r = s_max_gen s + 1 /\ kv img r = m))).
  { destruct Hout as [Ho|[Ho|Ho]].
    - destruct Ho as (-> & -> & Hok & _ & Hgen & _ & Hbl & Hkv & Hsub & _).
      destruct (store_ok_mountable s3 x3 img Hok Himg) as [Hmt Hkvi]. rewrite Hbl in Hmt.
      exists (s_cur s3), (s_cur_blk s3), (s_cur_slot s3). split_and!; try done. right.
      split; [by left|]. split; [done|]. by rewrite Hkvi.
    - destruct Ho as (-> & _ & r & blk & Hgen & Hsub & Ho). destruct (Ho img Himg) as [[Hmt Hkv]|[Hmt Hkv]].
      + exists (s_cur s), (s_cur_blk s), (s_cur_slot s). split_and!; try done; [|by left].
        intros ref Hin. by apply elem_of_cons; right.
      + exists r, blk, (1 - s_cur_slot s). split_and!; try done. right. split; [by right|done].
    - destruct Ho as (He & Hok & Hbase & _ & Hkv & _). pose proof Hbase as (F1 & _ & _ & _ & _ & _ & _ & F8 & _).
      destruct (store_ok_mountable s3 x3 img Hok Himg) as [Hmt Hkvi]. rewrite F1 in Hmt.
      rewrite F8 in *. exists (s_cur s), (s_cur_blk s3), (s_cur_slot s3). split_and!; try done.
      + intros ref Hin. by apply elem_of_cons; right.
      + left. split; [by destruct He as [-> |[-> | ->]]|]. split; [done|]. by rewrite Hkvi. }
  destruct Hfin as (r & blk & slot & Hmt & Hsub & Hcase).
  destruct (remount y img _ M boot r blk slot Hy Hmt (proj2 (so_capacity _ _ Hs)) HM Hboot)
    as (s4 & y' & E & Hok & Hrd & _ & Hcur & _ & _ & Hkv & _).
  exists s4, y'. split_and!; try done.
  - intros Hret. by eapply (retained_remount s x x3 y img M boot).
  - rewrite Hcur, Hkv. exact Hcase.
Qed.
(** ** Lemmas: reading *)

Lemma find_ref_gen s gen ref : find_ref s gen = Some ref -> ref_gen ref = gen.
Proof.
  unfold find_ref. cbv zeta. destruct (Z.eqb_spec gen (rt_gen (s_cur s))) as [->|_]; [by intros [= <-]|].
  destruct (find_first _ (seqZ 0 (rt_nhist _))) as [i|] eqn:E.
  { apply find_first_elem in E as [_ E]. intros [= <-]. by apply Z.eqb_eq. }
  destruct (find_first _ (seqZ 0 (rt_npin _))) as [i|] eqn:E2; [|done].
  apply find_first_elem in E2 as [_ E2]. intros [= <-]. by apply Z.eqb_eq.
Qed.

Lemma find_ref_in s x gen ref : store_ok s x -> find_ref s gen = Some ref -> ref ∈ all_refs s.
Proof.
  intros Hs E. pose proof (so_gen _ _ Hs) as (_ & Hw & Hg & _).
  apply elem_of_cons. by eapply find_ref_spec.
Qed.

Lemma find_ref_complete s x gen ref :
  store_ok s x -> ref ∈ all_refs s -> ref_gen ref = gen -> find_ref s gen <> None.
Proof.
  intros Hs Hin <-. pose proof (so_gen _ _ Hs) as (_ & Hw & Hg & _). unfold find_ref. cbv zeta.
  apply elem_of_cons in Hin as [->|Hin]; [simpl; by rewrite Z.eqb_refl|].
  destruct (_ =? _); [done|]. apply elem_of_app in Hin as [Hin|Hin].
  - destruct (find_first _ (seqZ 0 (rt_nhist _))) eqn:E; [done|].
    apply find_first_None in E. rewrite Forall_forall in E. apply list_elem_of_lookup in Hin as [i Hi].
    apply lookup_take_Some in Hi as [Hi Hlt]. specialize (E (Z.of_nat i)).
    rewrite elem_of_seqZ, Nat2Z.id, (list_lookup_total_correct _ _ _ Hi), Z.eqb_refl in E.
    by discriminate E; lia.
  - destruct (find_first _ (seqZ 0 (rt_nhist _))); [done|].
    destruct (find_first _ (seqZ 0 (rt_npin _))) eqn:E; [done|].
    apply list_elem_of_fmap in Hin as (p & -> & Hin).
    apply find_first_None in E. rewrite Forall_forall in E. apply list_elem_of_lookup in Hin as [i Hi].
    apply lookup_take_Some in Hi as [Hi Hlt]. specialize (E (Z.of_nat i)).
    rewrite elem_of_seqZ, Nat2Z.id, (list_lookup_total_correct _ _ _ Hi), Z.eqb_refl in E.
    by discriminate E; lia.
Qed.

Lemma st_find_spec r name :
  root_wf r -> rt_nobj r <= ST_OBJ_MAX ->
  match st_find r name with
  | None => forall o, o ∈ objs r -> cstr (o_name o) <> cstr name
  | Some o => o ∈ objs r /\ cstr (o_name o) = cstr name
  end.
Proof.
  intros Hw Hn. unfold st_find. cbv zeta.
  destruct (find_index_spec r name Hw Hn) as [[-> H]|(o & Hi & Ho & -> & Hname)]; [done|].
  rewrite (proj2 (Z.ltb_ge _ 0)) by lia. split; [by eapply list_elem_of_lookup_2|done].
Qed.

Lemma read_root_ok x N r blk name cap :
  readable x -> N <= bd_capacity D -> gen_stored x N r blk ->
  match st_find r name with
  | None => True
  | Some o => exists x', o_len o <= cap ->
      verify_extent N x o cap = (ST_OK, obj_data (view x) o, x')
  end.
Proof.
  intros Hr HN (Hb & Hw & Hg & _ & _ & Ho). unfold ST_FIRST_DATA in Hb. pose proof Hg as ((_ & _ & _ & Hno & _) & _ & _ & Hog).
  pose proof (st_find_spec r name Hw Hno) as Hf. destruct (st_find r name) as [o|]; [|done].
  destruct Hf as [Hin _]. destruct (Ho o Hin) as [He _]. apply list_elem_of_lookup in Hin as [i Hi].
  destruct Hog as [Hog _]. specialize (Hog i o Hi). unfold obj_good, ST_FIRST_DATA in Hog.
  pose proof (objs_lookup_wf r i o Hw Hi) as Hof. unfold obj_wf, fits in Hof.
  destruct (verify_extent_ok N x o cap) as (out & x' & E & Hout); try done; try lia.
  exists x'. intros Hc. by rewrite E, Hout.
Qed.
(** Reading a retained generation returns what it holds. *)
Lemma st_read_ok s x gen name cap r :
  store_ok s x -> readable x ->
  (gen = 0 /\ r = s_cur s) \/
  (exists ref, find_ref s gen = Some ref /\ stored_ref x (s_blocks s) ref r) ->
  (st_read s x gen name cap).1 = read_result (view x) r name cap.
Proof.
  intros Hs Hr Hgen. pose proof (so_capacity _ _ Hs) as HN.
  assert (Hr1 : exists blk x1, gen_stored x1 (s_blocks s) r blk /\ readable x1 /\
    (forall b, view x1 b = view x b) /\
    (if negb (gen =? 0) && negb (gen =? rt_gen (s_cur s)) then st_root_of s x gen
     else (ST_OK, s_cur s, x)) = (ST_OK, r, x1)).
  { pose proof (so_gen _ _ Hs) as Hcur.
    assert (Hc : r = s_cur s -> negb (gen =? 0) && negb (gen =? rt_gen (s_cur s)) = false ->
      exists blk x1, gen_stored x1 (s_blocks s) r blk /\ readable x1 /\
    (forall b, view x1 b = view x b) /\
        (if negb (gen =? 0) && negb (gen =? rt_gen (s_cur s)) then st_root_of s x gen
         else (ST_OK, s_cur s, x)) = (ST_OK, r, x1)).
    { intros -> ->. exists (s_cur_blk s), x. done. }
    destruct Hgen as [[-> ->]|(ref & Hf & Hst)]; [by apply Hc|].
    destruct (Z.eqb_spec gen (rt_gen (s_cur s))) as [Eg|Eg]; cbn [negb] in *.
    - apply Hc; [|by rewrite andb_false_r]. unfold find_ref in Hf. rewrite Eg, Z.eqb_refl in Hf.
      injection Hf as <-. destruct Hst as ((_ & _ & _ & _ & [<- _] & _) & _).
      by destruct Hcur as (_ & _ & _ & _ & [<- _] & _).
    - pose proof (find_ref_gen _ _ _ Hf) as Hrg. pose proof (find_ref_in _ _ _ _ Hs Hf) as Hin.
      apply elem_of_cons in Hin as [->|Hin]; [simpl in Hrg; congruence|].
      destruct Hcur as (_ & Hw & Hg & _). pose proof (refs_good _ _ _ Hw Hg Hin) as [_ [H0 _]].
      rewrite (proj2 (Z.eqb_neq gen 0)) by congruence. cbn [negb andb].
      unfold st_root_of. rewrite (so_mounted _ _ Hs). cbn [negb]. rewrite Hf, (proj2 (Z.eqb_neq _ _) Eg).
      destruct Hst as (Hgs & <- & <-). pose proof Hgs as (Hb & Hw' & Hg' & _ & Hat & _).
      destruct (load_root_ok (s_blocks s) x (ref_blk ref) r) as (x1 & E); try done; try lia.
      { apply (root_sane_good r (s_blocks s) Hw'); [(pose proof bd_capacity_max; lia)|exact Hg']. }
      pose proof (load_root_keeps _ _ _ _ _ _ _ _ E) as Hk.
      exists (ref_blk ref), x1. split_and!; try done; [by eapply gen_stored_keeps|by eapply keeps_readable|].
      intros b. by eapply keeps_view. }
  destruct Hr1 as (blk & x1 & Hgs & Hrd & Hv & E).
  unfold st_read. rewrite (so_mounted _ _ Hs). cbn [negb]. rewrite E. cbn [is_ok negb].
  pose proof (read_root_ok x1 (s_blocks s) r blk name cap Hrd ltac:(lia) Hgs) as Hrr.
  unfold read_result. destruct (st_find r name) as [o|]; [|done].
  rewrite Z.gtb_ltb. destruct (Z.ltb_spec cap (o_len o)); [done|].
  destruct Hrr as (x2 & Hrr). rewrite Hrr by lia. cbn [fst]. by rewrite (obj_data_ext (view x) (view x1)).
Qed.
(** A retained generation reads the same before and after a transaction. *)
Lemma snapshot_read s x s3 x3 (P : Z -> Prop) gen name cap :
  store_ok s x -> retained_ok s x -> readable x -> store_ok s3 x3 -> s_blocks s3 = s_blocks s ->
  keeps P x x3 -> (forall b, bit_get (s_used s) b = true -> ST_FIRST_DATA <= b -> P b) ->
  (forall ref, ref ∈ refs (s_cur s3) -> ref ∈ all_refs s) ->
  st_is_retained s3 gen = true -> gen <> rt_gen (s_cur s3) ->
  (st_read s3 x3 gen name cap).1 = (st_read s x gen name cap).1.
Proof.
  intros Hs Hret Hrd Hok Hbl HK HP Hsub Hgen Hne.
  unfold st_is_retained in Hgen. apply andb_true_iff in Hgen as [_ Hgen].
  destruct (find_ref s3 gen) as [ref|] eqn:Ef; [|done].
  pose proof (find_ref_gen _ _ _ Ef) as Hrg.
  assert (Hin : ref ∈ all_refs s).
  { apply (find_ref_in _ _ _ _ Hok) in Ef. apply elem_of_cons in Ef as [->|Hin]; [|auto].
    simpl in Hrg. congruence. }
  destruct (all_refs_stored s x ref Hs Hret Hin) as (r & Hst & Hmk).
  destruct (stored_ref_keeps P x x3 (s_used s) _ _ _ HK HP Hmk Hst) as [Hst3 _].
  assert (Ef0 : find_ref s gen = Some ref).
  { destruct (find_ref s gen) as [ref0|] eqn:E0.
    - f_equal. apply (all_refs_unique s x); try done; [by eapply find_ref_in|].
      rewrite (find_ref_gen _ _ _ E0). done.
    - exfalso. by apply (find_ref_complete s x gen ref). }
  rewrite (st_read_ok s3 x3 gen name cap r), (st_read_ok s x gen name cap r); try done.
  - unfold read_result. destruct (st_find r name) as [o|] eqn:Eo; [|done].
    destruct (_ >? _); [done|]. f_equal. f_equal. apply obj_data_ext. intros b Hb.
    eapply keeps_view; [exact HK|]. pose proof Hst as ((_ & Hw & Hg & _) & _).
    pose proof Hg as ((_ & _ & _ & Hno & _) & _). pose proof (st_find_spec r name Hw Hno) as Hf.
    rewrite Eo in Hf. destruct Hf as [Ho _].
    apply HP; [by apply (proj2 Hmk o b)|]. by apply (obj_ext_range r (s_blocks s) o b).
  - right. by exists ref.
  - by eapply keeps_readable.
  - right. exists ref. by rewrite Hbl.
Qed.

Lemma read_current_lemma s x name cap :
  store_ok s x -> readable x ->
  match kv (view x) (s_cur s) !! cstr name with
  | None => (st_read s x 0 name cap).1 = (ST_E_NOTFOUND, [], None)
  | Some data => exists o, cstr (o_name o) = cstr name /\
      (o_len o <= cap -> (st_read s x 0 name cap).1 = (ST_OK, data, Some o)) /\
      (cap < o_len o -> (st_read s x 0 name cap).1 = (ST_E_TOOBIG, [], Some o))
  end.
Proof.
  intros Hs Hr. rewrite (st_read_ok s x 0 name cap (s_cur s)) by (done || by left).
  pose proof (so_gen _ _ Hs) as (_ & Hw & Hg & _). pose proof Hg as ((_ & _ & _ & Hno & _) & _ & _ & Hog).
  pose proof (objs_good_names _ _ _ _ Hog) as Hd.
  pose proof (st_find_spec (s_cur s) name Hw Hno) as Hf. unfold read_result.
  destruct (st_find (s_cur s) name) as [o|].
  - destruct Hf as [Hin Hname].
    rewrite (proj2 (kv_lookup (view x) (s_cur s) (cstr name) (obj_data (view x) o) Hd)) by eauto.
    exists o. rewrite Z.gtb_ltb. split_and!; [done|intros|intros]; destruct (Z.ltb_spec cap (o_len o)); done || lia.
  - destruct (kv (view x) (s_cur s) !! cstr name) as [d|] eqn:E; [|done].
    apply kv_lookup in E as (o & Hin & Hname & _); [|done]. by destruct (Hf o Hin).
Qed.

Lemma format_mount_lemma x blocks id retain boot x' img y M boot' :
  fits 64 id -> fits 64 boot -> fits 64 boot' ->
  st_format x blocks id retain boot = (ST_OK, x') ->
  bd_durable (io_dev x') img -> powered_up y img -> blocks <= bd_capacity D -> blocks <= M ->
  exists s y', st_mount y M boot' 0 = (ST_OK, s, y') /\ store_ok s y' /\ retained_ok s y' /\
    s_cur s = format_root id retain boot /\ kv (view y') (s_cur s) = ∅ /\ s_blocks s = blocks /\
    readable y' /\ s_in_tx s = false /\ s_max_gen s = 1.
Proof.
  intros Hid Hb Hb' Hf Himg Hy HC HM.
  destruct (format_ok x blocks id retain boot x' Hid Hb Hf) as (Hset & Hmt & Hkv & _).
  assert (Hi : forall b, img b = view x' b) by (intros b; symmetry; by apply Hset).
  pose proof (mountable_ext _ img _ _ _ _ Hmt Hi) as Hmt'.
  destruct (remount y img blocks M boot' _ _ _ Hy Hmt' HC HM Hb')
    as (s & y' & E & Hok & Hrd & Htx & Hcur & Hbl & Hmx & Hkv' & _).
  exists s, y'. rewrite Hcur. split_and!; try done.
  split; rewrite Hcur; [intros ref Hin|intros ref ref2 Hin]; by apply not_elem_of_nil in Hin.
Qed.
End theorems.
