(* ===== verification/StoreThm.v ===== *)
(** * nxstore: theorems

    The store as its clients see it: a crash-safe map from names to data with
    retained earlier generations. *)
From S2P Require Import Prelude Bytes Bitmap Crc32 StoreFmt Store StoreDev StoreFacts StoreIo.
From S2P Require Import StoreInv StoreTx StoreCrash StoreMount StoreSnap.

(** ** Sample device for the witnesses *)

(** "a" and "commit" *)
Definition name_a : list Z := [97].
Definition label_c : list Z := [99; 111; 109; 109; 105; 116].

(** A device with nothing on it. *)
Definition blank : io wb_dev := mk_io (mk_wb ∅ [] [] [] []) 0 0 0.

(** The device after a restart that kept everything written so far, with the
    given future write and flush failures. *)
Definition restarted (d : wb_dev) (wfail ffail : list bool) : io wb_dev :=
  mk_io (mk_wb (foldr (fun '(x, b) m => <[x := b]> m) (wb_disk d) (wb_cache d)) [] [] wfail ffail) 0 0 0.

(** A store of 32 blocks, formatted, restarted and mounted. *)
Definition sample_disk : wb_dev := io_dev (st_format blank 32 7 2 1).2.
Definition sample_mount (wfail ffail : list bool) : st_error * store * io wb_dev :=
  st_mount (restarted sample_disk wfail ffail) 32 5 0.
Definition sample_ops : list tx_op := [TPut name_a 1 [1; 2; 3]].

(** A transaction on it. *)
Definition run_sample (r : st_error * store * io wb_dev) : gmap (list Z) (list Z) * store * io wb_dev :=
  tx_run (st_begin r.1.2).2 r.2 (kv (view r.2) (s_cur r.1.2)) sample_ops.
Definition commit_sample (r : gmap (list Z) (list Z) * store * io wb_dev)
    : st_error * Z * store * io wb_dev := st_commit r.1.2 r.2 label_c.
Definition sample_commit (wfail ffail : list bool) : st_error * Z * store * io wb_dev :=
  commit_sample (run_sample (sample_mount wfail ffail)).

(** One transaction that stores [data] under "a". *)
Definition put_a (r : store * io wb_dev) (data : list Z) : store * io wb_dev :=
  let p := st_put (st_begin r.1).2 r.2 name_a 1 data in
  let c := st_commit p.1.2 p.2 label_c in (c.1.2, c.2).

(** The next read of the device fails. *)
Definition fail_next_read (r : store * io wb_dev) : store * io wb_dev :=
  let x := r.2 in let d := io_dev x in
  (r.1, mk_io (mk_wb (wb_disk d) (wb_cache d) [true] (wb_wfail d) (wb_ffail d))
          (io_reads x) (io_writes x) (io_flushes x)).

(** Generation 2 of a store that keeps 9 generations, and the store two
    transactions later, one read having failed in between. *)
Definition gen2_store : store * io wb_dev :=
  let m := st_mount (st_format blank 32 7 9 1).2 32 5 0 in put_a (m.1.2, m.2) [1].
Definition gen4_store : store * io wb_dev := put_a (put_a (fail_next_read gen2_store) [2]) [3].

#[local] Opaque zero_block enc_root enc_super make_super block_crc dec_root dec_super enc_root_body
  enc_super_body root_sane nx_crc32_update nx_crc32.

(** ** Lemmas on the sample device *)

Lemma wb_view_durable d : wb_durable d (wb_view d).
Proof.
  intros x. unfold wb_possible, wb_view. generalize (disk_block (wb_disk d) x). intros b.
  induction (wb_cache d) as [|[y c] l IH]; [by left|]. simpl.
  destruct (Z.eqb_spec y x) as [->|]; [right; left; split; [done|right; by left]|].
  destruct IH as [IH|IH]; [by left|right; by right].
Qed.

Lemma restarted_up (d : wb_dev) wf ff : powered_up (restarted d wf ff) (wb_view d).
Proof.
  assert (Hv : forall b, view (restarted d wf ff) b = wb_view d b)
    by (intros b; apply cache_block_flush).
  split; [done|]. split; [|by apply Forall_nil].
  intros b. split; [done|]. intros img Hi. destruct (Hi b) as [->|H]; [done|]. by apply Exists_nil in H.
Qed.

Lemma pair_eq {A B} (p : A * B) a : p.1 = a -> p = (a, p.2).
Proof. by destruct p as [? ?]; intros <-. Qed.

Lemma sample_ok wf ff :
  exists s x, sample_mount wf ff = (ST_OK, s, x) /\ store_ok s x /\ retained_ok s x /\
    s_cur s = format_root 7 2 1 /\ kv (view x) (s_cur s) = ∅ /\ s_blocks s = 32 /\ readable x /\
    s_in_tx s = false /\ s_max_gen s = 1.
Proof.
  assert (Hf : (st_format blank 32 7 2 1).1 = ST_OK) by by vm_compute.
  assert (H7 : fits 64 7 /\ fits 64 1 /\ fits 64 5) by (unfold fits; lia).
  destruct H7 as (H7 & H1 & H5). assert (Hc : 32 <= bd_capacity wb_dev) by by vm_compute.
  exact (format_mount_lemma blank 32 7 2 1 _ _ _ 32 5 H7 H1 H5 (pair_eq _ _ Hf)
           (wb_view_durable sample_disk) (restarted_up sample_disk wf ff) Hc (Z.le_refl 32)).
Qed.

Lemma sample_room s : s_cur s = format_root 7 2 1 -> s_max_gen s = 1 -> room s 1.
Proof.
  intros Hc Hm. unfold room. rewrite Hc, Hm. split_and!; try lia; [done|].
  intros o Ho. by apply not_elem_of_nil in Ho.
Qed.

(** Everything the witnesses need of the sample transaction. *)
Lemma sample_session wf ff :
  exists s x s1 m s2 x2 e g s3 x3,
    sample_mount wf ff = (ST_OK, s, x) /\ store_ok s x /\ retained_ok s x /\ readable x /\
    room s (Z.of_nat (length sample_ops)) /\ s_blocks s = 32 /\ st_begin s = (ST_OK, s1) /\
    tx_run s1 x (kv (view x) (s_cur s)) sample_ops = (m, s2, x2) /\
    st_commit s2 x2 label_c = (e, g, s3, x3) /\ sample_commit wf ff = (e, g, s3, x3).
Proof.
  destruct (sample_ok wf ff) as (s & x & E & Hok & Hret & Hcur & _ & Hbl & Hrd & Htx & Hmx).
  destruct (tx_run (st_begin s).2 x (kv (view x) (s_cur s)) sample_ops) as [[m s2] x2] eqn:Er.
  destruct (st_commit s2 x2 label_c) as [[[e g] s3] x3] eqn:Ec.
  exists s, x, (st_begin s).2, m, s2, x2, e, g, s3, x3.
  split; [exact E|]. split; [exact Hok|]. split; [exact Hret|]. split; [exact Hrd|].
  split; [exact (sample_room s Hcur Hmx)|]. split; [exact Hbl|].
  split; [|split; [exact Er|split; [exact Ec|]]].
  - unfold st_begin. rewrite (so_mounted _ _ Hok), Htx. reflexivity.
  - unfold sample_commit, commit_sample, run_sample. rewrite E. cbn [fst snd]. by rewrite Er.
Qed.

Lemma sample_args : Forall tx_op_ok sample_ops /\ Forall byte_ok label_c.
Proof. unfold sample_ops, label_c. split; repeat constructor; unfold byte_ok, fits; simpl; lia. Qed.

Section theorems.
Context {D : Type} `{!st_dev D, !StDevLaws D}.
Implicit Types x y : io D.

(** C1: a transaction is atomic under power failure.  Take any mounted store, any
    transaction of puts, deletes, pins, unpins and prunes, any device obeying the
    device contract (writes and flushes may fail at any point and unflushed
    writes reach the medium in any order, torn, in part or not at all), and any content
    [img] the medium may have when power is lost after the commit returned.
    Mounting that medium always succeeds and shows either exactly the old
    generation, when the commit did not report success, or exactly the contents
    of the transaction, when it reported success or ST_E_UNKNOWN; retained
    generations survive as well. *)
Theorem store_crash_atomic s x ops label s1 m s2 x2 e g s3 x3 img y M boot :
  store_ok s x -> room s (Z.of_nat (length ops)) -> Forall tx_op_ok ops -> Forall byte_ok label ->
  st_begin s = (ST_OK, s1) -> tx_run s1 x (kv (view x) (s_cur s)) ops = (m, s2, x2) ->
  st_commit s2 x2 label = (e, g, s3, x3) -> bd_durable (io_dev x3) img -> powered_up y img ->
  s_blocks s <= M -> fits 64 boot ->
  exists s4 y', st_mount y M boot 0 = (ST_OK, s4, y') /\ store_ok s4 y' /\ readable y' /\
    (retained_ok s x -> retained_ok s4 y') /\
    ((e <> ST_OK /\ s_cur s4 = s_cur s /\ kv (view y') (s_cur s4) = kv (view x) (s_cur s)) \/
     ((e = ST_OK \/ e = ST_E_UNKNOWN) /\ rt_gen (s_cur s4) = s_max_gen s + 1 /\
      kv (view y') (s_cur s4) = m)).
Proof. apply crash_lemma. Qed.

(** C4: every outcome of a transaction on a running system.  A successful commit
    leaves a good store whose contents are the transaction's and whose generation
    number is the next one; a failed one (bad label, no space, device error
    before the superblock write) leaves a good store with the old contents; a
    device error on the superblock write unmounts the store, and the medium then
    holds one of the two generations.  Invariant and retained generations are
    kept. *)
Theorem store_transaction s x ops label s1 m s2 x2 e g s3 x3 :
  store_ok s x -> room s (Z.of_nat (length ops)) -> Forall tx_op_ok ops -> Forall byte_ok label ->
  st_begin s = (ST_OK, s1) -> tx_run s1 x (kv (view x) (s_cur s)) ops = (m, s2, x2) ->
  st_commit s2 x2 label = (e, g, s3, x3) -> tx_result s x m e g s3 x3.
Proof. intros. eapply transaction_outcome; eassumption. Qed.

(** C3: snapshots are immutable: after a successful commit, reading any earlier
    generation that is still retained gives the same status, data and metadata
    as before the transaction. *)
Theorem store_snapshots_stable s x ops label s1 m s2 x2 g s3 x3 gen name cap :
  store_ok s x -> retained_ok s x -> readable x ->
  room s (Z.of_nat (length ops)) -> Forall tx_op_ok ops -> Forall byte_ok label ->
  st_begin s = (ST_OK, s1) -> tx_run s1 x (kv (view x) (s_cur s)) ops = (m, s2, x2) ->
  st_commit s2 x2 label = (ST_OK, g, s3, x3) ->
  st_is_retained s3 gen = true -> gen <> g ->
  (st_read s3 x3 gen name cap).1 = (st_read s x gen name cap).1.
Proof.
  intros Hs Hret Hrd Hroom Hops Hl Hb Hrun Hc Hgen Hne.
  destruct (transaction_outcome _ _ _ _ _ _ _ _ _ _ _ _ Hs Hroom Hops Hl Hb Hrun Hc)
    as [HK [Ho|[Ho|Ho]]]; [|by destruct Ho|by destruct Ho as ([?|[?|?]] & _)].
  destruct Ho as (_ & _ & Hok & _ & Hg & _ & Hbl & _ & Hsub & _).
  eapply snapshot_read; try done. congruence.
Qed.

(** Formatting a device and mounting it after a restart gives an empty store
    of generation 1 that satisfies the invariant. *)
Theorem store_format_mount x blocks id retain boot x' img y M boot' :
  fits 64 id -> fits 64 boot -> fits 64 boot' ->
  st_format x blocks id retain boot = (ST_OK, x') ->
  bd_durable (io_dev x') img -> powered_up y img -> blocks <= bd_capacity D -> blocks <= M ->
  exists s y', st_mount y M boot' 0 = (ST_OK, s, y') /\ store_ok s y' /\ retained_ok s y' /\
    rt_gen (s_cur s) = 1 /\ kv (view y') (s_cur s) = ∅ /\ s_blocks s = blocks.
Proof.
  intros Hid Hb Hb' Hf Himg Hy HC HM.
  destruct (format_mount_lemma x blocks id retain boot x' img y M boot' Hid Hb Hb' Hf Himg Hy HC HM)
    as (s & y' & E & Hok & Hret & Hcur & Hkv & Hbl & _).
  exists s, y'. rewrite Hcur in *. split_and!; done.
Qed.

(** Reading an object of the current generation returns exactly the stored
    bytes, a buffer that is too small or an unknown name give ST_E_TOOBIG and
    ST_E_NOTFOUND. *)
Theorem store_read_current s x name cap :
  store_ok s x -> readable x ->
  match kv (view x) (s_cur s) !! cstr name with
  | None => (st_read s x 0 name cap).1 = (ST_E_NOTFOUND, [], None)
  | Some data => exists o, cstr (o_name o) = cstr name /\
      (o_len o <= cap -> (st_read s x 0 name cap).1 = (ST_OK, data, Some o)) /\
      (cap < o_len o -> (st_read s x 0 name cap).1 = (ST_E_TOOBIG, [], Some o))
  end.
Proof. apply read_current_lemma. Qed.
End theorems.

(** Encoding is lossless: a root block decodes to the root it was made from,
    and the superblock written for a root is valid and selects that root. *)
Theorem store_codec_roundtrip r blk N :
  root_wf r -> fits 32 blk -> fits 64 N ->
  dec_root (enc_root r) = r /\ slot_points N r blk (enc_super (make_super r blk N)).
Proof. intros Hw Hb HN. split; [by apply dec_enc_root|by apply make_super_points]. Qed.

(** The acceptance test for roots read from the medium, a sequence of bounded
    loops, decides exactly the declarative well-formedness of a root: counts in
    range, strictly descending history, valid and distinct names and identities,
    object extents of the right size, on the device and pairwise disjoint. *)
Theorem root_sane_decides r blocks :
  root_wf r -> blocks <= ST_MAX_BLOCKS -> root_sane r blocks = true <-> root_good r blocks.
Proof. apply root_sane_good. Qed.

(** One failed read while a commit recomputes the allocation map makes a later
    commit overwrite the data of a generation that is still retained: generation
    2 could be read before, is still listed afterwards, and is then corrupt. *)
Lemma read_error_loses_snapshot :
  (st_read gen2_store.1 gen2_store.2 2 name_a 64).1.1 = (ST_OK, [1]) /\
  st_is_retained gen4_store.1 2 = true /\
  (st_read gen4_store.1 gen4_store.2 2 name_a 64).1.1 = (ST_E_CORRUPT, [3]).
Proof. by vm_compute. Qed.

(** ** Witnesses *)

Lemma store_codec_roundtrip_witness :
  dec_root (enc_root (format_root 7 2 1)) = format_root 7 2 1.
Proof.
  assert (H : fits 64 7 /\ fits 64 1 /\ fits 32 2 /\ fits 64 32) by (unfold fits; lia).
  destruct H as (H7 & H1 & H2 & H32).
  assert (Hr : ST_RETAIN_MIN <= 2 <= ST_RETAIN_MAX) by (unfold ST_RETAIN_MIN, ST_RETAIN_MAX, ST_HIST_MAX; lia).
  exact (proj1 (store_codec_roundtrip (format_root 7 2 1) 2 32
    (proj1 (format_root_facts 7 2 1 H7 Hr H1 32)) H2 H32)).
Defined.

Lemma root_sane_decides_witness : root_sane (format_root 7 2 1) 32 = true.
Proof.
  assert (H : fits 64 7 /\ fits 64 1 /\ 32 <= ST_MAX_BLOCKS) by (unfold fits, ST_MAX_BLOCKS; lia).
  destruct H as (H7 & H1 & H32).
  assert (Hr : ST_RETAIN_MIN <= 2 <= ST_RETAIN_MAX) by (unfold ST_RETAIN_MIN, ST_RETAIN_MAX, ST_HIST_MAX; lia).
  destruct (format_root_facts 7 2 1 H7 Hr H1 32) as (Hw & Hg & _).
  exact (proj2 (root_sane_decides (format_root 7 2 1) 32 Hw H32) Hg).
Defined.

Lemma store_crash_atomic_witness : exists e g s3 x3 s4 y',
  sample_commit [] [false; true] = (e, g, s3, x3) /\ e = ST_E_UNKNOWN /\
  st_mount (restarted (io_dev x3) [] []) 32 9 0 = (ST_OK, s4, y') /\ store_ok s4 y'.
Proof.
  assert (He : (sample_commit [] [false; true]).1.1.1 = ST_E_UNKNOWN) by by vm_compute.
  destruct (sample_session [] [false; true])
    as (s & x & s1 & m & s2 & x2 & e & g & s3 & x3 & _ & Hok & _ & _ & Hroom & Hbl & Hb & Hr & Hc & Hsc).
  rewrite Hsc in He. assert (H9 : fits 64 9) by (unfold fits; lia).
  assert (Hle : s_blocks s <= 32) by lia.
  destruct (store_crash_atomic s x sample_ops label_c s1 m s2 x2 e g s3 x3 _ _ 32 9 Hok Hroom
    (proj1 sample_args) (proj2 sample_args) Hb Hr Hc (wb_view_durable _) (restarted_up _ [] []) Hle H9)
    as (s4 & y' & Hm & Hok' & _).
  exists e, g, s3, x3, s4, y'. split; [exact Hsc|]. split; [exact He|]. split; [exact Hm|exact Hok'].
Defined.

Lemma store_transaction_witness : exists s x m e g s3 x3,
  sample_mount [] [] = (ST_OK, s, x) /\ sample_commit [] [] = (e, g, s3, x3) /\ e = ST_OK /\
  tx_result s x m e g s3 x3.
Proof.
  assert (He : (sample_commit [] []).1.1.1 = ST_OK) by by vm_compute.
  destruct (sample_session [] [])
    as (s & x & s1 & m & s2 & x2 & e & g & s3 & x3 & Hm & Hok & _ & _ & Hroom & _ & Hb & Hr & Hc & Hsc).
  rewrite Hsc in He. exists s, x, m, e, g, s3, x3.
  split; [exact Hm|]. split; [exact Hsc|]. split; [exact He|].
  exact (store_transaction s x sample_ops label_c s1 m s2 x2 e g s3 x3 Hok Hroom
    (proj1 sample_args) (proj2 sample_args) Hb Hr Hc).
Defined.

Lemma store_snapshots_stable_witness : exists s x g s3 x3,
  sample_mount [] [] = (ST_OK, s, x) /\ sample_commit [] [] = (ST_OK, g, s3, x3) /\
  (st_read s3 x3 1 name_a 64).1 = (st_read s x 1 name_a 64).1.
Proof.
  assert (He : (sample_commit [] []).1.1 = (ST_OK, 2)) by by vm_compute.
  assert (Hret3 : st_is_retained (sample_commit [] []).1.2 1 = true) by by vm_compute.
  destruct (sample_session [] [])
    as (s & x & s1 & m & s2 & x2 & e & g & s3 & x3 & Hm & Hok & Hret & Hrd & Hroom & _ & Hb & Hr & Hc & Hsc).
  rewrite Hsc in He, Hret3. cbn [fst snd] in He, Hret3. injection He as -> ->.
  exists s, x, 2, s3, x3. split; [exact Hm|]. split; [exact Hsc|].
  refine (store_snapshots_stable s x sample_ops label_c s1 m s2 x2 2 s3 x3 1 name_a 64 Hok Hret Hrd Hroom
    (proj1 sample_args) (proj2 sample_args) Hb Hr Hc Hret3 _). lia.
Defined.

Lemma store_format_mount_witness : exists s y',
  st_mount (restarted sample_disk [] []) 40 9 0 = (ST_OK, s, y') /\ rt_gen (s_cur s) = 1.
Proof.
  assert (Hf : (st_format blank 32 7 2 1).1 = ST_OK) by by vm_compute.
  assert (H7 : fits 64 7 /\ fits 64 1 /\ fits 64 9) by (unfold fits; lia).
  destruct H7 as (H7 & H1 & H9). assert (Hle : 32 <= 40) by lia. assert (Hc : 32 <= bd_capacity wb_dev) by by vm_compute.
  destruct (store_format_mount (StDevLaws0 := wb_laws) blank 32 7 2 1 _ (wb_view sample_disk) (restarted sample_disk [] []) 40 9 H7 H1 H9 (pair_eq _ _ Hf)
    (wb_view_durable sample_disk) (restarted_up sample_disk [] []) Hc Hle) as (s & y' & Hm & _ & _ & Hg & _).
  exists s, y'. split; [exact Hm|exact Hg].
Defined.

Lemma store_read_current_witness : exists g s3 x3 o,
  sample_commit [] [] = (ST_OK, g, s3, x3) /\
  (o_len o <= 64 -> (st_read s3 x3 0 name_a 64).1 = (ST_OK, [1; 2; 3], Some o)).
Proof.
  assert (He : (sample_commit [] []).1.1 = (ST_OK, 2)) by by vm_compute.
  assert (Hm : (run_sample (sample_mount [] [])).1.1 !! cstr name_a = Some [1; 2; 3]) by by vm_compute.
  destruct (sample_session [] [])
    as (s & x & s1 & m & s2 & x2 & e & g & s3 & x3 & Hs & Hok & _ & Hrd & Hroom & _ & Hb & Hr & Hc & Hsc).
  rewrite Hsc in He. injection He as -> ->.
  unfold run_sample in Hm. rewrite Hs in Hm. cbn [fst snd] in Hm. rewrite Hb in Hm. cbn [snd] in Hm.
  rewrite Hr in Hm. cbn [fst] in Hm.
  destruct (transaction_outcome s x sample_ops label_c s1 m s2 x2 ST_OK 2 s3 x3 Hok Hroom
    (proj1 sample_args) (proj2 sample_args) Hb Hr Hc) as [HK [Ho|[[Ho _]|[[Ho|[Ho|Ho]] _]]]];
    try discriminate Ho.
  destruct Ho as (_ & _ & Hok3 & _ & _ & _ & _ & Hkv & _).
  pose proof (store_read_current s3 x3 name_a 64 Hok3 (keeps_readable _ _ _ HK Hrd)) as H.
  rewrite Hkv, Hm in H. destruct H as (o & _ & H & _).
  exists 2, s3, x3, o. split; [exact Hsc|exact H].
Defined.
