(* ===== verification/ElfPlan.v ===== *)
(** * ELF load plans

    [lib/elf_plan.c] and [lib/include/nanox/elf_plan.h]: the checks on an ELF64
    executable and the list of segments to load, used by the UEFI loader for the
    kernel image and by the kernel for user programs.  The image is a byte list;
    a read outside of it makes the whole function [None]. *)
From S2P Require Import Prelude Bytes Abi.

(** ** Constants and data *)

Definition EHDR_SIZE : Z := 64.
Definition PHDR_SIZE : Z := 56.
Definition PT_LOAD : Z := 1.
Definition PF_X : Z := 1.
Definition PF_W : Z := 2.
Definition PAGE_MASK : Z := 0xFFF.

Definition NX_ELF_MAX_SEGMENTS : Z := 16.
Definition NX_KERNEL_LOAD_MIN : Z := 0x00100000.
Definition NX_KERNEL_LOAD_MAX : Z := 0x40000000.
Definition NX_KERNEL_SPAN_MAX : Z := 64 <<. 20.
Definition NX_USER_SPAN_MAX : Z := 64 <<. 20.

Record nx_elf_segment := mk_segment {
  sg_file_offset : Z;
  sg_file_size : Z;
  sg_addr : Z;
  sg_mem_size : Z;
  sg_flags : Z;
}.

#[export] Instance nx_elf_segment_inhabited : Inhabited nx_elf_segment := populate (mk_segment 0 0 0 0 0).

(** [segments] holds the [segment_count] entries written so far. *)
Record nx_elf_plan_t := mk_plan {
  pl_entry : Z;
  pl_span_base : Z;
  pl_span_end : Z;
  pl_segments : list nx_elf_segment;
}.

Record nx_elf_rules := mk_rules {
  ru_min_addr : Z;
  ru_max_addr : Z;
  ru_span_max : Z;
  ru_require_identity : bool;
  ru_forbid_wx : bool;
}.

Inductive nx_elf_error : Set :=
| NX_ELF_OK | NX_ELF_E_TRUNCATED | NX_ELF_E_IDENT | NX_ELF_E_TYPE | NX_ELF_E_PHDR
| NX_ELF_E_SEG_BOUNDS | NX_ELF_E_SEG_ADDR | NX_ELF_E_SEG_ORDER | NX_ELF_E_NO_LOAD
| NX_ELF_E_ENTRY | NX_ELF_E_SPAN | NX_ELF_E_WX.

(** ** Operations *)

Definition rd16 (img : list Z) (p : Z) : option Z :=
  a ← rd8 img p; b ← rd8 img (p + 1); Some (u16 (a |. (b <<. 8))).

Definition rd32 (img : list Z) (p : Z) : option Z :=
  a ← rd16 img p; b ← rd16 img (p + 2); Some (a |. u32 (b <<. 16)).

Definition rd64 (img : list Z) (p : Z) : option Z :=
  a ← rd32 img p; b ← rd32 img (p + 4); Some (a |. u64 (b <<. 32)).

(** Reading a program header: type, physical address and the segment it describes. *)
Definition read_phdr (img : list Z) (ph : Z) : option (Z * Z * nx_elf_segment) :=
  type ← rd32 img ph;
  flags ← rd32 img (ph + 4);
  off ← rd64 img (ph + 8);
  vaddr ← rd64 img (ph + 16);
  paddr ← rd64 img (ph + 24);
  filesz ← rd64 img (ph + 32);
  memsz ← rd64 img (ph + 40);
  Some (type, paddr, mk_segment off filesz vaddr memsz flags).

(** The checks on one loadable segment, in the order of the source. *)
Definition check_segment (size : Z) (rules : nx_elf_rules) (paddr : Z) (s : nx_elf_segment)
    (segs : list nx_elf_segment) (prev_end : Z) : nx_elf_error :=
  let vaddr := sg_addr s in
  let memsz := sg_mem_size s in
  if (sg_file_size s >? memsz) || (sg_file_offset s >? size)
     || (sg_file_size s >? size - sg_file_offset s) then NX_ELF_E_SEG_BOUNDS
  else if (ru_require_identity rules && negb (vaddr =? paddr)) || (vaddr >? UINT64_MAX - memsz)
     || (vaddr <? ru_min_addr rules) || (u64 (vaddr + memsz) >? ru_max_addr rules) then NX_ELF_E_SEG_ADDR
  else if ru_forbid_wx rules && negb (sg_flags s &. PF_W =? 0) && negb (sg_flags s &. PF_X =? 0)
  then NX_ELF_E_WX
  else if negb (Z.of_nat (length segs) =? 0) && (vaddr <? prev_end) then NX_ELF_E_SEG_ORDER
  else if Z.of_nat (length segs) =? NX_ELF_MAX_SEGMENTS then NX_ELF_E_NO_LOAD
  else NX_ELF_OK.

(** The loop over the program headers with indices [hs]: the status, the segments
    recorded and the end of the last one. *)
Fixpoint load_loop (img : list Z) (size : Z) (rules : nx_elf_rules) (phoff : Z) (hs : list Z)
    (segs : list nx_elf_segment) (prev_end : Z) : option (nx_elf_error * list nx_elf_segment * Z) :=
  match hs with
  | [] => Some (NX_ELF_OK, segs, prev_end)
  | i :: hs' =>
      let ph := phoff + i * PHDR_SIZE in
      type ← rd32 img ph;
      if negb (type =? PT_LOAD) then load_loop img size rules phoff hs' segs prev_end
      else
        h ← read_phdr img ph;
        let '(_, paddr, s) := h in
        if sg_mem_size s =? 0 then load_loop img size rules phoff hs' segs prev_end
        else
          match check_segment size rules paddr s segs prev_end with
          | NX_ELF_OK =>
              load_loop img size rules phoff hs' (segs ++ [s]) (u64 (sg_addr s + sg_mem_size s))
          | e => Some (e, segs, prev_end)
          end
  end.

(** The entry point lies in an executable segment. *)
Definition in_exec (entry : Z) (s : nx_elf_segment) : bool :=
  negb (sg_flags s &. PF_X =? 0) && (entry >=? sg_addr s) && (entry - sg_addr s <? sg_mem_size s).

(** [img[0..6]] *)
Definition ident_ok (img : list Z) : option bool :=
  b0 ← rd8 img 0; b1 ← rd8 img 1; b2 ← rd8 img 2; b3 ← rd8 img 3;
  b4 ← rd8 img 4; b5 ← rd8 img 5; b6 ← rd8 img 6;
  Some ((b0 =? 0x7F) && (b1 =? 69) && (b2 =? 76) && (b3 =? 70) && (b4 =? 2) && (b5 =? 1) && (b6 =? 1)).

Definition type_ok (img : list Z) : option bool :=
  t ← rd16 img 16; m ← rd16 img 18; v ← rd32 img 20;
  Some ((t =? 2) && (m =? 62) && (v =? 1)).

(** Entry point, program header offset and count, with the checks on them. *)
Definition read_ehdr (img : list Z) (size : Z) : option (bool * Z * Z * Z) :=
  entry ← rd64 img 24;
  phoff ← rd64 img 32;
  ehsize ← rd16 img 52;
  phentsize ← rd16 img 54;
  phnum ← rd16 img 56;
  let bad := negb (ehsize =? EHDR_SIZE) || negb (phentsize =? PHDR_SIZE) || (phnum =? 0)
             || (phnum >? 64) || (phoff >? size) || (phnum * PHDR_SIZE >? size - phoff) in
  Some (negb bad, entry, phoff, phnum).

Definition nx_elf_plan_rules (img : list Z) (rules : nx_elf_rules) (plan : nx_elf_plan_t)
    : option (nx_elf_error * nx_elf_plan_t) :=
  let size := Z.of_nat (length img) in
  let with_segs segs := mk_plan (pl_entry plan) (pl_span_base plan) (pl_span_end plan) segs in
  let fail e := Some (e, with_segs []) in
  if size <? EHDR_SIZE then fail NX_ELF_E_TRUNCATED
  else
    id ← ident_ok img;
    if negb id then fail NX_ELF_E_IDENT
    else
      ty ← type_ok img;
      if negb ty then fail NX_ELF_E_TYPE
      else
        eh ← read_ehdr img size;
        let '(ok, entry, phoff, phnum) := eh in
        if negb ok then fail NX_ELF_E_PHDR
        else
          r ← load_loop img size rules phoff (seqZ 0 phnum) [] 0;
          let '(e, segs, prev_end) := r in
          Some
            match e with
            | NX_ELF_OK =>
                if Z.of_nat (length segs) =? 0 then (NX_ELF_E_NO_LOAD, with_segs segs)
                else if negb (existsb (in_exec entry) segs) then (NX_ELF_E_ENTRY, with_segs segs)
                else
                  let span_base := sg_addr segs.[0] &. u64 (~. PAGE_MASK) in
                  let span_end := u64 (prev_end + PAGE_MASK) &. u64 (~. PAGE_MASK) in
                  let plan := mk_plan entry span_base span_end segs in
                  if u64 (span_end - span_base) >? ru_span_max rules then (NX_ELF_E_SPAN, plan)
                  else (NX_ELF_OK, plan)
            | e => (e, with_segs segs)
            end.

Definition kernel_rules : nx_elf_rules :=
  mk_rules NX_KERNEL_LOAD_MIN NX_KERNEL_LOAD_MAX NX_KERNEL_SPAN_MAX true false.
Definition user_rules : nx_elf_rules :=
  mk_rules NX_USER_BASE (NX_USER_STACK_TOP - (NX_USER_STACK_PAGES + 1) * 0x1000) NX_USER_SPAN_MAX false true.

Definition nx_elf_plan (img : list Z) (plan : nx_elf_plan_t) : option (nx_elf_error * nx_elf_plan_t) :=
  nx_elf_plan_rules img kernel_rules plan.
Definition nx_elf_plan_user (img : list Z) (plan : nx_elf_plan_t) : option (nx_elf_error * nx_elf_plan_t) :=
  nx_elf_plan_rules img user_rules plan.

(** ** Specification *)

(** The range checks on one segment. *)
Definition segment_ok (size : Z) (rules : nx_elf_rules) (paddr : Z) (s : nx_elf_segment) : Prop :=
  sg_file_size s <= sg_mem_size s /\ sg_file_offset s + sg_file_size s <= size /\
  (ru_require_identity rules = true -> sg_addr s = paddr) /\
  ru_min_addr rules <= sg_addr s /\ sg_addr s + sg_mem_size s <= ru_max_addr rules /\
  (ru_forbid_wx rules = true -> ~ (Z.testbit (sg_flags s) 1 = true /\ Z.testbit (sg_flags s) 0 = true)).

(** The loadable segments among the headers [hs], each with its physical address. *)
Fixpoint load_headers (img : list Z) (phoff : Z) (hs : list Z) : option (list (Z * nx_elf_segment)) :=
  match hs with
  | [] => Some []
  | i :: hs' =>
      h ← read_phdr img (phoff + i * PHDR_SIZE);
      let '(type, paddr, s) := h in
      rest ← load_headers img phoff hs';
      Some (if (type =? PT_LOAD) && negb (sg_mem_size s =? 0) then (paddr, s) :: rest else rest)
  end.

(** Ascending and disjoint. *)
Definition segments_sorted (segs : list nx_elf_segment) : Prop :=
  forall i j s t, (i < j)%nat -> segs !! i = Some s -> segs !! j = Some t ->
    sg_addr s + sg_mem_size s <= sg_addr t.

(** The byte ranges of headers and addresses a well-formed plan describes. *)
Definition plan_ok (rules : nx_elf_rules) (entry : Z) (segs : list nx_elf_segment) (p : nx_elf_plan_t) : Prop :=
  pl_entry p = entry /\ pl_segments p = segs /\
  (exists s, s ∈ segs /\ Z.testbit (sg_flags s) 0 = true /\ sg_addr s <= entry < sg_addr s + sg_mem_size s) /\
  pl_span_base p = sg_addr segs.[0] / 4096 * 4096 /\
  (exists s, last segs = Some s /\ pl_span_end p = (sg_addr s + sg_mem_size s + 4095) / 4096 * 4096) /\
  pl_span_end p - pl_span_base p <= ru_span_max rules.

(** Field values in range of their types. *)
Definition segment_wf (s : nx_elf_segment) : Prop :=
  fits 64 (sg_file_offset s) /\ fits 64 (sg_file_size s) /\ fits 64 (sg_addr s) /\
  fits 64 (sg_mem_size s) /\ fits 32 (sg_flags s).

(** What callers guarantee of the rules ([max_addr] at most 2^64 - 4096). *)
Definition rules_ok (rules : nx_elf_rules) : Prop :=
  0 <= ru_min_addr rules /\ ru_max_addr rules <= 2 ^ 64 - 4096 /\ fits 64 (ru_span_max rules).

(** Acceptance, declaratively. *)
Definition elf_valid (img : list Z) (rules : nx_elf_rules) (p : nx_elf_plan_t) : Prop :=
  let size := Z.of_nat (length img) in
  EHDR_SIZE <= size /\ ident_ok img = Some true /\ type_ok img = Some true /\
  exists entry phoff phnum l,
    read_ehdr img size = Some (true, entry, phoff, phnum) /\
    load_headers img phoff (seqZ 0 phnum) = Some l /\
    (1 <= length l <= 16)%nat /\ Forall (fun h => segment_ok size rules h.1 h.2) l /\
    segments_sorted l.*2 /\ plan_ok rules entry l.*2 p.

(** The same conditions in the order the loop checks them, with [n] segments
    recorded so far, the last one ending at [prev]. *)
Fixpoint chain (size : Z) (rules : nx_elf_rules) (n prev : Z) (l : list (Z * nx_elf_segment)) : Prop :=
  match l with
  | [] => True
  | h :: l' =>
      segment_ok size rules h.1 h.2 /\ (n <> 0 -> prev <= sg_addr h.2) /\ n <> 16 /\
      chain size rules (n + 1) (sg_addr h.2 + sg_mem_size h.2) l'
  end.

Definition last_end (prev : Z) (segs : list nx_elf_segment) : Z :=
  match last segs with Some s => sg_addr s + sg_mem_size s | None => prev end.

(** ** Lemmas: reads *)

Lemma lor_shift_fits n m a b :
  0 <= n -> 0 <= m -> fits n a -> fits m b -> fits (n + m) (a |. (b <<. n)).
Proof.
  intros Hn Hm Ha Hb. apply fits_lor; [lia| |].
  - destruct Ha. split; [done|]. rewrite Z.pow_add_r by lia. nia.
  - rewrite Z.shiftl_mul_pow2 by lia. destruct Hb. split; [nia|]. rewrite Z.pow_add_r by lia. nia.
Qed.

Section reads.
Variable img : list Z.
Hypothesis Himg : Forall byte_ok img.

Lemma rd16_ok p : 0 <= p -> p + 2 <= Z.of_nat (length img) ->
  exists v, rd16 img p = Some v /\ fits 16 v.
Proof using Himg.
  intros H1 H2. unfold rd16. rewrite !rd8_in by lia. simpl. eexists. split; [done|].
  by apply wrap_fits.
Qed.

Lemma rd32_ok p : 0 <= p -> p + 4 <= Z.of_nat (length img) ->
  exists v, rd32 img p = Some v /\ fits 32 v.
Proof using Himg.
  intros H1 H2. unfold rd32.
  destruct (rd16_ok p) as (a & -> & Ha); [lia..|]. destruct (rd16_ok (p + 2)) as (b & -> & Hb); [lia..|].
  simpl. eexists. split; [done|]. apply fits_lor; [lia| |by apply wrap_fits]. unfold fits in *. lia.
Qed.

Lemma rd64_ok p : 0 <= p -> p + 8 <= Z.of_nat (length img) ->
  exists v, rd64 img p = Some v /\ fits 64 v.
Proof using Himg.
  intros H1 H2. unfold rd64.
  destruct (rd32_ok p) as (a & -> & Ha); [lia..|]. destruct (rd32_ok (p + 4)) as (b & -> & Hb); [lia..|].
  simpl. eexists. split; [done|]. apply fits_lor; [lia| |by apply wrap_fits]. unfold fits in *. lia.
Qed.

Lemma read_phdr_ok p : 0 <= p -> p + 56 <= Z.of_nat (length img) ->
  exists type paddr s, rd32 img p = Some type /\ read_phdr img p = Some (type, paddr, s) /\ segment_wf s.
Proof using Himg.
  intros H1 H2. unfold read_phdr.
  destruct (rd32_ok p) as (type & -> & _); [lia..|].
  destruct (rd32_ok (p + 4)) as (flags & -> & ?); [lia..|].
  destruct (rd64_ok (p + 8)) as (off & -> & ?); [lia..|].
  destruct (rd64_ok (p + 16)) as (va & -> & ?); [lia..|].
  destruct (rd64_ok (p + 24)) as (pa & -> & ?); [lia..|].
  destruct (rd64_ok (p + 32)) as (fsz & -> & ?); [lia..|].
  destruct (rd64_ok (p + 40)) as (msz & -> & ?); [lia..|].
  simpl. do 3 eexists. split; [done|]. split; [done|]. done.
Qed.

Lemma load_headers_ok phoff hs :
  0 <= phoff -> (forall i, i ∈ hs -> 0 <= i /\ phoff + i * PHDR_SIZE + PHDR_SIZE <= Z.of_nat (length img)) ->
  exists l, load_headers img phoff hs = Some l /\
    Forall (fun h => segment_wf h.2 /\ 0 < sg_mem_size h.2) l.
Proof using Himg.
  intros Hp. unfold PHDR_SIZE. induction hs as [|i hs IH]; intros Hh; [by exists []|].
  destruct IH as (l & El & Hl); [intros j Hj; apply Hh; set_solver|].
  destruct (Hh i) as [H1 H2]; [set_solver|].
  destruct (read_phdr_ok (phoff + i * 56)) as (type & pa & s & _ & E & Hs); [lia..|].
  cbn [load_headers]. unfold PHDR_SIZE. rewrite E. simpl. rewrite El. simpl.
  eexists. split; [done|]. destruct ((type =? PT_LOAD) && negb (sg_mem_size s =? 0)) eqn:Eb; [|done].
  breflect. constructor; [|done]. split; [done|]. simpl.
  destruct Hs as (_ & _ & _ & [? _] & _). lia.
Qed.
End reads.

(** ** Lemmas: segments *)

Lemma check_segment_spec size rules paddr s segs prev_end :
  rules_ok rules -> segment_wf s ->
  check_segment size rules paddr s segs prev_end = NX_ELF_OK <->
  segment_ok size rules paddr s /\ (Z.of_nat (length segs) <> 0 -> prev_end <= sg_addr s) /\
  Z.of_nat (length segs) <> 16.
Proof.
  intros (Hmin & Hmax & _) (Ho & Hf & Ha & Hm & _). unfold check_segment, segment_ok. cbv zeta.
  change PF_X with (2 ^ 0). change PF_W with (2 ^ 1). rewrite !flag_testbit by lia.
  unfold fits, UINT64_MAX, NX_ELF_MAX_SEGMENTS in *.
  destruct (_ || _ || (sg_file_size s >? _)) eqn:E1.
  { split; [done|]. intros [(? & ? & _) _]. rewrite !Z.gtb_ltb in E1.
    apply orb_true_iff in E1 as [E1|E1]; [apply orb_true_iff in E1 as [E1|E1]|];
      apply Z.ltb_lt in E1; lia. }
  breflect. destruct (_ || _ || _ || (_ >? _)) eqn:E2.
  { split; [done|]. intros [(_ & _ & Hid & ? & ? & _) _].
    rewrite wrap_small in E2 by (unfold fits; lia). rewrite !Z.gtb_ltb in E2.
    repeat (apply orb_true_iff in E2 as [E2|E2]); [|apply Z.ltb_lt in E2; lia..].
    apply andb_true_iff in E2 as [E2 E3]. apply negb_true_iff, Z.eqb_neq in E3. by destruct E3; apply Hid. }
  breflect. rewrite wrap_small in * by (unfold fits; lia).
  assert (Hid : ru_require_identity rules = true -> sg_addr s = paddr).
  { intros Ht. rewrite Ht in *. simpl in *. by breflect. }
  destruct (_ && _ && _) eqn:E3.
  { breflect. split; [done|]. intros [(_ & _ & _ & _ & _ & Hwx) _]. exfalso. by apply Hwx. }
  destruct (negb (Z.of_nat _ =? 0) && _) eqn:E4.
  { breflect. split; [done|]. intros (_ & Hp & _). specialize (Hp ltac:(lia)). lia. }
  destruct (Z.eqb_spec (Z.of_nat (length segs)) 16) as [E5|E5]; [split; [done|tauto]|].
  split; [intros _|done]. split_and!; try done; try lia.
  intros Ht [Hw Hx]. by rewrite Ht, Hw, Hx in E3.
Qed.

Lemma read_phdr_type img p type pa s : read_phdr img p = Some (type, pa, s) -> rd32 img p = Some type.
Proof.
  unfold read_phdr. destruct (rd32 img p) as [t|]; [simpl|done]. intros H.
  repeat (apply bind_Some in H as (? & _ & H)). by injection H as -> _ _.
Qed.

Lemma load_loop_spec img size rules phoff hs l segs prev :
  rules_ok rules -> load_headers img phoff hs = Some l ->
  Forall (fun h => segment_wf h.2 /\ 0 < sg_mem_size h.2) l ->
  exists r, load_loop img size rules phoff hs segs prev = Some r /\
    forall segs' pe, r = (NX_ELF_OK, segs', pe) <->
      chain size rules (Z.of_nat (length segs)) prev l /\ segs' = segs ++ l.*2 /\
      pe = last_end prev l.*2.
Proof.
  intros Hr. revert l segs prev. induction hs as [|i hs IH]; intros l segs prev El Hl.
  { injection El as <-. eexists. split; [done|]. intros segs' pe. unfold last_end. simpl.
    rewrite app_nil_r. naive_solver. }
  cbn [load_headers load_loop] in *. cbv zeta.
  destruct (read_phdr img (phoff + i * PHDR_SIZE)) as [[[type pa] s]|] eqn:E; [simpl in El|done].
  rewrite (read_phdr_type _ _ _ _ _ E). simpl.
  destruct (load_headers img phoff hs) as [l'|] eqn:E'; [simpl in El|done]. injection El as <-.
  destruct (Z.eqb_spec type PT_LOAD) as [Ht|Ht]; simpl in *; [|by apply IH].
  destruct (Z.eqb_spec (sg_mem_size s) 0) as [Hm|Hm]; simpl in *; [by apply IH|].
  apply Forall_cons in Hl as [[Hs Hp] Hl]. simpl in Hs, Hp.
  pose proof (check_segment_spec size rules pa s segs prev Hr Hs) as Hc.
  destruct (check_segment size rules pa s segs prev) eqn:Ec.
  2-12: eexists; split; [done|]; intros segs' pe; split; [done|];
    intros ((H1 & H2 & H3 & _) & _); discriminate (proj2 Hc (conj H1 (conj H2 H3))).
  destruct (proj1 Hc eq_refl) as (Hok & Hord & Hcnt).
  assert (Hw : u64 (sg_addr s + sg_mem_size s) = sg_addr s + sg_mem_size s).
  { apply wrap_small. destruct Hok as (_ & _ & _ & ? & ? & _), Hr as (? & ? & _), Hs as (_ & _ & [? _] & [? _] & _).
    unfold fits. lia. }
  rewrite Hw. destruct (IH l' (segs ++ [s]) (sg_addr s + sg_mem_size s) eq_refl Hl) as (r & -> & IHr).
  exists r. split; [done|]. intros segs' pe. rewrite IHr. rewrite length_app, Nat2Z.inj_add. simpl.
  assert (Hle : last_end (sg_addr s + sg_mem_size s) l'.*2 = last_end prev (s :: l'.*2)).
  { unfold last_end. rewrite last_cons. by destruct (last l'.*2). }
  rewrite Hle, <- (assoc_L (++)). simpl. tauto.
Qed.

Lemma chain_spec size rules n prev l :
  Forall (fun h => 0 < sg_mem_size h.2) l -> 0 <= n <= 16 ->
  chain size rules n prev l <->
  Forall (fun h => segment_ok size rules h.1 h.2) l /\ segments_sorted l.*2 /\
  (n <> 0 -> forall s, s ∈ l.*2 -> prev <= sg_addr s) /\ n + Z.of_nat (length l) <= 16.
Proof.
  revert n prev. induction l as [|[pa s] l IH]; intros n prev Hp Hn; cbn [chain fst snd].
  { split; [intros _|done]. split; [done|]. split; [intros i j s t _ H; by destruct i|].
    split; [set_solver|simpl; lia]. }
  apply Forall_cons in Hp as [Hs Hp]. cbn [snd] in Hs. rewrite Forall_cons. cbn [fst snd length fmap list_fmap].
  rewrite Nat2Z.inj_succ. split.
  - intros (H1 & H2 & H3 & H4). apply IH in H4 as (Ha & Hb & Hc & Hd); [|done|lia].
    specialize (Hc ltac:(lia)). split_and!; [done|done| | |lia].
    + intros [|i] [|j] s1 s2 Hij E1 E2; [lia| |lia|]; simpl in E1, E2.
      * injection E1 as <-. apply Hc. by eapply list_elem_of_lookup_2.
      * apply (Hb i j); [lia|done..].
    + intros Hn0 t Ht. apply elem_of_cons in Ht as [->|Ht]; [by apply H2|]. specialize (H2 Hn0).
      specialize (Hc t Ht). lia.
  - intros ([H1 H2] & H3 & H4 & H5). split; [done|]. split; [intros H; apply H4; [done|set_solver]|].
    split; [lia|]. apply IH; [done|lia|]. split_and!; [done| | |lia].
    + intros i j s1 s2 Hij E1 E2. apply (H3 (S i) (S j)); [lia|done..].
    + intros _ t Ht. apply list_elem_of_lookup in Ht as [i Hi]. apply (H3 0%nat (S i)); [lia|done..].
Qed.

(** ** Lemmas: the whole plan *)

Lemma read_ehdr_ok img :
  Forall byte_ok img -> EHDR_SIZE <= Z.of_nat (length img) ->
  is_Some (ident_ok img) /\ is_Some (type_ok img) /\
  exists ok entry phoff phnum, read_ehdr img (Z.of_nat (length img)) = Some (ok, entry, phoff, phnum) /\
    fits 64 entry /\ 0 <= phoff /\
    (ok = true -> 1 <= phnum /\ phoff + phnum * PHDR_SIZE <= Z.of_nat (length img)).
Proof.
  unfold EHDR_SIZE. intros Hb Hl. split_and!.
  - unfold ident_ok. by rewrite !rd8_in by lia.
  - unfold type_ok. destruct (rd16_ok img Hb 16) as (? & -> & _); [lia..|].
    destruct (rd16_ok img Hb 18) as (? & -> & _); [lia..|].
    by destruct (rd32_ok img Hb 20) as (? & -> & _); [lia..|].
  - unfold read_ehdr. destruct (rd64_ok img Hb 24) as (entry & -> & He); [lia..|].
    destruct (rd64_ok img Hb 32) as (phoff & -> & Hp); [lia..|].
    destruct (rd16_ok img Hb 52) as (eh & -> & _); [lia..|].
    destruct (rd16_ok img Hb 54) as (pe & -> & _); [lia..|].
    destruct (rd16_ok img Hb 56) as (phnum & -> & Hn); [lia..|].
    simpl. do 4 eexists. split; [done|]. unfold fits in *. split; [done|]. split; [lia|].
    intros Hok. apply negb_true_iff in Hok. breflect. lia.
Qed.

Lemma headers_in_range size phoff phnum i :
  phoff + phnum * PHDR_SIZE <= size -> i ∈ seqZ 0 phnum -> 0 <= i /\ phoff + i * PHDR_SIZE + PHDR_SIZE <= size.
Proof. unfold PHDR_SIZE. intros Hs Hi. apply elem_of_seqZ in Hi. lia. Qed.

Lemma segments_loaded img phoff phnum rules :
  Forall byte_ok img -> 0 <= phoff -> phoff + phnum * PHDR_SIZE <= Z.of_nat (length img) -> rules_ok rules ->
  exists l r, load_headers img phoff (seqZ 0 phnum) = Some l /\
    Forall (fun h => segment_wf h.2 /\ 0 < sg_mem_size h.2) l /\
    load_loop img (Z.of_nat (length img)) rules phoff (seqZ 0 phnum) [] 0 = Some r /\
    forall segs pe, r = (NX_ELF_OK, segs, pe) <->
      Forall (fun h => segment_ok (Z.of_nat (length img)) rules h.1 h.2) l /\ segments_sorted l.*2 /\
      (length l <= 16)%nat /\ segs = l.*2 /\ pe = last_end 0 l.*2.
Proof.
  intros Hb Hp Hs Hr.
  destruct (load_headers_ok img Hb phoff (seqZ 0 phnum) Hp) as (l & El & Hl).
  { intros i. by apply headers_in_range. }
  destruct (load_loop_spec img (Z.of_nat (length img)) rules phoff _ l [] 0 Hr El Hl) as (r & Er & Hspec).
  exists l, r. split_and!; try done. intros segs pe. rewrite Hspec.
  rewrite chain_spec; [|by eapply Forall_impl; [exact Hl|]; intros h [_ ?]|simpl; lia].
  simpl. rewrite Z.add_0_l. naive_solver lia.
Qed.

(** The span computed from the first and the last segment. *)
Lemma span_ok rules entry segs plan size l :
  rules_ok rules -> segs = l.*2 -> (1 <= length l)%nat ->
  Forall (fun h => segment_wf h.2 /\ 0 < sg_mem_size h.2) l ->
  Forall (fun h => segment_ok size rules h.1 h.2) l -> segments_sorted segs ->
  let span_base := sg_addr segs.[0] &. u64 (~. PAGE_MASK) in
  let span_end := u64 (last_end 0 segs + PAGE_MASK) &. u64 (~. PAGE_MASK) in
  (existsb (in_exec entry) segs = true /\ (u64 (span_end - span_base) >? ru_span_max rules) = false /\
   plan = mk_plan entry span_base span_end segs) <-> plan_ok rules entry segs plan.
Proof.
  intros (Hmin & Hmax & _) Hsegs Hne Hw Hok Hsort. cbv zeta.
  destruct segs as [|s0 segs']; [destruct l; simpl in *; [lia|done]|].
  destruct (last (s0 :: segs')) as [sl|] eqn:El; [|by apply last_None in El].
  assert (Hin : forall s, s ∈ s0 :: segs' -> segment_wf s /\ ru_min_addr rules <= sg_addr s /\
            sg_addr s + sg_mem_size s <= ru_max_addr rules /\ 0 < sg_mem_size s).
  { intros s Hs. rewrite Hsegs in Hs. apply list_elem_of_fmap in Hs as (h & -> & Hh).
    rewrite Forall_forall in Hw, Hok. destruct (Hw h Hh) as [? ?], (Hok h Hh) as (_ & _ & _ & ? & ? & _). done. }
  destruct (Hin s0) as (Hs0 & H1 & H2 & H3); [set_solver|].
  destruct (Hin sl) as (Hsl & H4 & H5 & H6); [by apply last_Some_elem_of|].
  assert (Hle : sg_addr s0 <= sg_addr sl).
  { rewrite last_lookup in El. destruct (pred (length (s0 :: segs'))) as [|k] eqn:Ek.
    - simpl in El. injection El as <-. lia.
    - specialize (Hsort 0%nat (S k) s0 sl ltac:(lia) eq_refl El). lia. }
  unfold last_end. rewrite El. change PAGE_MASK with (Z.ones 12).
  change ((s0 :: segs').[0]) with s0.
  assert (Hf0 : fits 64 (sg_addr s0)) by apply Hs0.
  assert (Hfl : fits 64 (sg_addr sl + sg_mem_size sl + Z.ones 12))
    by (change (Z.ones 12) with 4095; unfold fits; lia).
  rewrite (wrap_small 64 _ Hfl), !mask_down by (done || lia). change (2 ^ 12) with 4096. change (Z.ones 12) with 4095.
  rewrite wrap_small by (unfold fits; dlia). rewrite Z.gtb_ltb, Z.ltb_ge.
  assert (Hex : existsb (in_exec entry) (s0 :: segs') = true <->
    exists s, s ∈ s0 :: segs' /\ Z.testbit (sg_flags s) 0 = true /\ sg_addr s <= entry < sg_addr s + sg_mem_size s).
  { rewrite existsb_exists. setoid_rewrite <- list_elem_of_In. unfold in_exec. change PF_X with (2 ^ 0).
    split; intros (s & Hs & Hx); exists s; (split; [done|]).
    - rewrite flag_testbit in Hx by lia. breflect. split; [done|lia].
    - rewrite flag_testbit by lia. destruct Hx as [-> Hx]. simpl. rewrite Z.geb_leb.
      rewrite (proj2 (Z.leb_le _ _)), (proj2 (Z.ltb_lt _ _)) by lia. done. }
  rewrite Hex. unfold plan_ok. change ((s0 :: segs').[0]) with s0. rewrite El. split.
  - intros (He & Hs & ->). simpl. split_and!; try done. by exists sl.
  - intros (He & Hsg & Hent & Hb & (s & [= <-] & He2) & Hsp). split; [done|].
    split; [by rewrite <- Hb, <- He2|]. destruct plan. simpl in *. by subst.
Qed.

Lemma elf_plan_cases img rules p0 p :
  Forall byte_ok img -> rules_ok rules ->
  is_Some (nx_elf_plan_rules img rules p0) /\
  (nx_elf_plan_rules img rules p0 = Some (NX_ELF_OK, p) <-> elf_valid img rules p).
Proof.
  intros Hb Hr. unfold nx_elf_plan_rules, elf_valid. cbv zeta.
  destruct (Z.ltb_spec (Z.of_nat (length img)) EHDR_SIZE) as [Hlt|Hge]; [split; [done|]; split; [done|lia]|].
  destruct (read_ehdr_ok img Hb Hge) as ([id ->] & [ty ->] & ok & entry & phoff & phnum & Eh & He & Hp & Hok).
  simpl. destruct id; simpl; [|split; [done|]; naive_solver].
  destruct ty; simpl; [|split; [done|]; naive_solver].
  rewrite Eh. simpl. destruct ok; simpl; [|split; [done|]; naive_solver].
  destruct (Hok eq_refl) as [Hn Hsz].
  destruct (segments_loaded img phoff phnum rules Hb Hp Hsz Hr) as (l & r & El & Hl & -> & Hspec). simpl.
  destruct r as [[e segs] pe]. split; [done|]. split.
  - intros H. destruct e; try (by injection H).
    destruct (proj1 (Hspec segs pe) eq_refl) as (Ha & Hs & Hc & -> & ->).
    rewrite length_fmap in H. destruct (Z.eqb_spec (Z.of_nat (length l)) 0); [done|].
    destruct (existsb (in_exec entry) l.*2) eqn:Ex; simpl in H; [|done].
    destruct (_ >? _) eqn:Eg; [done|]. injection H as <-.
    split; [done|]. split; [done|]. split; [done|]. exists entry, phoff, phnum, l.
    split; [done|]. split; [done|]. split; [lia|]. split; [done|]. split; [done|].
    by apply (span_ok rules entry l.*2 _ (Z.of_nat (length img)) l); [done|done|lia|done..].
  - intros (_ & _ & _ & entry' & phoff' & phnum' & l' & [= <- <- <-] & El' & Hlen & Ha & Hs & Hpl).
    rewrite El in El'. injection El' as <-.
    assert (Hr' : (e, segs, pe) = (NX_ELF_OK, l.*2, last_end 0 l.*2)) by (apply Hspec; split_and!; (done || lia)).
    injection Hr' as -> -> ->. apply (span_ok rules entry l.*2 p (Z.of_nat (length img)) l) in Hpl;
      [|done|done|lia|done..].
    destruct Hpl as (Hex & Hsp & ->). rewrite length_fmap, (proj2 (Z.eqb_neq _ 0)) by lia.
    rewrite Hex. simpl. by rewrite Hsp.
Qed.

(** ** Theorems *)

(** C24: the ELF checker never reads outside the image, whatever bytes the image
    holds and whatever offsets and counts its headers claim. *)
Theorem elf_reads_in_bounds img rules p0 :
  Forall byte_ok img -> rules_ok rules -> is_Some (nx_elf_plan_rules img rules p0).
Proof. intros Hb Hr. by apply (elf_plan_cases img rules p0 p0). Qed.

(** C21: an image is accepted exactly when it is a valid x86-64 executable under
    the rules: the plan lists all its loadable segments in order, each inside the
    file and inside the address window, ascending and disjoint, none both
    writable and executable if that is forbidden; the entry point lies in an
    executable segment; the span is the page-rounded hull of the segments and
    within its limit. *)
Theorem elf_plan_accepts img rules p0 p :
  Forall byte_ok img -> rules_ok rules ->
  nx_elf_plan_rules img rules p0 = Some (NX_ELF_OK, p) <-> elf_valid img rules p.
Proof. intros Hb Hr. by apply elf_plan_cases. Qed.

(** ** Witnesses *)

(** A minimal user program: one executable segment of one byte. *)
Definition sample_elf : list Z :=
  [0x7F; 69; 76; 70; 2; 1; 1] ++ replicate 9 0 ++ le_enc 2 2 ++ le_enc 2 62 ++ le_enc 4 1 ++
  le_enc 8 NX_USER_BASE ++ le_enc 8 64 ++ le_enc 8 0 ++ le_enc 4 0 ++ le_enc 2 64 ++ le_enc 2 56 ++
  le_enc 2 1 ++ le_enc 6 0 ++
  le_enc 4 1 ++ le_enc 4 5 ++ le_enc 8 0 ++ le_enc 8 NX_USER_BASE ++ le_enc 8 0 ++ le_enc 8 1 ++
  le_enc 8 1 ++ le_enc 8 0.

Definition sample_plan : nx_elf_plan_t :=
  mk_plan NX_USER_BASE NX_USER_BASE (NX_USER_BASE + 4096) [mk_segment 0 1 NX_USER_BASE 1 5].

Lemma user_rules_ok : rules_ok user_rules.
Proof. unfold rules_ok, fits. vm_compute. intuition congruence. Qed.

Lemma sample_elf_bytes : Forall byte_ok sample_elf.
Proof.
  unfold sample_elf, byte_ok. repeat (apply Forall_app; split); try apply le_enc_bytes;
    repeat constructor; lia.
Qed.

Lemma elf_reads_in_bounds_witness : is_Some (nx_elf_plan_rules sample_elf user_rules sample_plan).
Proof. exact (elf_reads_in_bounds sample_elf user_rules sample_plan sample_elf_bytes user_rules_ok). Defined.

Lemma elf_plan_accepts_witness :
  nx_elf_plan_user sample_elf sample_plan = Some (NX_ELF_OK, sample_plan) /\
  elf_valid sample_elf user_rules sample_plan.
Proof.
  assert (H : nx_elf_plan_user sample_elf sample_plan = Some (NX_ELF_OK, sample_plan)) by by vm_compute.
  split; [exact H|].
  exact (proj1 (elf_plan_accepts sample_elf user_rules sample_plan sample_plan sample_elf_bytes user_rules_ok) H).
Defined.
