(* ===== verification/MmapConvert.v ===== *)
(** * UEFI memory map conversion

    [boot/uefi/mmap_convert.c]: the loader turns the firmware's memory
    descriptors into the region list of the boot information: types translated,
    sorted by address, overlaps rejected, neighbours of the same type merged. *)
From S2P Require Import Prelude Bytes BootAbi.

(** ** Data *)

Inductive nx_mmap_error : Set :=
| NX_MMAP_OK | NX_MMAP_E_DESC_SIZE | NX_MMAP_E_ALIGN | NX_MMAP_E_OVERFLOW | NX_MMAP_E_CAPACITY
| NX_MMAP_E_OVERLAP | NX_MMAP_E_EMPTY.

#[export] Instance nx_mmap_error_eq_dec : EqDecision nx_mmap_error.
Proof. solve_decision. Defined.

(** The fields of [EFI_MEMORY_DESCRIPTOR] the conversion uses. *)
Record efi_desc := mk_desc { d_type : Z; d_start : Z; d_pages : Z }.

Definition EFI_DESC_SIZE : Z := 40.
Definition NX_EFI_TYPE_KERNEL_IMAGE : Z := 0x80000001.
Definition NX_EFI_TYPE_KERNEL_STACK : Z := 0x80000002.
Definition NX_EFI_TYPE_BOOT_INFO : Z := 0x80000003.
Definition NX_EFI_TYPE_INITRD : Z := 0x80000004.

Definition read_desc (map : list Z) (off : Z) : option efi_desc :=
  t ← ld 4 map off; s ← ld 8 map (off + 8); n ← ld 8 map (off + 24); Some (mk_desc t s n).

(** ** Operations *)

Definition nx_mmap_translate_type (t : Z) : Z :=
  if t =? 7 (* EfiConventionalMemory *) then NX_MEM_USABLE
  else if (t =? 1) || (t =? 2) || (t =? 3) || (t =? 4) (* loader, boot services *)
  then NX_MEM_BOOT_RECLAIMABLE
  else if (t =? 5) || (t =? 6) (* runtime services *) then NX_MEM_FIRMWARE_RUNTIME
  else if t =? 9 (* EfiACPIReclaimMemory *) then NX_MEM_ACPI_RECLAIMABLE
  else if t =? 10 (* EfiACPIMemoryNVS *) then NX_MEM_ACPI_NVS
  else if (t =? 11) || (t =? 12) (* memory-mapped I/O *) then NX_MEM_MMIO
  else if t =? NX_EFI_TYPE_KERNEL_IMAGE then NX_MEM_KERNEL_IMAGE
  else if t =? NX_EFI_TYPE_KERNEL_STACK then NX_MEM_KERNEL_STACK
  else if t =? NX_EFI_TYPE_BOOT_INFO then NX_MEM_BOOT_INFO
  else if t =? NX_EFI_TYPE_INITRD then NX_MEM_INITRD
  else NX_MEM_RESERVED.

(** The region stored for a descriptor. *)
Definition region_of (d : efi_desc) : nx_mem_region :=
  mk_region (d_start d) (u64 (d_pages d * NX_PAGE_SIZE)) (nx_mmap_translate_type (d_type d)) 0.

(** The loop over the descriptors: [out] holds the [n] regions stored so far.
    [None] is a read outside the map or exhausted fuel. *)
Fixpoint collect (fuel : nat) (map : list Z) (map_size desc_size off cap : Z)
    (out : list nx_mem_region) : option (nx_mmap_error * list nx_mem_region) :=
  match fuel with
  | O => None
  | S fuel' =>
      if u64 (map_size - off) >=? desc_size then
        d ← read_desc map off;
        let next := u64 (off + desc_size) in
        if d_pages d =? 0 then collect fuel' map map_size desc_size next cap out
        else if negb (d_start d &. (NX_PAGE_SIZE - 1) =? 0) then Some (NX_MMAP_E_ALIGN, out)
        else if d_pages d >? (UINT64_MAX - d_start d) / NX_PAGE_SIZE then Some (NX_MMAP_E_OVERFLOW, out)
        else if Z.of_nat (length out) =? cap then Some (NX_MMAP_E_CAPACITY, out)
        else collect fuel' map map_size desc_size next cap (out ++ [region_of d])
      else Some (NX_MMAP_OK, out)
  end.

(** The inner loop of the insertion sort: move larger entries up from index [j]
    and store [r] in the gap. *)
Fixpoint shift_up (out : list nx_mem_region) (r : nx_mem_region) (j : nat) : list nx_mem_region :=
  match j with
  | O => <[O := r]> out
  | S j' =>
      if r_base (out !!! j') >? r_base r then shift_up (<[j := out !!! j']> out) r j'
      else <[j := r]> out
  end.

Definition sort_regions (out : list nx_mem_region) : list nx_mem_region :=
  for_each (seq 1 (length out - 1)) (fun out i => shift_up out (out !!! i) i) out.

(** The merge loop from index [i] on, with [m] regions kept so far. *)
Fixpoint coalesce (todo : nat) (out : list nx_mem_region) (i m : nat)
    : nx_mmap_error * list nx_mem_region * nat :=
  match todo with
  | O => (NX_MMAP_OK, out, m)
  | S todo' =>
      let r := out !!! i in
      let prev := out !!! (m - 1)%nat in
      if (0 <? m)%nat && (r_base r <? r_end prev) then (NX_MMAP_E_OVERLAP, out, m)
      else if (0 <? m)%nat && (r_base r =? r_end prev) && (r_type r =? r_type prev) then
        coalesce todo' (<[(m - 1)%nat := mk_region (r_base prev) (u64 (r_length prev + r_length r))
                           (r_type prev) (r_flags prev)]> out) (S i) m
      else coalesce todo' (<[m := r]> out) (S i) (S m)
  end.

(** Status and the regions reported ([*out_count] of them). *)
Definition nx_mmap_from_uefi (map : list Z) (desc_size cap : Z)
    : option (nx_mmap_error * list nx_mem_region) :=
  if desc_size <? EFI_DESC_SIZE then Some (NX_MMAP_E_DESC_SIZE, [])
  else
    r ← collect (S (length map)) map (Z.of_nat (length map)) desc_size 0 cap [];
    Some
      match r with
      | (NX_MMAP_OK, out) =>
          if Z.of_nat (length out) =? 0 then (NX_MMAP_E_EMPTY, [])
          else
            match coalesce (length out) (sort_regions out) 0 0 with
            | (NX_MMAP_OK, out, m) => (NX_MMAP_OK, take m out)
            | (e, _, _) => (e, [])
            end
      | (e, _) => (e, [])
      end.

(** ** Specification *)

(** The descriptors of the map, the ones without pages left out. *)
Fixpoint descs (n : nat) (map : list Z) (desc_size off : Z) : option (list efi_desc) :=
  match n with
  | O => Some []
  | S n' =>
      d ← read_desc map off;
      l ← descs n' map desc_size (off + desc_size);
      Some (if d_pages d =? 0 then l else d :: l)
  end.

Definition map_descs (map : list Z) (desc_size : Z) : option (list efi_desc) :=
  descs (Z.to_nat (Z.of_nat (length map) / desc_size)) map desc_size 0.

Definition desc_wf (d : efi_desc) : Prop := 0 <= d_start d < 2 ^ 64 /\ 0 < d_pages d < 2 ^ 64.
Definition desc_ok (d : efi_desc) : Prop :=
  d_start d mod NX_PAGE_SIZE = 0 /\ d_start d + d_pages d * NX_PAGE_SIZE <= UINT64_MAX.

(** Byte [a] lies in the descriptor. *)
Definition in_desc (a : Z) (d : efi_desc) : Prop :=
  d_start d <= a < d_start d + d_pages d * NX_PAGE_SIZE.

Definition descs_disjoint (d e : efi_desc) : Prop := forall a, ~ (in_desc a d /\ in_desc a e).

(** Sorted and disjoint, neighbours of the same type merged. *)
Definition regions_normal (rs : list nx_mem_region) : Prop :=
  regions_sorted rs /\
  forall i r s, rs !! i = Some r -> rs !! S i = Some s ->
    r_base r + r_length r = r_base s -> r_type r <> r_type s.

(** The merge loop on lists: [rs] the regions kept, [rest] the ones to come. *)
Fixpoint merge (rs rest : list nx_mem_region) : option (list nx_mem_region) :=
  match rest with
  | [] => Some rs
  | r :: rest' =>
      match last rs with
      | None => merge (rs ++ [r]) rest'
      | Some p =>
          if r_base r <? r_end p then None
          else if (r_base r =? r_end p) && (r_type r =? r_type p) then
            merge (removelast rs ++ [mk_region (r_base p) (u64 (r_length p + r_length r)) (r_type p) (r_flags p)]) rest'
          else merge (rs ++ [r]) rest'
      end
  end.

(** ** Lemmas: collecting *)

Lemma read_desc_ok map off :
  Forall byte_ok map -> 0 <= off -> off + EFI_DESC_SIZE <= Z.of_nat (length map) ->
  exists d, read_desc map off = Some d /\ 0 <= d_start d < 2 ^ 64 /\ 0 <= d_pages d < 2 ^ 64.
Proof.
  unfold EFI_DESC_SIZE. intros Hb H1 H2. unfold read_desc.
  destruct (ld_in 4 map off Hb) as (t & -> & _); [lia..|].
  destruct (ld_in 8 map (off + 8) Hb) as (s & -> & Hs); [lia..|].
  destruct (ld_in 8 map (off + 24) Hb) as (n & -> & Hn); [lia..|]. simpl. eexists. split; [done|]. done.
Qed.

Lemma descs_ok n map desc_size off :
  Forall byte_ok map -> EFI_DESC_SIZE <= desc_size -> 0 <= off ->
  off + Z.of_nat n * desc_size <= Z.of_nat (length map) ->
  exists ds, descs n map desc_size off = Some ds /\ Forall desc_wf ds.
Proof.
  intros Hb Hd. revert off. induction n as [|n IH]; intros off Ho Hs; [by exists []|].
  cbn [descs]. unfold EFI_DESC_SIZE in Hd.
  destruct (read_desc_ok map off Hb Ho) as (d & -> & Hd1 & Hd2); [unfold EFI_DESC_SIZE; lia|].
  destruct (IH (off + desc_size)) as (ds & E & Hds); [lia..|]. simpl. rewrite E. simpl.
  eexists. split; [done|]. destruct (Z.eqb_spec (d_pages d) 0); [done|]. constructor; [|done].
  split; [done|lia].
Qed.

Lemma page_aligned x : (x &. (NX_PAGE_SIZE - 1) =? 0) = true <-> x mod NX_PAGE_SIZE = 0.
Proof. change (NX_PAGE_SIZE - 1) with (Z.ones 12). rewrite land_ones_mod by lia. apply Z.eqb_eq. Qed.

Lemma collect_spec n fuel map desc_size off cap out ds :
  Forall byte_ok map -> Z.of_nat (length map) < 2 ^ 64 -> EFI_DESC_SIZE <= desc_size < 2 ^ 64 -> 0 <= off ->
  off + Z.of_nat n * desc_size <= Z.of_nat (length map) < off + (Z.of_nat n + 1) * desc_size ->
  (n < fuel)%nat -> descs n map desc_size off = Some ds -> Z.of_nat (length out) <= cap ->
  exists r, collect fuel map (Z.of_nat (length map)) desc_size off cap out = Some r /\
    forall out', r = (NX_MMAP_OK, out') <->
      Forall desc_ok ds /\ Z.of_nat (length out) + Z.of_nat (length ds) <= cap /\
      out' = out ++ (region_of <$> ds).
Proof.
  intros Hb Hlen Hd. revert fuel off out ds. induction n as [|n IH];
    intros [|fuel] off out ds Ho Hs Hf Eds Hcap; try lia; cbn [collect descs] in *.
  all: unfold EFI_DESC_SIZE in Hd.
  all: rewrite wrap_small by (unfold fits; nia).
  { rewrite Z.geb_leb, (proj2 (Z.leb_gt _ _)) by lia. injection Eds as <-. eexists. split; [done|].
    intros out'. simpl. rewrite app_nil_r. split; [intros [= <-]; split_and!; (done || lia)|].
    by intros (_ & _ & ->). }
  assert (Hn : 0 <= Z.of_nat n * desc_size) by nia. rewrite Nat2Z.inj_succ in Hs.
  rewrite Z.geb_leb, (proj2 (Z.leb_le _ _)) by lia.
  destruct (read_desc_ok map off Hb Ho) as (d & E & Hd1 & Hd2); [unfold EFI_DESC_SIZE; lia|]. rewrite E in *. simpl in *.
  destruct (descs n map desc_size (off + desc_size)) as [ds'|] eqn:Eds'; [simpl in Eds|done].
  injection Eds as <-. rewrite (wrap_small 64 (off + desc_size)) by (unfold fits; lia).
  destruct (Z.eqb_spec (d_pages d) 0) as [Hz|Hz]; [by apply IH; [lia..|lia|done|done]|].
  destruct (negb (d_start d &. (NX_PAGE_SIZE - 1) =? 0)) eqn:Ea.
  { apply negb_true_iff in Ea. eexists. split; [done|]. intros out'. split; [done|]. intros (Hok & _).
    apply Forall_cons in Hok as [[Hal _] _]. apply page_aligned in Hal. congruence. }
  apply negb_false_iff, page_aligned in Ea. rewrite Z.gtb_ltb.
  destruct (Z.ltb_spec ((UINT64_MAX - d_start d) / NX_PAGE_SIZE) (d_pages d)) as [Hov|Hov].
  { eexists. split; [done|]. intros out'. split; [done|]. intros (Hok & _).
    apply Forall_cons in Hok as [[_ Hle] _]. unfold NX_PAGE_SIZE, UINT64_MAX in *. dlia. }
  assert (Hdok : desc_ok d) by (split; [done|]; unfold NX_PAGE_SIZE, UINT64_MAX in *; dlia).
  destruct (Z.eqb_spec (Z.of_nat (length out)) cap) as [Hc|Hc].
  { eexists. split; [done|]. intros out'. split; [done|]. intros (_ & Hl & _). simpl in Hl. lia. }
  destruct (IH fuel (off + desc_size) (out ++ [region_of d]) ds') as (r & -> & Hr); [lia..|lia|done| |].
  { rewrite length_app. simpl. lia. }
  exists r. split; [done|]. intros out'. rewrite Hr, Forall_cons, length_app, <- (assoc_L (++)). cbn [length fmap list_fmap app].
  naive_solver lia.
Qed.

(** ** Lemmas: sorting *)

Abbreviation base_le := (fun r s : nx_mem_region => r_base r <= r_base s).

(** The gap is at the end of [a]: [r] ends up before the larger entries. *)
Lemma shift_up_spec a h b r :
  exists a1 a2, a = a1 ++ a2 /\ shift_up (a ++ h :: b) r (length a) = a1 ++ r :: a2 ++ b /\
    Forall (fun y => r_base r < r_base y) a2 /\ (forall y, last a1 = Some y -> r_base y <= r_base r).
Proof.
  revert h b. induction a as [|y a IH] using rev_ind; intros h b.
  { exists [], []. split_and!; done. }
  rewrite length_app, Nat.add_comm. cbn [length Nat.add shift_up].
  assert (Hl : ((a ++ [y]) ++ h :: b) !!! length a = y).
  { rewrite <- (assoc_L (++)). cbn [app]. by rewrite list_lookup_total_middle. }
  rewrite Hl, Z.gtb_ltb. destruct (Z.ltb_spec (r_base r) (r_base y)) as [Hlt|Hge].
  - replace (<[S (length a):=y]> ((a ++ [y]) ++ h :: b)) with (a ++ y :: y :: b).
    2:{ rewrite insert_app_r_alt by (rewrite length_app; simpl; lia). rewrite length_app. simpl.
        replace (S (length a) - (length a + 1))%nat with 0%nat by lia. simpl. by rewrite <- (assoc_L (++)). }
    destruct (IH y (y :: b)) as (a1 & a2 & -> & -> & Hg & Hlast).
    exists a1, (a2 ++ [y]). rewrite (assoc_L (++)). split_and!; try done.
    + by rewrite <- (assoc_L (++)).
    + apply Forall_app. split; [done|by apply Forall_singleton].
  - exists (a ++ [y]), []. rewrite app_nil_r. split_and!; [done| |done|].
    + rewrite insert_app_r_alt by (rewrite length_app; simpl; lia). rewrite length_app. simpl.
      by replace (S (length a) - (length a + 1))%nat with 0%nat by lia.
    + intros z. rewrite last_snoc. intros [= <-]. done.
Qed.

Lemma sort_step a r b :
  pairwise base_le a -> exists a', shift_up (a ++ r :: b) r (length a) = a' ++ b /\
    length a' = S (length a) /\ a' ≡ₚ a ++ [r] /\ pairwise base_le a'.
Proof.
  intros Ha. destruct (shift_up_spec a r b r) as (a1 & a2 & -> & -> & Hg & Hl).
  exists (a1 ++ r :: a2). rewrite <- (assoc_L (++)). split; [done|].
  split; [rewrite !length_app; simpl; lia|]. split.
  { rewrite <- (assoc_L (++)). apply Permutation_app_head. by rewrite Permutation_app_comm. }
  apply pairwise_app in Ha as (H1 & H2 & H3). apply pairwise_app. split; [done|].
  assert (Hle : forall y, y ∈ a1 -> r_base y <= r_base r).
  { intros y Hy. destruct (last a1) as [z|] eqn:Ez; [|apply last_None in Ez; set_solver].
    apply last_Some in Ez as [a1' ->]. specialize (Hl z eq_refl).
    apply elem_of_app in Hy as [Hy|Hy]; [|set_solver].
    apply pairwise_app in H1 as (_ & _ & H1). specialize (H1 y z Hy ltac:(set_solver)). simpl in H1. lia. }
  split.
  - simpl. split; [|done]. eapply Forall_impl; [exact Hg|]. simpl. lia.
  - intros x y Hx Hy. apply elem_of_cons in Hy as [->|Hy]; [by apply Hle|by apply H3].
Qed.

Lemma sort_loop a b :
  pairwise base_le a ->
  exists l, for_each (seq (length a) (length b)) (fun out i => shift_up out (out !!! i) i) (a ++ b) = l /\
    l ≡ₚ a ++ b /\ pairwise base_le l.
Proof.
  revert a. induction b as [|r b IH]; intros a Ha.
  { exists a. simpl. rewrite app_nil_r. done. }
  unfold for_each in *. cbn [length seq fold_left]. rewrite list_lookup_total_middle by done.
  destruct (sort_step a r b Ha) as (a' & -> & Hl & Hp & Ha'). rewrite <- Hl.
  destruct (IH a' Ha') as (l & -> & Hpl & Hs). exists l. split; [done|]. split; [|done].
  rewrite Hpl, Hp, <- (assoc_L (++)). done.
Qed.

Lemma sort_spec out : sort_regions out ≡ₚ out /\ pairwise base_le (sort_regions out).
Proof.
  unfold sort_regions. destruct out as [|r out]; [done|].
  destruct (sort_loop [r] out) as (l & El & Hp & Hs); [by split; [apply Forall_nil|]|].
  simpl in *. rewrite Nat.sub_0_r, El. done.
Qed.

(** ** Lemmas: merging *)

(** Storing at the end of the kept regions. *)
Lemma store_kept (rs junk rest : list nx_mem_region) (r q : nx_mem_region) :
  exists junk', <[length rs := q]> (rs ++ junk ++ r :: rest) = (rs ++ [q]) ++ junk' ++ rest /\
    length junk' = length junk.
Proof.
  rewrite insert_app_r_alt, Nat.sub_diag by lia. destruct junk as [|j junk]; simpl.
  - exists []. by rewrite <- (assoc_L (++)).
  - exists (junk ++ [r]). rewrite length_app, <- !(assoc_L (++)). simpl. split; [done|lia].
Qed.

Lemma coalesce_merge rs junk rest out i m :
  out = rs ++ junk ++ rest -> i = (length rs + length junk)%nat -> m = length rs ->
  match coalesce (length rest) out i m with
  | (NX_MMAP_OK, out, m) => merge rs rest = Some (take m out)
  | _ => merge rs rest = None
  end.
Proof.
  revert rs junk out i m. induction rest as [|r rest IH]; intros rs junk out i m -> -> ->.
  { cbn [length coalesce merge]. by rewrite take_app_length. }
  cbn [length coalesce merge]. cbv zeta. rewrite <- length_app.
  assert (Hr : (rs ++ junk ++ r :: rest) !!! length (rs ++ junk) = r).
  { rewrite (assoc_L (++)). by rewrite list_lookup_total_middle. }
  destruct (store_kept rs junk rest r r) as (junk' & Hst & Hj).
  rewrite Hr, Hst. destruct (last rs) as [p|] eqn:El.
  2:{ apply last_None in El as ->. simpl. apply (IH [r] junk'); simpl; (done || lia). }
  apply last_Some in El as [rs0 ->]. rewrite removelast_last.
  assert (Hp : ((rs0 ++ [p]) ++ junk ++ r :: rest) !!! (length (rs0 ++ [p]) - 1)%nat = p).
  { rewrite length_app, <- (assoc_L (++)). cbn [length app]. apply list_lookup_total_middle. lia. }
  rewrite Hp. replace (0 <? length (rs0 ++ [p]))%nat with true
    by (symmetry; apply Nat.ltb_lt; rewrite length_app; simpl; lia). cbn [andb].
  destruct (r_base r <? r_end p); [done|].
  destruct ((r_base r =? r_end p) && (r_type r =? r_type p)).
  - set (q := mk_region _ _ _ _). apply (IH (rs0 ++ [q]) (junk ++ [r])).
    + rewrite length_app. cbn [length]. replace (length rs0 + 1 - 1)%nat with (length rs0) by lia.
      rewrite <- !(assoc_L (++)). by rewrite insert_app_r_alt, Nat.sub_diag by lia.
    + rewrite !length_app. simpl. lia.
    + by rewrite !length_app.
  - apply (IH _ junk'); rewrite ?length_app; simpl; (done || lia).
Qed.

(** What holds of the regions [rs] kept after the regions [done] were merged. *)
Definition merged (rs done : list nx_mem_region) : Prop :=
  regions_normal rs /\ Forall region_wf done /\ pairwise regions_disjoint done /\
  (forall a t, typed rs a t <-> typed done a t) /\
  (forall p, p ∈ rs -> exists d, d ∈ done /\ r_base d = r_base p).

Lemma normal_snoc rs r :
  regions_normal rs -> region_wf r ->
  (forall p, last rs = Some p -> r_end p <= r_base r /\ (r_end p = r_base r -> r_type p <> r_type r)) ->
  regions_normal (rs ++ [r]).
Proof.
  intros ([Hw Hp] & Hm) Hr Hl. split; [split; [apply Forall_app; split; [done|by apply Forall_singleton]|]|].
  - apply pairwise_app. split; [done|]. split; [by split; [apply Forall_nil|]|]. intros x y Hx Hy.
    rewrite list_elem_of_singleton in Hy. subst y.
    destruct (last rs) as [p|] eqn:El; [|apply last_None in El; set_solver]. destruct (Hl p eq_refl) as [H1 _].
    apply last_Some in El as [rs0 ->]. apply Forall_app in Hw as [Hw0 Hwp]. rewrite Forall_singleton in Hwp.
    rewrite region_wf_end in H1 by done. apply elem_of_app in Hx as [Hx|Hx]; [|set_solver].
    apply pairwise_app in Hp as (_ & _ & Hp). specialize (Hp x p Hx ltac:(set_solver)). simpl in Hp.
    destruct Hwp as (_ & ? & _). lia.
  - intros i x y Hx Hy He. destruct (decide (S i < length rs)%nat) as [Hlt|Hge].
    { rewrite lookup_app_l in Hx, Hy by lia. by eapply Hm. }
    pose proof (lookup_lt_Some _ _ _ Hy) as Hlt. rewrite length_app in Hlt. simpl in Hlt.
    rewrite lookup_app_l in Hx by lia. rewrite lookup_app_r in Hy by lia.
    replace (S i - length rs)%nat with 0%nat in Hy by lia. injection Hy as <-.
    assert (El : last rs = Some x) by (rewrite last_lookup; by replace (pred (length rs)) with i by lia).
    destruct (Hl x El) as [_ H]. apply H. rewrite region_wf_end; [done|].
    eapply Forall_lookup_1; [exact Hw|done].
Qed.

(** Merging region [r] after [done]: the three cases of the loop. *)
Section merge_step.
Variables (rs done : list nx_mem_region) (r : nx_mem_region).
Hypothesis Hinv : merged rs done.
Hypothesis Hr : region_wf r.
Hypothesis Hsorted : forall d, d ∈ done -> r_base d <= r_base r.

Lemma merge_overlap p : last rs = Some p -> r_base r < r_end p -> exists d, d ∈ done /\ ~ regions_disjoint d r.
Proof using All.
  intros Hl Hlt. destruct Hinv as (((Hw & _) & _) & _ & _ & Ht & Hb).
  assert (Hin : p ∈ rs) by by apply last_Some_elem_of.
  rewrite Forall_forall in Hw. rewrite region_wf_end in Hlt by auto.
  destruct (Hb p Hin) as (d0 & Hd0 & Eb). specialize (Hsorted d0 Hd0).
  destruct (proj1 (Ht (r_base r) (r_type p))) as (d & Hd & Hbd & _).
  { exists p. split; [done|]. split; [|done]. unfold in_region. lia. }
  exists d. split; [done|]. intros Hdis. apply (Hdis (r_base r)). split; [done|].
  destruct Hr as (_ & ? & _). unfold in_region. lia.
Qed.

(** No overlap with the last region kept means no overlap at all. *)
Lemma merge_disjoint :
  (forall p, last rs = Some p -> r_end p <= r_base r) -> forall d, d ∈ done -> regions_disjoint d r.
Proof using All.
  intros Hl d Hd a [Ha1 Ha2]. destruct Hinv as (((Hw & Hp) & _) & _ & _ & Ht & _).
  destruct (proj2 (Ht a (r_type d))) as (q & Hq & Haq & _); [by exists d|].
  destruct (last rs) as [p|] eqn:El; [|apply last_None in El; set_solver].
  specialize (Hl p eq_refl). apply last_Some in El as [rs0 El]. rewrite El in *.
  apply Forall_app in Hw as [_ Hwp]. rewrite Forall_singleton in Hwp. rewrite region_wf_end in Hl by done.
  assert (Hqp : q = p \/ r_base q + r_length q <= r_base p).
  { apply elem_of_app in Hq as [Hq|Hq]; [right|left; set_solver].
    apply pairwise_app in Hp as (_ & _ & Hp). by apply (Hp q p); set_solver. }
  destruct Hwp as (_ & ? & _). unfold in_region in *. destruct Hqp as [->|]; lia.
Qed.

Lemma done_snoc :
  (forall d, d ∈ done -> regions_disjoint d r) ->
  Forall region_wf (done ++ [r]) /\ pairwise regions_disjoint (done ++ [r]).
Proof using All.
  intros Hd. destruct Hinv as (_ & Hw & Hdis & _). split; [apply Forall_app; split; [done|by apply Forall_singleton]|].
  apply pairwise_app. split; [done|]. split; [by split; [apply Forall_nil|]|]. set_solver.
Qed.

Lemma merge_append :
  (forall p, last rs = Some p -> r_end p <= r_base r /\ (r_end p = r_base r -> r_type p <> r_type r)) ->
  merged (rs ++ [r]) (done ++ [r]).
Proof using All.
  intros Hl. destruct (done_snoc (merge_disjoint (fun p E => proj1 (Hl p E)))) as [Hw Hd].
  destruct Hinv as (Hn & _ & _ & Ht & Hb). split; [by apply normal_snoc|]. split; [done|]. split; [done|]. split.
  - intros a t. by rewrite !typed_app, Ht.
  - set_solver.
Qed.

Lemma merge_extend rs0 p :
  rs = rs0 ++ [p] -> r_base r = r_end p -> r_type r = r_type p ->
  merged (rs0 ++ [mk_region (r_base p) (u64 (r_length p + r_length r)) (r_type p) (r_flags p)]) (done ++ [r]).
Proof using All.
  intros Ers Hb Hty. set (q := mk_region _ _ _ _).
  assert (Hlast : forall p', last rs = Some p' -> r_end p' <= r_base r)
    by (intros p'; rewrite Ers, last_snoc; intros [= <-]; lia).
  destruct (done_snoc (merge_disjoint Hlast)) as [Hw Hd].
  destruct Hinv as (((Hwf & Hp) & Hm) & _ & _ & Ht & Hbase). rewrite Ers in Hwf, Hp, Hm, Ht, Hbase.
  pose proof Hwf as Hwf'. apply Forall_app in Hwf as [Hw0 Hwp]. rewrite Forall_singleton in Hwp.
  rewrite region_wf_end in Hb by done.
  assert (Hlen : u64 (r_length p + r_length r) = r_length p + r_length r).
  { destruct Hwp as (? & ? & ? & _), Hr as (? & ? & ? & _). apply wrap_small. unfold fits, UINT64_MAX in *. lia. }
  assert (Hq : region_wf q).
  { destruct Hwp as (H1 & H2 & H3 & H4 & H5), Hr as (H6 & H7 & H8 & H9 & H10). unfold region_wf, q. simpl. rewrite Hlen.
    split_and!; try done; try lia. unfold NX_PAGE_SIZE in *. by rewrite Z.add_mod, H5, H10 by lia. }
  split; [|split; [done|split; [done|split]]].
  - apply normal_snoc; [|done|].
    + apply pairwise_app in Hp as (Hp & _). split; [by split|]. intros i x y Hx Hy.
      apply (Hm i); by apply lookup_app_l_Some.
    + intros p' El. assert (Hx : rs0 !! pred (length rs0) = Some p') by by rewrite <- last_lookup.
      assert (Hin : p' ∈ rs0) by by apply last_Some_elem_of.
      rewrite Forall_forall in Hw0. rewrite region_wf_end by auto. apply pairwise_app in Hp as (_ & _ & Hp).
      split; [apply (Hp p' p); set_solver|]. intros He. apply (Hm (pred (length rs0)) p' p); [by apply lookup_app_l_Some| |done].
      pose proof (lookup_lt_Some _ _ _ Hx). rewrite lookup_app_r by lia.
      by replace (S (pred (length rs0)) - length rs0)%nat with 0%nat by lia.
  - intros a t. rewrite (typed_app done), <- Ht, !typed_app, !typed_singleton. unfold in_region, q. simpl.
    rewrite Hlen, Hty. destruct Hwp as (_ & ? & _), Hr as (_ & ? & _). 
    assert (r_base p <= a < r_base p + (r_length p + r_length r) <->
            r_base p <= a < r_base p + r_length p \/ r_base r <= a < r_base r + r_length r) by lia. tauto.
  - intros x Hx. apply elem_of_app in Hx as [Hx|Hx].
    + destruct (Hbase x) as (d & ? & ?); [set_solver|]. exists d. set_solver.
    + rewrite list_elem_of_singleton in Hx. subst x. destruct (Hbase p) as (d & ? & ?); [set_solver|].
      exists d. set_solver.
Qed.
End merge_step.

Lemma merge_spec rs done rest :
  merged rs done -> Forall region_wf rest -> pairwise base_le (done ++ rest) ->
  match merge rs rest with
  | Some rs' => merged rs' (done ++ rest)
  | None => ~ pairwise regions_disjoint (done ++ rest)
  end.
Proof.
  revert rs done. induction rest as [|r rest IH]; intros rs done Hinv Hw Hs.
  { by rewrite app_nil_r. }
  apply Forall_cons in Hw as [Hr Hw]. cbn [merge].
  assert (Hsr : forall d, d ∈ done -> r_base d <= r_base r)
    by (intros d Hd; apply pairwise_app in Hs as (_ & _ & Hs); apply (Hs d r); set_solver).
  replace (done ++ r :: rest) with ((done ++ [r]) ++ rest) in * by by rewrite <- (assoc_L (++)).
  destruct (last rs) as [p|] eqn:El.
  2:{ apply IH; [|done|done]. apply merge_append; [done..|]. by rewrite El. }
  destruct (Z.ltb_spec (r_base r) (r_end p)) as [Hlt|Hge].
  { destruct (merge_overlap rs done r Hinv Hr Hsr p El Hlt) as (d & Hd & Hnd).
    intros Hdis. rewrite <- (assoc_L (++)) in Hdis. apply pairwise_app in Hdis as (_ & _ & Hdis).
    apply Hnd, Hdis; set_solver. }
  destruct ((r_base r =? r_end p) && (r_type r =? r_type p)) eqn:Ec.
  - breflect. apply last_Some in El as [rs0 El]. apply IH; [|done|done].
    rewrite El, removelast_last. by eapply merge_extend.
  - apply IH; [|done|done]. apply merge_append; [done..|]. intros p'. rewrite El. intros [= <-].
    split; [done|]. intros He Ht. rewrite He, Ht, !Z.eqb_refl in Ec. done.
Qed.

(** ** Lemmas: the conversion *)

Lemma region_of_spec d :
  desc_wf d -> desc_ok d -> region_wf (region_of d) /\ forall a, in_region a (region_of d) <-> in_desc a d.
Proof.
  intros ([? ?] & ? & ?) [Ha Ho]. unfold region_wf, region_of, in_region, in_desc, NX_PAGE_SIZE, UINT64_MAX in *. simpl.
  rewrite (wrap_small 64) by (unfold fits; lia). split; [|done]. split_and!; try done; try lia.
  by rewrite Z.mod_mul by lia.
Qed.

Lemma regions_of_spec ds :
  Forall desc_wf ds -> Forall desc_ok ds ->
  Forall region_wf (region_of <$> ds) /\
  (pairwise regions_disjoint (region_of <$> ds) <-> pairwise descs_disjoint ds) /\
  (forall a t, typed (region_of <$> ds) a t <->
     exists d, d ∈ ds /\ in_desc a d /\ nx_mmap_translate_type (d_type d) = t).
Proof.
  intros Hw Ho. rewrite Forall_forall in Hw, Ho.
  assert (Hs : forall d, d ∈ ds -> region_wf (region_of d) /\ forall a, in_region a (region_of d) <-> in_desc a d)
    by (intros d Hd; apply region_of_spec; auto).
  split_and!.
  - apply Forall_fmap, Forall_forall. intros d Hd. by apply Hs.
  - rewrite pairwise_fmap. unfold regions_disjoint, descs_disjoint.
    split; apply pairwise_impl; intros d e Hd He H a; rewrite ?(proj2 (Hs d Hd)), ?(proj2 (Hs e He));
      specialize (H a); rewrite ?(proj2 (Hs d Hd)), ?(proj2 (Hs e He)) in H; done.
  - intros a t. unfold typed. split.
    + intros (r & Hr & Ha & Ht). apply list_elem_of_fmap in Hr as (d & -> & Hd).
      exists d. split; [done|]. split; [by apply Hs|done].
    + intros (d & Hd & Ha & Ht). exists (region_of d). split; [by apply list_elem_of_fmap_2|].
      split; [by apply Hs|done].
Qed.

(** Sorting and merging a list of well-formed regions. *)
Lemma sort_merge out :
  Forall region_wf out ->
  match coalesce (length out) (sort_regions out) 0 0 with
  | (NX_MMAP_OK, out', m) => pairwise regions_disjoint out /\ regions_normal (take m out') /\
      forall a t, typed (take m out') a t <-> typed out a t
  | _ => ~ pairwise regions_disjoint out
  end.
Proof.
  intros Hw. destruct (sort_spec out) as [Hp Hs].
  assert (Hsym : forall r s, regions_disjoint r s -> regions_disjoint s r) by (unfold regions_disjoint; naive_solver).
  pose proof (coalesce_merge [] [] (sort_regions out) (sort_regions out) 0 0 eq_refl eq_refl eq_refl) as Hc.
  rewrite (Permutation_length Hp) in Hc.
  assert (Hnil : merged [] []).
  { split; [split; [by split|done]|]. split; [done|]. split; [done|]. split; [done|]. intros p H. by apply not_elem_of_nil in H. }
  pose proof (merge_spec [] [] (sort_regions out) Hnil ltac:(by rewrite Hp) Hs) as Hm. simpl in Hm.
  assert (Hty : forall rs, (forall a t, typed rs a t <-> typed (sort_regions out) a t) ->
    forall a t, typed rs a t <-> typed out a t).
  { intros rs H a t. rewrite H. unfold typed. by setoid_rewrite Hp. }
  destruct (coalesce (length out) (sort_regions out) 0 0) as [[e out'] m] eqn:Ec.
  destruct e; rewrite Hc in Hm; try (intros Hd; apply Hm; by apply (pairwise_perm _ out)).
  destruct Hm as (Hn & _ & Hd & Ht & _). split; [by apply (pairwise_perm _ (sort_regions out))|]. auto.
Qed.

Lemma convert_cases map desc_size cap :
  Forall byte_ok map -> Z.of_nat (length map) < 2 ^ 64 -> EFI_DESC_SIZE <= desc_size < 2 ^ 64 -> 0 <= cap ->
  exists ds e rs, map_descs map desc_size = Some ds /\
    nx_mmap_from_uefi map desc_size cap = Some (e, rs) /\
    (e = NX_MMAP_OK <-> Forall desc_ok ds /\ 1 <= Z.of_nat (length ds) <= cap /\ pairwise descs_disjoint ds) /\
    (e = NX_MMAP_OK -> regions_normal rs /\ forall a t, typed rs a t <->
       exists d, d ∈ ds /\ in_desc a d /\ nx_mmap_translate_type (d_type d) = t).
Proof.
  intros Hb Hl Hd Hc. set (n := Z.to_nat (Z.of_nat (length map) / desc_size)).
  assert (Hn : Z.of_nat n * desc_size <= Z.of_nat (length map) < (Z.of_nat n + 1) * desc_size).
  { unfold n, EFI_DESC_SIZE in *. rewrite Z2Nat.id by (apply Z.div_pos; lia). dlia. }
  assert (Hnl : (n < S (length map))%nat) by (unfold EFI_DESC_SIZE in *; nia).
  destruct (descs_ok n map desc_size 0 Hb ltac:(lia)) as (ds & Eds & Hw); [lia..|].
  destruct (collect_spec n (S (length map)) map desc_size 0 cap [] ds) as ([e out] & Er & Hr); try done; try lia.
  unfold nx_mmap_from_uefi. rewrite (proj2 (Z.ltb_ge desc_size _)) by lia. rewrite Er. simpl in Hr |- *.
  exists ds. destruct (decide (e = NX_MMAP_OK)) as [->|He].
  2:{ exists e, []. split; [done|]. split; [by destruct e|]. split; [|done]. split; [done|].
      intros (Ho & Hln & _). assert (E : (e, out) = (NX_MMAP_OK, region_of <$> ds)) by (apply Hr; split; [done|]; split; [lia|done]).
      by injection E as -> _. }
  destruct (proj1 (Hr out) eq_refl) as (Ho & Hln & ->). rewrite length_fmap.
  destruct (regions_of_spec ds Hw Ho) as (Hrw & Hdis & Hty).
  destruct (Z.eqb_spec (Z.of_nat (length ds)) 0) as [E0|E0].
  { exists NX_MMAP_E_EMPTY, []. split; [done|]. split; [done|]. split; [|done]. split; [done|]. lia. }
  pose proof (sort_merge _ Hrw) as Hm. rewrite length_fmap in Hm.
  destruct (coalesce (length ds) _ 0 0) as [[e out'] m] eqn:Ec.
  destruct (decide (e = NX_MMAP_OK)) as [->|He].
  - exists NX_MMAP_OK, (take m out'). destruct Hm as (Hd' & Hnorm & Ht).
    split; [done|]. split; [done|]. split; [split; [intros _|done]; split; [done|]; split; [lia|by apply Hdis]|].
    intros _. split; [done|]. intros a t. by rewrite Ht, Hty.
  - exists e, []. split; [done|]. split; [by destruct e|]. split; [|done]. split; [done|].
    intros (_ & _ & Hpd). apply Hdis in Hpd. by destruct e.
Qed.

(** ** Theorems *)

(** The conversion terminates without reading outside the firmware's map, and
    succeeds exactly when every descriptor is page aligned and does not wrap
    around the address space, there is at least one and there are no more than
    the output holds, and no two of them overlap. *)
Theorem mmap_convert_accepts map desc_size cap :
  Forall byte_ok map -> Z.of_nat (length map) < 2 ^ 64 -> EFI_DESC_SIZE <= desc_size < 2 ^ 64 -> 0 <= cap ->
  exists ds e rs, map_descs map desc_size = Some ds /\
    nx_mmap_from_uefi map desc_size cap = Some (e, rs) /\
    (e = NX_MMAP_OK <-> Forall desc_ok ds /\ 1 <= Z.of_nat (length ds) <= cap /\ pairwise descs_disjoint ds).
Proof.
  intros Hb Hl Hd Hc. destruct (convert_cases map desc_size cap Hb Hl Hd Hc) as (ds & e & rs & H1 & H2 & H3 & _). eauto 10.
Qed.

(** The regions the conversion reports are page aligned, sorted, disjoint and
    merged, and give every byte exactly the type the firmware's descriptors give
    it, translated: nothing is lost, invented or retyped by sorting and merging. *)
Theorem mmap_convert_types map desc_size cap rs :
  Forall byte_ok map -> Z.of_nat (length map) < 2 ^ 64 -> EFI_DESC_SIZE <= desc_size < 2 ^ 64 -> 0 <= cap ->
  nx_mmap_from_uefi map desc_size cap = Some (NX_MMAP_OK, rs) ->
  regions_normal rs /\ exists ds, map_descs map desc_size = Some ds /\
    forall a t, typed rs a t <-> exists d, d ∈ ds /\ in_desc a d /\ nx_mmap_translate_type (d_type d) = t.
Proof.
  intros Hb Hl Hd Hc E. destruct (convert_cases map desc_size cap Hb Hl Hd Hc) as (ds & e & rs' & H1 & H2 & _ & H4).
  rewrite E in H2. injection H2 as <- <-. destruct (H4 eq_refl) as [Hn Ht]. eauto.
Qed.

(** ** Witnesses *)

(** Three descriptors out of order: RAM, loader data next to boot services. *)
Definition sample_desc (t start pages : Z) : list Z :=
  le_enc 4 t ++ le_enc 4 0 ++ le_enc 8 start ++ le_enc 8 0 ++ le_enc 8 pages ++ le_enc 8 0.
Definition sample_efi_map : list Z :=
  sample_desc 4 0x3000 2 ++ sample_desc 7 0x10000 16 ++ sample_desc 2 0x1000 2.

Lemma sample_efi_map_ok : Forall byte_ok sample_efi_map /\ Z.of_nat (length sample_efi_map) < 2 ^ 64.
Proof.
  split; [|by vm_compute]. unfold sample_efi_map, sample_desc.
  repeat (apply Forall_app; split); apply le_enc_bytes.
Qed.

Lemma mmap_convert_accepts_witness : exists ds e rs,
  map_descs sample_efi_map 40 = Some ds /\ nx_mmap_from_uefi sample_efi_map 40 8 = Some (e, rs) /\ e = NX_MMAP_OK /\
  pairwise descs_disjoint ds.
Proof.
  assert (Hd : EFI_DESC_SIZE <= 40 < 2 ^ 64) by (unfold EFI_DESC_SIZE; lia). assert (Hc : 0 <= 8) by lia.
  assert (He : (fst <$> nx_mmap_from_uefi sample_efi_map 40 8) = Some NX_MMAP_OK) by by vm_compute.
  destruct (mmap_convert_accepts sample_efi_map 40 8 (proj1 sample_efi_map_ok) (proj2 sample_efi_map_ok) Hd Hc)
    as (ds & e & rs & H1 & H2 & H3).
  rewrite H2 in He. injection He as He. exists ds, e, rs. split; [exact H1|]. split; [exact H2|]. split; [exact He|].
  exact (proj2 (proj2 (proj1 H3 He))).
Defined.

Lemma mmap_convert_types_witness :
  nx_mmap_from_uefi sample_efi_map 40 8 =
    Some (NX_MMAP_OK, [mk_region 0x1000 0x4000 NX_MEM_BOOT_RECLAIMABLE 0; mk_region 0x10000 0x10000 NX_MEM_USABLE 0]) /\
  regions_normal [mk_region 0x1000 0x4000 NX_MEM_BOOT_RECLAIMABLE 0; mk_region 0x10000 0x10000 NX_MEM_USABLE 0].
Proof.
  assert (Hd : EFI_DESC_SIZE <= 40 < 2 ^ 64) by (unfold EFI_DESC_SIZE; lia). assert (Hc : 0 <= 8) by lia.
  assert (He : nx_mmap_from_uefi sample_efi_map 40 8 = Some (NX_MMAP_OK,
    [mk_region 0x1000 0x4000 NX_MEM_BOOT_RECLAIMABLE 0; mk_region 0x10000 0x10000 NX_MEM_USABLE 0])) by by vm_compute.
  split; [exact He|].
  exact (proj1 (mmap_convert_types sample_efi_map 40 8 _ (proj1 sample_efi_map_ok) (proj2 sample_efi_map_ok) Hd Hc He)).
Defined.
