(* ===== verification/BootCheck.v ===== *)
(** * Boot information validator

    [kernel/bootinfo_check.c]: the first thing the kernel does with what the
    loader hands over.  Physical memory is read through the callback [map], which
    is a parameter: [map phys len] is the bytes at [phys], or [None] for NULL. *)
From S2P Require Import Prelude Bytes BootAbi.

(** ** Data *)

Inductive nx_bi_error : Set :=
| NX_BI_OK | NX_BI_E_NULL | NX_BI_E_MAGIC | NX_BI_E_VERSION | NX_BI_E_SIZE | NX_BI_E_FLAGS
| NX_BI_E_RESERVED | NX_BI_E_MMAP_PTR | NX_BI_E_MMAP_ENTRY_SIZE | NX_BI_E_MMAP_COUNT
| NX_BI_E_MMAP_EMPTY | NX_BI_E_MMAP_ALIGN | NX_BI_E_MMAP_OVERFLOW | NX_BI_E_MMAP_TYPE
| NX_BI_E_MMAP_FLAGS | NX_BI_E_MMAP_ORDER | NX_BI_E_MMAP_OVERLAP | NX_BI_E_MMAP_NO_USABLE
| NX_BI_E_KERNEL_RANGE | NX_BI_E_KERNEL_ENTRY | NX_BI_E_KERNEL_SELF | NX_BI_E_STACK_RANGE
| NX_BI_E_BOOTINFO_RANGE | NX_BI_E_CMDLINE | NX_BI_E_RSDP | NX_BI_E_FRAMEBUFFER | NX_BI_E_INITRD.

Record nx_bi_check := mk_check { c_bi_phys : Z; c_image_start : Z; c_image_end : Z }.

(** [bi] and [regions] are the structures the result points to. *)
Record nx_bi_result := mk_result {
  res_error : nx_bi_error;
  res_index : Z;
  res_bi : option nx_boot_info;
  res_regions : list nx_mem_region;
  res_usable_bytes : Z;
}.

(** Fields of a structure at their documented offsets. *)
Definition fld (n : nat) (b : list Z) (off : nat) : Z := le_dec (take n (drop off b)).

Definition dec_boot_info (b : list Z) : nx_boot_info :=
  mk_boot_info (fld 8 b 0) (fld 2 b 8) (fld 2 b 10) (fld 4 b 12) (fld 8 b 16) (fld 8 b 24)
    (fld 4 b 32) (fld 4 b 36) (fld 8 b 40) (fld 8 b 48) (fld 8 b 56) (fld 8 b 64) (fld 8 b 72)
    (fld 8 b 80) (fld 4 b 88) (fld 4 b 92) (fld 8 b 96) (fld 8 b 104) (fld 8 b 112) (fld 8 b 120)
    (fld 8 b 128) (fld 4 b 136) (fld 4 b 140) (fld 4 b 144) (fld 4 b 148) (take 32 (drop 192 b)).

Definition dec_region (b : list Z) : nx_mem_region :=
  mk_region (fld 8 b 0) (fld 8 b 8) (fld 4 b 16) (fld 4 b 20).

Definition dec_regions (n : Z) (b : list Z) : list nx_mem_region :=
  (fun i => dec_region (drop (Z.to_nat (i * 24)) b)) <$> seqZ 0 n.

(** ** Ranges *)

Definition BI_PAGE_MASK : Z := NX_PAGE_SIZE - 1.
Definition TYPE_BIT (t : Z) : Z := if t <? 32 then u32 (1 <<. t) else 0.

Definition range_ok (start len : Z) : bool := negb (len =? 0) && (start <=? UINT64_MAX - len).

Fixpoint covered_loop (rg : list nx_mem_region) (cur last type : Z) : bool :=
  match rg with
  | [] => false
  | r :: rg' =>
      if r_end r <=? cur then covered_loop rg' cur last type
      else if (r_base r >? cur) || negb (r_type r =? type) then false
      else if r_end r >=? last then true
      else covered_loop rg' (r_end r) last type
  end.

Definition covered_by (rg : list nx_mem_region) (start len type : Z) : bool :=
  if negb (range_ok start len) then false else covered_loop rg start (u64 (start + len)) type.

Definition overlaps_types (rg : list nx_mem_region) (start len mask : Z) : bool :=
  let last := u64 (start + len) in
  existsb (fun r => negb (mask &. TYPE_BIT (r_type r) =? 0) && (r_base r <? last) && (start <? r_end r)) rg.

(** ** Versions *)

Definition minor_size (minor : Z) : Z := if minor =? 0 then NX_BOOTINFO_V1_SIZE else NX_BOOTINFO_V1_1_SIZE.
Definition minor_flags (minor : Z) : Z :=
  if minor =? 0 then NX_BI_KNOWN_FLAGS_V1_0 else NX_BI_KNOWN_FLAGS_V1_1.
Definition minor_max_type (minor : Z) : Z := if minor =? 0 then NX_MEM_TYPE_MAX_V1_0 else NX_MEM_TYPE_MAX.

(** ** Parts of the check *)

Definition check_initrd (bi : nx_boot_info) (rg : list nx_mem_region) : bool :=
  if (bi_version_minor bi =? 0) || (bi_flags bi &. NX_BI_HAS_INITRD =? 0) then
    if negb (bi_initrd_phys bi =? 0) || negb (bi_initrd_size bi =? 0) then false
    else if bi_version_minor bi >=? 1 then forallb (fun x => x =? 0) (bi_initrd_sha256 bi)
    else true
  else if (bi_initrd_phys bi =? 0) || negb (bi_initrd_phys bi &. BI_PAGE_MASK =? 0)
          || (bi_initrd_size bi =? 0) || (bi_initrd_size bi >? UINT64_MAX - BI_PAGE_MASK) then false
  else
    let span := u64 (bi_initrd_size bi + BI_PAGE_MASK) &. u64 (~. BI_PAGE_MASK) in
    covered_by rg (bi_initrd_phys bi) span NX_MEM_INITRD.

Definition checksum_ok (p : list Z) : bool := for_each p (fun sum x => u8 (sum + x)) 0 =? 0.

(** "RSD PTR " *)
Definition RSDP_SIG : list Z := [82; 83; 68; 32; 80; 84; 82; 32].

Definition check_framebuffer (bi : nx_boot_info) (rg : list nx_mem_region) : bool :=
  if bi_flags bi &. NX_BI_HAS_FRAMEBUFFER =? 0 then
    (bi_fb_phys bi =? 0) && (bi_fb_size bi =? 0) && (bi_fb_width bi =? 0) && (bi_fb_height bi =? 0)
    && (bi_fb_pitch bi =? 0) && (bi_fb_format bi =? NX_FB_NONE)
  else if (bi_fb_width bi =? 0) || (bi_fb_height bi =? 0) || (bi_fb_phys bi =? 0) then false
  else if negb (bi_fb_format bi =? NX_FB_RGBX8888) && negb (bi_fb_format bi =? NX_FB_BGRX8888) then false
  else if bi_fb_pitch bi <? u64 (bi_fb_width bi * 4) then false
  else if (bi_fb_size bi <? u64 (bi_fb_pitch bi * bi_fb_height bi)) || negb (range_ok (bi_fb_phys bi) (bi_fb_size bi))
  then false
  else
    let ram := TYPE_BIT NX_MEM_USABLE |. TYPE_BIT NX_MEM_KERNEL_IMAGE |. TYPE_BIT NX_MEM_KERNEL_STACK
               |. TYPE_BIT NX_MEM_BOOT_INFO |. TYPE_BIT NX_MEM_BOOT_RECLAIMABLE |. TYPE_BIT NX_MEM_INITRD in
    negb (overlaps_types rg (bi_fb_phys bi) (bi_fb_size bi) ram).

(** The loop over the memory map: the error and the index it is reported for, or
    the usable bytes. *)
Fixpoint check_regions (newer : bool) (minor : Z) (prev : option nx_mem_region) (i : Z)
    (rg : list nx_mem_region) (usable : Z) : nx_bi_error * Z + Z :=
  match rg with
  | [] => inr usable
  | e :: rg' =>
      if r_length e =? 0 then inl (NX_BI_E_MMAP_EMPTY, i)
      else if negb (r_base e &. BI_PAGE_MASK =? 0) || negb (r_length e &. BI_PAGE_MASK =? 0)
      then inl (NX_BI_E_MMAP_ALIGN, i)
      else if r_length e >? UINT64_MAX - r_base e then inl (NX_BI_E_MMAP_OVERFLOW, i)
      else if (r_type e <? NX_MEM_TYPE_MIN) || (negb newer && (r_type e >? minor_max_type minor))
      then inl (NX_BI_E_MMAP_TYPE, i)
      else if negb (r_flags e =? 0) then inl (NX_BI_E_MMAP_FLAGS, i)
      else
        let go := check_regions newer minor (Some e) (i + 1) rg'
                    (if r_type e =? NX_MEM_USABLE then u64 (usable + r_length e) else usable) in
        match prev with
        | Some p =>
            if r_base e <? r_base p then inl (NX_BI_E_MMAP_ORDER, i)
            else if r_base e <? r_end p then inl (NX_BI_E_MMAP_OVERLAP, i)
            else go
        | None => go
        end
  end.

Section check.
Variable map : Z -> Z -> option (list Z).

Definition check_rsdp (bi : nx_boot_info) (rg : list nx_mem_region) : bool :=
  if bi_flags bi &. NX_BI_HAS_ACPI_RSDP =? 0 then bi_acpi_rsdp_phys bi =? 0
  else
    let p := bi_acpi_rsdp_phys bi in
    if negb (range_ok p 20) || overlaps_types rg p 20 (TYPE_BIT NX_MEM_USABLE) then false
    else
      match map p 20 with
      | None => false
      | Some v1 =>
          if negb (bool_decide (take 8 v1 = RSDP_SIG)) then false
          else if negb (checksum_ok v1) then false
          else if v1.[15] >=? 2 then
            match map p 36 with
            | None => false
            | Some v2 =>
                let length := fld 4 v2 20 in
                if (length <? 36) || (length >? 4096) || negb (range_ok p length)
                   || overlaps_types rg p length (TYPE_BIT NX_MEM_USABLE) then false
                else match map p length with
                     | None => false
                     | Some full => checksum_ok full
                     end
            end
          else true
      end.

Definition fail (e : nx_bi_error) (i : Z) : nx_bi_result := mk_result e i None [] 0.

(** Kernel image, stack, boot information and command line. *)
Definition check_ranges (c : nx_bi_check) (bi : nx_boot_info) (rg : list nx_mem_region) (mmap_bytes : Z)
    : nx_bi_error :=
  let k_end := u64 (bi_kernel_phys_base bi + bi_kernel_phys_size bi) in
  if negb (bi_kernel_phys_base bi &. BI_PAGE_MASK =? 0) || negb (bi_kernel_phys_size bi &. BI_PAGE_MASK =? 0)
     || negb (covered_by rg (bi_kernel_phys_base bi) (bi_kernel_phys_size bi) NX_MEM_KERNEL_IMAGE)
  then NX_BI_E_KERNEL_RANGE
  else if (bi_kernel_entry bi <? bi_kernel_phys_base bi) || (bi_kernel_entry bi >=? k_end)
  then NX_BI_E_KERNEL_ENTRY
  else if (negb (c_image_start c =? 0) || negb (c_image_end c =? 0)) &&
          ((c_image_start c >=? c_image_end c) || (c_image_start c <? bi_kernel_phys_base bi)
           || (c_image_end c >? k_end)) then NX_BI_E_KERNEL_SELF
  else if negb (bi_stack_phys_base bi &. BI_PAGE_MASK =? 0) || negb (bi_stack_size bi &. BI_PAGE_MASK =? 0)
     || negb (covered_by rg (bi_stack_phys_base bi) (bi_stack_size bi) NX_MEM_KERNEL_STACK)
  then NX_BI_E_STACK_RANGE
  else if negb (covered_by rg (c_bi_phys c) (bi_size bi) NX_MEM_BOOT_INFO)
     || negb (covered_by rg (bi_mmap_phys bi) mmap_bytes NX_MEM_BOOT_INFO) then NX_BI_E_BOOTINFO_RANGE
  else if (bi_cmdline_len bi >? NX_CMDLINE_MAX)
     || negb (covered_by rg (bi_cmdline_phys bi) (bi_cmdline_len bi + 1) NX_MEM_BOOT_INFO) then NX_BI_E_CMDLINE
  else
    match map (bi_cmdline_phys bi) (bi_cmdline_len bi + 1) with
    | None => NX_BI_E_CMDLINE
    | Some cl =>
        if negb (cl.[bi_cmdline_len bi] =? 0) then NX_BI_E_CMDLINE
        else if existsb (fun i => (cl.[i] <? 0x20) || (cl.[i] >? 0x7E)) (seqZ 0 (bi_cmdline_len bi))
        then NX_BI_E_CMDLINE
        else NX_BI_OK
    end.

Definition nx_bootinfo_check (c : nx_bi_check) : nx_bi_result :=
  if (c_bi_phys c =? 0) || negb (range_ok (c_bi_phys c) NX_BOOTINFO_V1_SIZE) then fail NX_BI_E_NULL 0
  else match map (c_bi_phys c) 16 with
  | None => fail NX_BI_E_NULL 0
  | Some h =>
      let hdr := dec_boot_info h in
      let newer := bi_version_minor hdr >? NX_BOOTINFO_VERSION_MINOR in
      if negb (bi_magic hdr =? NX_BOOTINFO_MAGIC) then fail NX_BI_E_MAGIC 0
      else if negb (bi_version_major hdr =? NX_BOOTINFO_VERSION_MAJOR) then fail NX_BI_E_VERSION 0
      else if (bi_size hdr >? NX_BOOTINFO_MAX_SIZE)
         || (negb newer && negb (bi_size hdr =? minor_size (bi_version_minor hdr)))
         || (newer && (bi_size hdr <? NX_BOOTINFO_V1_1_SIZE)) then fail NX_BI_E_SIZE 0
      else match map (c_bi_phys c) (bi_size hdr) with
      | None => fail NX_BI_E_NULL 0
      | Some b =>
          let bi := dec_boot_info b in
          let n := bi_mmap_count bi in
          let mmap_bytes := u64 (n * 24) in
          if negb newer && negb (bi_flags bi &. u64 (~. minor_flags (bi_version_minor bi)) =? 0)
          then fail NX_BI_E_FLAGS 0
          else if negb (bi_reserved0 bi =? 0)
             || ((bi_version_minor bi =? 0) && (negb (bi_initrd_phys bi =? 0) || negb (bi_initrd_size bi =? 0)))
          then fail NX_BI_E_RESERVED 0
          else if negb (bi_mmap_entry_size bi =? 24) then fail NX_BI_E_MMAP_ENTRY_SIZE 0
          else if (n =? 0) || (n >? NX_MMAP_MAX_ENTRIES) then fail NX_BI_E_MMAP_COUNT 0
          else if (bi_mmap_phys bi =? 0) || negb (bi_mmap_phys bi &. 7 =? 0)
             || negb (range_ok (bi_mmap_phys bi) mmap_bytes) then fail NX_BI_E_MMAP_PTR 0
          else match map (bi_mmap_phys bi) mmap_bytes with
          | None => fail NX_BI_E_MMAP_PTR 0
          | Some m =>
              let rg := dec_regions n m in
              match check_regions newer (bi_version_minor bi) None 0 rg 0 with
              | inl (e, i) => fail e i
              | inr usable =>
                  if usable =? 0 then fail NX_BI_E_MMAP_NO_USABLE 0
                  else match check_ranges c bi rg mmap_bytes with
                  | NX_BI_OK =>
                      if negb (check_rsdp bi rg) then fail NX_BI_E_RSDP 0
                      else if negb (check_framebuffer bi rg) then fail NX_BI_E_FRAMEBUFFER 0
                      else if negb (check_initrd bi rg) then fail NX_BI_E_INITRD 0
                      else mk_result NX_BI_OK 0 (Some bi) rg usable
                  | e => fail e 0
                  end
              end
          end
      end
  end.
End check.

(** ** Specification *)

Definition region_ok (newer : bool) (minor : Z) (r : nx_mem_region) : Prop :=
  region_wf r /\ NX_MEM_TYPE_MIN <= r_type r /\ (newer = false -> r_type r <= minor_max_type minor) /\
  r_flags r = 0.

Fixpoint usable_sum (rg : list nx_mem_region) : Z :=
  match rg with
  | [] => 0
  | r :: rg' => (if r_type r =? NX_MEM_USABLE then r_length r else 0) + usable_sum rg'
  end.

(** Every byte of [[start, start+len)] has type [t]. *)
Definition range_typed (rg : list nx_mem_region) (start len t : Z) : Prop :=
  forall a, start <= a < start + len -> typed rg a t.

(** No byte of [[start, start+len)] has one of the types [ts]. *)
Definition range_avoids (rg : list nx_mem_region) (start len : Z) (ts : list Z) : Prop :=
  forall a t, start <= a < start + len -> t ∈ ts -> ~ typed rg a t.

Definition region_fits (r : nx_mem_region) : Prop :=
  fits 64 (r_base r) /\ fits 64 (r_length r) /\ fits 32 (r_type r) /\ fits 32 (r_flags r).

(** [phys, phys+len) rounded up to whole pages. *)
Definition page_span (len : Z) : Z := (len + 4095) / 4096 * 4096.

Definition ram_types : list Z :=
  [NX_MEM_USABLE; NX_MEM_KERNEL_IMAGE; NX_MEM_KERNEL_STACK; NX_MEM_BOOT_INFO; NX_MEM_BOOT_RECLAIMABLE; NX_MEM_INITRD].

(** What an accepted boot information guarantees. *)
Record boot_ok (map : Z -> Z -> option (list Z)) (c : nx_bi_check) (bi : nx_boot_info)
    (rg : list nx_mem_region) (usable : Z) : Prop := {
  bo_regions : regions_sorted rg;
  bo_usable : usable = usable_sum rg /\ 0 < usable <= UINT64_MAX;
  bo_kernel : range_typed rg (bi_kernel_phys_base bi) (bi_kernel_phys_size bi) NX_MEM_KERNEL_IMAGE;
  bo_entry : bi_kernel_phys_base bi <= bi_kernel_entry bi < bi_kernel_phys_base bi + bi_kernel_phys_size bi;
  bo_self : c_image_start c <> 0 \/ c_image_end c <> 0 ->
    bi_kernel_phys_base bi <= c_image_start c < c_image_end c /\
    c_image_end c <= bi_kernel_phys_base bi + bi_kernel_phys_size bi;
  bo_stack : 0 < bi_stack_size bi /\
    range_typed rg (bi_stack_phys_base bi) (bi_stack_size bi) NX_MEM_KERNEL_STACK;
  bo_info : range_typed rg (c_bi_phys c) (bi_size bi) NX_MEM_BOOT_INFO;
  bo_mmap : range_typed rg (bi_mmap_phys bi) (24 * bi_mmap_count bi) NX_MEM_BOOT_INFO;
  bo_cmdline : range_typed rg (bi_cmdline_phys bi) (bi_cmdline_len bi + 1) NX_MEM_BOOT_INFO /\
    exists cl, map (bi_cmdline_phys bi) (bi_cmdline_len bi + 1) = Some cl /\ cl.[bi_cmdline_len bi] = 0 /\
      forall i, 0 <= i < bi_cmdline_len bi -> 0x20 <= cl.[i] <= 0x7E;
  bo_rsdp : Z.testbit (bi_flags bi) 0 = true -> range_avoids rg (bi_acpi_rsdp_phys bi) 20 [NX_MEM_USABLE];
  bo_fb : Z.testbit (bi_flags bi) 1 = true ->
    4 * bi_fb_width bi <= bi_fb_pitch bi /\ bi_fb_pitch bi * bi_fb_height bi <= bi_fb_size bi /\
    range_avoids rg (bi_fb_phys bi) (bi_fb_size bi) ram_types;
  bo_initrd : Z.testbit (bi_flags bi) 2 = true -> bi_version_minor bi <> 0 ->
    bi_initrd_phys bi mod NX_PAGE_SIZE = 0 /\ 0 < bi_initrd_size bi /\
    range_typed rg (bi_initrd_phys bi) (page_span (bi_initrd_size bi)) NX_MEM_INITRD;
}.

(** What the boot code relies on from [map]: "a pointer to [len] readable bytes". *)
Definition phys_map_ok (map : Z -> Z -> option (list Z)) : Prop :=
  forall p n b, map p n = Some b -> Z.of_nat (length b) = n /\ Forall byte_ok b.

(** ** Sample boot information for the witnesses *)

Definition sample_regions : list nx_mem_region :=
  [mk_region 0x100000 0x10000 NX_MEM_USABLE 0; mk_region 0x200000 0x1000 NX_MEM_KERNEL_IMAGE 0;
   mk_region 0x210000 0x1000 NX_MEM_KERNEL_STACK 0; mk_region 0x300000 0x1000 NX_MEM_BOOT_INFO 0].

(** A page of memory at 0x300000: version 1.0 information, the map at offset 256,
    an empty command line at offset 512. *)
Definition sample_arena : list Z :=
  le_enc 8 NX_BOOTINFO_MAGIC ++ le_enc 2 1 ++ le_enc 2 0 ++ le_enc 4 192 ++ le_enc 8 0 ++
  le_enc 8 0x300100 ++ le_enc 4 4 ++ le_enc 4 24 ++ le_enc 8 0x200000 ++ le_enc 8 0x1000 ++ le_enc 8 0x200010 ++
  le_enc 8 0x210000 ++ le_enc 8 0x1000 ++ le_enc 8 0x300200 ++ replicate 168 0 ++
  (sample_regions ≫= fun r => le_enc 8 (r_base r) ++ le_enc 8 (r_length r) ++ le_enc 4 (r_type r) ++ le_enc 4 (r_flags r)) ++
  replicate 161 0.

Definition sample_phys (p n : Z) : option (list Z) :=
  if (0x300000 <=? p) && (0 <=? n) && (p + n <=? 0x300000 + Z.of_nat (length sample_arena))
  then Some (take (Z.to_nat n) (drop (Z.to_nat (p - 0x300000)) sample_arena)) else None.

Definition sample_check : nx_bi_check := mk_check 0x300000 0 0.

(** ** Lemmas: ranges *)

Lemma range_ok_spec start len :
  0 <= start -> 0 <= len -> range_ok start len = true <-> 0 < len /\ start + len <= UINT64_MAX.
Proof.
  intros Hs Hl. unfold range_ok. rewrite andb_true_iff, negb_true_iff, Z.eqb_neq, Z.leb_le. lia.
Qed.

Lemma covered_loop_spec rg cur last type :
  regions_sorted rg -> cur < last ->
  covered_loop rg cur last type = true <-> forall a, cur <= a < last -> typed rg a type.
Proof.
  revert cur. induction rg as [|r rg IH]; intros cur Hs Hlt; cbn [covered_loop].
  { split; [done|]. intros H. destruct (H cur ltac:(lia)) as (s & Hin & _). by apply not_elem_of_nil in Hin. }
  apply regions_sorted_cons in Hs as (Hr & Hs & Hgt). rewrite region_wf_end by done.
  assert (Hbase : forall a t, typed rg a t -> r_base r + r_length r <= a).
  { intros a t (s & Hin & Ha & _). destruct (Hgt s Hin) as [_ ?]. unfold in_region in Ha. lia. }
  destruct (Z.leb_spec (r_base r + r_length r) cur) as [Hle|Hgt'].
  { rewrite IH by done. split; intros H a Ha; specialize (H a Ha); rewrite typed_cons in *; [tauto|].
    destruct H as [[Hin _]|H]; [unfold in_region in Hin; lia|done]. }
  destruct ((r_base r >? cur) || negb (r_type r =? type)) eqn:Eb.
  { split; [done|]. intros H. specialize (H cur ltac:(lia)). apply typed_cons in H as [[Hin Ht]|H].
    - rewrite Z.gtb_ltb in Eb. apply orb_true_iff in Eb as [Eb|Eb]; breflect; [unfold in_region in Hin; lia|done].
    - apply Hbase in H. lia. }
  breflect. destruct (_ >=? _) eqn:Eg; breflect.
  - split; [intros _|done]. intros a Ha. apply typed_cons. left. unfold in_region. split; [lia|done].
  - rewrite IH by (done || lia). split; intros H' a Ha.
    + apply typed_cons. destruct (Z.lt_ge_cases a (r_base r + r_length r)).
      * left. unfold in_region. split; [lia|done].
      * right. apply H'. lia.
    + specialize (H' a ltac:(lia)). apply typed_cons in H' as [[Hin _]|H']; [|done].
      unfold in_region in Hin. lia.
Qed.

(** [covered_by] decides that every byte of the range has the type. *)
Lemma covered_by_spec rg start len type :
  regions_sorted rg -> 0 <= start -> 0 <= len ->
  covered_by rg start len type = true <->
  0 < len /\ start + len <= UINT64_MAX /\ range_typed rg start len type.
Proof.
  intros Hs H1 H2. unfold covered_by. destruct (range_ok start len) eqn:E; cbn [negb].
  - apply range_ok_spec in E as [E1 E2]; [|done|done]. unfold UINT64_MAX in *.
    rewrite wrap_small by (unfold fits; lia). rewrite covered_loop_spec by (done || lia).
    unfold range_typed. naive_solver lia.
  - split; [done|]. intros (? & ? & _). rewrite (proj2 (range_ok_spec start len H1 H2)) in E by done. done.
Qed.

Lemma type_bit_mask t u : 0 <= t < 32 -> 0 <= u -> negb (TYPE_BIT t &. TYPE_BIT u =? 0) = bool_decide (t = u).
Proof.
  intros Ht Hu. unfold TYPE_BIT. rewrite (proj2 (Z.ltb_lt t 32)) by lia.
  assert (Hw : forall v, 0 <= v < 32 -> u32 (1 <<. v) = 2 ^ v).
  { intros v Hv. rewrite Z.shiftl_mul_pow2, Z.mul_1_l by lia. apply wrap_small. split; [lia|]. apply Z.pow_lt_mono_r; lia. }
  rewrite Hw by lia. destruct (Z.ltb_spec u 32).
  - rewrite (Hw u), flag_testbit, Z.pow2_bits_eqb by lia. destruct (Z.eqb_spec t u); by case_bool_decide.
  - rewrite Z.land_0_r. simpl. by case_bool_decide; [lia|].
Qed.

Lemma overlaps_types_false rg start len mask t :
  regions_sorted rg -> 0 <= start -> start + len <= UINT64_MAX -> 0 <= len ->
  overlaps_types rg start len mask = false -> negb (mask &. TYPE_BIT t =? 0) = true ->
  forall a, start <= a < start + len -> ~ typed rg a t.
Proof.
  intros Hs H1 H2 H3 Ho Hm a Ha (r & Hin & Har & Ht). unfold overlaps_types in Ho.
  rewrite wrap_small in Ho by (unfold fits, UINT64_MAX in *; lia).
  assert (Hx : existsb (fun r => negb (mask &. TYPE_BIT (r_type r) =? 0) && (r_base r <? start + len)
    && (start <? r_end r)) rg = true); [|by rewrite Ho in Hx].
  apply existsb_exists. exists r. split; [by apply list_elem_of_In|]. rewrite Ht, Hm.
  destruct Hs as [Hw _]. rewrite Forall_forall in Hw. rewrite region_wf_end by auto. unfold in_region in Har.
  rewrite !(proj2 (Z.ltb_lt _ _)) by lia. done.
Qed.

(** ** Lemmas: the memory map *)

Lemma mask_aligned x : (x &. BI_PAGE_MASK =? 0) = true <-> x mod NX_PAGE_SIZE = 0.
Proof. change BI_PAGE_MASK with (Z.ones 12). rewrite land_ones_mod by lia. apply Z.eqb_eq. Qed.

(** The checks on a single region. *)
Lemma region_checks newer minor e i (k : nx_bi_error * Z + Z) u :
  region_fits e ->
  (if r_length e =? 0 then inl (NX_BI_E_MMAP_EMPTY, i)
   else if negb (r_base e &. BI_PAGE_MASK =? 0) || negb (r_length e &. BI_PAGE_MASK =? 0)
   then inl (NX_BI_E_MMAP_ALIGN, i)
   else if r_length e >? UINT64_MAX - r_base e then inl (NX_BI_E_MMAP_OVERFLOW, i)
   else if (r_type e <? NX_MEM_TYPE_MIN) || (negb newer && (r_type e >? minor_max_type minor))
   then inl (NX_BI_E_MMAP_TYPE, i)
   else if negb (r_flags e =? 0) then inl (NX_BI_E_MMAP_FLAGS, i) else k) = inr u <->
  region_ok newer minor e /\ k = inr u.
Proof.
  intros (Hb & Hl & _). unfold region_ok, region_wf, fits in *.
  destruct (Z.eqb_spec (r_length e) 0); [split; [done|lia]|].
  destruct (negb (r_base e &. _ =? 0) || _) eqn:Ea.
  { split; [done|]. intros [((_ & _ & _ & H1 & H2) & _) _]. apply mask_aligned in H1, H2. by rewrite H1, H2 in Ea. }
  apply orb_false_iff in Ea as [E1 E2]. apply negb_false_iff, mask_aligned in E1, E2.
  rewrite Z.gtb_ltb. destruct (Z.ltb_spec (UINT64_MAX - r_base e) (r_length e)); [split; [done|lia]|].
  destruct (_ || _) eqn:Et.
  { split; [done|]. intros [(_ & H1 & H2 & _) _]. apply orb_true_iff in Et as [Et|Et]; breflect; [lia|].
    destruct newer; [done|]. specialize (H2 eq_refl). lia. }
  apply orb_false_iff in Et as [E3 E4]. apply Z.ltb_ge in E3.
  destruct (Z.eqb_spec (r_flags e) 0) as [E5|E5]; cbn [negb]; [|split; [done|tauto]].
  split; [intros ->|by intros [_ ->]]. split; [|done]. split_and!; try done; try lia.
  intros ->. simpl in E4. rewrite Z.gtb_ltb in E4. by apply Z.ltb_ge.
Qed.

Lemma usable_sum_bound rg lo :
  regions_sorted rg -> (forall r, r ∈ rg -> lo <= r_base r) -> lo <= UINT64_MAX ->
  0 <= usable_sum rg <= UINT64_MAX - lo.
Proof.
  revert lo. induction rg as [|r rg IH]; intros lo Hs Hlo Hm; cbn [usable_sum]; [lia|].
  apply regions_sorted_cons in Hs as (Hr & Hs & Hgt). pose proof Hr as (? & ? & ? & _).
  specialize (Hlo r ltac:(set_solver)) as Hr0.
  assert (0 <= usable_sum rg <= UINT64_MAX - (r_base r + r_length r)); [|destruct (_ =? _); lia].
  apply IH; [done| |lia]. intros s Hin. by apply Hgt.
Qed.

Lemma check_regions_spec newer minor prev i rg usable u :
  Forall region_fits rg -> (forall p, prev = Some p -> region_wf p) -> 0 <= usable ->
  (match prev with Some p => usable <= r_base p + r_length p | None => usable = 0 end) ->
  check_regions newer minor prev i rg usable = inr u <->
  Forall (region_ok newer minor) rg /\ regions_sorted rg /\
  (forall p r, prev = Some p -> r ∈ rg -> r_base p + r_length p <= r_base r) /\ u = usable + usable_sum rg.
Proof.
  revert prev i usable. induction rg as [|e rg IH]; intros prev i usable Hf Hp Hu Hb; cbn [check_regions usable_sum].
  { rewrite Z.add_0_r. split.
    - intros [= ->]. split_and!; [done|by split|intros p r _ Hin; by apply not_elem_of_nil in Hin|done].
    - by intros (_ & _ & _ & ->). }
  apply Forall_cons in Hf as [He Hf]. rewrite region_checks by done.
  set (usable' := if r_type e =? NX_MEM_USABLE then u64 (usable + r_length e) else usable).
  assert (Hgo : region_wf e -> (forall p, prev = Some p -> r_base p + r_length p <= r_base e) ->
    (check_regions newer minor (Some e) (i + 1) rg usable' = inr u <->
     Forall (region_ok newer minor) rg /\ regions_sorted rg /\
     (forall r, r ∈ rg -> r_base e + r_length e <= r_base r) /\
     u = usable + ((if r_type e =? NX_MEM_USABLE then r_length e else 0) + usable_sum rg))).
  { intros Hwf Hle. pose proof Hwf as (? & ? & ? & _).
    assert (Hub : usable <= r_base e) by (destruct prev as [p|]; [specialize (Hle p eq_refl); lia|lia]).
    assert (Hu' : usable' = usable + (if r_type e =? NX_MEM_USABLE then r_length e else 0)).
    { unfold usable'. destruct (_ =? _); [|lia]. apply wrap_small. unfold fits, UINT64_MAX in *. lia. }
    rewrite IH; [|done|by intros p [= <-]|rewrite Hu'; destruct (_ =? _); lia|rewrite Hu'; destruct (_ =? _); lia].
    rewrite Hu', Z.add_assoc. naive_solver. }
  rewrite !Forall_cons. split.
  - intros [Hok Hk]. pose proof Hok as (Hwf & _).
    assert (Hpe : forall p, prev = Some p -> r_base p + r_length p <= r_base e).
    { intros p ->. pose proof (Hp p eq_refl) as Hwp. rewrite region_wf_end in Hk by done.
      destruct (_ <? _) in Hk; [done|]. destruct (Z.ltb_spec (r_base e) (r_base p + r_length p)); [done|lia]. }
    assert (Hk' : check_regions newer minor (Some e) (i + 1) rg usable' = inr u).
    { destruct prev as [p|]; [|done]. destruct (_ <? _) in Hk; [done|]. by destruct (_ <? _) in Hk. }
    apply Hgo in Hk' as (H1 & H2 & H3 & ->); [|done|done].
    split_and!; try done.
    + split; [apply Forall_cons; split; [done|apply H2]|]. split; [by rewrite Forall_forall|apply H2].
    + intros p r Ep Hin. apply elem_of_cons in Hin as [->|Hin]; [by apply Hpe|].
      specialize (Hpe p Ep). specialize (H3 r Hin). destruct Hwf as (_ & ? & _). lia.
  - intros ([Hok H1] & H2 & H3 & ->). split; [done|].
    apply regions_sorted_cons in H2 as (Hwf & H2 & H4).
    assert (Hk' : check_regions newer minor (Some e) (i + 1) rg usable' =
      inr (usable + ((if r_type e =? NX_MEM_USABLE then r_length e else 0) + usable_sum rg))).
    { apply Hgo; [done|intros p Ep; apply H3; [done|set_solver]|]. split_and!; try done. intros r Hin. by apply H4. }
    destruct prev as [p|]; [|done]. pose proof (Hp p eq_refl) as Hwp. specialize (H3 p e eq_refl ltac:(set_solver)).
    rewrite region_wf_end by done. destruct Hwp as (_ & ? & _).
    by rewrite !(proj2 (Z.ltb_ge _ _)) by lia.
Qed.

Lemma fld_fits n b off : Forall byte_ok b -> 0 <= fld n b off < 2 ^ (8 * Z.of_nat n).
Proof.
  intros Hb. unfold fld. assert (Hd : Forall byte_ok (take n (drop off b))) by by apply Forall_take, Forall_drop.
  pose proof (le_dec_bound _ Hd) as Hl. split; [lia|]. eapply Z.lt_le_trans; [apply Hl|].
  apply Z.pow_le_mono_r; [lia|]. rewrite length_take. lia.
Qed.

Lemma dec_regions_fits n b : Forall byte_ok b -> Forall region_fits (dec_regions n b).
Proof.
  intros Hb. apply Forall_fmap, Forall_forall. intros i _.
  assert (Hd : Forall byte_ok (drop (Z.to_nat (i * 24)) b)) by by apply Forall_drop.
  unfold compose, region_fits, dec_region, fits. simpl r_base. simpl r_length. simpl r_type. simpl r_flags.
  pose proof (fld_fits 8 _ 0 Hd). pose proof (fld_fits 8 _ 8 Hd). pose proof (fld_fits 4 _ 16 Hd).
  pose proof (fld_fits 4 _ 20 Hd). simpl in *. tauto.
Qed.

(** ** Lemmas: the whole check *)

Definition boot_info_fits (bi : nx_boot_info) : Prop :=
  0 <= bi_size bi < 2 ^ 32 /\ 0 <= bi_mmap_phys bi < 2 ^ 64 /\ 0 <= bi_mmap_count bi < 2 ^ 32 /\
  0 <= bi_kernel_phys_base bi < 2 ^ 64 /\ 0 <= bi_kernel_phys_size bi < 2 ^ 64 /\
  0 <= bi_stack_phys_base bi < 2 ^ 64 /\ 0 <= bi_stack_size bi < 2 ^ 64 /\
  0 <= bi_cmdline_phys bi < 2 ^ 64 /\ 0 <= bi_cmdline_len bi < 2 ^ 32 /\
  0 <= bi_initrd_phys bi < 2 ^ 64 /\ 0 <= bi_initrd_size bi < 2 ^ 64 /\ 0 <= bi_acpi_rsdp_phys bi < 2 ^ 64 /\
  0 <= bi_fb_phys bi < 2 ^ 64 /\ 0 <= bi_fb_size bi < 2 ^ 64 /\ 0 <= bi_fb_width bi < 2 ^ 32 /\
  0 <= bi_fb_height bi < 2 ^ 32 /\ 0 <= bi_fb_pitch bi < 2 ^ 32.

Lemma dec_boot_info_fits b : Forall byte_ok b -> boot_info_fits (dec_boot_info b).
Proof.
  intros Hb. unfold boot_info_fits. cbn [dec_boot_info bi_size bi_mmap_phys bi_mmap_count bi_kernel_phys_base
    bi_kernel_phys_size bi_stack_phys_base bi_stack_size bi_cmdline_phys bi_cmdline_len bi_initrd_phys
    bi_initrd_size bi_acpi_rsdp_phys bi_fb_phys bi_fb_size bi_fb_width bi_fb_height bi_fb_pitch].
  split_and!; try apply (fld_fits 8 b _ Hb); apply (fld_fits 4 b _ Hb).
Qed.

Lemma flag_clear n x : 0 <= n -> (x &. (1 <<. n) =? 0) = negb (Z.testbit x n).
Proof. intros Hn. rewrite Z.shiftl_mul_pow2, Z.mul_1_l by lia. rewrite <- flag_testbit by done. by rewrite negb_involutive. Qed.

Section ranges.
Variables (bi : nx_boot_info) (rg : list nx_mem_region).
Hypothesis Hbi : boot_info_fits bi.
Hypothesis Hrg : regions_sorted rg.

Lemma check_initrd_sound :
  check_initrd bi rg = true -> Z.testbit (bi_flags bi) 2 = true -> bi_version_minor bi <> 0 ->
  bi_initrd_phys bi mod NX_PAGE_SIZE = 0 /\ 0 < bi_initrd_size bi /\
  range_typed rg (bi_initrd_phys bi) (page_span (bi_initrd_size bi)) NX_MEM_INITRD.
Proof using Hbi Hrg.
  destruct Hbi as (_ & _ & _ & _ & _ & _ & _ & _ & _ & Hp & Hs & _).
  unfold check_initrd, NX_BI_HAS_INITRD. intros H Hf Hm. rewrite flag_clear, Hf in H by lia.
  rewrite (proj2 (Z.eqb_neq _ 0) Hm) in H. cbn [orb negb] in H.
  destruct (_ || _) eqn:E; [done|]. breflect. change BI_PAGE_MASK with (Z.ones 12) in *.
  change (Z.ones 12) with 4095 in *. unfold UINT64_MAX in *.
  rewrite (wrap_small 64 (bi_initrd_size bi + 4095)) in H by (unfold fits; lia).
  change 4095 with (Z.ones 12) in H at 2. rewrite mask_down in H by (unfold fits; lia). change (2 ^ 12) with 4096 in H.
  fold (page_span (bi_initrd_size bi)) in H.
  apply covered_by_spec in H as (_ & _ & H); [|done|lia|unfold page_span; dlia].
  split; [|split; [lia|done]]. apply mask_aligned. change BI_PAGE_MASK with 4095. by apply Z.eqb_eq.
Qed.

Lemma check_framebuffer_sound :
  check_framebuffer bi rg = true -> Z.testbit (bi_flags bi) 1 = true ->
  4 * bi_fb_width bi <= bi_fb_pitch bi /\ bi_fb_pitch bi * bi_fb_height bi <= bi_fb_size bi /\
  range_avoids rg (bi_fb_phys bi) (bi_fb_size bi) ram_types.
Proof using Hbi Hrg.
  destruct Hbi as (_ & _ & _ & _ & _ & _ & _ & _ & _ & _ & _ & _ & Hp & Hs & Hw & Hh & Hpi).
  unfold check_framebuffer, NX_BI_HAS_FRAMEBUFFER. intros H Hf. rewrite flag_clear, Hf in H by lia. cbn [negb] in H.
  destruct (_ || _) eqn:E1; [done|]. destruct (_ && _) eqn:E2; [done|].
  rewrite (wrap_small 64 (bi_fb_width bi * 4)) in H by (unfold fits; lia).
  rewrite (wrap_small 64 (bi_fb_pitch bi * bi_fb_height bi)) in H by (unfold fits; nia).
  destruct (Z.ltb_spec (bi_fb_pitch bi) (bi_fb_width bi * 4)); [done|].
  destruct (_ || _) eqn:E3 in H; [done|]. apply orb_false_iff in E3 as [E3 E4]. apply Z.ltb_ge in E3.
  apply negb_false_iff, range_ok_spec in E4 as [E4 E5]; [|lia|lia].
  split; [lia|]. split; [done|]. intros a t Ha Ht. apply negb_true_iff in H.
  eapply (overlaps_types_false rg); [done| | | |exact H| |exact Ha]; [lia|done|lia|].
  unfold ram_types in Ht. repeat (apply elem_of_cons in Ht as [->|Ht]; [by vm_compute|]). by apply not_elem_of_nil in Ht.
Qed.

Lemma check_rsdp_sound map :
  check_rsdp map bi rg = true -> Z.testbit (bi_flags bi) 0 = true ->
  range_avoids rg (bi_acpi_rsdp_phys bi) 20 [NX_MEM_USABLE].
Proof using Hbi Hrg.
  destruct Hbi as (_ & _ & _ & _ & _ & _ & _ & _ & _ & _ & _ & Hp & _).
  unfold check_rsdp, NX_BI_HAS_ACPI_RSDP. intros H Hf. rewrite flag_clear, Hf in H by lia. cbn [negb] in H.
  destruct (_ || _) eqn:E1; [done|]. apply orb_false_iff in E1 as [E1 E2].
  apply negb_false_iff, range_ok_spec in E1 as [_ E1]; [|lia|lia]. intros a t Ha Ht.
  apply list_elem_of_singleton in Ht as ->.
  by apply (overlaps_types_false rg (bi_acpi_rsdp_phys bi) 20 (TYPE_BIT NX_MEM_USABLE)); try done; lia.
Qed.

Lemma aligned_guard x : negb (x &. BI_PAGE_MASK =? 0) = false -> x mod NX_PAGE_SIZE = 0.
Proof. intros H. by apply mask_aligned, negb_false_iff. Qed.

Lemma check_ranges_sound map c usable mmap_bytes :
  0 <= c_bi_phys c -> mmap_bytes = 24 * bi_mmap_count bi ->
  usable = usable_sum rg /\ 0 < usable <= UINT64_MAX ->
  check_ranges map c bi rg mmap_bytes = NX_BI_OK -> check_rsdp map bi rg = true ->
  check_framebuffer bi rg = true -> check_initrd bi rg = true -> boot_ok map c bi rg usable.
Proof using Hbi Hrg.
  intros Hc -> Hu H Hrsdp Hfb Hrd.
  pose proof Hbi as (Hsz & Hmm & Hmc & Hkb & Hks & Hsb & Hss & Hcp & Hcl & _).
  assert (Hcov : forall start len t, 0 <= start -> 0 <= len -> negb (covered_by rg start len t) = false ->
    0 < len /\ start + len <= UINT64_MAX /\ range_typed rg start len t).
  { intros start len t H1 H2 H3. apply negb_false_iff in H3. by apply covered_by_spec. }
  unfold check_ranges in H. cbv zeta in H.
  destruct (_ || _) eqn:E1 in H; [done|]. apply orb_false_iff in E1 as [E1 K1].
  apply Hcov in K1 as (K1 & K2 & K3); [|lia|lia]. rewrite wrap_small in H by (unfold fits, UINT64_MAX in *; lia).
  destruct (_ || _) eqn:E2 in H; [done|]. destruct (_ && _) eqn:E3 in H; [done|].
  destruct (_ || _) eqn:E4 in H; [done|]. apply orb_false_iff in E4 as [_ S1].
  apply Hcov in S1 as (S1 & S2 & S3); [|lia|lia].
  destruct (_ || _) eqn:E5 in H; [done|]. apply orb_false_iff in E5 as [B1 B2].
  apply Hcov in B1 as (_ & _ & B1); [|lia|lia]. apply Hcov in B2 as (_ & _ & B2); [|lia|lia].
  destruct (_ || _) eqn:E6 in H; [done|]. apply orb_false_iff in E6 as [_ C1].
  apply Hcov in C1 as (_ & _ & C1); [|lia|lia].
  destruct (map (bi_cmdline_phys bi) (bi_cmdline_len bi + 1)) as [cl|] eqn:Ecl; [|done].
  destruct (negb _) eqn:E7 in H; [done|]. apply negb_false_iff, Z.eqb_eq in E7.
  destruct (existsb _ _) eqn:E8; [done|].
  split; try done.
  - apply orb_false_iff in E2 as [E2 E2']. breflect. lia.
  - intros Himg. apply andb_false_iff in E3 as [E3|E3]; [apply orb_false_iff in E3 as [E3 E3']; breflect; tauto|].
    breflect. lia.
  - split; [done|]. exists cl. split; [done|]. split; [done|]. intros i Hi.
    destruct (decide (0x20 <= cl.[i] <= 0x7E)) as [|Hn]; [done|]. exfalso.
    assert (Hx : existsb (fun i => (cl.[i] <? 0x20) || (cl.[i] >? 0x7E)) (seqZ 0 (bi_cmdline_len bi)) = true);
      [|by rewrite E8 in Hx].
    apply existsb_exists. exists i. split; [apply list_elem_of_In, elem_of_seqZ; lia|].
    rewrite Z.gtb_ltb. apply orb_true_iff. rewrite !Z.ltb_lt. lia.
  - by apply (check_rsdp_sound map).
  - by apply check_framebuffer_sound.
  - by apply check_initrd_sound.
Qed.
End ranges.

Lemma check_regions_error newer minor prev i rg usable e j :
  check_regions newer minor prev i rg usable = inl (e, j) -> e <> NX_BI_OK.
Proof.
  revert prev i usable. induction rg as [|r rg IH]; intros prev i usable; cbn [check_regions]; [done|].
  destruct (_ =? 0); [by intros [= <- _]|]. destruct (_ || _); [by intros [= <- _]|].
  destruct (_ >? _); [by intros [= <- _]|]. destruct (_ || _); [by intros [= <- _]|].
  destruct (negb _); [by intros [= <- _]|]. destruct prev as [p|]; [|apply IH].
  destruct (_ <? _); [by intros [= <- _]|]. destruct (_ <? _); [by intros [= <- _]|]. apply IH.
Qed.

(** The next guard of the check did not fail. *)
Ltac pass_guard :=
  match goal with |- res_error (if ?b then _ else _) = _ -> _ => destruct b; [done|] end.

Lemma check_sound map c :
  phys_map_ok map -> 0 <= c_bi_phys c -> res_error (nx_bootinfo_check map c) = NX_BI_OK ->
  exists bi, res_bi (nx_bootinfo_check map c) = Some bi /\
    boot_ok map c bi (res_regions (nx_bootinfo_check map c)) (res_usable_bytes (nx_bootinfo_check map c)).
Proof.
  intros Hmap Hc. unfold nx_bootinfo_check. cbv zeta.
  pass_guard. destruct (map (c_bi_phys c) 16) as [h|]; [|done].
  do 3 pass_guard. destruct (map (c_bi_phys c) _) as [b|] eqn:Eb; [|done].
  pose proof (dec_boot_info_fits b (proj2 (Hmap _ _ _ Eb))) as Hbi. set (bi := dec_boot_info b) in *.
  do 5 pass_guard. destruct (map (bi_mmap_phys bi) _) as [m|] eqn:Emap; [|done].
  destruct (check_regions _ _ _ _ _ _) as [[e i]|usable] eqn:Er;
    [intros He; by apply check_regions_error in Er|].
  destruct (Z.eqb_spec usable 0) as [|Hnz]; [done|].
  apply check_regions_spec in Er as (_ & Hs & _ & Hu); [|apply dec_regions_fits; by eapply Hmap|done|lia|done].
  destruct (check_ranges _ _ _ _ _) eqn:Ek; try done.
  destruct (check_rsdp _ _ _) eqn:E1; [|done]. destruct (check_framebuffer _ _) eqn:E2; [|done].
  destruct (check_initrd _ _) eqn:E3; [|done]. intros _. exists bi. split; [done|]. cbn [negb res_regions res_usable_bytes].
  assert (Hn : u64 (bi_mmap_count bi * 24) = 24 * bi_mmap_count bi).
  { destruct Hbi as (_ & _ & Hmc & _). rewrite wrap_small; [lia|]. unfold fits. lia. }
  destruct (usable_sum_bound _ 0 Hs) as [U1 U2]; [intros r Hr; destruct Hs as [Hw _]; rewrite Forall_forall in Hw; by apply Hw|by vm_compute|].
  eapply check_ranges_sound; try done. lia.
Qed.

(** ** Theorems *)

(** C25: what an accepted boot information guarantees: the regions are page
    aligned, sorted and disjoint; the usable byte count is their exact sum,
    without wrap-around; the kernel image, the stack, the boot information, the
    memory map, the command line and the initramfs lie entirely in memory of
    their own type; the entry point and the running image are inside the kernel
    span; the command line is NUL terminated and printable; ACPI data does not
    overlap usable memory and the framebuffer no RAM. *)
Theorem bootinfo_check_sound map c :
  phys_map_ok map -> 0 <= c_bi_phys c -> res_error (nx_bootinfo_check map c) = NX_BI_OK ->
  exists bi, res_bi (nx_bootinfo_check map c) = Some bi /\
    boot_ok map c bi (res_regions (nx_bootinfo_check map c)) (res_usable_bytes (nx_bootinfo_check map c)).
Proof. apply check_sound. Qed.

(** The validator's coverage test, a single pass over the sorted regions,
    decides exactly whether every byte of the range has the required type. *)
Theorem covered_by_decides rg start len type :
  regions_sorted rg -> 0 <= start -> 0 <= len ->
  covered_by rg start len type = true <->
  0 < len /\ start + len <= UINT64_MAX /\ range_typed rg start len type.
Proof. apply covered_by_spec. Qed.

(** ** Witnesses *)

Lemma sample_phys_ok : phys_map_ok sample_phys.
Proof.
  intros p n b. unfold sample_phys. destruct (_ && _) eqn:E; [|done]. intros [= <-]. breflect. split.
  - rewrite length_take, length_drop. lia.
  - apply Forall_take, Forall_drop.
    assert (Hb : forallb (fun x => (0 <=? x) && (x <? 256)) sample_arena = true) by by vm_compute.
    apply Forall_forall. intros x Hx. rewrite forallb_forall in Hb. apply list_elem_of_In, Hb in Hx.
    unfold byte_ok. breflect. lia.
Qed.

Lemma bootinfo_check_sound_witness : exists bi,
  res_bi (nx_bootinfo_check sample_phys sample_check) = Some bi /\
  range_typed (res_regions (nx_bootinfo_check sample_phys sample_check)) (bi_kernel_phys_base bi)
    (bi_kernel_phys_size bi) NX_MEM_KERNEL_IMAGE.
Proof.
  assert (Hp : 0 <= c_bi_phys sample_check) by by vm_compute.
  assert (He : res_error (nx_bootinfo_check sample_phys sample_check) = NX_BI_OK) by by vm_compute.
  destruct (bootinfo_check_sound sample_phys sample_check sample_phys_ok Hp He) as (bi & Hbi & Hok).
  exists bi. split; [exact Hbi|]. exact (bo_kernel _ _ _ _ _ Hok).
Defined.

Lemma sample_regions_sorted : regions_sorted sample_regions.
Proof.
  unfold regions_sorted, sample_regions, region_wf, NX_PAGE_SIZE, UINT64_MAX. split.
  - repeat (apply Forall_cons; split); try apply Forall_nil; by vm_compute.
  - cbn [pairwise]. rewrite !Forall_cons, !Forall_nil. simpl. lia.
Qed.

Lemma covered_by_decides_witness :
  covered_by sample_regions 0x200100 0x200 NX_MEM_KERNEL_IMAGE = true /\
  range_typed sample_regions 0x200100 0x200 NX_MEM_KERNEL_IMAGE.
Proof.
  assert (H1 : 0 <= 0x200100) by lia. assert (H2 : 0 <= 0x200) by lia.
  assert (Hc : covered_by sample_regions 0x200100 0x200 NX_MEM_KERNEL_IMAGE = true) by by vm_compute.
  split; [exact Hc|].
  exact (proj2 (proj2 (proj1 (covered_by_decides sample_regions 0x200100 0x200 NX_MEM_KERNEL_IMAGE
    sample_regions_sorted H1 H2) Hc))).
Defined.
