(* ===== verification/BootSafe.v ===== *)
(** * From the firmware's memory map to the page allocator

    The parts of the boot path composed: the loader's conversion of the firmware
    map ([MmapConvert]) produces regions the kernel's validator ([BootCheck])
    accepts, and the page allocator ([Pmm]) set up from validated regions never
    hands out memory the boot information says is in use. *)
From S2P Require Import Prelude Bytes BootAbi Bitmap Pmm MmapConvert BootCheck.

(** ** Specification *)

(** The page at [phys] has no byte of [[start, start+len)]. *)
Definition page_avoids (phys start len : Z) : Prop :=
  forall a, phys <= a < phys + PAGE -> ~ (start <= a < start + len).

(** Types of the regions a sequence of calls may add. *)
Definition adds (ops : list pmm_op) (rg : list nx_mem_region) (t : Z) : Prop := PmmAddType rg t ∈ ops.

(** The calls add regions of the map [rg] only. *)
Definition adds_from (rg : list nx_mem_region) (op : pmm_op) : Prop :=
  match op with PmmAddType rg' _ => rg' = rg | _ => True end.

(** Page [i] lies in memory of a type that was added. *)
Definition page_typed (rg : list nx_mem_region) (ops : list pmm_op) (i : Z) : Prop :=
  exists t, manageable t = true /\ (t = NX_MEM_USABLE \/ adds ops rg t) /\ in_type rg t i.

(** The allocator calls of [reclaim_boot_memory] that add pages.  It then asks for each of
    their pages whether it is free, and fills it; these calls are among the later ones. *)
Definition reclaim_boot_memory (rg : list nx_mem_region) : list pmm_op :=
  [PmmAddType rg NX_MEM_BOOT_RECLAIMABLE; PmmAddType rg NX_MEM_KERNEL_STACK].

(** Every other call of the kernel takes, gives back or asks about a page; addresses are
    unsigned. *)
Definition no_add (op : pmm_op) : Prop :=
  match op with PmmAlloc => True | PmmFree phys | PmmIsFree phys => 0 <= phys | PmmAddType _ _ => False end.

(** The allocator calls of the kernel: [pre] before the loader's memory is reclaimed, [post] after. *)
Definition kernel_ops (rg : list nx_mem_region) (pre post : list pmm_op) : list pmm_op := pre ++ reclaim_boot_memory rg ++ post.

(** ** Lemmas: pages handed out *)

Lemma page_steps_pages (Q : Z -> Prop) grow s tr s' phys :
  page_steps grow s tr s' -> s.2 ⊆ s.1 -> (forall i, i ∈ s.1 -> Q i) ->
  (forall t rg i r, (PmmAddType rg t, r) ∈ tr -> grow t rg i -> Q i) ->
  (PmmAlloc, RPage phys) ∈ tr -> phys <> 0 -> exists i, phys = i * PAGE /\ Q i.
Proof.
  induction 1 as [|s op r s1 tr s2 Hs Hss IH]; intros Hsub HQ Hg Hin Hp; [by apply not_elem_of_nil in Hin|].
  assert (Hq1 : s1.2 ⊆ s1.1 /\ forall i, i ∈ s1.1 -> Q i).
  { clear IH Hss Hin. destruct Hs; simpl in *; (split; [set_solver|]); try done.
    intros i Hi. apply elem_of_union in Hi as [Hi|Hi]; [auto|].
    apply (Hg type rg i (RAdded (Z.of_nat (size new)))); [apply elem_of_cons; by left|]. set_solver. }
  apply elem_of_cons in Hin as [E|Hin].
  - injection E as <- <-. inv Hs; try done. exists i. split; [done|]. apply HQ. set_solver.
  - apply IH; [apply Hq1|apply Hq1| |done|done]. intros t rg i r' Hr. apply (Hg t rg i r'). set_solver.
Qed.

Lemma run_ops p ops op r : (op, r) ∈ (pmm_run p ops).1 -> op ∈ ops.
Proof.
  revert p. induction ops as [|o ops IH]; intros p; simpl; [set_solver|].
  destruct (pmm_exec p o) as [r' p']. specialize (IH p'). destruct (pmm_run p' ops) as [tr p''].
  simpl in *. rewrite !elem_of_cons. intros [E|Hin]; [left; by injection E|right; auto].
Qed.

Lemma page_type_avoids rg t i u start len :
  regions_sorted rg -> in_type rg t i -> range_typed rg start len u -> u <> t -> page_avoids (i * PAGE) start len.
Proof.
  intros Hs (r & Hr & Ht & Hlo & Hhi) Hu Hne a Ha Hb. apply Hne, (typed_unique rg a u t Hs); [by apply Hu|].
  exists r. split; [done|]. split; [|done]. unfold in_region, PAGE in *. lia.
Qed.

Lemma boot_pages_typed rg p storage sp sb p' ops phys :
  Forall region_wf rg -> 0 <= sp -> 0 <= sb -> sb + PAGE <= UINT64_MAX ->
  nx_pmm_init p rg storage sp sb = (NX_PMM_OK, p') ->
  Forall pmm_op_ok ops -> Forall (adds_from rg) ops ->
  (PmmAlloc, RPage phys) ∈ (pmm_run p' ops).1 -> phys <> 0 ->
  exists i, phys = i * PAGE /\ page_typed rg ops i.
Proof.
  intros Hrg H1 H2 H3 Hi Hok Hfrom Hin Hp. pose proof (init_cases p rg storage sp sb Hrg H1 H2 H3) as Hc.
  cbv zeta in Hc. rewrite Hi in Hc. destruct Hc as (Hwf & Hmf & _ & Hu).
  pose proof (run_refines p' ops Hwf Hok) as Hr.
  assert (Hadd : forall t rg' r, (PmmAddType rg' t, r) ∈ (pmm_run p' ops).1 -> rg' = rg /\ adds ops rg t).
  { intros t rg' r Hx. apply run_ops in Hx. rewrite Forall_forall in Hfrom. pose proof (Hfrom _ Hx) as E.
    simpl in E. subst rg'. done. }
  destruct (pmm_run p' ops) as [tr p'']. destruct Hr as [_ Hs]. simpl in *.
  apply (page_steps_pages (page_typed rg ops) _ _ _ _ phys Hs); [apply free_subset_managed| | |done|done].
  - intros i Hi'. simpl in Hi'. rewrite Hmf in Hi'. apply Hu in Hi' as [Hi' _].
    exists NX_MEM_USABLE. split; [done|]. split; [by left|done].
  - intros t rg' i r Hr (Hm & Ht & _). apply Hadd in Hr as [-> Hr]. exists t. auto.
Qed.

(** ** Lemmas: the loader's map *)

Definition no_flags (r : nx_mem_region) : Prop := r_flags r = 0.

Lemma merge_flags rs rest rs' :
  Forall no_flags rs -> Forall no_flags rest -> merge rs rest = Some rs' -> Forall no_flags rs'.
Proof.
  revert rs. induction rest as [|r rest IH]; intros rs Hs Hr; cbn [merge]; [by intros [= <-]|].
  apply Forall_cons in Hr as [Hr0 Hr].
  assert (Happ : Forall no_flags (rs ++ [r])) by (apply Forall_app; split; [done|by apply Forall_singleton]).
  destruct (last rs) as [p|] eqn:El; [|by apply IH].
  destruct (_ <? _); [done|]. destruct (_ && _); [|by apply IH]. apply IH; [|done].
  apply last_Some in El as [rs0 ->]. rewrite removelast_last. apply Forall_app in Hs as [Hs Hp].
  rewrite Forall_singleton in Hp. apply Forall_app. split; [done|]. by apply Forall_singleton.
Qed.

Lemma collect_flags fuel map n d off cap out e out' :
  Forall no_flags out -> collect fuel map n d off cap out = Some (e, out') -> Forall no_flags out'.
Proof.
  revert off out. induction fuel as [|fuel IH]; intros off out Ho; cbn [collect]; [done|].
  match goal with |- (if ?b then _ else _) = _ -> _ => destruct b end; [|by intros [= _ <-]]. destruct (read_desc map off) as [x|]; [|done]. cbn [mbind option_bind].
  destruct (_ =? 0); [by apply IH|]. destruct (negb _); [by intros [= _ <-]|].
  destruct (_ >? _); [by intros [= _ <-]|]. destruct (_ =? cap); [by intros [= _ <-]|].
  apply IH, Forall_app. split; [done|]. by apply Forall_singleton.
Qed.

Lemma convert_flags map desc_size cap rs :
  nx_mmap_from_uefi map desc_size cap = Some (NX_MMAP_OK, rs) -> Forall no_flags rs.
Proof.
  unfold nx_mmap_from_uefi. destruct (_ <? _); [done|].
  destruct (collect _ _ _ _ _ _ _) as [[e out]|] eqn:Ec; [|done]. cbn [mbind option_bind].
  destruct e; try done. apply collect_flags in Ec; [|done]. destruct (_ =? 0); [done|].
  destruct (sort_spec out) as [Hp _].
  pose proof (coalesce_merge [] [] (sort_regions out) (sort_regions out) 0 0 eq_refl eq_refl eq_refl) as Hc.
  rewrite (Permutation_length Hp) in Hc. destruct (coalesce _ _ _ _) as [[e out'] m]. destruct e; try done.
  intros [= <-]. apply (merge_flags [] (sort_regions out)); [done|by rewrite Hp|exact Hc].
Qed.

Lemma translate_range t : NX_MEM_TYPE_MIN <= nx_mmap_translate_type t <= NX_MEM_TYPE_MAX.
Proof.
  unfold nx_mmap_translate_type. repeat (destruct (_ || _); [by vm_compute|]).
  repeat (case_match; [by vm_compute|]). by vm_compute.
Qed.

(** ** Theorems *)

(** Every region map the loader's conversion produces passes the kernel's
    validation of the map, for the current minor version, and the usable bytes
    the kernel counts are the exact sum of the usable regions. *)
Theorem loader_map_accepted map desc_size cap rs :
  Forall byte_ok map -> Z.of_nat (length map) < 2 ^ 64 -> EFI_DESC_SIZE <= desc_size < 2 ^ 64 -> 0 <= cap ->
  nx_mmap_from_uefi map desc_size cap = Some (NX_MMAP_OK, rs) ->
  check_regions false NX_BOOTINFO_VERSION_MINOR None 0 rs 0 = inr (usable_sum rs).
Proof.
  intros Hb Hl Hd Hc E. pose proof (convert_flags _ _ _ _ E) as Hf.
  destruct (convert_cases map desc_size cap Hb Hl Hd Hc) as (ds & e & rs' & _ & E' & _ & H).
  rewrite E in E'. injection E' as <- <-. destruct (H eq_refl) as [[Hs _] Ht].
  assert (Hty : forall r, r ∈ rs -> NX_MEM_TYPE_MIN <= r_type r <= NX_MEM_TYPE_MAX).
  { intros r Hr. destruct (proj1 (Ht (r_base r) (r_type r))) as (d & _ & _ & <-); [|apply translate_range].
    exists r. destruct Hs as [Hw _]. rewrite Forall_forall in Hw. destruct (Hw r Hr) as (_ & ? & _).
    split; [done|]. split; [unfold in_region; lia|done]. }
  pose proof Hs as [Hw _]. rewrite Forall_forall in Hw, Hf.
  apply check_regions_spec; [|done|lia|done|].
  - apply Forall_forall. intros r Hr. specialize (Hw r Hr) as (? & ? & ? & _). specialize (Hty r Hr).
    unfold NX_MEM_TYPE_MIN, NX_MEM_TYPE_MAX, UINT64_MAX in *. unfold region_fits, fits. rewrite (Hf r Hr). lia.
  - split; [|split; [done|split; [done|lia]]]. apply Forall_forall. intros r Hr.
    specialize (Hty r Hr). split; [auto|]. split; [lia|]. split; [intros _; apply Hty|by apply Hf].
Qed.

(** The general case: pages avoid every range whose type was not added. *)
Lemma boot_pages_avoid map c p storage sp sb p' ops phys bi :
  phys_map_ok map -> 0 <= c_bi_phys c -> res_error (nx_bootinfo_check map c) = NX_BI_OK ->
  res_bi (nx_bootinfo_check map c) = Some bi ->
  let rg := res_regions (nx_bootinfo_check map c) in
  0 <= sp -> 0 <= sb -> sb + PAGE <= UINT64_MAX ->
  nx_pmm_init p rg storage sp sb = (NX_PMM_OK, p') ->
  Forall pmm_op_ok ops -> Forall (adds_from rg) ops ->
  (PmmAlloc, RPage phys) ∈ (pmm_run p' ops).1 -> phys <> 0 ->
  page_avoids phys (bi_kernel_phys_base bi) (bi_kernel_phys_size bi) /\
  page_avoids phys (c_bi_phys c) (bi_size bi) /\
  page_avoids phys (bi_mmap_phys bi) (24 * bi_mmap_count bi) /\
  page_avoids phys (bi_cmdline_phys bi) (bi_cmdline_len bi + 1) /\
  (~ adds ops rg NX_MEM_KERNEL_STACK -> page_avoids phys (bi_stack_phys_base bi) (bi_stack_size bi)) /\
  (~ adds ops rg NX_MEM_INITRD -> Z.testbit (bi_flags bi) 2 = true -> bi_version_minor bi <> 0 ->
    page_avoids phys (bi_initrd_phys bi) (page_span (bi_initrd_size bi))).
Proof.
  intros Hmap Hc He Hbi rg H1 H2 H3 Hi Hok Hfrom Hin Hp.
  destruct (check_sound map c Hmap Hc He) as (bi' & Hbi' & Hb). rewrite Hbi in Hbi'. injection Hbi' as <-.
  fold rg in Hb. pose proof (bo_regions _ _ _ _ _ Hb) as Hs.
  destruct (boot_pages_typed rg p storage sp sb p' ops phys (proj1 Hs) H1 H2 H3 Hi Hok Hfrom Hin Hp)
    as (i & -> & t & Hm & Ht & Hin').
  assert (Hav : forall u start len, range_typed rg start len u -> u <> t -> page_avoids (i * PAGE) start len)
    by (intros u start len; by apply page_type_avoids).
  assert (Hne : forall u, manageable u = false -> u <> t) by (intros u Hu ->; by rewrite Hu in Hm).
  destruct Hb. split_and!.
  - eapply Hav; [done|by apply Hne].
  - eapply Hav; [done|by apply Hne].
  - eapply Hav; [done|by apply Hne].
  - eapply Hav; [apply bo_cmdline|by apply Hne].
  - intros Hno. eapply Hav; [apply bo_stack|]. by destruct Ht as [->|Ht]; [|intros <-].
  - intros Hno Hf Hv. eapply Hav; [by apply bo_initrd|]. by destruct Ht as [->|Ht]; [|intros <-].
Qed.

Lemma no_add_from rg ops : Forall no_add ops -> Forall (adds_from rg) ops /\ Forall pmm_op_ok ops /\ forall t, ~ adds ops rg t.
Proof.
  intros H. split; [|split].
  - eapply Forall_impl; [exact H|]. intros [] Hop; simpl in *; done || auto.
  - eapply Forall_impl; [exact H|]. intros [] Hop; simpl in *; done || auto.
  - intros t Ht. rewrite Forall_forall in H. exact (H _ Ht).
Qed.

(** C20: no memory in use is ever handed out.  With an accepted boot information and the page
    allocator set up from its regions, whatever pages the kernel takes and gives back
    before ([pre]) and after ([post]) it reclaims the memory of the firmware's boot services
    and of the loader's stack, no page it gets has a byte of the kernel image, of the boot
    information, of the memory map, of the command line or of the initramfs; and none it gets
    before the reclaiming has a byte of the loader's stack, which it still runs on at first. *)
Theorem boot_pages_safe map c p storage sp sb p' pre post phys bi :
  phys_map_ok map -> 0 <= c_bi_phys c -> res_error (nx_bootinfo_check map c) = NX_BI_OK ->
  res_bi (nx_bootinfo_check map c) = Some bi ->
  let rg := res_regions (nx_bootinfo_check map c) in
  0 <= sp -> 0 <= sb -> sb + PAGE <= UINT64_MAX ->
  nx_pmm_init p rg storage sp sb = (NX_PMM_OK, p') ->
  Forall no_add pre -> Forall no_add post -> phys <> 0 ->
  ((PmmAlloc, RPage phys) ∈ (pmm_run p' (kernel_ops rg pre post)).1 ->
    page_avoids phys (bi_kernel_phys_base bi) (bi_kernel_phys_size bi) /\
    page_avoids phys (c_bi_phys c) (bi_size bi) /\
    page_avoids phys (bi_mmap_phys bi) (24 * bi_mmap_count bi) /\
    page_avoids phys (bi_cmdline_phys bi) (bi_cmdline_len bi + 1) /\
    (Z.testbit (bi_flags bi) 2 = true -> bi_version_minor bi <> 0 ->
      page_avoids phys (bi_initrd_phys bi) (page_span (bi_initrd_size bi)))) /\
  ((PmmAlloc, RPage phys) ∈ (pmm_run p' pre).1 -> page_avoids phys (bi_stack_phys_base bi) (bi_stack_size bi)).
Proof.
  intros Hmap Hc He Hbi rg H1 H2 H3 Hi Hpre Hpost Hp.
  destruct (no_add_from rg pre Hpre) as (F1 & O1 & A1). destruct (no_add_from rg post Hpost) as (F2 & O2 & A2).
  destruct (check_sound map c Hmap Hc He) as (bi' & Hbi' & Hb). fold rg in Hb. pose proof (proj1 (bo_regions _ _ _ _ _ Hb)) as Hrg.
  split; intros Hin.
  - destruct (boot_pages_avoid map c p storage sp sb p' (kernel_ops rg pre post) phys bi Hmap Hc He Hbi H1 H2 H3 Hi) as (G1 & G2 & G3 & G4 & _ & G6); try done.
    + apply Forall_app. split; [done|]. by do 2 (apply Forall_cons; split; [done|]).
    + apply Forall_app. split; [done|]. by do 2 (apply Forall_cons; split; [done|]).
    + split_and!; try done. intros Hf Hv. apply G6; [|done|done]. unfold adds, kernel_ops, reclaim_boot_memory. rewrite !elem_of_app, !elem_of_cons.
      intros [Ha|[[Ha|[Ha|Ha%elem_of_nil]]|Ha]]; [by apply (A1 NX_MEM_INITRD)|done|done|done|by apply (A2 NX_MEM_INITRD)].
  - apply (boot_pages_avoid map c p storage sp sb p' pre phys bi Hmap Hc He Hbi H1 H2 H3 Hi); done || apply A1.
Qed.

(** ** Witnesses *)

Lemma loader_map_accepted_witness :
  check_regions false NX_BOOTINFO_VERSION_MINOR None 0
    [mk_region 0x1000 0x4000 NX_MEM_BOOT_RECLAIMABLE 0; mk_region 0x10000 0x10000 NX_MEM_USABLE 0] 0 = inr 0x10000.
Proof.
  assert (Hd : EFI_DESC_SIZE <= 40 < 2 ^ 64) by (unfold EFI_DESC_SIZE; lia). assert (Hc : 0 <= 8) by lia.
  assert (He : nx_mmap_from_uefi sample_efi_map 40 8 = Some (NX_MMAP_OK,
    [mk_region 0x1000 0x4000 NX_MEM_BOOT_RECLAIMABLE 0; mk_region 0x10000 0x10000 NX_MEM_USABLE 0])) by by vm_compute.
  exact (loader_map_accepted sample_efi_map 40 8 _ (proj1 sample_efi_map_ok) (proj2 sample_efi_map_ok) Hd Hc He).
Defined.

Lemma boot_pages_safe_witness : exists bi,
  res_bi (nx_bootinfo_check sample_phys sample_check) = Some bi /\
  page_avoids 0x101000 (bi_kernel_phys_base bi) (bi_kernel_phys_size bi) /\
  page_avoids 0x101000 (bi_stack_phys_base bi) (bi_stack_size bi).
Proof.
  assert (Hp : 0 <= c_bi_phys sample_check) by by vm_compute.
  assert (He : res_error (nx_bootinfo_check sample_phys sample_check) = NX_BI_OK) by by vm_compute.
  destruct (res_bi (nx_bootinfo_check sample_phys sample_check)) as [bi|] eqn:Ebi; [|by vm_compute in Ebi].
  assert (Hrg : res_regions (nx_bootinfo_check sample_phys sample_check) = sample_regions) by by vm_compute.
  assert (Hpre : Forall no_add [PmmAlloc]) by by repeat constructor.
  pose proof (boot_pages_safe sample_phys sample_check zero_pmm 1 0x100000 0x1000
    (nx_pmm_init zero_pmm sample_regions 1 0x100000 0x1000).2 [PmmAlloc] [PmmAlloc] 0x101000 bi sample_phys_ok Hp He Ebi) as H.
  cbv zeta in H. rewrite Hrg in H. exists bi. split; [done|].
  assert (H0 : 0 <= 0x100000) by lia. assert (H1 : 0 <= 0x1000) by lia. assert (H2 : 0x1000 + PAGE <= UINT64_MAX) by by vm_compute.
  assert (Hi : nx_pmm_init zero_pmm sample_regions 1 0x100000 0x1000 = (NX_PMM_OK, (nx_pmm_init zero_pmm sample_regions 1 0x100000 0x1000).2)) by by vm_compute.
  assert (Hn : 0x101000 <> 0) by lia. destruct (H H0 H1 H2 Hi Hpre Hpre Hn) as [Ha Hb].
  split; [apply Ha; by vm_compute; left|apply Hb; by vm_compute; left].
Defined.
