(* ===== verification/Cpio.v ===== *)
(** * The initramfs: archive writer and reader

    [tools/image/mkinitrd.py] writes a cpio "newc" archive; [kernel/initramfs.c]
    reads it.  The reader works on an untrusted buffer: every byte it reads goes
    through the checked access [rd8], so [None] is a read outside the buffer (or
    exhausted fuel).  Pointers into the archive are offsets. *)
From S2P Require Import Prelude Bytes.

(** ** Reader: data *)

Definition NX_CPIO_HEADER_SIZE : Z := 110.
Definition NX_CPIO_NAME_MAX : Z := 4096.
Definition NX_CPIO_MODE_TYPE : Z := 0xF000.
Definition NX_CPIO_MODE_DIR : Z := 0x4000.
Definition NX_CPIO_MODE_REG : Z := 0x8000.

Inductive nx_cpio_status : Set :=
| NX_CPIO_OK | NX_CPIO_END | NX_CPIO_E_TRUNCATED | NX_CPIO_E_MAGIC | NX_CPIO_E_HEX | NX_CPIO_E_NAME
| NX_CPIO_E_BOUNDS | NX_CPIO_E_TYPE | NX_CPIO_E_NO_TRAILER | NX_CPIO_E_NOT_FOUND.

(** [ce_name] and [ce_data] are offsets in the archive. *)
Record nx_cpio_entry := mk_cpio_entry {
  ce_name : Z;
  ce_name_len : Z;
  ce_mode : Z;
  ce_data : Z;
  ce_size : Z;
}.

(** "TRAILER!!!" and its NUL, "070701" *)
Definition TRAILER : list Z := [84; 82; 65; 73; 76; 69; 82; 33; 33; 33; 0].
Definition cpio_magic : list Z := [48; 55; 48; 55; 48; 49].

(** ** Reader: operations *)

(** A loop over [l] that stops at the first failed test. *)
Fixpoint all_read (f : Z -> option bool) (l : list Z) : option bool :=
  match l with
  | [] => Some true
  | i :: l' => b ← f i; if (b : bool) then all_read f l' else Some false
  end.

Definition hex_value (c : Z) : option Z :=
  if (c >=? 48) && (c <=? 57) then Some (c - 48)
  else if (c >=? 97) && (c <=? 102) then Some (c - 97 + 10)
  else if (c >=? 65) && (c <=? 70) then Some (c - 65 + 10)
  else None.

(** [n] more digits at [p], the value so far being [v]; [Some None] is the
    failure of the function. *)
Fixpoint parse_hex (n : nat) (base : list Z) (p v : Z) : option (option Z) :=
  match n with
  | O => Some (Some v)
  | S n' =>
      c ← rd8 base p;
      match hex_value c with
      | Some d => parse_hex n' base (p + 1) (u32 (v <<. 4) |. d)
      | None => Some None
      end
  end.

Definition parse_hex8 (base : list Z) (p : Z) : option (option Z) := parse_hex 8 base p 0.

Definition align4 (v : Z) : Z := u64 (v + 3) &. u64 (~. 3).

(** The comparison of [name_eq] from index [i] on, [n] characters of [a] left. *)
Fixpoint name_eq_from (base : list Z) (a : Z) (b : list Z) (i : Z) (n : nat) : option bool :=
  match n with
  | O => c ← rd8 b i; Some (c =? 0)
  | S n' =>
      c ← rd8 b i;
      if c =? 0 then Some false
      else
        x ← rd8 base (a + i);
        if negb (x =? c) then Some false else name_eq_from base a b (i + 1) n'
  end.

Definition name_eq (base : list Z) (a alen : Z) (b : list Z) : option bool :=
  name_eq_from base a b 0 (Z.to_nat alen).

(** The 13 header fields. *)
Fixpoint parse_fields (n : nat) (base : list Z) (p : Z) : option (option (list Z)) :=
  match n with
  | O => Some (Some [])
  | S n' =>
      r ← parse_hex8 base p;
      match r with
      | None => Some None
      | Some v =>
          rest ← parse_fields n' base (p + 8);
          Some (option_map (cons v) rest)
      end
  end.

(** The result, [*offset] and [*e] after the call. *)
Definition nx_cpio_next (base : list Z) (off : Z) (e : nx_cpio_entry)
    : option (nx_cpio_status * Z * nx_cpio_entry) :=
  let len := Z.of_nat (length base) in
  if (off >? len) || (len - off <? NX_CPIO_HEADER_SIZE) then Some (NX_CPIO_E_TRUNCATED, off, e)
  else
    m ← all_read (fun i => c ← rd8 base (off + i); Some (c =? cpio_magic.[i])) (seqZ 0 6);
    if negb m then Some (NX_CPIO_E_MAGIC, off, e)
    else
      r ← parse_fields 13 base (off + 6);
      match r with
      | None => Some (NX_CPIO_E_HEX, off, e)
      | Some f =>
          let mode := f !!! 1%nat in
          let filesize := f !!! 6%nat in
          let namesize := f !!! 11%nat in
          if (namesize <? 2) || (namesize >? NX_CPIO_NAME_MAX) then Some (NX_CPIO_E_NAME, off, e)
          else
            let name := u64 (off + NX_CPIO_HEADER_SIZE) in
            if u64 (len - name) <? namesize then Some (NX_CPIO_E_TRUNCATED, off, e)
            else
              z ← rd8 base (name + (namesize - 1));
              s ← rd8 base name;
              if negb (z =? 0) || (s =? 47) then Some (NX_CPIO_E_NAME, off, e)
              else
                k ← all_read (fun i => c ← rd8 base (name + i); Some (negb (c =? 0))) (seqZ 0 (namesize - 1));
                if negb k then Some (NX_CPIO_E_NAME, off, e)
                else
                  let data_off := align4 (u64 (name + namesize)) in
                  if (data_off >? len) || (len - data_off <? filesize) then Some (NX_CPIO_E_BOUNDS, off, e)
                  else
                    let e' := mk_cpio_entry name (namesize - 1) mode data_off filesize in
                    let off' := align4 (u64 (data_off + filesize)) in
                    t ← name_eq base name (namesize - 1) TRAILER;
                    let type := mode &. NX_CPIO_MODE_TYPE in
                    Some (if (t : bool) then NX_CPIO_END
                          else if negb (type =? NX_CPIO_MODE_REG) && negb (type =? NX_CPIO_MODE_DIR)
                          then NX_CPIO_E_TYPE
                          else NX_CPIO_OK, off', e')
      end.

(** The loop of [nx_cpio_validate]: status, [*entries] and [*bad_offset]. *)
Fixpoint validate_loop (fuel : nat) (base : list Z) (off entries bad : Z) (e : nx_cpio_entry)
    : option (nx_cpio_status * Z * Z) :=
  match fuel with
  | O => None
  | S fuel' =>
      if off >=? Z.of_nat (length base) then Some (NX_CPIO_E_NO_TRAILER, entries, off)
      else
        r ← nx_cpio_next base off e;
        match r with
        | (NX_CPIO_END, _, _) => Some (NX_CPIO_OK, entries, bad)
        | (NX_CPIO_OK, off', _) => validate_loop fuel' base off' (u32 (entries + 1)) bad e
        | (st, _, _) => Some (st, entries, off)
        end
  end.

(** [e0] stands for the uninitialised local entry. *)
Definition nx_cpio_validate (base : list Z) (bad : Z) (e0 : nx_cpio_entry) : option (nx_cpio_status * Z * Z) :=
  validate_loop (S (length base)) base 0 0 bad e0.

Fixpoint find_loop (fuel : nat) (base : list Z) (name : list Z) (off : Z) (e : nx_cpio_entry)
    : option (nx_cpio_status * nx_cpio_entry) :=
  match fuel with
  | O => None
  | S fuel' =>
      if off <? Z.of_nat (length base) then
        r ← nx_cpio_next base off e;
        match r with
        | (NX_CPIO_END, _, e') => Some (NX_CPIO_E_NOT_FOUND, e')
        | (NX_CPIO_OK, off', e') =>
            b ← name_eq base (ce_name e') (ce_name_len e') name;
            if (b : bool) then Some (NX_CPIO_OK, e') else find_loop fuel' base name off' e'
        | (st, _, e') => Some (st, e')
        end
      else Some (NX_CPIO_E_NOT_FOUND, e)
  end.

(** [name] is a C string: its bytes and the NUL. *)
Definition nx_cpio_find (base : list Z) (name : list Z) (e : nx_cpio_entry)
    : option (nx_cpio_status * nx_cpio_entry) := find_loop (S (length base)) base name 0 e.

(** ** Writer *)

Definition pad4 (n : Z) : Z := (4 - n mod 4) mod 4.

Definition hex_digit (d : Z) : Z := if d <? 10 then 48 + d else 55 + d.

(** [b"%08X" % f]: at least eight upper-case digits. *)
Definition fmt_08X (f : Z) : list Z :=
  (fun k => hex_digit (f / 16 ^ k mod 16)) <$> reverse (seqZ 0 (Z.max 8 (Z.log2 f / 4 + 1))).

Definition zeros (n : Z) : list Z := replicate (Z.to_nat n) 0.
Definition blen (l : list Z) : Z := Z.of_nat (length l).

Definition cpio_header (ino mode nlink mtime datalen namelen : Z) : list Z :=
  cpio_magic ++ ([ino; mode; 0; 0; nlink; mtime; datalen; 0; 0; 0; 0; namelen; 0] ≫= fmt_08X).

Definition cpio_entry (ino mode nlink mtime : Z) (name data : list Z) : list Z :=
  let encoded := name ++ [0] in
  let out := cpio_header ino mode nlink mtime (blen data) (blen encoded) ++ encoded in
  (out ++ zeros (pad4 (blen out))) ++ data ++ zeros (pad4 (blen data)).

(** An item is a path and the contents of a file, or [None] for a directory. *)
Definition cpio_item (ino mtime : Z) (it : list Z * option (list Z)) : list Z :=
  match it.2 with
  | None => cpio_entry ino 0x41ED 2 mtime it.1 []
  | Some data => cpio_entry ino 0x81A4 1 mtime it.1 data
  end.

Fixpoint cpio_items (ino mtime : Z) (items : list (list Z * option (list Z))) : list Z :=
  match items with
  | [] => []
  | it :: items' => cpio_item ino mtime it ++ cpio_items (ino + 1) mtime items'
  end.

Definition build_cpio (items : list (list Z * option (list Z))) (mtime : Z) : list Z :=
  cpio_items 1 mtime items ++ cpio_entry 0 0 1 0 (removelast TRAILER) [].

(** ** Specification *)

(** The bytes of an archive at an offset. *)
Definition slice (base : list Z) (off len : Z) : list Z := take (Z.to_nat len) (drop (Z.to_nat off) base).

(** [base] holds the bytes [l] at offset [off]. *)
Definition at_off (base : list Z) (off : Z) (l : list Z) : Prop :=
  exists pre post, base = pre ++ l ++ post /\ blen pre = off.

(** A NUL-terminated string. *)
Definition cstring (s : list Z) : list Z := s ++ [0].

(** The name and the data of the entry lie inside the archive, the name is
    terminated and has no other NUL. *)
Definition entry_in (base : list Z) (e : nx_cpio_entry) : Prop :=
  0 <= ce_name e /\ 1 <= ce_name_len e /\ ce_name e + ce_name_len e < ce_data e /\
  0 <= ce_size e /\ ce_data e + ce_size e <= blen base /\
  slice base (ce_name e) (ce_name_len e + 1) = cstring (slice base (ce_name e) (ce_name_len e)) /\
  0 ∉ slice base (ce_name e) (ce_name_len e).

(** Names the archive format can hold. *)
Definition name_ok (name : list Z) : Prop :=
  1 <= blen name < NX_CPIO_NAME_MAX /\ 0 ∉ name /\ head name <> Some 47.

Definition item_ok (it : list Z * option (list Z)) : Prop :=
  name_ok it.1 /\ it.1 <> removelast TRAILER /\
  match it.2 with Some data => blen data < 2 ^ 32 | None => True end.

(** ** Lemmas: reading at an offset *)

Lemma at_off_rd8 base off l i : at_off base off l -> 0 <= i < blen l -> rd8 base (off + i) = Some l.[i].
Proof.
  unfold blen. intros (pre & post & -> & <-) Hi. rewrite rd8_in by (rewrite !length_app; unfold blen; lia).
  f_equal. unfold blen. rewrite lookup_total_app_r by lia. rewrite lookup_total_app_l by lia. f_equal. lia.
Qed.

Lemma at_off_app base off l1 l2 : at_off base off (l1 ++ l2) -> at_off base off l1 /\ at_off base (off + blen l1) l2.
Proof.
  intros (pre & post & -> & <-). split.
  - exists pre, (l2 ++ post). by rewrite <- !(assoc_L (++)).
  - exists (pre ++ l1), post. rewrite <- !(assoc_L (++)). split; [done|]. unfold blen. rewrite length_app. lia.
Qed.

Lemma at_off_slice base off l : at_off base off l -> slice base off (blen l) = l.
Proof.
  intros (pre & post & -> & <-). unfold slice, blen. rewrite !Nat2Z.id.
  by rewrite drop_app_length, take_app_length.
Qed.

Lemma at_off_len base off l : at_off base off l -> 0 <= off /\ off + blen l <= blen base.
Proof. intros (pre & post & -> & <-). unfold blen. rewrite !length_app. lia. Qed.

Lemma slice_at base off len : 0 <= off -> 0 <= len -> off + len <= blen base -> at_off base off (slice base off len).
Proof.
  unfold blen. intros H1 H2 H3. exists (take (Z.to_nat off) base), (drop (Z.to_nat len) (drop (Z.to_nat off) base)).
  unfold slice, blen. rewrite take_drop, take_drop. split; [done|]. rewrite length_take. lia.
Qed.

Lemma blen_slice base off len : 0 <= off -> 0 <= len -> off + len <= blen base -> blen (slice base off len) = len.
Proof. unfold slice, blen. intros. rewrite length_take, length_drop. lia. Qed.

Lemma align4_spec v : 0 <= v -> v + 3 < 2 ^ 64 -> align4 v = (v + 3) / 4 * 4.
Proof.
  intros H1 H2. unfold align4. change 3 with (Z.ones 2) at 2. rewrite (wrap_small 64 (v + 3)) by (unfold fits; lia).
  apply (mask_down 64 2); [lia|]. unfold fits. lia.
Qed.

(** ** Lemmas: the loops of the reader *)

Lemma all_read_spec f g l : (forall i, i ∈ l -> f i = Some (g i)) -> all_read f l = Some (forallb g l).
Proof.
  induction l as [|i l IH]; intros H; cbn [all_read forallb]; [done|]. rewrite (H i) by set_solver.
  cbn [mbind option_bind]. destruct (g i); [|done]. apply IH. set_solver.
Qed.

Lemma name_eq_from_spec base a s0 s nm :
  0 ∉ s -> at_off base (a + blen s0) nm ->
  name_eq_from base a (s0 ++ cstring s) (blen s0) (length nm) = Some (bool_decide (nm = s)).
Proof.
  revert s0 s. induction nm as [|x nm IH]; intros s0 s Hs Hat; cbn [length name_eq_from].
  - assert (Hr : rd8 (s0 ++ cstring s) (blen s0) = Some (cstring s).[0]).
    { rewrite <- (Z.add_0_r (blen s0)). apply at_off_rd8; [|unfold cstring, blen; rewrite length_app; simpl; lia].
      exists s0, []. by rewrite app_nil_r. }
    rewrite Hr. cbn [mbind option_bind]. f_equal. destruct s as [|c s]; [done|]. simpl.
    apply Z.eqb_neq. set_solver.
  - assert (Hr : rd8 (s0 ++ cstring s) (blen s0) = Some (cstring s).[0]).
    { rewrite <- (Z.add_0_r (blen s0)). apply at_off_rd8; [|unfold cstring, blen; rewrite length_app; simpl; lia].
      exists s0, []. by rewrite app_nil_r. }
    rewrite Hr. cbn [mbind option_bind]. destruct s as [|c s]; [done|]. simpl.
    destruct (Z.eqb_spec c 0) as [->|Hc]; [set_solver|].
    rewrite <- (Z.add_0_r (a + blen s0)), (at_off_rd8 _ _ _ 0 Hat) by (unfold blen; simpl; lia). simpl.
    destruct (Z.eqb_spec x c) as [->|Hx]; simpl.
    2:{ rewrite bool_decide_eq_false_2; [done|]. by intros [= ->]. }
    specialize (IH (s0 ++ [c]) s ltac:(set_solver)).
    assert (Hb : blen (s0 ++ [c]) = blen s0 + 1) by (unfold blen; rewrite length_app; simpl; lia).
    rewrite Hb in IH. unfold cstring in *. simpl. rewrite <- (assoc_L (++) s0 [c]) in IH. simpl in IH. rewrite IH.
    + f_equal. apply bool_decide_ext. split; [by intros ->|by intros [= ->]].
    + apply (at_off_app base (a + blen s0) [c] nm) in Hat as [_ Hat]. unfold blen in *. simpl in Hat.
      by rewrite Z.add_assoc.
Qed.

Lemma name_eq_spec base a nm s :
  0 ∉ s -> at_off base a nm -> name_eq base a (blen nm) (cstring s) = Some (bool_decide (nm = s)).
Proof.
  intros Hs Hat. unfold name_eq. pose proof (name_eq_from_spec base a [] s nm Hs) as H.
  change (blen []) with 0 in H. rewrite Z.add_0_r in H. unfold blen at 1. rewrite Nat2Z.id. by apply H.
Qed.

Lemma hex_value_range c d : hex_value c = Some d -> 0 <= d < 16.
Proof.
  unfold hex_value. repeat (destruct (_ && _) eqn:E; [intros [= <-]; breflect; lia|clear E]). done.
Qed.

Lemma parse_hex_total n base p v :
  0 <= p -> p + Z.of_nat n <= blen base -> fits 32 v ->
  exists r, parse_hex n base p v = Some r /\ forall x, r = Some x -> fits 32 x.
Proof.
  revert p v. induction n as [|n IH]; intros p v H1 H2 Hv; cbn [parse_hex]; [exists (Some v); naive_solver|].
  rewrite rd8_in by (unfold blen in H2; lia). cbn [mbind option_bind].
  destruct (hex_value _) as [d|] eqn:Ed; [|by exists None]. apply hex_value_range in Ed.
  apply IH; [lia|lia|]. apply fits_lor; [lia|by apply wrap_fits|unfold fits; lia].
Qed.

Lemma parse_fields_total n base p :
  0 <= p -> p + 8 * Z.of_nat n <= blen base ->
  exists r, parse_fields n base p = Some r /\ forall f, r = Some f -> length f = n /\ Forall (fits 32) f.
Proof.
  revert p. induction n as [|n IH]; intros p H1 H2; cbn [parse_fields].
  { exists (Some []). split; [done|]. intros f [= <-]. by split. }
  destruct (parse_hex_total 8 base p 0) as (r & Hr & Hf); [lia|lia|unfold fits; lia|].
  unfold parse_hex8. rewrite Hr. cbn [mbind option_bind]. destruct r as [v|]; [|by exists None].
  destruct (IH (p + 8)) as (r' & Hr' & Hf'); [lia|lia|]. rewrite Hr'. cbn [mbind option_bind].
  exists (option_map (cons v) r'). split; [done|]. intros f. destruct r' as [f'|]; [|done]. intros [= <-].
  destruct (Hf' f' eq_refl) as [Hl Hfa]. split; [by simpl; rewrite Hl|]. apply Forall_cons. auto.
Qed.

Lemma forallb_nonzero base off n :
  0 <= off -> 0 <= n -> off + n <= blen base ->
  forallb (fun i => negb (base.[off + i] =? 0)) (seqZ 0 n) = true <-> 0 ∉ slice base off n.
Proof.
  intros H1 H2 H3. assert (Hat := slice_at base off n H1 H2 H3). rewrite forallb_seqZ.
  assert (Hi : forall i, 0 <= i < n -> base.[off + i] = (slice base off n).[i]).
  { intros i Hi. pose proof (at_off_rd8 _ _ _ i Hat) as Hr. rewrite blen_slice in Hr by lia.
    specialize (Hr Hi). by apply rd8_Some in Hr as [_ ->]. }
  split.
  - intros H Hin. apply list_elem_of_lookup in Hin as [k Hk]. pose proof (lookup_lt_Some _ _ _ Hk) as Hlt.
    pose proof (blen_slice base off n H1 H2 H3) as Hl. unfold blen in Hl.
    specialize (H (Z.of_nat k) ltac:(lia)). rewrite Hi in H by lia.
    rewrite Nat2Z.id, (list_lookup_total_correct _ _ _ Hk) in H. done.
  - intros Hn i Hr. rewrite Hi by lia. apply negb_true_iff, Z.eqb_neq. intros E. apply Hn. rewrite <- E.
    apply arr_get_elem. rewrite <- (blen_slice base off n H1 H2 H3) in Hr. unfold blen in Hr. lia.
Qed.

(** ** Lemmas: one entry *)

(** Statuses after which the entry is filled in and the offset advanced. *)
Definition filled (st : nx_cpio_status) : Prop := st = NX_CPIO_OK \/ st = NX_CPIO_END \/ st = NX_CPIO_E_TYPE.

Definition next_result (base : list Z) (off : Z) (e : nx_cpio_entry) (r : nx_cpio_status * Z * nx_cpio_entry) : Prop :=
  let '(st, off', e') := r in
  (filled st /\ off < off' /\ off' < blen base + 4 /\ entry_in base e') \/ (~ filled st /\ off' = off /\ e' = e).

Lemma next_fail base off e st : ~ filled st -> next_result base off e (st, off, e).
Proof. intros H. right. done. Qed.

Lemma next_entry base off e nm namesize mode filesize t :
  blen base + 3 < 2 ^ 64 -> 0 <= off -> off + 110 <= blen base -> 2 <= namesize <= NX_CPIO_NAME_MAX ->
  off + 110 + namesize <= blen base -> 0 <= filesize -> nm = off + 110 ->
  0 ∉ slice base nm (namesize - 1) -> base.[nm + (namesize - 1)] = 0 ->
  let data := align4 (nm + namesize) in data <= blen base -> filesize <= blen base - data ->
  filled t ->
  next_result base off e (t, align4 (data + filesize), mk_cpio_entry nm (namesize - 1) mode data filesize).
Proof.
  intros Hlen H1 H2 Hn H3 Hf -> Hz Hnul data H4 H5 Ht. left. split; [done|].
  assert (Hd : data = (off + 110 + namesize + 3) / 4 * 4) by (apply align4_spec; lia).
  assert (Hge : off + 110 + namesize <= data) by (rewrite Hd; dlia).
  rewrite align4_spec by lia. split; [dlia|]. split; [dlia|].
  unfold entry_in. cbn [ce_name ce_name_len ce_data ce_size]. split_and!; try lia; [|done].
  replace (namesize - 1 + 1) with namesize by lia.
  assert (Hat := slice_at base (off + 110) (namesize - 1) ltac:(lia) ltac:(lia) ltac:(lia)).
  unfold slice, cstring. replace (Z.to_nat namesize) with (S (Z.to_nat (namesize - 1))) by lia.
  apply take_S_r. rewrite lookup_drop. replace (Z.to_nat (off + 110) + Z.to_nat (namesize - 1))%nat
    with (Z.to_nat (off + 110 + (namesize - 1))) by lia.
  unfold blen in *. rewrite list_lookup_lookup_total_lt by lia. by rewrite Hnul.
Qed.

Lemma next_total base off e :
  blen base + 3 < 2 ^ 64 -> 0 <= off ->
  exists r, nx_cpio_next base off e = Some r /\ next_result base off e r.
Proof.
  intros Hlen Hoff. unfold nx_cpio_next. fold (blen base).
  assert (Hno : forall st, ~ filled st -> exists r, Some (st, off, e) = Some r /\ next_result base off e r)
    by (intros st Hst; eexists; split; [done|by apply next_fail]).
  destruct (_ || _) eqn:E0; [apply Hno; by intros [|[|]]|]. apply orb_false_iff in E0 as [E0 E1].
  rewrite Z.gtb_ltb in E0. apply Z.ltb_ge in E0, E1. unfold NX_CPIO_HEADER_SIZE in *.
  rewrite (all_read_spec _ (fun i => base.[off + i] =? cpio_magic.[i])).
  2:{ intros i Hi%elem_of_seqZ. by rewrite rd8_in by (unfold blen in *; lia). }
  cbn [mbind option_bind]. destruct (negb _); [apply Hno; by intros [|[|]]|].
  destruct (parse_fields_total 13 base (off + 6)) as (r & Hr & Hf); [lia|lia|]. rewrite Hr. cbn [mbind option_bind].
  destruct r as [f|]; [|apply Hno; by intros [|[|]]]. destruct (Hf f eq_refl) as [Hl Hfa].
  assert (Hfits : forall i, (i < 13)%nat -> fits 32 (f !!! i)).
  { intros i Hi. rewrite Forall_forall in Hfa. apply Hfa. apply list_elem_of_lookup_total_2. lia. }
  pose proof (Hfits 6%nat ltac:(lia)) as [Hs _]. cbv zeta.
  destruct (_ || _) eqn:E2; [apply Hno; by intros [|[|]]|]. apply orb_false_iff in E2 as [E2 E3].
  rewrite Z.gtb_ltb in E3. apply Z.ltb_ge in E2, E3. set (namesize := f !!! 11%nat) in *.
  rewrite (wrap_small 64 (off + 110)), (wrap_small 64 (blen base - (off + 110))) by (unfold fits; lia).
  destruct (Z.ltb_spec (blen base - (off + 110)) namesize) as [|E4]; [apply Hno; by intros [|[|]]|].
  rewrite !rd8_in by (unfold blen in *; lia). cbn [mbind option_bind].
  destruct (_ || _) eqn:E5; [apply Hno; by intros [|[|]]|]. apply orb_false_iff in E5 as [E5 _].
  apply negb_false_iff, Z.eqb_eq in E5.
  rewrite (all_read_spec _ (fun i => negb (base.[off + 110 + i] =? 0))).
  2:{ intros i Hi%elem_of_seqZ. by rewrite rd8_in by (unfold blen in *; lia). }
  cbn [mbind option_bind]. destruct (negb (forallb _ _)) eqn:E6; [apply Hno; by intros [|[|]]|].
  apply negb_false_iff, forallb_nonzero in E6; [|lia|lia|lia].
  rewrite (wrap_small 64 (off + 110 + namesize)) by (unfold fits; lia).
  set (data := align4 (off + 110 + namesize)).
  assert (Hd : data = (off + 110 + namesize + 3) / 4 * 4) by (apply align4_spec; lia).
  destruct (_ || _) eqn:E7; [apply Hno; by intros [|[|]]|]. apply orb_false_iff in E7 as [E7 E8].
  rewrite Z.gtb_ltb in E7. apply Z.ltb_ge in E7, E8.
  rewrite (wrap_small 64 (data + _)) by (unfold fits; rewrite Hd in *; dlia).
  assert (Hat := slice_at base (off + 110) (namesize - 1) ltac:(lia) ltac:(lia) ltac:(lia)).
  pose proof (name_eq_spec base (off + 110) _ (removelast TRAILER) ltac:(vm_compute; set_solver) Hat) as Ht.
  rewrite blen_slice in Ht by lia. change (cstring (removelast TRAILER)) with TRAILER in Ht. rewrite Ht.
  cbn [mbind option_bind]. eexists. split; [done|].
  apply next_entry; try done; try lia. unfold filled. destruct (bool_decide _); [tauto|]. destruct (_ && _); tauto.
Qed.

(** ** Lemmas: walking the archive *)

(** The entry passed in has no influence on the result. *)
Lemma next_indep base off e e0 :
  (fst <$> nx_cpio_next base off e) = (fst <$> nx_cpio_next base off e0).
Proof.
  unfold nx_cpio_next. cbv zeta. unfold mbind, option_bind.
  repeat (case_match; try done).
Qed.

Section walk.
Variable base : list Z.
Hypothesis Hlen : blen base + 3 < 2 ^ 64.

(** Fuel for the bytes left after [off]. *)
Definition enough (fuel : nat) (off : Z) : Prop := 0 <= off /\ (0 < fuel)%nat /\ blen base - off < Z.of_nat fuel.

Lemma enough_next fuel off off' : enough (S fuel) off -> off < blen base -> off < off' -> enough fuel off'.
Proof using Type. unfold enough. lia. Qed.

Lemma validate_total fuel off n bad e : enough fuel off -> is_Some (validate_loop fuel base off n bad e).
Proof using Hlen.
  revert off n. induction fuel as [|fuel IH]; intros off n He; [unfold enough in He; lia|].
  cbn [validate_loop]; fold (blen base). rewrite Z.geb_leb.
  destruct (Z.leb_spec (blen base) off) as [Hle|Hlt]; [by eauto|].
  destruct (next_total base off e Hlen (proj1 He)) as ([[st off'] e'] & -> & Hr). cbn [mbind option_bind].
  destruct st; eauto. destruct Hr as [(_ & Hlo & _)|(Hn & _)]; [|by destruct Hn; left].
  apply IH. by apply (enough_next fuel off).
Qed.

Lemma find_cases fuel off s e :
  enough fuel off -> 0 ∉ s ->
  exists st e', find_loop fuel base (cstring s) off e = Some (st, e') /\
    (st = NX_CPIO_OK -> entry_in base e' /\ slice base (ce_name e') (ce_name_len e') = s) /\
    (forall n bad e0 r, validate_loop fuel base off n bad e0 = Some r -> r.1.1 = NX_CPIO_OK ->
       st = NX_CPIO_OK \/ st = NX_CPIO_E_NOT_FOUND).
Proof using Hlen.
  intros He Hs. revert off e He. induction fuel as [|fuel IH]; intros off e He; [unfold enough in He; lia|].
  cbn [find_loop validate_loop]. fold (blen base). rewrite Z.geb_leb.
  destruct (Z.ltb_spec off (blen base)) as [Hlt|Hle]; [|exists NX_CPIO_E_NOT_FOUND, e; naive_solver].
  destruct (next_total base off e Hlen (proj1 He)) as ([[st off'] e'] & Hnx & Hr).
  assert (Hi : forall e0, fst <$> nx_cpio_next base off e0 = Some (st, off')) by (intros e0; by rewrite (next_indep _ _ e0 e), Hnx).
  rewrite (proj2 (Z.leb_gt _ _)) by lia. rewrite Hnx. cbn [mbind option_bind].
  assert (Hbad : st <> NX_CPIO_OK -> st <> NX_CPIO_END -> forall n bad e0 r,
    (r0 ← nx_cpio_next base off e0; match r0 with (NX_CPIO_END, _, _) => Some (NX_CPIO_OK, n, bad)
      | (NX_CPIO_OK, o, _) => validate_loop fuel base o (u32 (n + 1)) bad e0 | (st, _, _) => Some (st, n, off) end) = Some r ->
    r.1.1 <> NX_CPIO_OK).
  { intros H1 H2 n bad e0 r. specialize (Hi e0). destruct (nx_cpio_next base off e0) as [[[st0 o0] e1]|]; [|done].
    injection Hi as -> ->. cbn [mbind option_bind]. destruct st; try done; by intros [= <-]. }
  destruct st; try (eexists _, _; split; [done|]; split; [done|]; intros n bad e0 r Hv Hok; exfalso; by eapply Hbad).
  - destruct Hr as [(_ & Hlo & _ & Hin)|(Hn & _)]; [|by destruct Hn; left].
    destruct Hin as (I1 & I2 & I3 & I4 & I5 & I6 & I7).
    assert (Hat := slice_at base (ce_name e') (ce_name_len e') ltac:(lia) ltac:(lia) ltac:(lia)).
    pose proof (name_eq_spec base (ce_name e') _ s Hs Hat) as Hq. rewrite blen_slice in Hq by lia. rewrite Hq.
    cbn [mbind option_bind]. destruct (bool_decide_reflect (slice base (ce_name e') (ce_name_len e') = s)) as [E|E].
    { exists NX_CPIO_OK, e'. split; [done|]. split; [|auto]. intros _. unfold entry_in. tauto. }
    destruct (IH off' e' (enough_next fuel off off' He Hlt Hlo)) as (st & e2 & H1 & H2 & H3).
    exists st, e2. split; [done|]. split; [done|]. intros n bad e0 r. specialize (Hi e0).
    destruct (nx_cpio_next base off e0) as [[[st0 o0] e1]|]; [|done]. injection Hi as -> ->. cbn [mbind option_bind]. apply H3.
  - exists NX_CPIO_E_NOT_FOUND, e'. naive_solver.
Qed.
End walk.

(** ** Lemmas: reading what the writer wrote *)

Definition digits (n : nat) (f : Z) : list Z :=
  (fun k => hex_digit (f / 16 ^ k mod 16)) <$> reverse (seqZ 0 (Z.of_nat n)).

Lemma digits_S n f : digits (S n) f = hex_digit (f / 16 ^ Z.of_nat n mod 16) :: digits n f.
Proof. unfold digits. by rewrite seqZ_S, reverse_snoc. Qed.

Lemma digits_length n f : length (digits n f) = n.
Proof. unfold digits. rewrite length_fmap, length_reverse, length_seqZ. lia. Qed.

Lemma fmt_08X_digits f : 0 <= f < 2 ^ 32 -> fmt_08X f = digits 8 f.
Proof.
  intros Hf. unfold fmt_08X, digits. do 3 f_equal. apply Z.max_l.
  destruct (decide (f = 0)) as [->|]; [done|]. assert (Z.log2 f < 32) by (apply Z.log2_lt_pow2; lia).
  pose proof (Z.log2_nonneg f). dlia.
Qed.

Lemma hex_value_digit d : 0 <= d < 16 -> hex_value (hex_digit d) = Some d.
Proof.
  intros Hd. assert (d ∈ seqZ 0 16) as Hin by (apply elem_of_seqZ; lia).
  repeat (apply elem_of_cons in Hin as [->|Hin]; [by vm_compute|]). by apply not_elem_of_nil in Hin.
Qed.

Lemma parse_hex_digits n base p f :
  0 <= f < 2 ^ 32 -> (n <= 8)%nat -> at_off base p (digits n f) ->
  parse_hex n base p (f / 16 ^ Z.of_nat n) = Some (Some f).
Proof.
  intros Hf. revert p. induction n as [|n IH]; intros p Hn Hat; cbn [parse_hex]; [by rewrite Z.div_1_r|].
  rewrite digits_S in Hat. set (d := f / 16 ^ Z.of_nat n mod 16) in *.
  assert (Hd : 0 <= d < 16) by (apply Z.mod_pos_bound; lia).
  pose proof (at_off_rd8 _ _ _ 0 Hat ltac:(unfold blen; simpl; lia)) as Hr. rewrite Z.add_0_r in Hr. rewrite Hr.
  cbn [mbind option_bind]. simpl (_ !!! _). rewrite hex_value_digit by done.
  assert (Hp : 0 < 16 ^ Z.of_nat n) by (apply Z.pow_pos_nonneg; lia).
  assert (Hq : f / 16 ^ Z.of_nat (S n) = f / 16 ^ Z.of_nat n / 16).
  { rewrite Nat2Z.inj_succ, Z.pow_succ_r, Z.mul_comm by lia. by rewrite Z.div_div by lia. }
  assert (Hb : 0 <= f / 16 ^ Z.of_nat n <= f) by (split; [apply Z.div_pos; lia|apply Z.div_le_upper_bound; nia]).
  rewrite Hq. rewrite wrap_small by (unfold fits; rewrite Z.shiftl_mul_pow2 by lia; dlia).
  rewrite lor_shiftl by lia. unfold d. replace (_ * 2 ^ 4 + _) with (f / 16 ^ Z.of_nat n) by dlia.
  apply IH; [lia|]. by apply (at_off_app base p [_] (digits n f)) in Hat as [_ Hat].
Qed.

Lemma parse_hex8_fmt base p f : 0 <= f < 2 ^ 32 -> at_off base p (fmt_08X f) -> parse_hex8 base p = Some (Some f).
Proof.
  intros Hf Hat. rewrite fmt_08X_digits in Hat by done. unfold parse_hex8.
  replace 0 with (f / 16 ^ Z.of_nat 8) by (apply Z.div_small; lia). by apply parse_hex_digits.
Qed.

Lemma parse_fields_fmt fs base p :
  Forall (fits 32) fs -> at_off base p (fs ≫= fmt_08X) -> parse_fields (length fs) base p = Some (Some fs).
Proof.
  revert p. induction fs as [|f fs IH]; intros p Hf Hat; cbn [length parse_fields]; [done|].
  apply Forall_cons in Hf as [Hf Hfs]. rewrite bind_cons in Hat. apply at_off_app in Hat as [H1 H2].
  rewrite (parse_hex8_fmt base p f) by done. cbn [mbind option_bind].
  rewrite fmt_08X_digits in H2 by done. unfold blen in H2. rewrite digits_length in H2.
  by rewrite (IH (p + 8)).
Qed.

Definition hdr_fields (ino mode nlink mtime dl nl : Z) : list Z := [ino; mode; 0; 0; nlink; mtime; dl; 0; 0; 0; 0; nl; 0].

Lemma fields_length fs : Forall (fits 32) fs -> blen (fs ≫= fmt_08X) = 8 * blen fs.
Proof.
  induction 1 as [|f fs Hf Hfs IH]; [done|]. rewrite bind_cons. unfold blen in *. rewrite length_app.
  rewrite fmt_08X_digits, digits_length by done. simpl length. lia.
Qed.

Lemma align4_off off n : 0 <= off -> off mod 4 = 0 -> 0 <= n -> off + n + 3 < 2 ^ 64 -> align4 (off + n) = off + (n + pad4 n).
Proof. intros H1 H2 H3 H4. rewrite align4_spec by lia. unfold pad4. dlia. Qed.

Lemma blen_app l1 l2 : blen (l1 ++ l2) = blen l1 + blen l2.
Proof. unfold blen. rewrite length_app. lia. Qed.

Lemma blen_zeros n : 0 <= n -> blen (zeros n) = n.
Proof. intros. unfold blen, zeros. rewrite length_replicate. lia. Qed.

Lemma pad4_range n : 0 <= pad4 n < 4 /\ (n + pad4 n) mod 4 = 0.
Proof. unfold pad4. split; dlia. Qed.

Section written.
Variables (base : list Z) (off ino mode nlink mtime : Z) (name data : list Z).
Hypothesis Hlen : blen base + 3 < 2 ^ 64.
Hypothesis Hoff : off mod 4 = 0.
Hypothesis Hname : name_ok name.
Hypothesis Hfields : Forall (fits 32) (hdr_fields ino mode nlink mtime (blen data) (blen name + 1)).
Hypothesis Hat : at_off base off (cpio_entry ino mode nlink mtime name data).

(** The parts of the entry and where they lie. *)
Definition data_off : Z := off + (110 + (blen name + 1) + pad4 (110 + (blen name + 1))).
Definition entry_len : Z := 110 + (blen name + 1) + pad4 (110 + (blen name + 1)) + (blen data + pad4 (blen data)).

Lemma header_len : blen (cpio_header ino mode nlink mtime (blen data) (blen (name ++ [0]))) = 110.
Proof using Hfields.
  unfold cpio_header. rewrite (blen_app name), (blen_app cpio_magic).
  change (blen [0]) with 1. fold (hdr_fields ino mode nlink mtime (blen data) (blen name + 1)).
  by rewrite (fields_length _ Hfields).
Qed.

Lemma entry_parts :
  at_off base off cpio_magic /\ at_off base (off + 6) (hdr_fields ino mode nlink mtime (blen data) (blen name + 1) ≫= fmt_08X) /\
  at_off base (off + 110) name /\ at_off base (off + 110 + blen name) [0] /\ at_off base data_off data /\
  blen (cpio_entry ino mode nlink mtime name data) = entry_len /\ off + entry_len <= blen base /\ 0 <= off.
Proof using Hat Hfields.
  pose proof header_len as Hh. unfold cpio_entry in *. cbv zeta in *.
  set (hdr := cpio_header _ _ _ _ _ _) in *.
  assert (Ho : blen (hdr ++ name ++ [0]) = 110 + (blen name + 1)) by (rewrite !blen_app, Hh; done).
  pose proof (pad4_range (110 + (blen name + 1))) as [Hp1 _]. pose proof (pad4_range (blen data)) as [Hp2 _].
  rewrite Ho in *.
  assert (Hl : blen (((hdr ++ name ++ [0]) ++ zeros (pad4 (110 + (blen name + 1)))) ++ data ++ zeros (pad4 (blen data))) = entry_len).
  { rewrite (blen_app _ (data ++ _)), (blen_app (hdr ++ _)), (blen_app data), Ho, !blen_zeros by lia. done. }
  pose proof (at_off_len _ _ _ Hat) as Hb. rewrite Hl in Hb.
  apply at_off_app in Hat as [H1 H2]. apply at_off_app in H1 as [H1 _]. apply at_off_app in H1 as [H1 H3].
  apply at_off_app in H3 as [H3 H4]. apply at_off_app in H2 as [H2 _]. rewrite Hh in H3, H4.
  unfold hdr, cpio_header in H1. apply at_off_app in H1 as [H5 H6]. rewrite blen_app in H6.
  rewrite (blen_app (hdr ++ _)), Ho, blen_zeros in H2 by lia. change (blen [0]) with 1 in H6.
  change (blen cpio_magic) with 6 in H6. split_and!; try done; lia.
Qed.

Lemma next_written e :
  nx_cpio_next base off e =
    Some (if bool_decide (name = removelast TRAILER) then NX_CPIO_END
          else if negb (mode &. NX_CPIO_MODE_TYPE =? NX_CPIO_MODE_REG) && negb (mode &. NX_CPIO_MODE_TYPE =? NX_CPIO_MODE_DIR)
          then NX_CPIO_E_TYPE else NX_CPIO_OK,
          off + entry_len, mk_cpio_entry (off + 110) (blen name) mode data_off (blen data)).
Proof using All.
  destruct entry_parts as (Hm & Hf & Hn & Hz & Hd & _ & Hend & Ho).
  pose proof (at_off_len _ _ _ Hd) as [_ Hdl]. pose proof Hname as (Hnl & Hn0 & Hnh). unfold NX_CPIO_NAME_MAX in Hnl.
  pose proof (pad4_range (110 + (blen name + 1))) as [Hp1 Hp1']. pose proof (pad4_range (blen data)) as [Hp2 _].
  assert (0 <= blen data) by (unfold blen; lia). unfold entry_len in Hend.
  unfold nx_cpio_next. fold (blen base). unfold NX_CPIO_HEADER_SIZE, NX_CPIO_NAME_MAX. cbv zeta.
  rewrite Z.gtb_ltb, !(proj2 (Z.ltb_ge _ _)) by lia. cbn [orb].
  rewrite (all_read_spec _ (fun _ => true)).
  2:{ intros i Hi%elem_of_seqZ. rewrite (at_off_rd8 _ _ _ i Hm) by (change (blen cpio_magic) with 6; lia).
      cbn [mbind option_bind]. by rewrite Z.eqb_refl. }
  cbn [mbind option_bind forallb seqZ]. change (negb (forallb _ _)) with false. cbv iota.
  rewrite (parse_fields_fmt _ _ _ Hfields Hf : parse_fields 13 base (off + 6) = _). cbn [mbind option_bind].
  simpl (_ !!! 1%nat). simpl (_ !!! 6%nat). simpl (_ !!! 11%nat).
  rewrite Z.gtb_ltb, !(proj2 (Z.ltb_ge _ _)) by lia. cbn [orb].
  rewrite (wrap_small 64 (off + 110)), (wrap_small 64 (blen base - _)) by (unfold fits; lia).
  rewrite (proj2 (Z.ltb_ge _ _)) by lia. replace (blen name + 1 - 1) with (blen name) by lia.
  pose proof (at_off_rd8 _ _ _ 0 Hz ltac:(unfold blen; simpl; lia)) as Hz'. rewrite Z.add_0_r in Hz'. rewrite Hz'.
  pose proof (at_off_rd8 _ _ _ 0 Hn ltac:(lia)) as Hh. rewrite Z.add_0_r in Hh. rewrite Hh. cbn [mbind option_bind].
  assert (Hsl : (name.[0] =? 47) = false).
  { apply Z.eqb_neq. intros E. apply Hnh. destruct name as [|x l]; [unfold blen in Hnl; simpl in Hnl; lia|]. simpl in *. by rewrite E. }
  rewrite Hsl. simpl (negb _ || _). cbv iota.
  rewrite (all_read_spec _ (fun i => negb (name.[i] =? 0))).
  2:{ intros i Hi%elem_of_seqZ. by rewrite (at_off_rd8 _ _ _ i Hn) by lia. }
  cbn [mbind option_bind].
  assert (Hall : forallb (fun i => negb (name.[i] =? 0)) (seqZ 0 (blen name)) = true).
  { apply forallb_seqZ. intros i Hi. apply negb_true_iff, Z.eqb_neq. intros E. apply Hn0. rewrite <- E.
    apply arr_get_elem. unfold blen in Hi. lia. }
  rewrite Hall. cbn [negb]. cbv iota.
  rewrite (wrap_small 64 (off + 110 + _)) by (unfold fits; lia).
  assert (Hda : align4 (off + 110 + (blen name + 1)) = data_off).
  { rewrite <- Z.add_assoc, align4_off by lia. done. }
  rewrite Hda. rewrite Z.gtb_ltb, !(proj2 (Z.ltb_ge _ _)) by (unfold data_off in *; lia). cbn [orb].
  rewrite (wrap_small 64 (data_off + _)) by (unfold fits, data_off in *; lia).
  rewrite (align4_off data_off) by (unfold data_off in *; dlia || (unfold data_off; dlia)).
  pose proof (name_eq_spec base (off + 110) name (removelast TRAILER) ltac:(vm_compute; set_solver) Hn) as Hq.
  change (cstring (removelast TRAILER)) with TRAILER in Hq. rewrite Hq. cbn [mbind option_bind].
  unfold data_off, entry_len. do 3 f_equal. lia.
Qed.
End written.

(** What the reader reports for an item. *)
Definition entry_of (base : list Z) (it : list Z * option (list Z)) (e : nx_cpio_entry) : Prop :=
  slice base (ce_name e) (ce_name_len e) = it.1 /\ slice base (ce_data e) (ce_size e) = default [] it.2 /\
  ce_mode e &. NX_CPIO_MODE_TYPE =
    match it.2 with Some _ => NX_CPIO_MODE_REG | None => NX_CPIO_MODE_DIR end.

Section archive.
Variables (base : list Z) (mtime : Z).
Hypothesis Hlen : blen base + 3 < 2 ^ 64.
Hypothesis Hmtime : fits 32 mtime.

Lemma item_next off ino it e :
  off mod 4 = 0 -> fits 32 ino -> item_ok it -> at_off base off (cpio_item ino mtime it) ->
  exists e', nx_cpio_next base off e = Some (NX_CPIO_OK, off + blen (cpio_item ino mtime it), e') /\
    entry_of base it e' /\ entry_in base e' /\ blen (cpio_item ino mtime it) mod 4 = 0 /\ 110 <= blen (cpio_item ino mtime it).
Proof using All.
  intros Hoff Hino (Hn & Htr & Hd) Hat. pose proof Hn as (Hnl & _). unfold NX_CPIO_NAME_MAX in Hnl.
  set (data := default [] it.2). set (mode := match it.2 with Some _ => 0x81A4 | None => 0x41ED end).
  set (nlink := match it.2 with Some _ => 1 | None => 2 end).
  assert (E : cpio_item ino mtime it = cpio_entry ino mode nlink mtime it.1 data)
    by (unfold cpio_item, data, mode, nlink; by destruct it.2).
  assert (Hf : Forall (fits 32) (hdr_fields ino mode nlink mtime (blen data) (blen it.1 + 1))).
  { assert (fits 32 mode /\ fits 32 nlink /\ fits 32 (blen data)) as (? & ? & ?).
    { unfold mode, nlink, data, fits. destruct it.2 as [d|]; simpl; split_and!; try lia; unfold blen; simpl; lia. }
    unfold hdr_fields. repeat (apply Forall_cons; split); try done; unfold fits; lia. }
  rewrite E in *. destruct (entry_parts base off ino mode nlink mtime it.1 data Hf Hat) as (_ & _ & Hnm & _ & Hda & Hl & _ & _).
  rewrite (next_written base off ino mode nlink mtime it.1 data) by done. rewrite Hl.
  pose proof (pad4_range (110 + (blen it.1 + 1))) as [Hp1 Hp1']. pose proof (pad4_range (blen data)) as [Hp2 Hp2'].
  rewrite bool_decide_eq_false_2 by done. eexists. split; [|split; [|split; [|split]]].
  - do 3 f_equal. unfold mode. by destruct it.2.
  - unfold entry_of. cbn [ce_name ce_name_len ce_data ce_size ce_mode]. rewrite !at_off_slice by done.
    split; [done|]. split; [done|]. unfold mode. by destruct it.2.
  - destruct (next_total base off e Hlen) as (r & Hr & Hres); [apply at_off_len in Hat; lia|].
    rewrite (next_written base off ino mode nlink mtime it.1 data), bool_decide_eq_false_2 in Hr by done.
    injection Hr as <-. destruct Hres as [(_ & _ & _ & Hin)|(Hnf & _)]; [exact Hin|].
    exfalso. apply Hnf. unfold filled, mode. destruct it.2; by left.
  - unfold entry_len. rewrite Z.add_mod, Hp1', Hp2' by lia. done.
  - unfold entry_len. assert (0 <= blen data) by (unfold blen; lia). lia.
Qed.

Definition trailer : list Z := cpio_entry 0 0 1 0 (removelast TRAILER) [].

Lemma trailer_next off e :
  off mod 4 = 0 -> at_off base off trailer -> off < blen base /\
  exists off' e', nx_cpio_next base off e = Some (NX_CPIO_END, off', e').
Proof using All.
  intros Hoff Hat. split; [apply at_off_len in Hat; change (blen trailer) with 124 in Hat; lia|].
  eexists _, _. rewrite (next_written base off 0 0 1 0 (removelast TRAILER) []); [done|done|done| | |done].
  - split; [by vm_compute|]. split; [vm_compute; set_solver|done].
  - repeat (apply Forall_cons; split); try apply Forall_nil; unfold fits; by vm_compute.
Qed.

(** Stepping over the first item. *)
Lemma items_step off ino it items e :
  off mod 4 = 0 -> 1 <= ino -> ino + Z.of_nat (length (it :: items)) <= 2 ^ 32 -> item_ok it ->
  at_off base off (cpio_items ino mtime (it :: items) ++ trailer) ->
  exists off' e', nx_cpio_next base off e = Some (NX_CPIO_OK, off', e') /\ entry_of base it e' /\ entry_in base e' /\
    off < blen base /\ off < off' /\ off' mod 4 = 0 /\ at_off base off' (cpio_items (ino + 1) mtime items ++ trailer).
Proof using All.
  intros Ho Hi Hn Hit Hat. cbn [cpio_items length] in *. rewrite <- (assoc_L (++)) in Hat. apply at_off_app in Hat as [H1 H2].
  destruct (item_next off ino it e Ho) as (e' & Hx & He & Hin & Hm & Hl); [unfold fits; lia|done|done|].
  eexists _, e'. split; [exact Hx|]. split; [done|]. split; [done|]. apply at_off_len in H1.
  split; [lia|]. split; [lia|]. split; [|done]. by rewrite Z.add_mod, Ho, Hm by lia.
Qed.

Lemma validate_written items fuel off ino n bad e :
  enough base fuel off -> off mod 4 = 0 -> 1 <= ino -> ino + Z.of_nat (length items) <= 2 ^ 32 ->
  0 <= n -> n + Z.of_nat (length items) < 2 ^ 32 ->
  Forall item_ok items -> at_off base off (cpio_items ino mtime items ++ trailer) ->
  validate_loop fuel base off n bad e = Some (NX_CPIO_OK, n + Z.of_nat (length items), bad).
Proof using All.
  revert fuel off ino n. induction items as [|it items IH]; intros fuel off ino n Hf Ho Hi Hi2 Hn Hn2 Hit Hat;
    (destruct fuel as [|fuel]; [unfold enough in Hf; lia|]); cbn [validate_loop]; fold (blen base); rewrite Z.geb_leb.
  - destruct (trailer_next off e Ho Hat) as (Hlt & o & e' & Hx). rewrite (proj2 (Z.leb_gt _ _)) by lia. rewrite Hx.
    cbn [mbind option_bind length]. by rewrite Z.add_0_r.
  - apply Forall_cons in Hit as [Hit Hits].
    destruct (items_step off ino it items e Ho Hi Hi2 Hit Hat) as (o & e' & Hx & _ & _ & Hlt & Hgt & Hm & Hat').
    rewrite (proj2 (Z.leb_gt _ _)) by lia. rewrite Hx. cbn [mbind option_bind length] in *.
    rewrite wrap_small by (unfold fits; lia).
    rewrite (IH fuel o (ino + 1)); try done; try lia; [|by apply (enough_next base fuel off)]. do 3 f_equal. lia.
Qed.

Lemma find_written items fuel off ino s e :
  enough base fuel off -> off mod 4 = 0 -> 1 <= ino -> ino + Z.of_nat (length items) <= 2 ^ 32 -> 0 ∉ s ->
  Forall item_ok items -> at_off base off (cpio_items ino mtime items ++ trailer) ->
  exists st e', find_loop fuel base (cstring s) off e = Some (st, e') /\
    match find_first (fun it => bool_decide (it.1 = s)) items with
    | Some it => st = NX_CPIO_OK /\ entry_of base it e' /\ entry_in base e'
    | None => st = NX_CPIO_E_NOT_FOUND
    end.
Proof using All.
  revert fuel off ino e. induction items as [|it items IH]; intros fuel off ino e Hf Ho Hi Hi2 Hs Hit Hat;
    (destruct fuel as [|fuel]; [unfold enough in Hf; lia|]); cbn [find_loop find_first]; fold (blen base).
  - destruct (trailer_next off e Ho Hat) as (Hlt & o & e' & Hx). rewrite (proj2 (Z.ltb_lt _ _)) by lia. rewrite Hx.
    cbn [mbind option_bind]. eauto.
  - apply Forall_cons in Hit as [Hit Hits].
    destruct (items_step off ino it items e Ho Hi Hi2 Hit Hat) as (o & e' & Hx & He & Hin & Hlt & Hgt & Hm & Hat').
    rewrite (proj2 (Z.ltb_lt _ _)) by lia. rewrite Hx. cbn [mbind option_bind length] in *.
    pose proof Hin as (I1 & I2 & I3 & I4 & I5 & _).
    assert (Ha := slice_at base (ce_name e') (ce_name_len e') ltac:(lia) ltac:(lia) ltac:(lia)).
    pose proof (name_eq_spec base (ce_name e') _ s Hs Ha) as Hq. rewrite blen_slice in Hq by lia. rewrite Hq.
    cbn [mbind option_bind]. destruct He as (He1 & He). rewrite He1.
    destruct (decide (it.1 = s)); [rewrite !bool_decide_eq_true_2 by done|rewrite !bool_decide_eq_false_2 by done].
    + exists NX_CPIO_OK, e'. split; [done|]. split; [done|]. split; [by split|done].
    + apply (IH fuel o (ino + 1)); try done; try lia. by apply (enough_next base fuel off).
Qed.
End archive.

Lemma start_ok base items mtime : base = build_cpio items mtime ->
  enough base (S (length base)) 0 /\ at_off base 0 (cpio_items 1 mtime items ++ trailer).
Proof. intros ->. split; [unfold enough, blen; lia|]. exists [], []. by rewrite app_nil_r. Qed.

(** ** Theorems *)

(** On any buffer, however malformed, the archive walk terminates without
    reading outside the buffer; an entry found has its name and its data inside
    the buffer and exactly the name asked for; and a search in an archive that
    was validated either finds the entry or reports that there is none. *)
Theorem cpio_reads_in_bounds base s bad e0 e :
  blen base + 3 < 2 ^ 64 -> 0 ∉ s ->
  exists v st e', nx_cpio_validate base bad e0 = Some v /\ nx_cpio_find base (cstring s) e = Some (st, e') /\
    (st = NX_CPIO_OK -> entry_in base e' /\ slice base (ce_name e') (ce_name_len e') = s) /\
    (v.1.1 = NX_CPIO_OK -> st = NX_CPIO_OK \/ st = NX_CPIO_E_NOT_FOUND).
Proof.
  intros Hlen Hs. assert (He : enough base (S (length base)) 0) by (unfold enough, blen; lia).
  destruct (validate_total base Hlen _ 0 0 bad e0 He) as [v Hv].
  destruct (find_cases base Hlen _ 0 s e He Hs) as (st & e' & H1 & H2 & H3).
  exists v, st, e'. split; [exact Hv|]. split; [exact H1|]. split; [exact H2|]. by apply (H3 0 bad e0).
Qed.

(** C26: round trip between the build tool and the kernel: an archive written by
    mkinitrd validates with the number of items as entry count, and looking up a
    path gives the first item of that path with its exact contents and kind, or
    reports that there is none. *)
Theorem initramfs_roundtrip items mtime s bad e0 e :
  let a := build_cpio items mtime in
  Forall item_ok items -> fits 32 mtime -> Z.of_nat (length items) < 2 ^ 32 -> blen a + 3 < 2 ^ 64 -> 0 ∉ s ->
  nx_cpio_validate a bad e0 = Some (NX_CPIO_OK, Z.of_nat (length items), bad) /\
  exists st e', nx_cpio_find a (cstring s) e = Some (st, e') /\
    match find_first (fun it => bool_decide (it.1 = s)) items with
    | Some it => st = NX_CPIO_OK /\ entry_of a it e' /\ entry_in a e'
    | None => st = NX_CPIO_E_NOT_FOUND
    end.
Proof.
  intros a Hit Hm Hn Hlen Hs. destruct (start_ok a items mtime eq_refl) as [He Hat]. split.
  - apply (validate_written a mtime Hlen Hm items _ 0 1 0); try done; lia.
  - apply (find_written a mtime Hlen Hm items _ 0 1); try done; lia.
Qed.

(** The header of the reader says that on an error the offset points at the
    bad header; for an entry that is neither a file nor a directory the offset
    has already been advanced past the entry. *)
Theorem cpio_type_error_advances : exists base off',
  nx_cpio_next base 0 (mk_cpio_entry 0 0 0 0 0) = Some (NX_CPIO_E_TYPE, off', mk_cpio_entry 110 1 0xA1FF 112 0) /\ off' = 112.
Proof. exists (cpio_entry 1 0xA1FF 1 0 [97] []), 112. split; [by vm_compute|done]. Qed.

(** ** Witnesses *)

(** "etc" and "etc/a" with two bytes. *)
Definition sample_items : list (list Z * option (list Z)) :=
  [([101; 116; 99], None); ([101; 116; 99; 47; 97], Some [1; 2])].

Lemma sample_items_ok : Forall item_ok sample_items.
Proof.
  unfold sample_items. repeat (apply Forall_cons_2; [|]); [| |apply Forall_nil_2].
  - split; [split; [by vm_compute|split; [set_solver|done]]|split; done].
  - split; [split; [by vm_compute|split; [set_solver|done]]|split; done].
Qed.

Lemma cpio_reads_in_bounds_witness :
  nx_cpio_find (build_cpio sample_items 0) (cstring [101; 116; 99; 47; 97]) (mk_cpio_entry 0 0 0 0 0) =
    Some (NX_CPIO_OK, mk_cpio_entry 226 5 0x81A4 232 2) /\
  entry_in (build_cpio sample_items 0) (mk_cpio_entry 226 5 0x81A4 232 2).
Proof.
  destruct (cpio_reads_in_bounds (build_cpio sample_items 0) [101; 116; 99; 47; 97] 0 (mk_cpio_entry 0 0 0 0 0)
    (mk_cpio_entry 0 0 0 0 0)) as (v & st & e' & _ & Hf & Hin & _); [by vm_compute|set_solver|].
  assert (E : nx_cpio_find (build_cpio sample_items 0) (cstring [101; 116; 99; 47; 97]) (mk_cpio_entry 0 0 0 0 0) =
    Some (NX_CPIO_OK, mk_cpio_entry 226 5 0x81A4 232 2)) by by vm_compute.
  split; [exact E|]. rewrite E in Hf. injection Hf as <- <-. by apply Hin.
Defined.

Lemma initramfs_roundtrip_witness : exists e',
  nx_cpio_find (build_cpio sample_items 7) (cstring [101; 116; 99; 47; 97]) (mk_cpio_entry 0 0 0 0 0) = Some (NX_CPIO_OK, e') /\
  slice (build_cpio sample_items 7) (ce_data e') (ce_size e') = [1; 2].
Proof.
  destruct (initramfs_roundtrip sample_items 7 [101; 116; 99; 47; 97] 0 (mk_cpio_entry 0 0 0 0 0) (mk_cpio_entry 0 0 0 0 0))
    as (_ & st & e' & Hf & H); [exact sample_items_ok|unfold fits; lia|by vm_compute|by vm_compute|set_solver|].
  simpl in H. destruct H as (-> & (_ & Hd & _) & _). exists e'. split; [exact Hf|exact Hd].
Defined.
