(* ===== verification/Pt.v ===== *)
(** * Page tables

    [kernel/mm/pt.c]: the x86-64 4-level page-table builder.  Page-table pages are
    obtained, released and accessed only through the callbacks of
    [struct nx_pt_env]: the allocator callbacks are the class [PtEnv]; the pages
    themselves are the map [pt_mem] from a page and an index to the 64-bit entry,
    and a pointer to a table is the physical address of its page. *)
From S2P Require Import Prelude BootAbi Bitmap Pmm.

(** ** Data *)

Definition NX_PTE_P : Z := 1 <<. 0.
Definition NX_PTE_W : Z := 1 <<. 1.
Definition NX_PTE_U : Z := 1 <<. 2.
Definition NX_PTE_PWT : Z := 1 <<. 3.
Definition NX_PTE_PCD : Z := 1 <<. 4.
Definition NX_PTE_PS : Z := 1 <<. 7.
Definition NX_PTE_G : Z := 1 <<. 8.
Definition NX_PTE_OWNED : Z := 1 <<. 9.
Definition NX_PTE_NX : Z := 1 <<. 63.
Definition NX_PTE_ADDR : Z := 0x000FFFFFFFFFF000.
Definition NX_PT_LEAF_FLAGS : Z :=
  NX_PTE_W |. NX_PTE_U |. NX_PTE_PWT |. NX_PTE_PCD |. NX_PTE_G |. NX_PTE_OWNED |. NX_PTE_NX.

Definition NX_PAGE_4K : Z := 0x1000.
Definition NX_PAGE_2M : Z := 0x200000.
Definition NX_PAGE_1G : Z := 0x40000000.
Definition NX_PHYS_MAX : Z := 1 <<. 52.
Definition ENTRIES : Z := 512.

Inductive nx_pt_status : Set :=
| NX_PT_OK | NX_PT_E_ALIGN | NX_PT_E_NONCANONICAL | NX_PT_E_EXISTS | NX_PT_E_NOMEM
| NX_PT_E_NOT_MAPPED | NX_PT_E_FLAGS | NX_PT_E_SIZE | NX_PT_E_RANGE.

#[global] Instance nx_pt_status_dec : EqDecision nx_pt_status.
Proof. solve_decision. Defined.

(** The callbacks [alloc] and [free], acting on the state of the allocator. *)
Class PtEnv (A : Type) := {
  pt_alloc : A -> Z * A;
  pt_free : A -> Z -> A;
}.

(** Page-aligned physical addresses. *)
Definition page_aligned (p : Z) : Prop := 0 <= p < NX_PHYS_MAX /\ p mod NX_PAGE_4K = 0.

(** What [pt.h] says of them: [alloc] returns the address of a free page or 0.
    [pt_used a p]: page [p] is handed out. *)
Class PtEnvLaws A `{!PtEnv A} := {
  pt_inv : A -> Prop;
  pt_used : A -> Z -> Prop;
  pt_alloc_ok : forall a p a', pt_inv a -> pt_alloc a = (p, a') ->
    pt_inv a' /\ (forall q, pt_used a' q <-> pt_used a q \/ (p <> 0 /\ q = p)) /\
    (p <> 0 -> page_aligned p /\ ~ pt_used a p);
}.

Record pt_state (A : Type) := mk_pt { pt_ctx : A; pt_mem : gmap (Z * Z) Z }.
Arguments mk_pt {A} _ _.
Arguments pt_ctx {A} _.
Arguments pt_mem {A} _.

(** Entry [i] of the table in page [t]. *)
Definition pte (m : gmap (Z * Z) Z) (t i : Z) : Z := default 0 (m !! (t, i)).

(** ** Operations *)

Definition index_of (va : Z) (level : nat) : Z :=
  u32 (va >>. (12 + 9 * Z.of_nat level)) &. (ENTRIES - 1).

Definition nx_pt_is_canonical (va : Z) : bool :=
  let top := va >>. 47 in (top =? 0) || (top =? 0x1FFFF).

Definition present (e : Z) : bool := negb (e &. NX_PTE_P =? 0).
Definition large (e : Z) : bool := negb (e &. NX_PTE_PS =? 0).
Definition entry_addr (e : Z) : Z := e &. NX_PTE_ADDR.

Section env.
Context {A : Type} `{!PtEnv A}.

(** [t[i] = 0] for every entry: an entry that is not in the map reads as zero. *)
Definition zero_table (m : gmap (Z * Z) Z) (p : Z) : gmap (Z * Z) Z :=
  filter (fun x => ~ (x.1.1 = p /\ 0 <= x.1.2 < ENTRIES)) m.

Definition new_table (s : pt_state A) : (nx_pt_status + Z) * pt_state A :=
  let r := pt_alloc (pt_ctx s) in
  if (r.1 =? 0) || negb (r.1 &. (NX_PAGE_4K - 1) =? 0) then (inl NX_PT_E_NOMEM, mk_pt r.2 (pt_mem s))
  else (inr r.1, mk_pt r.2 (zero_table (pt_mem s) r.1)).

Definition nx_pt_new_root (s : pt_state A) : (nx_pt_status + Z) * pt_state A := new_table s.

Definition set_pte (s : pt_state A) (t i e : Z) : pt_state A := mk_pt (pt_ctx s) (<[(t, i) := e]> (pt_mem s)).

(** The loop of [walk_create] with [n] levels to go. *)
Fixpoint walk_loop (n level : nat) (va user t : Z) (s : pt_state A) : (nx_pt_status + Z) * pt_state A :=
  match n with
  | O => (inr t, s)
  | S n' =>
      let i := index_of va (level + n) in
      let e := pte (pt_mem s) t i in
      if present e then
        if large e then (inl NX_PT_E_EXISTS, s)
        else walk_loop n' level va user (entry_addr (e |. user)) (set_pte s t i (e |. user))
      else
        match new_table s with
        | (inl st, s') => (inl st, s')
        | (inr p, s') =>
            let e' := p |. NX_PTE_P |. NX_PTE_W |. user in
            walk_loop n' level va user (entry_addr e') (set_pte s' t i e')
        end
  end.

Definition walk_create (root va : Z) (level : nat) (user : Z) (s : pt_state A)
    : (nx_pt_status + Z) * pt_state A := walk_loop (3 - level) level va user root s.

Definition nx_pt_map (root va pa size flags : Z) (s : pt_state A) : nx_pt_status * pt_state A :=
  if negb (size =? NX_PAGE_4K) && negb (size =? NX_PAGE_2M) then (NX_PT_E_SIZE, s)
  else if negb ((va |. pa) &. (size - 1) =? 0) then (NX_PT_E_ALIGN, s)
  else if negb (nx_pt_is_canonical va) then (NX_PT_E_NONCANONICAL, s)
  else if pa >=? NX_PHYS_MAX then (NX_PT_E_RANGE, s)
  else if negb (flags &. u64 (~. NX_PT_LEAF_FLAGS) =? 0) then (NX_PT_E_FLAGS, s)
  else
    let level := if size =? NX_PAGE_2M then 1%nat else 0%nat in
    match walk_create root va level (flags &. NX_PTE_U) s with
    | (inl st, s') => (st, s')
    | (inr t, s') =>
        let i := index_of va level in
        if present (pte (pt_mem s') t i) then (NX_PT_E_EXISTS, s')
        else (NX_PT_OK, set_pte s' t i (pa |. flags |. NX_PTE_P |. (if (level =? 1)%nat then NX_PTE_PS else 0)))
    end.

(** The loop of [nx_pt_map_range]; [None] is exhausted fuel. *)
Fixpoint map_range_loop (fuel : nat) (root va pa len flags : Z) (allow_2m : bool) (s : pt_state A)
    : option (nx_pt_status * pt_state A) :=
  if len =? 0 then Some (NX_PT_OK, s)
  else
    match fuel with
    | O => None
    | S fuel' =>
        let size := if allow_2m && ((va |. pa) &. (NX_PAGE_2M - 1) =? 0) && (len >=? NX_PAGE_2M)
                    then NX_PAGE_2M else NX_PAGE_4K in
        match nx_pt_map root va pa size flags s with
        | (NX_PT_OK, s') =>
            map_range_loop fuel' root (u64 (va + size)) (u64 (pa + size)) (u64 (len - size)) flags allow_2m s'
        | (st, s') => Some (st, s')
        end
    end.

Definition nx_pt_map_range (root va pa len flags : Z) (allow_2m : bool) (s : pt_state A)
    : option (nx_pt_status * pt_state A) :=
  if negb ((va |. pa |. len) &. (NX_PAGE_4K - 1) =? 0) then Some (NX_PT_E_ALIGN, s)
  else if negb (len =? 0) && ((va >? UINT64_MAX - len) || (pa >? UINT64_MAX - len)) then Some (NX_PT_E_RANGE, s)
  else map_range_loop (Z.to_nat (len / NX_PAGE_4K)) root va pa len flags allow_2m s.

(** The loop of [find_leaf] at level [l]: the entry (table and index) and the size. *)
Fixpoint find_loop (l : nat) (m : gmap (Z * Z) Z) (t va : Z) : nx_pt_status + (Z * Z * Z) :=
  let i := index_of va l in
  let e := pte m t i in
  if negb (present e) then inl NX_PT_E_NOT_MAPPED
  else
    match l with
    | O => inr (t, i, NX_PAGE_4K)
    | S l' =>
        if large e && ((l =? 1)%nat || (l =? 2)%nat) then inr (t, i, if (l =? 1)%nat then NX_PAGE_2M else NX_PAGE_1G)
        else find_loop l' m (entry_addr e) va
    end.

Definition find_leaf (root va : Z) (s : pt_state A) : nx_pt_status + (Z * Z * Z) :=
  if negb (nx_pt_is_canonical va) then inl NX_PT_E_NONCANONICAL else find_loop 3 (pt_mem s) root va.

(** Physical base and size of the leaf removed. *)
Definition nx_pt_unmap (root va : Z) (s : pt_state A) : (nx_pt_status + Z * Z) * pt_state A :=
  match find_leaf root va s with
  | inl st => (inl st, s)
  | inr (t, i, size) =>
      (inr (pte (pt_mem s) t i &. NX_PTE_ADDR &. u64 (~. (size - 1)), size), set_pte s t i 0)
  end.

(** Physical address, flags and size. *)
Definition nx_pt_query (root va : Z) (s : pt_state A) : nx_pt_status + Z * Z * Z :=
  match find_leaf root va s with
  | inl st => inl st
  | inr (t, i, size) =>
      let e := pte (pt_mem s) t i in
      let base := e &. NX_PTE_ADDR &. u64 (~. (size - 1)) in
      inr (u64 (base + (va &. (size - 1))), e &. u64 (~. NX_PTE_ADDR), size)
  end.

(** The teardown: [leaf] is the callback for every mapped leaf. *)
Variable leaf : A -> Z -> Z -> Z -> A.

Definition destroy_pt (m : gmap (Z * Z) Z) (pt : Z) (a : A) : A :=
  for_each (seqZ 0 ENTRIES)
    (fun a l => let e := pte m pt l in
       if present e then leaf a (entry_addr e) (e &. u64 (~. NX_PTE_ADDR)) NX_PAGE_4K else a) a.

Definition destroy_pd (m : gmap (Z * Z) Z) (pd : Z) (a : A) : A :=
  for_each (seqZ 0 ENTRIES)
    (fun a k => let e2 := pte m pd k in
       if negb (present e2) then a
       else if large e2 then
         leaf a (e2 &. NX_PTE_ADDR &. u64 (~. (NX_PAGE_2M - 1))) (e2 &. u64 (~. NX_PTE_ADDR)) NX_PAGE_2M
       else pt_free (destroy_pt m (entry_addr e2) a) (entry_addr e2)) a.

Definition destroy_pdpt (m : gmap (Z * Z) Z) (pdpt : Z) (a : A) : A :=
  for_each (seqZ 0 ENTRIES)
    (fun a j => let e3 := pte m pdpt j in
       if negb (present e3) then a
       else if large e3 then
         leaf a (e3 &. NX_PTE_ADDR &. u64 (~. (NX_PAGE_1G - 1))) (e3 &. u64 (~. NX_PTE_ADDR)) NX_PAGE_1G
       else pt_free (destroy_pd m (entry_addr e3) a) (entry_addr e3)) a.

Definition nx_pt_destroy_slots (root first last : Z) (s : pt_state A) : pt_state A :=
  for_each (seqZ first (Z.min (last + 1) ENTRIES - first))
    (fun s i => let e := pte (pt_mem s) root i in
       if negb (present e) then s
       else
         let a := destroy_pdpt (pt_mem s) (entry_addr e) (pt_ctx s) in
         set_pte (mk_pt (pt_free a (entry_addr e)) (pt_mem s)) root i 0) s.
End env.

(** ** Specification *)

(** Bytes a level-[l] entry covers, and the page number of [va] at level [l]: the
    indices of levels 3 down to [l]. *)
Definition level_size (l : nat) : Z := 2 ^ (12 + 9 * Z.of_nat l).
Definition vkey (va : Z) (l : nat) : Z := (va / level_size l) mod 2 ^ (9 * (4 - Z.of_nat l)).

(** An entry that refers to a table of the next level. *)
Definition link (e : Z) : Prop := present e = true /\ large e = false.

(** [T] gives every table page its level and the page number its entries extend:
    the tables form a tree with the root at level 3. *)
Record pt_wf (T : gmap Z (nat * Z)) (m : gmap (Z * Z) Z) (root : Z) : Prop := {
  wf_root : T !! root = Some (3%nat, 0);
  wf_level : forall t l k, T !! t = Some (l, k) -> (l <= 3)%nat /\ (l = 3%nat -> t = root);
  wf_entry : forall t l k i, T !! t = Some (l, k) -> 0 <= i < ENTRIES -> present (pte m t i) = true ->
    (l = 3%nat -> large (pte m t i) = false) /\
    (forall l', l = S l' -> large (pte m t i) = false -> T !! entry_addr (pte m t i) = Some (l', k * 512 + i));
  wf_parent : forall t l k, T !! t = Some (l, k) -> t <> root ->
    exists tp, T !! tp = Some (S l, k / 512) /\ link (pte m tp (k mod 512)) /\ entry_addr (pte m tp (k mod 512)) = t;
}.

(** The leaf entry that maps [va], with its size. *)
Definition leaf_from (l : nat) (m : gmap (Z * Z) Z) (t va : Z) : option (Z * Z) :=
  match find_loop l m t va with inr (t', i, size) => Some (pte m t' i, size) | inl _ => None end.

Lemma level_size_pos l : 4096 <= level_size l.
Proof. unfold level_size. change 4096 with (2 ^ 12). apply Z.pow_le_mono_r; lia. Qed.

Lemma level_mask l : level_size l - 1 = Z.ones (12 + 9 * Z.of_nat l).
Proof. unfold level_size. rewrite Z.ones_equiv. lia. Qed.

(** ** Lemmas: entries *)

Lemma present_testbit e : present e = Z.testbit e 0.
Proof. apply (flag_testbit e 0). lia. Qed.

Lemma large_testbit e : large e = Z.testbit e 7.
Proof. apply (flag_testbit e 7). lia. Qed.

Lemma addr_testbit e i : 0 <= i -> Z.testbit (entry_addr e) i = Z.testbit e i && (12 <=? i) && (i <? 52).
Proof.
  intros Hi. unfold entry_addr. rewrite Z.land_spec.
  assert (Ha : Z.testbit NX_PTE_ADDR i = (12 <=? i) && (i <? 52)).
  { change NX_PTE_ADDR with (Z.ones 40 <<. 12). destruct (Z.leb_spec 12 i).
    - rewrite Z.shiftl_spec by lia. rewrite Z.testbit_ones by lia.
      destruct (Z.leb_spec 0 (i - 12)), (Z.ltb_spec (i - 12) 40), (Z.ltb_spec i 52); try done; lia.
    - by rewrite Z.shiftl_spec_low by lia. }
  rewrite Ha. by rewrite andb_assoc.
Qed.

(** A value that is 0 or a single low flag. *)
Definition user_flag (u : Z) : Prop := u = 0 \/ u = NX_PTE_U.

Lemma user_flag_land f : user_flag (f &. NX_PTE_U).
Proof.
  unfold user_flag. change NX_PTE_U with (2 ^ 2). rewrite land_pow2 by lia. destruct (Z.testbit f 2); [by right|by left].
Qed.

Lemma user_flag_testbit u i : user_flag u -> i <> 2 -> Z.testbit u i = false.
Proof.
  intros [->| ->] Hi; [apply Z.bits_0|]. change NX_PTE_U with (2 ^ 2). rewrite Z.pow2_bits_eqb by lia.
  apply Z.eqb_neq. lia.
Qed.

Lemma entry_or_user e u : user_flag u ->
  present (e |. u) = present e /\ large (e |. u) = large e /\ entry_addr (e |. u) = entry_addr e.
Proof.
  intros Hu. rewrite !present_testbit, !large_testbit, !Z.lor_spec, !(user_flag_testbit u) by (done || lia).
  rewrite !orb_false_r. split; [done|]. split; [done|]. apply Z.bits_inj'. intros i Hi.
  rewrite !addr_testbit, Z.lor_spec by done. destruct (decide (i = 2)) as [->|]; [by rewrite !andb_false_r|].
  by rewrite (user_flag_testbit u i), orb_false_r by done.
Qed.

Lemma aligned_low p i : page_aligned p -> 0 <= i < 12 -> Z.testbit p i = false.
Proof.
  intros [_ Ha] Hi. rewrite <- (Z.mod_pow2_bits_low p 12 i) by lia. change (2 ^ 12) with NX_PAGE_4K. rewrite Ha. apply Z.bits_0.
Qed.

(** An address combined with flag bits outside the address field. *)
Lemma addr_lor p f : page_aligned p -> (forall i, 12 <= i < 52 -> Z.testbit f i = false) -> entry_addr (p |. f) = p.
Proof.
  intros Hp Hf. apply Z.bits_inj'. intros i Hi. rewrite addr_testbit, Z.lor_spec by done.
  destruct (Z.leb_spec 12 i), (Z.ltb_spec i 52); rewrite ?andb_true_r, ?andb_false_r.
  - by rewrite Hf, orb_false_r by lia.
  - symmetry. apply (testbit_high 52); [apply Hp|lia].
  - symmetry. apply aligned_low; [done|lia].
  - lia.
Qed.

Lemma link_entry p u : page_aligned p -> user_flag u ->
  link (p |. NX_PTE_P |. NX_PTE_W |. u) /\ entry_addr (p |. NX_PTE_P |. NX_PTE_W |. u) = p.
Proof.
  intros Hp Hu. unfold link. destruct (entry_or_user (p |. NX_PTE_P |. NX_PTE_W) u Hu) as (-> & -> & ->).
  rewrite <- Z.lor_assoc. change (NX_PTE_P |. NX_PTE_W) with 3.
  rewrite present_testbit, large_testbit, !Z.lor_spec, (aligned_low p 7) by (done || lia).
  split; [split; [apply orb_true_r|done]|]. apply addr_lor; [done|]. intros i Hi.
  apply (testbit_high 2); [unfold fits; lia|lia].
Qed.

Lemma not_present_zero : present 0 = false.
Proof. done. Qed.

Lemma land_lnot_wrap w x m : 0 <= w -> fits w x -> x &. wrap w (~. m) = x &. ~. m.
Proof.
  intros Hw Hx. apply Z.bits_inj'. intros i Hi. rewrite !Z.land_spec. unfold wrap.
  destruct (Z.ltb_spec i w); [by rewrite Z.mod_pow2_bits_low by lia|]. by rewrite !(testbit_high w x) by (done || lia).
Qed.

(** Permitted leaf flags have no bit in the address field, nor P nor PS. *)
Lemma leaf_flags_bits f i : fits 64 f -> f &. u64 (~. NX_PT_LEAF_FLAGS) = 0 ->
  12 <= i < 63 \/ i = 0 \/ i = 7 -> Z.testbit f i = false.
Proof.
  intros Hf H Hi. rewrite land_lnot_wrap in H by (done || lia).
  destruct (Z.testbit f i) eqn:E; [|done]. apply (ldiff_subset f _ H) in E. revert E.
  change NX_PT_LEAF_FLAGS with (0x31E |. 2 ^ 63). rewrite Z.lor_spec, Z.pow2_bits_eqb by lia.
  destruct Hi as [Hi|[->| ->]]; [|done|done]. rewrite (testbit_high 12 0x31E) by (unfold fits; lia).
  rewrite (proj2 (Z.eqb_neq 63 i)) by lia. done.
Qed.

Definition ps_bit (l : nat) : Z := if (l =? 1)%nat then NX_PTE_PS else 0.

Lemma leaf_entry pa flags l :
  (l <= 1)%nat -> 0 <= pa < 2 ^ 52 -> pa mod level_size l = 0 -> fits 64 flags ->
  flags &. u64 (~. NX_PT_LEAF_FLAGS) = 0 ->
  let e := pa |. flags |. NX_PTE_P |. ps_bit l in
  present e = true /\ large e = (l =? 1)%nat /\ fits 64 e /\
  e &. NX_PTE_ADDR &. u64 (~. (level_size l - 1)) = pa /\ e &. u64 (~. NX_PTE_ADDR) = flags |. NX_PTE_P |. ps_bit l.
Proof.
  intros Hl Hpa Hal Hf Hfl e.
  assert (Hpal : page_aligned pa).
  { split; [done|]. unfold level_size in Hal. destruct l as [|[|]]; [exact Hal| |lia].
    change (2 ^ (12 + 9 * Z.of_nat 1)) with (4096 * 512) in Hal. unfold NX_PAGE_4K. dlia. }
  assert (Hps : ps_bit l = 0 \/ ps_bit l = 2 ^ 7) by (unfold ps_bit; destruct (_ =? _)%nat; [by right|by left]).
  assert (Hfb := leaf_flags_bits flags). set (g := flags |. NX_PTE_P |. ps_bit l).
  assert (Eg : e = pa |. g) by (unfold e, g; by rewrite !Z.lor_assoc).
  assert (Hg : forall i, 12 <= i < 52 -> Z.testbit g i = false).
  { intros i Hi. unfold g. rewrite !Z.lor_spec, Hfb by (done || lia). change NX_PTE_P with (2 ^ 0). rewrite Z.pow2_bits_eqb by lia.
    rewrite (proj2 (Z.eqb_neq 0 i)) by lia. destruct Hps as [->| ->]; [by rewrite Z.bits_0|].
    rewrite Z.pow2_bits_eqb by lia. by rewrite (proj2 (Z.eqb_neq 7 i)) by lia. }
  assert (Hfe : fits 64 e).
  { unfold e. repeat apply fits_lor; try lia; [unfold fits; lia|done|unfold fits; by vm_compute|].
    destruct Hps as [->| ->]; unfold fits; lia. }
  assert (Hn : Z.testbit flags 7 = false) by (apply Hfb; (done || lia)).
  split_and!; [| |done| |].
  - rewrite present_testbit, Eg. unfold g. rewrite !Z.lor_spec. change (Z.testbit NX_PTE_P 0) with true. by rewrite !orb_true_r.
  - rewrite large_testbit, Eg. unfold g. rewrite !Z.lor_spec, (aligned_low pa 7), Hn by (done || lia).
    unfold ps_bit. by destruct (l =? 1)%nat.
  - fold (entry_addr e). rewrite Eg, addr_lor by done. rewrite level_mask, mask_down by (unfold fits; lia).
    fold (level_size l). pose proof (level_size_pos l). rewrite Z.mul_comm. symmetry. apply Z.div_exact; [lia|done].
  - rewrite land_lnot_wrap by (done || lia). apply Z.bits_inj'. intros i Hi. rewrite Z.land_spec, Z.lnot_spec, Eg, Z.lor_spec by done.
    change NX_PTE_ADDR with (entry_addr (Z.ones 64)). rewrite addr_testbit by done.
    destruct (Z.leb_spec 12 i), (Z.ltb_spec i 52); rewrite ?andb_false_r, ?andb_true_r; cbn [negb andb].
    + rewrite Hg by lia. rewrite Z.testbit_ones by lia. rewrite (proj2 (Z.leb_le 0 i)), (proj2 (Z.ltb_lt i 64)) by lia. by rewrite andb_false_r.
    + by rewrite (testbit_high 52 pa), ?andb_true_r by (unfold fits; lia).
    + by rewrite (aligned_low pa i), ?andb_true_r by (done || lia).
    + lia.
Qed.

(** ** Lemmas: virtual addresses *)

Lemma index_of_spec va l : (l <= 3)%nat -> 0 <= va -> index_of va l = (va / level_size l) mod 512.
Proof.
  intros Hl Hva. unfold index_of, level_size, ENTRIES. change (512 - 1) with (Z.ones 9).
  rewrite land_ones_mod by lia. rewrite Z.shiftr_div_pow2 by lia. unfold wrap.
  change (2 ^ 32) with (2 ^ 9 * 2 ^ 23). rewrite Z.rem_mul_r by lia. change (2 ^ 9) with 512.
  by rewrite (Z.mul_comm 512), Z_mod_plus_full, Z.mod_mod by lia.
Qed.

Lemma index_range va l : (l <= 3)%nat -> 0 <= va -> 0 <= index_of va l < ENTRIES.
Proof. intros. rewrite index_of_spec by done. apply Z.mod_pos_bound. unfold ENTRIES. lia. Qed.

Lemma vkey_step va l : (l <= 3)%nat -> 0 <= va -> vkey va l = vkey va (S l) * 512 + index_of va l.
Proof.
  intros Hl Hva. rewrite index_of_spec by done. unfold vkey, level_size.
  replace (2 ^ (9 * (4 - Z.of_nat l))) with (512 * 2 ^ (9 * (4 - Z.of_nat (S l)))).
  2:{ change 512 with (2 ^ 9). rewrite <- Z.pow_add_r by lia. f_equal. lia. }
  rewrite Z.rem_mul_r by (try lia; apply Z.pow_pos_nonneg; lia). rewrite Z.add_comm. f_equal.
  rewrite Z.mul_comm. f_equal. rewrite Z.div_div by (try lia; apply Z.pow_pos_nonneg; lia). f_equal. f_equal.
  change 512 with (2 ^ 9). rewrite <- Z.pow_add_r by lia. f_equal. lia.
Qed.

Lemma vkey_root va : vkey va 4 = 0.
Proof. unfold vkey. change (2 ^ (9 * (4 - Z.of_nat 4))) with 1. apply Z.mod_1_r. Qed.

Lemma vkey_same va va' l :
  (l <= 2)%nat -> fits 64 va -> fits 64 va' -> nx_pt_is_canonical va = true -> nx_pt_is_canonical va' = true ->
  vkey va' l = vkey va l <-> va' / level_size l = va / level_size l.
Proof.
  unfold nx_pt_is_canonical, fits. rewrite !Z.shiftr_div_pow2 by lia. rewrite !orb_true_iff, !Z.eqb_eq.
  intros Hl H1 H2 H3 H4. split; [|by unfold vkey; intros ->]. unfold vkey, level_size.
  destruct l as [|[|[|]]]; [| | |lia]; cbn [Z.of_nat Pos.of_succ_nat Pos.succ]; dlia.
Qed.

(** ** Lemmas: walking the tree *)

Lemma pte_insert m t i e t' i' :
  pte (<[(t, i) := e]> m) t' i' = if decide (t' = t /\ i' = i) then e else pte m t' i'.
Proof.
  unfold pte. destruct (decide _) as [[-> ->]|Hn]; [by rewrite lookup_insert_eq|].
  rewrite lookup_insert_ne; [done|]. intros [= -> ->]. by apply Hn.
Qed.

Lemma pte_zero m p t i :
  pte (zero_table m p) t i = if decide (t = p /\ 0 <= i < ENTRIES) then 0 else pte m t i.
Proof.
  unfold pte, zero_table. destruct (decide (t = p /\ 0 <= i < ENTRIES)) as [Hx|Hx].
  - rewrite map_lookup_filter_None_2; [done|]. right. intros x _. simpl. tauto.
  - destruct (m !! (t, i)) as [x|] eqn:E; [|by rewrite map_lookup_filter_None_2 by (by left)].
    by rewrite (map_lookup_filter_Some_2 _ _ _ x).
Qed.

Section tree.
Variables (T : gmap Z (nat * Z)) (m : gmap (Z * Z) Z) (root : Z).
Hypothesis Hwf : pt_wf T m root.

(** The table in which the walk for [va] looks up the level-[l] entry. *)
Definition on_walk (t : Z) (l : nat) (va : Z) : Prop := T !! t = Some (l, vkey va (S l)).

Lemma root_on_walk va : on_walk root 3 va.
Proof using Hwf. unfold on_walk. rewrite vkey_root. apply (wf_root _ _ _ Hwf). Qed.

Lemma walk_next t l va :
  on_walk t (S l) va -> 0 <= va -> link (pte m t (index_of va (S l))) ->
  on_walk (entry_addr (pte m t (index_of va (S l)))) l va.
Proof using Hwf.
  intros Ht Hva [Hp Hl]. unfold on_walk in *. pose proof (wf_level _ _ _ Hwf _ _ _ Ht) as [Hle _].
  rewrite vkey_step by lia. by apply (wf_entry _ _ _ Hwf t (S l) _ _ Ht (index_range va (S l) Hle Hva) Hp).
Qed.

(** What the walk finds. *)
Lemma find_loop_spec l t va : on_walk t l va -> 0 <= va ->
  match find_loop l m t va with
  | inl st => st = NX_PT_E_NOT_MAPPED
  | inr (t', i, size) => exists l', (l' <= l)%nat /\ (l' <= 2)%nat /\ on_walk t' l' va /\ i = index_of va l' /\ size = level_size l' /\
      present (pte m t' i) = true /\ (l' <> 0%nat -> large (pte m t' i) = true)
  end.
Proof using Hwf.
  revert t. induction l as [|l IH]; intros t Ht Hva; cbn [find_loop].
  - destruct (present (pte m t (index_of va 0))) eqn:Ep; [|done]. cbn [negb]. exists 0%nat. split_and!; try done; lia.
  - destruct (present (pte m t (index_of va (S l)))) eqn:Ep; [|done]. cbn [negb].
    pose proof (wf_level _ _ _ Hwf _ _ _ Ht) as [Hle _].
    destruct (wf_entry _ _ _ Hwf t _ _ _ Ht (index_range va (S l) Hle Hva) Ep) as [Hroot _].
    destruct (large (pte m t (index_of va (S l)))) eqn:El; cbn [andb].
    + assert ((S l = 1 \/ S l = 2)%nat) as Hl by (destruct l as [|[|[|]]]; try lia; by specialize (Hroot eq_refl)).
      replace ((S l =? 1)%nat || (S l =? 2)%nat) with true by (destruct l as [|[|]]; (done || lia)).
      exists (S l). split_and!; try done; try lia. destruct l as [|[|]]; (done || lia).
    + specialize (IH _ (walk_next t l va Ht Hva (conj Ep El)) Hva).
      destruct (find_loop l m _ va) as [st|[[t' i] size]]; [done|]. destruct IH as (l' & H1 & H2). exists l'. split; [lia|done].
Qed.

(** Memory that agrees on the entries of the walk, up to the flags of links, gives
    the same leaf. *)
Lemma leaf_frame m' l t va : on_walk t l va -> 0 <= va ->
  (forall t' l', on_walk t' l' va -> let e := pte m t' (index_of va l') in let e' := pte m' t' (index_of va l') in
     e' = e \/ (l' <> 0%nat /\ link e /\ link e' /\ entry_addr e' = entry_addr e)) ->
  leaf_from l m' t va = leaf_from l m t va.
Proof using Hwf.
  intros Ht Hva Heq. revert t Ht. induction l as [|l IH]; intros t Ht; unfold leaf_from in *; cbn [find_loop].
  - destruct (Heq t 0%nat Ht) as [->|(Hn & _)]; [|done]. destruct (negb _); [done|]. by destruct (Heq t 0%nat Ht) as [->|(Hn & _)].
  - pose proof (Heq t (S l) Ht) as He. cbv zeta in He.
    destruct He as [He|(_ & [Hp Hl] & [Hp' Hl'] & Ha)].
    + rewrite He. destruct (present (pte m t (index_of va (S l)))) eqn:Ep; [|done]. cbn [negb].
      destruct (large (pte m t (index_of va (S l)))) eqn:El; cbn [andb].
      * pose proof (wf_level _ _ _ Hwf _ _ _ Ht) as [Hle _].
        destruct (wf_entry _ _ _ Hwf t _ _ _ Ht (index_range va (S l) Hle Hva) Ep) as [Hroot _].
        replace ((S l =? 1)%nat || (S l =? 2)%nat) with true by (destruct l as [|[|[|]]]; try done; try lia; specialize (Hroot eq_refl); congruence).
        by rewrite He.
      * apply IH. by apply (walk_next t l va Ht Hva).
    + rewrite Hp, Hp', Hl, Hl', Ha. cbn [negb andb]. apply IH. by apply (walk_next t l va Ht Hva).
Qed.

(** Tables with the same level and page number are the same. *)
Lemma wf_inj l k t1 t2 : T !! t1 = Some (l, k) -> T !! t2 = Some (l, k) -> t1 = t2.
Proof using Hwf.
  remember (3 - l)%nat as n eqn:En. revert l k t1 t2 En. induction n as [|n IH]; intros l k t1 t2 En H1 H2.
  - pose proof (wf_level _ _ _ Hwf _ _ _ H1) as [Hl Hr1]. pose proof (wf_level _ _ _ Hwf _ _ _ H2) as [_ Hr2].
    rewrite Hr1, Hr2 by lia. done.
  - assert (Hroot : forall t, T !! t = Some (l, k) -> t <> root).
    { intros t Ht ->. rewrite (wf_root _ _ _ Hwf) in Ht. injection Ht as <- _. lia. }
    destruct (wf_parent _ _ _ Hwf _ _ _ H1 (Hroot _ H1)) as (p1 & P1 & _ & <-).
    destruct (wf_parent _ _ _ Hwf _ _ _ H2 (Hroot _ H2)) as (p2 & P2 & _ & <-).
    by rewrite (IH (S l) (k / 512) p1 p2 ltac:(lia) P1 P2).
Qed.

(** Replacing one entry. *)
Lemma wf_update t l k i e :
  T !! t = Some (l, k) -> 0 <= i < ENTRIES ->
  (present e = true -> (l = 3%nat -> large e = false) /\
     (forall l', l = S l' -> large e = false -> T !! entry_addr e = Some (l', k * 512 + i))) ->
  (l <> 0%nat -> link (pte m t i) -> link e /\ entry_addr e = entry_addr (pte m t i)) ->
  pt_wf T (<[(t, i) := e]> m) root.
Proof using Hwf.
  intros Ht Hi He Hlink. destruct Hwf as [W1 W2 W3 W4]. split; [done|done| |].
  - intros t' l' k' i' Ht' Hi'. rewrite pte_insert. destruct (decide _) as [[-> ->]|]; [|by apply W3].
    rewrite Ht in Ht'. injection Ht' as <- <-. apply He.
  - intros t' l' k' Ht' Hr. destruct (W4 t' l' k' Ht' Hr) as (tp & Hp & Hl & Ha). exists tp. split; [done|].
    rewrite pte_insert. destruct (decide _) as [[-> E]|]; [|done]. rewrite Ht in Hp. injection Hp as -> ->.
    subst i. destruct (Hlink ltac:(lia) Hl) as [H1 H2]. split; [done|]. by rewrite H2.
Qed.
End tree.

#[global] Instance on_walk_dec T t l va : Decision (on_walk T t l va).
Proof. unfold on_walk. apply _. Defined.

Lemma split_div k i : 0 <= i < 512 -> (k * 512 + i) / 512 = k.
Proof. intros. dlia. Qed.

Lemma split_mod k i : 0 <= i < 512 -> (k * 512 + i) mod 512 = i.
Proof. intros. dlia. Qed.

(** The walk for [va] passes through every table that lies on it. *)
Lemma walk_reaches T m root t l va : pt_wf T m root -> 0 <= va -> on_walk T t l va ->
  find_loop 3 m root va = find_loop l m t va.
Proof.
  intros Hwf Hva. remember (3 - l)%nat as n eqn:En. revert t l En. induction n as [|n IH]; intros t l En Ht.
  - pose proof (wf_level _ _ _ Hwf _ _ _ Ht) as [Hl Hr]. assert (l = 3%nat) as -> by lia. by rewrite Hr.
  - assert (Hr : t <> root). { intros ->. unfold on_walk in Ht. rewrite (wf_root _ _ _ Hwf) in Ht. injection Ht as <- _. lia. }
    destruct (wf_parent _ _ _ Hwf _ _ _ Ht Hr) as (tp & Hp & [Hpr Hla] & Ha).
    pose proof (wf_level _ _ _ Hwf _ _ _ Hp) as [Hle _].
    pose proof (index_range va (S l) ltac:(lia) Hva) as Hi. unfold ENTRIES in Hi. rewrite (vkey_step va (S l)) in Hp, Hpr, Hla, Ha by lia.
    rewrite split_div in Hp by lia. rewrite split_mod in Hpr, Hla, Ha by lia.
    rewrite (IH tp (S l) ltac:(lia) Hp). cbn [find_loop]. rewrite Hpr, Hla, Ha. done.
Qed.

Lemma leaf_reaches T m root t l va : pt_wf T m root -> 0 <= va -> on_walk T t l va ->
  leaf_from 3 m root va = leaf_from l m t va.
Proof. intros. unfold leaf_from. by rewrite (walk_reaches T m root t l va). Qed.

Lemma leaf_not_present l m t va : present (pte m t (index_of va l)) = false -> leaf_from l m t va = None.
Proof. intros E. unfold leaf_from. destruct l; cbn [find_loop]; by rewrite E. Qed.

(** Linking a new table [p] below an entry that was not present: the entries of [m']
    are the old ones, but for the link and the zeroed table. *)
Section link_new.
Variables (T : gmap Z (nat * Z)) (m m' : gmap (Z * Z) Z) (root t : Z) (l : nat) (k i p : Z).
Hypothesis Hwf : pt_wf T m root.
Hypothesis Ht : T !! t = Some (S l, k).
Hypothesis Hi : 0 <= i < ENTRIES.
Hypothesis Hnp : present (pte m t i) = false.
Hypothesis Hp : T !! p = None.
Hypothesis Hold : forall t' i', t' <> p -> (t', i') <> (t, i) -> pte m' t' i' = pte m t' i'.
Hypothesis Hz : forall i', 0 <= i' < ENTRIES -> pte m' p i' = 0.
Hypothesis Hnew : link (pte m' t i) /\ entry_addr (pte m' t i) = p.

Let T' := <[p := (l, k * 512 + i)]> T.

Lemma link_T t' x : T !! t' = Some x -> T' !! t' = Some x.
Proof using Hp. intros Hx. unfold T'. rewrite lookup_insert_ne; [done|]. intros E. by rewrite <- E, Hp in Hx. Qed.

Lemma link_wf : pt_wf T' m' root.
Proof using All.
  pose proof (wf_level _ _ _ Hwf _ _ _ Ht) as [Hl3 _]. destruct Hwf as [W1 W2 W3 W4], Hnew as [[He1 He2] Ha]. split.
  - by apply link_T.
  - intros t' l' k' Hx. apply lookup_insert_Some in Hx as [[<- [= <- <-]]|[_ Hx]]; [split; lia|by eapply W2].
  - intros t' l' k' i' Hx Hi' Hpr. apply lookup_insert_Some in Hx as [[<- [= <- <-]]|[Hx1 Hx]].
    { rewrite Hz in Hpr by done. done. }
    destruct (decide ((t', i') = (t, i))) as [[= -> ->]|Hn].
    + rewrite Ht in Hx. injection Hx as <- <-. split; [done|]. intros l' [= <-] _. rewrite Ha. apply lookup_insert_eq.
    + rewrite Hold in * by done. destruct (W3 t' l' k' i' Hx Hi' Hpr) as [H1 H2]. split; [done|].
      intros l'' E1 E2. apply link_T. by apply H2.
  - intros t' l' k' Hx Hr. apply lookup_insert_Some in Hx as [[<- [= <- <-]]|[Hx1 Hx]].
    + unfold ENTRIES in Hi. exists t. rewrite split_div, split_mod by lia. split; [by apply link_T|]. done.
    + destruct (W4 t' l' k' Hx Hr) as (tp & H1 & H2 & H3). exists tp. split; [by apply link_T|].
      rewrite Hold; [done|intros ->; congruence|]. intros [= -> E]. rewrite E in H2. destruct H2 as [H2 _]. congruence.
Qed.

Lemma link_leaf va : 0 <= va -> leaf_from 3 m' root va = leaf_from 3 m root va.
Proof using All.
  intros Hva. pose proof (wf_level _ _ _ Hwf _ _ _ Ht) as [Hl3 _].
  destruct (decide (on_walk T t (S l) va /\ index_of va (S l) = i)) as [[Hw Hx]|Hn].
  - rewrite (leaf_reaches T m root t (S l) va Hwf Hva Hw), (leaf_not_present (S l) m t va) by (by rewrite Hx).
    assert (Hw' : on_walk T' p l va).
    { unfold on_walk in *. rewrite Ht in Hw. injection Hw as E. unfold T'. rewrite lookup_insert_eq, vkey_step, Hx, E by lia. done. }
    rewrite (leaf_reaches T' m' root p l va link_wf Hva Hw'). apply leaf_not_present. rewrite Hz; [done|].
    apply index_range; [lia|done].
  - apply (leaf_frame T m root Hwf); [by apply (root_on_walk T m root)|done|]. intros t' l' Hw. left.
    apply Hold; [intros ->; unfold on_walk in Hw; congruence|]. intros [= -> E]. apply Hn. pose proof Hw as Hw2. unfold on_walk in Hw2.
    rewrite Ht in Hw2. injection Hw2 as <- _. done.
Qed.
End link_new.

(** ** Lemmas: operations *)

Section ops.
Context {A : Type} `{!PtEnv A} `{!PtEnvLaws A}.
Implicit Types s : pt_state A.

(** The invariant: a tree of tables, all of them pages handed out by the allocator. *)
Definition pt_ok (root : Z) (T : gmap Z (nat * Z)) s : Prop :=
  pt_inv (pt_ctx s) /\ pt_wf T (pt_mem s) root /\ forall t x, T !! t = Some x -> pt_used (pt_ctx s) t.

(** The two states translate every address alike. *)
Definition same_leaves (root : Z) s s' : Prop :=
  forall va, 0 <= va -> leaf_from 3 (pt_mem s') root va = leaf_from 3 (pt_mem s) root va.

Lemma same_leaves_trans root s1 s2 s3 : same_leaves root s1 s2 -> same_leaves root s2 s3 -> same_leaves root s1 s3.
Proof. intros H1 H2 va Hva. by rewrite H2, H1. Qed.

Lemma new_table_spec root T s : pt_ok root T s ->
  match new_table s with
  | (inl st, s') => st = NX_PT_E_NOMEM /\ pt_ok root T s' /\ pt_mem s' = pt_mem s /\
      forall q, pt_used (pt_ctx s') q <-> pt_used (pt_ctx s) q
  | (inr p, s') => (p <> 0 /\ page_aligned p) /\ T !! p = None /\ pt_inv (pt_ctx s') /\ ~ pt_used (pt_ctx s) p /\
      (forall q, pt_used (pt_ctx s') q <-> pt_used (pt_ctx s) q \/ q = p) /\ pt_mem s' = zero_table (pt_mem s) p
  end.
Proof.
  intros (Hinv & Hwf & Hu). unfold new_table. destruct (pt_alloc (pt_ctx s)) as [p a] eqn:Ea. cbn [fst snd].
  destruct (pt_alloc_ok _ _ _ Hinv Ea) as (Hinv' & Hmono & Hp). destruct (Z.eqb_spec p 0) as [->|Hz]; cbn [orb].
  { assert (Hs : forall q, pt_used a q <-> pt_used (pt_ctx s) q) by (intros q; rewrite Hmono; tauto).
    split; [done|]. split; [split; [done|split; [done|]]|by split]. intros t x Ht. apply Hs. by eapply Hu. }
  destruct (Hp Hz) as (Hr & Hf). change (NX_PAGE_4K - 1) with (Z.ones 12). rewrite land_ones_mod by lia.
  pose proof (proj2 Hr) as Hal. change (2 ^ 12) with NX_PAGE_4K. rewrite Hal. cbn [negb Z.eqb pt_ctx pt_mem].
  split; [done|]. split; [destruct (T !! p) as [x|] eqn:Ep; [|done]; by destruct Hf; apply (Hu _ x)|].
  split; [done|]. split; [done|]. split; [|done]. intros q. rewrite Hmono. tauto.
Qed.

(** Adding flags to a link. *)
Lemma set_user_spec root T s t l k i u :
  pt_ok root T s -> T !! t = Some (S l, k) -> 0 <= i < ENTRIES -> user_flag u -> link (pte (pt_mem s) t i) ->
  let s' := set_pte s t i (pte (pt_mem s) t i |. u) in pt_ok root T s' /\ same_leaves root s s'.
Proof.
  intros (Hinv & Hwf & Hu) Ht Hi Hf [Hp Hl] s'. destruct (entry_or_user (pte (pt_mem s) t i) u Hf) as (E1 & E2 & E3).
  assert (Hlk : link (pte (pt_mem s) t i |. u)) by (split; congruence).
  split; [split; [done|split; [|done]]|].
  - apply (wf_update T (pt_mem s) root Hwf t (S l) k i); try done.
    intros _. rewrite E2, E3. by apply (wf_entry _ _ _ Hwf t (S l) k i).
  - intros va Hva. apply (leaf_frame T (pt_mem s) root Hwf); [by apply (root_on_walk T (pt_mem s) root)|done|].
    intros t' l' Hw. cbv zeta. cbn [pt_mem s' set_pte]. rewrite pte_insert. destruct (decide _) as [[-> ->]|]; [right|by left].
    unfold on_walk in Hw. rewrite Ht in Hw. injection Hw as <- _. by split_and!.
Qed.

(** A leaf entry in place of one that is neither a link nor, at the root, large. *)
Lemma set_leaf_spec root T s t l va e :
  pt_ok root T s -> on_walk T t l va -> 0 <= va -> (l <= 2)%nat ->
  (l <> 0%nat -> present e = true -> large e = true) -> (l <> 0%nat -> ~ link (pte (pt_mem s) t (index_of va l))) ->
  let s' := set_pte s t (index_of va l) e in
  pt_ok root T s' /\ forall va', 0 <= va' ->
    leaf_from 3 (pt_mem s') root va' =
      if decide (vkey va' l = vkey va l) then (if present e then Some (e, level_size l) else None)
      else leaf_from 3 (pt_mem s) root va'.
Proof.
  intros (Hinv & Hwf & Hu) Hw Hva Hl He Hn s'. pose proof (index_range va l ltac:(lia) Hva) as Hi.
  assert (Hwf' : pt_wf T (pt_mem s') root).
  { apply (wf_update T (pt_mem s) root Hwf t l _ _ _ Hw Hi); [|intros H0 Hx; by destruct (Hn H0)].
    intros Hp. split; [lia|]. intros l' -> Hlg. rewrite He in Hlg by (done || lia). done. }
  split; [by split|]. intros va' Hva'. pose proof (vkey_step va l ltac:(lia) Hva) as K1. pose proof (vkey_step va' l ltac:(lia) Hva') as K2.
  pose proof (index_range va' l ltac:(lia) Hva') as Hi'. unfold ENTRIES in *.
  destruct (decide (vkey va' l = vkey va l)) as [E|E].
  - assert (Hsame : vkey va' (S l) = vkey va (S l) /\ index_of va' l = index_of va l) by lia. destruct Hsame as [E1 E2].
    rewrite (leaf_reaches T (pt_mem s') root t l va' Hwf' Hva') by (unfold on_walk; by rewrite E1).
    unfold leaf_from, s'. cbn [pt_mem set_pte]. destruct l as [|l]; cbn [find_loop]; rewrite E2, pte_insert, decide_True by done.
    + destruct (present e); [|done]. cbn [negb]. by rewrite pte_insert, decide_True by done.
    + destruct (present e) eqn:Ep; [|done]. cbn [negb]. rewrite (He ltac:(lia) eq_refl). cbn [andb].
      replace ((S l =? 1)%nat || (S l =? 2)%nat) with true by (destruct l as [|[|]]; (done || lia)).
      rewrite pte_insert, decide_True by done. destruct l as [|[|]]; (done || lia).
  - apply (leaf_frame T (pt_mem s) root Hwf); [by apply (root_on_walk T (pt_mem s) root)|done|]. intros t' l' Hw'. left.
    cbn [pt_mem s' set_pte]. rewrite pte_insert, decide_False; [done|]. intros [-> Ex]. apply E.
    unfold on_walk in Hw, Hw'. rewrite Hw in Hw'. injection Hw' as <- Ek. lia.
Qed.

Lemma large_leaf root T s t l va :
  pt_ok root T s -> on_walk T t (S l) va -> 0 <= va ->
  present (pte (pt_mem s) t (index_of va (S l))) = true -> large (pte (pt_mem s) t (index_of va (S l))) = true ->
  leaf_from 3 (pt_mem s) root va <> None.
Proof.
  intros (_ & Hwf & _) Hw Hva Hp Hl. rewrite (leaf_reaches T (pt_mem s) root t (S l) va Hwf Hva Hw).
  pose proof (wf_level _ _ _ Hwf _ _ _ Hw) as [Hle _].
  destruct (wf_entry _ _ _ Hwf t _ _ _ Hw (index_range va (S l) Hle Hva) Hp) as [Hr _].
  unfold leaf_from. cbn [find_loop]. rewrite Hp, Hl. cbn [negb andb].
  replace ((S l =? 1)%nat || (S l =? 2)%nat) with true; [done|].
  destruct l as [|[|[|]]]; try done; try lia. specialize (Hr eq_refl). congruence.
Qed.

(** A leaf entry of a level-[l] table. *)
Definition is_leaf (l : nat) (e : Z) : Prop := present e = true /\ (l <> 0%nat -> large e = true).

(** How creating tables on the walk for [va] extends the tree: new pages are taken
    from the allocator for tables on the walk, and no leaf entry changes. *)
Record grown (va : Z) (T : gmap Z (nat * Z)) s (T' : gmap Z (nat * Z)) s' : Prop := {
  gr_sub : T ⊆ T';
  gr_used : forall q, pt_used (pt_ctx s') q <-> pt_used (pt_ctx s) q \/ (T !! q = None /\ is_Some (T' !! q));
  gr_new : forall t, T !! t = None -> is_Some (T' !! t) -> ~ pt_used (pt_ctx s) t /\
    exists l, (l < 3)%nat /\ on_walk T' t l va /\ forall i, 0 <= i < ENTRIES -> ~ is_leaf l (pte (pt_mem s') t i);
  gr_old : forall t l k i, T !! t = Some (l, k) -> 0 <= i < ENTRIES ->
    pte (pt_mem s') t i = pte (pt_mem s) t i \/
    ((on_walk T t l va /\ i = index_of va l) /\ ~ is_leaf l (pte (pt_mem s) t i) /\ ~ is_leaf l (pte (pt_mem s') t i));
  gr_out : forall t i, pt_used (pt_ctx s) t -> T !! t = None -> pte (pt_mem s') t i = pte (pt_mem s) t i;
}.

Lemma grown_refl va T s : grown va T s T s.
Proof.
  split; [done| | |by left|done].
  - intros q. split; [by left|]. intros [H|[H1 [x H2]]]; [done|congruence].
  - intros t H1 [x H2]. congruence.
Qed.

Lemma on_walk_sub T T' t l va : T ⊆ T' -> on_walk T t l va -> on_walk T' t l va.
Proof. intros Hs Hw. by apply (lookup_weaken T T'). Qed.

Lemma grown_trans va T s T1 s1 T2 s2 : grown va T s T1 s1 -> grown va T1 s1 T2 s2 -> grown va T s T2 s2.
Proof.
  intros [A1 A2 A3 A4 A5] [B1 B2 B3 B4 B5].
  assert (Hmono : forall q, pt_used (pt_ctx s) q -> pt_used (pt_ctx s1) q) by (intros q Hq; apply A2; by left).
  assert (Hnone : forall t, T1 !! t = None -> T !! t = None)
    by (intros t H1; destruct (T !! t) as [x|] eqn:E; [|done]; by rewrite (lookup_weaken T T1 t x E A1) in H1).
  split.
  - by etrans.
  - intros q. rewrite B2, A2. split.
    + intros [[H|[H1 [x H2]]]|[H1 H2]]; [by left|right; split; [done|]; exists x; by apply (lookup_weaken T1 T2)|right; auto].
    + intros [H|[H1 H2]]; [by left; left|]. destruct (T1 !! q) as [x|] eqn:E; [left; right; eauto|by right].
  - intros t H1 H2. destruct (T1 !! t) as [x|] eqn:E.
    + destruct (A3 t H1 ltac:(eauto)) as (Hu & l & Hl & Hw & Hn). split; [done|]. exists l. split; [done|].
      split; [by apply (on_walk_sub T1 T2)|]. intros i Hi. destruct (B4 t l _ i Hw Hi) as [->|(_ & _ & H)]; [by apply Hn|done].
    + destruct (B3 t E H2) as (Hu & Hrest). split; [|done]. intros H. by apply Hu, Hmono.
  - intros t l k i Ht Hi. pose proof (lookup_weaken T T1 _ _ Ht A1) as Ht1.
    destruct (B4 t l k i Ht1 Hi) as [->|([Hw Hx] & H1 & H2)]; [by apply (A4 t l k)|]. right.
    assert (Hw' : on_walk T t l va) by (unfold on_walk in *; congruence).
    split; [by split|]. split; [|done]. destruct (A4 t l k i Ht Hi) as [<-|(_ & H & _)]; done.
  - intros t i Hu Ht. destruct (T1 !! t) as [x|] eqn:E; [by destruct (A3 t Ht ltac:(eauto))|].
    rewrite B5 by auto. by apply A5.
Qed.

Lemma link_not_leaf l e : link e -> ~ is_leaf (S l) e.
Proof. intros [H1 H2] [H3 H4]. rewrite H4 in H2 by lia. done. Qed.

(** Adding flags to a link on the walk. *)
Lemma grown_set_user T s t l va u :
  on_walk T t (S l) va -> (S l <= 3)%nat -> user_flag u -> link (pte (pt_mem s) t (index_of va (S l))) ->
  grown va T s T (set_pte s t (index_of va (S l)) (pte (pt_mem s) t (index_of va (S l)) |. u)).
Proof.
  intros Hw Hl Hu Hlk. destruct (grown_refl va T s) as [H1 H2 H3 H4 H5].
  assert (Hlk' : link (pte (pt_mem s) t (index_of va (S l)) |. u)).
  { destruct (entry_or_user (pte (pt_mem s) t (index_of va (S l))) u Hu) as (E1 & E2 & _), Hlk. split; congruence. }
  split; [done|done| | |].
  - intros t' Ht [x Hx]. congruence.
  - intros t' l' k' i' Ht' Hi'. cbn [set_pte pt_mem]. rewrite pte_insert. destruct (decide _) as [[-> ->]|]; [right|by left].
    pose proof Hw as Hw'. unfold on_walk in Hw'. rewrite Ht' in Hw'. injection Hw' as -> ->.
    split; [by split|]. split; by apply link_not_leaf.
  - intros t' i' _ Ht'. cbn [set_pte pt_mem]. rewrite pte_insert, decide_False; [done|]. intros [-> _].
    unfold on_walk in Hw. congruence.
Qed.

(** The facts about memory after a new table was linked. *)
Lemma linked_mem s s1 t i p e t' i' :
  pt_mem s1 = zero_table (pt_mem s) p -> t <> p -> 0 <= i' < ENTRIES ->
  pte (pt_mem (set_pte s1 t i e)) t' i' =
    if decide (t' = t /\ i' = i) then e else if decide (t' = p) then 0 else pte (pt_mem s) t' i'.
Proof.
  intros Hm Hne Hi. cbn [set_pte pt_mem]. rewrite pte_insert. destruct (decide (t' = t /\ i' = i)); [done|].
  rewrite Hm, pte_zero. apply decide_ext. tauto.
Qed.

(** Linking a new table on the walk. *)
Lemma grown_link T s s1 t l va p e :
  on_walk T t (S l) va -> (S l <= 3)%nat -> 0 <= va -> present (pte (pt_mem s) t (index_of va (S l))) = false ->
  T !! p = None -> ~ pt_used (pt_ctx s) p -> (forall q, pt_used (pt_ctx s1) q <-> pt_used (pt_ctx s) q \/ q = p) ->
  pt_mem s1 = zero_table (pt_mem s) p -> link e ->
  grown va T s (<[p := (l, vkey va (S l))]> T) (set_pte s1 t (index_of va (S l)) e).
Proof.
  intros Hw Hl Hva Hnp Hp Hnu Hu Hm He. assert (Hne : t <> p) by (intros ->; unfold on_walk in Hw; congruence).
  assert (Hnl : ~ is_leaf (S l) (pte (pt_mem s) t (index_of va (S l)))) by (intros [H _]; congruence).
  split.
  - by apply insert_subseteq.
  - intros q. cbn [set_pte pt_ctx]. rewrite Hu. split; [intros [H| ->]; [by left|right; split; [done|]; rewrite lookup_insert_eq; eauto]|].
    intros [H|[H1 [x H2]]]; [by left|]. apply lookup_insert_Some in H2 as [[<- _]|[_ H2]]; [by right|congruence].
  - intros t' H1 [x H2]. apply lookup_insert_Some in H2 as [[<- _]|[_ H2]]; [|congruence]. split; [done|]. exists l.
    split; [lia|]. split; [unfold on_walk; apply lookup_insert_eq|]. intros i Hi.
    rewrite (linked_mem s s1 t _ p e p i Hm Hne Hi), decide_False by (intros [E _]; by apply Hne). rewrite decide_True by done.
    by intros [H _].
  - intros t' l' k' i' Ht' Hi'. rewrite (linked_mem s s1 t _ p e t' i' Hm Hne Hi').
    destruct (decide (t' = t /\ _)) as [[-> ->]|]; [right|left; rewrite decide_False; [done|intros ->; congruence]].
    pose proof Hw as Hw'. unfold on_walk in Hw'. rewrite Ht' in Hw'. injection Hw' as -> ->.
    split; [by split|]. split; [done|]. by apply link_not_leaf.
  - intros t' i' Hu' Ht'. cbn [set_pte pt_mem]. rewrite pte_insert, decide_False by (intros [-> _]; unfold on_walk in Hw; congruence).
    rewrite Hm, pte_zero, decide_False; [done|]. intros [-> _]. done.
Qed.

(** Creating the tables on the way changes no translation. *)
Lemma walk_loop_spec root n level va user t T s :
  pt_ok root T s -> on_walk T t (level + n) va -> 0 <= va -> user_flag user ->
  let r := walk_loop n level va user t s in
  exists T', pt_ok root T' r.2 /\ same_leaves root s r.2 /\ grown va T s T' r.2 /\
    match r.1 with
    | inr t' => on_walk T' t' level va
    | inl st => st = NX_PT_E_NOMEM \/ (st = NX_PT_E_EXISTS /\ leaf_from 3 (pt_mem s) root va <> None)
    end.
Proof.
  intros Hok Hw Hva Hu. revert t T s Hok Hw. induction n as [|n IH]; intros t T s Hok Hw; cbn [walk_loop].
  { exists T. rewrite Nat.add_0_r in Hw. split; [done|]. split; [done|]. split; [apply grown_refl|done]. }
  cbv zeta. rewrite Nat.add_succ_r in *. pose proof Hok as (Hinv & Hwf & Hus).
  pose proof (wf_level _ _ _ Hwf _ _ _ Hw) as [Hle _]. pose proof (index_range va _ Hle Hva) as Hi.
  set (i := index_of va (S (level + n))) in *. set (e := pte (pt_mem s) t i) in *.
  assert (Hgo : forall T1 s1 t1, pt_ok root T1 s1 -> same_leaves root s s1 -> grown va T s T1 s1 -> on_walk T1 t1 (level + n) va ->
    exists T', pt_ok root T' (walk_loop n level va user t1 s1).2 /\ same_leaves root s (walk_loop n level va user t1 s1).2 /\
      grown va T s T' (walk_loop n level va user t1 s1).2 /\
    match (walk_loop n level va user t1 s1).1 with
    | inr t' => on_walk T' t' level va
    | inl st => st = NX_PT_E_NOMEM \/ (st = NX_PT_E_EXISTS /\ leaf_from 3 (pt_mem s) root va <> None)
    end).
  { intros T1 s1 t1 H1 H2 Hg H3. destruct (IH t1 T1 s1 H1 H3) as (T' & H4 & H5 & H6 & H7). exists T'. split; [done|].
    split; [by apply (same_leaves_trans root s s1)|]. split; [by eapply grown_trans|]. by rewrite (H2 va Hva) in H7. }
  destruct (present e) eqn:Ep.
  - destruct (large e) eqn:El.
    { exists T. split; [done|]. split; [done|]. split; [apply grown_refl|]. right. split; [done|]. by apply (large_leaf root T s t (level + n)). }
    destruct (set_user_spec root T s t _ _ i user Hok Hw Hi Hu (conj Ep El)) as [Hok' Hs].
    apply (Hgo T); [done|done|by apply grown_set_user|]. rewrite (proj2 (proj2 (entry_or_user e user Hu))).
    apply (walk_next T (pt_mem s) root Hwf t); done.
  - pose proof (new_table_spec root T s Hok) as Hnt. destruct (new_table s) as [[st|p] s1].
    { destruct Hnt as (-> & Hok1 & Hm & Hu1). exists T. split; [done|]. split; [intros va' _; cbn [snd]; by rewrite Hm|].
      split; [|by left]. destruct (grown_refl va T s) as [G1 G2 G3 G4 G5]. split; cbn [snd]; rewrite ?Hm; try done.
      intros q. rewrite Hu1. apply G2. }
    destruct Hnt as ([_ Hal] & Hp & Hinv1 & Hnu & Hus1 & Hm). set (e' := p |. NX_PTE_P |. NX_PTE_W |. user).
    destruct (link_entry p user Hal Hu) as [Hlk Ha]. fold e' in Hlk, Ha.
    assert (Hne : t <> p) by (intros ->; unfold on_walk in Hw; congruence).
    assert (Hold : forall t' i', t' <> p -> (t', i') <> (t, i) -> pte (pt_mem (set_pte s1 t i e')) t' i' = pte (pt_mem s) t' i').
    { intros t' i' H1 H2. cbn [set_pte pt_mem]. rewrite pte_insert, decide_False by (intros [-> ->]; by apply H2).
      by rewrite Hm, pte_zero, decide_False by tauto. }
    assert (Hz : forall i', 0 <= i' < ENTRIES -> pte (pt_mem (set_pte s1 t i e')) p i' = 0).
    { intros i' Hi'. rewrite (linked_mem s s1 t i p e' p i' Hm Hne Hi'), decide_False by (intros [E _]; by apply Hne).
      by rewrite decide_True. }
    assert (Hnew : link (pte (pt_mem (set_pte s1 t i e')) t i) /\ entry_addr (pte (pt_mem (set_pte s1 t i e')) t i) = p)
      by (rewrite (linked_mem s s1 t i p e' t i Hm Hne Hi), decide_True by done; split; [exact Hlk|exact Ha]).
    assert (Hk : vkey va (S (level + n)) = vkey va (S (S (level + n))) * 512 + i) by (rewrite vkey_step by lia; done).
    apply (Hgo (<[p := ((level + n)%nat, vkey va (S (level + n)))]> T)).
    + split; [done|]. split; [|intros t' x Hx; cbn [set_pte pt_ctx]; apply Hus1].
      * rewrite Hk. exact (link_wf T (pt_mem s) _ root t _ _ i p Hwf Hw Hi Ep Hp Hold Hz Hnew).
      * apply lookup_insert_Some in Hx as [[<- _]|[_ Hx]]; [by right|left; by eapply Hus].
    + intros va' Hva'. exact (link_leaf T (pt_mem s) _ root t _ _ i p Hwf Hw Hi Ep Hp Hold Hz Hnew va' Hva').
    + by apply (grown_link T s s1 t (level + n) va p e').
    + rewrite Ha. unfold on_walk. apply lookup_insert_eq.
Qed.

(** What a query reports for a leaf. *)
Definition leaf_result (va : Z) (x : option (Z * Z)) : nx_pt_status + Z * Z * Z :=
  match x with
  | None => inl NX_PT_E_NOT_MAPPED
  | Some (e, size) =>
      inr (u64 (e &. NX_PTE_ADDR &. u64 (~. (size - 1)) + (va &. (size - 1))), e &. u64 (~. NX_PTE_ADDR), size)
  end.

Lemma query_leaf root T s va : pt_ok root T s -> 0 <= va ->
  nx_pt_query root va s =
    if nx_pt_is_canonical va then leaf_result va (leaf_from 3 (pt_mem s) root va) else inl NX_PT_E_NONCANONICAL.
Proof.
  intros (_ & Hwf & _) Hva. unfold nx_pt_query, find_leaf, leaf_from. destruct (nx_pt_is_canonical va); [|done]. cbn [negb].
  pose proof (find_loop_spec T (pt_mem s) root Hwf 3 root va (root_on_walk T (pt_mem s) root Hwf va) Hva) as H.
  destruct (find_loop 3 (pt_mem s) root va) as [st|[[t i] size]]; [by rewrite H|done].
Qed.

Lemma same_leaves_query root T T' s s' va :
  pt_ok root T s -> pt_ok root T' s' -> same_leaves root s s' -> 0 <= va -> nx_pt_query root va s' = nx_pt_query root va s.
Proof. intros H1 H2 H3 Hva. rewrite (query_leaf root T' s'), (query_leaf root T s), H3 by done. done. Qed.

(** Addresses in the page of a canonical address are canonical. *)
Lemma canonical_page va va' l : (l <= 2)%nat -> fits 64 va -> fits 64 va' -> nx_pt_is_canonical va = true ->
  va' / level_size l = va / level_size l -> nx_pt_is_canonical va' = true.
Proof.
  unfold nx_pt_is_canonical, fits. rewrite !Z.shiftr_div_pow2 by lia. rewrite !orb_true_iff, !Z.eqb_eq.
  intros Hl H1 H2 H3 H4. unfold level_size in H4.
  destruct l as [|[|[|]]]; [| | |lia]; cbn [Z.of_nat Pos.of_succ_nat Pos.succ] in H4; dlia.
Qed.

(** The translations after the leaf for [va] at level [l] was set to [e]. *)
Lemma set_leaf_query root T s t l va e va' :
  pt_ok root T s -> on_walk T t l va -> fits 64 va -> fits 64 va' -> nx_pt_is_canonical va = true -> (l <= 2)%nat ->
  (l <> 0%nat -> present e = true -> large e = true) -> (l <> 0%nat -> ~ link (pte (pt_mem s) t (index_of va l))) ->
  nx_pt_query root va' (set_pte s t (index_of va l) e) =
    if decide (va' / level_size l = va / level_size l)
    then leaf_result va' (if present e then Some (e, level_size l) else None) else nx_pt_query root va' s.
Proof.
  intros Hok Hw Hva Hva' Hc Hl He Hn. assert (0 <= va /\ 0 <= va') as [H0 H0'] by (unfold fits in *; lia).
  destruct (set_leaf_spec root T s t l va e Hok Hw H0 Hl He Hn) as [Hok' Hlf].
  rewrite (query_leaf root T _ va' Hok' H0'), (query_leaf root T s va' Hok H0'), (Hlf va' H0').
  destruct (nx_pt_is_canonical va') eqn:Ec'.
  - pose proof (vkey_same va va' l Hl Hva Hva' Hc Ec') as Hk.
    destruct (decide (vkey va' l = vkey va l)), (decide (va' / level_size l = va / level_size l)); tauto.
  - destruct (decide (va' / level_size l = va / level_size l)) as [E|]; [|done].
    pose proof (canonical_page va va' l Hl Hva Hva' Hc E). congruence.
Qed.

Lemma leaf_result_entry va pa flags l :
  (l <= 1)%nat -> 0 <= va -> 0 <= pa < 2 ^ 52 -> pa mod level_size l = 0 -> fits 64 flags ->
  flags &. u64 (~. NX_PT_LEAF_FLAGS) = 0 ->
  leaf_result va (Some (pa |. flags |. NX_PTE_P |. ps_bit l, level_size l)) =
    inr (pa + va mod level_size l, flags |. NX_PTE_P |. ps_bit l, level_size l).
Proof.
  intros Hl Hva Hpa Hal Hf Hfl. destruct (leaf_entry pa flags l Hl Hpa Hal Hf Hfl) as (_ & _ & _ & E1 & E2).
  unfold leaf_result. rewrite E1, E2, level_mask, land_ones_mod by lia. fold (level_size l).
  assert (level_size l <= 2 ^ 21) by (unfold level_size; apply Z.pow_le_mono_r; lia).
  pose proof (level_size_pos l). pose proof (Z.mod_pos_bound va (level_size l) ltac:(lia)).
  rewrite wrap_small by (unfold fits; lia). done.
Qed.

(** Nothing is mapped below an entry that is not present. *)
Lemma not_present_query root T s t l va va' :
  pt_ok root T s -> on_walk T t l va -> fits 64 va -> fits 64 va' -> nx_pt_is_canonical va = true -> (l <= 2)%nat ->
  present (pte (pt_mem s) t (index_of va l)) = false -> va' / level_size l = va / level_size l ->
  nx_pt_query root va' s = inl NX_PT_E_NOT_MAPPED.
Proof.
  intros Hok Hw Hva Hva' Hc Hl Hp Hs. assert (0 <= va /\ 0 <= va') as [H0 H0'] by (unfold fits in *; lia).
  pose proof (canonical_page va va' l Hl Hva Hva' Hc Hs) as Hc'. rewrite (query_leaf root T s va' Hok H0'), Hc'.
  apply (vkey_same va va' l) in Hs; [|done..]. destruct Hok as (_ & Hwf & _).
  pose proof (vkey_step va l ltac:(lia) H0) as K1. pose proof (vkey_step va' l ltac:(lia) H0') as K2.
  pose proof (index_range va l ltac:(lia) H0). pose proof (index_range va' l ltac:(lia) H0'). unfold ENTRIES in *.
  assert (vkey va' (S l) = vkey va (S l) /\ index_of va' l = index_of va l) as [E1 E2] by lia.
  rewrite (leaf_reaches T _ root t l va' Hwf H0') by (unfold on_walk; by rewrite E1).
  by rewrite leaf_not_present by (by rewrite E2).
Qed.

(** A mapping that was made. *)
Definition mapped (root va pa size flags : Z) s s' : Prop :=
  (size = NX_PAGE_4K \/ size = NX_PAGE_2M) /\ va mod size = 0 /\ pa mod size = 0 /\ 0 <= pa < NX_PHYS_MAX /\
  nx_pt_is_canonical va = true /\ flags &. u64 (~. NX_PT_LEAF_FLAGS) = 0 /\
  forall va', fits 64 va' ->
    if decide (va' / size = va / size)
    then nx_pt_query root va' s = inl NX_PT_E_NOT_MAPPED /\
         nx_pt_query root va' s' =
           inr (pa + va' mod size, flags |. NX_PTE_P |. (if size =? NX_PAGE_2M then NX_PTE_PS else 0), size)
    else nx_pt_query root va' s' = nx_pt_query root va' s.

Definition unchanged (root : Z) s s' : Prop :=
  forall va, fits 64 va -> nx_pt_query root va s' = nx_pt_query root va s.

Lemma lor_mask_zero x y n : 0 <= n -> 0 <= x -> 0 <= y -> (x |. y) &. (2 ^ n - 1) = 0 -> x mod 2 ^ n = 0 /\ y mod 2 ^ n = 0.
Proof.
  intros Hn Hx Hy. replace (2 ^ n - 1) with (Z.ones n) by (rewrite Z.ones_equiv; lia).
  rewrite Z.land_lor_distr_l, !land_ones_mod by done. intros H. by apply Z.lor_eq_0_iff in H.
Qed.

(** What mapping does to the tables: tables on the way, then the leaf entry. *)
Definition map_effect (root va pa size flags : Z) (T : gmap Z (nat * Z)) s (T' : gmap Z (nat * Z)) (r : nx_pt_status * pt_state A) : Prop :=
  exists s1, grown va T s T' s1 /\ pt_ok root T' s1 /\
    match r.1 with
    | NX_PT_OK => let l := if size =? NX_PAGE_2M then 1%nat else 0%nat in
        exists t, on_walk T' t l va /\ present (pte (pt_mem s1) t (index_of va l)) = false /\
          r.2 = set_pte s1 t (index_of va l) (pa |. flags |. NX_PTE_P |. ps_bit l)
    | _ => r.2 = s1
    end.

Lemma map_cases root T s va pa size flags :
  pt_ok root T s -> fits 64 va -> fits 64 pa -> fits 64 flags ->
  let r := nx_pt_map root va pa size flags s in
  exists T', pt_ok root T' r.2 /\ map_effect root va pa size flags T s T' r /\
    match r.1 with
    | NX_PT_OK => mapped root va pa size flags s r.2
    | st => unchanged root s r.2 /\
        (st = NX_PT_E_EXISTS -> size = NX_PAGE_4K -> exists x, nx_pt_query root va s = inr x)
    end.
Proof.
  intros Hok Hva Hpa Hf. cbv zeta. assert (0 <= va /\ 0 <= pa) as [H0 H0p] by (unfold fits in *; lia). unfold nx_pt_map.
  assert (Hsame0 : forall st, st <> NX_PT_OK -> map_effect root va pa size flags T s T (st, s))
    by (intros st Hst; exists s; split; [apply grown_refl|]; split; [done|by destruct st]).
  destruct (_ && _) eqn:E1; [exists T; split; [done|]; split; [by apply Hsame0|by split]|].
  destruct (negb (_ =? 0)) eqn:E2; [exists T; split; [done|]; split; [by apply Hsame0|by split]|].
  destruct (nx_pt_is_canonical va) eqn:Ec; [cbn [negb]|exists T; split; [done|]; split; [by apply Hsame0|by split]].
  rewrite Z.geb_leb. destruct (Z.leb_spec NX_PHYS_MAX pa) as [|Hmax]; [exists T; split; [done|]; split; [by apply Hsame0|by split]|].
  destruct (negb (flags &. _ =? 0)) eqn:E3; [exists T; split; [done|]; split; [by apply Hsame0|by split]|]. apply negb_false_iff, Z.eqb_eq in E3.
  set (l := if size =? NX_PAGE_2M then 1%nat else 0%nat).
  assert (Hl : (l <= 1)%nat) by (unfold l; clear; destruct (size =? NX_PAGE_2M); lia).
  assert (Hsz : size = level_size l /\ (size = NX_PAGE_4K \/ size = NX_PAGE_2M)).
  { unfold l. destruct (Z.eqb_spec size NX_PAGE_2M) as [->|]; [by split; [|right]|].
    destruct (Z.eqb_spec size NX_PAGE_4K) as [->|]; [by split; [|left]|done]. }
  destruct Hsz as [Hsz Hsz']. apply negb_false_iff, Z.eqb_eq in E2. rewrite Hsz in E2.
  apply (lor_mask_zero va pa (12 + 9 * Z.of_nat l)) in E2 as [Hav Hap]; [|lia|done|done]. fold (level_size l) in Hav, Hap.
  assert (Hps : (if size =? NX_PAGE_2M then NX_PTE_PS else 0) = ps_bit l) by (unfold l, ps_bit; by destruct (size =? NX_PAGE_2M)).
  change NX_PHYS_MAX with (2 ^ 52) in *. destruct Hok as (Hinv & Hwf & Hus).
  assert (Hw0 : on_walk T root (l + (3 - l)) va) by (replace (l + (3 - l))%nat with 3%nat by lia; by apply (root_on_walk T (pt_mem s) root)).
  destruct (walk_loop_spec root (3 - l) l va (flags &. NX_PTE_U) root T s (conj Hinv (conj Hwf Hus)) Hw0 H0 (user_flag_land flags))
    as (T' & Hok' & Hsame & Hgr & Hres). fold (walk_create root va l (flags &. NX_PTE_U) s) in *.
  assert (Hun : unchanged root s (walk_create root va l (flags &. NX_PTE_U) s).2).
  { intros va' Hva'. exact (same_leaves_query root T T' s _ va' (conj Hinv (conj Hwf Hus)) Hok' Hsame (proj1 Hva')). }
  assert (Hmap : leaf_from 3 (pt_mem s) root va <> None -> exists x, nx_pt_query root va s = inr x).
  { intros Hne. rewrite (query_leaf root T s va (conj Hinv (conj Hwf Hus)) H0), Ec.
    destruct (leaf_from 3 (pt_mem s) root va) as [[e sz]|]; [by eexists|done]. }
  destruct (walk_create root va l (flags &. NX_PTE_U) s) as [[st|t] s1]; cbn [fst snd] in *.
  { exists T'. split; [done|]. split; [exists s1; by destruct Hres as [->|[-> _]]|].
    destruct Hres as [->|[-> Hne]]; split; try done. intros _ _. by apply Hmap. }
  destruct (present (pte (pt_mem s1) t (index_of va l))) eqn:Ep; cbn [fst snd].
  { exists T'. split; [done|]. split; [by exists s1|]. split; [done|]. intros _ E4. assert (l = 0%nat) as El by (unfold l; by rewrite E4).
    apply Hmap. rewrite <- Hsame by done. rewrite (leaf_reaches T' (pt_mem s1) root t l va (proj1 (proj2 Hok')) H0 Hres).
    rewrite El in *. unfold leaf_from. cbn [find_loop]. by rewrite Ep. }
  fold (ps_bit l). set (e := pa |. flags |. NX_PTE_P |. ps_bit l).
  destruct (leaf_entry pa flags l Hl ltac:(lia) Hap Hf E3) as (P1 & P2 & _). fold e in P1, P2.
  assert (He : l <> 0%nat -> present e = true -> large e = true) by (intros Hx _; rewrite P2; destruct l as [|[|]]; (done || lia)).
  assert (Hnl : l <> 0%nat -> ~ link (pte (pt_mem s1) t (index_of va l))) by (intros _ [Hx _]; congruence).
  exists T'. split; [by apply (set_leaf_spec root T' s1 t l va e Hok' Hres H0 ltac:(lia))|].
  split; [exists s1; split; [done|]; split; [done|]; by exists t|].
  rewrite Hsz in Hps |- *. split; [by rewrite <- Hsz|]. do 4 (split; [done|]). split; [done|]. intros va' Hva'.
  rewrite (set_leaf_query root T' s1 t l va e va' Hok' Hres Hva Hva' Ec ltac:(lia) He Hnl), P1.
  destruct (decide (va' / level_size l = va / level_size l)) as [Es|Es]; [|by apply Hun]. split.
  - rewrite <- (Hun va' Hva'). by apply (not_present_query root T' s1 t l va va'); try done; lia.
  - rewrite Hps. apply leaf_result_entry; try done; try lia. apply Hva'.
Qed.

Lemma unmap_cases root T s va :
  pt_ok root T s -> fits 64 va ->
  match nx_pt_unmap root va s with
  | (inl st, s') => s' = s /\ nx_pt_query root va s = inl st
  | (inr (pa, size), s') => pt_ok root T s' /\
      (exists flags, nx_pt_query root va s = inr (u64 (pa + (va &. (size - 1))), flags, size)) /\
      forall va', fits 64 va' -> nx_pt_query root va' s' =
        if decide (va' / size = va / size) then inl NX_PT_E_NOT_MAPPED else nx_pt_query root va' s
  end.
Proof.
  intros Hok Hva. assert (H0 : 0 <= va) by apply Hva. pose proof Hok as (Hinv & Hwf & Hus).
  unfold nx_pt_unmap, nx_pt_query at 1 2, find_leaf at 1 2 3. destruct (nx_pt_is_canonical va) eqn:Ec; [cbn [negb]|done].
  pose proof (find_loop_spec T (pt_mem s) root Hwf 3 root va (root_on_walk T (pt_mem s) root Hwf va) H0) as Hs.
  destruct (find_loop 3 (pt_mem s) root va) as [st|[[t i] size]]; [done|].
  destruct Hs as (l & _ & Hl & Hw & -> & -> & Hp & Hlg).
  assert (Hn : l <> 0%nat -> ~ link (pte (pt_mem s) t (index_of va l))) by (intros Hx [_ Hy]; rewrite Hlg in Hy by done; done).
  assert (He : l <> 0%nat -> present 0 = true -> large 0 = true) by done.
  split; [by apply (set_leaf_spec root T s t l va 0 Hok Hw H0 Hl He Hn)|]. split; [by eexists|]. intros va' Hva'.
  by rewrite (set_leaf_query root T s t l va 0 va' Hok Hw Hva Hva' Ec Hl He Hn).
Qed.

(** [n] bytes from [va] on are mapped to [pa] on; nothing else changed. *)
Definition range_mapped (root va pa n flags : Z) s s' : Prop :=
  forall va', fits 64 va' ->
    if decide (va <= va' < va + n)
    then nx_pt_query root va' s = inl NX_PT_E_NOT_MAPPED /\
         exists size ps, nx_pt_query root va' s' = inr (pa + (va' - va), flags |. NX_PTE_P |. ps, size) /\
           ((size = NX_PAGE_4K /\ ps = 0) \/ (size = NX_PAGE_2M /\ ps = NX_PTE_PS))
    else nx_pt_query root va' s' = nx_pt_query root va' s.

Lemma range_mapped_nil root va pa flags s s' : unchanged root s s' -> range_mapped root va pa 0 flags s s'.
Proof. intros H va' Hv. rewrite decide_False by lia. by apply H. Qed.

Lemma range_mapped_step root va pa size n flags s s1 s2 :
  mapped root va pa size flags s s1 -> 0 <= n -> range_mapped root (va + size) (pa + size) n flags s1 s2 ->
  range_mapped root va pa (size + n) flags s s2.
Proof.
  intros (Hsz & Hva & Hpa & _ & _ & _ & Hm) Hn Hr va' Hv. specialize (Hm va' Hv). specialize (Hr va' Hv).
  assert (0 < size) by (destruct Hsz as [->| ->]; by vm_compute).
  assert (Hin : va' / size = va / size <-> va <= va' < va + size).
  { apply Z.mod_divide in Hva as [q ->]; [|lia]. rewrite Z.div_mul by lia. split.
    - intros E. pose proof (Z.div_mod va' size ltac:(lia)). pose proof (Z.mod_pos_bound va' size ltac:(lia)). rewrite E in *. lia.
    - intros E. symmetry. apply (Z.div_unique va' size q (va' - q * size)); lia. }
  destruct (decide (va' / size = va / size)) as [E|E].
  - apply Hin in E as E'. rewrite decide_True by lia. rewrite decide_False in Hr by lia. split; [apply Hm|].
    assert (Hoff : va' mod size = va' - va).
    { apply Z.mod_divide in Hva as [q ->]; [|lia]. rewrite Z.div_mul in E by lia. rewrite Z.mod_eq, E by lia. lia. }
    rewrite Hr, (proj2 Hm), Hoff. eexists _, _. split; [done|].
    destruct Hsz as [->| ->]; [left|right]; done.
  - assert (~ (va <= va' < va + size)) by tauto. destruct (decide (va + size <= va' < va + size + n)).
    + rewrite decide_True by lia. destruct Hr as [H1 (sz & ps & H2 & H3)]. rewrite <- Hm. split; [done|]. exists sz, ps.
      split; [|done]. rewrite H2. do 3 f_equal. lia.
    + rewrite decide_False by lia. by rewrite Hr, Hm.
Qed.

Lemma map_range_cases root fuel va pa len flags allow T s :
  pt_ok root T s -> 0 <= va -> 0 <= pa -> 0 <= len -> fits 64 flags ->
  va + len <= UINT64_MAX -> pa + len <= UINT64_MAX -> va mod 4096 = 0 -> pa mod 4096 = 0 -> len mod 4096 = 0 ->
  len / 4096 <= Z.of_nat fuel ->
  exists st s' T' n, map_range_loop fuel root va pa len flags allow s = Some (st, s') /\ pt_ok root T' s' /\
    0 <= n <= len /\ (st = NX_PT_OK <-> n = len) /\ range_mapped root va pa n flags s s'.
Proof.
  intros Hok Hva Hpa Hlen Hfl. revert va pa len T s Hok Hva Hpa Hlen.
  induction fuel as [|fuel IH]; intros va pa len T s Hok Hva Hpa Hlen H1 H2 A1 A2 A3 Hf; cbn [map_range_loop];
    (destruct (Z.eqb_spec len 0) as [->|Hnz];
      [exists NX_PT_OK, s, T, 0; split_and!; try done; apply range_mapped_nil; by intros ? ?|]); [dlia|].
  set (size := if allow && ((va |. pa) &. (NX_PAGE_2M - 1) =? 0) && (len >=? NX_PAGE_2M) then NX_PAGE_2M else NX_PAGE_4K).
  assert (Hsz : (size = 4096 \/ size = 0x200000) /\ size <= len).
  { unfold size. destruct (_ && _) eqn:E; [apply andb_true_iff in E as [_ E]; apply Z.geb_le in E; split; [by right|done]|].
    split; [by left|]. unfold NX_PAGE_4K. dlia. }
  destruct Hsz as [Hsz Hle]. unfold UINT64_MAX in *.
  destruct (map_cases root T s va pa size flags Hok) as (T1 & Hok1 & _ & Hres); [unfold fits; lia..|done|].
  destruct (nx_pt_map root va pa size flags s) as [st s1]. cbn [fst snd] in *.
  destruct (decide (st = NX_PT_OK)) as [->|Hst].
  - rewrite !wrap_small by (unfold fits; lia).
    destruct (IH (va + size) (pa + size) (len - size) T1 s1 Hok1) as (st & s2 & T2 & n & E1 & E2 & E3 & E4 & E5); try lia.
    1-4: destruct Hsz as [->| ->]; dlia.
    exists st, s2, T2, (size + n). split; [done|]. split; [done|]. split; [lia|]. split; [rewrite E4; lia|].
    apply (range_mapped_step root va pa size n flags s s1 s2); [done|lia|done].
  - assert (Hun : unchanged root s s1) by (destruct st; (done || apply Hres)).
    exists st, s1, T1, 0. split; [by destruct st|]. split; [done|]. split; [lia|]. split; [split; [done|lia]|].
    by apply range_mapped_nil.
Qed.

(** What every single mapping keeps, mapping a range keeps. *)
Lemma map_range_keeps (P : pt_state A -> Prop) root va len flags allow fuel :
  (forall va' pa size s, va <= va' < va + len -> fits 64 pa -> P s -> P (nx_pt_map root va' pa size flags s).2) ->
  0 <= va -> va + len <= UINT64_MAX -> forall va' len' pa s st s',
  va <= va' -> 0 <= len' -> va' + len' <= va + len -> va' mod 4096 = 0 -> len' mod 4096 = 0 -> fits 64 pa -> P s ->
  map_range_loop fuel root va' pa len' flags allow s = Some (st, s') -> P s'.
Proof.
  intros HP H0 Hmax. induction fuel as [|fuel IH]; intros va' len' pa s st s' H1 H2 H3 A1 A2 Hpa Hs; cbn [map_range_loop];
    (destruct (Z.eqb_spec len' 0) as [->|Hnz]; [by intros [= _ <-]|]); [done|].
  set (size := if allow && ((va' |. pa) &. (NX_PAGE_2M - 1) =? 0) && (len' >=? NX_PAGE_2M) then NX_PAGE_2M else NX_PAGE_4K).
  assert (Hsz : (size = 4096 \/ size = 0x200000) /\ size <= len').
  { unfold size. destruct (_ && _) eqn:E; [apply andb_true_iff in E as [_ E]; apply Z.geb_le in E; split; [by right|done]|].
    split; [by left|]. unfold NX_PAGE_4K. dlia. }
  destruct Hsz as [Hsz Hle]. pose proof (HP va' pa size s ltac:(lia) Hpa Hs) as Hs1. clearbody size.
  destruct (nx_pt_map root va' pa size flags s) as [[] s1]; cbn [snd] in Hs1; try (by intros [= _ <-]).
  unfold UINT64_MAX in *. rewrite (wrap_small 64 (va' + size)), (wrap_small 64 (len' - size)) by (unfold fits; lia).
  apply IH; [lia..| | |by apply wrap_fits|exact Hs1]; destruct Hsz as [->| ->]; dlia.
Qed.
End ops.

(** ** Sample environment for the witnesses: pages handed out in ascending order *)

Record bump := mk_bump { b_next : Z }.

#[export] Instance bump_env : PtEnv bump := {
  pt_alloc b := if b_next b + NX_PAGE_4K <? NX_PHYS_MAX then (b_next b, mk_bump (b_next b + NX_PAGE_4K)) else (0, b);
  pt_free b _ := b;
}.

#[export] Program Instance bump_laws : PtEnvLaws bump := {
  pt_inv b := 0 < b_next b /\ b_next b mod NX_PAGE_4K = 0;
  pt_used b q := 0 < q < b_next b /\ q mod NX_PAGE_4K = 0;
}.
Next Obligation.
  intros a p a' [H1 H2]. simpl. destruct (Z.ltb_spec (b_next a + NX_PAGE_4K) NX_PHYS_MAX) as [Hl|Hl]; intros [= <- <-]; simpl.
  - unfold page_aligned, NX_PAGE_4K in *. split; [split; [lia|dlia]|]. split; [|intros _; split; [split; [lia|done]|lia]].
    intros q. split; [|intros [?|[_ ->]]; split; (lia || tauto)]. intros [? ?].
    destruct (decide (q = b_next a)); [right; lia|left; split; [dlia|done]].
  - split; [done|]. split; [|done]. intros q. tauto.
Qed.

(** A root table at 0x1000. *)
Definition sample_pt : pt_state bump := (nx_pt_new_root (mk_pt (mk_bump 0x1000) ∅)).2.

Lemma sample_pt_ok : pt_ok 0x1000 {[0x1000 := (3%nat, 0)]} sample_pt.
Proof.
  assert (Hz : forall i, 0 <= i < ENTRIES -> pte (pt_mem sample_pt) 0x1000 i = 0).
  { intros i Hi. change (pt_mem sample_pt) with (zero_table ∅ 0x1000). by rewrite pte_zero, decide_True. }
  split; [by vm_compute|]. split.
  - split.
    + apply lookup_singleton_eq.
    + intros t l k Ht. apply lookup_singleton_Some in Ht as [<- [= <- <-]]. split; [lia|done].
    + intros t l k i Ht Hi. apply lookup_singleton_Some in Ht as [<- _]. by rewrite Hz.
    + intros t l k Ht Hr. apply lookup_singleton_Some in Ht as [<- _]. done.
  - intros t x Ht. apply lookup_singleton_Some in Ht as [<- _]. by vm_compute.
Qed.

(** The arguments [nx_pt_map_range] lets through. *)
Lemma range_args va pa len :
  fits 64 va -> fits 64 pa -> fits 64 len -> negb ((va |. pa |. len) &. (NX_PAGE_4K - 1) =? 0) = false ->
  negb (len =? 0) && ((va >? UINT64_MAX - len) || (pa >? UINT64_MAX - len)) = false ->
  va mod 4096 = 0 /\ pa mod 4096 = 0 /\ len mod 4096 = 0 /\ va + len <= UINT64_MAX /\ pa + len <= UINT64_MAX.
Proof.
  intros Hva Hpa Hlen E1 E2.
  apply negb_false_iff, Z.eqb_eq in E1. unfold fits in *.
  apply (lor_mask_zero (va |. pa) len 12) in E1 as [E1 A3]; [|lia|apply Z.lor_nonneg; lia|lia].
  rewrite <- land_ones_mod in E1 by lia. change (Z.ones 12) with (2 ^ 12 - 1) in E1.
  apply lor_mask_zero in E1 as [A1 A2]; [|lia|lia|lia]. change (2 ^ 12) with 4096 in *.
  assert (Hr : va + len <= UINT64_MAX /\ pa + len <= UINT64_MAX).
  { apply andb_false_iff in E2 as [E2|E2].
    - apply negb_false_iff, Z.eqb_eq in E2. unfold UINT64_MAX. lia.
    - apply orb_false_iff in E2 as [E2 E3]. rewrite Z.gtb_ltb in E2, E3. apply Z.ltb_ge in E2, E3. lia. }
  by destruct Hr.
Qed.

Lemma map_range_all {A} `{!PtEnv A} `{!PtEnvLaws A} root T (s : pt_state A) va pa len flags allow :
  pt_ok root T s -> fits 64 va -> fits 64 pa -> fits 64 len -> fits 64 flags ->
  exists st s' T' n, nx_pt_map_range root va pa len flags allow s = Some (st, s') /\ pt_ok root T' s' /\
    0 <= n <= len /\ (st = NX_PT_OK -> n = len) /\ (n = len -> 0 < len -> st = NX_PT_OK) /\ range_mapped root va pa n flags s s'.
Proof.
  intros Hok Hva Hpa Hlen Hf. unfold nx_pt_map_range.
  assert (Hstop : forall st, st <> NX_PT_OK -> exists st0 s' T' n, Some (st, s) = Some (st0, s') /\ pt_ok root T' s' /\
    0 <= n <= len /\ (st0 = NX_PT_OK -> n = len) /\ (n = len -> 0 < len -> st0 = NX_PT_OK) /\ range_mapped root va pa n flags s s').
  { intros st Hst. exists st, s, T, 0. split; [done|]. split; [done|]. unfold fits in *. split; [lia|]. split; [done|].
    split; [lia|]. by apply range_mapped_nil. }
  destruct (negb (_ &. _ =? 0)) eqn:E1; [by apply Hstop|]. destruct (negb (len =? 0) && _) eqn:E2; [by apply Hstop|].
  destruct (range_args va pa len Hva Hpa Hlen E1 E2) as (A1 & A2 & A3 & R1 & R2). unfold fits in *.
  destruct (map_range_cases root (Z.to_nat (len / NX_PAGE_4K)) va pa len flags allow T s)
    as (st & s' & T' & n & H1 & H2 & H3 & H4 & H5); try done; try lia.
  { rewrite Z2Nat.id by (apply Z.div_pos; [lia|done]). done. }
  exists st, s', T', n. split; [exact H1|]. split; [done|]. split; [done|]. split; [apply H4|]. split; [|done].
  intros E _. by apply H4.
Qed.

(** ** Theorems *)

(** C18: mapping a page either makes exactly the addresses of that page, and no
    other, translate to the requested frame with the requested flags, where
    nothing was mapped before, or changes no translation at all (running out of
    memory half way included); a 4 KiB mapping is refused as existing only if the
    address is mapped; the tables stay a well-formed tree. *)
Theorem pt_map_exact {A} `{!PtEnv A} `{!PtEnvLaws A} root T (s : pt_state A) va pa size flags :
  pt_ok root T s -> fits 64 va -> fits 64 pa -> fits 64 flags ->
  let r := nx_pt_map root va pa size flags s in
  exists T', pt_ok root T' r.2 /\
    match r.1 with
    | NX_PT_OK => mapped root va pa size flags s r.2
    | st => unchanged root s r.2 /\
        (st = NX_PT_E_EXISTS -> size = NX_PAGE_4K -> exists x, nx_pt_query root va s = inr x)
    end.
Proof. intros H1 H2 H3 H4. destruct (map_cases root T s va pa size flags H1 H2 H3 H4) as (T' & ? & _ & ?). by exists T'. Qed.

(** Mapping a range always returns; it maps the addresses from the start on,
    in order and without gaps, to consecutive frames: all of the range exactly
    when it reports success, and otherwise a prefix that stays mapped. *)
Theorem pt_map_range_prefix {A} `{!PtEnv A} `{!PtEnvLaws A} root T (s : pt_state A) va pa len flags allow :
  pt_ok root T s -> fits 64 va -> fits 64 pa -> fits 64 len -> fits 64 flags ->
  exists st s' T' n, nx_pt_map_range root va pa len flags allow s = Some (st, s') /\ pt_ok root T' s' /\
    0 <= n <= len /\ (st = NX_PT_OK -> n = len) /\ (n = len -> 0 < len -> st = NX_PT_OK) /\ range_mapped root va pa n flags s s'.
Proof. apply map_range_all. Qed.

(** Unmapping an address removes exactly the leaf that maps it and reports
    its frame and size; an address that is not mapped is reported as such and
    nothing changes. *)
Theorem pt_unmap_exact {A} `{!PtEnv A} `{!PtEnvLaws A} root T (s : pt_state A) va :
  pt_ok root T s -> fits 64 va ->
  match nx_pt_unmap root va s with
  | (inl st, s') => s' = s /\ nx_pt_query root va s = inl st
  | (inr (pa, size), s') => pt_ok root T s' /\
      (exists flags, nx_pt_query root va s = inr (u64 (pa + (va &. (size - 1))), flags, size)) /\
      forall va', fits 64 va' -> nx_pt_query root va' s' =
        if decide (va' / size = va / size) then inl NX_PT_E_NOT_MAPPED else nx_pt_query root va' s
  end.
Proof. apply unmap_cases. Qed.

(** ** Witnesses *)

Lemma pt_map_exact_witness :
  let s' := (nx_pt_map 0x1000 0x8000000000 0x7000 NX_PAGE_4K NX_PTE_U sample_pt).2 in
  nx_pt_query 0x1000 0x8000000123 s' = inr (0x7123, 5, NX_PAGE_4K) /\
  nx_pt_query 0x1000 0x8000001000 s' = nx_pt_query 0x1000 0x8000001000 sample_pt.
Proof.
  destruct (pt_map_exact 0x1000 _ sample_pt 0x8000000000 0x7000 NX_PAGE_4K NX_PTE_U sample_pt_ok) as (T' & _ & Hm);
    [unfold fits; lia|unfold fits; lia|by vm_compute|].
  destruct (nx_pt_map 0x1000 0x8000000000 0x7000 NX_PAGE_4K NX_PTE_U sample_pt) as [st s'] eqn:E.
  assert (Hst : st = NX_PT_OK) by (change st with (st, s').1; rewrite <- E; by vm_compute).
  rewrite Hst in Hm. simpl in Hm. destruct Hm as (_ & _ & _ & _ & _ & _ & Hm).
  pose proof (Hm 0x8000000123 ltac:(unfold fits; lia)) as [_ H1]. pose proof (Hm 0x8000001000 ltac:(unfold fits; lia)) as H2.
  split; [exact H1|exact H2].
Defined.

Lemma pt_map_range_prefix_witness : exists st s',
  nx_pt_map_range 0x1000 0x8000000000 0x400000 0x3000 NX_PTE_W true sample_pt = Some (st, s') /\ st = NX_PT_OK /\
  range_mapped 0x1000 0x8000000000 0x400000 0x3000 NX_PTE_W sample_pt s'.
Proof.
  destruct (pt_map_range_prefix 0x1000 _ sample_pt 0x8000000000 0x400000 0x3000 NX_PTE_W true sample_pt_ok)
    as (st & s' & T' & n & H1 & _ & _ & H2 & _ & H3); [unfold fits; lia|unfold fits; lia|unfold fits; lia|by vm_compute|].
  assert (Hst : option_map fst (nx_pt_map_range 0x1000 0x8000000000 0x400000 0x3000 NX_PTE_W true sample_pt) = Some NX_PT_OK)
    by by vm_compute.
  rewrite H1 in Hst. injection Hst as ->. exists NX_PT_OK, s'. rewrite (H2 eq_refl) in H3. split; [exact H1|]. split; [done|exact H3].
Defined.

Lemma pt_unmap_exact_witness :
  nx_pt_unmap 0x1000 0x8000000000 sample_pt = (inl NX_PT_E_NOT_MAPPED, sample_pt) /\
  nx_pt_query 0x1000 0x8000000000 sample_pt = inl NX_PT_E_NOT_MAPPED.
Proof.
  pose proof (pt_unmap_exact 0x1000 _ sample_pt 0x8000000000 sample_pt_ok ltac:(unfold fits; lia)) as H.
  assert (E : (nx_pt_unmap 0x1000 0x8000000000 sample_pt).1 = inl NX_PT_E_NOT_MAPPED) by by vm_compute.
  destruct (nx_pt_unmap 0x1000 0x8000000000 sample_pt) as [[st|[pa size]] s'] eqn:Eu; [|done].
  injection E as ->. destruct H as [-> H]. split; [reflexivity|exact H].
Defined.
