(* ===== verification/PtFree.v ===== *)
(** * Page tables: teardown

    [nx_pt_destroy_slots] of [kernel/mm/pt.c] releases the part of an address space
    below some slots of the top-level table.  The calls it makes are described by
    a list of events; the list is shown to hold every leaf and every table page
    below the slots exactly once. *)
From S2P Require Import Prelude BootAbi Bitmap Pmm Pt.

(** What the teardown does, in order: a leaf (entry [i] of table [t]) is reported, a
    table page is released. *)
Inductive pt_event : Type :=
| EvLeaf (t i pa flags size : Z)
| EvFree (p : Z).

Definition leaf_event (m : gmap (Z * Z) Z) (t i : Z) (l : nat) : pt_event :=
  let e := pte m t i in
  EvLeaf t i (e &. NX_PTE_ADDR &. u64 (~. (level_size l - 1))) (e &. u64 (~. NX_PTE_ADDR)) (level_size l).

(** The events below a table of level [l]. *)
Fixpoint visit (l : nat) (m : gmap (Z * Z) Z) (t : Z) : list pt_event :=
  seqZ 0 ENTRIES ≫= fun i =>
    if present (pte m t i) then
      match l with
      | O => [leaf_event m t i 0]
      | S l' => if large (pte m t i) then [leaf_event m t i l]
                else visit l' m (entry_addr (pte m t i)) ++ [EvFree (entry_addr (pte m t i))]
      end
    else [].

Definition visit_slot (m : gmap (Z * Z) Z) (root i : Z) : list pt_event :=
  if present (pte m root i) then visit 2 m (entry_addr (pte m root i)) ++ [EvFree (entry_addr (pte m root i))] else [].

Lemma for_each_bind {X Y S} (l : list X) (g : X -> list Y) (f : S -> Y -> S) s :
  for_each (l ≫= g) f s = for_each l (fun s x => for_each (g x) f s) s.
Proof.
  unfold for_each. revert s. induction l as [|x l IH]; intros s; [done|]. rewrite bind_cons, fold_left_app. simpl. apply IH.
Qed.

Lemma for_each_ext {X S} (l : list X) (f g : S -> X -> S) s :
  (forall s x, x ∈ l -> f s x = g s x) -> for_each l f s = for_each l g s.
Proof.
  unfold for_each. revert s. induction l as [|x l IH]; intros s H; [done|]. simpl.
  rewrite H by set_solver. apply IH. intros s' y Hy. apply H. set_solver.
Qed.

Lemma bind_ext_in {X Y} (l : list X) (f g : X -> list Y) : (forall x, x ∈ l -> f x = g x) -> l ≫= f = l ≫= g.
Proof.
  induction l as [|x l IH]; intros H; [done|]. rewrite !bind_cons, H by set_solver. f_equal. apply IH. set_solver.
Qed.

Lemma entry_addr_4k e : e &. NX_PTE_ADDR &. u64 (~. (level_size 0 - 1)) = entry_addr e.
Proof.
  fold (entry_addr e). rewrite level_mask. apply Z.bits_inj'. intros i Hi. rewrite Z.land_spec, addr_testbit by done.
  unfold wrap. destruct (Z.leb_spec 12 i), (Z.ltb_spec i 52); rewrite ?andb_false_r, ?andb_true_r; try done.
  rewrite Z.mod_pow2_bits_low, Z.lnot_spec, Z.testbit_ones by lia.
  rewrite (proj2 (Z.ltb_ge i (12 + 9 * Z.of_nat 0))) by lia. by rewrite andb_false_r, andb_true_r.
Qed.

Section teardown.
Context {A : Type} `{!PtEnv A}.
Variable leaf : A -> Z -> Z -> Z -> A.

Definition apply_event (a : A) (ev : pt_event) : A :=
  match ev with EvLeaf _ _ pa flags size => leaf a pa flags size | EvFree p => pt_free a p end.

Lemma destroy_pt_events m t a : destroy_pt leaf m t a = for_each (visit 0 m t) apply_event a.
Proof.
  unfold destroy_pt. cbn [visit]. rewrite for_each_bind. apply for_each_ext. intros s i _. cbv zeta.
  destruct (present _); [|done]. unfold leaf_event, for_each. cbn [fold_left apply_event]. by rewrite entry_addr_4k.
Qed.

Lemma destroy_pd_events m t a : destroy_pd leaf m t a = for_each (visit 1 m t) apply_event a.
Proof.
  unfold destroy_pd. cbn [visit]. rewrite for_each_bind. apply for_each_ext. intros s i _. cbv zeta.
  destruct (present _); [cbn [negb]|done]. destruct (large _); [done|]. rewrite destroy_pt_events. unfold for_each at 2.
  by rewrite fold_left_app.
Qed.

Lemma destroy_pdpt_events m t a : destroy_pdpt leaf m t a = for_each (visit 2 m t) apply_event a.
Proof.
  unfold destroy_pdpt. change (visit 2 m t) with (seqZ 0 ENTRIES ≫= fun i =>
    if present (pte m t i) then if large (pte m t i) then [leaf_event m t i 2]
      else visit 1 m (entry_addr (pte m t i)) ++ [EvFree (entry_addr (pte m t i))] else []).
  rewrite for_each_bind. apply for_each_ext. intros s i _. cbv zeta.
  destruct (present _); [cbn [negb]|done]. destruct (large _); [done|]. rewrite destroy_pd_events. unfold for_each at 2.
  by rewrite fold_left_app.
Qed.
End teardown.

(** ** Lemmas: which events occur *)

Section events.
Variables (T : gmap Z (nat * Z)) (m : gmap (Z * Z) Z) (root : Z).
Hypothesis Hwf : pt_wf T m root.

(** Table [t] is table [k] of level [l], or lies below it; [n] levels at least. *)
Definition below (n l : nat) (k t : Z) (l' : nat) : Prop :=
  exists k', T !! t = Some (l', k') /\ (l' + n <= l)%nat /\ k' / 512 ^ Z.of_nat (l - l') = k.

(** The events of table [k] of level [l]. *)
Definition ev_below (l : nat) (k : Z) (ev : pt_event) : Prop :=
  match ev with
  | EvFree p => exists l', below 1 l k p l'
  | EvLeaf t i _ _ _ => exists l', below 0 l k t l' /\ 0 <= i < ENTRIES /\ is_leaf l' (pte m t i) /\ ev = leaf_event m t i l'
  end.

Lemma below_up n l k i t l' : 0 <= i < 512 -> below n l (k * 512 + i) t l' -> below n (S l) k t l'.
Proof using Type.
  intros Hi (k' & Ht & Hl & Hk). exists k'. split; [done|]. split; [lia|].
  replace (Z.of_nat (S l - l')) with (Z.of_nat (l - l') + 1) by lia. rewrite Z.pow_add_r, <- Z.div_div, Hk by lia.
  change (512 ^ 1) with 512. by apply split_div.
Qed.

(** The ancestor of a table at a higher level. *)
Lemma ancestor t l k d : T !! t = Some (l, k) -> (l + d <= 3)%nat -> exists a, T !! a = Some ((l + d)%nat, k / 512 ^ Z.of_nat d).
Proof using Hwf.
  intros Ht. induction d as [|d IH]; intros Hd; [exists t; by rewrite Nat.add_0_r, Z.div_1_r|].
  destruct IH as [a Ha]; [lia|].
  assert (Hr : a <> root). { intros ->. rewrite (wf_root _ _ _ Hwf) in Ha. injection Ha as E _. lia. }
  destruct (wf_parent _ _ _ Hwf _ _ _ Ha Hr) as (tp & Hp & _). exists tp. rewrite Hp.
  replace (Z.of_nat (S d)) with (Z.of_nat d + 1) by lia. rewrite Z.pow_add_r, <- Z.div_div by lia. do 2 f_equal. lia.
Qed.

(** The entry of table [t] under which a lower table lies. *)
Lemma below_down n l k t x l' :
  T !! t = Some (S l, k) -> (S l <= 3)%nat -> below n (S l) k x l' -> (l' <= l)%nat ->
  exists i, 0 <= i < ENTRIES /\ link (pte m t i) /\ T !! entry_addr (pte m t i) = Some (l, k * 512 + i) /\
    (l' = l -> entry_addr (pte m t i) = x) /\ ((l' + n <= l)%nat -> below n l (k * 512 + i) x l').
Proof using Hwf.
  intros Ht Hl3 (k' & Hx & Hl & Hk) Hle. set (q := k' / 512 ^ Z.of_nat (l - l')).
  destruct (ancestor x l' k' (l - l') Hx) as [a Ha]; [lia|]. replace (l' + (l - l'))%nat with l in Ha by lia. fold q in Ha.
  assert (Hr : a <> root). { intros ->. rewrite (wf_root _ _ _ Hwf) in Ha. injection Ha as E _. lia. }
  assert (Hq : q / 512 = k).
  { rewrite <- Hk. unfold q. rewrite Z.div_div by lia. change 512 with (512 ^ 1) at 2. rewrite <- Z.pow_add_r by lia. f_equal. f_equal. lia. }
  destruct (wf_parent _ _ _ Hwf _ _ _ Ha Hr) as (tp & Hp & Hlk & Had). rewrite Hq in Hp.
  assert (tp = t) as -> by by apply (wf_inj T m root Hwf (S l) k).
  pose proof (Z.mod_pos_bound q 512 ltac:(lia)). pose proof (Z.div_mod q 512 ltac:(lia)) as Hdm. rewrite Hq in Hdm.
  exists (q mod 512). replace (k * 512 + q mod 512) with q by lia. unfold ENTRIES. split; [lia|]. split; [done|].
  rewrite Had. split; [done|]. split.
  - intros ->. apply (wf_inj T m root Hwf l q); [done|]. rewrite Hx. do 2 f_equal. unfold q. by rewrite Nat.sub_diag, Z.div_1_r.
  - intros Hn. exists k'. split; [done|]. split; [done|done].
Qed.

(** The events of one entry. *)
Definition entry_events (l : nat) (t i : Z) : list pt_event :=
  if present (pte m t i) then
    match l with
    | O => [leaf_event m t i 0]
    | S l' => if large (pte m t i) then [leaf_event m t i l]
              else visit l' m (entry_addr (pte m t i)) ++ [EvFree (entry_addr (pte m t i))]
    end
  else [].

Lemma visit_entries l t : visit l m t = seqZ 0 ENTRIES ≫= entry_events l t.
Proof using Type. by destruct l. Qed.

(** An event of entry [i]: its leaf, the table it refers to, or an event below. *)
Definition ev_entry (l : nat) (k t i : Z) (ev : pt_event) : Prop :=
  (is_leaf l (pte m t i) /\ ev = leaf_event m t i l) \/
  exists l', l = S l' /\ link (pte m t i) /\
    (ev = EvFree (entry_addr (pte m t i)) \/ ev_below l' (k * 512 + i) ev).

Lemma ev_entry_below l k t i ev :
  T !! t = Some (l, k) -> 0 <= i < ENTRIES -> ev_entry l k t i ev -> ev_below l k ev.
Proof using Hwf.
  intros Ht Hi [[Hlf ->]|(l' & -> & Hlk & Hev)].
  - exists l. split; [|done]. exists k. split; [done|]. split; [lia|]. by rewrite Nat.sub_diag, Z.div_1_r.
  - pose proof (proj2 (wf_entry _ _ _ Hwf t _ _ _ Ht Hi (proj1 Hlk)) l' eq_refl (proj2 Hlk)) as Hc.
    destruct Hev as [->|Hev].
    + exists l', (k * 512 + i). split; [done|]. split; [lia|]. replace (S l' - l')%nat with 1%nat by lia.
      change (512 ^ Z.of_nat 1) with 512. by apply split_div.
    + destruct ev as [t' i' pa fl sz|p]; simpl in *.
      * destruct Hev as (l2 & Hb & Hr). exists l2. split; [by apply (below_up 0 l' k i)|done].
      * destruct Hev as (l2 & Hb). exists l2. by apply (below_up 1 l' k i).
Qed.

Lemma ev_below_entry l k t ev :
  T !! t = Some (l, k) -> ev_below l k ev -> exists i, 0 <= i < ENTRIES /\ ev_entry l k t i ev.
Proof using Hwf.
  intros Ht Hev. pose proof (wf_level _ _ _ Hwf _ _ _ Ht) as [Hl3 _]. destruct ev as [t' i' pa fl sz|p]; simpl in Hev.
  - destruct Hev as (l' & Hb & Hi & Hlf & E). destruct (decide (l' = l)) as [->|Hne].
    + destruct Hb as (k' & Ht' & _ & Hk). rewrite Nat.sub_diag, Z.div_1_r in Hk. subst k'.
      assert (t' = t) as -> by by apply (wf_inj T m root Hwf l k). exists i'. split; [done|]. left. done.
    + pose proof Hb as (_ & _ & Hle & _). destruct l as [|l]; [lia|].
      destruct (below_down 0 l k t t' l' Ht Hl3 Hb ltac:(lia)) as (i & Hi2 & Hlk & _ & _ & Hb2).
      exists i. split; [done|]. right. exists l. split; [done|]. split; [done|]. right. exists l'. split; [apply Hb2; lia|done].
  - destruct Hev as (l' & Hb). pose proof Hb as (_ & _ & Hle & _). destruct l as [|l]; [lia|].
    destruct (below_down 1 l k t p l' Ht Hl3 Hb ltac:(lia)) as (i & Hi2 & Hlk & _ & Heq & Hb2).
    exists i. split; [done|]. right. exists l. split; [done|]. split; [done|].
    destruct (decide (l' = l)) as [->|Hne]; [left; by rewrite Heq|]. right. exists l'. apply Hb2. lia.
Qed.

(** The table an event is about; the entry it belongs to is determined. *)
Definition ev_loc (ev : pt_event) : Z := match ev with EvLeaf t _ _ _ _ => t | EvFree p => p end.

Lemma ev_entry_loc l k t i ev : T !! t = Some (l, k) -> 0 <= i < ENTRIES -> ev_entry l k t i ev ->
  ev = leaf_event m t i l \/ exists l' l2, l = S l' /\ below 0 l' (k * 512 + i) (ev_loc ev) l2.
Proof using Hwf.
  intros Ht Hi [[_ ->]|(l' & -> & Hlk & Hev)]; [by left|]. right. exists l'. destruct Hev as [->|Hev].
  - exists l'. split; [done|]. exists (k * 512 + i). rewrite Nat.sub_diag, Z.div_1_r. split; [|split; [lia|done]].
    exact (proj2 (wf_entry _ _ _ Hwf t (S l') k i Ht Hi (proj1 Hlk)) l' eq_refl (proj2 Hlk)).
  - destruct ev as [t' i' pa fl sz|p]; simpl in *.
    + destruct Hev as (l2 & Hb & _). by exists l2.
    + destruct Hev as (l2 & k' & H1 & H2 & H3). exists l2. split; [done|]. exists k'. split; [done|]. split; [lia|done].
Qed.

Lemma ev_entry_inj l k t i1 i2 ev :
  T !! t = Some (l, k) -> 0 <= i1 < ENTRIES -> 0 <= i2 < ENTRIES -> ev_entry l k t i1 ev -> ev_entry l k t i2 ev -> i1 = i2.
Proof using Hwf.
  intros Ht Hi1 Hi2 H1 H2. apply (ev_entry_loc l k t) in H1; [|done..]. apply (ev_entry_loc l k t) in H2; [|done..].
  assert (Hno : forall i, ev = leaf_event m t i l -> forall l' l2 q, l = S l' -> ~ below 0 l' q (ev_loc ev) l2).
  { intros i -> l' l2 q -> (k' & Hx & Hle & _). simpl in Hx. rewrite Ht in Hx. injection Hx as <- _. lia. }
  destruct H1 as [E1|(l1 & l2 & E1 & B1)], H2 as [E2|(l3 & l4 & E2 & B2)].
  - rewrite E1 in E2. by injection E2.
  - by destruct (Hno i1 E1 l3 l4 (k * 512 + i2) E2).
  - by destruct (Hno i2 E2 l1 l2 (k * 512 + i1) E1).
  - assert (l3 = l1) as -> by lia. destruct B1 as (k1 & T1 & _ & K1), B2 as (k2 & T2 & _ & K2).
    rewrite T1 in T2. injection T2 as <- <-. lia.
Qed.

Lemma visit_spec l k t ev :
  T !! t = Some (l, k) -> ev ∈ visit l m t <-> ev_below l k ev.
Proof using Hwf.
  revert k t ev. induction l as [l IH] using lt_wf_ind. intros k t ev Ht.
  rewrite visit_entries, list_elem_of_bind.
  assert (He : forall i, 0 <= i < ENTRIES -> ev ∈ entry_events l t i <-> ev_entry l k t i ev).
  { intros i Hi. unfold entry_events, ev_entry, is_leaf, link. destruct (present (pte m t i)) eqn:Ep.
    2:{ split; [intros H; by apply not_elem_of_nil in H|]. naive_solver. }
    destruct l as [|l].
    { rewrite list_elem_of_singleton. split; [intros ->; left; done|]. by intros [[_ ->]|(l' & ? & _)]. }
    destruct (large (pte m t i)) eqn:El.
    { rewrite list_elem_of_singleton. split; [intros ->; left; done|]. by intros [[_ ->]|(l' & _ & [_ ?] & _)]. }
    pose proof (proj2 (wf_entry _ _ _ Hwf t _ _ _ Ht Hi Ep) l eq_refl El) as Hc.
    rewrite elem_of_app, list_elem_of_singleton, (IH l ltac:(lia) _ _ _ Hc). split.
    - intros H. right. exists l. tauto.
    - intros [[[_ Hf] _]|(l' & [= <-] & _ & H)]; [by specialize (Hf ltac:(lia))|tauto]. }
  split.
  - intros (i & Hev & Hi%elem_of_seqZ). apply He in Hev; [|lia]. apply (ev_entry_below l k t i); [done|lia|done].
  - intros Hev. destruct (ev_below_entry l k t ev Ht Hev) as (i & Hi & Hx). exists i. split; [by apply He|]. apply elem_of_seqZ. lia.
Qed.

Lemma entry_events_spec l k t i ev :
  T !! t = Some (l, k) -> 0 <= i < ENTRIES -> ev ∈ entry_events l t i -> ev_entry l k t i ev.
Proof using Hwf.
  intros Ht Hi. unfold entry_events, ev_entry, is_leaf, link. destruct (present (pte m t i)) eqn:Ep; [|set_solver].
  destruct l as [|l]; [rewrite list_elem_of_singleton; intros ->; left; done|].
  destruct (large (pte m t i)) eqn:El; [rewrite list_elem_of_singleton; intros ->; left; done|].
  pose proof (proj2 (wf_entry _ _ _ Hwf t _ _ _ Ht Hi Ep) l eq_refl El) as Hc.
  rewrite elem_of_app, list_elem_of_singleton, (visit_spec l _ _ _ Hc). intros H. right. exists l. tauto.
Qed.

(** No event occurs twice. *)
Lemma visit_NoDup l k t : T !! t = Some (l, k) -> NoDup (visit l m t).
Proof using Hwf.
  revert k t. induction l as [l IH] using lt_wf_ind. intros k t Ht. rewrite visit_entries. apply NoDup_bind.
  - intros i1 i2 ev Hi1%elem_of_seqZ Hi2%elem_of_seqZ H1 H2. apply (ev_entry_inj l k t i1 i2 ev Ht); try lia;
      apply entry_events_spec; (done || lia).
  - intros i Hi%elem_of_seqZ. unfold entry_events. destruct (present (pte m t i)) eqn:Ep; [|constructor].
    destruct l as [|l]; [apply NoDup_singleton|]. destruct (large (pte m t i)) eqn:El; [apply NoDup_singleton|].
    pose proof (proj2 (wf_entry _ _ _ Hwf t _ _ i Ht ltac:(lia) Ep) l eq_refl El) as Hc.
    apply NoDup_app. split; [by apply (IH l ltac:(lia) _ _ Hc)|]. split; [|apply NoDup_singleton].
    intros ev Hev ->%list_elem_of_singleton. apply (visit_spec l _ _ _ Hc) in Hev as (l' & k' & Hx & Hle & _).
    rewrite Hc in Hx. injection Hx as <- _. lia.
  - apply NoDup_seqZ.
Qed.
End events.

(** ** Lemmas: the slots of the root *)

Definition slots (first last : Z) : list Z := seqZ first (Z.min (last + 1) ENTRIES - first).

(** The entries [l] of the root cleared. *)
Definition clear_slots (m : gmap (Z * Z) Z) (root : Z) (l : list Z) : gmap (Z * Z) Z :=
  for_each l (fun m i => if present (pte m root i) then <[(root, i) := 0]> m else m) m.

Lemma clear_slots_pte m root l t i :
  pte (clear_slots m root l) t i = if decide (t = root /\ i ∈ l /\ present (pte m root i) = true) then 0 else pte m t i.
Proof.
  unfold clear_slots, for_each. revert m. induction l as [|x l IH]; intros m; cbn [fold_left].
  { by rewrite decide_False by set_solver. }
  rewrite IH. destruct (present (pte m root x)) eqn:Ep.
  - rewrite !pte_insert. destruct (decide (t = root /\ i = x)) as [[-> ->]|Hn].
    + rewrite (decide_True (P := root = root /\ x ∈ x :: l /\ _)) by (split_and!; [done|set_solver|done]).
      by destruct (decide _).
    + apply decide_ext. destruct (decide (i = x)) as [->|]; [|rewrite decide_False by tauto; set_solver].
      split; [intros (-> & _)|intros (-> & _)]; by destruct Hn.
  - apply decide_ext. split; [set_solver|]. intros (-> & Hi & Hp). split; [done|]. split; [|done].
    apply elem_of_cons in Hi as [->|Hi]; [congruence|done].
Qed.

Section slots_events.
Variables (T : gmap Z (nat * Z)) (m : gmap (Z * Z) Z) (root : Z).
Hypothesis Hwf : pt_wf T m root.

(** Clearing entries of the root does not touch lower tables. *)
Lemma visit_ext m' l t k :
  (forall t' i, t' <> root -> pte m' t' i = pte m t' i) -> T !! t = Some (l, k) -> (l < 3)%nat -> visit l m' t = visit l m t.
Proof using Hwf.
  intros Ha. revert t k. induction l as [l IH] using lt_wf_ind. intros t k Ht Hl.
  assert (Hr : t <> root) by (intros ->; rewrite (wf_root _ _ _ Hwf) in Ht; injection Ht as <- _; lia).
  rewrite !visit_entries. apply bind_ext_in. intros i Hi%elem_of_seqZ.
  unfold entry_events, leaf_event. rewrite Ha by done. destruct (present (pte m t i)) eqn:Ep; [|done]. destruct l as [|l]; [done|].
  destruct (large (pte m t i)) eqn:El; [done|].
  by rewrite (IH l ltac:(lia) _ _ (proj2 (wf_entry _ _ _ Hwf t _ _ i Ht ltac:(lia) Ep) l eq_refl El)) by lia.
Qed.

Lemma slot_table i : 0 <= i < ENTRIES -> present (pte m root i) = true -> T !! entry_addr (pte m root i) = Some (2%nat, i).
Proof using Hwf.
  intros Hi Hp. destruct (wf_entry _ _ _ Hwf root 3 0 i (wf_root _ _ _ Hwf) Hi Hp) as [H1 H2].
  by apply (H2 2%nat eq_refl), H1.
Qed.

Lemma visit_slot_ext m' i :
  (forall t' i', t' <> root -> pte m' t' i' = pte m t' i') -> pte m' root i = pte m root i -> 0 <= i < ENTRIES ->
  visit_slot m' root i = visit_slot m root i.
Proof using Hwf.
  intros Ha He Hi. unfold visit_slot. rewrite He. destruct (present (pte m root i)) eqn:Ep; [|done].
  by rewrite (visit_ext m' 2 _ i Ha (slot_table i Hi Ep)) by lia.
Qed.

(** The events of slot [i]. *)
Definition ev_slot (i : Z) (ev : pt_event) : Prop :=
  match ev with
  | EvFree p => exists l, below T 0 2 i p l
  | EvLeaf t j _ _ _ => exists l, below T 0 2 i t l /\ 0 <= j < ENTRIES /\ is_leaf l (pte m t j) /\ ev = leaf_event m t j l
  end.

(** A table below slot [i] makes the slot present. *)
Lemma slot_present i t l : 0 <= i < ENTRIES -> below T 0 2 i t l -> present (pte m root i) = true.
Proof using Hwf.
  intros Hi (k & Ht & Hl & Hk). destruct (ancestor T m root Hwf t l k (2 - l) Ht) as [a Ha]; [lia|].
  replace (l + (2 - l))%nat with 2%nat in Ha by lia. rewrite Hk in Ha.
  assert (Hr : a <> root) by (intros ->; rewrite (wf_root _ _ _ Hwf) in Ha; injection Ha as E _; lia).
  destruct (wf_parent _ _ _ Hwf _ _ _ Ha Hr) as (tp & Hp & [Hpr _] & _).
  pose proof (wf_level _ _ _ Hwf _ _ _ Hp) as [_ Hroot]. rewrite (Hroot eq_refl) in Hpr.
  unfold ENTRIES in Hi. by rewrite Z.mod_small in Hpr by lia.
Qed.

Lemma visit_slot_spec i ev : 0 <= i < ENTRIES -> ev ∈ visit_slot m root i <-> ev_slot i ev.
Proof using Hwf.
  intros Hi. unfold visit_slot. destruct (present (pte m root i)) eqn:Ep.
  2:{ split; [intros H; by apply not_elem_of_nil in H|]. destruct ev as [t j pa fl sz|p]; simpl.
      - intros (l & Hb & _). apply slot_present in Hb; [congruence|done].
      - intros (l & Hb). apply slot_present in Hb; [congruence|done]. }
  pose proof (slot_table i Hi Ep) as Hc. rewrite elem_of_app, list_elem_of_singleton, (visit_spec T m root Hwf 2 i _ ev Hc).
  destruct ev as [t j pa fl sz|p]; simpl; [split; [intros [H|H]; [done|done]|by left]|]. split.
  - intros [(l & k & H1 & H2 & H3)|[= ->]]; [exists l, k; split_and!; (done || lia)|].
    exists 2%nat, i. split_and!; [done|lia|]. by rewrite Nat.sub_diag, Z.div_1_r.
  - intros (l & k & H1 & H2 & H3). destruct (decide (l = 2%nat)) as [->|].
    + right. rewrite Nat.sub_diag, Z.div_1_r in H3. subst k. f_equal. by apply (wf_inj T m root Hwf 2 i).
    + left. exists l, k. split_and!; (done || lia).
Qed.

Lemma visit_slot_NoDup i : 0 <= i < ENTRIES -> NoDup (visit_slot m root i).
Proof using Hwf.
  intros Hi. unfold visit_slot. destruct (present (pte m root i)) eqn:Ep; [|constructor].
  pose proof (slot_table i Hi Ep) as Hc. apply NoDup_app. split; [by apply (visit_NoDup T m root Hwf 2 i)|].
  split; [|apply NoDup_singleton]. intros ev Hev ->%list_elem_of_singleton.
  apply (visit_spec T m root Hwf 2 i _ _ Hc) in Hev as (l' & k' & Hx & Hle & _). rewrite Hc in Hx. injection Hx as <- _. lia.
Qed.

Lemma ev_slot_inj i1 i2 ev : ev_slot i1 ev -> ev_slot i2 ev -> i1 = i2.
Proof using Type.
  destruct ev as [t j pa fl sz|p]; simpl.
  - intros (l1 & (k1 & H1 & _ & <-) & _) (l2 & (k2 & H2 & _ & <-) & _). congruence.
  - intros (l1 & k1 & H1 & _ & <-) (l2 & k2 & H2 & _ & <-). congruence.
Qed.

Lemma visit_slots_NoDup l : NoDup l -> (forall i, i ∈ l -> 0 <= i < ENTRIES) -> NoDup (l ≫= visit_slot m root).
Proof using Hwf.
  intros Hnd Hl. apply NoDup_bind; [|intros i Hi; by apply visit_slot_NoDup, Hl|done].
  intros i1 i2 ev H1 H2 E1 E2. apply visit_slot_spec in E1, E2; [|auto..]. by apply (ev_slot_inj i1 i2 ev).
Qed.
End slots_events.

(** ** Lemmas: the whole teardown *)

Section destroy.
Context {A : Type} `{!PtEnv A} `{!PtEnvLaws A}.
Variable leaf : A -> Z -> Z -> Z -> A.
Implicit Types s : pt_state A.

Lemma destroy_loop T m root l s :
  pt_wf T m root -> NoDup l -> (forall i, i ∈ l -> 0 <= i < ENTRIES) ->
  (forall t i, t <> root -> pte (pt_mem s) t i = pte m t i) -> (forall i, i ∈ l -> pte (pt_mem s) root i = pte m root i) ->
  for_each l (fun s i => let e := pte (pt_mem s) root i in
    if negb (present e) then s
    else set_pte (mk_pt (pt_free (destroy_pdpt leaf (pt_mem s) (entry_addr e) (pt_ctx s)) (entry_addr e)) (pt_mem s)) root i 0) s =
  mk_pt (for_each (l ≫= visit_slot m root) (apply_event leaf) (pt_ctx s)) (clear_slots (pt_mem s) root l).
Proof.
  intros Hwf. revert s. induction l as [|i l IH]; intros s Hnd Hl Ho Hr; [by destruct s|].
  apply NoDup_cons in Hnd as [Hi Hnd]. rewrite bind_cons. unfold for_each in *. rewrite fold_left_app. cbn [fold_left].
  pose proof (Hr i (list_elem_of_here _ _)) as Ei. pose proof (Hl i (list_elem_of_here _ _)) as Hri. cbv zeta.
  set (s1 := if negb _ then s else _).
  assert (E1 : pt_ctx s1 = fold_left (apply_event leaf) (visit_slot m root i) (pt_ctx s) /\
    pt_mem s1 = if present (pte (pt_mem s) root i) then <[(root, i) := 0]> (pt_mem s) else pt_mem s).
  { unfold s1. rewrite <- (visit_slot_ext T m root Hwf (pt_mem s) i Ho Ei Hri). unfold visit_slot.
    destruct (present (pte (pt_mem s) root i)); [|done]. cbn [negb set_pte pt_ctx pt_mem]. split; [|done].
    rewrite fold_left_app, destroy_pdpt_events. done. }
  destruct E1 as [Ec Em].
  assert (Hm1 : forall t j, (t, j) <> (root, i) -> pte (pt_mem s1) t j = pte (pt_mem s) t j).
  { intros t j Hne. rewrite Em. destruct (present _); [|done]. rewrite pte_insert, decide_False; [done|]. by intros [-> ->]. }
  rewrite IH; [|done|intros j Hj; by apply Hl, list_elem_of_further| |].
  - rewrite Ec. f_equal. unfold clear_slots, for_each. cbn [fold_left]. by rewrite Em.
  - intros t j Ht. rewrite Hm1 by (intros [= -> _]; done). by apply Ho.
  - intros j Hj. rewrite Hm1 by (intros [= ->]; done). by apply Hr, list_elem_of_further.
Qed.

Lemma destroy_slots_eq T root first last s :
  pt_wf T (pt_mem s) root -> 0 <= first ->
  nx_pt_destroy_slots leaf root first last s =
    mk_pt (for_each (slots first last ≫= visit_slot (pt_mem s) root) (apply_event leaf) (pt_ctx s))
      (clear_slots (pt_mem s) root (slots first last)).
Proof.
  intros Hwf Hf. unfold nx_pt_destroy_slots. fold (slots first last).
  apply (destroy_loop T (pt_mem s) root (slots first last) s Hwf); [apply NoDup_seqZ| |done|done].
  intros i Hi%elem_of_seqZ. unfold ENTRIES in *. lia.
Qed.

Lemma destroy_leaves T root l m va :
  pt_wf T m root -> 0 <= va ->
  leaf_from 3 (clear_slots m root l) root va = if decide (index_of va 3 ∈ l) then None else leaf_from 3 m root va.
Proof.
  intros Hwf Hva. destruct (decide (index_of va 3 ∈ l)) as [Hi|Hi].
  - apply leaf_not_present. rewrite clear_slots_pte. destruct (decide _) as [|Hn]; [done|].
    destruct (present (pte m root (index_of va 3))) eqn:E; [|done]. by destruct Hn.
  - apply (leaf_frame T m root Hwf); [by apply (root_on_walk T m root)|done|]. intros t' l' Hw. left.
    rewrite clear_slots_pte, decide_False; [done|]. intros (-> & Hin & _). unfold on_walk in Hw.
    rewrite (wf_root _ _ _ Hwf) in Hw. injection Hw as <- _. done.
Qed.

Definition in_slots (first last i : Z) : Prop := first <= i <= last /\ i < ENTRIES.

Lemma elem_slots first last i : 0 <= first -> i ∈ slots first last <-> in_slots first last i.
Proof. intros. unfold slots, in_slots, ENTRIES. rewrite elem_of_seqZ. lia. Qed.
End destroy.

Lemma destroy_events {A} `{!PtEnv A} (leaf : A -> Z -> Z -> Z -> A) T root first last (s : pt_state A) :
  pt_wf T (pt_mem s) root -> 0 <= first ->
  let s' := nx_pt_destroy_slots leaf root first last s in
  exists evs, pt_ctx s' = for_each evs (apply_event leaf) (pt_ctx s) /\ NoDup evs /\
    (forall p, EvFree p ∈ evs <-> exists i l, in_slots first last i /\ below T 0 2 i p l) /\
    (forall t j pa flags size, EvLeaf t j pa flags size ∈ evs <->
       exists i l, in_slots first last i /\ below T 0 2 i t l /\ 0 <= j < ENTRIES /\ is_leaf l (pte (pt_mem s) t j) /\
         EvLeaf t j pa flags size = leaf_event (pt_mem s) t j l) /\
    (forall va, 0 <= va -> leaf_from 3 (pt_mem s') root va =
       if decide (in_slots first last (index_of va 3)) then None else leaf_from 3 (pt_mem s) root va).
Proof.
  intros Hwf Hf s'. unfold s'. rewrite (destroy_slots_eq leaf T) by done. cbn [pt_ctx pt_mem].
  eexists. split; [done|].
  assert (Hr : forall i, i ∈ slots first last -> 0 <= i < ENTRIES) by (intros i Hi; apply elem_slots in Hi; unfold in_slots in Hi; lia).
  assert (Hin : forall ev, ev ∈ slots first last ≫= visit_slot (pt_mem s) root <->
    exists i, in_slots first last i /\ ev_slot T (pt_mem s) i ev).
  { intros ev. rewrite list_elem_of_bind. split.
    - intros (i & Hev & Hi). exists i. split; [by apply elem_slots|]. apply (visit_slot_spec T (pt_mem s) root Hwf); auto.
    - intros (i & Hi & Hev). apply elem_slots in Hi as Hi'; [|done]. exists i. split; [|done].
      apply (visit_slot_spec T (pt_mem s) root Hwf); auto. }
  split; [apply (visit_slots_NoDup T (pt_mem s) root Hwf); [apply NoDup_seqZ|done]|].
  split; [intros p; rewrite Hin; simpl; naive_solver|].
  split; [intros t j pa flags size; rewrite Hin; simpl; naive_solver|].
  intros va Hva. rewrite (destroy_leaves T) by done. apply decide_ext. by apply elem_slots.
Qed.

(** ** Theorems *)

(** C19: tearing down slots of an address space reports every leaf below them and
    releases every table page below them, each exactly once, and touches nothing
    else; afterwards no address in those slots is mapped and every other address
    translates as before. *)
Theorem pt_destroy_exact {A} `{!PtEnv A} (leaf : A -> Z -> Z -> Z -> A) T root first last (s : pt_state A) :
  pt_wf T (pt_mem s) root -> 0 <= first ->
  let s' := nx_pt_destroy_slots leaf root first last s in
  exists evs, pt_ctx s' = for_each evs (apply_event leaf) (pt_ctx s) /\ NoDup evs /\
    (forall p, EvFree p ∈ evs <-> exists i l, in_slots first last i /\ below T 0 2 i p l) /\
    (forall t j pa flags size, EvLeaf t j pa flags size ∈ evs <->
       exists i l, in_slots first last i /\ below T 0 2 i t l /\ 0 <= j < ENTRIES /\ is_leaf l (pte (pt_mem s) t j) /\
         EvLeaf t j pa flags size = leaf_event (pt_mem s) t j l) /\
    (forall va, 0 <= va -> leaf_from 3 (pt_mem s') root va =
       if decide (in_slots first last (index_of va 3)) then None else leaf_from 3 (pt_mem s) root va).
Proof. apply destroy_events. Qed.

(** ** Witnesses *)

(** One page mapped at the bottom of slot 1. *)
Definition sample_mapped : pt_state bump := (nx_pt_map 0x1000 0x8000000000 0x7000 NX_PAGE_4K NX_PTE_U sample_pt).2.

Lemma pt_destroy_exact_witness :
  leaf_from 3 (pt_mem sample_mapped) 0x1000 0x8000000000 = Some (0x7005, NX_PAGE_4K) /\
  leaf_from 3 (pt_mem (nx_pt_destroy_slots (fun a _ _ _ => a) 0x1000 1 255 sample_mapped)) 0x1000 0x8000000000 = None.
Proof.
  destruct (map_cases 0x1000 _ sample_pt 0x8000000000 0x7000 NX_PAGE_4K NX_PTE_U sample_pt_ok) as (T & (_ & Hwf & _) & _);
    [unfold fits; lia|unfold fits; lia|by vm_compute|].
  destruct (pt_destroy_exact (fun a _ _ _ => a) T 0x1000 1 255 sample_mapped Hwf ltac:(lia)) as (evs & _ & _ & _ & _ & H).
  split; [by vm_compute|]. rewrite (H 0x8000000000 ltac:(lia)). by vm_compute.
Defined.
