(* ===== verification/Vmm.v ===== *)
(** * Address spaces

    [kernel/mm/vmm.c] and the address-space part of [kernel/task.c]: page tables
    are built with [pt.c] on top of the page allocator, a task gets an address
    space that shares the kernel's slots, its program is loaded into pages it
    owns, and everything is given back when the task ends.

    The state is that of [pt.c] with the allocator, the table counter, the bytes
    of physical memory and the flag that the kernel has stopped ([nx_panic]).  The
    entries of page tables and the bytes of other pages are kept apart: a page is
    used as the one or the other. *)
From S2P Require Import Prelude Bytes Abi BootAbi Bitmap Pmm ElfPlan Pt PtFree.

(** ** Data *)

Record vmm := mk_vmm {
  v_pmm : nx_pmm;
  v_tables : Z;
  v_panic : bool;
  v_data : Z -> Z;
}.

Abbreviation vst := (pt_state vmm).

Definition NX_AS_USER_SLOT_FIRST : Z := 1.
Definition NX_AS_USER_SLOT_LAST : Z := 255.

(** ** The page-table environment of the kernel *)

Definition env_alloc (v : vmm) : Z * vmm :=
  let r := nx_pmm_alloc (v_pmm v) in
  (r.1, mk_vmm r.2 (if r.1 =? 0 then v_tables v else u64 (v_tables v + 1)) (v_panic v) (v_data v)).

Definition nx_page_free (v : vmm) (phys : Z) : vmm :=
  match nx_pmm_free (v_pmm v) phys with
  | (NX_PMM_OK, p) => mk_vmm p (v_tables v) (v_panic v) (v_data v)
  | (_, p) => mk_vmm p (v_tables v) true (v_data v)
  end.

Definition tables_dec (v : vmm) : vmm := mk_vmm (v_pmm v) (u64 (v_tables v - 1)) (v_panic v) (v_data v).

Definition env_free (v : vmm) (phys : Z) : vmm := tables_dec (nx_page_free v phys).

#[export] Instance vmm_env : PtEnv vmm := { pt_alloc := env_alloc; pt_free := env_free }.

Definition set_ctx (s : vst) (v : vmm) : vst := mk_pt v (pt_mem s).

(** ** Address spaces *)

(** 0 when no page is left. *)
Definition nx_as_create (kernel_root : Z) (s : vst) : Z * vst :=
  match nx_pt_new_root s with
  | (inl _, s') => (0, s')
  | (inr root, s') =>
      (root, for_each (0 :: seqZ 256 256) (fun s i => set_pte s root i (pte (pt_mem s) kernel_root i)) s')
  end.

Definition nx_as_destroy (leaf : vmm -> Z -> Z -> Z -> vmm) (root : Z) (s : vst) : vst :=
  let s1 := nx_pt_destroy_slots leaf root NX_AS_USER_SLOT_FIRST NX_AS_USER_SLOT_LAST s in
  set_ctx s1 (tables_dec (nx_page_free (pt_ctx s1) root)).

Definition nx_vmm_map_page_in (root va pa flags : Z) (s : vst) : nx_pt_status * vst :=
  nx_pt_map root va pa NX_PAGE_4K flags s.

(** ** Pages of a task *)

Definition free_owned_leaf (v : vmm) (pa flags size : Z) : vmm :=
  if negb (flags &. NX_PTE_OWNED =? 0) && (size =? NX_PAGE_4K) then nx_page_free v pa else v.

(** [memset] and [memcpy] on physical memory. *)
Definition store_bytes (d : Z -> Z) (pa : Z) (b : list Z) : Z -> Z := fun x =>
  if (pa <=? x) && (x <? pa + Z.of_nat (length b)) then b.[x - pa] else d x.

Definition set_data (s : vst) (pa : Z) (b : list Z) : vst :=
  let v := pt_ctx s in set_ctx s (mk_vmm (v_pmm v) (v_tables v) (v_panic v) (store_bytes (v_data v) pa b)).

Definition set_pmm (s : vst) (p : nx_pmm) : vst :=
  let v := pt_ctx s in set_ctx s (mk_vmm p (v_tables v) (v_panic v) (v_data v)).

Definition map_new_page (root va flags : Z) (s : vst) : (nx_error + Z) * vst :=
  let r := nx_pmm_alloc (v_pmm (pt_ctx s)) in
  if r.1 =? 0 then (inl NX_ENOMEM, set_pmm s r.2)
  else
    let s1 := set_data (set_pmm s r.2) r.1 (replicate (Z.to_nat NX_PAGE_4K) 0) in
    match nx_vmm_map_page_in root va r.1 (flags |. NX_PTE_U |. NX_PTE_OWNED) s1 with
    | (NX_PT_OK, s2) => (inr r.1, s2)
    | (st, s2) => (inl (if decide (st = NX_PT_E_NOMEM) then NX_ENOMEM else NX_EINVAL), set_ctx s2 (nx_page_free (pt_ctx s2) r.1))
    end.

(** The part of the file that belongs into the page at [va]; [None] is a read
    outside the image. *)
Definition copy_page (img : list Z) (sg : nx_elf_segment) (va pa : Z) (s : vst) : option vst :=
  let lo := if va >? sg_addr sg then va else sg_addr sg in
  let hi := u64 (sg_addr sg + sg_file_size sg) in
  let hi := if hi >? u64 (va + NX_PAGE_4K) then u64 (va + NX_PAGE_4K) else hi in
  if lo <? hi then
    let off := sg_file_offset sg + (lo - sg_addr sg) in
    if off + (hi - lo) <=? Z.of_nat (length img)
    then Some (set_data s (pa + (lo - va)) (take (Z.to_nat (hi - lo)) (drop (Z.to_nat off) img)))
    else None
  else Some s.

Definition segment_flags (sg : nx_elf_segment) : Z :=
  (if negb (sg_flags sg &. 2 =? 0) then NX_PTE_W else 0) |. (if negb (sg_flags sg &. 1 =? 0) then 0 else NX_PTE_NX).

(** The pages of a segment from [va] on; [None] also when the fuel runs out. *)
Fixpoint load_pages (fuel : nat) (root : Z) (img : list Z) (sg : nx_elf_segment) (va end_ : Z) (s : vst)
    : option (option nx_error * vst) :=
  if va <? end_ then
    match fuel with
    | O => None
    | S fuel' =>
        match map_new_page root va (segment_flags sg) s with
        | (inl e, s') => Some (Some e, s')
        | (inr pa, s') =>
            s'' ← copy_page img sg va pa s';
            load_pages fuel' root img sg (u64 (va + NX_PAGE_4K)) end_ s''
        end
    end
  else Some (None, s).

Definition load_segment (root : Z) (img : list Z) (sg : nx_elf_segment) (s : vst) : option (option nx_error * vst) :=
  let first := sg_addr sg &. u64 (~. (NX_PAGE_4K - 1)) in
  let end_ := u64 (sg_addr sg + sg_mem_size sg + NX_PAGE_4K - 1) &. u64 (~. (NX_PAGE_4K - 1)) in
  load_pages (Z.to_nat ((end_ - first) / NX_PAGE_4K)) root img sg first end_ s.

Fixpoint load_segments (root : Z) (img : list Z) (segs : list nx_elf_segment) (s : vst) : option (option nx_error * vst) :=
  match segs with
  | [] => Some (None, s)
  | sg :: segs' =>
      r ← load_segment root img sg s;
      match r with
      | (None, s') => load_segments root img segs' s'
      | (Some e, s') => Some (Some e, s')
      end
  end.

(** [plan] is the previous contents of the static plan. *)
Definition load_elf (root : Z) (img : list Z) (plan : nx_elf_plan_t) (s : vst) : option ((nx_error + Z) * vst) :=
  r ← nx_elf_plan_user img plan;
  match r with
  | (NX_ELF_OK, plan') =>
      q ← load_segments root img (pl_segments plan') s;
      Some (match q with (None, s') => (inr (pl_entry plan'), s') | (Some e, s') => (inl e, s') end)
  | (_, _) => Some (inl NX_EINVAL, s)
  end.

(** The pages of the user stack, from page [i] on. *)
Fixpoint stack_pages (n : nat) (i root : Z) (s : vst) : option nx_error * vst :=
  match n with
  | O => (None, s)
  | S n' =>
      match map_new_page root (u64 (NX_USER_STACK_TOP - (i + 1) * NX_PAGE_4K)) (NX_PTE_W |. NX_PTE_NX) s with
      | (inl e, s') => (Some e, s')
      | (inr _, s') => stack_pages n' (i + 1) root s'
      end
  end.

(** The address-space part of [nx_utask_create]: the error, or the root and the
    entry point. *)
Definition utask_space (kernel_root : Z) (img : list Z) (plan : nx_elf_plan_t) (s : vst)
    : option ((nx_error + Z * Z) * vst) :=
  let c := nx_as_create kernel_root s in
  let root := c.1 in
  r ← (if root =? 0 then Some (inl NX_ENOMEM, c.2) else load_elf root img plan c.2);
  Some
    match r with
    | (inr entry, s1) =>
        match stack_pages (Z.to_nat NX_USER_STACK_PAGES) 0 root s1 with
        | (None, s2) => (inr (root, entry), s2)
        | (Some e, s2) => (inl e, nx_as_destroy free_owned_leaf root s2)
        end
    | (inl e, s1) => (inl e, if root =? 0 then s1 else nx_as_destroy free_owned_leaf root s1)
    end.

(** ** Lemmas: the allocator *)

Lemma alloc_npages p : p_npages (nx_pmm_alloc p).2 = p_npages p.
Proof. unfold nx_pmm_alloc. destruct (_ =? 0); [done|]. by destruct (find_first _ _). Qed.

Lemma free_npages p phys : p_npages (nx_pmm_free p phys).2 = p_npages p.
Proof.
  unfold nx_pmm_free. destruct (negb _); [done|]. cbv zeta. destruct (_ || _); [done|]. by destruct (negb _).
Qed.

Definition page_used (p : nx_pmm) (q : Z) : Prop := exists i, q = i * PAGE /\ i ∈ managed_set p /\ i ∉ free_set p.
Definition pmm_ok (p : nx_pmm) : Prop := pmm_wf p /\ p_npages p * PAGE <= NX_PHYS_MAX.

(** The managed pages: what the allocator has, used or free. *)
Definition page_managed (p : nx_pmm) (q : Z) : Prop := exists i, q = i * PAGE /\ i ∈ managed_set p.

Lemma page_inj i j : i * PAGE = j * PAGE -> i = j.
Proof. unfold PAGE. lia. Qed.

Lemma managed_aligned p i : pmm_ok p -> i ∈ managed_set p -> page_aligned (i * PAGE) /\ 0 < i * PAGE.
Proof.
  intros [Hwf Hn] Hi. pose proof Hi as [Hr _]%elem_managed. destruct Hwf as (_ & _ & _ & _ & _ & _ & Hm & _).
  destruct (Hm i Hi) as [Hlo _]. unfold page_aligned, PAGE, NX_PMM_MIN_PHYS, NX_PAGE_4K in *. split; [|lia].
  split; [lia|]. apply Z.mod_mul. lia.
Qed.

Lemma pmm_alloc_page p :
  pmm_ok p -> let '(q, p') := nx_pmm_alloc p in
  pmm_ok p' /\ managed_set p' = managed_set p /\ (forall x, page_used p' x <-> page_used p x \/ (q <> 0 /\ x = q)) /\
  (q <> 0 -> page_aligned q /\ 0 < q /\ ~ page_used p q /\ page_managed p q).
Proof.
  intros Hok. pose proof Hok as [Hwf Hn]. pose proof (alloc_cases p Hwf) as Hc. pose proof (alloc_npages p) as Hnp.
  destruct (nx_pmm_alloc p) as [q p']. cbn [snd] in Hnp. destruct Hc as (Hwf' & Hm & Hc).
  split; [split; [done|by rewrite Hnp]|]. split; [done|]. unfold page_used. rewrite Hm.
  destruct Hc as [(He & -> & ->)|(i & Hi & -> & Hf)]; [split; [naive_solver|done]|].
  assert (Hmi : i ∈ managed_set p) by by apply free_subset_managed.
  destruct (managed_aligned p i Hok Hmi) as [Ha Hpos]. split.
  - intros x. rewrite Hf. split.
    + intros (j & -> & Hj & Hnf). destruct (decide (j = i)) as [->|]; [right; split; [lia|done]|left; exists j; set_solver].
    + intros [(j & -> & Hj & Hnf)|[_ ->]]; [exists j; set_solver|exists i; set_solver].
  - intros _. split; [done|]. split; [done|]. split; [|by exists i]. intros (j & E & _ & Hj). apply page_inj in E as ->. done.
Qed.

#[export] Program Instance vmm_laws : PtEnvLaws vmm := {
  pt_inv v := pmm_ok (v_pmm v);
  pt_used v q := page_used (v_pmm v) q;
}.
Next Obligation.
  intros a p a' Hok. simpl. unfold env_alloc. pose proof (pmm_alloc_page (v_pmm a) Hok) as H.
  destruct (nx_pmm_alloc (v_pmm a)) as [q p']. intros [= <- <-]. simpl. destruct H as (H1 & _ & H2 & H3). split; [done|].
  split; [done|]. intros Hq. destruct (H3 Hq) as (? & _ & ? & _). done.
Qed.

(** Releasing a page in use succeeds. *)
Lemma page_free_used v q :
  pmm_ok (v_pmm v) -> page_used (v_pmm v) q ->
  let v' := nx_page_free v q in
  pmm_ok (v_pmm v') /\ v_panic v' = v_panic v /\ v_tables v' = v_tables v /\ v_data v' = v_data v /\
  managed_set (v_pmm v') = managed_set (v_pmm v) /\
  forall x, page_used (v_pmm v') x <-> page_used (v_pmm v) x /\ x <> q.
Proof.
  intros [Hwf Hn] (i & -> & Hi & Hnf). cbv zeta. unfold nx_page_free.
  pose proof Hi as [Hr _]%elem_managed.
  pose proof (free_cases (v_pmm v) (i * PAGE) Hwf ltac:(unfold PAGE; lia)) as Hc.
  pose proof (free_npages (v_pmm v) (i * PAGE)) as Hnp.
  destruct (nx_pmm_free (v_pmm v) (i * PAGE)) as [st p']. cbn [snd] in Hnp. rewrite page_div in Hc.
  destruct Hc as (Hwf' & Hm & Hst).
  assert (st = NX_PMM_OK) as ->.
  { destruct st; try done; exfalso; [|tauto|tauto]. destruct Hst as [Hx _]. apply Hx. unfold PAGE. apply Z.mod_mul. lia. }
  destruct Hst as (_ & _ & Hf). simpl. split; [split; [done|by rewrite Hnp]|]. do 4 (split; [done|]).
  intros x. unfold page_used. rewrite Hm, Hf. split.
  - intros (j & -> & Hj & Hnj). split; [exists j; set_solver|]. intros E%page_inj. subst. set_solver.
  - intros [(j & -> & Hj & Hnj) Hne]. exists j. split; [done|]. split; [done|]. set_solver.
Qed.

(** ** The pages an address space owns *)

Definition user_slot (i : Z) : Prop := in_slots NX_AS_USER_SLOT_FIRST NX_AS_USER_SLOT_LAST i.

(** Its table pages: the root and everything below the user slots. *)
Definition own_table (root : Z) (T : gmap Z (nat * Z)) (p : Z) : Prop :=
  p = root \/ exists i l, user_slot i /\ below T 0 2 i p l.

(** The page mapped by the owned leaf [j] of table [t]. *)
Definition own_leaf (T : gmap Z (nat * Z)) (m : gmap (Z * Z) Z) (t j p : Z) : Prop :=
  (exists i, user_slot i /\ below T 0 2 i t 0) /\ 0 <= j < ENTRIES /\ present (pte m t j) = true /\
  Z.testbit (pte m t j) 9 = true /\ p = entry_addr (pte m t j).

(** The invariant of an address space: besides the pages [U] used by others, the
    pages in use are exactly the ones it owns, each in one role only. *)
Record space (U : Z -> Prop) (M : gset Z) (root : Z) (T : gmap Z (nat * Z)) (s : vst) : Prop := {
  sp_ok : pt_ok root T s;
  sp_panic : v_panic (pt_ctx s) = false;
  sp_managed : managed_set (v_pmm (pt_ctx s)) = M;
  sp_inj : forall t j t' j' p, own_leaf T (pt_mem s) t j p -> own_leaf T (pt_mem s) t' j' p -> t = t' /\ j = j';
  sp_leaf : forall t j p, own_leaf T (pt_mem s) t j p -> ~ own_table root T p;
  sp_used : forall p, page_used (v_pmm (pt_ctx s)) p <->
    U p \/ own_table root T p \/ exists t j, own_leaf T (pt_mem s) t j p;
  sp_fresh : forall p, own_table root T p \/ (exists t j, own_leaf T (pt_mem s) t j p) -> ~ U p;
}.

(** ** Lemmas: growing the tables *)

Lemma vkey_top va l : (l <= 2)%nat -> 0 <= va -> vkey va (S l) / 512 ^ Z.of_nat (2 - l) = index_of va 3.
Proof.
  intros Hl Hva. assert (H3 : vkey va 3 = index_of va 3) by (rewrite vkey_step, vkey_root by lia; lia).
  pose proof (index_range va 2 ltac:(lia) Hva). pose proof (index_range va 1 ltac:(lia) Hva). unfold ENTRIES in *.
  pose proof (vkey_step va 2 ltac:(lia) Hva) as H2. pose proof (vkey_step va 1 ltac:(lia) Hva) as H1'.
  destruct l as [|[|[|]]]; [| | |lia]; cbn [Nat.sub].
  - change (512 ^ Z.of_nat 2) with (512 * 512). rewrite <- Z.div_div by lia. rewrite H1', split_div, H2, split_div by lia. done.
  - change (512 ^ Z.of_nat 1) with 512. rewrite H2, split_div by lia. done.
  - by rewrite Z.div_1_r.
Qed.

Lemma walk_below T t l va : (l < 3)%nat -> 0 <= va -> on_walk T t l va -> below T 0 2 (index_of va 3) t l.
Proof. intros Hl Hva Hw. exists (vkey va (S l)). split; [done|]. split; [lia|]. apply vkey_top; [lia|done]. Qed.

Lemma below_sub T T' n l k t l' : T ⊆ T' -> below T n l k t l' -> below T' n l k t l'.
Proof. intros Hs (k' & H1 & H2). exists k'. split; [by apply (lookup_weaken T T')|done]. Qed.

Lemma below_old T T' n l k t l' x : T ⊆ T' -> T !! t = Some x -> below T' n l k t l' -> below T n l k t l'.
Proof.
  intros Hs Hx (k' & H1 & H2). exists k'. split; [|done]. rewrite (lookup_weaken T T' t x Hx Hs) in H1. congruence.
Qed.

Lemma grown_own_leaf (va : Z) T (s : vst) T' (s' : vst) t j p :
  grown va T s T' s' -> own_leaf T' (pt_mem s') t j p <-> own_leaf T (pt_mem s) t j p.
Proof.
  intros [G1 G2 G3 G4 G5]. unfold own_leaf.
  assert (Hl0 : forall e, is_leaf 0 e <-> present e = true) by (intros e; unfold is_leaf; naive_solver).
  destruct (T !! t) as [[l k]|] eqn:Et.
  - assert (Hb : forall i, below T 0 2 i t 0 <-> below T' 0 2 i t 0).
    { intros i. split; [by apply below_sub|by apply (below_old T T' 0 2 i t 0 (l, k))]. }
    split; intros ((i & Hi & Hbl) & Hj & Hp & Ho & E).
    + apply Hb in Hbl. pose proof Hbl as (k' & Ht & _). rewrite Et in Ht. injection Ht as -> ->.
      destruct (G4 t 0%nat k' j Et Hj) as [Eq|(_ & _ & Hn)]; [|by destruct Hn; apply Hl0]. rewrite Eq in *. eauto 10.
    + pose proof Hbl as (k' & Ht & _). rewrite Et in Ht. injection Ht as -> ->.
      destruct (G4 t 0%nat k' j Et Hj) as [Eq|(_ & Hn & _)]; [|by destruct Hn; apply Hl0]. rewrite Eq. apply Hb in Hbl. eauto 10.
  - split; intros ((i & Hi & k & Ht & Hx) & Hj & Hp & Ho & E); [|congruence].
    destruct (G3 t Et ltac:(eauto)) as (_ & l & _ & Hw & Hn). unfold on_walk in Hw. rewrite Ht in Hw. injection Hw as <- _.
    by destruct (Hn j Hj); apply Hl0.
Qed.

Lemma grown_own_table va T (s : vst) T' (s' : vst) root p :
  grown va T s T' s' -> 0 <= va -> user_slot (index_of va 3) ->
  own_table root T' p <-> own_table root T p \/ (T !! p = None /\ is_Some (T' !! p)).
Proof.
  intros [G1 G2 G3 G4 G5] Hva Hs. unfold own_table. destruct (T !! p) as [x|] eqn:Ep.
  - split.
    + intros [->|(i & l & Hi & Hb)]; [by left; left|]. left. right. exists i, l. split; [done|]. by apply (below_old T T' _ _ _ _ _ x).
    + intros [[->|(i & l & Hi & Hb)]|[H _]]; [by left| |done]. right. exists i, l. split; [done|]. by apply (below_sub T T').
  - split.
    + intros [->|(i & l & Hi & Hb)]; [by left; left|]. right. split; [done|]. destruct Hb as (k & Hk & _). eauto.
    + intros [[->|(i & l & Hi & k & Hk & _)]|[_ Hp]]; [by left|congruence|]. right.
      destruct (G3 p Ep Hp) as (_ & l & Hl & Hw & _). exists (index_of va 3), l. split; [done|]. by apply walk_below.
Qed.

Lemma grown_space va U M root T s T' s' :
  space U M root T s -> grown va T s T' s' -> pt_ok root T' s' -> 0 <= va -> user_slot (index_of va 3) ->
  v_panic (pt_ctx s') = false -> managed_set (v_pmm (pt_ctx s')) = M -> (forall p, U p -> page_used (v_pmm (pt_ctx s)) p) ->
  space U M root T' s'.
Proof.
  intros [S1 S2 S3 S4 S5 S6 S7] Hg Hok Hva Hs Hp Hm HU.
  assert (Hl : forall t j p, own_leaf T' (pt_mem s') t j p <-> own_leaf T (pt_mem s) t j p) by (intros; by eapply grown_own_leaf).
  assert (Ht : forall p, own_table root T' p <-> own_table root T p \/ (T !! p = None /\ is_Some (T' !! p)))
    by (intros; by eapply grown_own_table).
  assert (Hn : forall p, T !! p = None -> is_Some (T' !! p) -> ~ page_used (v_pmm (pt_ctx s)) p)
    by (intros p H1 H2; by apply (gr_new _ _ _ _ _ Hg p H1 H2)).
  split; [done|done|done| | | |].
  - intros t j t' j' p H1%Hl H2%Hl. by apply (S4 _ _ _ _ p).
  - intros t j p H1%Hl [H2|[H2 H3]]%Ht; [by apply (S5 t j p)|]. apply (Hn p H2 H3), S6. right. right. eauto.
  - intros p. pose proof (gr_used _ _ _ _ _ Hg p) as Hu. simpl in Hu. rewrite Hu, S6, Ht. setoid_rewrite Hl. tauto.
  - intros p. rewrite Ht. setoid_rewrite Hl. intros [[H|[H1 H2]]|H] HUp; [by apply (S7 p); [left|]| |by apply (S7 p); [right|]].
    by apply (Hn p H1 H2), HU.
Qed.

(** ** Lemmas: what mapping leaves alone *)

Definition ctx_same (v v' : vmm) : Prop :=
  v_panic v' = v_panic v /\ managed_set (v_pmm v') = managed_set (v_pmm v) /\ v_data v' = v_data v.

#[export] Instance ctx_same_preorder : PreOrder ctx_same.
Proof.
  split; [done|]. intros x y z (H1 & H2 & H3) (H4 & H5 & H6). split_and!; congruence.
Qed.

Lemma alloc_managed p : managed_set (nx_pmm_alloc p).2 = managed_set p.
Proof. unfold nx_pmm_alloc. destruct (_ =? 0); [done|]. by destruct (find_first _ _). Qed.

Lemma new_table_ctx (s : vst) : ctx_same (pt_ctx s) (pt_ctx (new_table s).2).
Proof.
  unfold new_table. set (r := pt_alloc (pt_ctx s)). assert (H : ctx_same (pt_ctx s) r.2).
  { unfold r. simpl. unfold env_alloc. split_and!; [done|apply alloc_managed|done]. }
  by destruct (_ || _).
Qed.

Lemma walk_loop_ctx n level va user t (s : vst) : ctx_same (pt_ctx s) (pt_ctx (walk_loop n level va user t s).2).
Proof.
  revert t s. induction n as [|n IH]; intros t s; cbn [walk_loop]; [done|]. cbv zeta.
  destruct (present _); [destruct (large _); [done|]; etrans; [|apply IH]; done|].
  pose proof (new_table_ctx s) as H. destruct (new_table s) as [[st|p] s1]; [exact H|].
  etrans; [exact H|]. etrans; [|apply IH]. done.
Qed.

Lemma map_ctx root va pa size flags (s : vst) : ctx_same (pt_ctx s) (pt_ctx (nx_pt_map root va pa size flags s).2).
Proof.
  unfold nx_pt_map. do 5 (match goal with |- context [if ?b then _ else _] => destruct b; [done|] end).
  unfold walk_create. set (l := if size =? NX_PAGE_2M then 1%nat else 0%nat).
  pose proof (walk_loop_ctx (3 - l) l va (flags &. NX_PTE_U) root s) as H.
  destruct (walk_loop (3 - l) l va (flags &. NX_PTE_U) root s) as [[st|t] s1]; [exact H|].
  by destruct (present _).
Qed.

(** ** Lemmas: a new page *)

(** Addresses in the user slots. *)
Definition user_va (va : Z) : Prop := fits 64 va /\ nx_pt_is_canonical va = true /\ user_slot (index_of va 3).

Lemma space_set_data U M root T s pa b : space U M root T s -> space U M root T (set_data s pa b).
Proof. intros [S1 S2 S3 S4 S5 S6 S7]. by split. Qed.

(** A page taken from the allocator, not yet put to use. *)
Lemma space_alloc U M root T s :
  space U M root T s -> let r := nx_pmm_alloc (v_pmm (pt_ctx s)) in
  (r.1 = 0 -> space U M root T (set_pmm s r.2)) /\
  (r.1 <> 0 -> page_aligned r.1 /\ 0 < r.1 /\ ~ page_used (v_pmm (pt_ctx s)) r.1 /\
     space (fun p => U p \/ p = r.1) M root T (set_pmm s r.2)).
Proof.
  intros [S1 S2 S3 S4 S5 S6 S7]. cbv zeta. pose proof S1 as (Hinv & Hwf & Hu). simpl in Hinv.
  pose proof (pmm_alloc_page _ Hinv) as H. pose proof (alloc_managed (v_pmm (pt_ctx s))) as Hm.
  destruct (nx_pmm_alloc (v_pmm (pt_ctx s))) as [q p']. cbn [fst snd] in *. destruct H as (Hok & _ & Hus & Hq).
  assert (Hok' : pt_ok root T (set_pmm s p')).
  { split; [exact Hok|]. split; [exact Hwf|]. intros t x Ht. simpl. apply Hus. left. by eapply Hu. }
  split.
  - intros ->. split; try done; [by simpl; rewrite Hm|]. intros p. simpl. rewrite Hus, S6. tauto.
  - intros Hz. destruct (Hq Hz) as (Ha & Hpos & Hnu & _). split; [done|]. split; [done|]. split; [done|].
    split; try done; [by simpl; rewrite Hm| |].
    + intros p. simpl. rewrite Hus, S6. tauto.
    + intros p Hp [HU| ->]; [by apply (S7 p)|]. apply Hnu, S6. tauto.
Qed.

(** Giving a page back that was not put to use. *)
Lemma space_unalloc U M root T s q :
  space (fun p => U p \/ p = q) M root T s -> ~ U q -> T !! q = None ->
  space U M root T (set_ctx s (nx_page_free (pt_ctx s) q)).
Proof.
  intros [S1 S2 S3 S4 S5 S6 S7] Hq HT. pose proof S1 as (Hinv & Hwf & Hu). simpl in Hinv.
  assert (Huq : page_used (v_pmm (pt_ctx s)) q) by (apply S6; by left; right).
  destruct (page_free_used (pt_ctx s) q Hinv Huq) as (F1 & F2 & F3 & F4 & F5 & F6).
  assert (Hno : forall p, own_table root T p \/ (exists t j, own_leaf T (pt_mem s) t j p) -> p <> q)
    by (intros p Hp ->; apply (S7 q Hp); by right).
  split; cbn [set_ctx pt_ctx pt_mem].
  - split; [exact F1|]. split; [exact Hwf|]. intros t x Ht. apply F6. split; [by eapply Hu|]. intros ->. congruence.
  - by rewrite F2.
  - by rewrite F5.
  - done.
  - done.
  - intros p. rewrite F6, S6. split; [intros [[[?| ->]|?] ?]; tauto|]. intros [HU|Hp]; [split; [tauto|by intros ->]|].
    split; [tauto|by apply Hno].
  - intros p Hp HU. apply (S7 p Hp). by left.
Qed.

(** Putting the new page to use as an owned leaf. *)
Lemma space_leaf U M root T s t va q e :
  space (fun p => U p \/ p = q) M root T s -> ~ U q -> on_walk T t 0 va -> user_va va ->
  present (pte (pt_mem s) t (index_of va 0)) = false -> present e = true -> Z.testbit e 9 = true -> entry_addr e = q ->
  space U M root T (set_pte s t (index_of va 0) e).
Proof.
  intros [S1 S2 S3 S4 S5 S6 S7] Hq Hw (Hva & Hc & Hs) Hnp Hp Ho Ha. assert (H0 : 0 <= va) by apply Hva.
  set (i := index_of va 0) in *. pose proof (index_range va 0 ltac:(lia) H0) as Hi. fold i in Hi.
  assert (Hl : forall t' j p, own_leaf T (pt_mem (set_pte s t i e)) t' j p <->
    (t' = t /\ j = i /\ p = q) \/ own_leaf T (pt_mem s) t' j p).
  { intros t' j p. unfold own_leaf. cbn [set_pte pt_mem]. rewrite !pte_insert.
    destruct (decide (t' = t /\ j = i)) as [[-> ->]|Hn].
    - rewrite Ha. split; [intros (_ & _ & _ & _ & ->); by left|]. intros [(_ & _ & ->)|(_ & _ & Hx & _)]; [|congruence].
      split_and!; try done; try lia. exists (index_of va 3). split; [done|]. apply walk_below; [lia|done|done].
    - split; [by right|]. intros [(-> & -> & _)|H]; [by destruct Hn|done]. }
  assert (Hnq : forall p, own_table root T p \/ (exists t j, own_leaf T (pt_mem s) t j p) -> p <> q)
    by (intros p Hx ->; apply (S7 q Hx); by right).
  destruct (set_leaf_spec root T s t 0 va e S1 Hw H0 ltac:(lia) ltac:(done) ltac:(done)) as [Hok _].
  split; [exact Hok|done|done| | | |].
  - intros t1 j1 t2 j2 p [(-> & -> & ->)|H1]%Hl [(-> & -> & E)|H2]%Hl; [done| | |by apply (S4 _ _ _ _ p)].
    + exfalso. apply (Hnq q); [right; by exists t2, j2|done].
    + exfalso. subst p. apply (Hnq q); [right; by exists t1, j1|done].
  - intros t' j p [(-> & -> & ->)|H]%Hl Ht; [by apply (Hnq q); [left|]|by apply (S5 t' j p)].
  - intros p. rewrite S6. setoid_rewrite Hl. split.
    + intros [[HU| ->]|[Hx|(t' & j & Hx)]]; [by left|right; right; exists t, i; by left|right; by left|].
      right. right. exists t', j. by right.
    + intros [HU|[Hx|(t' & j & [(-> & -> & ->)|Hx])]]; [by left; left|right; by left|left; by right|].
      right. right. by exists t', j.
  - intros p Hx HU. destruct Hx as [Hx|(t' & j & [(-> & -> & ->)|Hx]%Hl)]; [|done|].
    + apply (S7 p); [by left|by left].
    + apply (S7 p); [right; by exists t', j|by left].
Qed.

(** What a new page changes besides the tables: nothing, or zeroed memory and one
    mapping. *)
Definition page_mapped (root va flags : Z) (s s' : vst) (r : nx_error + Z) : Prop :=
  match r with
  | inl _ => unchanged root s s'
  | inr pa => page_aligned pa /\ ~ page_used (v_pmm (pt_ctx s)) pa /\
      mapped root va pa NX_PAGE_4K (flags |. NX_PTE_U |. NX_PTE_OWNED) s s' /\
      v_data (pt_ctx s') = store_bytes (v_data (pt_ctx s)) pa (replicate (Z.to_nat NX_PAGE_4K) 0)
  end.

Lemma owned_flags_fit flags : fits 64 flags -> fits 64 (flags |. NX_PTE_U |. NX_PTE_OWNED).
Proof. intros H. repeat apply fits_lor; try lia; [done|unfold fits; by vm_compute|unfold fits; by vm_compute]. Qed.

Lemma map_new_page_space U M root T s va flags :
  space U M root T s -> user_va va -> fits 64 flags ->
  let r := map_new_page root va flags s in
  exists T', space U M root T' r.2 /\ page_mapped root va flags s r.2 r.1.
Proof.
  intros Hsp Hva Hfl. cbv zeta. unfold map_new_page, page_mapped. generalize (replicate (Z.to_nat NX_PAGE_4K) 0) as zs. intros zs.
  destruct (space_alloc U M root T s Hsp) as [Ha0 Ha1].
  destruct (nx_pmm_alloc (v_pmm (pt_ctx s))) as [q p'] eqn:Eal. cbn [fst snd] in *.
  destruct (Z.eqb_spec q 0) as [->|Hz]; [exists T; split; [by apply Ha0|by intros ? ?]|].
  destruct (Ha1 Hz) as (Hal & Hpos & Hnu & Hsp1). set (s1 := set_data (set_pmm s p') q zs).
  assert (Hs1 : space (fun p => U p \/ p = q) M root T s1) by by apply space_set_data.
  assert (HU1 : forall p, U p \/ p = q -> page_used (v_pmm (pt_ctx s1)) p) by (intros p Hp; apply (sp_used _ _ _ _ _ Hs1); by left).
  assert (HUq : ~ U q) by (intros HU; apply Hnu, (sp_used _ _ _ _ _ Hsp); by left).
  assert (HTq : T !! q = None).
  { destruct (T !! q) as [x|] eqn:E; [|done]. destruct Hnu. destruct (sp_ok _ _ _ _ _ Hsp) as (_ & _ & Hu). by apply (Hu q x). }
  set (fl := flags |. NX_PTE_U |. NX_PTE_OWNED). pose proof (owned_flags_fit flags Hfl) as Hff. fold fl in Hff.
  assert (Hqf : fits 64 q) by (destruct Hal as [Hr _]; change NX_PHYS_MAX with (2 ^ 52) in Hr; unfold fits; lia).
  pose proof Hva as (Hv1 & Hv2 & Hv3). assert (H0 : 0 <= va) by apply Hv1. unfold nx_vmm_map_page_in.
  destruct (map_cases root T s1 va q NX_PAGE_4K fl (sp_ok _ _ _ _ _ Hs1) Hv1 Hqf Hff)
    as (T' & Hok' & (s2 & Hg & Hok2 & Heff) & Hres).
  pose proof (map_ctx root va q NX_PAGE_4K fl s1) as (Hc1 & Hc2 & Hc3).
  destruct (nx_pt_map root va q NX_PAGE_4K fl s1) as [st s3]. cbn [fst snd] in *.
  assert (HT' : T' !! q = None).
  { destruct (T' !! q) as [x|] eqn:E; [|done]. destruct (gr_new _ _ _ _ _ Hg q HTq ltac:(eauto)) as [Hn _]. destruct Hn. apply HU1. by right. }
  assert (Hs2 : pt_ctx s2 = pt_ctx s3) by (destruct st; [by destruct Heff as (t & _ & _ & ->)|by rewrite Heff..]).
  assert (Hg2 : space (fun p => U p \/ p = q) M root T' s2).
  { apply (grown_space va _ M root T s1 T' s2); try done; rewrite Hs2.
    - rewrite Hc1. apply (sp_panic _ _ _ _ _ Hs1).
    - rewrite Hc2. apply (sp_managed _ _ _ _ _ Hs1). }
  destruct (decide (st = NX_PT_OK)) as [->|Hst].
  - destruct Heff as (t & Hw & Hnp & E3). change (NX_PAGE_4K =? NX_PAGE_2M) with false in *. cbv iota in Hw, Hnp, E3.
    pose proof Hres as (_ & _ & _ & Hpr & _ & Hfl' & _). change NX_PHYS_MAX with (2 ^ 52) in Hpr.
    destruct (leaf_entry q fl 0 ltac:(lia) Hpr (proj2 Hal) Hff Hfl') as (L1 & _ & _ & L2 & _). rewrite entry_addr_4k in L2.
    exists T'. cbn [fst snd]. split; [|split; [done|]; split; [done|]; split; [exact Hres|by rewrite Hc3]].
    rewrite E3. apply (space_leaf U M root T' s2 t va q); try done.
    rewrite !Z.lor_spec. unfold fl. rewrite !Z.lor_spec. change (Z.testbit NX_PTE_OWNED 9) with true. by rewrite !orb_true_r.
  - assert (E3 : s3 = s2) by (destruct st; done || exact Heff).
    assert (Hun : unchanged root s s3) by (destruct st; [done|apply Hres..]).
    exists T'. destruct st; try done; cbn [fst snd]; (split; [rewrite E3; by apply space_unalloc|exact Hun]).
Qed.

(** ** Lemmas: creating an address space *)

(** The slot below which table [k] of level [l] lies. *)
Definition slot_of (l : nat) (k : Z) : Z := k / 512 ^ Z.of_nat (2 - l).

Definition user_slotb (i : Z) : bool := (NX_AS_USER_SLOT_FIRST <=? i) && (i <=? NX_AS_USER_SLOT_LAST).

Lemma user_slotb_spec i : user_slotb i = true <-> user_slot i.
Proof. unfold user_slotb, user_slot, in_slots, NX_AS_USER_SLOT_FIRST, NX_AS_USER_SLOT_LAST, ENTRIES. rewrite andb_true_iff, !Z.leb_le. lia. Qed.

(** The tables a new address space shares with the kernel's tree [TK]. *)
Definition shared_tables (TK : gmap Z (nat * Z)) : gmap Z (nat * Z) :=
  filter (fun x => (x.2.1 <? 3)%nat && negb (user_slotb (slot_of x.2.1 x.2.2)) = true) TK.

Lemma shared_Some TK t l k : shared_tables TK !! t = Some (l, k) <-> TK !! t = Some (l, k) /\ (l < 3)%nat /\ user_slotb (slot_of l k) = false.
Proof.
  unfold shared_tables. rewrite map_lookup_filter_Some. simpl. rewrite andb_true_iff, negb_true_iff, Nat.ltb_lt. done.
Qed.

Lemma slot_of_child l k i : (S l <= 2)%nat -> 0 <= i < 512 -> slot_of l (k * 512 + i) = slot_of (S l) k.
Proof.
  intros Hl Hi. unfold slot_of. replace (Z.of_nat (2 - l)) with (1 + Z.of_nat (2 - S l)) by lia.
  rewrite Z.pow_add_r, <- Z.div_div by lia. change (512 ^ 1) with 512. by rewrite split_div.
Qed.

Lemma slot_of_parent l k : (S l <= 2)%nat -> slot_of (S l) (k / 512) = slot_of l k.
Proof.
  intros Hl. pose proof (Z.div_mod k 512 ltac:(lia)). pose proof (Z.mod_pos_bound k 512 ltac:(lia)).
  rewrite <- (slot_of_child l (k / 512) (k mod 512)) by lia. f_equal. lia.
Qed.

Definition new_tables (TK : gmap Z (nat * Z)) (root : Z) : gmap Z (nat * Z) := <[root := (3%nat, 0)]> (shared_tables TK).

Lemma new_tables_Some TK root t l k : new_tables TK root !! t = Some (l, k) ->
  (t = root /\ l = 3%nat /\ k = 0) \/ (TK !! t = Some (l, k) /\ (l < 3)%nat /\ user_slotb (slot_of l k) = false).
Proof.
  unfold new_tables. intros [[<- [= <- <-]]|[_ Ht]]%lookup_insert_Some; [by left|]. right. by apply shared_Some.
Qed.

Lemma new_space_wf TK K m m' root :
  pt_wf TK m K -> TK !! root = None ->
  (forall t i, t <> root -> pte m' t i = pte m t i) ->
  (forall i, 0 <= i < ENTRIES -> pte m' root i = if user_slotb i then 0 else pte m K i) ->
  pt_wf (new_tables TK root) m' root.
Proof.
  intros Hwf Hr Ho Hn. unfold new_tables.
  assert (HT : forall t x, shared_tables TK !! t = Some x -> t <> root).
  { intros t [l k] Ht ->. apply shared_Some in Ht as [Ht _]. congruence. }
  assert (Hsh : forall t x, shared_tables TK !! t = Some x -> <[root := (3%nat, 0)]> (shared_tables TK) !! t = Some x).
  { intros t x Ht. rewrite lookup_insert_ne; [done|]. intros E. by apply (HT t x Ht). }
  split.
  - apply lookup_insert_eq.
  - intros t l k Ht. apply lookup_insert_Some in Ht as [[<- [= <- <-]]|[_ Ht]]; [split; [lia|done]|].
    apply shared_Some in Ht as (_ & Hl & _). split; lia.
  - intros t l k i Ht Hi Hp. apply lookup_insert_Some in Ht as [[<- [= <- <-]]|[Hne Ht]].
    + rewrite Hn in * by done. destruct (user_slotb i) eqn:Eu; [done|].
      destruct (wf_entry _ _ _ Hwf K 3 0 i (wf_root _ _ _ Hwf) Hi Hp) as [H1 H2]. split; [done|].
      intros l' [= <-] Hl. apply Hsh, shared_Some. split; [by apply H2|]. split; [lia|]. unfold slot_of. rewrite Nat.sub_diag, Z.div_1_r. done.
    + rewrite Ho in * by done. apply shared_Some in Ht as (Ht & Hl & Hs).
      destruct (wf_entry _ _ _ Hwf t l k i Ht Hi Hp) as [H1 H2]. split; [lia|]. intros l' -> Hlg. apply Hsh, shared_Some.
      split; [by apply H2|]. split; [lia|]. unfold ENTRIES in Hi. rewrite slot_of_child by lia. done.
  - intros t l k Ht Hne. apply lookup_insert_Some in Ht as [[<- _]|[_ Ht]]; [done|]. apply shared_Some in Ht as (Ht & Hl & Hs).
    assert (HtK : t <> K) by (intros ->; rewrite (wf_root _ _ _ Hwf) in Ht; injection Ht as <- _; lia).
    destruct (wf_parent _ _ _ Hwf t l k Ht HtK) as (tp & Hp & Hlk & Ha). destruct (decide (l = 2%nat)) as [->|Hl2].
    + destruct (wf_level _ _ _ Hwf _ _ _ Hp) as [_ E]. rewrite (E eq_refl) in *. rewrite (wf_root _ _ _ Hwf) in Hp. injection Hp as E0.
      pose proof (Z.mod_pos_bound k 512 ltac:(lia)). pose proof (Z.div_mod k 512 ltac:(lia)). rewrite <- E0 in *.
      exists root. rewrite lookup_insert_eq. rewrite Hn by (unfold ENTRIES; lia).
      unfold slot_of in Hs. rewrite Nat.sub_diag, Z.div_1_r in Hs. replace (k mod 512) with k in * by lia. rewrite Hs. done.
    + exists tp. rewrite Ho by (intros ->; congruence). split; [|done]. apply Hsh, shared_Some. split; [done|]. split; [lia|].
      rewrite slot_of_parent by lia. done.
Qed.

(** The entries copied from the kernel's root. *)
Lemma copy_slots root K l (s : vst) :
  root <> K ->
  let s' := for_each l (fun s i => set_pte s root i (pte (pt_mem s) K i)) s in
  pt_ctx s' = pt_ctx s /\
  forall t i, pte (pt_mem s') t i = if decide (t = root /\ i ∈ l) then pte (pt_mem s) K i else pte (pt_mem s) t i.
Proof.
  intros Hne. unfold for_each. revert s. induction l as [|x l IH]; intros s; cbn [fold_left].
  { split; [done|]. intros t i. by rewrite decide_False by (intros [_ H]; by apply not_elem_of_nil in H). }
  destruct (IH (set_pte s root x (pte (pt_mem s) K x))) as [H1 H2]. split; [exact H1|]. intros t i. rewrite H2.
  cbn [set_pte pt_mem]. rewrite !pte_insert, (decide_False (P := K = root /\ i = x)) by (intros [E _]; by apply Hne).
  destruct (decide (t = root /\ i ∈ l)) as [[-> Hi]|Hn].
  - by rewrite decide_True by (split; [done|by apply list_elem_of_further]).
  - destruct (decide (t = root /\ i = x)) as [[-> ->]|Hx].
    + by rewrite decide_True by (split; [done|by apply list_elem_of_here]).
    + rewrite decide_False; [done|]. intros [-> [->|Hi]%elem_of_cons]; tauto.
Qed.

Lemma shared_list i : 0 <= i < ENTRIES -> i ∈ 0 :: seqZ 256 256 <-> user_slotb i = false.
Proof.
  intros Hi. rewrite <- not_true_iff_false, user_slotb_spec, elem_of_cons, elem_of_seqZ.
  unfold user_slot, in_slots, NX_AS_USER_SLOT_FIRST, NX_AS_USER_SLOT_LAST, ENTRIES in *. lia.
Qed.

Lemma as_create_space K TK s :
  pt_ok K TK s -> v_panic (pt_ctx s) = false ->
  let U := page_used (v_pmm (pt_ctx s)) in let M := managed_set (v_pmm (pt_ctx s)) in
  let r := nx_as_create K s in
  (r.1 = 0 /\ (forall p, page_used (v_pmm (pt_ctx r.2)) p <-> U p) /\ v_panic (pt_ctx r.2) = false /\
     managed_set (v_pmm (pt_ctx r.2)) = M) \/
  (r.1 <> 0 /\ TK !! r.1 = None /\ space U M r.1 (new_tables TK r.1) r.2 /\
   (forall t i, t <> r.1 -> pte (pt_mem r.2) t i = pte (pt_mem s) t i) /\
   forall i, 0 <= i < ENTRIES -> pte (pt_mem r.2) r.1 i = if user_slotb i then 0 else pte (pt_mem s) K i).
Proof.
  intros Hok Hpan U M. cbv zeta. unfold nx_as_create, nx_pt_new_root. pose proof (new_table_spec K TK s Hok) as Hn.
  pose proof (new_table_ctx s) as (Hc1 & Hc2 & _). destruct (new_table s) as [[st|root] s1]; cbn [fst snd] in *.
  { left. destruct Hn as (_ & _ & _ & Hu). split; [done|]. split; [exact Hu|]. by rewrite Hc1, Hc2. }
  right. destruct Hn as ([Hz Hal] & HT & Hinv & Hnu & Hu & Hm). pose proof Hok as (_ & Hwf & Hus).
  assert (HrK : root <> K) by (intros ->; rewrite (wf_root _ _ _ Hwf) in HT; done).
  destruct (copy_slots root K (0 :: seqZ 256 256) s1 HrK) as [Hctx Hpte]. set (s2 := for_each (0 :: seqZ 256 256) _ s1) in *.
  assert (Ho : forall t i, t <> root -> pte (pt_mem s2) t i = pte (pt_mem s) t i).
  { intros t i Ht. rewrite Hpte, decide_False by tauto. by rewrite Hm, pte_zero, decide_False by tauto. }
  assert (Hr : forall i, 0 <= i < ENTRIES -> pte (pt_mem s2) root i = if user_slotb i then 0 else pte (pt_mem s) K i).
  { intros i Hi. rewrite Hpte, Hm, !pte_zero, (decide_False (P := K = root /\ _)) by (intros [E _]; by apply HrK).
    rewrite (decide_True (P := root = root /\ 0 <= i < ENTRIES)) by done. pose proof (shared_list i Hi) as Hs. destruct (user_slotb i) eqn:E.
    - rewrite decide_False; [done|]. intros [_ H]. by apply Hs in H.
    - rewrite decide_True; [done|]. split; [done|]. by apply Hs. }
  split; [done|]. split; [done|]. split; [|split; [exact Ho|exact Hr]].
  pose proof (new_space_wf TK K (pt_mem s) (pt_mem s2) root Hwf HT Ho Hr) as Hwf'.
  assert (Hused : forall p, page_used (v_pmm (pt_ctx s2)) p <-> U p \/ p = root) by (intros p; rewrite Hctx; apply Hu).
  assert (Hno : forall i t l, user_slot i -> below (new_tables TK root) 0 2 i t l -> False).
  { intros i t l Hi%user_slotb_spec (k & Ht & Hl & Hk). apply new_tables_Some in Ht as [(-> & -> & ->)|(_ & _ & Hs)]; [lia|].
    unfold slot_of in Hs. rewrite Hk in Hs. congruence. }
  assert (Htab : forall p, own_table root (new_tables TK root) p <-> p = root).
  { intros p. split; [|by left]. intros [->|(i & l & Hi & Hb)]; [done|]. by destruct (Hno i p l Hi Hb). }
  assert (Hleaf : forall t j p, ~ own_leaf (new_tables TK root) (pt_mem s2) t j p).
  { intros t j p ((i & Hi & Hb) & _). by destruct (Hno i t 0%nat Hi Hb). }
  split.
  - split; [by rewrite Hctx|]. split; [exact Hwf'|]. intros t [l k] Ht. apply Hused.
    apply new_tables_Some in Ht as [(-> & _)|(Ht & _)]; [by right|]. left. by eapply Hus.
  - by rewrite Hctx, Hc1.
  - by rewrite Hctx, Hc2.
  - intros t j t' j' p H. by apply Hleaf in H.
  - intros t j p H. by apply Hleaf in H.
  - intros p. rewrite Hused, Htab. split; [tauto|]. intros [H|[H|(t & j & H)]]; [tauto|tauto|by apply Hleaf in H].
  - intros p [->%Htab|(t & j & H)]; [exact Hnu|by apply Hleaf in H].
Qed.

(** ** Lemmas: destroying an address space *)

(** The page an event of the teardown gives back. *)
Definition ev_page (ev : pt_event) : option Z :=
  match ev with
  | EvFree p => Some p
  | EvLeaf _ _ pa flags size => if negb (flags &. NX_PTE_OWNED =? 0) && (size =? NX_PAGE_4K) then Some pa else None
  end.

Lemma free_events U M evs v :
  pmm_ok (v_pmm v) -> v_panic v = false -> managed_set (v_pmm v) = M -> NoDup (omap ev_page evs) ->
  (forall p, page_used (v_pmm v) p <-> U p \/ p ∈ omap ev_page evs) -> (forall p, p ∈ omap ev_page evs -> ~ U p) ->
  let v' := for_each evs (apply_event free_owned_leaf) v in
  pmm_ok (v_pmm v') /\ v_panic v' = false /\ managed_set (v_pmm v') = M /\ forall p, page_used (v_pmm v') p <-> U p.
Proof.
  unfold for_each. revert v. induction evs as [|ev evs IH]; intros v Hok Hp Hm Hnd Hu Hd; cbn [fold_left].
  { split; [done|]. split; [done|]. split; [done|]. intros p. rewrite Hu. set_solver. }
  assert (Happ : exists v1, v_pmm (apply_event free_owned_leaf v ev) = v_pmm v1 /\ v_panic (apply_event free_owned_leaf v ev) = v_panic v1 /\
    v1 = match ev_page ev with Some p => nx_page_free v p | None => v end).
  { eexists. split; [|split; [|done]]; destruct ev as [t i pa fl sz|p]; simpl; try done; unfold free_owned_leaf; by destruct (_ && _). }
  destruct Happ as (v1 & E1 & E2 & Ev1). cbn [omap list_omap] in Hnd, Hu, Hd. destruct (ev_page ev) as [q|] eqn:Eq.
  - apply NoDup_cons in Hnd as [Hq Hnd].
    assert (Huq : page_used (v_pmm v) q) by (apply Hu; right; apply list_elem_of_here).
    destruct (page_free_used v q Hok Huq) as (F1 & F2 & _ & _ & F5 & F6). rewrite <- Ev1 in *.
    apply IH; rewrite ?E1, ?E2; try congruence; try done.
    + intros p. rewrite F6, Hu. split.
      * intros [[HU|[->|Hi]%elem_of_cons] Hne]; [by left|done|by right].
      * intros [HU|Hi]; (split; [|intros ->]); [by left| |right; by apply list_elem_of_further|done].
        by apply (Hd q (list_elem_of_here _ _)).
    + intros p Hi. apply Hd. by apply list_elem_of_further.
  - rewrite Ev1 in *. apply IH; rewrite ?E1, ?E2; done.
Qed.

Lemma NoDup_omap_inj {X Y} (f : X -> option Y) l :
  NoDup l -> (forall x y b, x ∈ l -> y ∈ l -> f x = Some b -> f y = Some b -> x = y) -> NoDup (omap f l).
Proof.
  induction 1 as [|x l Hx Hl IH]; intros Hinj; [constructor|]. cbn [omap list_omap].
  assert (IH' : NoDup (omap f l)) by (apply IH; intros y z b Hy Hz; apply Hinj; by apply list_elem_of_further).
  destruct (f x) as [b|] eqn:Ef; [|exact IH']. constructor; [|exact IH'].
  intros (y & Hy & Efy)%list_elem_of_omap. apply Hx.
  rewrite (Hinj x y b); [done|apply list_elem_of_here|by apply list_elem_of_further|done|done].
Qed.

Lemma level_size_4k l : level_size l = NX_PAGE_4K -> l = 0%nat.
Proof. unfold level_size. change NX_PAGE_4K with (2 ^ 12). intros E. apply Z.pow_inj_r in E; lia. Qed.

Lemma owned_testbit e : negb (e &. u64 (~. NX_PTE_ADDR) &. NX_PTE_OWNED =? 0) = Z.testbit e 9.
Proof. change NX_PTE_OWNED with (2 ^ 9). rewrite flag_testbit by lia. rewrite Z.land_spec. change (Z.testbit (u64 (~. NX_PTE_ADDR)) 9) with true. apply andb_true_r. Qed.

(** The pages given back are exactly the ones the address space owns, but for the root. *)
Lemma event_pages U M root T s ev p :
  space U M root T s ->
  (match ev with
   | EvFree p => exists i l, user_slot i /\ below T 0 2 i p l
   | EvLeaf t j pa fl sz => exists i l, user_slot i /\ below T 0 2 i t l /\ 0 <= j < ENTRIES /\ is_leaf l (pte (pt_mem s) t j) /\
       EvLeaf t j pa fl sz = leaf_event (pt_mem s) t j l
   end) -> ev_page ev = Some p ->
  match ev with
  | EvFree _ => ev = EvFree p /\ own_table root T p
  | EvLeaf t j _ _ _ => own_leaf T (pt_mem s) t j p /\ ev = leaf_event (pt_mem s) t j 0
  end.
Proof.
  intros Hsp. destruct ev as [t j pa fl sz|q]; simpl.
  - intros (i & l & Hi & Hb & Hj & Hlf & E). injection E as -> -> ->. rewrite owned_testbit.
    destruct (Z.testbit (pte (pt_mem s) t j) 9) eqn:E9; [|done]. cbn [andb]. destruct (Z.eqb_spec (level_size l) NX_PAGE_4K) as [E|]; [|done].
    apply level_size_4k in E as ->. rewrite entry_addr_4k. intros [= <-]. split; [|by unfold leaf_event; rewrite entry_addr_4k].
    split; [by exists i|]. split; [done|]. split; [apply Hlf|]. by split.
  - intros (i & l & Hi & Hb) [= ->]. split; [done|]. right. by exists i, l.
Qed.

Lemma as_destroy_space U M root T s :
  space U M root T s -> let v := pt_ctx (nx_as_destroy free_owned_leaf root s) in
  pmm_ok (v_pmm v) /\ v_panic v = false /\ managed_set (v_pmm v) = M /\ forall p, page_used (v_pmm v) p <-> U p.
Proof.
  intros Hsp. pose proof Hsp as [S1 S2 S3 S4 S5 S6 S7]. pose proof S1 as (Hinv & Hwf & _). cbv zeta. unfold nx_as_destroy.
  destruct (destroy_events free_owned_leaf T root NX_AS_USER_SLOT_FIRST NX_AS_USER_SLOT_LAST s Hwf ltac:(done))
    as (evs & Ec & Hnd & Hfree & Hleaf & _).
  set (s1 := nx_pt_destroy_slots _ _ _ _ s) in *. clearbody s1. cbn [set_ctx pt_ctx]. rewrite Ec.
  assert (Hev : forall ev p, ev ∈ evs -> ev_page ev = Some p -> match ev with
    | EvFree _ => ev = EvFree p /\ own_table root T p
    | EvLeaf t j _ _ _ => own_leaf T (pt_mem s) t j p /\ ev = leaf_event (pt_mem s) t j 0 end).
  { intros ev p Hin. apply (event_pages U M root T s ev p Hsp). destruct ev; [by apply Hleaf|by apply Hfree]. }
  assert (Hroot : forall i l, ~ below T 0 2 i root l).
  { intros i l (k & Hk & Hl & _). rewrite (wf_root _ _ _ Hwf) in Hk. injection Hk as <- _. lia. }
  assert (Hpages : forall p, p ∈ omap ev_page evs <-> (own_table root T p /\ p <> root) \/ exists t j, own_leaf T (pt_mem s) t j p).
  { intros p. rewrite list_elem_of_omap. split.
    - intros (ev & Hin & E). pose proof (Hev ev p Hin E) as H. destruct ev as [t j pa fl sz|q].
      + right. exists t, j. apply H.
      + left. destruct H as [H1 H2]. split; [done|]. intros ->. injection H1 as ->. apply Hfree in Hin as (i & l & _ & Hb). by apply (Hroot i l).
    - intros [[[->|Hb] Hne]|(t & j & (i & Hi & Hb) & Hj & Hp & Ho & ->)]; [done|exists (EvFree p); split; [by apply Hfree|done]|].
      exists (leaf_event (pt_mem s) t j 0). split.
      + apply Hleaf. exists i, 0%nat. split; [done|]. split; [done|]. split; [done|]. split; [|done]. unfold is_leaf. naive_solver.
      + simpl. rewrite owned_testbit, Ho, entry_addr_4k. done. }
  assert (Hnd' : NoDup (omap ev_page evs)).
  { apply NoDup_omap_inj; [done|]. intros x y b Hx Hy Ex Ey. pose proof (Hev x b Hx Ex) as H1. pose proof (Hev y b Hy Ey) as H2.
    destruct x as [t j pa fl sz|q], y as [t' j' pa' fl' sz'|q'].
    - destruct H1 as [O1 ->], H2 as [O2 ->]. by destruct (S4 _ _ _ _ _ O1 O2) as [-> ->].
    - destruct H1 as [O1 _], H2 as [_ O2]. by destruct (S5 t j b).
    - destruct H1 as [_ O1], H2 as [O2 _]. by destruct (S5 t' j' b).
    - destruct H1 as [-> _], H2 as [-> _]. done. }
  destruct (free_events (fun p => U p \/ p = root) M evs (pt_ctx s)) as (F1 & F2 & F3 & F4); try done.
  - intros p. rewrite S6, Hpages. unfold own_table. destruct (decide (p = root)); tauto.
  - intros p Hp%Hpages [HU|E].
    + apply (S7 p); [|done]. tauto.
    + subst p. destruct Hp as [[_ ?]|(t & j & Ho)]; [done|]. apply (S5 t j root Ho). by left.
  - set (v := for_each evs _ _) in *. clearbody v.
    destruct (page_free_used v root F1 ltac:(apply F4; by right)) as (G1 & G2 & _ & _ & G5 & G6).
    cbn [tables_dec v_pmm v_panic]. split; [done|]. split; [congruence|]. split; [congruence|].
    intros p. rewrite G6, F4. split; [tauto|]. intros HU. split; [by left|]. intros ->. apply (S7 root); [|done]. left. by left.
Qed.
