(* ===== verification/Program.v ===== *)
(** * The program in a new address space

    What [nx_utask_create] ([kernel/task.c]) leaves behind: the exact contents of
    the address space of a task that was created, and an allocator that has every
    page back when creation failed or the address space was destroyed. *)
From S2P Require Import Prelude Bytes Abi BootAbi Bitmap Pmm ElfPlan Pt PtFree Vmm.

(** ** Specification *)

Definition user_range (va : Z) : bool := (NX_USER_BASE <=? va) && (va <? NX_USER_TOP).

(** What an address space holds at an address: the flags of its page and the byte. *)
Definition cells : Type := Z -> option (Z * Z).

Definition no_cells : cells := fun _ => None.
Definition also (C D : cells) : cells := fun va => match C va with Some x => Some x | None => D va end.

Definition page_flags (flags : Z) : Z := flags |. NX_PTE_U |. NX_PTE_OWNED |. NX_PTE_P.

(** The pages of a segment: file bytes, zero before and after them. *)
Definition segment_byte (img : list Z) (sg : nx_elf_segment) (va : Z) : Z :=
  if (sg_addr sg <=? va) && (va <? sg_addr sg + sg_file_size sg) then img.[sg_file_offset sg + (va - sg_addr sg)] else 0.

Definition cells_between (img : list Z) (sg : nx_elf_segment) (first end_ : Z) : cells := fun va =>
  if (first <=? va) && (va <? end_) then Some (page_flags (segment_flags sg), segment_byte img sg va) else None.

Definition segment_cells (img : list Z) (sg : nx_elf_segment) : cells :=
  cells_between img sg (sg_addr sg / 4096 * 4096) ((sg_addr sg + sg_mem_size sg + 4095) / 4096 * 4096).

Fixpoint program_cells (img : list Z) (segs : list nx_elf_segment) : cells :=
  match segs with
  | [] => no_cells
  | sg :: segs' => also (segment_cells img sg) (program_cells img segs')
  end.

(** The top [n] pages of the stack, without the first [i]. *)
Definition stack_cells (i n : Z) : cells := fun va =>
  if (NX_USER_STACK_TOP - n * 4096 <=? va) && (va <? NX_USER_STACK_TOP - i * 4096)
  then Some (page_flags (NX_PTE_W |. NX_PTE_NX), 0) else None.

(** The user half of address space [root] holds exactly [C]; everywhere else its
    translations are [kq]. *)
Definition shows (root : Z) (C : cells) (kq : Z -> nx_pt_status + Z * Z * Z) (s : vst) : Prop :=
  forall va, fits 64 va ->
    if user_range va then
      match C va with
      | None => nx_pt_query root va s = inl NX_PT_E_NOT_MAPPED
      | Some (flags, b) => exists pa, nx_pt_query root va s = inr (pa, flags, NX_PAGE_4K) /\ v_data (pt_ctx s) pa = b
      end
    else nx_pt_query root va s = kq va.

(** Every page is a user page owned by the address space. *)
Definition cells_owned (C : cells) : Prop := forall va flags b, C va = Some (flags, b) -> Z.testbit flags 9 = true.

(** ** Lemmas: addresses *)

Lemma user_range_spec va : user_range va = true <-> NX_USER_BASE <= va < NX_USER_TOP.
Proof. unfold user_range. rewrite andb_true_iff, Z.leb_le, Z.ltb_lt. done. Qed.

Lemma user_range_va va : NX_USER_BASE <= va < NX_USER_TOP -> user_va va.
Proof.
  unfold NX_USER_BASE, NX_USER_TOP, user_va, nx_pt_is_canonical. intros H.
  assert (E : va >>. 47 = 0) by (rewrite Z.shiftr_div_pow2 by lia; apply Z.div_small; lia). rewrite E.
  split; [unfold fits; lia|]. split; [done|]. unfold user_slot, in_slots, NX_AS_USER_SLOT_FIRST, NX_AS_USER_SLOT_LAST.
  rewrite index_of_spec by lia. change (level_size 3) with 0x8000000000. unfold ENTRIES. dlia.
Qed.

Lemma entry_addr_range e : 0 <= entry_addr e < 2 ^ 52 /\ entry_addr e mod 4096 = 0.
Proof.
  assert (H0 : 0 <= entry_addr e) by (unfold entry_addr; apply Z.land_nonneg; right; by vm_compute).
  split.
  - split; [done|]. destruct (Z.eq_dec (entry_addr e) 0) as [->|]; [lia|]. apply Z.log2_lt_pow2; [lia|].
    destruct (Z.ltb_spec (Z.log2 (entry_addr e)) 52) as [|Hge]; [done|].
    pose proof (Z.bit_log2 (entry_addr e) ltac:(lia)) as Hb. rewrite addr_testbit in Hb by apply Z.log2_nonneg.
    destruct (Z.ltb_spec (Z.log2 (entry_addr e)) 52); [lia|]. by rewrite andb_false_r in Hb.
  - change 4096 with (2 ^ 12). rewrite <- Z.land_ones by lia. apply Z.bits_inj'. intros i Hi.
    rewrite Z.land_spec, Z.testbit_0_l, addr_testbit, Z.testbit_ones_nonneg by lia.
    destruct (Z.leb_spec 12 i), (Z.ltb_spec i 12); try lia; rewrite ?andb_false_r; done.
Qed.

(** ** Lemmas: memory *)

Lemma replicate_get n i : 0 <= i < Z.of_nat n -> (replicate n 0).[i] = 0.
Proof. intros Hi. by rewrite list_lookup_total_alt, lookup_replicate_2 by lia. Qed.

Lemma shows_data root C kq s s' :
  pt_mem s' = pt_mem s -> (forall x, v_data (pt_ctx s') x = v_data (pt_ctx s) x) -> shows root C kq s -> shows root C kq s'.
Proof.
  intros Hm Hd Hs va Hva. specialize (Hs va Hva). unfold nx_pt_query, find_leaf in *. rewrite Hm.
  destruct (user_range va); [|done]. destruct (C va) as [[fl b]|]; [|done]. by setoid_rewrite Hd.
Qed.

(** Storing no bytes changes nothing. *)
Lemma shows_nil root C kq s pa : shows root C kq (set_data s pa []) -> shows root C kq s.
Proof.
  apply shows_data; [done|]. intros x. cbn [set_data set_ctx pt_ctx v_data]. unfold store_bytes. cbn [length].
  destruct (Z.leb_spec pa x), (Z.ltb_spec x (pa + Z.of_nat 0)); done || (exfalso; lia).
Qed.

(** The page behind an owned user address is in use. *)
Lemma query_used U M root T s va pa flags :
  space U M root T s -> user_va va -> nx_pt_query root va s = inr (pa, flags, NX_PAGE_4K) -> Z.testbit flags 9 = true ->
  page_used (v_pmm (pt_ctx s)) (pa / 4096 * 4096).
Proof.
  intros Hsp (Hf & Hc & Hs) Hq Hb. pose proof (sp_ok _ _ _ _ _ Hsp) as (_ & Hwf & _). assert (H0 : 0 <= va) by apply Hf.
  unfold nx_pt_query, find_leaf in Hq. rewrite Hc in Hq. cbn [negb] in Hq.
  pose proof (find_loop_spec T (pt_mem s) root Hwf 3 root va (root_on_walk T (pt_mem s) root Hwf va) H0) as Hl.
  destruct (find_loop 3 (pt_mem s) root va) as [st|[[t i] size]]; [done|]. destruct Hl as (l & _ & Hl2 & Hw & -> & -> & Hp & _).
  injection Hq as Epa Efl Esz. apply level_size_4k in Esz as ->. cbv zeta in *.
  set (e := pte (pt_mem s) t (index_of va 0)) in *. rewrite entry_addr_4k in Epa. destruct (entry_addr_range e) as [He1 He2].
  assert (E : pa / 4096 * 4096 = entry_addr e).
  { rewrite <- Epa, level_mask, land_ones_mod by lia. change (2 ^ (12 + 9 * Z.of_nat 0)) with 4096.
    pose proof (Z.mod_pos_bound va 4096 ltac:(lia)). unfold wrap. rewrite Z.mod_small by lia. dlia. }
  rewrite E. apply (sp_used _ _ _ _ _ Hsp). right. right. exists t, (index_of va 0). unfold own_leaf. fold e.
  split; [exists (index_of va 3); split; [done|]; apply walk_below; [lia|done|done]|].
  split; [by apply index_range; [lia|]|]. split; [done|]. split; [|done]. rewrite <- Efl, Z.land_spec in Hb. by apply andb_true_iff in Hb as [? _].
Qed.

(** ** Lemmas: loading one page *)

(** One page with the bytes [b] at offset [o], otherwise zero. *)
Definition page_cells (va flags o : Z) (b : list Z) : cells := fun a =>
  if a / 4096 =? va / 4096
  then Some (page_flags flags, if (o <=? a - va) && (a - va <? o + Z.of_nat (length b)) then b.[a - va - o] else 0) else None.

Lemma page_step U M root T s C kq va flags pa s' o b :
  space U M root T s -> shows root C kq s -> cells_owned C -> NX_USER_BASE <= va < NX_USER_TOP ->
  page_mapped root va flags s s' (inr pa) -> 0 <= o -> o + Z.of_nat (length b) <= 4096 ->
  shows root (also C (page_cells va flags o b)) kq (set_data s' (pa + o) b).
Proof.
  intros Hsp Hsh Hown Hva ([Hpr Hal] & Hnu & (_ & Hva4 & _ & _ & _ & _ & Hmap) & Hd) Ho Hlen a Ha. change NX_PAGE_4K with 4096 in *.
  change (nx_pt_query root a (set_data s' (pa + o) b)) with (nx_pt_query root a s'). specialize (Hmap a Ha). specialize (Hsh a Ha).
  pose proof (user_range_spec a) as Hua. unfold also, page_cells.
  assert (Hx : forall x, v_data (pt_ctx (set_data s' (pa + o) b)) x =
    if (pa + o <=? x) && (x <? pa + o + Z.of_nat (length b)) then b.[x - (pa + o)]
    else if (pa <=? x) && (x <? pa + 4096) then 0 else v_data (pt_ctx s) x).
  { intros x. cbn [set_data set_ctx pt_ctx v_data]. rewrite Hd. unfold store_bytes. rewrite length_replicate.
    change (Z.of_nat (Z.to_nat 4096)) with 4096. destruct (_ && _); [reflexivity|].
    destruct (Z.leb_spec pa x), (Z.ltb_spec x (pa + 4096)); cbn [andb]; [apply replicate_get; lia|reflexivity..]. }
  destruct (decide (a / 4096 = va / 4096)) as [E|E].
  - destruct Hmap as [Hn Hq]. rewrite (proj2 (Z.eqb_eq _ _) E).
    assert (Hr : user_range a = true) by (apply Hua; unfold NX_USER_BASE, NX_USER_TOP in *; dlia). rewrite Hr in *.
    destruct (C a) as [[fl x]|] eqn:EC; [destruct Hsh as (? & Hs & _); congruence|].
    exists (pa + a mod 4096). split; [rewrite Hq; change (4096 =? NX_PAGE_2M) with false; rewrite Z.lor_0_r; done|]. rewrite Hx.
    assert (Ea : a mod 4096 = a - va) by dlia. rewrite Ea in *. pose proof (Z.mod_pos_bound a 4096 ltac:(lia)).
    replace (pa + o <=? pa + (a - va)) with (o <=? a - va) by (destruct (Z.leb_spec o (a - va)), (Z.leb_spec (pa + o) (pa + (a - va))); lia || done).
    replace (pa + (a - va) <? pa + o + Z.of_nat (length b)) with (a - va <? o + Z.of_nat (length b))
      by (destruct (Z.ltb_spec (a - va) (o + Z.of_nat (length b))), (Z.ltb_spec (pa + (a - va)) (pa + o + Z.of_nat (length b))); lia || done).
    destruct (_ && _); [f_equal; lia|].
    replace (_ && _) with true by (symmetry; apply andb_true_intro; split; [apply Z.leb_le|apply Z.ltb_lt]; lia).
    done.
  - rewrite (proj2 (Z.eqb_neq _ _) E). rewrite Hmap. destruct (user_range a) eqn:Hr; [|done].
    destruct (C a) as [[fl x]|] eqn:EC; [|done]. destruct Hsh as (q & Hq & Hqx). exists q. split; [done|]. rewrite Hx.
    assert (Hne : q / 4096 * 4096 <> pa).
    { intros Eq. apply Hnu. rewrite <- Eq. exact (query_used U M root T s a q fl Hsp (user_range_va a (proj1 Hua eq_refl)) Hq (Hown a fl x EC)). }
    clear - Hne Hal Ho Hlen Hqx.
    destruct (Z.leb_spec (pa + o) q), (Z.ltb_spec q (pa + o + Z.of_nat (length b))); try (exfalso; apply Hne; dlia);
      destruct (Z.leb_spec pa q), (Z.ltb_spec q (pa + 4096)); try exact Hqx; exfalso; apply Hne; dlia.
Qed.

(** What the plan guarantees of a segment of image [img]. *)
Definition loadable (img : list Z) (sg : nx_elf_segment) : Prop :=
  segment_wf sg /\ 0 < sg_mem_size sg /\ exists pa, segment_ok (Z.of_nat (length img)) user_rules pa sg.

Lemma loadable_range img sg : loadable img sg ->
  0 <= sg_file_offset sg /\ 0 <= sg_file_size sg <= sg_mem_size sg /\ sg_file_offset sg + sg_file_size sg <= Z.of_nat (length img) /\
  NX_USER_BASE <= sg_addr sg /\ sg_addr sg + sg_mem_size sg <= NX_USER_STACK_TOP - 17 * 4096 /\ 0 < sg_mem_size sg.
Proof.
  intros ((Ho & Hf & _) & Hm & pa & H1 & H2 & _ & H3 & H4 & _). unfold fits in *.
  change (ru_min_addr user_rules) with NX_USER_BASE in H3. change (ru_max_addr user_rules) with (NX_USER_STACK_TOP - 17 * 4096) in H4. lia.
Qed.

Lemma slice_get (l : list Z) (o n i : Z) : 0 <= o -> 0 <= i < n -> (take (Z.to_nat n) (drop (Z.to_nat o) l)).[i] = l.[o + i].
Proof.
  intros Ho Hi. rewrite !list_lookup_total_alt, lookup_take_lt, lookup_drop by lia. f_equal. f_equal. lia.
Qed.

Lemma copy_page_spec img sg va pa s :
  loadable img sg -> NX_USER_BASE <= va < NX_USER_STACK_TOP -> va mod 4096 = 0 ->
  exists o b s', copy_page img sg va pa s = Some s' /\ (forall U M root T, space U M root T s -> space U M root T s') /\
    (forall root C kq, shows root C kq (set_data s (pa + o) b) -> shows root C kq s') /\ 0 <= o /\ o + Z.of_nat (length b) <= 4096 /\
    forall a, page_cells va (segment_flags sg) o b a = cells_between img sg va (va + 4096) a.
Proof.
  intros Hl Hva Hal. destruct (loadable_range img sg Hl) as (H1 & H2 & H3 & H4 & H5 & H6). unfold NX_USER_BASE, NX_USER_STACK_TOP in *.
  unfold copy_page. rewrite (wrap_small 64 (va + NX_PAGE_4K)) by (unfold fits, NX_PAGE_4K; lia). rewrite (wrap_small 64 (_ + _)) by (unfold fits; lia). change NX_PAGE_4K with 4096.
  set (lo := if va >? sg_addr sg then va else sg_addr sg).
  set (hi := if sg_addr sg + sg_file_size sg >? va + 4096 then va + 4096 else sg_addr sg + sg_file_size sg). cbv zeta.
  assert (Hlo : lo = Z.max va (sg_addr sg)) by (unfold lo; destruct (Z.gtb_spec va (sg_addr sg)); lia).
  assert (Hhi : hi = Z.min (va + 4096) (sg_addr sg + sg_file_size sg)) by (unfold hi; destruct (Z.gtb_spec (sg_addr sg + sg_file_size sg) (va + 4096)); lia).
  clearbody lo hi.
  assert (Hpage : forall a, (a / 4096 =? va / 4096) = ((va <=? a) && (a <? va + 4096))).
  { intros a. destruct (Z.eqb_spec (a / 4096) (va / 4096)), (Z.leb_spec va a), (Z.ltb_spec a (va + 4096)); try done; exfalso; dlia. }
  unfold page_cells, cells_between, segment_byte. setoid_rewrite Hpage. destruct (Z.ltb_spec lo hi) as [Hlt|Hge].
  - rewrite (proj2 (Z.leb_le _ _)) by lia. eexists (lo - va), _, _. split; [done|]. split; [intros U M root T; apply space_set_data|]. split; [done|].
    rewrite length_take, length_drop. split; [lia|]. split; [lia|]. intros a.
    destruct (Z.leb_spec va a), (Z.ltb_spec a (va + 4096)); cbn [andb]; try done. do 2 f_equal.
    replace (Z.of_nat _) with (hi - lo) by lia.
    destruct (Z.leb_spec (lo - va) (a - va)), (Z.ltb_spec (a - va) (lo - va + (hi - lo))), (Z.leb_spec (sg_addr sg) a),
      (Z.ltb_spec a (sg_addr sg + sg_file_size sg)); cbn [andb]; try done; try (exfalso; lia).
    rewrite slice_get by lia. f_equal. lia.
  - exists 0, [], s. split; [done|]. split; [done|]. split; [intros root C kq; apply shows_nil|]. split; [lia|]. split; [simpl; lia|]. intros a.
    destruct (Z.leb_spec va a), (Z.ltb_spec a (va + 4096)); cbn [andb]; try done. do 2 f_equal. cbn [length].
    destruct (Z.leb_spec 0 (a - va)), (Z.ltb_spec (a - va) (0 + Z.of_nat 0)), (Z.leb_spec (sg_addr sg) a), (Z.ltb_spec a (sg_addr sg + sg_file_size sg)); cbn [andb]; try done; exfalso; lia.
Qed.

(** ** Lemmas: loading the program *)

Lemma shows_ext root C D kq s : (forall va, C va = D va) -> shows root C kq s -> shows root D kq s.
Proof. intros He Hs va Hva. specialize (Hs va Hva). by rewrite <- He. Qed.

Lemma also_assoc C D E va : also (also C D) E va = also C (also D E) va.
Proof. unfold also. by destruct (C va). Qed.

Lemma page_flags_owned flags : Z.testbit (page_flags flags) 9 = true.
Proof. unfold page_flags. rewrite !Z.lor_spec. change (Z.testbit NX_PTE_OWNED 9) with true. by rewrite !orb_true_r. Qed.

Lemma also_owned C D : cells_owned C -> cells_owned D -> cells_owned (also C D).
Proof. intros HC HD va fl b. unfold also. destruct (C va) as [x|] eqn:E; [intros [= ->]; by apply (HC va fl b)|apply HD]. Qed.

Lemma between_owned img sg a b : cells_owned (cells_between img sg a b).
Proof. intros va fl x. unfold cells_between. destruct (_ && _); [intros [= <- _]; apply page_flags_owned|done]. Qed.

Lemma between_app img sg a b c va : a <= b <= c -> also (cells_between img sg a b) (cells_between img sg b c) va = cells_between img sg a c va.
Proof.
  intros H. unfold also, cells_between. destruct (Z.leb_spec a va), (Z.ltb_spec va b), (Z.ltb_spec va c), (Z.leb_spec b va); cbn [andb]; done || (exfalso; lia).
Qed.

Lemma segment_flags_fit sg : fits 64 (segment_flags sg).
Proof. unfold segment_flags. destruct (negb _), (negb _); unfold fits; by vm_compute. Qed.

(** The address space after a step of the loader: still consistent, and without an
    error extended by the cells [D]. *)
Definition loaded (U : Z -> Prop) (M : gset Z) (root : Z) (C D : cells) (kq : Z -> nx_pt_status + Z * Z * Z)
    (r : option nx_error * vst) : Prop :=
  (exists T, space U M root T r.2) /\ (r.1 = None -> shows root (also C D) kq r.2).

Lemma load_pages_spec U M root img sg kq end_ fuel : loadable img sg ->
  end_ mod 4096 = 0 -> end_ <= NX_USER_STACK_TOP -> forall va C T s,
  space U M root T s -> shows root C kq s -> cells_owned C -> NX_USER_BASE <= va <= end_ -> va mod 4096 = 0 ->
  end_ - va <= 4096 * Z.of_nat fuel ->
  exists r, load_pages fuel root img sg va end_ s = Some r /\ loaded U M root C (cells_between img sg va end_) kq r.
Proof.
  intros Hl He1 He2. unfold NX_USER_STACK_TOP in *. induction fuel as [|fuel IH]; intros va C T s Hsp Hsh Ho Hva Hv4 Hf; cbn [load_pages];
    (destruct (Z.ltb_spec va end_) as [Hlt|Hge];
      [|eexists; split; [done|]; split; [by exists T|]; intros _; revert Hsh; apply shows_ext; intros a; unfold also, cells_between;
        destruct (C a), (Z.leb_spec va a), (Z.ltb_spec a end_); done || (exfalso; lia)]); [lia|].
  assert (Hb : va + 4096 <= end_) by (clear - Hlt He1 Hv4; dlia).
  assert (Hr : NX_USER_BASE <= va < NX_USER_TOP) by (unfold NX_USER_BASE, NX_USER_TOP in *; lia).
  destruct (map_new_page_space U M root T s va (segment_flags sg) Hsp (user_range_va va Hr) (segment_flags_fit sg)) as (T1 & Hsp1 & Hm).
  destruct (map_new_page root va (segment_flags sg) s) as [[e|pa] s1]; cbn [fst snd] in *; [eexists; split; [done|]; split; [by exists T1|done]|].
  destruct (copy_page_spec img sg va pa s1 Hl) as (o & b & s2 & -> & Hsp2 & Hsh2 & Hb1 & Hb2 & Hc); [unfold NX_USER_STACK_TOP; lia|done|]. cbn [mbind option_bind].
  pose proof (page_step U M root T s C kq va (segment_flags sg) pa s1 o b Hsp Hsh Ho Hr Hm Hb1 Hb2) as Hsh1. apply Hsh2 in Hsh1.
  apply (shows_ext _ _ (also C (cells_between img sg va (va + 4096)))) in Hsh1; [|intros a; unfold also; by rewrite Hc].
  rewrite (wrap_small 64) by (unfold fits, NX_PAGE_4K, NX_USER_BASE in *; lia). change NX_PAGE_4K with 4096.
  destruct (IH (va + 4096) _ T1 _ (Hsp2 _ _ _ _ Hsp1) Hsh1) as (r & Er & Hr1 & Hr2).
  - apply also_owned; [done|apply between_owned].
  - lia.
  - clear - Hv4. dlia.
  - lia.
  - exists r. split; [done|]. split; [done|]. intros Hn. specialize (Hr2 Hn). revert Hr2. apply shows_ext. intros a.
    rewrite also_assoc. unfold also. destruct (C a); [done|]. fold (also (cells_between img sg va (va + 4096)) (cells_between img sg (va + 4096) end_) a).
    apply between_app. lia.
Qed.

Lemma load_segment_spec U M root img sg kq C T s :
  loadable img sg -> space U M root T s -> shows root C kq s -> cells_owned C ->
  exists r, load_segment root img sg s = Some r /\ loaded U M root C (segment_cells img sg) kq r.
Proof.
  intros Hl Hsp Hsh Ho. destruct (loadable_range img sg Hl) as (H1 & H2 & H3 & H4 & H5 & H6). unfold NX_USER_BASE, NX_USER_STACK_TOP in *.
  unfold load_segment, segment_cells. change (NX_PAGE_4K - 1) with (Z.ones 12). change NX_PAGE_4K with 4096.
  rewrite !mask_down by (lia || (unfold fits; lia) || by apply wrap_fits). change (2 ^ 12) with 4096.
  rewrite (wrap_small 64) by (unfold fits; lia). replace (_ + 4096 - 1) with (sg_addr sg + sg_mem_size sg + 4095) by lia.
  set (first := sg_addr sg / 4096 * 4096). set (end_ := (sg_addr sg + sg_mem_size sg + 4095) / 4096 * 4096).
  assert (Hf : first <= sg_addr sg /\ 0x8000000000 <= first /\ first mod 4096 = 0) by (unfold first; clear - H4; dlia).
  assert (He : end_ <= 0x00007FFFFFFF0000 /\ sg_addr sg <= end_ /\ end_ mod 4096 = 0) by (unfold end_; clear - H4 H5 H6; dlia).
  clearbody first end_. apply (load_pages_spec U M root img sg kq end_ _ Hl) with (T := T); try done; unfold NX_USER_STACK_TOP, NX_USER_BASE; try lia.
  clear - Hf He. dlia.
Qed.

Lemma segment_owned img sg : cells_owned (segment_cells img sg).
Proof. apply between_owned. Qed.

Lemma load_segments_spec U M root img kq segs : Forall (loadable img) segs -> forall C T s,
  space U M root T s -> shows root C kq s -> cells_owned C ->
  exists r, load_segments root img segs s = Some r /\ loaded U M root C (program_cells img segs) kq r.
Proof.
  induction 1 as [|sg segs Hl _ IH]; intros C T s Hsp Hsh Ho; cbn [load_segments program_cells].
  { eexists. split; [done|]. split; [by exists T|]. intros _. revert Hsh. apply shows_ext. intros a. unfold also, no_cells. by destruct (C a). }
  destruct (load_segment_spec U M root img sg kq C T s Hl Hsp Hsh Ho) as ([[e|] s1] & -> & [T1 Hsp1] & Hr); cbn [mbind option_bind fst snd] in *.
  { eexists. split; [done|]. split; [by exists T1|done]. }
  destruct (IH _ T1 s1 Hsp1 (Hr eq_refl)) as (r & -> & Hs & Hr2); [apply also_owned; [done|apply segment_owned]|].
  exists r. split; [done|]. split; [done|]. intros Hn. specialize (Hr2 Hn). revert Hr2. apply shows_ext. apply also_assoc.
Qed.

Lemma program_owned img segs : cells_owned (program_cells img segs).
Proof. induction segs as [|sg segs IH]; [done|]. cbn [program_cells]. apply also_owned; [apply segment_owned|exact IH]. Qed.

Lemma valid_loadable img p : Forall byte_ok img -> elf_valid img user_rules p -> Forall (loadable img) (pl_segments p).
Proof.
  intros Hb (Hge & _ & _ & entry & phoff & phnum & l & Eh & El & _ & Hok & _ & _ & -> & _).
  destruct (read_ehdr_ok img Hb Hge) as (_ & _ & ok & entry' & phoff' & phnum' & Eh' & _ & Hp & Hn). rewrite Eh in Eh'. injection Eh' as <- <- <- <-.
  destruct (Hn eq_refl) as [_ Hr].
  destruct (load_headers_ok img Hb phoff (seqZ 0 phnum) Hp) as (l' & El' & Hl'); [intros i; by apply headers_in_range|].
  rewrite El in El'. injection El' as <-. apply Forall_fmap, Forall_forall. rewrite Forall_forall in Hok, Hl'.
  intros [pa sg] Hin. destruct (Hl' _ Hin) as [H1 H2]. split; [done|]. split; [done|]. exists pa. by apply (Hok (pa, sg)).
Qed.

(** The outcome of [load_elf]. *)
Definition elf_loaded (U : Z -> Prop) (M : gset Z) (root : Z) (img : list Z) (kq : Z -> nx_pt_status + Z * Z * Z)
    (r : (nx_error + Z) * vst) : Prop :=
  (exists T, space U M root T r.2) /\
  forall entry, r.1 = inr entry -> exists p, elf_valid img user_rules p /\ entry = pl_entry p /\
    shows root (program_cells img (pl_segments p)) kq r.2.

Lemma load_elf_spec U M root img plan kq T s :
  Forall byte_ok img -> space U M root T s -> shows root no_cells kq s ->
  exists r, load_elf root img plan s = Some r /\ elf_loaded U M root img kq r.
Proof.
  intros Hb Hsp Hsh. unfold load_elf, nx_elf_plan_user.
  destruct (elf_plan_cases img user_rules plan plan Hb user_rules_ok) as [[[st p] Ep] _]. rewrite Ep. cbn [mbind option_bind].
  assert (Hst : st = NX_ELF_OK \/ st <> NX_ELF_OK) by (destruct st; auto). destruct Hst as [->|Hne].
  - apply (proj2 (elf_plan_cases img user_rules plan p Hb user_rules_ok)) in Ep.
    destruct (load_segments_spec U M root img kq (pl_segments p) (valid_loadable img p Hb Ep) no_cells T s Hsp Hsh) as ([[e|] s1] & -> & [T1 Hsp1] & Hr);
      [done|idtac..]; cbn [mbind option_bind fst snd] in *; (eexists; split; [done|]; split; [by exists T1|]); [done|].
    intros entry [= <-]. exists p. split; [done|]. split; [done|]. exact (Hr eq_refl).
  - destruct st; try done; (eexists; split; [done|]; split; [by exists T|done]).
Qed.

(** ** Lemmas: the stack *)

Lemma stack_pages_spec U M root kq n : forall i C T s,
  space U M root T s -> shows root C kq s -> cells_owned C -> 0 <= i -> i + Z.of_nat n <= NX_USER_STACK_PAGES ->
  loaded U M root C (stack_cells i (i + Z.of_nat n)) kq (stack_pages n i root s).
Proof.
  unfold NX_USER_STACK_PAGES. induction n as [|n IH]; intros i C T s Hsp Hsh Ho Hi Hn; cbn [stack_pages].
  { split; [by exists T|]. intros _. revert Hsh. apply shows_ext. intros a. unfold also, stack_cells.
    destruct (C a), (Z.leb_spec (NX_USER_STACK_TOP - (i + Z.of_nat 0) * 4096) a), (Z.ltb_spec a (NX_USER_STACK_TOP - i * 4096)); done || (exfalso; lia). }
  rewrite (wrap_small 64) by (unfold fits, NX_USER_STACK_TOP, NX_PAGE_4K; lia). change NX_PAGE_4K with 4096.
  set (va := NX_USER_STACK_TOP - (i + 1) * 4096). set (fl := NX_PTE_W |. NX_PTE_NX).
  assert (Hr : NX_USER_BASE <= va < NX_USER_TOP) by (unfold va, NX_USER_BASE, NX_USER_STACK_TOP, NX_USER_TOP; lia).
  assert (Hff : fits 64 fl) by (unfold fits; by vm_compute).
  destruct (map_new_page_space U M root T s va fl Hsp (user_range_va va Hr) Hff) as (T1 & Hsp1 & Hm).
  destruct (map_new_page root va fl s) as [[e|pa] s1]; cbn [fst snd] in *; [split; [by exists T1|done]|].
  pose proof (page_step U M root T s C kq va fl pa s1 0 [] Hsp Hsh Ho Hr Hm ltac:(lia) ltac:(simpl; lia)) as Hsh1. apply shows_nil in Hsh1.
  apply (shows_ext _ _ (also C (stack_cells i (i + 1)))) in Hsh1.
  2: { intros a. unfold also. destruct (C a); [done|]. unfold page_cells, stack_cells. fold va. fold fl.
    assert (E : (a / 4096 =? va / 4096) = ((va <=? a) && (a <? NX_USER_STACK_TOP - i * 4096))).
    { unfold va, NX_USER_STACK_TOP. clear. destruct (Z.eqb_spec (a / 4096) ((0x7FFFFFFF0000 - (i + 1) * 4096) / 4096)),
        (Z.leb_spec (0x7FFFFFFF0000 - (i + 1) * 4096) a), (Z.ltb_spec a (0x7FFFFFFF0000 - i * 4096)); done || (exfalso; dlia). }
    rewrite E. destruct (_ && _); [|done]. do 2 f_equal. cbn [length]. destruct (Z.leb_spec 0 (a - va)), (Z.ltb_spec (a - va) (0 + Z.of_nat 0)); done || (exfalso; lia). }
  assert (Hso : cells_owned (stack_cells i (i + 1))).
  { intros a f b. unfold stack_cells. destruct (_ && _); [intros [= <- _]; apply page_flags_owned|done]. }
  destruct (IH (i + 1) _ T1 s1 Hsp1 Hsh1 (also_owned _ _ Ho Hso) ltac:(lia) ltac:(lia)) as [Hs Hr2]. split; [done|].
  intros Hn0. specialize (Hr2 Hn0). revert Hr2. apply shows_ext. intros a. rewrite also_assoc. unfold also. destruct (C a); [done|].
  unfold stack_cells. replace (i + 1 + Z.of_nat n) with (i + Z.of_nat (S n)) by lia. set (m := i + Z.of_nat (S n)).
  assert (Hm1 : i + 1 <= m) by lia. clearbody m. clear - Hm1.
  destruct (Z.leb_spec (NX_USER_STACK_TOP - (i + 1) * 4096) a), (Z.ltb_spec a (NX_USER_STACK_TOP - i * 4096)),
    (Z.leb_spec (NX_USER_STACK_TOP - m * 4096) a), (Z.ltb_spec a (NX_USER_STACK_TOP - (i + 1) * 4096)); cbn [andb]; done || (exfalso; lia).
Qed.

(** ** Lemmas: a new address space *)

Lemma other_slot va : fits 64 va -> nx_pt_is_canonical va = true -> user_range va = false -> user_slotb (index_of va 3) = false.
Proof.
  intros Hf Hc Hu. apply not_true_iff_false. rewrite user_slotb_spec. intros [Hs _]. apply not_true_iff_false in Hu. apply Hu, user_range_spec.
  revert Hs. unfold nx_pt_is_canonical, fits, NX_AS_USER_SLOT_FIRST, NX_AS_USER_SLOT_LAST, NX_USER_BASE, NX_USER_TOP in *.
  rewrite index_of_spec by lia. change (level_size 3) with 0x8000000000. rewrite Z.shiftr_div_pow2 in Hc by lia. change (2 ^ 47) with 0x800000000000 in Hc.
  apply orb_true_iff in Hc as [E%Z.eqb_eq|E%Z.eqb_eq]; dlia.
Qed.

Lemma leaf_step m t va :
  leaf_from 3 m t va = if present (pte m t (index_of va 3)) then leaf_from 2 m (entry_addr (pte m t (index_of va 3))) va else None.
Proof.
  unfold leaf_from. change (find_loop 3 m t va) with
    (let e := pte m t (index_of va 3) in if negb (present e) then inl NX_PT_E_NOT_MAPPED else
     if large e && false then inr (t, index_of va 3, NX_PAGE_1G) else find_loop 2 m (entry_addr e) va).
  cbv zeta. destruct (present _); [|done]. by rewrite andb_false_r.
Qed.

Lemma shared_leaf TK K m m' root va :
  pt_wf TK m K -> TK !! root = None -> 0 <= va -> (forall t i, t <> root -> pte m' t i = pte m t i) ->
  pte m' root (index_of va 3) = pte m K (index_of va 3) -> leaf_from 3 m' root va = leaf_from 3 m K va.
Proof.
  intros Hwf Hr Hva Ho He. rewrite !leaf_step, He. destruct (present (pte m K (index_of va 3))) eqn:Ep; [|done].
  apply (leaf_frame TK m K Hwf); [|done|].
  - apply (walk_next TK m K Hwf K 2 va); [exact (root_on_walk TK m K Hwf va)|done|split; [done|]].
    by destruct (wf_entry _ _ _ Hwf K 3 0 (index_of va 3) (wf_root _ _ _ Hwf) (index_range va 3 ltac:(lia) Hva) Ep) as [H _]; apply H.
  - intros t l Ht. left. apply Ho. intros ->. unfold on_walk in Ht. congruence.
Qed.

Lemma create_shows K TK s root s' :
  pt_ok K TK s -> TK !! root = None -> pt_ok root (new_tables TK root) s' ->
  (forall t i, t <> root -> pte (pt_mem s') t i = pte (pt_mem s) t i) ->
  (forall i, 0 <= i < ENTRIES -> pte (pt_mem s') root i = if user_slotb i then 0 else pte (pt_mem s) K i) ->
  shows root no_cells (fun va => nx_pt_query K va s) s'.
Proof.
  intros Hok Hr Hok' Ho He va Hva. pose proof (index_range va 3 ltac:(lia) (proj1 Hva)) as Hi.
  rewrite (query_leaf root _ s' va Hok' (proj1 Hva)), (query_leaf K TK s va Hok (proj1 Hva)). destruct (user_range va) eqn:Eu; cbn [no_cells].
  - destruct (user_range_va va (proj1 (user_range_spec va) Eu)) as (_ & -> & Hs). rewrite leaf_not_present; [done|].
    rewrite He by done. by rewrite (proj2 (user_slotb_spec _) Hs).
  - destruct (nx_pt_is_canonical va) eqn:Ec; [|done]. f_equal. destruct Hok as (_ & Hwf & _). apply (shared_leaf TK); try done; [apply Hva|].
    rewrite He, other_slot by done. done.
Qed.

(** ** Lemmas: writable and executable *)

Definition wx (flags : Z) : bool := Z.testbit flags 1 && negb (Z.testbit flags 63).

Lemma segment_wx img sg : loadable img sg -> wx (page_flags (segment_flags sg)) = false.
Proof.
  intros (_ & _ & pa & _ & _ & _ & _ & _ & Hwx). specialize (Hwx eq_refl). unfold segment_flags.
  change 2 with (2 ^ 1). change 1 with (2 ^ 0) at 2. rewrite !flag_testbit by lia.
  destruct (Z.testbit (sg_flags sg) 1), (Z.testbit (sg_flags sg) 0); try reflexivity. by destruct Hwx.
Qed.

Lemma program_wx img segs va fl b : Forall (loadable img) segs -> program_cells img segs va = Some (fl, b) -> wx fl = false.
Proof.
  induction 1 as [|sg segs Hl _ IH]; cbn [program_cells]; [done|]. unfold also, segment_cells, cells_between.
  destruct (_ && _); [|exact IH]. intros [= <- _]. by apply (segment_wx img).
Qed.

Lemma program_user img segs va fl b : program_cells img segs va = Some (fl, b) -> Z.testbit fl 2 = true.
Proof.
  induction segs as [|sg segs IH]; cbn [program_cells]; [done|]. unfold also, segment_cells, cells_between.
  destruct (_ && _); [|exact IH]. intros [= <- _]. unfold page_flags. rewrite !Z.lor_spec. change (Z.testbit NX_PTE_U 2) with true.
  by rewrite orb_true_r.
Qed.

(** ** Theorems *)

Lemma utask_space_lemma K TK img plan s :
  pt_ok K TK s -> v_panic (pt_ctx s) = false -> Forall byte_ok img ->
  exists r s', utask_space K img plan s = Some (r, s') /\ v_panic (pt_ctx s') = false /\
    match r with
    | inl _ => forall p, page_used (v_pmm (pt_ctx s')) p <-> page_used (v_pmm (pt_ctx s)) p
    | inr (root, entry) =>
        (exists p, elf_valid img user_rules p /\ entry = pl_entry p /\
           shows root (also (program_cells img (pl_segments p)) (stack_cells 0 NX_USER_STACK_PAGES)) (fun va => nx_pt_query K va s) s') /\
        let v := pt_ctx (nx_as_destroy free_owned_leaf root s') in
        v_panic v = false /\ forall p, page_used (v_pmm v) p <-> page_used (v_pmm (pt_ctx s)) p
    end.
Proof.
  intros Hok Hp Hb. unfold utask_space. pose proof (as_create_space K TK s Hok Hp) as Hc. cbv zeta in Hc.
  destruct (nx_as_create K s) as [root s0]. cbn [fst snd] in *. destruct Hc as [(-> & Hu & Hp0 & _)|(Hz & HT & Hsp & Ho & He)].
  { exists (inl NX_ENOMEM), s0. split; [done|]. by split. }
  rewrite (proj2 (Z.eqb_neq root 0) Hz).
  pose proof (create_shows K TK s root s0 Hok HT (sp_ok _ _ _ _ _ Hsp) Ho He) as Hsh.
  destruct (load_elf_spec _ _ root img plan _ _ s0 Hb Hsp Hsh) as ([[e|entry] s1] & -> & [T1 Hsp1] & Hl); cbn [mbind option_bind fst snd] in *.
  { eexists _, _. split; [done|]. destruct (as_destroy_space _ _ root T1 s1 Hsp1) as (_ & D2 & _ & D4). by split. }
  destruct (Hl entry eq_refl) as (p & Hv & -> & Hs1).
  pose proof (stack_pages_spec _ _ root _ (Z.to_nat NX_USER_STACK_PAGES) 0 _ T1 s1 Hsp1 Hs1 (program_owned img (pl_segments p)) ltac:(lia) ltac:(done))
    as [[T2 Hsp2] Hst].
  destruct (stack_pages (Z.to_nat NX_USER_STACK_PAGES) 0 root s1) as [[e|] s2]; cbn [fst snd] in *;
    destruct (as_destroy_space _ _ root T2 s2 Hsp2) as (_ & D2 & _ & D4); (eexists _, _; split; [done|]).
  - by split.
  - split; [apply (sp_panic _ _ _ _ _ Hsp2)|]. split; [|by split]. exists p. split; [done|]. split; [done|]. exact (Hst eq_refl).
Qed.

(** C7: creating a task's address space. It always ends, without reading outside
    the image and without the kernel stopping. On an error every page taken is
    given back: the pages in use are the same as before. On success the image is
    a valid user program and the new address space holds exactly its segments
    (file bytes, then zeros), with their rights, and sixteen zeroed stack pages;
    at all other addresses it translates as the kernel's; and destroying it gives
    exactly the pages taken back. *)
Theorem utask_space_correct K TK img plan s :
  pt_ok K TK s -> v_panic (pt_ctx s) = false -> Forall byte_ok img ->
  exists r s', utask_space K img plan s = Some (r, s') /\ v_panic (pt_ctx s') = false /\
    match r with
    | inl _ => forall p, page_used (v_pmm (pt_ctx s')) p <-> page_used (v_pmm (pt_ctx s)) p
    | inr (root, entry) =>
        (exists p, elf_valid img user_rules p /\ entry = pl_entry p /\
           shows root (also (program_cells img (pl_segments p)) (stack_cells 0 NX_USER_STACK_PAGES)) (fun va => nx_pt_query K va s) s') /\
        let v := pt_ctx (nx_as_destroy free_owned_leaf root s') in
        v_panic v = false /\ forall p, page_used (v_pmm v) p <-> page_used (v_pmm (pt_ctx s)) p
    end.
Proof. apply utask_space_lemma. Qed.

(** C23: no user page of a new task is both writable and executable, and every user
    page carries the user and owned bits. *)
Theorem utask_wx K TK img plan s root entry s' va pa flags size :
  pt_ok K TK s -> v_panic (pt_ctx s) = false -> Forall byte_ok img ->
  utask_space K img plan s = Some (inr (root, entry), s') -> NX_USER_BASE <= va < NX_USER_TOP ->
  nx_pt_query root va s' = inr (pa, flags, size) ->
  size = NX_PAGE_4K /\ Z.testbit flags 2 = true /\ Z.testbit flags 9 = true /\ wx flags = false.
Proof.
  intros Hok Hp Hb Eu Hva Hq. destruct (utask_space_lemma K TK img plan s Hok Hp Hb) as (r & s1 & E & _ & Hr). rewrite Eu in E. injection E as <- <-.
  destruct Hr as ((p & Hv & _ & Hs) & _). destruct (user_range_va va Hva) as [Hf _]. specialize (Hs va Hf).
  rewrite (proj2 (user_range_spec va) Hva) in Hs. unfold also in Hs.
  assert (Hfl : forall C fl, C = Some fl -> (forall f b, C = Some (f, b) -> Z.testbit f 2 = true /\ Z.testbit f 9 = true /\ wx f = false) ->
    (let '(f, b) := fl in exists pa', nx_pt_query root va s' = inr (pa', f, NX_PAGE_4K) /\ v_data (pt_ctx s') pa' = b) ->
    size = NX_PAGE_4K /\ Z.testbit flags 2 = true /\ Z.testbit flags 9 = true /\ wx flags = false).
  { intros C [f b] EC HC (pa' & Hq' & _). rewrite Hq in Hq'. injection Hq' as _ -> ->. split; [done|]. by apply (HC f b). }
  destruct (program_cells img (pl_segments p) va) as [c|] eqn:Ec.
  - apply (Hfl (Some c) c eq_refl); [|by destruct c]. intros f b [= ->]. split; [|split; [by apply (program_owned img (pl_segments p) va f b)|]].
    + by apply (program_user img (pl_segments p) va f b).
    + apply (program_wx img (pl_segments p) va f b); [by apply valid_loadable|done].
  - unfold stack_cells in Hs. destruct (_ && _); [|congruence]. destruct Hs as (pa' & Hq' & _). rewrite Hq in Hq'. injection Hq' as _ -> ->. done.
Qed.

(** ** Witnesses *)

(** A machine with 256 KiB above 1 MiB, the kernel's root in the first free page. *)
Definition small_map : list nx_mem_region := [mk_region 0x100000 0x40000 NX_MEM_USABLE 0].
Definition small_pmm : nx_pmm := (nx_pmm_init zero_pmm small_map 1 0x100000 4096).2.
Definition small_vmm : vst := mk_pt (mk_vmm (nx_pmm_alloc small_pmm).2 1 false (fun _ => 0)) (zero_table ∅ 0x101000).

Lemma small_pmm_ok : pmm_ok small_pmm.
Proof.
  split; [|by vm_compute]. pose proof (init_cases zero_pmm small_map 1 0x100000 4096) as H. cbv zeta in H.
  assert (Hst : (nx_pmm_init zero_pmm small_map 1 0x100000 4096).1 = NX_PMM_OK) by by vm_compute.
  unfold small_pmm. destruct (nx_pmm_init _ _ _ _ _) as [st p]. simpl in Hst. subst st.
  apply H; try (unfold UINT64_MAX, PAGE; lia). repeat constructor; simpl; unfold UINT64_MAX; lia.
Qed.

Lemma small_root : (nx_pmm_alloc small_pmm).1 = 0x101000.
Proof. by vm_compute. Qed.

Lemma small_vmm_ok : pt_ok 0x101000 {[0x101000 := (3%nat, 0)]} small_vmm.
Proof.
  pose proof (pmm_alloc_page small_pmm small_pmm_ok) as Ha. pose proof small_root as Hq.
  unfold small_vmm. destruct (nx_pmm_alloc small_pmm) as [q p]. cbn [fst snd] in *. subst q.
  assert (Hz : forall i, 0 <= i < ENTRIES -> pte (zero_table ∅ 0x101000) 0x101000 i = 0) by (intros i Hi; by rewrite pte_zero, decide_True).
  destruct Ha as (Ha1 & _ & Ha2 & _).
  split; [exact Ha1|]. split.
  - split.
    + apply lookup_singleton_eq.
    + intros t l k Ht. apply lookup_singleton_Some in Ht as [<- [= <- <-]]. split; [lia|done].
    + intros t l k i Ht Hi. apply lookup_singleton_Some in Ht as [<- _]. by rewrite Hz.
    + intros t l k Ht Hr. apply lookup_singleton_Some in Ht as [<- _]. done.
  - intros t x Ht. apply lookup_singleton_Some in Ht as [<- _]. apply Ha2. by right.
Qed.

Lemma utask_space_correct_witness :
  exists root s', utask_space 0x101000 sample_elf sample_plan small_vmm = Some (inr (root, NX_USER_BASE), s') /\
    forall p, page_used (v_pmm (pt_ctx (nx_as_destroy free_owned_leaf root s'))) p <-> page_used (v_pmm (pt_ctx small_vmm)) p.
Proof.
  destruct (utask_space_correct 0x101000 _ sample_elf sample_plan small_vmm small_vmm_ok ltac:(by vm_compute) sample_elf_bytes) as (r & s' & E & _ & Hr).
  assert (Hres : match utask_space 0x101000 sample_elf sample_plan small_vmm with Some (inr (_, e), _) => e =? NX_USER_BASE | _ => false end = true)
    by by vm_compute.
  rewrite E in Hres. destruct r as [e|[root entry]]; [done|]. apply Z.eqb_eq in Hres as ->. destruct Hr as (_ & _ & Hr). exists root, s'. split; [exact E|exact Hr].
Defined.

Lemma utask_wx_witness :
  match utask_space 0x101000 sample_elf sample_plan small_vmm with
  | Some (inr (root, _), s') => exists pa flags, nx_pt_query root NX_USER_BASE s' = inr (pa, flags, NX_PAGE_4K) /\ wx flags = false
  | _ => False
  end.
Proof.
  assert (Hres : match utask_space 0x101000 sample_elf sample_plan small_vmm with
    | Some (inr (root, e), s') => match nx_pt_query root NX_USER_BASE s' with inr _ => true | _ => false end | _ => false end = true) by by vm_compute.
  destruct (utask_space 0x101000 sample_elf sample_plan small_vmm) as [[[e|[root entry]] s']|] eqn:E; [discriminate Hres| |discriminate Hres].
  destruct (nx_pt_query root NX_USER_BASE s') as [st|[[pa flags] size]] eqn:Eq; [discriminate Hres|].
  destruct (utask_wx 0x101000 _ sample_elf sample_plan small_vmm root entry s' NX_USER_BASE pa flags size small_vmm_ok ltac:(by vm_compute)
    sample_elf_bytes E ltac:(unfold NX_USER_BASE, NX_USER_TOP; lia) Eq) as (-> & _ & _ & Hw). exists pa, flags. split; [reflexivity|exact Hw].
Defined.
