(* ===== verification/KernelSpace.v ===== *)
(** * The kernel's address space

    [nx_vmm_init] of [kernel/mm/vmm.c]: the page tables the kernel runs on, built
    from the linker's symbols and the memory map. The proofs give the exact set of
    mappings a kernel that boots has: nothing but the image with its section
    rights, the stacks and the window onto memory, no page both writable and
    executable, no page open to user mode.

    Control registers and the message output are not modelled; [nx_panic] is the
    outcome [Halt]. *)
From S2P Require Import Prelude Bytes Abi BootAbi Bitmap Pmm ElfPlan Pt PtFree Vmm Program.

(** ** Data *)

Definition NX_PHYSMAP_BASE : Z := 0xFFFF800000000000.

(** The symbols of the linker script [kernel.ld]. *)
Record layout := mk_layout {
  text_start : Z; text_end : Z;
  rodata_start : Z; rodata_end : Z;
  data_start : Z; data_end : Z;
  stacks : list (Z * Z);
  guards : list Z;
  kernel_start : Z;
}.

(** A step of the boot: the kernel stops or goes on. *)
Inductive boot (A : Type) : Type :=
  | Halt
  | Go (a : A).
Arguments Halt {A}.
Arguments Go {A} a.

(** The arguments of [map_or_panic]. *)
Record kmap := mk_kmap { km_va : Z; km_pa : Z; km_len : Z; km_flags : Z; km_2m : bool }.

(** ** Operations *)

(** The storage is reached through the identity map of the firmware. *)
Definition nx_pmm_setup (p : nx_pmm) (rg : list nx_mem_region) : boot nx_pmm :=
  let npages := nx_pmm_span_pages rg in
  let bytes := nx_pmm_storage_bytes npages in
  let phys := nx_pmm_find_storage rg bytes in
  if phys =? 0 then Halt
  else match nx_pmm_init p rg phys phys bytes with (NX_PMM_OK, p') => Go p' | _ => Halt end.

Definition nx_page_alloc (v : vmm) : boot (Z * vmm) :=
  let r := nx_pmm_alloc (v_pmm v) in
  if r.1 =? 0 then Halt else Go (r.1, mk_vmm r.2 (v_tables v) (v_panic v) (v_data v)).

(** [None] is exhausted fuel in [nx_pt_map_range]. *)
Definition map_or_panic (root : Z) (m : kmap) (s : vst) : option (boot vst) :=
  r ← nx_pt_map_range root (km_va m) (km_pa m) (km_len m) (km_flags m) (km_2m m) s;
  Some (match r with (NX_PT_OK, s') => Go s' | _ => Halt end).

Fixpoint map_all (root : Z) (ms : list kmap) (s : vst) : option (boot vst) :=
  match ms with
  | [] => Some (Go s)
  | m :: ms' =>
      r ← map_or_panic root m s;
      match r with Halt => Some Halt | Go s' => map_all root ms' s' end
  end.

(** The image: [VA == PA], the sections with their rights and the four stacks. *)
Definition image_maps (l : layout) : list kmap :=
  let G := NX_PTE_G in let W := NX_PTE_W in let X_OFF := NX_PTE_NX in
  let m a b flags := mk_kmap a a (u64 (b - a)) flags false in
  [m (text_start l) (text_end l) G;
   m (rodata_start l) (rodata_end l) (G |. X_OFF);
   m (data_start l) (data_end l) (G |. W |. X_OFF)]
  ++ ((fun st => m st.1 st.2 (G |. W |. X_OFF)) <$> stacks l).

Definition physmap_type (t : Z) : bool :=
  (t =? NX_MEM_USABLE) || (t =? NX_MEM_BOOT_RECLAIMABLE) || (t =? NX_MEM_KERNEL_STACK) ||
  (t =? NX_MEM_BOOT_INFO) || (t =? NX_MEM_ACPI_RECLAIMABLE) || (t =? NX_MEM_ACPI_NVS) ||
  (t =? NX_MEM_FIRMWARE_RUNTIME) || (t =? NX_MEM_INITRD).

Definition physmap_maps (rg : list nx_mem_region) : list kmap :=
  (fun r => mk_kmap (u64 (NX_PHYSMAP_BASE + r_base r)) (r_base r) (r_length r) (NX_PTE_G |. NX_PTE_W |. NX_PTE_NX) true)
    <$> filter (fun r => physmap_type (r_type r) = true) rg.

(** Slots [idx] of the root get an empty table each. *)
Fixpoint kernel_pdpts (root : Z) (idx : list Z) (s : vst) : boot vst :=
  match idx with
  | [] => Go s
  | i :: idx' =>
      let r := env_alloc (pt_ctx s) in
      if r.1 =? 0 then Halt
      else kernel_pdpts root idx' (set_pte (mk_pt r.2 (zero_table (pt_mem s) r.1)) root i (r.1 |. NX_PTE_P |. NX_PTE_W))
  end.

(** Whether [expect_mapping] lets the boot go on. *)
Definition expect_mapping (root va : Z) (mapped : bool) (must_set must_clear : Z) (s : vst) : bool :=
  match nx_pt_query root va s with
  | inl NX_PT_E_NOT_MAPPED => negb mapped
  | inl _ => false
  | inr (_, flags, _) => mapped && (flags &. must_set =? must_set) && (flags &. must_clear =? 0)
  end.

Definition verify_mappings (root : Z) (l : layout) (s : vst) : bool :=
  expect_mapping root (text_start l) true 0 (NX_PTE_W |. NX_PTE_NX) s &&
  expect_mapping root (rodata_start l) true NX_PTE_NX NX_PTE_W s &&
  expect_mapping root (data_start l) true (NX_PTE_W |. NX_PTE_NX) 0 s &&
  forallb (fun g => expect_mapping root g false 0 0 s) (guards l) &&
  expect_mapping root 0 false 0 0 s &&
  expect_mapping root 0xDEAD0000 false 0 0 s &&
  expect_mapping root (u64 (NX_PHYSMAP_BASE + kernel_start l)) false 0 0 s.

(** [max_ext] and [ext_edx]: what [cpuid] reports in EAX of leaf 0x80000000 and in
    EDX of leaf 0x80000001. *)
Definition nx_vmm_init (max_ext ext_edx : Z) (l : layout) (rg : list nx_mem_region) (s : vst) : option (boot (Z * vst)) :=
  if (max_ext <? 0x80000001) || (ext_edx &. (1 <<. 20) =? 0) then Some Halt
  else
    match nx_pt_new_root s with
    | (inl _, _) => Some Halt
    | (inr root, s0) =>
        r ← map_all root (image_maps l) s0;
        match r with
        | Halt => Some Halt
        | Go s1 =>
            match kernel_pdpts root (seqZ 256 256) s1 with
            | Halt => Some Halt
            | Go s2 =>
                r ← map_all root (physmap_maps rg) s2;
                match r with
                | Halt => Some Halt
                | Go s3 =>
                    let p := v_pmm (pt_ctx s3) in
                    let s4 := set_pmm s3 (nx_pmm_relocate p (u64 (p_access p + NX_PHYSMAP_BASE))) in
                    Some (if verify_mappings root l s4 then Go (root, s4) else Halt)
                end
            end
        end
    end.

(** ** Specification *)

Definition in_map (va : Z) (m : kmap) : bool := (km_va m <=? va) && (va <? km_va m + km_len m).

Definition kernel_maps (l : layout) (rg : list nx_mem_region) : list kmap := image_maps l ++ physmap_maps rg.

(** Address space [root] translates the addresses of the mappings [ms], in that
    way, and nothing else. *)
Definition maps_exactly (root : Z) (ms : list kmap) (s : vst) : Prop :=
  forall va, fits 64 va -> nx_pt_is_canonical va = true ->
    match find (in_map va) ms with
    | None => nx_pt_query root va s = inl NX_PT_E_NOT_MAPPED
    | Some m => exists size ps, nx_pt_query root va s = inr (km_pa m + (va - km_va m), km_flags m |. NX_PTE_P |. ps, size) /\
        ((size = NX_PAGE_4K /\ ps = 0) \/ (size = NX_PAGE_2M /\ ps = NX_PTE_PS))
    end.

(** The symbols lie in order in the lower half. *)
Definition layout_ok (l : layout) : Prop :=
  Forall (fun ab => 0 <= ab.1 <= ab.2 /\ ab.2 <= 2 ^ 47)
    ((text_start l, text_end l) :: (rodata_start l, rodata_end l) :: (data_start l, data_end l) :: stacks l).

(** ** Lemmas: the root *)

Lemma new_root_ok (s s0 : vst) root :
  pmm_ok (v_pmm (pt_ctx s)) -> nx_pt_new_root s = (inr root, s0) ->
  pt_ok root {[root := (3%nat, 0)]} s0 /\ forall i, 0 <= i < ENTRIES -> pte (pt_mem s0) root i = 0.
Proof.
  intros Hok. change (pt_inv (pt_ctx s)) in Hok. unfold nx_pt_new_root, new_table. destruct (pt_alloc (pt_ctx s)) as [p a] eqn:Ea. cbn [fst snd].
  destruct (pt_alloc_ok (pt_ctx s) p a Hok Ea) as (Hinv & Hu & _). destruct (Z.eqb_spec p 0) as [->|Hz]; [done|]. cbn [orb].
  destruct (negb _); [done|]. intros [= -> <-]. cbn [pt_mem pt_ctx].
  assert (H0 : forall i, 0 <= i < ENTRIES -> pte (zero_table (pt_mem s) root) root i = 0) by (intros i Hi; by rewrite pte_zero, decide_True).
  split; [|exact H0]. split; [exact Hinv|]. split.
  - split.
    + apply lookup_singleton_eq.
    + intros t l k Ht. apply lookup_singleton_Some in Ht as [<- [= <- <-]]. split; [lia|done].
    + intros t l k i Ht Hi. apply lookup_singleton_Some in Ht as [<- _]. cbn [pt_mem]. by rewrite H0.
    + intros t l k Ht Hr. apply lookup_singleton_Some in Ht as [<- _]. done.
  - intros t x Ht. apply lookup_singleton_Some in Ht as [<- _]. apply Hu. by right.
Qed.

Lemma empty_root_maps T (s : vst) root :
  pt_ok root T s -> (forall i, 0 <= i < ENTRIES -> pte (pt_mem s) root i = 0) -> maps_exactly root [] s.
Proof.
  intros Hok H0 va Hva Hc. cbn [find]. rewrite (query_leaf root T s va Hok (proj1 Hva)), Hc, leaf_not_present; [done|].
  by rewrite H0 by (apply index_range; [lia|apply Hva]).
Qed.

(** ** Lemmas: mapping a list of ranges *)

Lemma find_snoc {X} (f : X -> bool) l x : find f (l ++ [x]) = match find f l with Some y => Some y | None => if f x then Some x else None end.
Proof. induction l as [|y l IH]; simpl; [done|]. by destruct (f y). Qed.

Lemma maps_step root ms m (s s' : vst) :
  maps_exactly root ms s -> range_mapped root (km_va m) (km_pa m) (km_len m) (km_flags m) s s' -> maps_exactly root (ms ++ [m]) s'.
Proof.
  intros Hm Hr va Hva Hc. specialize (Hm va Hva Hc). specialize (Hr va Hva). rewrite find_snoc.
  assert (Hin : in_map va m = true <-> km_va m <= va < km_va m + km_len m) by (unfold in_map; rewrite andb_true_iff, Z.leb_le, Z.ltb_lt; done).
  destruct (decide _) as [Hx|Hx].
  - apply Hin in Hx as ->. destruct Hr as [Hn Hr]. destruct (find (in_map va) ms); [|done]. destruct Hm as (? & ? & Hm & _). congruence.
  - assert (in_map va m = false) as -> by (apply not_true_iff_false; tauto). rewrite Hr. by destruct (find (in_map va) ms).
Qed.

Definition kmap_wf (m : kmap) : Prop := fits 64 (km_va m) /\ fits 64 (km_pa m) /\ fits 64 (km_len m) /\ fits 64 (km_flags m).

Lemma map_all_maps root ms0 ms : Forall kmap_wf ms -> forall T s,
  pt_ok root T s -> maps_exactly root ms0 s ->
  exists r, map_all root ms s = Some r /\ forall s', r = Go s' -> (exists T', pt_ok root T' s') /\ maps_exactly root (ms0 ++ ms) s'.
Proof.
  intros Hwf. revert ms0. induction Hwf as [|m ms (W1 & W2 & W3 & W4) _ IH]; intros ms0 T s Hok Hm; cbn [map_all].
  { eexists. split; [done|]. intros s' [= <-]. rewrite app_nil_r. split; [by exists T|done]. }
  destruct (map_range_all root T s (km_va m) (km_pa m) (km_len m) (km_flags m) (km_2m m) Hok W1 W2 W3 W4)
    as (st & s1 & T1 & n & E & Hok1 & Hn & Hst & _ & Hr).
  unfold map_or_panic. rewrite E. cbn [mbind option_bind].
  assert (Hd : st = NX_PT_OK \/ st <> NX_PT_OK) by (destruct st; auto). destruct Hd as [->|Hne].
  - rewrite (Hst eq_refl) in Hr. destruct (IH (ms0 ++ [m]) T1 s1 Hok1 (maps_step root ms0 m s s1 Hm Hr)) as (r & -> & Hr').
    exists r. split; [done|]. intros s' Es. specialize (Hr' s' Es). by rewrite <- app_assoc in Hr'.
  - exists Halt. split; [by destruct st|done].
Qed.

(** What single mappings keep, mapping the list keeps. *)
Lemma map_all_keeps (P : vst -> Prop) root ms s s' :
  (forall m va' pa size s, m ∈ ms -> km_va m <= va' < km_va m + km_len m -> fits 64 pa -> P s ->
     P (nx_pt_map root va' pa size (km_flags m) s).2) ->
  Forall kmap_wf ms -> P s -> map_all root ms s = Some (Go s') -> P s'.
Proof.
  intros HP Hwf. revert s. induction Hwf as [|m ms (W1 & W2 & W3 & W4) _ IH]; intros s Hs; cbn [map_all]; [by intros [= <-]|].
  unfold map_or_panic, nx_pt_map_range. destruct (negb (_ &. _ =? 0)) eqn:E1; [done|]. destruct (negb (km_len m =? 0) && _) eqn:E2; [done|].
  destruct (map_range_loop _ _ _ _ _ _ _ _) as [[st s1]|] eqn:E; [|done]. cbn [mbind option_bind]. destruct st; try done.
  apply IH; [intros m' va' pa size s2 Hin; apply HP; by apply list_elem_of_further|].
  destruct (range_args _ _ _ W1 W2 W3 E1 E2) as (A1 & _ & A3 & A4 & _).
  refine (map_range_keeps P root (km_va m) (km_len m) (km_flags m) (km_2m m) _ _ (proj1 W1) A4 _ _ _ _ _ _ _ _ _ A1 A3 W2 Hs E);
    unfold fits in *; try lia. intros va' pa size s2 Hv Hp. apply HP; [apply list_elem_of_here|done|done].
Qed.

(** ** Lemmas: the slots of the higher half *)

(** The tables are consistent and the root entries from [n] on are empty. *)
Definition empty_from (n root : Z) (s : vst) : Prop :=
  (exists T, pt_ok root T s) /\ forall i, n <= i < ENTRIES -> present (pte (pt_mem s) root i) = false.

Lemma map_empty_from root va pa size flags s :
  empty_from 256 root s -> fits 64 va -> va < 2 ^ 47 -> fits 64 pa -> fits 64 flags ->
  empty_from 256 root (nx_pt_map root va pa size flags s).2.
Proof.
  intros [[T Hok] He] Hva Hlow Hpa Hf. destruct (map_cases root T s va pa size flags Hok Hva Hpa Hf) as (T' & Hok' & (s1 & Hg & Hok1 & Heff) & _).
  split; [by exists T'|]. intros i Hi. pose proof Hok as (_ & Hwf & _). pose proof Hok1 as (_ & Hwf1 & _).
  assert (H1 : pte (pt_mem s1) root i = pte (pt_mem s) root i).
  { destruct (gr_old _ _ _ _ _ Hg root 3%nat 0 i (wf_root _ _ _ Hwf) ltac:(lia)) as [E|((_ & ->) & _)]; [done|]. exfalso.
    rewrite index_of_spec in Hi by (lia || apply Hva). change (level_size 3) with 0x8000000000 in Hi. unfold ENTRIES, fits in *. dlia. }
  assert (H2 : pte (pt_mem (nx_pt_map root va pa size flags s).2) root i = pte (pt_mem s1) root i); [|by rewrite H2, H1; apply He].
  destruct (nx_pt_map root va pa size flags s) as [st s2]. cbn [fst snd] in *.
  destruct st; try (by rewrite Heff). destruct Heff as (t & Hw & _ & ->). cbn [set_pte pt_mem]. rewrite pte_insert, decide_False; [done|].
  intros [<- _]. unfold on_walk in Hw. rewrite (wf_root _ _ _ Hwf1) in Hw. by destruct (size =? NX_PAGE_2M).
Qed.

Lemma pdpt_step root i (s : vst) (v : vmm) p :
  empty_from i root s -> 0 <= i < ENTRIES -> env_alloc (pt_ctx s) = (p, v) -> p <> 0 ->
  let s' := set_pte (mk_pt v (zero_table (pt_mem s) p)) root i (p |. NX_PTE_P |. NX_PTE_W) in
  empty_from (i + 1) root s' /\ forall ms, maps_exactly root ms s -> maps_exactly root ms s'.
Proof.
  intros [[T Hok] He] Hi Ea Hp s'. pose proof Hok as (Hinv & Hwf & Hu).
  destruct (pt_alloc_ok (pt_ctx s) p v Hinv Ea) as (Hinv' & Hus & Hnew). destruct (Hnew Hp) as [Hal Hnu].
  assert (HT : T !! p = None) by (destruct (T !! p) as [x|] eqn:E; [|done]; by destruct Hnu; apply (Hu p x)).
  assert (Hne : root <> p) by (intros ->; by rewrite (wf_root _ _ _ Hwf) in HT).
  set (s1 := mk_pt v (zero_table (pt_mem s) p)) in *. set (e := p |. NX_PTE_P |. NX_PTE_W) in *.
  assert (Hm : forall t' i', 0 <= i' < ENTRIES -> pte (pt_mem s') t' i' =
    if decide (t' = root /\ i' = i) then e else if decide (t' = p) then 0 else pte (pt_mem s) t' i')
    by (intros t' i' Hi'; by apply (linked_mem s s1 root i p e t' i')).
  assert (Hold : forall t' i', t' <> p -> (t', i') <> (root, i) -> pte (pt_mem s') t' i' = pte (pt_mem s) t' i').
  { intros t' i' H1 H2. unfold s', s1. cbn [set_pte pt_mem]. rewrite pte_insert, decide_False by (intros [-> ->]; by apply H2).
    by rewrite pte_zero, decide_False by tauto. }
  assert (Hz : forall i', 0 <= i' < ENTRIES -> pte (pt_mem s') p i' = 0)
    by (intros i' Hi'; rewrite Hm by done; rewrite decide_False by (intros [E _]; by apply Hne); by rewrite decide_True).
  assert (Hlk : link (pte (pt_mem s') root i) /\ entry_addr (pte (pt_mem s') root i) = p).
  { rewrite Hm, decide_True by done. destruct (link_entry p 0 Hal (or_introl eq_refl)) as [H1 H2]. rewrite Z.lor_0_r in H1, H2. done. }
  pose proof (He i ltac:(lia)) as Hnp.
  pose proof (link_wf T (pt_mem s) (pt_mem s') root root 2 0 i p Hwf (wf_root _ _ _ Hwf) Hi Hnp HT Hold Hz Hlk) as Hwf'.
  assert (Hok' : pt_ok root (<[p := (2%nat, 0 * 512 + i)]> T) s').
  { split; [exact Hinv'|]. split; [exact Hwf'|]. intros t x Ht. apply Hus.
    apply lookup_insert_Some in Ht as [[<- _]|[_ Ht]]; [by right|left; by apply (Hu t x)]. }
  split; [split; [by eexists|]|].
  - intros j Hj. rewrite Hold; [apply He; lia|done|]. intros [= ->]. lia.
  - intros ms Hms va Hva Hc. specialize (Hms va Hva Hc).
    assert (E : nx_pt_query root va s' = nx_pt_query root va s); [|by rewrite E].
    rewrite (query_leaf root _ s' va Hok' (proj1 Hva)), (query_leaf root T s va Hok (proj1 Hva)).
    by rewrite (link_leaf T (pt_mem s) (pt_mem s') root root 2 0 i p Hwf (wf_root _ _ _ Hwf) Hi Hnp HT Hold Hz Hlk va (proj1 Hva)).
Qed.

Lemma pdpts_maps root ms n : forall i s s',
  256 <= i -> i + Z.of_nat n = ENTRIES -> empty_from i root s -> maps_exactly root ms s ->
  kernel_pdpts root (seqZ i (Z.of_nat n)) s = Go s' -> (exists T, pt_ok root T s') /\ maps_exactly root ms s'.
Proof.
  unfold ENTRIES. induction n as [|n IH]; intros i s s' Hi Hn He Hm.
  { cbn [seqZ]. intros [= <-]. by destruct He as [HT _]. }
  rewrite seqZ_cons by lia. cbn [kernel_pdpts]. destruct (env_alloc (pt_ctx s)) as [p v] eqn:Ea. cbn [fst snd].
  destruct (Z.eqb_spec p 0) as [->|Hp]; [done|].
  destruct (pdpt_step root i s v p He ltac:(unfold ENTRIES; lia) Ea Hp) as [He' Hm'].
  replace (Z.pred (Z.of_nat (S n))) with (Z.of_nat n) by lia. replace (Z.succ i) with (i + 1) by lia. apply IH; [lia..|done|by apply Hm'].
Qed.

(** ** Lemmas: the mappings of the kernel *)

Lemma image_wf l : layout_ok l -> Forall (fun m => kmap_wf m /\ km_va m + km_len m <= 2 ^ 47) (image_maps l).
Proof.
  unfold layout_ok, image_maps. cbn [app]. rewrite !Forall_cons. intros (H1 & H2 & H3 & H4). cbn [fst snd] in *.
  assert (Hm : forall a b fl, 0 <= a <= b /\ b <= 2 ^ 47 -> fits 64 fl ->
    kmap_wf (mk_kmap a a (u64 (b - a)) fl false) /\ km_va (mk_kmap a a (u64 (b - a)) fl false) + km_len (mk_kmap a a (u64 (b - a)) fl false) <= 2 ^ 47).
  { intros a b fl Ha Hf. unfold kmap_wf. cbn [km_va km_pa km_len km_flags]. rewrite wrap_small by (unfold fits; lia).
    split_and!; try done; unfold fits; lia. }
  split; [by apply Hm; [|unfold fits; vm_compute]|]. split; [by apply Hm; [|unfold fits; vm_compute]|].
  split; [by apply Hm; [|unfold fits; vm_compute]|]. apply Forall_fmap. apply (Forall_impl _ _ _ H4).
  intros [a b] Hab. by apply Hm; [|unfold fits; vm_compute].
Qed.

Definition region_fits (r : nx_mem_region) : Prop := fits 64 (r_base r) /\ fits 64 (r_length r).

Lemma physmap_wf rg : Forall region_fits rg -> Forall kmap_wf (physmap_maps rg).
Proof.
  intros Hr. unfold physmap_maps. apply Forall_fmap, Forall_forall. rewrite Forall_forall in Hr.
  intros r [_ Hin]%list_elem_of_filter. destruct (Hr r Hin) as [H1 H2].
  split; [by apply wrap_fits|]. split; [done|]. split; [done|]. unfold fits. by vm_compute.
Qed.

(** No mapping of the kernel is writable and executable, or open to user mode. *)
Lemma kernel_flags l rg m ps : m ∈ kernel_maps l rg -> ps = 0 \/ ps = NX_PTE_PS ->
  wx (km_flags m |. NX_PTE_P |. ps) = false /\ Z.testbit (km_flags m |. NX_PTE_P |. ps) 2 = false.
Proof.
  intros Hin Hps. assert (Hfl : km_flags m ∈ [NX_PTE_G; NX_PTE_G |. NX_PTE_NX; NX_PTE_G |. NX_PTE_W |. NX_PTE_NX]).
  { unfold kernel_maps, image_maps, physmap_maps in Hin. rewrite !elem_of_app, !elem_of_cons, !list_elem_of_fmap in Hin.
    destruct Hin as [[[->|[->|[->|[]%not_elem_of_nil]]]|(st & -> & _)]|(r & -> & _)]; cbn [km_flags]; set_solver. }
  rewrite !elem_of_cons in Hfl. destruct Hfl as [->|[->|[->|[]%not_elem_of_nil]]]; destruct Hps as [->| ->]; done.
Qed.

Lemma find_elem {X} (f : X -> bool) l x : find f l = Some x -> x ∈ l /\ f x = true.
Proof. intros H. apply find_some in H as [H1 H2]. split; [by apply list_elem_of_In|done]. Qed.

Lemma expect_unmapped root va a b s : expect_mapping root va false a b s = true -> nx_pt_query root va s = inl NX_PT_E_NOT_MAPPED.
Proof. unfold expect_mapping. destruct (nx_pt_query root va s) as [[]|[[? ?] ?]]; done. Qed.

(** ** Theorems *)

(** C8: building the kernel's address space always ends, in a halt or with tables
    that map exactly the sections of the image with their rights, the four stacks
    and the window onto the memory map: every address translates as the mapping
    that covers it says and all others are not mapped, the guard pages, the null
    page and the alias of the image among them. No mapping is both writable and
    executable, none is open to user mode. *)
Theorem kernel_space_exact max_ext ext_edx l rg s :
  pmm_ok (v_pmm (pt_ctx s)) -> layout_ok l -> Forall region_fits rg ->
  exists r, nx_vmm_init max_ext ext_edx l rg s = Some r /\ forall root s', r = Go (root, s') ->
    (exists T, pt_ok root T s') /\ maps_exactly root (kernel_maps l rg) s' /\
    (forall va pa flags size, fits 64 va -> nx_pt_query root va s' = inr (pa, flags, size) ->
       wx flags = false /\ Z.testbit flags 2 = false) /\
    (forall g, g ∈ 0 :: u64 (NX_PHYSMAP_BASE + kernel_start l) :: guards l -> nx_pt_query root g s' = inl NX_PT_E_NOT_MAPPED).
Proof.
  intros Hp Hl Hr. unfold nx_vmm_init. destruct (_ || _); [by exists Halt|]. destruct (nx_pt_new_root s) as [[st|root] s0] eqn:E0; [by exists Halt|].
  destruct (new_root_ok s s0 root Hp E0) as [Hok0 Hz]. pose proof (empty_root_maps _ s0 root Hok0 Hz) as Hm0. pose proof (image_wf l Hl) as Hwf.
  assert (Hwf1 : Forall kmap_wf (image_maps l)) by (apply (Forall_impl _ _ _ Hwf); tauto).
  destruct (map_all_maps root [] (image_maps l) Hwf1 _ s0 Hok0 Hm0) as ([|s1] & E1 & Hm1); rewrite E1; cbn [mbind option_bind]; [by exists Halt|].
  destruct (Hm1 s1 eq_refl) as [_ Hm1']. clear Hm1.
  assert (He : empty_from 256 root s1).
  { apply (map_all_keeps (empty_from 256 root) root (image_maps l) s0 s1); try done.
    - intros m va' pa size s2 Hin Hv Hpa Hs. rewrite Forall_forall in Hwf. destruct (Hwf m Hin) as [(W1 & _ & _ & W4) Hlim].
      apply map_empty_from; try done; unfold fits in *; lia.
    - split; [by eexists|]. intros i Hi. by rewrite Hz by (unfold ENTRIES in *; lia). }
  destruct (kernel_pdpts root (seqZ 256 256) s1) as [|s2] eqn:E2; [by exists Halt|].
  destruct (pdpts_maps root ([] ++ image_maps l) 256 256 s1 s2 ltac:(lia) ltac:(done) He Hm1' E2) as [[T2 Hok2] Hm2].
  destruct (map_all_maps root _ (physmap_maps rg) (physmap_wf rg Hr) T2 s2 Hok2 Hm2) as ([|s3] & E3 & Hm3); rewrite E3; cbn [mbind option_bind]; [by exists Halt|].
  destruct (Hm3 s3 eq_refl) as [[T3 Hok3] Hm3']. clear Hm3. set (s4 := set_pmm s3 _).
  eexists. split; [done|]. destruct (verify_mappings root l s4) eqn:Ev; [|done]. intros root' s' [= <- <-].
  assert (Hok4 : pt_ok root T3 s4) by exact Hok3. assert (Hm4 : maps_exactly root (kernel_maps l rg) s4) by exact Hm3'.
  split; [by exists T3|]. split; [done|]. split.
  - intros va pa flags size Hva Hq. destruct (nx_pt_is_canonical va) eqn:Hc.
    + specialize (Hm4 va Hva Hc). destruct (find (in_map va) (kernel_maps l rg)) as [m|] eqn:Ef; [|congruence].
      destruct Hm4 as (sz & ps & Hq' & Hps). rewrite Hq in Hq'. injection Hq' as _ -> _. apply (kernel_flags l rg m ps); [by apply find_elem in Ef as [? _]|].
      destruct Hps as [[_ ->]|[_ ->]]; auto.
    + unfold nx_pt_query, find_leaf in Hq. by rewrite Hc in Hq.
  - unfold verify_mappings in Ev. rewrite !andb_true_iff, forallb_forall in Ev. destruct Ev as ((((((_ & _) & _) & Hg) & H0) & _) & Hk).
    intros g [->|[->|Hin]%elem_of_cons]%elem_of_cons; [by eapply expect_unmapped|by eapply expect_unmapped|].
    eapply expect_unmapped, Hg. by apply list_elem_of_In.
Qed.

(** ** Witnesses *)

(** A machine with a little more than 1 MiB and a kernel of three pages. *)
Definition tiny_layout : layout :=
  mk_layout 0x300000 0x301000 0x301000 0x302000 0x302000 0x303000
    [(0x304000, 0x305000); (0x306000, 0x307000); (0x308000, 0x309000); (0x30a000, 0x30b000)]
    [0x303000; 0x305000; 0x307000; 0x309000] 0x300000.
Definition tiny_map : list nx_mem_region := [mk_region 0x100000 0x10c000 NX_MEM_USABLE 0].
Definition tiny_pmm : nx_pmm := match nx_pmm_setup zero_pmm tiny_map with Go p => p | Halt => zero_pmm end.
Definition tiny_vmm : vst := mk_pt (mk_vmm tiny_pmm 0 false (fun _ => 0)) ∅.

Lemma tiny_pmm_ok : pmm_ok tiny_pmm.
Proof.
  split; [|by vm_compute]. pose proof (init_cases zero_pmm tiny_map 0x100000 0x100000 4096) as H. cbv zeta in H.
  assert (Hst : (nx_pmm_init zero_pmm tiny_map 0x100000 0x100000 4096).1 = NX_PMM_OK) by by vm_compute.
  assert (Ht : tiny_pmm = (nx_pmm_init zero_pmm tiny_map 0x100000 0x100000 4096).2) by by vm_compute. rewrite Ht.
  destruct (nx_pmm_init _ _ _ _ _) as [st p]. simpl in Hst. subst st.
  apply H; try (unfold UINT64_MAX, PAGE; lia). repeat constructor; simpl; unfold UINT64_MAX; lia.
Qed.

Lemma kernel_space_exact_witness :
  exists root s', nx_vmm_init 0x80000001 0x100000 tiny_layout tiny_map tiny_vmm = Some (Go (root, s')) /\
    maps_exactly root (kernel_maps tiny_layout tiny_map) s'.
Proof.
  destruct (kernel_space_exact 0x80000001 0x100000 tiny_layout tiny_map tiny_vmm tiny_pmm_ok) as (r & E & Hr).
  - repeat constructor; cbn; lia.
  - repeat constructor; cbn; unfold fits; lia.
  - assert (Hgo : match nx_vmm_init 0x80000001 0x100000 tiny_layout tiny_map tiny_vmm with Some (Go _) => true | _ => false end = true) by by vm_compute.
    rewrite E in Hgo. destruct r as [|[root s']]; [discriminate Hgo|]. exists root, s'. split; [exact E|]. apply (Hr root s' eq_refl).
Defined.
