(* ===== verification/Sched.v ===== *)
(** * Tasks and the scheduler

    [kernel/task.c]: the task table, the round-robin scheduler with its time slice
    and the life of a task from creation to the reuse of its slot.  A task pointer
    is a slot number.  What a task owns besides (kernel stack, address space,
    handles) is modelled with its component; here the outcome of those calls is an
    argument of the operation.  The processor is seen through the loaded page-table
    root and the stack pointer for traps; saving and restoring registers is not
    modelled: after [nx_schedule] the state is that of the task switched to. *)
From S2P Require Import Prelude Abi Event.

(** ** Data *)

Definition NX_TASK_MAX : Z := 32.
Definition NX_TASK_NAME : Z := 16.
Definition NX_SCHED_SLICE : Z := 2.
Definition NX_KSTACK_BASE : Z := 0xFFFFFE0000000000.
Definition NX_KSTACK_PAGES : Z := 4.
Definition NX_KSTACK_STRIDE : Z := 0x8000.

Inductive nx_task_state : Set :=
  | NX_TASK_FREE | NX_TASK_READY | NX_TASK_RUNNING | NX_TASK_BLOCKED | NX_TASK_DEAD | NX_TASK_REAPED.

Inductive nx_task_end : Set := NX_END_NONE | NX_END_EXIT | NX_END_FAULT | NX_END_KILLED | NX_END_KERNEL.

#[export] Instance nx_task_state_dec : EqDecision nx_task_state.
Proof. solve_decision. Defined.

#[export] Instance nx_task_end_dec : EqDecision nx_task_end.
Proof. solve_decision. Defined.

(** [blocked_on]: null, the sleep token, or an endpoint. *)
Inductive wait_on : Set := OnNothing | OnSleep | OnEndpoint (ep : Z).

#[export] Instance wait_on_dec : EqDecision wait_on.
Proof. solve_decision. Defined.

Record nx_fault := mk_fault { f_vector : Z; f_error : Z; f_rip : Z; f_cr2 : Z }.

(** [struct nx_task]; the slot is the index in the table.  The saved stack pointer,
    the counters of yields and debug writes, the handle table and the mapped memory
    objects are left out: no decision of the scheduler depends on them. *)
Record nx_task := mk_task {
  t_refs : Z;
  t_id : Z;
  t_name : list Z;
  t_state : nx_task_state;
  t_user : bool;
  t_cr3 : Z;
  t_entry : Z;
  t_kstack_top : Z;
  t_slice : Z;
  t_ticks : Z;
  t_preempted : Z;
  t_waiter : option Z;
  t_blocked_on : wait_on;
  t_end : nx_task_end;
  t_exit_code : Z;
  t_fault : nx_fault;
  t_killer_id : Z;
  t_rev : Z;
  t_created_tick : Z;
  t_ended_tick : Z;
  t_wake_tick : Z;
  t_started : bool;
  t_syscalls : Z;
}.

(** A cleared slot. *)
Definition zero_task : nx_task :=
  mk_task 0 0 [] NX_TASK_FREE false 0 0 0 0 0 0 None OnNothing NX_END_NONE 0 (mk_fault 0 0 0 0) 0 0 0 0 0 false 0.

#[export] Instance nx_task_inhabited : Inhabited nx_task := populate zero_task.

(** The static variables of [task.c], the timer count, the waiters of the
    endpoints, and the processor's page-table root and trap stack. *)
Record sched := mk_sched {
  s_tasks : list nx_task;
  s_current : Z;
  s_idle : Z;
  s_next_id : Z;
  s_preempt : bool;
  s_watchdog : Z;
  s_reaper : option Z;
  s_events : nx_evlog;
  s_now : Z;
  s_switches : Z;
  s_preemptions : Z;
  s_ep_waiter : gmap Z Z;
  s_cr3 : Z;
  s_rsp0 : Z;
}.

(** Assignments to one field. *)
Definition with_refs (x : Z) (t : nx_task) : nx_task :=
  mk_task x (t_id t) (t_name t) (t_state t) (t_user t) (t_cr3 t) (t_entry t) (t_kstack_top t) (t_slice t) (t_ticks t) (t_preempted t) (t_waiter t) (t_blocked_on t) (t_end t) (t_exit_code t) (t_fault t) (t_killer_id t) (t_rev t) (t_created_tick t) (t_ended_tick t) (t_wake_tick t) (t_started t) (t_syscalls t).
Definition with_state (x : nx_task_state) (t : nx_task) : nx_task :=
  mk_task (t_refs t) (t_id t) (t_name t) x (t_user t) (t_cr3 t) (t_entry t) (t_kstack_top t) (t_slice t) (t_ticks t) (t_preempted t) (t_waiter t) (t_blocked_on t) (t_end t) (t_exit_code t) (t_fault t) (t_killer_id t) (t_rev t) (t_created_tick t) (t_ended_tick t) (t_wake_tick t) (t_started t) (t_syscalls t).
Definition with_user (x : bool) (t : nx_task) : nx_task :=
  mk_task (t_refs t) (t_id t) (t_name t) (t_state t) x (t_cr3 t) (t_entry t) (t_kstack_top t) (t_slice t) (t_ticks t) (t_preempted t) (t_waiter t) (t_blocked_on t) (t_end t) (t_exit_code t) (t_fault t) (t_killer_id t) (t_rev t) (t_created_tick t) (t_ended_tick t) (t_wake_tick t) (t_started t) (t_syscalls t).
Definition with_cr3 (x : Z) (t : nx_task) : nx_task :=
  mk_task (t_refs t) (t_id t) (t_name t) (t_state t) (t_user t) x (t_entry t) (t_kstack_top t) (t_slice t) (t_ticks t) (t_preempted t) (t_waiter t) (t_blocked_on t) (t_end t) (t_exit_code t) (t_fault t) (t_killer_id t) (t_rev t) (t_created_tick t) (t_ended_tick t) (t_wake_tick t) (t_started t) (t_syscalls t).
Definition with_entry (x : Z) (t : nx_task) : nx_task :=
  mk_task (t_refs t) (t_id t) (t_name t) (t_state t) (t_user t) (t_cr3 t) x (t_kstack_top t) (t_slice t) (t_ticks t) (t_preempted t) (t_waiter t) (t_blocked_on t) (t_end t) (t_exit_code t) (t_fault t) (t_killer_id t) (t_rev t) (t_created_tick t) (t_ended_tick t) (t_wake_tick t) (t_started t) (t_syscalls t).
Definition with_kstack_top (x : Z) (t : nx_task) : nx_task :=
  mk_task (t_refs t) (t_id t) (t_name t) (t_state t) (t_user t) (t_cr3 t) (t_entry t) x (t_slice t) (t_ticks t) (t_preempted t) (t_waiter t) (t_blocked_on t) (t_end t) (t_exit_code t) (t_fault t) (t_killer_id t) (t_rev t) (t_created_tick t) (t_ended_tick t) (t_wake_tick t) (t_started t) (t_syscalls t).
Definition with_slice (x : Z) (t : nx_task) : nx_task :=
  mk_task (t_refs t) (t_id t) (t_name t) (t_state t) (t_user t) (t_cr3 t) (t_entry t) (t_kstack_top t) x (t_ticks t) (t_preempted t) (t_waiter t) (t_blocked_on t) (t_end t) (t_exit_code t) (t_fault t) (t_killer_id t) (t_rev t) (t_created_tick t) (t_ended_tick t) (t_wake_tick t) (t_started t) (t_syscalls t).
Definition with_ticks (x : Z) (t : nx_task) : nx_task :=
  mk_task (t_refs t) (t_id t) (t_name t) (t_state t) (t_user t) (t_cr3 t) (t_entry t) (t_kstack_top t) (t_slice t) x (t_preempted t) (t_waiter t) (t_blocked_on t) (t_end t) (t_exit_code t) (t_fault t) (t_killer_id t) (t_rev t) (t_created_tick t) (t_ended_tick t) (t_wake_tick t) (t_started t) (t_syscalls t).
Definition with_preempted (x : Z) (t : nx_task) : nx_task :=
  mk_task (t_refs t) (t_id t) (t_name t) (t_state t) (t_user t) (t_cr3 t) (t_entry t) (t_kstack_top t) (t_slice t) (t_ticks t) x (t_waiter t) (t_blocked_on t) (t_end t) (t_exit_code t) (t_fault t) (t_killer_id t) (t_rev t) (t_created_tick t) (t_ended_tick t) (t_wake_tick t) (t_started t) (t_syscalls t).
Definition with_waiter (x : option Z) (t : nx_task) : nx_task :=
  mk_task (t_refs t) (t_id t) (t_name t) (t_state t) (t_user t) (t_cr3 t) (t_entry t) (t_kstack_top t) (t_slice t) (t_ticks t) (t_preempted t) x (t_blocked_on t) (t_end t) (t_exit_code t) (t_fault t) (t_killer_id t) (t_rev t) (t_created_tick t) (t_ended_tick t) (t_wake_tick t) (t_started t) (t_syscalls t).
Definition with_blocked_on (x : wait_on) (t : nx_task) : nx_task :=
  mk_task (t_refs t) (t_id t) (t_name t) (t_state t) (t_user t) (t_cr3 t) (t_entry t) (t_kstack_top t) (t_slice t) (t_ticks t) (t_preempted t) (t_waiter t) x (t_end t) (t_exit_code t) (t_fault t) (t_killer_id t) (t_rev t) (t_created_tick t) (t_ended_tick t) (t_wake_tick t) (t_started t) (t_syscalls t).
Definition with_end (x : nx_task_end) (t : nx_task) : nx_task :=
  mk_task (t_refs t) (t_id t) (t_name t) (t_state t) (t_user t) (t_cr3 t) (t_entry t) (t_kstack_top t) (t_slice t) (t_ticks t) (t_preempted t) (t_waiter t) (t_blocked_on t) x (t_exit_code t) (t_fault t) (t_killer_id t) (t_rev t) (t_created_tick t) (t_ended_tick t) (t_wake_tick t) (t_started t) (t_syscalls t).
Definition with_exit_code (x : Z) (t : nx_task) : nx_task :=
  mk_task (t_refs t) (t_id t) (t_name t) (t_state t) (t_user t) (t_cr3 t) (t_entry t) (t_kstack_top t) (t_slice t) (t_ticks t) (t_preempted t) (t_waiter t) (t_blocked_on t) (t_end t) x (t_fault t) (t_killer_id t) (t_rev t) (t_created_tick t) (t_ended_tick t) (t_wake_tick t) (t_started t) (t_syscalls t).
Definition with_fault (x : nx_fault) (t : nx_task) : nx_task :=
  mk_task (t_refs t) (t_id t) (t_name t) (t_state t) (t_user t) (t_cr3 t) (t_entry t) (t_kstack_top t) (t_slice t) (t_ticks t) (t_preempted t) (t_waiter t) (t_blocked_on t) (t_end t) (t_exit_code t) x (t_killer_id t) (t_rev t) (t_created_tick t) (t_ended_tick t) (t_wake_tick t) (t_started t) (t_syscalls t).
Definition with_killer_id (x : Z) (t : nx_task) : nx_task :=
  mk_task (t_refs t) (t_id t) (t_name t) (t_state t) (t_user t) (t_cr3 t) (t_entry t) (t_kstack_top t) (t_slice t) (t_ticks t) (t_preempted t) (t_waiter t) (t_blocked_on t) (t_end t) (t_exit_code t) (t_fault t) x (t_rev t) (t_created_tick t) (t_ended_tick t) (t_wake_tick t) (t_started t) (t_syscalls t).
Definition with_rev (x : Z) (t : nx_task) : nx_task :=
  mk_task (t_refs t) (t_id t) (t_name t) (t_state t) (t_user t) (t_cr3 t) (t_entry t) (t_kstack_top t) (t_slice t) (t_ticks t) (t_preempted t) (t_waiter t) (t_blocked_on t) (t_end t) (t_exit_code t) (t_fault t) (t_killer_id t) x (t_created_tick t) (t_ended_tick t) (t_wake_tick t) (t_started t) (t_syscalls t).
Definition with_created_tick (x : Z) (t : nx_task) : nx_task :=
  mk_task (t_refs t) (t_id t) (t_name t) (t_state t) (t_user t) (t_cr3 t) (t_entry t) (t_kstack_top t) (t_slice t) (t_ticks t) (t_preempted t) (t_waiter t) (t_blocked_on t) (t_end t) (t_exit_code t) (t_fault t) (t_killer_id t) (t_rev t) x (t_ended_tick t) (t_wake_tick t) (t_started t) (t_syscalls t).
Definition with_ended_tick (x : Z) (t : nx_task) : nx_task :=
  mk_task (t_refs t) (t_id t) (t_name t) (t_state t) (t_user t) (t_cr3 t) (t_entry t) (t_kstack_top t) (t_slice t) (t_ticks t) (t_preempted t) (t_waiter t) (t_blocked_on t) (t_end t) (t_exit_code t) (t_fault t) (t_killer_id t) (t_rev t) (t_created_tick t) x (t_wake_tick t) (t_started t) (t_syscalls t).
Definition with_wake_tick (x : Z) (t : nx_task) : nx_task :=
  mk_task (t_refs t) (t_id t) (t_name t) (t_state t) (t_user t) (t_cr3 t) (t_entry t) (t_kstack_top t) (t_slice t) (t_ticks t) (t_preempted t) (t_waiter t) (t_blocked_on t) (t_end t) (t_exit_code t) (t_fault t) (t_killer_id t) (t_rev t) (t_created_tick t) (t_ended_tick t) x (t_started t) (t_syscalls t).
Definition with_started (x : bool) (t : nx_task) : nx_task :=
  mk_task (t_refs t) (t_id t) (t_name t) (t_state t) (t_user t) (t_cr3 t) (t_entry t) (t_kstack_top t) (t_slice t) (t_ticks t) (t_preempted t) (t_waiter t) (t_blocked_on t) (t_end t) (t_exit_code t) (t_fault t) (t_killer_id t) (t_rev t) (t_created_tick t) (t_ended_tick t) (t_wake_tick t) x (t_syscalls t).

Definition with_tasks (x : list nx_task) (s : sched) : sched :=
  mk_sched x (s_current s) (s_idle s) (s_next_id s) (s_preempt s) (s_watchdog s) (s_reaper s) (s_events s) (s_now s) (s_switches s) (s_preemptions s) (s_ep_waiter s) (s_cr3 s) (s_rsp0 s).
Definition with_current (x : Z) (s : sched) : sched :=
  mk_sched (s_tasks s) x (s_idle s) (s_next_id s) (s_preempt s) (s_watchdog s) (s_reaper s) (s_events s) (s_now s) (s_switches s) (s_preemptions s) (s_ep_waiter s) (s_cr3 s) (s_rsp0 s).
Definition with_idle (x : Z) (s : sched) : sched :=
  mk_sched (s_tasks s) (s_current s) x (s_next_id s) (s_preempt s) (s_watchdog s) (s_reaper s) (s_events s) (s_now s) (s_switches s) (s_preemptions s) (s_ep_waiter s) (s_cr3 s) (s_rsp0 s).
Definition with_next_id (x : Z) (s : sched) : sched :=
  mk_sched (s_tasks s) (s_current s) (s_idle s) x (s_preempt s) (s_watchdog s) (s_reaper s) (s_events s) (s_now s) (s_switches s) (s_preemptions s) (s_ep_waiter s) (s_cr3 s) (s_rsp0 s).
Definition with_watchdog (x : Z) (s : sched) : sched :=
  mk_sched (s_tasks s) (s_current s) (s_idle s) (s_next_id s) (s_preempt s) x (s_reaper s) (s_events s) (s_now s) (s_switches s) (s_preemptions s) (s_ep_waiter s) (s_cr3 s) (s_rsp0 s).
Definition with_reaper (x : option Z) (s : sched) : sched :=
  mk_sched (s_tasks s) (s_current s) (s_idle s) (s_next_id s) (s_preempt s) (s_watchdog s) x (s_events s) (s_now s) (s_switches s) (s_preemptions s) (s_ep_waiter s) (s_cr3 s) (s_rsp0 s).
Definition with_events (x : nx_evlog) (s : sched) : sched :=
  mk_sched (s_tasks s) (s_current s) (s_idle s) (s_next_id s) (s_preempt s) (s_watchdog s) (s_reaper s) x (s_now s) (s_switches s) (s_preemptions s) (s_ep_waiter s) (s_cr3 s) (s_rsp0 s).
Definition with_now (x : Z) (s : sched) : sched :=
  mk_sched (s_tasks s) (s_current s) (s_idle s) (s_next_id s) (s_preempt s) (s_watchdog s) (s_reaper s) (s_events s) x (s_switches s) (s_preemptions s) (s_ep_waiter s) (s_cr3 s) (s_rsp0 s).
Definition with_switches (x : Z) (s : sched) : sched :=
  mk_sched (s_tasks s) (s_current s) (s_idle s) (s_next_id s) (s_preempt s) (s_watchdog s) (s_reaper s) (s_events s) (s_now s) x (s_preemptions s) (s_ep_waiter s) (s_cr3 s) (s_rsp0 s).
Definition with_preemptions (x : Z) (s : sched) : sched :=
  mk_sched (s_tasks s) (s_current s) (s_idle s) (s_next_id s) (s_preempt s) (s_watchdog s) (s_reaper s) (s_events s) (s_now s) (s_switches s) x (s_ep_waiter s) (s_cr3 s) (s_rsp0 s).
Definition with_ep_waiter (x : gmap Z Z) (s : sched) : sched :=
  mk_sched (s_tasks s) (s_current s) (s_idle s) (s_next_id s) (s_preempt s) (s_watchdog s) (s_reaper s) (s_events s) (s_now s) (s_switches s) (s_preemptions s) x (s_cr3 s) (s_rsp0 s).
Definition with_preempt (x : bool) (s : sched) : sched :=
  mk_sched (s_tasks s) (s_current s) (s_idle s) (s_next_id s) x (s_watchdog s) (s_reaper s) (s_events s) (s_now s) (s_switches s) (s_preemptions s) (s_ep_waiter s) (s_cr3 s) (s_rsp0 s).
Definition with_cpu (cr3 rsp0 : Z) (s : sched) : sched :=
  mk_sched (s_tasks s) (s_current s) (s_idle s) (s_next_id s) (s_preempt s) (s_watchdog s) (s_reaper s) (s_events s) (s_now s)
    (s_switches s) (s_preemptions s) (s_ep_waiter s) cr3 rsp0.

Definition task (s : sched) (i : Z) : nx_task := (s_tasks s).[i].
Definition upd (i : Z) (f : nx_task -> nx_task) (s : sched) : sched := with_tasks ((s_tasks s).[i := f (task s i)]) s.

Definition state_is (st : nx_task_state) (t : nx_task) : bool := bool_decide (t_state t = st).

(** ** Helpers *)

(** Lifecycle event of a user task. *)
Definition task_event (i type arg : Z) (s : sched) : sched :=
  if negb (t_user (task s i)) then s
  else
    let s1 := upd i (fun t => with_rev (u64 (t_rev t + 1)) t) s in
    with_events (nx_evlog_push (s_events s1) (s_now s1) type (t_id (task s1 i)) arg).2 s1.

(** [nx_obj_unref] on a task object, whose destructor is [release_slot]. *)
Definition release_slot (i : Z) (s : sched) : sched := upd i (with_state NX_TASK_FREE) s.

Definition task_unref (i : Z) (s : sched) : sched :=
  if t_refs (task s i) =? 0 then s
  else
    let s1 := upd i (fun t => with_refs (u32 (t_refs t - 1)) t) s in
    if t_refs (task s1 i) =? 0 then release_slot i s1 else s1.

Definition task_ref (i : Z) (s : sched) : sched := upd i (fun t => with_refs (u32 (t_refs t + 1)) t) s.

(** [name] without its terminating null. *)
Definition alloc_task (name : list Z) (s : sched) : option Z * sched :=
  match find_first (fun i => state_is NX_TASK_FREE (task s i)) (seqZ 0 NX_TASK_MAX) with
  | None => (None, s)
  | Some i =>
      let t := mk_task 1 (s_next_id s) (take (Z.to_nat (NX_TASK_NAME - 1)) name) NX_TASK_BLOCKED false 0 0 0 0 0 0 None
                 OnNothing NX_END_NONE 0 (mk_fault 0 0 0 0) 0 0 0 0 0 false 0 in
      (Some i, with_next_id (u32 (s_next_id s + 1)) (upd i (fun _ => t) s))
  end.

Definition kstack_bottom (i : Z) : Z := u64 (NX_KSTACK_BASE + i * NX_KSTACK_STRIDE + 0x1000).
Definition kstack_top_of (i : Z) : Z := u64 (kstack_bottom i + NX_KSTACK_PAGES * 0x1000).

(** The name of the task whose guard page contains [addr]. *)
Definition nx_task_guard_of (addr : Z) (s : sched) : option (list Z) :=
  if (addr <? NX_KSTACK_BASE) || (addr >=? u64 (NX_KSTACK_BASE + NX_TASK_MAX * NX_KSTACK_STRIDE)) then None
  else
    let off := (addr - NX_KSTACK_BASE) mod NX_KSTACK_STRIDE in
    let t := task s ((addr - NX_KSTACK_BASE) / NX_KSTACK_STRIDE) in
    if (off <? 0x1000) && negb (state_is NX_TASK_FREE t) then Some (t_name t) else None.

(** ** The scheduler *)

Definition pick_next (s : sched) : Z :=
  let start := s_current s in
  match find_first (fun i => let n := (start + i) mod NX_TASK_MAX in state_is NX_TASK_READY (task s n) && negb (n =? s_idle s))
          (seqZ 1 NX_TASK_MAX) with
  | Some i => (start + i) mod NX_TASK_MAX
  | None => if state_is NX_TASK_RUNNING (task s start) && negb (start =? s_idle s) then start else s_idle s
  end.

Definition nx_schedule (s : sched) : sched :=
  let prev := s_current s in
  let next := pick_next s in
  if next =? prev then upd prev (with_slice NX_SCHED_SLICE) s
  else
    let s := if state_is NX_TASK_RUNNING (task s prev) then upd prev (with_state NX_TASK_READY) s else s in
    let s := upd next (with_state NX_TASK_RUNNING) s in
    let s := upd next (with_slice NX_SCHED_SLICE) s in
    let s := with_current next s in
    let cr3 := if negb (t_cr3 (task s next) =? t_cr3 (task s prev)) then t_cr3 (task s next) else s_cr3 s in
    let s := with_cpu cr3 (t_kstack_top (task s next)) s in
    with_switches (u64 (s_switches s + 1)) s.

Definition other_ready (s : sched) : bool :=
  existsb (fun i => state_is NX_TASK_READY (task s i) && negb (i =? s_idle s) && negb (i =? s_current s)) (seqZ 0 NX_TASK_MAX).

Definition nx_sched_watchdog (ticks : Z) (s : sched) : sched :=
  with_watchdog (if negb (ticks =? 0) then u64 (s_now s + ticks) else 0) s.

Definition nx_task_wake (i : Z) (s : sched) : sched :=
  if state_is NX_TASK_BLOCKED (task s i) then upd i (fun t => with_blocked_on OnNothing (with_state NX_TASK_READY t)) s else s.

Definition wake_sleeper (s : sched) (i : Z) : sched :=
  if state_is NX_TASK_BLOCKED (task s i) && bool_decide (t_blocked_on (task s i) = OnSleep) && (s_now s >=? t_wake_tick (task s i))
  then nx_task_wake i s else s.

(** The parts of [sched_tick]: accounting, sleepers, preemption. *)
Definition tick_count (s : sched) : sched :=
  let s1 := upd (s_current s) (fun t => with_ticks (u64 (t_ticks t + 1)) t) s in
  if negb (t_slice (task s1 (s_current s1)) =? 0) then upd (s_current s1) (fun t => with_slice (t_slice t - 1) t) s1 else s1.

Definition wake_sleepers (s : sched) : sched := for_each (seqZ 0 NX_TASK_MAX) wake_sleeper s.

Definition count_preemption (s : sched) : sched :=
  if negb (s_current s =? s_idle s)
  then with_preemptions (u64 (s_preemptions s + 1)) (upd (s_current s) (fun t => with_preempted (u64 (t_preempted t + 1)) t) s)
  else s.

Definition tick_preempt (s : sched) : sched :=
  if negb (s_preempt s) && negb (s_current s =? s_idle s) then s
  else if ((s_current s =? s_idle s) || (t_slice (task s (s_current s)) =? 0)) && other_ready s
  then nx_schedule (count_preemption s)
  else s.

(** [None]: the watchdog ends the test run. *)
Definition sched_tick (s : sched) : option sched :=
  let s1 := wake_sleepers (tick_count s) in
  if negb (s_watchdog s1 =? 0) && (s_now s1 >=? s_watchdog s1) then None else Some (tick_preempt s1).

Definition nx_yield (s : sched) : sched := nx_schedule (upd (s_current s) (with_slice 0) s).

Definition nx_task_block (on : wait_on) (s : sched) : sched :=
  nx_schedule (upd (s_current s) (fun t => with_blocked_on on (with_state NX_TASK_BLOCKED t)) s).

Definition nx_task_sleep (ticks : Z) (s : sched) : sched :=
  nx_task_block OnSleep (upd (s_current s) (with_wake_tick (u64 (s_now s + ticks))) s).

(** ** Creation *)

(** [kstack]: whether [kstack_alloc] ([KStack]) found the pages. *)
Definition nx_kthread_create (kernel_root : Z) (name : list Z) (kstack : bool) (s : sched) : option Z * sched :=
  match alloc_task name s with
  | (None, s1) => (None, s1)
  | (Some i, s1) =>
      if negb kstack then (None, upd i (with_state NX_TASK_FREE) s1)
      else (Some i, upd i (with_cr3 kernel_root) (upd i (with_kstack_top (kstack_top_of i)) s1))
  end.

(** [cr3]: the root of the new address space, 0 if there was no page for it;
    [load]: what loading the program and its stack gave, the entry point. *)
Definition nx_utask_create (name : list Z) (kstack : bool) (cr3 : Z) (load : nx_error + Z) (s : sched) : (nx_error + Z) * sched :=
  match alloc_task name s with
  | (None, s1) => (inl NX_ENOMEM, s1)
  | (Some i, s1) =>
      if negb kstack then (inl NX_ENOMEM, upd i (with_state NX_TASK_FREE) s1)
      else
        let s2 := upd i (fun t => with_cr3 cr3 (with_user true (with_kstack_top (kstack_top_of i) t))) s1 in
        match (if negb (cr3 =? 0) then load else inl NX_ENOMEM) with
        | inl e => (inl e, upd i (fun t => with_state NX_TASK_FREE (with_kstack_top 0 t)) s2)
        | inr entry =>
            let s3 := upd i (fun t => with_created_tick (s_now s2) (with_entry entry t)) s2 in
            (inr i, task_event i NX_EV_TASK_CREATED 0 s3)
        end
  end.

Definition nx_task_start (i : Z) (s : sched) : sched :=
  let t := task s i in
  if state_is NX_TASK_BLOCKED t && bool_decide (t_blocked_on t = OnNothing) && negb (t_started t)
  then task_event i NX_EV_TASK_STARTED 0 (upd i (fun t => with_started true (with_state NX_TASK_READY t)) s)
  else s.

(** The boot context becomes task "kmain"; [None] when the idle thread cannot be created. *)
Definition nx_sched_init (kernel_root boot_stack_top : Z) (kmain idle : list Z) (kstack preempt : bool) (s : sched) : option sched :=
  match alloc_task kmain s with
  | (None, _) => None
  | (Some k, s1) =>
      let s2 := upd k (fun t => with_slice NX_SCHED_SLICE (with_kstack_top boot_stack_top (with_cr3 kernel_root (with_state NX_TASK_RUNNING t)))) s1 in
      let s3 := with_cpu (s_cr3 s2) boot_stack_top (with_current k s2) in
      match nx_kthread_create kernel_root idle kstack s3 with
      | (None, _) => None
      | (Some i, s4) => Some (with_preempt preempt (upd i (with_state NX_TASK_READY) (with_idle i s4)))
      end
  end.

(** ** Ending and reaping *)

Definition end_task (i : Z) (end_ : nx_task_end) (s : sched) : sched :=
  let t := task s i in
  let s1 := match t_blocked_on t with
            | OnEndpoint ep =>
                if state_is NX_TASK_BLOCKED t && bool_decide (s_ep_waiter s !! ep = Some i)
                then with_ep_waiter (delete ep (s_ep_waiter s)) s else s
            | _ => s
            end in
  let s2 := upd i (fun t => with_ended_tick (s_now s) (with_state NX_TASK_DEAD (with_end end_ (with_blocked_on OnNothing t)))) s1 in
  let t := task s2 i in
  let s3 := match end_ with
            | NX_END_EXIT => task_event i NX_EV_TASK_EXITED (t_exit_code t) s2
            | NX_END_FAULT => task_event i NX_EV_TASK_FAULTED (f_vector (t_fault t)) s2
            | _ => task_event i NX_EV_TASK_KILLED (t_killer_id t) s2
            end in
  match t_waiter (task s3 i), s_reaper s3 with
  | Some w, _ => nx_task_wake w s3
  | None, Some r => nx_task_wake r s3
  | None, None => s3
  end.

(** The code after [nx_schedule] in these functions panics: it runs only if the
    ended task were switched to again. *)
Definition nx_task_exit_current (code : Z) (s : sched) : sched :=
  nx_schedule (end_task (s_current s) NX_END_EXIT (upd (s_current s) (with_exit_code code) s)).

Definition nx_task_terminate (i : Z) (end_ : nx_task_end) (killer_id : Z) (s : sched) : sched :=
  match t_state (task s i) with
  | NX_TASK_FREE | NX_TASK_DEAD | NX_TASK_REAPED => s
  | _ =>
      let s1 := end_task i end_ (upd i (with_killer_id killer_id) s) in
      if i =? s_current s then nx_schedule s1 else s1
  end.

Definition nx_user_trap (f : nx_fault) (s : sched) : sched :=
  nx_task_terminate (s_current s) NX_END_FAULT 0 (upd (s_current s) (with_fault f) s).

(** [drops]: the tasks to which clearing the handle table of the reaped task gives
    up references (directly, or through messages queued in an endpoint). *)
Definition reap (i : Z) (drops : list Z) (s : sched) : sched :=
  let s1 := for_each drops (fun s d => task_unref d s) s in
  let s2 := upd i (with_state NX_TASK_REAPED) (upd i (with_kstack_top 0) s1) in
  task_unref i (task_event i NX_EV_TASK_REAPED 0 s2).

(** One pass of the loop of [nx_task_wait_reap]: blocks, or ends with the code. *)
Definition wait_reap_pass (i : Z) (drops : list Z) (s : sched) : option Z * sched :=
  match t_state (task s i) with
  | NX_TASK_DEAD | NX_TASK_REAPED =>
      let s1 := upd i (with_waiter None) s in
      let t := task s1 i in
      let code := if bool_decide (t_end t = NX_END_FAULT) then - f_vector (t_fault t) else t_exit_code t in
      (Some code, if state_is NX_TASK_DEAD t then reap i drops s1 else s1)
  | _ => (None, nx_task_block OnNothing (upd i (with_waiter (Some (s_current s))) s))
  end.

(** One pass of the loop of [reaper_main]; [drops] as in [reap], for each task. *)
Definition reaper_pass (drops : Z -> list Z) (s : sched) : sched :=
  let s1 := for_each (seqZ 0 NX_TASK_MAX)
    (fun s i => let t := task s i in
       if state_is NX_TASK_DEAD t && bool_decide (t_waiter t = None) then reap i (drops i) s else s) s in
  nx_task_block OnNothing s1.

(** [None]: the kernel stops, without a reaper. *)
Definition nx_reaper_start (kernel_root : Z) (name : list Z) (kstack : bool) (s : sched) : option sched :=
  match nx_kthread_create kernel_root name kstack s with
  | (None, _) => None
  | (Some i, s1) => Some (nx_task_start i (with_reaper (Some i) s1))
  end.

(** ** Queries *)

Definition nx_task_by_id (id : Z) (s : sched) : option Z :=
  find_first (fun i => negb (state_is NX_TASK_FREE (task s i)) && (t_id (task s i) =? id)) (seqZ 0 NX_TASK_MAX).

Definition nx_task_live_count (s : sched) : Z :=
  countb (fun i => negb (state_is NX_TASK_FREE (task s i)) && negb (state_is NX_TASK_REAPED (task s i))) (seqZ 0 NX_TASK_MAX).

Definition nx_task_next_id (s : sched) : Z := s_next_id s.

Definition state_code (st : nx_task_state) : Z :=
  match st with
  | NX_TASK_FREE => 0 | NX_TASK_READY => 1 | NX_TASK_RUNNING => 2 | NX_TASK_BLOCKED => 3 | NX_TASK_DEAD => 4 | NX_TASK_REAPED => 5
  end.

Definition end_code (e : nx_task_end) : Z :=
  match e with NX_END_NONE => 0 | NX_END_EXIT => 1 | NX_END_FAULT => 2 | NX_END_KILLED => 3 | NX_END_KERNEL => 4 end.

Definition NX_TASK_INFO_USER : Z := 1.

Record nx_task_info := mk_task_info {
  ti_id : Z;
  ti_state : Z;
  ti_end : Z;
  ti_flags : Z;
  ti_exit_code : Z;
  ti_ticks : Z;
  ti_syscalls : Z;
  ti_rev : Z;
  ti_created_tick : Z;
  ti_ended_tick : Z;
  ti_killer_id : Z;
  ti_reserved : Z;
  ti_name : list Z;
}.

Definition nx_task_fill_info (t : nx_task) : nx_task_info :=
  mk_task_info (t_id t) (state_code (t_state t)) (end_code (t_end t)) (if t_user t then NX_TASK_INFO_USER else 0)
    (t_exit_code t) (t_ticks t) (t_syscalls t) (t_rev t) (t_created_tick t) (t_ended_tick t) (t_killer_id t) 0 (t_name t).

(** The entries written and the number of allocated slots. *)
Definition nx_task_list (cap : Z) (s : sched) : list nx_task_info * Z :=
  let live := filter (fun i => state_is NX_TASK_FREE (task s i) = false) (seqZ 0 NX_TASK_MAX) in
  (take (Z.to_nat cap) ((fun i => nx_task_fill_info (task s i)) <$> live), Z.of_nat (length live)).

(** ** Specification: the steps of the machine *)

Definition slot_ok (i : Z) : Prop := 0 <= i < NX_TASK_MAX.
Definition st (s : sched) (i : Z) : nx_task_state := t_state (task s i).

(** A reference held besides the one kept until the task is reaped. *)
Definition spare_ref (s : sched) (i : Z) : Prop :=
  slot_ok i /\ st s i <> NX_TASK_FREE /\ (if decide (st s i = NX_TASK_REAPED) then 1 else 2) <= t_refs (task s i).

(** The references [drops] can be given up one after the other. *)
Fixpoint drops_ok (drops : list Z) (s : sched) : Prop :=
  match drops with
  | [] => True
  | d :: drops' => spare_ref s d /\ drops_ok drops' (task_unref d s)
  end.

Inductive act : Type :=
  | ATick | AIdle | AYield | ABlock (on : wait_on) | ASleep (ticks : Z) | AWake (i : Z) | AStart (i : Z)
  | AThread (root : Z) (name : list Z) (kstack : bool) | AUser (name : list Z) (kstack : bool) (cr3 : Z) (load : nx_error + Z)
  | AExit (code : Z) | AKill (i : Z) (e : nx_task_end) (killer : Z) | ATrap (f : nx_fault)
  | AWait (i : Z) (drops : list Z) | AReap (drops : Z -> list Z) | ARef (i : Z) | AUnref (i : Z) | AWatchdog (ticks : Z)
  | AReaper (root : Z) (name : list Z) (kstack : bool).

(** The reaper's loop gives up references that are held. *)
Fixpoint reap_drops_ok (idx : list Z) (drops : Z -> list Z) (s : sched) : Prop :=
  match idx with
  | [] => True
  | i :: idx' =>
      let t := task s i in
      if state_is NX_TASK_DEAD t && bool_decide (t_waiter t = None)
      then drops_ok (drops i) s /\ reap_drops_ok idx' drops (reap i (drops i) s)
      else reap_drops_ok idx' drops s
  end.

(** What can happen in a state.  Timer interrupts come at any time; the idle
    thread does nothing but call the scheduler and is never ended; everything
    else is done by the running task. *)
Inductive sched_step (s : sched) : act -> sched -> Prop :=
  | step_tick s' : sched_tick (with_now (u64 (s_now s + 1)) s) = Some s' -> sched_step s ATick s'
  | step_idle : s_current s = s_idle s -> sched_step s AIdle (nx_schedule s)
  | step_yield : s_current s <> s_idle s -> sched_step s AYield (nx_yield s)
  | step_block on : s_current s <> s_idle s -> sched_step s (ABlock on) (nx_task_block on s)
  | step_sleep n : s_current s <> s_idle s -> sched_step s (ASleep n) (nx_task_sleep n s)
  | step_wake i : slot_ok i -> sched_step s (AWake i) (nx_task_wake i s)
  | step_start i : slot_ok i -> sched_step s (AStart i) (nx_task_start i s)
  | step_thread root name k : sched_step s (AThread root name k) (nx_kthread_create root name k s).2
  | step_user name k cr3 load : sched_step s (AUser name k cr3 load) (nx_utask_create name k cr3 load s).2
  | step_exit code : s_current s <> s_idle s -> sched_step s (AExit code) (nx_task_exit_current code s)
  | step_kill i e killer : slot_ok i -> i <> s_idle s -> sched_step s (AKill i e killer) (nx_task_terminate i e killer s)
  | step_trap f : s_current s <> s_idle s -> sched_step s (ATrap f) (nx_user_trap f s)
  | step_wait i drops : slot_ok i -> s_current s <> s_idle s -> i <> s_idle s ->
      (st s i = NX_TASK_DEAD -> drops_ok drops (upd i (with_waiter None) s)) ->
      sched_step s (AWait i drops) (wait_reap_pass i drops s).2
  | step_reap drops : s_current s <> s_idle s -> reap_drops_ok (seqZ 0 NX_TASK_MAX) drops s ->
      sched_step s (AReap drops) (reaper_pass drops s)
  | step_ref i : slot_ok i -> st s i <> NX_TASK_FREE -> t_refs (task s i) < UINT32_MAX -> sched_step s (ARef i) (task_ref i s)
  | step_unref i : spare_ref s i -> sched_step s (AUnref i) (task_unref i s)
  | step_watchdog n : sched_step s (AWatchdog n) (nx_sched_watchdog n s)
  | step_reaper root name k s' : nx_reaper_start root name k s = Some s' -> sched_step s (AReaper root name k) s'.

(** Runs of a step relation, with all the states passed through. *)
Inductive run {S A : Type} (R : S -> A -> S -> Prop) : S -> list A -> list S -> S -> Prop :=
  | run_nil s : run R s [] [s] s
  | run_cons s a s1 acts tr s' : R s a s1 -> run R s1 acts tr s' -> run R s (a :: acts) (s :: tr) s'.

Definition sched_run : sched -> list act -> list sched -> sched -> Prop := run sched_step.

(** ** The invariant *)

(** One task runs, the processor is set up for it, the idle thread is always
    runnable and every slot in use is referenced. *)
Record sched_ok (s : sched) : Prop := {
  ok_len : Z.of_nat (length (s_tasks s)) = NX_TASK_MAX;
  ok_cur : slot_ok (s_current s);
  ok_idle : slot_ok (s_idle s);
  ok_one : forall i, slot_ok i -> st s i = NX_TASK_RUNNING -> i = s_current s;
  ok_idle_st : st s (s_idle s) = NX_TASK_READY \/ st s (s_idle s) = NX_TASK_RUNNING;
  ok_cpu : s_cr3 s = t_cr3 (task s (s_current s)) /\ s_rsp0 s = t_kstack_top (task s (s_current s));
  ok_refs : forall i, slot_ok i -> st s i <> NX_TASK_FREE -> 1 <= t_refs (task s i) <= UINT32_MAX;
  ok_slice : forall i, slot_ok i -> 0 <= t_slice (task s i) <= NX_SCHED_SLICE;
  ok_waiter : forall i w, slot_ok i -> t_waiter (task s i) = Some w -> slot_ok w;
  ok_reaper : forall r, s_reaper s = Some r -> slot_ok r;
}.

Definition sched_inv (s : sched) : Prop := sched_ok s /\ st s (s_current s) = NX_TASK_RUNNING.

(** How far a task is in its life. *)
Definition rank (x : nx_task_state) : Z :=
  match x with
  | NX_TASK_BLOCKED | NX_TASK_READY | NX_TASK_RUNNING => 0
  | NX_TASK_DEAD => 1
  | NX_TASK_REAPED => 2
  | NX_TASK_FREE => 3
  end.
