(* ===== verification/SchedInv.v ===== *)
(** * The scheduler: invariant, end of life, and progress

    Proofs about [Sched]: every step keeps one running task with the processor
    set up for it, a task that ended never runs again, and a ready task runs
    after a bounded number of timer ticks. *)
From S2P Require Import Prelude Abi Event Sched.

(** ** Lemmas: the table *)

Lemma task_upd s i j f : Z.of_nat (length (s_tasks s)) = NX_TASK_MAX -> slot_ok i -> slot_ok j ->
  task (upd i f s) j = if decide (j = i) then f (task s i) else task s j.
Proof.
  unfold slot_ok. intros Hl Hi Hj. unfold task, upd. cbn [with_tasks s_tasks]. destruct (decide (j = i)) as [->|Hne].
  - rewrite arr_get_set_eq by lia. done.
  - rewrite arr_get_set_ne by lia. done.
Qed.

Lemma task_upd_eq s i f : Z.of_nat (length (s_tasks s)) = NX_TASK_MAX -> slot_ok i -> task (upd i f s) i = f (task s i).
Proof. intros Hl Hi. rewrite task_upd by done. by rewrite decide_True. Qed.

Lemma upd_length s i f : length (s_tasks (upd i f s)) = length (s_tasks s).
Proof. apply arr_set_length. Qed.

Lemma state_is_spec x t : state_is x t = true <-> t_state t = x.
Proof. unfold state_is. apply bool_decide_eq_true. Qed.

Lemma state_is_false x t : state_is x t = false <-> t_state t <> x.
Proof. unfold state_is. apply bool_decide_eq_false. Qed.

(** ** Lemmas: what happens without a switch *)

(** A change of one slot outside the scheduler: no task starts to run, only
    blocked or ended tasks leave the ready state for good. *)
Record tame (cur idle : bool) (t t' : nx_task) : Prop := {
  tm_id : t_id t' = t_id t;
  tm_rank : rank (t_state t) <= rank (t_state t');
  tm_run : t_state t' = NX_TASK_RUNNING -> t_state t = NX_TASK_RUNNING;
  tm_ready : t_state t = NX_TASK_READY -> t_state t' = NX_TASK_READY \/ 1 <= rank (t_state t');
  tm_idle : idle = true -> t_state t' = t_state t;
  tm_cur : cur = true -> t_slice t' = t_slice t /\ t_cr3 t' = t_cr3 t /\ t_kstack_top t' = t_kstack_top t;
  tm_refs : t_state t' <> NX_TASK_FREE -> 1 <= t_refs t <= UINT32_MAX -> 1 <= t_refs t' <= UINT32_MAX;
  tm_slice : 0 <= t_slice t <= NX_SCHED_SLICE -> 0 <= t_slice t' <= NX_SCHED_SLICE;
  tm_waiter : forall w, t_waiter t' = Some w -> t_waiter t = Some w \/ slot_ok w;
}.

(** The effect of such changes on the whole state. *)
Record quiet (s s' : sched) : Prop := {
  q_ok : sched_ok s';
  q_cur : s_current s' = s_current s;
  q_idle : s_idle s' = s_idle s;
  q_next : s_next_id s' = s_next_id s;
  q_preempt : s_preempt s' = s_preempt s;
  q_slice : t_slice (task s' (s_current s)) = t_slice (task s (s_current s));
  q_id : forall i, slot_ok i -> t_id (task s' i) = t_id (task s i);
  q_rank : forall i, slot_ok i -> rank (st s i) <= rank (st s' i);
  q_ready : forall i, slot_ok i -> st s i = NX_TASK_READY -> st s' i = NX_TASK_READY \/ 1 <= rank (st s' i);
}.

(** The same without a claim on the time slice. *)
Record calm (s s' : sched) : Prop := {
  c_ok : sched_ok s';
  c_cur : s_current s' = s_current s;
  c_idle : s_idle s' = s_idle s;
  c_next : s_next_id s' = s_next_id s;
  c_preempt : s_preempt s' = s_preempt s;
  c_id : forall i, slot_ok i -> t_id (task s' i) = t_id (task s i);
  c_rank : forall i, slot_ok i -> rank (st s i) <= rank (st s' i);
  c_ready : forall i, slot_ok i -> st s i = NX_TASK_READY -> st s' i = NX_TASK_READY \/ 1 <= rank (st s' i);
}.

Lemma quiet_calm s s' : quiet s s' -> calm s s'.
Proof. intros []. by split. Qed.

Lemma calm_trans s1 s2 s3 : calm s1 s2 -> calm s2 s3 -> calm s1 s3.
Proof.
  intros [A1 A2 A3 A4 A5 A6 A7 A8] [B1 B2 B3 B4 B5 B6 B7 B8]. split; try congruence.
  - intros i Hi. rewrite B6 by done. by apply A6.
  - intros i Hi. specialize (A7 i Hi). specialize (B7 i Hi). lia.
  - intros i Hi E. destruct (A8 i Hi E) as [E'|E']; [by apply B8|]. right. specialize (B7 i Hi). lia.
Qed.

Lemma quiet_refl s : sched_ok s -> quiet s s.
Proof. intros H. split; try done. auto. Qed.

Lemma quiet_trans s1 s2 s3 : quiet s1 s2 -> quiet s2 s3 -> quiet s1 s3.
Proof.
  intros [A1 A2 A3 A4 A5 A6 A7 A8 A9] [B1 B2 B3 B4 B5 B6 B7 B8 B9]. rewrite A2 in *. split; try congruence.
  - intros i Hi. rewrite B7 by done. by apply A7.
  - intros i Hi. specialize (A8 i Hi). specialize (B8 i Hi). lia.
  - intros i Hi E. destruct (A9 i Hi E) as [E'|E']; [by apply B9|]. right. specialize (B8 i Hi). lia.
Qed.

Definition is_cur (s : sched) (i : Z) : bool := i =? s_current s.
Definition is_idle (s : sched) (i : Z) : bool := i =? s_idle s.

Lemma quiet_upd s i f :
  sched_ok s -> slot_ok i -> tame (is_cur s i) (is_idle s i) (task s i) (f (task s i)) -> quiet s (upd i f s).
Proof.
  intros [O1 O2 O3 O4 O5 O6 O7 O8 O9 O10] Hi [T1 T2 T3 T4 T5 T6 T7 T8 T9].
  assert (Ht : forall j, slot_ok j -> task (upd i f s) j = if decide (j = i) then f (task s i) else task s j) by (intros j Hj; by apply task_upd).
  assert (Hc : t_slice (task (upd i f s) (s_current s)) = t_slice (task s (s_current s)) /\ t_cr3 (task (upd i f s) (s_current s)) = t_cr3 (task s (s_current s)) /\
    t_kstack_top (task (upd i f s) (s_current s)) = t_kstack_top (task s (s_current s))).
  { rewrite Ht by done. destruct (decide (s_current s = i)) as [<-|]; [|done]. apply T6. unfold is_cur. apply Z.eqb_refl. }
  split; try done; [|apply Hc|idtac..]; unfold st in *.
  - split; try done; [by rewrite upd_length|idtac..]; unfold st in *; change (s_current (upd i f s)) with (s_current s); change (s_idle (upd i f s)) with (s_idle s).
    + intros j Hj. rewrite Ht by done. destruct (decide (j = i)) as [->|]; [|by apply O4]. intros E. apply O4; auto.
    + rewrite Ht by done. destruct (decide (s_idle s = i)) as [<-|]; [|done]. rewrite T5; [done|]. unfold is_idle. apply Z.eqb_refl.
    + cbn [upd with_tasks s_cr3 s_rsp0]. destruct O6, Hc as (_ & H1 & H2). split; congruence.
    + intros j Hj. rewrite Ht by done. destruct (decide (j = i)) as [->|]; [|by apply O7]. intros Hn. apply T7; [done|]. apply O7; [done|].
      intros E. apply Hn. rewrite E in T2. destruct (t_state (f (task s i))); simpl in T2; done || lia.
    + intros j Hj. rewrite Ht by done. destruct (decide (j = i)) as [->|]; [|by apply O8]. apply T8. by apply O8.
    + intros j w Hj. rewrite Ht by done. destruct (decide (j = i)) as [->|]; [|by apply O9]. intros E. destruct (T9 w E); [by apply (O9 i)|done].
  - intros j Hj. rewrite Ht by done. by destruct (decide (j = i)) as [->|].
  - intros j Hj. rewrite Ht by done. destruct (decide (j = i)) as [->|]; [done|lia].
  - intros j Hj E. rewrite Ht by done. destruct (decide (j = i)) as [->|]; [by apply T4|by left].
Qed.

(** Variables other than the table. *)
Lemma quiet_env s s' :
  sched_ok s -> s_tasks s' = s_tasks s -> s_current s' = s_current s -> s_idle s' = s_idle s -> s_next_id s' = s_next_id s ->
  s_preempt s' = s_preempt s -> s_cr3 s' = s_cr3 s -> s_rsp0 s' = s_rsp0 s -> s_reaper s' = s_reaper s -> quiet s s'.
Proof.
  intros [O1 O2 O3 O4 O5 O6 O7 O8 O9 O10] E1 E2 E3 E4 E5 E6 E7 E8.
  assert (Ht : forall i, task s' i = task s i) by (intros i; unfold task; by rewrite E1).
  split; unfold st in *; try done; try (intros i Hi; by rewrite Ht); [|by rewrite Ht|intros i Hi E; left; by rewrite Ht].
  split; unfold st in *; rewrite ?E1, ?E2, ?E3, ?E6, ?E7, ?E8; try done; try rewrite Ht; try done; intros i Hi; rewrite Ht; auto. apply O9.
Qed.

Create HintDb sched.
#[export] Hint Resolve quiet_refl q_ok : sched.

(** Chains of quiet changes, from the inside out. *)
Lemma quiet_then s s1 s2 : quiet s s1 -> (sched_ok s1 -> quiet s1 s2) -> quiet s s2.
Proof. intros H1 H2. eapply quiet_trans; [exact H1|]. apply H2. by eapply q_ok. Qed.

(** A change of fields the scheduler does not look at. *)
Ltac tame_field := split; cbn; intros; try done; try lia; auto.

Lemma event_task s i type arg j : sched_ok s -> slot_ok i -> slot_ok j -> exists r, task (task_event i type arg s) j = with_rev r (task s j).
Proof.
  intros Hok Hi Hj. unfold task_event. assert (Hr : exists r, task s j = with_rev r (task s j)) by (exists (t_rev (task s j)); by destruct (task s j)).
  destruct (negb _); [done|]. change (task (with_events ?e ?s1) j) with (task s1 j).
  rewrite task_upd by (done || by apply ok_len). destruct (decide (j = i)) as [->|]; [by eexists|done].
Qed.

Lemma quiet_event s i type arg : sched_ok s -> slot_ok i -> quiet s (task_event i type arg s).
Proof.
  intros Hok Hi. unfold task_event. destruct (negb _); [by apply quiet_refl|].
  apply (quiet_then _ (upd i (fun t => with_rev (u64 (t_rev t + 1)) t) s)); [apply quiet_upd; [done|done|tame_field]|].
  intros H1. by apply quiet_env.
Qed.

Lemma quiet_wake s i : sched_ok s -> slot_ok i -> quiet s (nx_task_wake i s).
Proof.
  intros Hok Hi. unfold nx_task_wake. destruct (state_is NX_TASK_BLOCKED (task s i)) eqn:E; [|by apply quiet_refl].
  apply state_is_spec in E. apply quiet_upd; [done|done|]. split; cbn; rewrite ?E; intros; try done; auto.
  unfold is_idle in *. apply Z.eqb_eq in H as ->. destruct (ok_idle_st s Hok) as [Hs|Hs]; unfold st in Hs; congruence.
Qed.

Lemma quiet_start s i : sched_ok s -> slot_ok i -> quiet s (nx_task_start i s).
Proof.
  intros Hok Hi. unfold nx_task_start. destruct (state_is NX_TASK_BLOCKED (task s i)) eqn:E; [|by apply quiet_refl].
  cbn [andb]. destruct (_ && _); [|by apply quiet_refl]. apply state_is_spec in E.
  apply (quiet_then _ (upd i (fun t => with_started true (with_state NX_TASK_READY t)) s)); [apply quiet_upd; [done|done|]|intros H1; by apply quiet_event].
  split; cbn; rewrite ?E; intros; try done; auto.
  unfold is_idle in *. apply Z.eqb_eq in H as ->. destruct (ok_idle_st s Hok) as [Hs|Hs]; unfold st in Hs; congruence.
Qed.

(** Ending a task that is alive. *)
Lemma wake_st s i j : sched_ok s -> slot_ok i -> slot_ok j -> st s j <> NX_TASK_BLOCKED -> st (nx_task_wake i s) j = st s j.
Proof.
  intros Hok Hi Hj Hn. unfold nx_task_wake. destruct (state_is NX_TASK_BLOCKED (task s i)) eqn:E; [|done]. apply state_is_spec in E.
  unfold st in *. rewrite task_upd by (done || by apply ok_len). destruct (decide (j = i)) as [->|]; [|done]. congruence.
Qed.

Lemma quiet_end s i e : sched_ok s -> slot_ok i -> i <> s_idle s -> rank (st s i) = 0 ->
  quiet s (end_task i e s) /\ st (end_task i e s) i = NX_TASK_DEAD /\
  forall j, slot_ok j -> j <> i -> st s j <> NX_TASK_BLOCKED -> st (end_task i e s) j = st s j.
Proof.
  intros Hok Hi Hne Hr. unfold end_task. set (s1 := match t_blocked_on (task s i) with OnEndpoint _ => _ | _ => s end).
  assert (Hq1 : quiet s s1) by (unfold s1; destruct (t_blocked_on (task s i)); try (by apply quiet_refl); destruct (_ && _); [by apply quiet_env|by apply quiet_refl]).
  assert (Ht1 : forall j, task s1 j = task s j) by (intros j; unfold s1; destruct (t_blocked_on (task s i)); try done; by destruct (_ && _)).
  clearbody s1. set (s2 := upd i _ s1). pose proof (q_ok _ _ Hq1) as Hok1.
  assert (Hq2 : quiet s1 s2).
  { apply quiet_upd; [done|done|]. unfold st in Hr. rewrite Ht1. split; cbn; intros; try done; auto; [lia| |].
    - right. lia.
    - unfold is_idle in *. rewrite (q_idle _ _ Hq1) in *. apply Z.eqb_eq in H. congruence. }
  assert (Hs2 : forall j, slot_ok j -> st s2 j = if decide (j = i) then NX_TASK_DEAD else st s j).
  { intros j Hj. unfold st, s2. rewrite (task_upd s1 i) by (done || by apply ok_len). destruct (decide (j = i)); [done|by rewrite Ht1]. }
  clearbody s2. pose proof (q_ok _ _ Hq2) as Hok2.
  set (s3 := match e with NX_END_EXIT => _ | NX_END_FAULT => _ | _ => _ end).
  assert (Hev : forall type arg, quiet s2 (task_event i type arg s2) /\ forall j, slot_ok j -> st (task_event i type arg s2) j = st s2 j).
  { intros type arg. split; [by apply quiet_event|]. intros j Hj. unfold st. by destruct (event_task s2 i type arg j Hok2 Hi Hj) as [r ->]. }
  assert (Hq3 : quiet s2 s3 /\ forall j, slot_ok j -> st s3 j = st s2 j) by (unfold s3; destruct e; apply Hev). destruct Hq3 as [Hq3 Hs3].
  clearbody s3. pose proof (q_ok _ _ Hq3) as Hok3. pose proof (quiet_trans _ _ _ Hq1 (quiet_trans _ _ _ Hq2 Hq3)) as Hq.
  assert (Hfin : forall s', quiet s3 s' -> (forall j, slot_ok j -> st s3 j <> NX_TASK_BLOCKED -> st s' j = st s3 j) ->
    quiet s s' /\ st s' i = NX_TASK_DEAD /\ forall j, slot_ok j -> j <> i -> st s j <> NX_TASK_BLOCKED -> st s' j = st s j).
  { intros s' H1 H2. split; [by eapply quiet_trans|]. assert (Hd : st s3 i = NX_TASK_DEAD) by (rewrite Hs3, Hs2 by done; by rewrite decide_True).
    split; [rewrite H2; congruence|]. intros j Hj Hji Hb. assert (E : st s3 j = st s j) by (rewrite Hs3, Hs2 by done; by rewrite decide_False).
    rewrite H2; [done|done|congruence]. }
  destruct (t_waiter (task s3 i)) as [w|] eqn:Ew; [|destruct (s_reaper s3) as [r|] eqn:Er; [|by apply Hfin; [apply quiet_refl|]]].
  - pose proof (ok_waiter _ Hok3 i w Hi Ew) as Hw. apply Hfin; [by apply quiet_wake|]. intros j Hj. by apply wake_st.
  - pose proof (ok_reaper _ Hok3 r Er) as Hw. apply Hfin; [by apply quiet_wake|]. intros j Hj. by apply wake_st.
Qed.

(** ** Lemmas: references and reaping *)

Lemma upd_upd s i f g : Z.of_nat (length (s_tasks s)) = NX_TASK_MAX -> slot_ok i -> upd i f (upd i g s) = upd i (fun t => f (g t)) s.
Proof.
  intros Hl Hi. unfold upd at 1. rewrite task_upd_eq by done. unfold upd. cbn [with_tasks s_tasks]. rewrite list_insert_insert_eq. done.
Qed.

Definition unref_one (t : nx_task) : nx_task :=
  if t_refs t =? 0 then t
  else let t' := with_refs (u32 (t_refs t - 1)) t in if t_refs t' =? 0 then with_state NX_TASK_FREE t' else t'.

Lemma upd_same s i : Z.of_nat (length (s_tasks s)) = NX_TASK_MAX -> slot_ok i -> upd i (fun t => t) s = s.
Proof.
  unfold slot_ok. intros Hl Hi. unfold upd, task. destruct s; cbn in *. unfold with_tasks. cbn. f_equal. apply list_insert_id, list_lookup_lookup_total_lt. lia.
Qed.

Lemma unref_eq s i : sched_ok s -> slot_ok i -> task_unref i s = upd i unref_one s.
Proof.
  intros Hok Hi. pose proof (ok_len s Hok) as Hl. unfold task_unref, release_slot. rewrite task_upd_eq by done. unfold unref_one.
  destruct (t_refs (task s i) =? 0) eqn:E0; [rewrite <- (upd_same s i) at 1 by done; unfold upd; by rewrite E0|].
  destruct (t_refs (with_refs _ _) =? 0) eqn:E; [rewrite upd_upd by done|]; unfold upd; rewrite E0, E; done.
Qed.

(** The slot is released with the last reference of a reaped task. *)
Lemma unref_one_cases s i : sched_ok s -> spare_ref s i ->
  let t := task s i in let t' := unref_one t in
  (t_state t' = t_state t /\ 1 <= t_refs t' <= UINT32_MAX) \/ (t_state t = NX_TASK_REAPED /\ t_state t' = NX_TASK_FREE).
Proof.
  intros Hok (Hi & Hnf & Hr). cbv zeta. pose proof (ok_refs s Hok i Hi Hnf) as Hrefs. unfold UINT32_MAX, st in *. unfold unref_one. cbn [with_refs t_refs].
  destruct (Z.eqb_spec (t_refs (task s i)) 0); [lia|]. rewrite (wrap_small 32) by (unfold fits; lia). destruct (Z.eqb_spec (t_refs (task s i) - 1) 0) as [E|E].
  - right. destruct (decide (t_state (task s i) = NX_TASK_REAPED)); [done|lia].
  - left. cbn. split; [done|lia].
Qed.

Lemma unref_one_fields t : t_id (unref_one t) = t_id t /\ t_slice (unref_one t) = t_slice t /\ t_cr3 (unref_one t) = t_cr3 t /\
  t_kstack_top (unref_one t) = t_kstack_top t /\ t_waiter (unref_one t) = t_waiter t.
Proof. unfold unref_one. cbv zeta. destruct (t_refs t =? 0); [done|]. by destruct (_ =? 0). Qed.

Lemma quiet_unref s i : sched_ok s -> spare_ref s i -> quiet s (task_unref i s).
Proof.
  intros Hok Hs. pose proof Hs as (Hi & Hnf & _). rewrite unref_eq by done. apply quiet_upd; [done|done|].
  destruct (unref_one_fields (task s i)) as (F1 & F2 & F3 & F4 & F5).
  destruct (unref_one_cases s i Hok Hs) as [[E1 E2]|[E1 E2]]; cbv zeta in *.
  - split; rewrite ?E1, ?F2, ?F5; intros; try done; try lia; auto.
  - split; rewrite ?E2, ?F2, ?F5; intros; try done; try congruence; auto; [by rewrite E1|].
    unfold is_idle in *. apply Z.eqb_eq in H as ->. destruct (ok_idle_st s Hok) as [Hx|Hx]; unfold st in Hx; congruence.
Qed.

(** Dropping references touches no task that was not reaped. *)
Lemma unref_st s i j : sched_ok s -> spare_ref s i -> slot_ok j -> st s j <> NX_TASK_REAPED -> st (task_unref i s) j = st s j.
Proof.
  intros Hok Hs Hj Hn. pose proof Hs as (Hi & _). rewrite unref_eq by done. unfold st in *. rewrite task_upd by (done || by apply ok_len).
  destruct (decide (j = i)) as [->|]; [|done]. destruct (unref_one_cases s i Hok Hs) as [[E1 _]|[E1 _]]; [done|]. congruence.
Qed.

Lemma drops_quiet drops : forall s, sched_ok s -> drops_ok drops s ->
  quiet s (for_each drops (fun s d => task_unref d s) s) /\
  forall j, slot_ok j -> st s j <> NX_TASK_REAPED -> st (for_each drops (fun s d => task_unref d s) s) j = st s j.
Proof.
  unfold for_each. induction drops as [|d drops IH]; intros s Hok Hd; cbn [fold_left]; [split; [by apply quiet_refl|done]|].
  destruct Hd as [Hs Hd]. pose proof (quiet_unref s d Hok Hs) as Hq. destruct (IH _ (q_ok _ _ Hq) Hd) as [Hq' Hst].
  split; [by eapply quiet_trans|]. intros j Hj Hn. pose proof (unref_st s d j Hok Hs Hj Hn) as E. rewrite Hst; [done|done|congruence].
Qed.

Lemma reap_quiet s i drops :
  sched_inv s -> slot_ok i -> st s i = NX_TASK_DEAD -> drops_ok drops s ->
  quiet s (reap i drops s) /\ sched_inv (reap i drops s).
Proof.
  intros [Hok Hcur] Hi Hd Hdr. unfold reap. destruct (drops_quiet drops s Hok Hdr) as [Hq1 Hs1].
  set (s1 := for_each drops _ s) in *. clearbody s1. pose proof (q_ok _ _ Hq1) as Hok1. pose proof (ok_len _ Hok1) as Hl1.
  assert (Hd1 : st s1 i = NX_TASK_DEAD) by (rewrite Hs1; congruence || done).
  assert (Hc1 : st s1 (s_current s1) = NX_TASK_RUNNING) by (rewrite (q_cur _ _ Hq1), Hs1; [done|apply Hok|congruence]).
  rewrite upd_upd by done. set (s2 := upd i _ s1).
  assert (Hq2 : quiet s1 s2).
  { apply quiet_upd; [done|done|]. unfold st in Hd1. split; cbn; rewrite ?Hd1; intros; try done; auto.
    - unfold is_idle in *. apply Z.eqb_eq in H as ->. destruct (ok_idle_st s1 Hok1) as [Hx|Hx]; unfold st in Hx; congruence.
    - unfold is_cur in *. apply Z.eqb_eq in H as ->. unfold st in Hc1. congruence. }
  assert (Ht2 : forall j, slot_ok j -> task s2 j = if decide (j = i) then with_state NX_TASK_REAPED (with_kstack_top 0 (task s1 i)) else task s1 j)
    by (intros j Hj; by apply task_upd). clearbody s2. pose proof (q_ok _ _ Hq2) as Hok2.
  set (s3 := task_event i _ 0 s2). pose proof (quiet_event s2 i NX_EV_TASK_REAPED 0 Hok2 Hi) as Hq3. fold s3 in Hq3. pose proof (q_ok _ _ Hq3) as Hok3.
  assert (Hst3 : forall j, slot_ok j -> st s3 j = st s2 j)
    by (intros j Hj; unfold st, s3; by destruct (event_task s2 i NX_EV_TASK_REAPED 0 j Hok2 Hi Hj) as [r ->]). clearbody s3.
  assert (Hr3 : st s3 i = NX_TASK_REAPED) by (rewrite Hst3 by done; unfold st; rewrite Ht2 by done; by rewrite decide_True).
  assert (Hsp : spare_ref s3 i).
  { split; [done|]. split; [congruence|]. rewrite decide_True by done. apply (ok_refs _ Hok3); [done|congruence]. }
  pose proof (quiet_unref s3 i Hok3 Hsp) as Hq4. pose proof (quiet_trans _ _ _ Hq1 (quiet_trans _ _ _ Hq2 (quiet_trans _ _ _ Hq3 Hq4))) as Hq.
  split; [done|]. split; [apply Hq|]. rewrite (q_cur _ _ Hq). pose proof (ok_cur _ Hok) as Hcs. rewrite <- (q_cur _ _ Hq1) in *.
  assert (Hci : s_current s1 <> i) by (intros E; rewrite E in Hc1; congruence).
  assert (E3 : st s3 (s_current s1) = NX_TASK_RUNNING) by (rewrite Hst3 by done; unfold st; rewrite Ht2 by done; rewrite decide_False by done; exact Hc1).
  rewrite unref_st; [done|done|done|done|congruence].
Qed.

(** ** Lemmas: the scheduler *)

Lemma find_first_min (p : Z -> bool) n : forall a i, find_first p (seqZ a (Z.of_nat n)) = Some i ->
  a <= i < a + Z.of_nat n /\ p i = true /\ forall k, a <= k < i -> p k = false.
Proof.
  induction n as [|n IH]; intros a i; [done|]. rewrite seqZ_cons by lia. cbn [find_first].
  replace (Z.pred (Z.of_nat (S n))) with (Z.of_nat n) by lia. destruct (p a) eqn:E.
  - intros [= <-]. split; [lia|]. split; [done|]. intros k Hk. lia.
  - intros H. destruct (IH _ _ H) as (H1 & H2 & H3). split; [lia|]. split; [done|]. intros k Hk.
    destruct (decide (k = a)) as [->|]; [done|]. apply H3. lia.
Qed.

(** A ready task other than the idle thread. *)
Definition waiting (s : sched) (i : Z) : Prop := slot_ok i /\ st s i = NX_TASK_READY /\ i <> s_idle s.

(** How many slots after the running task [t] comes. *)
Definition dist (c t : Z) : Z := (t - c) mod NX_TASK_MAX.

Lemma dist_range c t : slot_ok c -> slot_ok t -> t <> c -> 1 <= dist c t < NX_TASK_MAX /\ (c + dist c t) mod NX_TASK_MAX = t.
Proof. unfold dist, slot_ok, NX_TASK_MAX. intros. dlia. Qed.

Lemma dist_closer c t i : slot_ok c -> slot_ok t -> t <> c -> 1 <= i <= dist c t -> (c + i) mod NX_TASK_MAX <> t ->
  dist ((c + i) mod NX_TASK_MAX) t < dist c t.
Proof. unfold dist, slot_ok, NX_TASK_MAX. intros. dlia. Qed.

(** The choice: the first waiting task after the running one, else the running
    task if it still runs, else the idle thread. *)
Lemma pick_cases s : sched_ok s ->
  let n := pick_next s in
  (waiting s n /\ forall t, waiting s t -> t <> s_current s -> n = t \/ dist n t < dist (s_current s) t) \/
  ((forall t, ~ waiting s t) /\ ((n = s_current s /\ st s n = NX_TASK_RUNNING /\ n <> s_idle s) \/ n = s_idle s)).
Proof.
  intros Hok. cbv zeta. pose proof (ok_cur s Hok) as Hc. set (c := s_current s) in *.
  assert (Hw : forall i, state_is NX_TASK_READY (task s ((c + i) mod NX_TASK_MAX)) && negb ((c + i) mod NX_TASK_MAX =? s_idle s) = true <->
    waiting s ((c + i) mod NX_TASK_MAX)).
  { intros i. rewrite andb_true_iff, state_is_spec, negb_true_iff, Z.eqb_neq. unfold waiting, st.
    assert (slot_ok ((c + i) mod NX_TASK_MAX)) by (apply Z.mod_pos_bound; done). tauto. }
  unfold pick_next. fold c. destruct (find_first _ _) as [i|] eqn:E.
  - apply (find_first_min _ 32) in E as (Hi & Hp & Hmin). left. apply Hw in Hp. split; [done|]. intros t Ht Hne.
    destruct (dist_range c t Hc (proj1 Ht) Hne) as [Hd Hdt].
    destruct (Z.le_gt_cases i (dist c t)) as [Hle|Hgt].
    + destruct (decide ((c + i) mod NX_TASK_MAX = t)) as [|Hn]; [by left|]. right. apply dist_closer; try done; [apply Ht|lia].
    + specialize (Hmin (dist c t) ltac:(lia)). apply not_true_iff_false in Hmin. destruct Hmin. apply Hw. by rewrite Hdt.
  - apply find_first_None in E. rewrite Forall_forall in E. right. split.
    + intros t Ht. destruct Ht as (H1 & H2 & H3). destruct (decide (t = c)) as [->|Hne].
      * specialize (E 32 ltac:(apply elem_of_seqZ; done)). apply not_true_iff_false in E. apply E, Hw.
        replace ((c + 32) mod NX_TASK_MAX) with c by (unfold slot_ok, NX_TASK_MAX in *; dlia). done.
      * destruct (dist_range c t Hc H1 Hne) as [Hd Hdt]. specialize (E (dist c t) ltac:(apply elem_of_seqZ; unfold NX_TASK_MAX in *; lia)).
        apply not_true_iff_false in E. apply E, Hw. by rewrite Hdt.
    + destruct (state_is NX_TASK_RUNNING (task s c) && negb (c =? s_idle s)) eqn:Er; [|by right]. left.
      apply andb_true_iff in Er as [Er1%state_is_spec Er2%negb_true_iff%Z.eqb_neq]. done.
Qed.

(** The ticks a waiting task has to wait at most. *)
Definition patience (s : sched) (t : Z) : Z := NX_SCHED_SLICE * dist (s_current s) t + Z.max (t_slice (task s (s_current s))) 1.

(** The effect of a switch. *)
Record switched (s s' : sched) : Prop := {
  w_inv : sched_inv s';
  w_idle : s_idle s' = s_idle s;
  w_next : s_next_id s' = s_next_id s;
  w_preempt : s_preempt s' = s_preempt s;
  w_id : forall i, slot_ok i -> t_id (task s' i) = t_id (task s i);
  w_rank : forall i, slot_ok i -> rank (st s' i) = rank (st s i);
  w_live : forall t, waiting s t -> st s' t = NX_TASK_RUNNING \/ (waiting s' t /\ patience s' t <= NX_SCHED_SLICE * dist (s_current s) t);
}.

(** A new slice for the running task. *)
Lemma ok_new_slice s x : sched_ok s -> 0 <= x <= NX_SCHED_SLICE -> sched_ok (upd (s_current s) (with_slice x) s).
Proof.
  intros [O1 O2 O3 O4 O5 O6 O7 O8 O9 O10] Hx. set (c := s_current s) in *.
  assert (Ht : forall j, slot_ok j -> task (upd c (with_slice x) s) j = if decide (j = c) then with_slice x (task s c) else task s j) by (intros j Hj; by apply task_upd).
  assert (Hst : forall j, slot_ok j -> st (upd c (with_slice x) s) j = st s j) by (intros j Hj; unfold st; rewrite Ht by done; by destruct (decide (j = c)) as [->|]).
  split; try done; [by rewrite upd_length|idtac..]; change (s_current (upd c (with_slice x) s)) with c; change (s_idle (upd c (with_slice x) s)) with (s_idle s).
  - intros j Hj. rewrite Hst by done. by apply O4.
  - by rewrite Hst.
  - rewrite Ht, decide_True by done. done.
  - intros j Hj. rewrite Hst, Ht by done. destruct (decide (j = c)) as [->|]; by apply O7.
  - intros j Hj. rewrite Ht by done. destruct (decide (j = c)); [done|by apply O8].
  - intros j w Hj. rewrite Ht by done. destruct (decide (j = c)) as [->|]; by apply O9.
Qed.

(** The switch from the running task to task [n]. *)
Definition switch_to (n : Z) (s : sched) : sched :=
  let prev := s_current s in
  let s := if state_is NX_TASK_RUNNING (task s prev) then upd prev (with_state NX_TASK_READY) s else s in
  let s := upd n (with_state NX_TASK_RUNNING) s in
  let s := upd n (with_slice NX_SCHED_SLICE) s in
  let s := with_current n s in
  let cr3 := if negb (t_cr3 (task s n) =? t_cr3 (task s prev)) then t_cr3 (task s n) else s_cr3 s in
  let s := with_cpu cr3 (t_kstack_top (task s n)) s in
  with_switches (u64 (s_switches s + 1)) s.

Lemma switch_tasks s n : Z.of_nat (length (s_tasks s)) = NX_TASK_MAX -> slot_ok (s_current s) -> slot_ok n -> n <> s_current s ->
  Z.of_nat (length (s_tasks (switch_to n s))) = NX_TASK_MAX /\
  forall j, slot_ok j -> task (switch_to n s) j =
    if decide (j = n) then with_slice NX_SCHED_SLICE (with_state NX_TASK_RUNNING (task s n))
    else if decide (j = s_current s) then (if state_is NX_TASK_RUNNING (task s j) then with_state NX_TASK_READY (task s j) else task s j)
    else task s j.
Proof.
  intros Hl Hc Hn Hne. unfold switch_to. set (c := s_current s) in *. cbv zeta.
  set (s1 := if state_is NX_TASK_RUNNING (task s c) then upd c (with_state NX_TASK_READY) s else s).
  assert (Hl1 : Z.of_nat (length (s_tasks s1)) = NX_TASK_MAX) by (unfold s1; destruct (state_is _ _); [by rewrite upd_length|done]).
  assert (H1 : forall j, slot_ok j -> task s1 j = if decide (j = c) then (if state_is NX_TASK_RUNNING (task s j) then with_state NX_TASK_READY (task s j) else task s j) else task s j).
  { intros j Hj. unfold s1. destruct (state_is NX_TASK_RUNNING (task s c)) eqn:E.
    - rewrite task_upd by done. destruct (decide (j = c)) as [->|]; [by rewrite E|done].
    - destruct (decide (j = c)) as [->|]; [by rewrite E|done]. }
  clearbody s1. rewrite upd_upd by done. split; [cbn [with_switches with_cpu with_current s_tasks]; by rewrite upd_length|].
  intros j Hj. change (task (with_switches ?x (with_cpu ?y ?z (with_current ?w ?s2))) j) with (task s2 j).
  rewrite task_upd by done. destruct (decide (j = n)) as [->|]; [|by apply H1]. rewrite (H1 n) by done. by rewrite decide_False.
Qed.

Lemma switch_switched s n : sched_ok s -> st s (s_current s) <> NX_TASK_READY -> slot_ok n -> n <> s_current s -> st s n = NX_TASK_READY ->
  (forall t, waiting s t -> t <> s_current s -> n = t \/ dist n t < dist (s_current s) t) -> switched s (switch_to n s).
Proof.
  intros Hok Hnr Hn Hne Hrd Hcl. destruct (switch_tasks s n (ok_len s Hok) (ok_cur s Hok) Hn Hne) as [Hl Ht].
  assert (Hcur : s_current (switch_to n s) = n) by done. assert (Hidl : s_idle (switch_to n s) = s_idle s) by (unfold switch_to; by destruct (state_is _ _)).
  assert (Hoth : s_next_id (switch_to n s) = s_next_id s /\ s_preempt (switch_to n s) = s_preempt s /\ s_reaper (switch_to n s) = s_reaper s)
    by (unfold switch_to; by destruct (state_is _ _)). destruct Hoth as (Hnx & Hpr & Hrp).
  assert (Hcpu : s_cr3 (switch_to n s) = t_cr3 (task s n) /\ s_rsp0 (switch_to n s) = t_kstack_top (task s n)).
  { pose proof (Ht n Hn) as Hnn. pose proof (Ht _ (ok_cur s Hok)) as Hcc. rewrite decide_True in Hnn by done. rewrite decide_False, decide_True in Hcc by done.
    pose proof (ok_cpu s Hok) as [E1 E2]. unfold switch_to in *. cbv zeta in *. cbn [with_switches with_cpu s_cr3 s_rsp0] in *.
    match type of Hnn with task ?a n = _ => change (task a n) with (task (with_current n (upd n (with_slice NX_SCHED_SLICE) (upd n (with_state NX_TASK_RUNNING)
      (if state_is NX_TASK_RUNNING (task s (s_current s)) then upd (s_current s) (with_state NX_TASK_READY) s else s)))) n) in Hnn end.
    match type of Hcc with task ?a ?k = _ => change (task a k) with (task (with_current n (upd n (with_slice NX_SCHED_SLICE) (upd n (with_state NX_TASK_RUNNING)
      (if state_is NX_TASK_RUNNING (task s (s_current s)) then upd (s_current s) (with_state NX_TASK_READY) s else s)))) k) in Hcc end.
    rewrite Hnn, Hcc. split; [|done]. cbn [with_slice with_state t_cr3].
    assert (E : t_cr3 (if state_is NX_TASK_RUNNING (task s (s_current s)) then with_state NX_TASK_READY (task s (s_current s)) else task s (s_current s)) =
      t_cr3 (task s (s_current s))) by by destruct (state_is _ _). rewrite E, <- E1.
    destruct (Z.eqb_spec (t_cr3 (task s n)) (s_cr3 s)) as [->|]; [|done]. by destruct (state_is _ _). }
  set (s' := switch_to n s) in *. clearbody s'.
  assert (Hst : forall j, slot_ok j -> st s' j = if decide (j = n) then NX_TASK_RUNNING
    else if decide (j = s_current s) then (if decide (st s j = NX_TASK_RUNNING) then NX_TASK_READY else st s j) else st s j).
  { intros j Hj. unfold st. rewrite Ht by done. destruct (decide (j = n)); [done|]. destruct (decide (j = s_current s)); [|done].
    destruct (decide (t_state (task s j) = NX_TASK_RUNNING)) as [E|E]; [by rewrite (proj2 (state_is_spec _ _) E)|by rewrite (proj2 (state_is_false _ _) E)]. }
  assert (Hinv : sched_inv s').
  { split; [|by rewrite Hcur, Hst, decide_True]. destruct Hok as [O1 O2 O3 O4 O5 O6 O7 O8 O9 O10]. split; rewrite ?Hcur, ?Hidl, ?Hrp; try done.
    - intros i Hi. rewrite Hst by done. destruct (decide (i = n)); [done|]. destruct (decide (i = s_current s)) as [->|Hi2]; [by destruct (decide _)|].
      intros E. by destruct Hi2; apply O4.
    - rewrite Hst by done. destruct (decide (s_idle s = n)); [by right|]. destruct (decide (s_idle s = s_current s)) as [E|]; [|done].
      destruct (decide _); [by left|]. rewrite E in O5 |- *. tauto.
    - rewrite Ht, decide_True by done. done.
    - intros i Hi. rewrite Hst, Ht by done. destruct (decide (i = n)) as [->|]; [intros _; apply O7; [done|congruence]|].
      destruct (decide (i = s_current s)) as [->|]; [|by apply O7]. specialize (O7 _ O2). unfold st in *.
      destruct (decide _) as [E|E]; [rewrite (proj2 (state_is_spec _ _) E)|rewrite (proj2 (state_is_false _ _) E)]; intros Hx; cbn; apply O7; congruence.
    - intros i Hi. rewrite Ht by done. destruct (decide (i = n)); [cbn; unfold NX_SCHED_SLICE; lia|]. specialize (O8 i Hi).
      destruct (decide _); [|done]. by destruct (state_is _ _).
    - intros i w Hi. rewrite Ht by done. specialize (O9 i w Hi). destruct (decide (i = n)) as [->|]; [done|]. destruct (decide _); [|done]. by destruct (state_is _ _). }
  split; try done.
  - intros i Hi. rewrite Ht by done. destruct (decide (i = n)) as [->|]; [done|]. destruct (decide _); [|done]. by destruct (state_is _ _).
  - intros i Hi. rewrite Hst by done. destruct (decide (i = n)) as [->|]; [by rewrite Hrd|]. destruct (decide _); [|done]. by destruct (decide _) as [->|].
  - intros t Hw. pose proof Hw as (Htk & Hts & Hti). destruct (decide (t = n)) as [->|Htn]; [left; by rewrite Hst, decide_True|]. right.
    assert (Htc : t <> s_current s) by (intros ->; done). split.
    + split; [done|]. rewrite Hst, !decide_False, Hidl by done. done.
    + unfold patience. rewrite Hcur, Ht, decide_True by done. cbn [with_slice t_slice]. destruct (Hcl t Hw Htc) as [->|Hd]; [done|].
      unfold NX_SCHED_SLICE in *. lia.
Qed.

Lemma schedule_switched s : sched_ok s -> st s (s_current s) <> NX_TASK_READY -> switched s (nx_schedule s).
Proof.
  intros Hok Hnr. pose proof (pick_cases s Hok) as Hp. cbv zeta in Hp. unfold nx_schedule. fold (switch_to (pick_next s) s). set (n := pick_next s) in *. clearbody n.
  pose proof (ok_cur s Hok) as Hc. pose proof (ok_idle_st s Hok) as Hid.
  destruct (Z.eqb_spec n (s_current s)) as [->|Hne].
  - assert (Hrun : st s (s_current s) = NX_TASK_RUNNING /\ forall t, ~ waiting s t).
    { destruct Hp as [[(_ & H & _) _]|[H1 [(_ & H2 & _)|H2]]]; [done|done|]. split; [|done]. rewrite <- H2 in Hid. tauto. }
    destruct Hrun as [Hrun Hnw]. pose proof (ok_new_slice s NX_SCHED_SLICE Hok ltac:(unfold NX_SCHED_SLICE; lia)) as Hok'.
    assert (Ht : forall j, slot_ok j -> task (upd (s_current s) (with_slice NX_SCHED_SLICE) s) j =
      if decide (j = s_current s) then with_slice NX_SCHED_SLICE (task s (s_current s)) else task s j) by (intros j Hj; apply task_upd; [by apply ok_len|done|done]).
    split; try done.
    + split; [done|]. unfold st. change (s_current (upd (s_current s) ?f s)) with (s_current s). rewrite Ht, decide_True by done. exact Hrun.
    + intros i Hi. rewrite Ht by done. by destruct (decide _) as [->|].
    + intros i Hi. unfold st. rewrite Ht by done. by destruct (decide _) as [->|].
    + intros t Hw. by destruct (Hnw t).
  - assert (Hn : slot_ok n /\ st s n = NX_TASK_READY).
    { destruct Hp as [[(H1 & H2 & _) _]|[_ [[-> _]| ->]]]; [done|done|]. split; [apply Hok|]. destruct Hid as [H|H]; [done|].
      destruct Hne. apply (ok_one s Hok); [apply Hok|done]. }
    apply switch_switched; try tauto. intros t Hw Htc. destruct Hp as [[_ H]|[H _]]; [by apply H|by destruct (H t)].
Qed.

(** ** Lemmas: the steps *)

(** What a step other than the creation of a task does. *)
Record evolved (s s' : sched) : Prop := {
  e_inv : sched_inv s';
  e_idle : s_idle s' = s_idle s;
  e_next : s_next_id s' = s_next_id s;
  e_preempt : s_preempt s' = s_preempt s;
  e_id : forall i, slot_ok i -> t_id (task s' i) = t_id (task s i);
  e_rank : forall i, slot_ok i -> rank (st s i) <= rank (st s' i);
  e_live : forall t, waiting s t -> st s' t = NX_TASK_RUNNING \/ 1 <= rank (st s' t) \/ (waiting s' t /\ patience s' t <= patience s t);
}.

Lemma quiet_evolved s s' : quiet s s' -> st s' (s_current s') = NX_TASK_RUNNING -> evolved s s'.
Proof.
  intros [Q1 Q2 Q3 Q4 Q5 Q6 Q7 Q8 Q9] Hr. split; try done. intros t (H1 & H2 & H3). destruct (Q9 t H1 H2) as [E|E]; [|by right; left].
  right. right. split; [split; [done|]; by rewrite Q3|]. unfold patience. by rewrite Q2, Q6.
Qed.

(** Quiet changes, then a switch; with a waiting task patience shrinks. *)
Lemma calm_switched s s1 s' : calm s s1 -> switched s1 s' ->
  evolved s s' /\ forall t, waiting s t -> st s' t = NX_TASK_RUNNING \/ 1 <= rank (st s' t) \/ (waiting s' t /\ patience s' t < patience s t).
Proof.
  intros [Q1 Q2 Q3 Q4 Q5 Q7 Q8 Q9] [W1 W2 W3 W4 W5 W6 W7].
  assert (Hlive : forall t, waiting s t -> st s' t = NX_TASK_RUNNING \/ 1 <= rank (st s' t) \/ (waiting s' t /\ patience s' t < patience s t)).
  { intros t (H1 & H2 & H3). destruct (Q9 t H1 H2) as [E|E]; [|right; left; by rewrite W6].
    destruct (W7 t) as [H|[H H']]; [split; [done|]; by rewrite Q3|by left|]. right. right. split; [done|]. unfold patience in *. rewrite Q2 in H'. lia. }
  split; [|done]. split; try congruence.
  - intros i Hi. rewrite W5 by done. by apply Q7.
  - intros i Hi. rewrite W6 by done. by apply Q8.
  - intros t Hw. destruct (Hlive t Hw) as [H|[H|[H1 H2]]]; [by left|by right; left|right; right; split; [done|lia]].
Qed.

Lemma calm_schedule s s1 : calm s s1 -> st s1 (s_current s1) <> NX_TASK_READY -> evolved s (nx_schedule s1).
Proof. intros Hq Hn. apply (calm_switched s s1); [done|]. apply schedule_switched; [by eapply c_ok|done]. Qed.

Lemma calm_slice s x : sched_inv s -> 0 <= x <= NX_SCHED_SLICE ->
  calm s (upd (s_current s) (with_slice x) s) /\ sched_inv (upd (s_current s) (with_slice x) s).
Proof.
  intros [Hok Hr] Hx. pose proof (ok_new_slice s x Hok Hx) as Hok'.
  assert (Ht : forall j, slot_ok j -> task (upd (s_current s) (with_slice x) s) j =
    if decide (j = s_current s) then with_slice x (task s (s_current s)) else task s j) by (intros j Hj; apply task_upd; [by apply ok_len|apply Hok|done]).
  assert (Hst : forall j, slot_ok j -> st (upd (s_current s) (with_slice x) s) j = st s j)
    by (intros j Hj; unfold st; rewrite Ht by done; by destruct (decide _) as [->|]).
  split; [|split; [done|]; change (s_current (upd (s_current s) (with_slice x) s)) with (s_current s); rewrite Hst; [done|apply Hok]].
  split; try done.
  - intros i Hi. rewrite Ht by done. by destruct (decide _) as [->|].
  - intros i Hi. rewrite Hst by done. lia.
  - intros i Hi. rewrite Hst by done. by left.
Qed.

(** Quiet changes that leave the running task running. *)
Definition keeps (s s' : sched) : Prop := quiet s s' /\ sched_inv s'.

Lemma sched_keeps_refl s : sched_inv s -> keeps s s.
Proof. intros H. split; [apply quiet_refl; apply H|done]. Qed.

Lemma sched_keeps_trans s1 s2 s3 : keeps s1 s2 -> keeps s2 s3 -> keeps s1 s3.
Proof. intros [H1 _] [H2 H3]. split; [by eapply quiet_trans|done]. Qed.

Lemma keeps_evolved s s' : keeps s s' -> evolved s s'.
Proof. intros [Hq [_ Hr]]. by apply quiet_evolved. Qed.

(** A change of one slot that does not stop the running task. *)
Lemma keeps_upd s i f :
  sched_inv s -> slot_ok i -> tame (is_cur s i) (is_idle s i) (task s i) (f (task s i)) ->
  (i = s_current s -> t_state (f (task s i)) = t_state (task s i)) -> keeps s (upd i f s).
Proof.
  intros [Hok Hr] Hi Ht Hc. pose proof (quiet_upd s i f Hok Hi Ht) as Hq. split; [done|]. split; [by eapply q_ok|].
  rewrite (q_cur _ _ Hq). unfold st in *. rewrite task_upd by (done || by apply ok_len || apply Hok). destruct (decide _) as [<-|]; [|done]. by rewrite Hc.
Qed.

Lemma keeps_env s s' :
  sched_inv s -> s_tasks s' = s_tasks s -> s_current s' = s_current s -> s_idle s' = s_idle s -> s_next_id s' = s_next_id s ->
  s_preempt s' = s_preempt s -> s_cr3 s' = s_cr3 s -> s_rsp0 s' = s_rsp0 s -> s_reaper s' = s_reaper s -> keeps s s'.
Proof.
  intros [Hok Hr] E1 E2 E3 E4 E5 E6 E7 E8. pose proof (quiet_env s s' Hok E1 E2 E3 E4 E5 E6 E7 E8) as Hq. split; [done|]. split; [by eapply q_ok|].
  unfold st, task in *. by rewrite E1, E2.
Qed.

Lemma wake_keeps s i : sched_inv s -> slot_ok i -> keeps s (nx_task_wake i s).
Proof.
  intros [Hok Hr] Hi. pose proof (quiet_wake s i Hok Hi) as Hq. split; [done|]. split; [by eapply q_ok|]. rewrite (q_cur _ _ Hq).
  unfold nx_task_wake. destruct (state_is NX_TASK_BLOCKED (task s i)) eqn:E; [|done]. apply state_is_spec in E. unfold st in *.
  rewrite task_upd by (done || by apply ok_len || apply Hok). destruct (decide _) as [<-|]; [|done]. congruence.
Qed.

Lemma event_keeps s i type arg : sched_inv s -> slot_ok i -> keeps s (task_event i type arg s).
Proof.
  intros [Hok Hr] Hi. pose proof (quiet_event s i type arg Hok Hi) as Hq. split; [done|]. split; [by eapply q_ok|]. rewrite (q_cur _ _ Hq).
  unfold st in *. by destruct (event_task s i type arg (s_current s) Hok Hi (ok_cur s Hok)) as [r ->].
Qed.

Lemma start_keeps s i : sched_inv s -> slot_ok i -> keeps s (nx_task_start i s).
Proof.
  intros Hinv Hi. unfold nx_task_start. destruct (state_is NX_TASK_BLOCKED (task s i)) eqn:E; [|by apply sched_keeps_refl].
  cbn [andb]. destruct (_ && _); [|by apply sched_keeps_refl]. apply state_is_spec in E. pose proof Hinv as [Hok Hr].
  assert (Hk : keeps s (upd i (fun t => with_started true (with_state NX_TASK_READY t)) s)).
  { apply keeps_upd; [done|done| |intros ->; unfold st in Hr; congruence]. split; cbn; rewrite ?E; intros; try done; auto.
    unfold is_idle in *. apply Z.eqb_eq in H as ->. destruct (ok_idle_st s Hok) as [Hs|Hs]; unfold st in Hs; congruence. }
  eapply sched_keeps_trans; [exact Hk|]. apply event_keeps; [apply Hk|done].
Qed.

Lemma unref_keeps s i : sched_inv s -> spare_ref s i -> keeps s (task_unref i s).
Proof.
  intros [Hok Hr] Hs. pose proof (quiet_unref s i Hok Hs) as Hq. split; [done|]. split; [by eapply q_ok|]. rewrite (q_cur _ _ Hq).
  rewrite unref_st; [done|done|done|apply Hok|congruence].
Qed.

Lemma for_each_keeps (f : sched -> Z -> sched) l : Forall slot_ok l ->
  (forall s i, sched_inv s -> slot_ok i -> keeps s (f s i)) -> forall s, sched_inv s -> keeps s (for_each l f s).
Proof.
  unfold for_each. intros Hl Hf. induction Hl as [|i l Hi _ IH]; intros s Hs; cbn [fold_left]; [by apply sched_keeps_refl|].
  pose proof (Hf s i Hs Hi) as H. eapply sched_keeps_trans; [exact H|]. apply IH, H.
Qed.

Lemma slots_ok : Forall slot_ok (seqZ 0 NX_TASK_MAX).
Proof. apply Forall_forall. intros i Hi%elem_of_seqZ. unfold slot_ok. lia. Qed.

Lemma other_ready_waiting s t : waiting s t -> t <> s_current s -> other_ready s = true.
Proof.
  intros (H1 & H2 & H3) H4. unfold other_ready. apply existsb_exists. exists t. split.
  - apply list_elem_of_In, elem_of_seqZ. unfold slot_ok in H1. lia.
  - rewrite (proj2 (state_is_spec _ _) H2), (proj2 (Z.eqb_neq _ _) H3), (proj2 (Z.eqb_neq _ _) H4). done.
Qed.

Lemma tick_count_calm s : sched_inv s ->
  calm s (tick_count s) /\ sched_inv (tick_count s) /\
  t_slice (task (tick_count s) (s_current s)) = Z.max (t_slice (task s (s_current s)) - 1) 0.
Proof.
  intros Hinv. unfold tick_count. cbv zeta. set (s1 := upd (s_current s) _ s). pose proof (ok_cur s (proj1 Hinv)) as Hc.
  assert (K1 : keeps s s1) by (apply keeps_upd; [done|done|tame_field|done]). clearbody s1. pose proof (proj2 K1) as Hinv1.
  pose proof (q_cur _ _ (proj1 K1)) as Ec. pose proof (q_slice _ _ (proj1 K1)) as Ex. rewrite Ec, Ex.
  pose proof (ok_slice s (proj1 Hinv) (s_current s) Hc) as Hx. set (x := t_slice (task s (s_current s))) in *.
  destruct (Z.eqb_spec x 0) as [E|E]; cbn [negb].
  - split; [apply quiet_calm, K1|]. split; [done|]. lia.
  - rewrite <- Ec in *. replace (upd (s_current s1) (fun t => with_slice (t_slice t - 1) t) s1) with (upd (s_current s1) (with_slice (x - 1)) s1)
      by (unfold upd; by rewrite Ex).
    destruct (calm_slice s1 (x - 1) Hinv1 ltac:(lia)) as [H1 H2]. split; [|split; [done|]].
    + eapply calm_trans; [apply quiet_calm, K1|done].
    + rewrite task_upd_eq; [cbn; lia|apply ok_len, Hinv1|apply Hinv1].
Qed.

Lemma wake_sleepers_keeps s : sched_inv s -> keeps s (wake_sleepers s).
Proof.
  intros Hs. apply for_each_keeps; [apply slots_ok| |done]. intros s0 i H0 Hi. unfold wake_sleeper.
  destruct (_ && _); [by apply wake_keeps|by apply sched_keeps_refl].
Qed.

Lemma count_preemption_keeps s : sched_inv s -> keeps s (count_preemption s).
Proof.
  intros Hs. unfold count_preemption. destruct (negb _); [|by apply sched_keeps_refl]. set (s5 := upd _ _ s).
  assert (K5 : keeps s s5) by (apply keeps_upd; [done|apply Hs|tame_field|done]). clearbody s5.
  eapply sched_keeps_trans; [exact K5|]. apply keeps_env; try done. apply K5.
Qed.

Lemma tick_preempt_cases s : sched_inv s ->
  (tick_preempt s = s /\ (s_preempt s = true -> forall t, waiting s t -> 1 <= t_slice (task s (s_current s)))) \/
  switched (count_preemption s) (tick_preempt s).
Proof.
  intros Hs. unfold tick_preempt. destruct (negb (s_preempt s) && _) eqn:Ep; [left; split; [done|]; intros H; by rewrite H in Ep|].
  destruct (((s_current s =? s_idle s) || (t_slice (task s (s_current s)) =? 0)) && other_ready s) eqn:Es.
  - right. destruct (count_preemption_keeps s Hs) as [_ [H1 H2]]. apply schedule_switched; [done|]. by rewrite H2.
  - left. split; [done|]. intros _ t Hw. assert (Ho : other_ready s = true).
    { apply (other_ready_waiting s t Hw). intros ->. destruct Hw as (_ & H & _). destruct Hs as [_ Hr]. congruence. }
    rewrite Ho, andb_true_r in Es. apply orb_false_iff in Es as [_ Es]. apply Z.eqb_neq in Es.
    pose proof (ok_slice s (proj1 Hs) (s_current s) (ok_cur s (proj1 Hs))). lia.
Qed.

(** One tick: a waiting task runs, or has to wait for less. *)
Lemma tick_evolved s s' : sched_inv s -> sched_tick s = Some s' ->
  evolved s s' /\ (s_preempt s = true -> forall t, waiting s t ->
    st s' t = NX_TASK_RUNNING \/ 1 <= rank (st s' t) \/ (waiting s' t /\ patience s' t < patience s t)).
Proof.
  intros Hinv. unfold sched_tick. destruct (tick_count_calm s Hinv) as (C1 & Hinv1 & Hsl1). set (s1 := tick_count s) in *. clearbody s1.
  pose proof (wake_sleepers_keeps s1 Hinv1) as K3. set (s3 := wake_sleepers s1) in *. clearbody s3. cbv zeta. pose proof (proj2 K3) as Hinv3.
  pose proof (calm_trans _ _ _ C1 (quiet_calm _ _ (proj1 K3))) as C.
  assert (Hsl3 : t_slice (task s3 (s_current s3)) = Z.max (t_slice (task s (s_current s)) - 1) 0)
    by (rewrite (q_cur _ _ (proj1 K3)), (q_slice _ _ (proj1 K3)), (c_cur _ _ C1); done).
  assert (Hpat : forall t, patience s3 t <= patience s t /\ (1 <= t_slice (task s3 (s_current s3)) -> patience s3 t < patience s t))
    by (intros t; unfold patience; rewrite Hsl3, (c_cur _ _ C); lia).
  assert (Hw3 : forall t, waiting s t -> waiting s3 t \/ 1 <= rank (st s3 t)).
  { intros t (H1 & H2 & H3). destruct (c_ready _ _ C t H1 H2) as [E|E]; [left|by right]. split; [done|]. by rewrite (c_idle _ _ C). }
  destruct (_ && _); [done|]. intros [= <-]. destruct (tick_preempt_cases s3 Hinv3) as [[-> Hp]|Hsw].
  - split.
    + split; try apply C; [done|]. intros t Hw. right. destruct (Hw3 t Hw) as [H|H]; [right|by left]. split; [done|apply Hpat].
    + intros Hpre t Hw. right. destruct (Hw3 t Hw) as [H|H]; [right|by left]. split; [done|]. apply Hpat, (Hp ltac:(by rewrite (c_preempt _ _ C)) t H).
  - destruct (calm_switched s _ _ (calm_trans _ _ _ C (quiet_calm _ _ (proj1 (count_preemption_keeps s3 Hinv3)))) Hsw) as [E1 E2]. split; [done|]. intros _. exact E2.
Qed.

(** ** Lemmas: creating a task *)

(** A new task in a free slot, or a slot that was tried and left free. *)
Record created (s s' : sched) : Prop := {
  n_inv : sched_inv s';
  n_idle : s_idle s' = s_idle s;
  n_preempt : s_preempt s' = s_preempt s;
  n_slot : exists i, slot_ok i /\ st s i = NX_TASK_FREE /\ t_id (task s' i) = s_next_id s /\
    st s' i <> NX_TASK_RUNNING /\ (forall j, slot_ok j -> j <> i -> task s' j = task s j);
  n_next : s_next_id s' = u32 (s_next_id s + 1);
  n_cur : s_current s' = s_current s;
}.

Lemma created_shape s s' i t : sched_inv s -> slot_ok i -> st s i = NX_TASK_FREE -> s_tasks s' = (s_tasks s).[i := t] ->
  t_state t <> NX_TASK_RUNNING -> t_id t = s_next_id s -> t_refs t = 1 -> t_slice t = 0 -> t_waiter t = None ->
  s_current s' = s_current s -> s_idle s' = s_idle s -> s_next_id s' = u32 (s_next_id s + 1) ->
  s_preempt s' = s_preempt s -> s_cr3 s' = s_cr3 s -> s_rsp0 s' = s_rsp0 s -> s_reaper s' = s_reaper s \/ s_reaper s' = Some i -> created s s'.
Proof.
  intros [Hok Hr] Hi Hf Ht Hst Hid Hrf Hsl Hwt Ec Ei En Ep E3 E4 E5. destruct Hok as [O1 O2 O3 O4 O5 O6 O7 O8 O9 O10].
  assert (Htk : forall j, slot_ok j -> task s' j = if decide (j = i) then t else task s j).
  { intros j Hj. unfold task. rewrite Ht. unfold slot_ok in *. destruct (decide (j = i)) as [->|]; [rewrite arr_get_set_eq by lia|rewrite arr_get_set_ne by lia]; done. }
  assert (Hci : s_current s <> i) by (intros E; rewrite E in Hr; congruence).
  assert (Hii : s_idle s <> i) by (intros E; rewrite E in O5; destruct O5; congruence).
  assert (Hst' : forall j, slot_ok j -> j <> i -> st s' j = st s j) by (intros j Hj Hn; unfold st; by rewrite Htk, decide_False).
  assert (Hnr : st s' i <> NX_TASK_RUNNING) by (unfold st; by rewrite Htk, decide_True by done).
  split; try done.
  - split; [|by rewrite Ec, Hst']. split; rewrite ?Ec, ?Ei, ?E3, ?E4; try done.
    + by rewrite Ht, arr_set_length.
    + intros j Hj E. destruct (decide (j = i)) as [->|]; [done|]. rewrite Hst' in E by done. by apply O4.
    + by rewrite Hst'.
    + by rewrite Htk, decide_False.
    + intros j Hj. destruct (decide (j = i)) as [->|]; [intros _; rewrite Htk, decide_True, Hrf by done; unfold UINT32_MAX; lia|].
      rewrite Hst', Htk, decide_False by done. by apply O7.
    + intros j Hj. rewrite Htk by done. destruct (decide (j = i)); [rewrite Hsl; unfold NX_SCHED_SLICE; lia|by apply O8].
    + intros j w Hj. rewrite Htk by done. destruct (decide (j = i)); [by rewrite Hwt|by apply O9].
    + intros r E. destruct E5 as [E'|E']; [apply O10; congruence|]. congruence.
  - exists i. split; [done|]. split; [done|]. split; [by rewrite Htk, decide_True|]. split; [unfold st; by rewrite Htk, decide_True|].
    intros j Hj Hn. by rewrite Htk, decide_False.
Qed.

Lemma upd_next n i f s : upd i f (with_next_id n s) = with_next_id n (upd i f s).
Proof. done. Qed.

Lemma task_alloc_cases name s : sched_inv s ->
  (alloc_task name s = (None, s)) \/
  exists i t, alloc_task name s = (Some i, with_next_id (u32 (s_next_id s + 1)) (upd i (fun _ => t) s)) /\ slot_ok i /\ st s i = NX_TASK_FREE /\
    t_state t = NX_TASK_BLOCKED /\ t_id t = s_next_id s /\ t_refs t = 1 /\ t_slice t = 0 /\ t_waiter t = None /\ t_user t = false.
Proof.
  intros Hs. unfold alloc_task. destruct (find_first _ _) as [i|] eqn:E; [|by left]. right.
  apply find_first_elem in E as [Hi%elem_of_seqZ Hf%state_is_spec]. eexists i, _. split; [done|]. unfold slot_ok. split; [lia|]. by split.
Qed.

Lemma thread_created root name k s : sched_inv s ->
  let s' := (nx_kthread_create root name k s).2 in keeps s s' \/ created s s'.
Proof.
  intros Hs. cbv zeta. unfold nx_kthread_create. destruct (task_alloc_cases name s Hs) as [->|(i & t & -> & Hi & Hf & T1 & T2 & T3 & T4 & T5 & _)];
    [left; by apply sched_keeps_refl|]. right. pose proof (ok_len s (proj1 Hs)) as Hl.
  destruct (negb k); cbn [snd]; rewrite ?upd_next, ?upd_upd by (done || by rewrite ?upd_length);
    (eapply (created_shape s _ i); [done|done|done|reflexivity|idtac..]; try done; cbn; auto; congruence).
Qed.

Lemma user_created name k cr3 load s : sched_inv s ->
  let s' := (nx_utask_create name k cr3 load s).2 in keeps s s' \/ created s s'.
Proof.
  intros Hs. cbv zeta. unfold nx_utask_create. destruct (task_alloc_cases name s Hs) as [->|(i & t & -> & Hi & Hf & T1 & T2 & T3 & T4 & T5 & _)];
    [left; by apply sched_keeps_refl|]. right. pose proof (ok_len s (proj1 Hs)) as Hl.
  destruct (negb k); cbn [snd]; rewrite ?upd_next, ?upd_upd by (done || by rewrite ?upd_length);
    [eapply (created_shape s _ i); [done|done|done|reflexivity|idtac..]; try done; cbn; auto; congruence|].
  destruct (if negb (cr3 =? 0) then load else inl NX_ENOMEM) as [e|entry]; cbn [snd]; rewrite ?upd_next, ?upd_upd by (done || by rewrite ?upd_length);
    [eapply (created_shape s _ i); [done|done|done|reflexivity|idtac..]; try done; cbn; auto; congruence|].
  unfold task_event. change (task (with_next_id ?n ?s1) i) with (task s1 i). rewrite task_upd_eq by done. cbn [t_user with_created_tick with_entry with_cr3 with_user with_kstack_top negb].
  rewrite upd_next, upd_upd by done. eapply (created_shape s _ i); [done|done|done|reflexivity|idtac..]; try done; cbn; auto; congruence.
Qed.

(** The reaper is created and started at once. *)
Lemma reaper_created root name k s s' : sched_inv s -> nx_reaper_start root name k s = Some s' -> created s s'.
Proof.
  intros Hs. unfold nx_reaper_start, nx_kthread_create. pose proof (ok_len s (proj1 Hs)) as Hl.
  destruct (task_alloc_cases name s Hs) as [->|(i & t & -> & Hi & Hf & T1 & T2 & T3 & T4 & T5 & T6)]; [done|].
  destruct (negb k); [done|]. intros [= <-]. rewrite ?upd_next, ?upd_upd by (done || by rewrite ?upd_length).
  unfold nx_task_start, task_event. set (s1 := with_reaper _ _).
  assert (E1 : task s1 i = with_cr3 root (with_kstack_top (kstack_top_of i) t)).
  { change (task s1 i) with (task (upd i (fun _ => with_cr3 root (with_kstack_top (kstack_top_of i) t)) s) i). by rewrite task_upd_eq. }
  assert (Hl1 : Z.of_nat (length (s_tasks s1)) = NX_TASK_MAX) by (unfold s1; cbn; by rewrite arr_set_length).
  destruct (_ && _).
  - rewrite task_upd_eq, E1 by done. cbn [t_user with_started with_state with_cr3 with_kstack_top]. rewrite T6. cbn [negb].
    eapply (created_shape s _ i (with_started true (with_state NX_TASK_READY (task s1 i)))); try done; rewrite ?E1; try done; [|by right].
    unfold upd at 1. cbn [with_tasks s_tasks]. rewrite E1. unfold s1. cbn [with_reaper with_next_id upd with_tasks s_tasks]. by rewrite list_insert_insert_eq.
  - eapply (created_shape s s1 i (task s1 i)); try done; rewrite ?E1; try done; [cbn; congruence|by right].
Qed.

(** ** Lemmas: every step *)

Lemma block_evolved s on : sched_inv s -> s_current s <> s_idle s -> evolved s (nx_task_block on s).
Proof.
  intros [Hok Hr] Hn. unfold nx_task_block. pose proof (ok_cur s Hok) as Hc.
  apply calm_schedule.
  - apply quiet_calm, quiet_upd; [done|done|]. unfold st in Hr. split; cbn; rewrite ?Hr; intros; try done; auto.
    unfold is_idle in *. apply Z.eqb_eq in H. done.
  - change (s_current (upd (s_current s) ?f s)) with (s_current s). unfold st. rewrite task_upd_eq by (done || by apply ok_len). done.
Qed.

Lemma evolved_trans s1 s2 s3 : keeps s1 s2 -> evolved s2 s3 -> evolved s1 s3.
Proof.
  intros [[Q1 Q2 Q3 Q4 Q5 Q6 Q7 Q8 Q9] _] [E1 E2 E3 E4 E5 E6 E7]. split; try congruence.
  - intros i Hi. rewrite E5 by done. by apply Q7.
  - intros i Hi. specialize (Q8 i Hi). specialize (E6 i Hi). lia.
  - intros t (H1 & H2 & H3). destruct (Q9 t H1 H2) as [E|E].
    + destruct (E7 t) as [H|[H|[H H']]]; [split; [done|]; by rewrite Q3|by left|by right; left|].
      right. right. split; [done|]. unfold patience in *. rewrite Q2, Q6 in H'. done.
    + right. left. specialize (E6 t H1). lia.
Qed.

(** Ending the running task and switching away from it. *)
Lemma end_switch_evolved s e : sched_inv s -> s_current s <> s_idle s -> evolved s (nx_schedule (end_task (s_current s) e s)).
Proof.
  intros [Hok Hr] Hn. pose proof (ok_cur s Hok) as Hc. destruct (quiet_end s (s_current s) e Hok Hc Hn ltac:(by rewrite Hr)) as (Hq & Hd & _).
  apply calm_schedule; [by apply quiet_calm|]. rewrite (q_cur _ _ Hq), Hd. done.
Qed.

Lemma kill_evolved s i e killer : sched_inv s -> slot_ok i -> i <> s_idle s -> evolved s (nx_task_terminate i e killer s).
Proof.
  intros Hs Hi Hn. unfold nx_task_terminate. set (s1 := upd i (with_killer_id killer) s).
  assert (K1 : keeps s s1) by (apply keeps_upd; [done|done|tame_field|done]).
  assert (Hst : forall j, slot_ok j -> st s1 j = st s j).
  { intros j Hj. unfold st, s1. rewrite task_upd by (done || apply ok_len, Hs). by destruct (decide _) as [->|]. } clearbody s1.
  assert (Hgo : rank (st s i) = 0 -> evolved s (if i =? s_current s then nx_schedule (end_task i e s1) else end_task i e s1)).
  { intros Hrk. apply (evolved_trans s s1); [done|]. destruct (Z.eqb_spec i (s_current s)) as [->|Hne].
    - rewrite <- (q_cur _ _ (proj1 K1)) in *. apply end_switch_evolved; [apply K1|]. by rewrite (q_idle _ _ (proj1 K1)).
    - destruct (quiet_end s1 i e (proj1 (proj2 K1)) Hi) as (Hq & Hd & Hk); [by rewrite (q_idle _ _ (proj1 K1))|by rewrite Hst|].
      destruct (proj2 K1) as [Hok1 Hr1]. apply quiet_evolved; [done|]. rewrite (q_cur _ _ Hq), Hk; [done|by apply ok_cur| |congruence].
      rewrite (q_cur _ _ (proj1 K1)). congruence. }
  unfold st in Hgo. destruct (t_state (task s i)); try (by apply keeps_evolved, sched_keeps_refl); by apply Hgo.
Qed.

Lemma exit_evolved s code : sched_inv s -> s_current s <> s_idle s -> evolved s (nx_task_exit_current code s).
Proof.
  intros Hs Hn. unfold nx_task_exit_current. set (s1 := upd (s_current s) _ s).
  assert (K1 : keeps s s1) by (apply keeps_upd; [done|apply Hs|tame_field|done]). apply (evolved_trans s s1); [done|].
  change (s_current s) with (s_current s1). apply end_switch_evolved; [apply K1|exact Hn].
Qed.

Lemma trap_evolved s f : sched_inv s -> s_current s <> s_idle s -> evolved s (nx_user_trap f s).
Proof.
  intros Hs Hn. unfold nx_user_trap. set (s1 := upd (s_current s) _ s).
  assert (K1 : keeps s s1) by (apply keeps_upd; [done|apply Hs|tame_field|done]). apply (evolved_trans s s1); [done|].
  apply kill_evolved; [apply K1|apply Hs|exact Hn].
Qed.

Lemma waiter_keeps s i w : sched_inv s -> slot_ok i -> (forall x, w = Some x -> slot_ok x) -> keeps s (upd i (with_waiter w) s).
Proof.
  intros Hs Hi Hw. apply keeps_upd; [done|done| |done]. split; cbn; intros; try done; try lia; auto.
Qed.

Lemma wait_evolved s i drops : sched_inv s -> slot_ok i -> s_current s <> s_idle s -> i <> s_idle s ->
  (st s i = NX_TASK_DEAD -> drops_ok drops (upd i (with_waiter None) s)) -> evolved s (wait_reap_pass i drops s).2.
Proof.
  intros Hs Hi Hn Hni Hd. unfold wait_reap_pass.
  pose proof (waiter_keeps s i None Hs Hi ltac:(done)) as K1. pose proof (waiter_keeps s i (Some (s_current s)) Hs Hi) as K2.
  assert (E1 : st (upd i (with_waiter None) s) i = st s i) by (unfold st; by rewrite task_upd_eq by (done || apply ok_len, Hs)).
  assert (Hblock : evolved s (nx_task_block OnNothing (upd i (with_waiter (Some (s_current s))) s))).
  { assert (K : keeps s (upd i (with_waiter (Some (s_current s))) s)) by (apply K2; intros x [= <-]; apply Hs).
    apply (evolved_trans s _ _ K), block_evolved; [apply K|exact Hn]. }
  unfold st in *. destruct (t_state (task s i)) eqn:Es; try exact Hblock; cbn [snd]; unfold state_is; rewrite E1, ?bool_decide_eq_true_2 by done.
  - apply (evolved_trans s _ _ K1). apply keeps_evolved. apply reap_quiet; [apply K1|done|exact E1|by apply Hd].
  - rewrite bool_decide_eq_false_2 by done. by apply keeps_evolved.
Qed.

Lemma reaper_loop_keeps drops l : Forall slot_ok l -> forall s, sched_inv s -> reap_drops_ok l drops s ->
  keeps s (for_each l (fun s i => let t := task s i in
       if state_is NX_TASK_DEAD t && bool_decide (t_waiter t = None) then reap i (drops i) s else s) s).
Proof.
  unfold for_each. induction 1 as [|i l Hi _ IH]; intros s Hs Hd; cbn [fold_left]; [by apply sched_keeps_refl|].
  cbn [reap_drops_ok] in Hd. cbv zeta in *. destruct (state_is NX_TASK_DEAD (task s i)) eqn:E; cbn [andb] in *; [|by apply IH].
  destruct (bool_decide (t_waiter (task s i) = None)); [|by apply IH]. destruct Hd as [Hd1 Hd2]. apply state_is_spec in E.
  pose proof (reap_quiet s i (drops i) Hs Hi E Hd1) as K. eapply sched_keeps_trans; [exact K|]. apply IH; [apply K|done].
Qed.

Lemma reaper_evolved s drops : sched_inv s -> s_current s <> s_idle s -> reap_drops_ok (seqZ 0 NX_TASK_MAX) drops s -> evolved s (reaper_pass drops s).
Proof.
  intros Hs Hn Hd. unfold reaper_pass. pose proof (reaper_loop_keeps drops _ slots_ok s Hs Hd) as K. cbv zeta in *.
  set (s1 := for_each _ _ s) in *. clearbody s1. apply (evolved_trans s s1 _ K), block_evolved; [apply K|].
  by rewrite (q_cur _ _ (proj1 K)), (q_idle _ _ (proj1 K)).
Qed.

Lemma yield_evolved s : sched_inv s -> evolved s (nx_yield s).
Proof.
  intros Hs. unfold nx_yield. destruct (calm_slice s 0 Hs) as [H1 [H2 H3]]; [unfold NX_SCHED_SLICE; lia|]. apply calm_schedule; [done|]. by rewrite H3.
Qed.

Lemma ref_keeps s i : sched_inv s -> slot_ok i -> st s i <> NX_TASK_FREE -> t_refs (task s i) < UINT32_MAX -> keeps s (task_ref i s).
Proof.
  intros Hs Hi Hf Hm. pose proof (ok_refs s (proj1 Hs) i Hi Hf) as Hr. apply keeps_upd; [done|done| |done]. unfold UINT32_MAX in *.
  split; cbn; intros; try done; try lia; auto. rewrite wrap_small by (unfold fits; lia). unfold UINT32_MAX. lia.
Qed.

(** Every step keeps the invariant; see [evolved] and [created] for the rest. *)
Lemma step_evolved s a s' : sched_inv s -> sched_step s a s' -> evolved s s' \/ created s s'.
Proof.
  intros Hs Hstep. assert (Hn0 : st s (s_current s) <> NX_TASK_READY) by (by rewrite (proj2 Hs)).
  destruct Hstep; try (left; by auto using keeps_evolved, wake_keeps, start_keeps, exit_evolved, kill_evolved, trap_evolved, block_evolved, wait_evolved,
    reaper_evolved, yield_evolved, ref_keeps, unref_keeps).
  - left. set (s1 := with_now _ s) in *. assert (K : keeps s s1) by by apply keeps_env. clearbody s1.
    apply (evolved_trans s s1); [done|]. apply tick_evolved; [apply K|done].
  - left. apply calm_schedule; [apply quiet_calm, quiet_refl, Hs|done].
  - left. unfold nx_task_sleep. set (s1 := upd (s_current s) _ s). assert (K : keeps s s1) by (apply keeps_upd; [done|apply Hs|tame_field|done]).
    apply (evolved_trans s s1); [done|]. apply block_evolved; [apply K|exact H].
  - destruct (thread_created root name k s Hs) as [K|C]; [left; by apply keeps_evolved|by right].
  - destruct (user_created name k cr3 load s Hs) as [K|C]; [left; by apply keeps_evolved|by right].
  - left. by apply keeps_evolved, keeps_env.
  - right. by eapply reaper_created.
Qed.

Lemma step_inv s a s' : sched_inv s -> sched_step s a s' -> sched_inv s'.
Proof. intros Hs Hst. destruct (step_evolved s a s' Hs Hst) as [E|C]; [apply E|apply C]. Qed.
