(* ===== verification/SchedThm.v ===== *)
(** * The scheduler: theorems

    From initialisation on exactly one task runs; a ready task runs after a bounded number
    of ticks; the end of a task is final. *)
From S2P Require Import Prelude Abi Event Sched SchedInv.

(** ** Specification *)

(** The state before [nx_sched_init], on the kernel's page tables. *)
Definition cold (root : Z) (events : nx_evlog) (now : Z) : sched :=
  mk_sched (replicate (Z.to_nat NX_TASK_MAX) zero_task) 0 (-1) 1 false 0 None events now 0 0 ∅ root 0.

Definition is_tick (a : act) : bool := match a with ATick => true | _ => false end.

(** The task has ended: dead, reaped, or its slot given back. *)
Definition ended (x : nx_task_state) : Prop := 1 <= rank x.

(** The longest time a ready task can wait, in ticks: the slices of all others. *)
Definition WAIT_MAX : Z := NX_SCHED_SLICE * NX_TASK_MAX.

(** ** Lemmas *)

Lemma run_invariant s acts tr s' : sched_run s acts tr s' -> sched_inv s -> Forall sched_inv tr.
Proof.
  induction 1 as [s|s a s1 acts tr s' Hst _ IH]; intros Hs; [by constructor|]. constructor; [done|]. apply IH. by apply (step_inv s a s1).
Qed.

Lemma run_head s acts tr s' : sched_run s acts tr s' -> s ∈ tr.
Proof. destruct 1; apply list_elem_of_here. Qed.

(** *** Initial state *)

(** Case analysis on a slot. *)
Ltac each_slot i Hi :=
  let H := fresh in
  assert (H : In i (seqZ 0 NX_TASK_MAX)) by (apply list_elem_of_In, elem_of_seqZ; unfold slot_ok in Hi; lia);
  vm_compute in H; repeat (destruct H as [<-|H]); [..|done].

Lemma init_inv root top kmain idle kstack preempt ev now s :
  nx_sched_init root top kmain idle kstack preempt (cold root ev now) = Some s -> sched_inv s.
Proof.
  destruct kstack; [|by vm_compute]. unfold cold.
  set (r := nx_sched_init _ _ _ _ _ _ _). vm_compute in r. unfold r. clear r. intros [= <-].
  split; [|done]. split; try done.
  - intros i Hi. each_slot i Hi; done.
  - by left.
  - intros i Hi. each_slot i Hi; intros Hf; first [by destruct Hf|vm_compute; split; intros ?; discriminate].
  - intros i Hi. each_slot i Hi; vm_compute; split; intros ?; discriminate.
  - intros i w Hi. each_slot i Hi; done.
Qed.

(** *** The end of a task is final *)

Lemma run_ended s acts tr s' i n0 : sched_run s acts tr s' -> sched_inv s -> slot_ok i ->
  0 <= n0 <= s_next_id s -> s_next_id s + Z.of_nat (length acts) <= UINT32_MAX -> forall id0, id0 < n0 ->
  (t_id (task s i) = id0 /\ ended (st s i)) \/ n0 <= t_id (task s i) ->
  (t_id (task s' i) = id0 /\ ended (st s' i)) \/ n0 <= t_id (task s' i).
Proof.
  unfold UINT32_MAX. intros Hrun Hs Hi. revert Hs. induction Hrun as [s|s a s1 acts tr s' Hst _ IH]; intros Hs Hn Hmax id0 Hid Hcase; [done|].
  cbn [length] in Hmax.
  destruct (step_evolved s a s1 Hs Hst) as [[E1 E2 E3 E4 E5 E6 E7]|[C1 C2 C3 (j & Hj & Hf & Hjid & _ & Hoth) C5 C6]].
  - apply IH; try done; [lia|lia|]. rewrite E5 by done. specialize (E6 i Hi). unfold ended in *. destruct Hcase as [[? ?]|?]; [left|right]; [split; [done|lia]|done].
  - rewrite wrap_small in C5 by (unfold fits; lia). apply IH; try done; [lia|lia|]. destruct (decide (i = j)) as [->|Hne]; [right; lia|].
    unfold st. rewrite Hoth by done. exact Hcase.
Qed.

(** *** Progress *)

(** A step keeps a waiting task waiting no longer, lets it run, or ends it. *)
Lemma step_waiting s a s1 t : sched_inv s -> s_preempt s = true -> sched_step s a s1 -> waiting s t ->
  s_preempt s1 = true /\ (st s1 t = NX_TASK_RUNNING \/ ended (st s1 t) \/
    (waiting s1 t /\ patience s1 t + (if is_tick a then 1 else 0) <= patience s t)).
Proof.
  intros Hs Hp Hst Hw. destruct (is_tick a) eqn:Ea.
  - destruct a; try done. inversion Hst as [s' Ht| | | | | | | | | | | | | | | | |]; subst. set (s0 := with_now _ s) in *.
    assert (K : keeps s s0) by by apply keeps_env. assert (Hw0 : waiting s0 t) by exact Hw. assert (Hpt : patience s0 t = patience s t) by done. clearbody s0.
    destruct (tick_evolved s0 s1 (proj2 K) Ht) as [Hev Hlt]. pose proof (q_preempt _ _ (proj1 K)) as Hp0. split; [rewrite (e_preempt _ _ Hev); congruence|].
    destruct (Hlt ltac:(congruence) t Hw0) as [H|[H|[H1 H2]]]; [by left|by right; left|right; right; split; [done|lia]].
  - destruct (step_evolved s a s1 Hs Hst) as [[E1 E2 E3 E4 E5 E6 E7]|[C1 C2 C3 (j & Hj & Hf & _ & _ & Hoth) C5 C6]].
    + split; [congruence|]. destruct (E7 t Hw) as [H|[H|[H1 H2]]]; [by left|by right; left|right; right; split; [done|lia]].
    + split; [congruence|]. right. right. destruct Hw as (H1 & H2 & H3). assert (Htj : t <> j) by (intros ->; congruence).
      assert (Hcj : s_current s <> j) by (intros <-; rewrite (proj2 Hs) in Hf; done).
      split; [split; [done|]; unfold st; rewrite Hoth, C2 by done; done|]. unfold patience. rewrite C6, Hoth; [lia|apply Hs|done].
Qed.

Lemma run_progress s acts tr s' t : sched_run s acts tr s' -> sched_inv s -> s_preempt s = true -> waiting s t ->
  patience s t <= countb is_tick acts -> exists s1, s1 ∈ tr /\ (st s1 t = NX_TASK_RUNNING \/ ended (st s1 t)).
Proof.
  induction 1 as [s|s a s1 acts tr s' Hst Hrun IH]; intros Hs Hp Hw Hn.
  - cbn [countb] in Hn. unfold patience in Hn. pose proof (Z.mod_pos_bound (t - s_current s) NX_TASK_MAX ltac:(done)).
    unfold dist, NX_SCHED_SLICE in Hn. lia.
  - destruct (step_waiting s a s1 t Hs Hp Hst Hw) as [Hp1 [H|[H|[Hw1 Hpat]]]].
    + exists s1. split; [apply list_elem_of_further; by eapply run_head|by left].
    + exists s1. split; [apply list_elem_of_further; by eapply run_head|by right].
    + destruct IH as (s2 & Hin & H2); [by apply (step_inv s a s1)|done|done| |exists s2; split; [by apply list_elem_of_further|done]].
      cbn [countb] in Hn. destruct (is_tick a); lia.
Qed.

(** ** Theorems *)

(** C5: from initialisation on, in every state that timer ticks and calls of the
    operations of [task.c] (starting the reaper included) lead to, exactly one task is running: the current one, with its page tables and its
    kernel stack loaded; the idle thread is always runnable, every slot in use is
    referenced and every time slice is in range. *)
Theorem sched_invariant root top kmain idle kstack preempt ev now s acts tr s' :
  nx_sched_init root top kmain idle kstack preempt (cold root ev now) = Some s -> sched_run s acts tr s' -> Forall sched_inv tr.
Proof. intros Hi Hr. apply (run_invariant s acts tr s' Hr). by eapply init_inv. Qed.

(** C13: with preemption on, a ready task runs before the slices of all slots are
    over: among the states of any sequence of events with that many timer ticks
    there is one in which it runs, or it was ended meanwhile. *)
Theorem ready_task_runs s acts tr s' t :
  sched_run s acts tr s' -> sched_inv s -> s_preempt s = true -> waiting s t -> WAIT_MAX <= countb is_tick acts ->
  exists s1, s1 ∈ tr /\ (st s1 t = NX_TASK_RUNNING \/ ended (st s1 t)).
Proof.
  intros Hr Hs Hp Hw Hn. apply (run_progress s acts tr s' t Hr Hs Hp Hw).
  assert (Hd : dist (s_current s) t <= 31).
  { unfold dist. pose proof (Z.mod_pos_bound (t - s_current s) NX_TASK_MAX ltac:(done)). unfold NX_TASK_MAX in *. lia. }
  pose proof (ok_slice s (proj1 Hs) (s_current s) (ok_cur s (proj1 Hs))) as Hsl. unfold patience, WAIT_MAX, NX_SCHED_SLICE, NX_TASK_MAX in *. lia.
Qed.

(** C22: the end of a task is final: as long as no identifier wraps around, a slot
    whose task has ended never again holds a blocked, ready or running task with
    the same identifier. *)
Theorem ended_never_runs s acts tr s' i :
  sched_run s acts tr s' -> sched_inv s -> slot_ok i -> 0 <= t_id (task s i) < s_next_id s ->
  s_next_id s + Z.of_nat (length acts) <= UINT32_MAX ->
  ended (st s i) -> t_id (task s' i) = t_id (task s i) -> ended (st s' i).
Proof.
  intros Hr Hs Hi Hid Hmax He E.
  destruct (run_ended s acts tr s' i (s_next_id s) Hr Hs Hi ltac:(lia) Hmax (t_id (task s i)) ltac:(lia) (or_introl (conj eq_refl He))) as [[_ H]|H]; [done|lia].
Qed.

(** The identifier counter wraps around: after the last one, identifiers that
    were issued before are issued again. *)
Lemma task_id_wraps name s i s' :
  s_next_id s = UINT32_MAX -> alloc_task name s = (Some i, s') -> s_next_id s' = 0.
Proof.
  unfold alloc_task. intros Hn. destruct (find_first _ _) as [j|]; [|done]. intros [= _ <-]. cbn. by rewrite Hn.
Qed.

(** ** Witnesses *)

Definition sample_log : nx_evlog := nx_evlog_init (mk_evlog (replicate 128 inhabitant) 0 false).

(** The kernel after initialisation, then with one started user task in slot 2. *)
Definition sample_boot : sched := default (cold 0x1000 sample_log 0) (nx_sched_init 0x1000 0x9000 [107] [105] true true (cold 0x1000 sample_log 0)).
Definition sample_user : sched := (nx_utask_create [117] true 0x5000 (inr 0x8000000000) sample_boot).2.
Definition sample_ready : sched := nx_task_start 2 sample_user.

Lemma sample_boot_eq : nx_sched_init 0x1000 0x9000 [107] [105] true true (cold 0x1000 sample_log 0) = Some sample_boot.
Proof. by vm_compute. Qed.

Lemma sample_ready_run : sched_run sample_boot [AUser [117] true 0x5000 (inr 0x8000000000); AStart 2] [sample_boot; sample_user; sample_ready] sample_ready.
Proof.
  apply (run_cons _ _ _ sample_user); [apply step_user|]. apply (run_cons _ _ _ sample_ready); [by apply step_start|]. apply run_nil.
Qed.

(** The session starts the reaper, which runs and finds nothing to do. *)
Definition sample_reaper : sched := default sample_boot (nx_reaper_start 0x1000 [114] true sample_boot).
Definition sample_reaping : sched := nx_yield sample_reaper.
Definition sample_reaped : sched := reaper_pass (fun _ => []) sample_reaping.

Lemma sample_reaper_run :
  sched_run sample_boot [AReaper 0x1000 [114] true; AYield; AReap (fun _ => [])] [sample_boot; sample_reaper; sample_reaping; sample_reaped] sample_reaped.
Proof.
  apply (run_cons _ _ _ sample_reaper); [apply step_reaper; by vm_compute|].
  apply (run_cons _ _ _ sample_reaping); [apply step_yield; by vm_compute|].
  apply (run_cons _ _ _ sample_reaped); [apply step_reap; by vm_compute|]. apply run_nil.
Qed.

Lemma sched_invariant_witness : Forall sched_inv [sample_boot; sample_reaper; sample_reaping; sample_reaped] /\ st sample_reaped 2 = NX_TASK_BLOCKED.
Proof. split; [|by vm_compute]. exact (sched_invariant _ _ _ _ _ _ _ _ _ _ _ _ sample_boot_eq sample_reaper_run). Defined.

Lemma sample_ready_inv : sched_inv sample_ready.
Proof.
  pose proof (run_invariant _ _ _ _ sample_ready_run (init_inv _ _ _ _ _ _ _ _ _ sample_boot_eq)) as H.
  rewrite !Forall_cons in H. apply H.
Qed.

Lemma sample_waiting : waiting sample_ready 2.
Proof.
  assert (H1 : st sample_ready 2 = NX_TASK_READY) by (vm_compute; reflexivity). assert (H2 : s_idle sample_ready = 1) by (vm_compute; reflexivity).
  unfold waiting. rewrite H1, H2. unfold slot_ok, NX_TASK_MAX. split; [lia|]. split; [reflexivity|lia].
Qed.

(** The states after each of [n] ticks. *)
Fixpoint ticks (n : nat) (s : sched) : option (list sched * sched) :=
  match n with
  | O => Some ([s], s)
  | S n' =>
      s1 ← sched_tick (with_now (u64 (s_now s + 1)) s);
      r ← ticks n' s1;
      Some (s :: r.1, r.2)
  end.

Lemma ticks_run n : forall s r, ticks n s = Some r -> sched_run s (repeat ATick n) r.1 r.2.
Proof.
  induction n as [|n IH]; intros s r; cbn [ticks repeat]; [intros [= <-]; apply run_nil|].
  intros (s1 & H1 & (r1 & H2 & H3)%bind_Some)%bind_Some. injection H3 as <-. cbn [fst snd].
  apply (run_cons _ _ _ s1); [by apply step_tick|]. by apply IH.
Qed.

Lemma ready_task_runs_witness :
  exists tr s', sched_run sample_ready (repeat ATick 64) tr s' /\ exists s1, s1 ∈ tr /\ (st s1 2 = NX_TASK_RUNNING \/ ended (st s1 2)).
Proof.
  assert (Hs : match ticks 64 sample_ready with Some _ => true | None => false end = true) by by vm_compute.
  destruct (ticks 64 sample_ready) as [r|] eqn:E; [|discriminate Hs]. exists r.1, r.2. pose proof (ticks_run 64 sample_ready r E) as Hr.
  split; [exact Hr|]. refine (ready_task_runs sample_ready (repeat ATick 64) r.1 r.2 2 Hr sample_ready_inv _ sample_waiting _).
  - vm_compute. reflexivity.
  - vm_compute. discriminate.
Defined.

(** The user task is killed; creating and starting another one in a free slot
    leaves it dead. *)
Definition sample_killed : sched := nx_task_terminate 2 NX_END_KILLED 1 sample_ready.
Definition sample_later : sched := (nx_utask_create [118] true 0x6000 (inr 0x8000000000) sample_killed).2.

Lemma ended_never_runs_witness : st sample_killed 2 = NX_TASK_DEAD /\ ended (st sample_later 2).
Proof.
  assert (Hrun : sched_run sample_killed [AUser [118] true 0x6000 (inr 0x8000000000)] [sample_killed; sample_later] sample_later)
    by (apply (run_cons _ _ _ sample_later); [apply step_user|apply run_nil]).
  assert (Hinv : sched_inv sample_killed).
  { apply (step_inv sample_ready (AKill 2 NX_END_KILLED 1)); [apply sample_ready_inv|]. apply step_kill; [done|]. vm_compute. discriminate. }
  split; [vm_compute; reflexivity|]. refine (ended_never_runs sample_killed _ _ sample_later 2 Hrun Hinv _ _ _ _ _).
  - unfold slot_ok, NX_TASK_MAX. lia.
  - vm_compute. split; [discriminate|reflexivity].
  - vm_compute. discriminate.
  - vm_compute. discriminate.
  - vm_compute. reflexivity.
Defined.
