(* ===== verification/KStack.v ===== *)
(** * Kernel stacks

    The run-time mappings of the kernel's address space ([kernel/mm/vmm.c]) and the
    kernel stacks built with them ([kstack_alloc] and [kstack_free] of
    [kernel/task.c]).  Every slot of the task table has a window of its own with
    an unmapped guard page below the stack.  The TLB is not modelled: translation
    always follows the tables. *)
From S2P Require Import Prelude Bytes Abi BootAbi Bitmap Pmm ElfPlan Pt PtFree Vmm Program KernelSpace Event Sched.

(** ** Operations *)

Definition nx_vmm_map_page (root va pa flags : Z) (s : vst) : nx_pt_status * vst := nx_pt_map root va pa NX_PAGE_4K flags s.

(** The physical address of the page that was mapped. *)
Definition nx_vmm_unmap_page (root va : Z) (s : vst) : (nx_pt_status + Z) * vst :=
  match nx_pt_unmap root va s with
  | (inl st, s') => (inl st, s')
  | (inr (pa, _), s') => (inr pa, s')
  end.

Definition nx_vmm_query (root va : Z) (s : vst) : nx_pt_status + Z * Z * Z := nx_pt_query root va s.

Definition nx_vmm_map_mmio (root phys : Z) (s : vst) : boot (Z * vst) :=
  let va := u64 (NX_PHYSMAP_BASE + phys) in
  match nx_vmm_query root va s with
  | inr _ => Go (va, s)
  | inl _ =>
      match nx_vmm_map_page root va phys (NX_PTE_W |. NX_PTE_NX |. NX_PTE_G |. NX_PTE_PCD |. NX_PTE_PWT) s with
      | (NX_PT_OK, s') => Go (va, s')
      | _ => Halt
      end
  end.

Definition kstack_va (i j : Z) : Z := u64 (kstack_bottom i + j * NX_PAGE_4K).
Definition kstack_flags : Z := NX_PTE_W |. NX_PTE_NX |. NX_PTE_G.

Definition kstack_unmap (root i : Z) (s : vst) (j : Z) : vst :=
  match nx_vmm_unmap_page root (kstack_va i j) s with
  | (inr pa, s') => set_ctx s' (nx_page_free (pt_ctx s') pa)
  | (inl _, s') => s'
  end.

Definition kstack_free (root i : Z) (s : vst) : vst := for_each (seqZ 0 NX_KSTACK_PAGES) (kstack_unmap root i) s.

(** The pages from page [j] on; [false] is NX_ENOMEM. *)
Fixpoint kstack_pages (n : nat) (j root i : Z) (s : vst) : bool * vst :=
  match n with
  | O => (true, s)
  | S n' =>
      let r := nx_pmm_alloc (v_pmm (pt_ctx s)) in
      let s1 := set_pmm s r.2 in
      if r.1 =? 0 then (false, kstack_free root i s1)
      else
        match nx_vmm_map_page root (kstack_va i j) r.1 kstack_flags s1 with
        | (NX_PT_OK, s2) => kstack_pages n' (j + 1) root i (set_data s2 r.1 (replicate (Z.to_nat NX_PAGE_4K) 0))
        | (_, s2) => (false, kstack_free root i (set_ctx s2 (nx_page_free (pt_ctx s2) r.1)))
        end
  end.

Definition kstack_alloc (root i : Z) (s : vst) : bool * vst := kstack_pages (Z.to_nat NX_KSTACK_PAGES) 0 root i s.

(** ** Specification *)

(** What [va] is mapped to when page [j] of stack [i] is page [P !! j] of memory. *)
Definition stack_query (i : Z) (P : gmap Z Z) (old : nx_pt_status + Z * Z * Z) (va : Z) : nx_pt_status + Z * Z * Z :=
  match P !! ((va - kstack_bottom i) / NX_PAGE_4K) with
  | Some q => inr (q + va mod NX_PAGE_4K, kstack_flags |. NX_PTE_P, NX_PAGE_4K)
  | None => old
  end.

(** The page an address lies in. *)
Definition page_base (x : Z) : Z := x - x mod NX_PAGE_4K.

(** The state [s] that began as [s0], with the pages [P] of stack [i] in place: pages that
    were free, each once, zeroed, and mapped; besides them only pages for new tables were
    taken, memory in use was not written, and every other address is mapped as before. *)
Record stack_at (root i : Z) (T0 : gmap Z (nat * Z)) (s0 : vst) (P : gmap Z Z) (T : gmap Z (nat * Z)) (s : vst) : Prop := {
  sa_ok : pt_ok root T s;
  sa_sub : T0 ⊆ T;
  sa_panic : v_panic (pt_ctx s) = false;
  sa_page : forall j q, P !! j = Some q -> 0 <= j < NX_KSTACK_PAGES /\ page_aligned q /\ ~ page_used (v_pmm (pt_ctx s0)) q /\ T !! q = None;
  sa_inj : forall j j' q, P !! j = Some q -> P !! j' = Some q -> j = j';
  sa_used : forall p, page_used (v_pmm (pt_ctx s)) p <->
    page_used (v_pmm (pt_ctx s0)) p \/ (exists j, P !! j = Some p) \/ (T0 !! p = None /\ is_Some (T !! p));
  sa_map : forall va, fits 64 va -> nx_pt_query root va s = stack_query i P (nx_pt_query root va s0) va;
  sa_zero : forall j q x, P !! j = Some q -> q <= x < q + NX_PAGE_4K -> v_data (pt_ctx s) x = 0;
  sa_data : forall x, page_used (v_pmm (pt_ctx s0)) (page_base x) -> v_data (pt_ctx s) x = v_data (pt_ctx s0) x;
}.

(** No address of stack [i] is mapped. *)
Definition stack_free (root i : Z) (s : vst) : Prop :=
  forall va, fits 64 va -> 0 <= (va - kstack_bottom i) / NX_PAGE_4K < NX_KSTACK_PAGES -> nx_pt_query root va s = inl NX_PT_E_NOT_MAPPED.

(** ** Lemmas *)

Lemma kstack_va_eq i j : slot_ok i -> 0 <= j < NX_KSTACK_PAGES ->
  kstack_va i j = 0xFFFFFE0000000000 + i * 0x8000 + 0x1000 + j * 0x1000 /\ kstack_bottom i = 0xFFFFFE0000000000 + i * 0x8000 + 0x1000.
Proof.
  unfold slot_ok, NX_TASK_MAX, NX_KSTACK_PAGES. intros Hi Hj.
  assert (Hb : kstack_bottom i = 0xFFFFFE0000000000 + i * 0x8000 + 0x1000).
  { unfold kstack_bottom, NX_KSTACK_BASE, NX_KSTACK_STRIDE. rewrite wrap_small by (unfold fits; lia). lia. }
  split; [|done]. unfold kstack_va. rewrite Hb. unfold NX_PAGE_4K. rewrite wrap_small by (unfold fits; lia). lia.
Qed.

Lemma kstack_va_fits i j : slot_ok i -> 0 <= j < NX_KSTACK_PAGES -> fits 64 (kstack_va i j).
Proof.
  intros Hi Hj. destruct (kstack_va_eq i j Hi Hj) as [-> _]. unfold slot_ok, NX_TASK_MAX, NX_KSTACK_PAGES, fits in *. lia.
Qed.

(** The addresses of page [j]. *)
Lemma stack_index i j va : slot_ok i -> 0 <= j < NX_KSTACK_PAGES ->
  va / NX_PAGE_4K = kstack_va i j / NX_PAGE_4K <-> (va - kstack_bottom i) / NX_PAGE_4K = j.
Proof.
  intros Hi Hj. destruct (kstack_va_eq i j Hi Hj) as [-> ->]. unfold NX_PAGE_4K. split; intros H; dlia.
Qed.

Lemma kstack_index_self i j : slot_ok i -> 0 <= j < NX_KSTACK_PAGES -> (kstack_va i j - kstack_bottom i) / NX_PAGE_4K = j.
Proof. intros Hi Hj. by apply stack_index. Qed.

(** Tables that are new in [T'], coming from [T0]. *)
Lemma new_tables_trans {X} (T0 T T' : gmap Z X) p : T0 ⊆ T -> T ⊆ T' ->
  (T0 !! p = None /\ is_Some (T' !! p)) <-> (T0 !! p = None /\ is_Some (T !! p)) \/ (T !! p = None /\ is_Some (T' !! p)).
Proof.
  intros H1 H2. destruct (T !! p) as [x|] eqn:E.
  - pose proof (lookup_weaken _ _ _ _ E H2) as E'. rewrite E'. split; [intros [? _]; left; eauto|]. intros [[? _]|[? _]]; [eauto|done].
  - assert (E0 : T0 !! p = None) by (destruct (T0 !! p) as [y|] eqn:E0; [pose proof (lookup_weaken _ _ _ _ E0 H1); congruence|done]).
    split; [tauto|]. intros [[_ [? ?]]|[_ ?]]; [done|tauto].
Qed.

Section stack.
Context (root i : Z) (T0 : gmap Z (nat * Z)) (s0 : vst) (Hi : slot_ok i).

Abbreviation at_ := (stack_at root i T0 s0).

Lemma stack_start : pt_ok root T0 s0 -> v_panic (pt_ctx s0) = false -> at_ ∅ T0 s0.
Proof.
  intros Hok Hp. split; try done. intros p. split; [by left|]. intros [|[[j Hj]|[H1 [x H2]]]]; [done|done|congruence].
Qed.

(** A page from the allocator. *)
Lemma stack_take P T s q p' :
  at_ P T s -> nx_pmm_alloc (v_pmm (pt_ctx s)) = (q, p') ->
  pt_ok root T (set_pmm s p') /\ (forall p, page_used p' p <-> page_used (v_pmm (pt_ctx s)) p \/ (q <> 0 /\ p = q)) /\
  (q <> 0 -> page_aligned q /\ ~ page_used (v_pmm (pt_ctx s)) q).
Proof.
  intros Hs E. destruct (sa_ok _ _ _ _ _ _ _ Hs) as (Hinv & Hwf & Hu). simpl in Hinv, Hu.
  pose proof (pmm_alloc_page _ Hinv) as Ha. rewrite E in Ha. destruct Ha as (Hok & _ & Hus & Hq).
  split; [|split; [done|intros Hz; destruct (Hq Hz) as (? & _ & ? & _); done]].
  split; [exact Hok|]. split; [exact Hwf|]. intros t x Ht. simpl. apply Hus. left. by eapply Hu.
Qed.

Lemma stack_nomem P T s p' : at_ P T s -> nx_pmm_alloc (v_pmm (pt_ctx s)) = (0, p') -> at_ P T (set_pmm s p').
Proof.
  intros Hs E. destruct (stack_take P T s 0 p' Hs E) as (Hok & Hus & _). destruct Hs. split; try done.
  intros p. simpl. rewrite Hus, sa_used0. tauto.
Qed.

(** The state between mapping a page and the rest of the step. *)
Lemma stack_map P T s q p' va :
  at_ P T s -> nx_pmm_alloc (v_pmm (pt_ctx s)) = (q, p') -> q <> 0 -> fits 64 va ->
  let r := nx_pt_map root va q NX_PAGE_4K kstack_flags (set_pmm s p') in
  exists T', pt_ok root T' r.2 /\ T ⊆ T' /\ T' !! q = None /\ (forall j x, P !! j = Some x -> T' !! x = None) /\
    v_panic (pt_ctx r.2) = false /\ v_data (pt_ctx r.2) = v_data (pt_ctx s) /\
    (forall p, page_used (v_pmm (pt_ctx r.2)) p <-> (page_used (v_pmm (pt_ctx s)) p \/ p = q) \/ (T !! p = None /\ is_Some (T' !! p))) /\
    if decide (r.1 = NX_PT_OK) then mapped root va q NX_PAGE_4K kstack_flags (set_pmm s p') r.2 else unchanged root (set_pmm s p') r.2.
Proof.
  intros Hs E Hz Hva. destruct (stack_take P T s q p' Hs E) as (Hok & Hus & Hq). destruct (Hq Hz) as [Hal Hnu].
  assert (Hqf : fits 64 q) by (destruct Hal as [Hr _]; change NX_PHYS_MAX with (2 ^ 52) in Hr; unfold fits; lia).
  assert (Hff : fits 64 kstack_flags) by (split; by vm_compute). cbv zeta.
  destruct (map_cases root T (set_pmm s p') va q NX_PAGE_4K kstack_flags Hok Hva Hqf Hff) as (T' & Hok' & (s2 & Hg & Hok2 & Heff) & Hres).
  pose proof (map_ctx root va q NX_PAGE_4K kstack_flags (set_pmm s p')) as (Hc1 & Hc2 & Hc3).
  destruct (nx_pt_map root va q NX_PAGE_4K kstack_flags (set_pmm s p')) as [st s3]. cbn [fst snd] in *.
  assert (Hs2 : pt_ctx s2 = pt_ctx s3) by (destruct st; [by destruct Heff as (t & _ & _ & ->)|by rewrite Heff..]).
  assert (Hn : forall x, page_used (v_pmm (pt_ctx s)) x \/ x = q -> T !! x = None -> T' !! x = None).
  { intros x Hx HT. destruct (T' !! x) as [y|] eqn:E'; [|done]. destruct (gr_new _ _ _ _ _ Hg x HT ltac:(eauto)) as [Hn _].
    destruct Hn. simpl. apply Hus. tauto. }
  assert (HTq : T !! q = None).
  { destruct (T !! q) as [x|] eqn:E'; [|done]. destruct Hnu. destruct (sa_ok _ _ _ _ _ _ _ Hs) as (_ & _ & Hu). by apply (Hu q x). }
  exists T'. split; [done|]. split; [apply Hg|]. split; [by apply Hn; [right|]|]. split; [|split; [|split; [done|split]]].
  - intros j x Hx. apply Hn; [left|by apply (sa_page _ _ _ _ _ _ _ Hs j)]. apply (sa_used _ _ _ _ _ _ _ Hs). right. left. eauto.
  - rewrite Hc1. apply Hs.
  - intros p. rewrite <- Hs2. pose proof (gr_used _ _ _ _ _ Hg p) as Hu. simpl in Hu. rewrite Hu, Hus. tauto.
  - destruct st; simpl; apply Hres.
Qed.

(** A page that could be mapped. *)
Lemma stack_push P T s q p' j s2 :
  at_ P T s -> nx_pmm_alloc (v_pmm (pt_ctx s)) = (q, p') -> q <> 0 -> 0 <= j < NX_KSTACK_PAGES -> P !! j = None ->
  nx_vmm_map_page root (kstack_va i j) q kstack_flags (set_pmm s p') = (NX_PT_OK, s2) ->
  exists T', at_ (<[j := q]> P) T' (set_data s2 q (replicate (Z.to_nat NX_PAGE_4K) 0)).
Proof.
  intros Hs E Hz Hj HP Em. destruct (stack_take P T s q p' Hs E) as (_ & _ & Hq). destruct (Hq Hz) as [Hal Hnu].
  pose proof (stack_map P T s q p' (kstack_va i j) Hs E Hz (kstack_va_fits i j Hi Hj)) as Hm. cbv zeta in Hm. unfold nx_vmm_map_page in Em.
  rewrite Em in Hm. cbn [fst snd] in Hm. rewrite decide_True in Hm by done. destruct Hm as (T' & M1 & M2 & M3 & M4 & M5 & M6 & M7 & M8).
  assert (Hnp : forall j' x, P !! j' = Some x -> x <> q).
  { intros j' x Hx ->. apply Hnu, (sa_used _ _ _ _ _ _ _ Hs). right. left. eauto. }
  assert (Hnu0 : ~ page_used (v_pmm (pt_ctx s0)) q) by (intros Hx; apply Hnu, (sa_used _ _ _ _ _ _ _ Hs); by left).
  generalize (length_replicate (Z.to_nat NX_PAGE_4K) 0). generalize (fun x => lookup_total_replicate_2 (Z.to_nat NX_PAGE_4K) 0 x).
  generalize (replicate (Z.to_nat NX_PAGE_4K) 0) as zs. intros zs Hz1 Hz2.
  exists T'. split.
  - exact M1.
  - etrans; [apply Hs|done].
  - exact M5.
  - intros j' x. rewrite lookup_insert_Some. intros [[<- <-]|[Hne Hx]]; [done|].
    destruct (sa_page _ _ _ _ _ _ _ Hs j' x Hx) as (? & ? & ? & _). split_and!; try done; try lia. by apply (M4 j').
  - intros j1 j2 x. rewrite !lookup_insert_Some. intros [[<- <-]|[H1 H2]] [[<- E']|[H3 H4]]; try done.
    + by destruct (Hnp j2 q H4).
    + subst x. by destruct (Hnp j1 q H2).
    + by apply (sa_inj _ _ _ _ _ _ _ Hs j1 j2 x).
  - intros p. simpl. rewrite M7, (sa_used _ _ _ _ _ _ _ Hs), (new_tables_trans T0 T T') by (done || apply Hs).
    assert (Hx : (exists j', <[j:=q]> P !! j' = Some p) <-> (exists j', P !! j' = Some p) \/ p = q).
    { split.
      - intros (j' & [[_ <-]|[_ Hx]]%lookup_insert_Some); [by right|left; eauto].
      - intros [(j' & Hx)| ->]; [|exists j; by rewrite lookup_insert_eq]. exists j'. apply lookup_insert_Some. right. split; [|done]. intros <-. congruence. }
    rewrite Hx. tauto.
  - intros va Hva. destruct M8 as (_ & _ & _ & _ & _ & _ & M8). specialize (M8 va Hva).
    change (nx_pt_query root va (set_data s2 q zs)) with (nx_pt_query root va s2). unfold stack_query.
    destruct (decide (va / NX_PAGE_4K = kstack_va i j / NX_PAGE_4K)) as [Ed|Ed].
    + destruct M8 as [_ ->]. rewrite (proj1 (stack_index i j va Hi Hj) Ed), lookup_insert_eq. change (NX_PAGE_4K =? NX_PAGE_2M) with false. by rewrite Z.lor_0_r.
    + assert (Hne : j <> (va - kstack_bottom i) / NX_PAGE_4K) by (intros Ex; apply Ed, (stack_index i j va Hi Hj); done).
      rewrite M8, lookup_insert_ne by done. apply (sa_map _ _ _ _ _ _ _ Hs va Hva).
  - intros j' x y. simpl. unfold store_bytes. rewrite Hz2. unfold NX_PAGE_4K in *. rewrite lookup_insert_Some. intros [[<- <-]|[Hne Hx]] Hy.
    + rewrite (proj2 (Z.leb_le _ _)), (proj2 (Z.ltb_lt _ _)) by lia. cbn [andb]. apply Hz1. lia.
    + rewrite M6, (sa_zero _ _ _ _ _ _ _ Hs j' x y Hx Hy). destruct (_ && _) eqn:Eb; [|done]. breflect. apply Hz1. lia.
  - intros x Hx. simpl. unfold store_bytes. rewrite Hz2, M6. destruct (_ && _) eqn:Eb; [|by apply Hs]. breflect. exfalso.
    apply Hnu0. replace q with (page_base x); [done|]. unfold page_base. destruct Hal as [_ Hal]. unfold NX_PAGE_4K in *. dlia.
Qed.

(** Giving back a page that is no table and not mapped. *)
Lemma give_back T s q : pt_ok root T s -> page_used (v_pmm (pt_ctx s)) q -> T !! q = None ->
  let s' := set_ctx s (nx_page_free (pt_ctx s) q) in
  pt_ok root T s' /\ v_panic (pt_ctx s') = v_panic (pt_ctx s) /\ v_data (pt_ctx s') = v_data (pt_ctx s) /\
  forall p, page_used (v_pmm (pt_ctx s')) p <-> page_used (v_pmm (pt_ctx s)) p /\ p <> q.
Proof.
  intros (Hinv & Hwf & Hu) Hq HT. simpl in Hinv, Hu. destruct (page_free_used (pt_ctx s) q Hinv Hq) as (F1 & F2 & F3 & F4 & F5 & F6).
  split; [|done]. split; [exact F1|]. split; [exact Hwf|]. intros t x Ht. simpl. apply F6. split; [by eapply Hu|]. intros ->. congruence.
Qed.

(** A page that could not be mapped. *)
Lemma stack_refused P T s q p' j st s2 :
  at_ P T s -> nx_pmm_alloc (v_pmm (pt_ctx s)) = (q, p') -> q <> 0 -> 0 <= j < NX_KSTACK_PAGES ->
  nx_vmm_map_page root (kstack_va i j) q kstack_flags (set_pmm s p') = (st, s2) -> st <> NX_PT_OK ->
  exists T', at_ P T' (set_ctx s2 (nx_page_free (pt_ctx s2) q)).
Proof.
  intros Hs E Hz Hj Em Hst. destruct (stack_take P T s q p' Hs E) as (_ & _ & Hq). destruct (Hq Hz) as [_ Hnu].
  pose proof (stack_map P T s q p' (kstack_va i j) Hs E Hz (kstack_va_fits i j Hi Hj)) as Hm. cbv zeta in Hm. unfold nx_vmm_map_page in Em.
  rewrite Em in Hm. cbn [fst snd] in Hm. rewrite decide_False in Hm by done. destruct Hm as (T' & M1 & M2 & M3 & M4 & M5 & M6 & M7 & M8).
  destruct (give_back T' s2 q M1) as (G1 & G2 & G3 & G4); [apply M7; tauto|done|]. exists T'. split.
  - exact G1.
  - etrans; [apply Hs|done].
  - by rewrite G2.
  - intros j' x Hx. destruct (sa_page _ _ _ _ _ _ _ Hs j' x Hx) as (? & ? & ? & _). split_and!; try done; try lia. by apply (M4 j').
  - apply Hs.
  - intros p. rewrite G4, M7, (new_tables_trans T0 T T') by (done || apply Hs). pose proof (sa_used _ _ _ _ _ _ _ Hs p) as Hu.
    split; [rewrite Hu; tauto|]. intros Hp. split; [rewrite Hu; tauto|]. intros ->.
    destruct Hp as [Hp|[Hp|[Hp|[_ Hp]]]]; [apply Hnu, Hu; tauto..|]. by rewrite M3 in Hp; destruct Hp.
  - intros va Hva. change (nx_pt_query root va (set_ctx s2 (nx_page_free (pt_ctx s2) q))) with (nx_pt_query root va s2).
    rewrite (M8 va Hva). apply (sa_map _ _ _ _ _ _ _ Hs va Hva).
  - intros j' x y. rewrite G3, M6. apply Hs.
  - intros x. rewrite G3, M6. apply Hs.
Qed.

Lemma unmap_fits va (s : vst) pa size s' : nx_pt_unmap root va s = (inr (pa, size), s') -> fits 64 pa /\ pt_ctx s' = pt_ctx s.
Proof.
  unfold nx_pt_unmap. destruct (find_leaf root va s) as [|[[t k] sz]]; [done|]. intros [= <- <- <-]. split; [|done].
  rewrite Z.land_comm. apply fits_land; [lia|apply wrap_fits; lia|]. apply Z.land_nonneg. by right.
Qed.

(** Removing the mapping of page [j], if there is one. *)
Lemma stack_pop P T s j :
  at_ P T s -> stack_free root i s0 -> 0 <= j < NX_KSTACK_PAGES -> at_ (delete j P) T (kstack_unmap root i s j).
Proof.
  intros Hs Hf Hj. pose proof (kstack_va_fits i j Hi Hj) as Hva. pose proof (sa_map _ _ _ _ _ _ _ Hs _ Hva) as Hq.
  unfold stack_query in Hq. rewrite kstack_index_self in Hq by done. unfold kstack_unmap, nx_vmm_unmap_page.
  pose proof (unmap_cases root T s (kstack_va i j) (sa_ok _ _ _ _ _ _ _ Hs) Hva) as Hu.
  destruct (nx_pt_unmap root (kstack_va i j) s) as [[st|[pa size]] s1] eqn:Eu.
  { destruct Hu as [-> E]. rewrite Hq in E. destruct (P !! j) eqn:EP; [done|]. by rewrite delete_id. }
  apply unmap_fits in Eu as [Hpa Ec]. destruct Hu as (U1 & (fl & U2) & U3). rewrite Hq in U2.
  destruct (P !! j) as [q|] eqn:EP; [|rewrite (Hf _ Hva) in U2 by (by rewrite kstack_index_self); done]. injection U2 as Eq _ Esz. subst size.
  destruct (sa_page _ _ _ _ _ _ _ Hs j q EP) as (_ & Hal & Hnu & HT).
  assert (E0 : kstack_va i j mod NX_PAGE_4K = 0).
  { destruct (kstack_va_eq i j Hi Hj) as [-> _]. unfold NX_PAGE_4K. clear. dlia. }
  assert (pa = q) as ->.
  { change (NX_PAGE_4K - 1) with (Z.ones 12) in Eq. rewrite Z.land_ones in Eq by lia. change (2 ^ 12) with NX_PAGE_4K in Eq.
    rewrite E0, !Z.add_0_r, wrap_small in Eq by done. done. }
  destruct (give_back T s1 q U1) as (G1 & G2 & G3 & G4); [rewrite Ec; apply (sa_used _ _ _ _ _ _ _ Hs); right; left; eauto|done|].
  rewrite Ec in G2, G3, G4 |- *. split.
  - rewrite <- Ec. exact G1.
  - apply Hs.
  - rewrite G2. apply Hs.
  - intros j' x [_ Hx]%lookup_delete_Some. by apply (sa_page _ _ _ _ _ _ _ Hs j').
  - intros j1 j2 x [_ H1]%lookup_delete_Some [_ H2]%lookup_delete_Some. by apply (sa_inj _ _ _ _ _ _ _ Hs j1 j2 x).
  - intros p. rewrite G4, (sa_used _ _ _ _ _ _ _ Hs).
    assert (Hx : (exists j', delete j P !! j' = Some p) <-> (exists j', P !! j' = Some p) /\ p <> q).
    { split.
      - intros (j' & [Hne Hx]%lookup_delete_Some). split; [eauto|]. intros ->. by apply Hne, (sa_inj _ _ _ _ _ _ _ Hs j j' q).
      - intros [(j' & Hx) Hne]. exists j'. apply lookup_delete_Some. split; [|done]. intros <-. congruence. }
    rewrite Hx. split; [tauto|]. intros [Hp|[[Hp Hne]|Hp]]; (split; [tauto|]); [by intros ->|done|]. intros ->. destruct Hp as [_ [y Hy]]. congruence.
  - intros va Hv. change (nx_pt_query root va (set_ctx s1 (nx_page_free (pt_ctx s) q))) with (nx_pt_query root va s1). rewrite (U3 va Hv).
    unfold stack_query. destruct (decide (va / NX_PAGE_4K = kstack_va i j / NX_PAGE_4K)) as [Ed|Ed].
    + pose proof (proj1 (stack_index i j va Hi Hj) Ed) as Ex. rewrite Ex, lookup_delete_eq.
      symmetry. apply Hf; [done|by rewrite Ex].
    + assert (Hne : j <> (va - kstack_bottom i) / NX_PAGE_4K) by (intros Ex; apply Ed, (stack_index i j va Hi Hj); done).
      rewrite lookup_delete_ne by done. apply (sa_map _ _ _ _ _ _ _ Hs va Hv).
  - intros j' x y [_ Hx]%lookup_delete_Some. rewrite G3. by apply (sa_zero _ _ _ _ _ _ _ Hs j').
  - intros x. rewrite G3. apply Hs.
Qed.

Lemma stack_freed P T s : at_ P T s -> stack_free root i s0 -> at_ ∅ T (kstack_free root i s).
Proof.
  intros Hs Hf.
  destruct (for_seqZ (fun k s' => exists P', at_ P' T s' /\ forall j, j < k -> P' !! j = None) (kstack_unmap root i) 0 NX_KSTACK_PAGES s)
    as (P' & Hs' & Hn); [done| | |].
  - exists P. split; [done|]. intros j Hj. destruct (P !! j) as [q|] eqn:E; [|done]. destruct (sa_page _ _ _ _ _ _ _ Hs j q E). lia.
  - intros k s' Hk (P' & Hs' & Hn). exists (delete k P'). split; [by apply stack_pop|]. intros j Hj.
    destruct (decide (j = k)) as [->|]; [apply lookup_delete_eq|]. rewrite lookup_delete_ne by done. apply Hn. lia.
  - assert (P' = ∅) as ->; [|exact Hs']. apply map_empty. intros j. destruct (P' !! j) as [q|] eqn:E; [|done].
    destruct (sa_page _ _ _ _ _ _ _ Hs' j q E) as [Hj _]. rewrite Hn in E by lia. done.
Qed.

(** The pages [0 .. j - 1] are there. *)
Definition pages_below (P : gmap Z Z) (j : Z) : Prop := forall k, is_Some (P !! k) <-> 0 <= k < j.

Lemma kstack_pages_spec n : forall j P T s, at_ P T s -> stack_free root i s0 -> 0 <= j -> j + Z.of_nat n = NX_KSTACK_PAGES -> pages_below P j ->
  let r := kstack_pages n j root i s in
  exists P' T', at_ P' T' r.2 /\ if r.1 then pages_below P' NX_KSTACK_PAGES else P' = ∅.
Proof.
  induction n as [|n IH]; intros j P T s Hs Hf Hj Hn HP; cbn [kstack_pages].
  { exists P, T. replace NX_KSTACK_PAGES with j by lia. done. }
  assert (Hj' : 0 <= j < NX_KSTACK_PAGES) by lia.
  assert (HPj : P !! j = None) by (destruct (P !! j) eqn:E; [|done]; assert (0 <= j < j) by (apply HP; eauto); lia).
  destruct (nx_pmm_alloc (v_pmm (pt_ctx s))) as [q p'] eqn:Ea. cbn [fst snd]. destruct (Z.eqb_spec q 0) as [->|Hz].
  { exists ∅, T. split; [|done]. eapply stack_freed; [by eapply stack_nomem|done]. }
  destruct (nx_vmm_map_page root (kstack_va i j) q kstack_flags (set_pmm s p')) as [st s2] eqn:Em.
  destruct (decide (st = NX_PT_OK)) as [->|Hst].
  - destruct (stack_push P T s q p' j s2 Hs Ea Hz Hj' HPj Em) as (T' & Hs'). apply (IH (j + 1) _ T' _ Hs'); try done; try lia.
    intros k. rewrite lookup_insert_is_Some. rewrite (HP k). lia.
  - destruct (stack_refused P T s q p' j st s2 Hs Ea Hz Hj' Em Hst) as (T' & Hs'). exists ∅, T'.
    destruct st; try done; (split; [|done]); by eapply stack_freed.
Qed.
End stack.

(** The guard page of any slot. *)
Lemma stack_guard root i i' T0 s0 P T s va : stack_at root i T0 s0 P T s -> slot_ok i -> slot_ok i' ->
  kstack_bottom i' - NX_PAGE_4K <= va < kstack_bottom i' -> nx_pt_query root va s = nx_pt_query root va s0.
Proof.
  intros Hs Hi Hi' Hva. destruct (kstack_va_eq i 0 Hi ltac:(done)) as [_ Eb]. destruct (kstack_va_eq i' 0 Hi' ltac:(done)) as [_ Eb'].
  unfold slot_ok, NX_TASK_MAX, NX_PAGE_4K in *. rewrite (sa_map _ _ _ _ _ _ _ Hs) by (unfold fits; lia). unfold stack_query.
  destruct (P !! _) as [q|] eqn:E; [|done]. exfalso. apply (sa_page _ _ _ _ _ _ _ Hs) in E as [Hj _].
  rewrite Eb, Eb' in *. unfold NX_KSTACK_PAGES, NX_PAGE_4K in *. dlia.
Qed.

Lemma stack_canonical i va : slot_ok i -> 0 <= (va - kstack_bottom i) / NX_PAGE_4K < NX_KSTACK_PAGES -> nx_pt_is_canonical va = true.
Proof.
  intros Hi Hr. destruct (kstack_va_eq i 0 Hi ltac:(done)) as [_ Eb]. rewrite Eb in Hr. unfold slot_ok, NX_TASK_MAX, NX_PAGE_4K, NX_KSTACK_PAGES in *.
  unfold nx_pt_is_canonical. rewrite Z.shiftr_div_pow2 by lia. change (2 ^ 47) with 140737488355328.
  replace (va / 140737488355328) with 0x1FFFF by dlia. done.
Qed.

(** ** Theorems *)

(** C30: the kernel stack of a task.  When no address of the stack of slot [i] is mapped,
    [kstack_alloc] either succeeds, with exactly the four pages of the stack mapped to
    zeroed pages that were free, writable, not executable and closed to user mode, or it
    reports NX_ENOMEM and every address is mapped as before.  Either way memory in use is
    not written, the guard pages of all stacks stay as they are, and besides the stack the
    allocator gives out pages only for page tables that stay linked.  [kstack_free] undoes
    a successful allocation. *)
Theorem kstack_correct root i T s :
  pt_ok root T s -> v_panic (pt_ctx s) = false -> slot_ok i -> stack_free root i s ->
  let r := kstack_alloc root i s in
  exists P T1, stack_at root i T s P T1 r.2 /\
    (forall i' va, slot_ok i' -> kstack_bottom i' - NX_PAGE_4K <= va < kstack_bottom i' -> nx_pt_query root va r.2 = nx_pt_query root va s) /\
    if r.1 then pages_below P NX_KSTACK_PAGES /\ stack_at root i T s ∅ T1 (kstack_free root i r.2) else P = ∅.
Proof.
  intros Hok Hp Hi Hf. cbv zeta. destruct (kstack_pages_spec root i T s Hi (Z.to_nat NX_KSTACK_PAGES) 0 ∅ T s) as (P & T1 & Hs & Hr); try done.
  - by apply stack_start.
  - intros k. rewrite lookup_empty. split; [by intros [? ?]|lia].
  - exists P, T1. split; [exact Hs|]. split; [intros i' va Hi' Hva; by eapply stack_guard|]. fold (kstack_alloc root i s) in *.
    destruct (kstack_alloc root i s) as [[] s1]; [split; [done|]; by eapply stack_freed|done].
Qed.

(** ** Witness *)

(** A root table on a machine with a little more than 1 MiB. *)
Definition tiny_root : Z * vst := match nx_pt_new_root tiny_vmm with (inr root, s) => (root, s) | (inl _, s) => (0, s) end.

Lemma kstack_correct_witness : exists s1, kstack_alloc tiny_root.1 3 tiny_root.2 = (true, s1) /\
  exists P T1, stack_at tiny_root.1 3 {[tiny_root.1 := (3%nat, 0)]} tiny_root.2 P T1 s1.
Proof.
  assert (Hn : nx_pt_new_root tiny_vmm = (inr tiny_root.1, tiny_root.2)) by (vm_compute; reflexivity).
  destruct (new_root_ok tiny_vmm tiny_root.2 tiny_root.1 tiny_pmm_ok Hn) as [Hok H0].
  assert (Hi : slot_ok 3) by (unfold slot_ok, NX_TASK_MAX; lia).
  assert (Hf : stack_free tiny_root.1 3 tiny_root.2).
  { intros va Hva Hr. apply (empty_root_maps _ _ _ Hok H0 va Hva). by apply (stack_canonical 3). }
  assert (Hp : v_panic (pt_ctx tiny_root.2) = false) by (vm_compute; reflexivity).
  assert (Hc : (kstack_alloc tiny_root.1 3 tiny_root.2).1 = true) by (vm_compute; reflexivity).
  destruct (kstack_correct tiny_root.1 3 _ tiny_root.2 Hok Hp Hi Hf) as (P & T1 & Hs & _).
  destruct (kstack_alloc tiny_root.1 3 tiny_root.2) as [ok s1]. simpl in Hc. subst ok. exists s1. split; [reflexivity|]. exists P, T1. exact Hs.
Defined.
