(* ===== verification/Json.v ===== *)
(** * JSON writer and span reader

    [lib/http/json.c] and [nanox/json.h]: the bounded writer of request bodies and
    the reader that validates, searches and decodes spans of a received text
    without building a tree.

    Memory is explicit: a read outside a span, a write outside a buffer and an
    exhausted loop bound are the outcome [None] of a definition; a malformed text
    is the inner [None] of the functions that skip a part of it.  Positions are
    32-bit.  A span ([struct jspan]) is the list of its bytes. *)
From S2P Require Import Prelude Bytes.

(** ** Data *)

Definition JSON_DEPTH_MAX : Z := 32.

(** [struct jw]; [w_mem] is the memory behind [p]. *)
Record jw := mk_jw { w_mem : list Z; w_cap : Z; w_len : Z; w_overflow : bool }.

Inductive json_type_t : Set :=
  | JSON_BAD | JSON_OBJECT | JSON_ARRAY | JSON_STRING | JSON_NUMBER | JSON_TRUE | JSON_FALSE | JSON_NULL.

(** The characters of the syntax. *)
Definition QUOTE : Z := 34.
Definition BSLASH : Z := 92.
Definition LBRACE : Z := 123.
Definition RBRACE : Z := 125.
Definition LBRACK : Z := 91.
Definition RBRACK : Z := 93.
Definition COLON : Z := 58.
Definition COMMA : Z := 44.

Definition len (s : list Z) : Z := Z.of_nat (length s).

(** The length of the string at the start of a buffer; [None] if it has no end there. *)
Fixpoint cstrlen (s : list Z) : option Z :=
  match s with
  | [] => None
  | c :: s' => if c =? 0 then Some 0 else n ← cstrlen s'; Some (u32 (n + 1))
  end.

(** Writing one byte; [None] outside the memory. *)
Definition wr8 (m : list Z) (i x : Z) : option (list Z) :=
  if (0 <=? i) && (i <? len m) then Some (m.[i := x]) else None.

(** ** Writer *)

Definition jw_init (mem : list Z) (cap : Z) : option jw :=
  if negb (cap =? 0) then m ← wr8 mem 0 0; Some (mk_jw m cap 0 false) else Some (mk_jw mem cap 0 false).

Fixpoint copy_bytes (m : list Z) (at_ : Z) (s : list Z) : option (list Z) :=
  match s with
  | [] => Some m
  | x :: s' => m' ← wr8 m at_ x; copy_bytes m' (u32 (at_ + 1)) s'
  end.

Definition jw_raw (w : jw) (s : list Z) : option jw :=
  let n := len s in
  if w_overflow w || (n >? u32 (w_cap w - w_len w)) || (u32 (u32 (w_cap w - w_len w) - n) <? 1)
  then Some (mk_jw (w_mem w) (w_cap w) (w_len w) true)
  else
    m ← copy_bytes (w_mem w) (w_len w) s;
    let l := u32 (w_len w + n) in
    m' ← wr8 m l 0;
    Some (mk_jw m' (w_cap w) l (w_overflow w)).

Definition jw_rawz (w : jw) (s : list Z) : option jw :=
  n ← cstrlen s; jw_raw w (take (Z.to_nat n) s).

(** The loop over the continuation bytes: the code point, or [None] (inner) for an
    invalid one. *)
Fixpoint utf8_cont (s : list Z) (i : Z) (n : nat) (cp : Z) : option (option Z) :=
  match n with
  | O => Some (Some cp)
  | S n' =>
      c ← rd8 s i;
      if negb (c &. 0xC0 =? 0x80) then Some None else utf8_cont s (i + 1) n' (u32 (cp <<. 6) |. (c &. 0x3F))
  end.

Definition utf8_seq (s : list Z) : option Z :=
  let n := len s in
  c ← rd8 s 0;
  if c <? 0x80 then Some 1
  else
    match (if (c >=? 0xC2) && (c <=? 0xDF) then Some (2, c &. 0x1F)
           else if (c >=? 0xE0) && (c <=? 0xEF) then Some (3, c &. 0x0F)
           else if (c >=? 0xF0) && (c <=? 0xF4) then Some (4, c &. 0x07) else None) with
    | None => Some 0
    | Some (l, cp) =>
        if l >? n then Some 0
        else
          r ← utf8_cont s 1 (Z.to_nat (l - 1)) cp;
          match r with
          | None => Some 0
          | Some cp =>
              if ((l =? 3) && (cp <? 0x800)) || ((l =? 4) && ((cp <? 0x10000) || (cp >? 0x10FFFF))) ||
                 ((cp >=? 0xD800) && (cp <=? 0xDFFF))
              then Some 0 else Some l
          end
    end.

(** [hex[k]] *)
Definition hex_char (k : Z) : Z := if k <? 10 then 48 + k else 97 + (k - 10).

(** What [jw_str] writes for the text at a position, and how far it goes. *)
Definition jw_char (s : list Z) (i : Z) : option (list Z * Z) :=
  c ← rd8 s i;
  if (c =? QUOTE) || (c =? BSLASH) then Some ([BSLASH; c], 1)
  else if c =? 10 then Some ([BSLASH; 110], 1)
  else if c =? 13 then Some ([BSLASH; 114], 1)
  else if c =? 9 then Some ([BSLASH; 116], 1)
  else if (c <? 0x20) || (c =? 0x7F) then Some ([BSLASH; 117; 48; 48; hex_char (c >>. 4); hex_char (c &. 15)], 1)
  else
    let t := drop (Z.to_nat i) s in
    k ← utf8_seq t;
    if k =? 0 then Some ([BSLASH; 117; 102; 102; 102; 100], 1) else Some (take (Z.to_nat k) t, k).

Fixpoint jw_str_loop (fuel : nat) (w : jw) (s : list Z) (i : Z) : option jw :=
  if (i <? len s) && negb (w_overflow w) then
    match fuel with
    | O => None
    | S fuel' =>
        r ← jw_char s i;
        w' ← jw_raw w r.1;
        jw_str_loop fuel' w' s (u32 (i + r.2))
    end
  else Some w.

Definition jw_str (w : jw) (s : list Z) : option jw :=
  w ← jw_raw w [QUOTE];
  w ← jw_str_loop (length s) w s 0;
  jw_raw w [QUOTE].

Definition jw_strz (w : jw) (s : list Z) : option jw :=
  n ← cstrlen s; jw_str w (take (Z.to_nat n) s).

(** The digits of [v], the last one first; 24 are enough for 64 bits. *)
Fixpoint u64_digits (fuel : nat) (v : Z) : option (list Z) :=
  match fuel with
  | O => None
  | S fuel' =>
      let d := 48 + v mod 10 in
      if v / 10 =? 0 then Some [d] else r ← u64_digits fuel' (v / 10); Some (d :: r)
  end.

Definition jw_u64 (w : jw) (v : Z) : option jw :=
  t ← u64_digits 24 v;
  jw_raw w (reverse t).

(** ** Reader: skipping parts of a text *)

Definition is_ws (c : Z) : bool := (c =? 32) || (c =? 9) || (c =? 10) || (c =? 13).

Fixpoint ws_loop (fuel : nat) (s : list Z) (i : Z) : option Z :=
  if i <? len s then
    c ← rd8 s i;
    if is_ws c then match fuel with O => None | S fuel' => ws_loop fuel' s (u32 (i + 1)) end else Some i
  else Some i.

Definition ws (s : list Z) (i : Z) : option Z := ws_loop (length s) s i.

Definition hexval (c : Z) : Z :=
  if (c >=? 48) && (c <=? 57) then c - 48
  else if (c >=? 97) && (c <=? 102) then c - 97 + 10
  else if (c >=? 65) && (c <=? 70) then c - 65 + 10
  else -1.

(** [for (k = 1; k <= 4; k++)] from [k] on, [n] to go. *)
Fixpoint hex_ok (n : nat) (s : list Z) (i k : Z) : option bool :=
  match n with
  | O => Some true
  | S n' => c ← rd8 s (u32 (i + k)); if hexval c <? 0 then Some false else hex_ok n' s i (k + 1)
  end.

Definition simple_escape (e : Z) : bool :=
  (e =? QUOTE) || (e =? BSLASH) || (e =? 47) || (e =? 98) || (e =? 102) || (e =? 110) || (e =? 114) || (e =? 116).

Fixpoint skip_str_loop (fuel : nat) (s : list Z) (i : Z) : option (option Z) :=
  if i <? len s then
    match fuel with
    | O => None
    | S fuel' =>
        c ← rd8 s i;
        if c =? QUOTE then Some (Some (u32 (i + 1)))
        else if c <? 0x20 then Some None
        else if c =? BSLASH then
          let i := u32 (i + 1) in
          if i >=? len s then Some None
          else
            e ← rd8 s i;
            if e =? 117 then
              if u32 (i + 4) >=? len s then Some None
              else
                h ← hex_ok 4 s i 1;
                if (h : bool) then skip_str_loop fuel' s (u32 (u32 (i + 4) + 1)) else Some None
            else if negb (simple_escape e) then Some None
            else skip_str_loop fuel' s (u32 (i + 1))
        else skip_str_loop fuel' s (u32 (i + 1))
    end
  else Some None.

Definition skip_string (s : list Z) (i : Z) : option (option Z) :=
  if i >=? len s then Some None
  else
    c ← rd8 s i;
    if negb (c =? QUOTE) then Some None else skip_str_loop (length s) s (u32 (i + 1)).

Definition is_digit (c : Z) : bool := (c >=? 48) && (c <=? 57).

Fixpoint digits_loop (fuel : nat) (s : list Z) (i : Z) : option Z :=
  if i <? len s then
    c ← rd8 s i;
    if is_digit c then match fuel with O => None | S fuel' => digits_loop fuel' s (u32 (i + 1)) end else Some i
  else Some i.

Definition digits (s : list Z) (i : Z) : option (option Z) :=
  j ← digits_loop (length s) s i;
  Some (if j >? i then Some j else None).

(** [*i < len && p(s[*i])] *)
Definition peek (s : list Z) (i : Z) (p : Z -> bool) : option bool :=
  if i <? len s then c ← rd8 s i; Some (p c) else Some false.

Definition skip_number (s : list Z) (i : Z) : option (option Z) :=
  minus ← peek s i (Z.eqb 45);
  let i := if (minus : bool) then u32 (i + 1) else i in
  zero ← peek s i (Z.eqb 48);
  r ← (if (zero : bool) then Some (Some (u32 (i + 1))) else digits s i);
  match r with
  | None => Some None
  | Some i =>
      dot ← peek s i (Z.eqb 46);
      r ← (if (dot : bool) then digits s (u32 (i + 1)) else Some (Some i));
      match r with
      | None => Some None
      | Some i =>
          e ← peek s i (fun c => (c =? 101) || (c =? 69));
          if (e : bool) then
            let i := u32 (i + 1) in
            sign ← peek s i (fun c => (c =? 43) || (c =? 45));
            digits s (if (sign : bool) then u32 (i + 1) else i)
          else Some (Some i)
      end
  end.

Fixpoint lit_eq (s : list Z) (i : Z) (lit : list Z) : option bool :=
  match lit with
  | [] => Some true
  | x :: lit' => c ← rd8 s i; if negb (c =? x) then Some false else lit_eq s (u32 (i + 1)) lit'
  end.

Definition skip_lit (s : list Z) (i : Z) (lit : list Z) : option (option Z) :=
  if u32 (len s - i) <? len lit then Some None
  else r ← lit_eq s i lit; Some (if (r : bool) then Some (u32 (i + len lit)) else None).

Definition LIT_TRUE : list Z := [116; 114; 117; 101].
Definition LIT_FALSE : list Z := [102; 97; 108; 115; 101].
Definition LIT_NULL : list Z := [110; 117; 108; 108].

(** The part [s + a, b - a] of a text. *)
Definition span (s : list Z) (a b : Z) : list Z := take (Z.to_nat (b - a)) (drop (Z.to_nat a) s).

(** A key and the colon after it: the key's literal and where the value starts. *)
Definition skip_key (s : list Z) (i : Z) : option (option (list Z * Z)) :=
  r ← skip_string s i;
  match r with
  | None => Some None
  | Some j =>
      k ← ws s j;
      colon ← peek s k (Z.eqb COLON);
      if (colon : bool) then m ← ws s (u32 (k + 1)); Some (Some (span s i j, m)) else Some None
  end.

(** One value, and the loop over the members ([obj]) or elements of a container. *)
Fixpoint skip_value (fuel : nat) (s : list Z) (i depth : Z) : option (option Z) :=
  if i >=? len s then Some None
  else
    c ← rd8 s i;
    if c =? QUOTE then skip_string s i
    else if (c =? 45) || is_digit c then skip_number s i
    else if c =? 116 then skip_lit s i LIT_TRUE
    else if c =? 102 then skip_lit s i LIT_FALSE
    else if c =? 110 then skip_lit s i LIT_NULL
    else if negb (c =? LBRACE) && negb (c =? LBRACK) then Some None
    else if depth >=? JSON_DEPTH_MAX then Some None
    else
      let obj := c =? LBRACE in
      i ← ws s (u32 (i + 1));
      empty ← peek s i (Z.eqb (if obj then RBRACE else RBRACK));
      if (empty : bool) then Some (Some (u32 (i + 1)))
      else match fuel with O => None | S fuel' => skip_items fuel' s i depth obj end
with skip_items (fuel : nat) (s : list Z) (i depth : Z) (obj : bool) : option (option Z) :=
  match fuel with
  | O => None
  | S fuel' =>
      r ← (if obj then skip_key s i else Some (Some ([], i)));
      match r with
      | None => Some None
      | Some (_, i) =>
          r ← skip_value fuel' s i (depth + 1);
          match r with
          | None => Some None
          | Some i =>
              i ← ws s i;
              if i >=? len s then Some None
              else
                c ← rd8 s i;
                if c =? (if obj then RBRACE else RBRACK) then Some (Some (u32 (i + 1)))
                else if negb (c =? COMMA) then Some None
                else i ← ws s (u32 (i + 1)); skip_items fuel' s i depth obj
          end
      end
  end.

(** Enough for any text of that length. *)
Definition value_fuel (s : list Z) : nat := 2 * length s + 2.

Definition json_valid (s : list Z) : option bool :=
  i ← ws s 0;
  r ← skip_value (value_fuel s) s i 0;
  match r with
  | None => Some false
  | Some i => i ← ws s i; Some (i =? len s)
  end.

(** ** Reader: spans *)

Fixpoint drop_ws (v : list Z) : list Z :=
  match v with
  | [] => []
  | c :: v' => if is_ws c then drop_ws v' else v
  end.

(** Whitespace off the front, then off the back. *)
Definition trim (v : list Z) : list Z := reverse (drop_ws (reverse (drop_ws v))).

Definition json_type (v : list Z) : option json_type_t :=
  let v := trim v in
  if len v =? 0 then Some JSON_BAD
  else
    r ← skip_value (value_fuel v) v 0 0;
    match r with
    | None => Some JSON_BAD
    | Some i =>
        if negb (i =? len v) then Some JSON_BAD
        else
          c ← rd8 v 0;
          Some (if c =? LBRACE then JSON_OBJECT else if c =? LBRACK then JSON_ARRAY
                else if c =? QUOTE then JSON_STRING else if c =? 116 then JSON_TRUE
                else if c =? 102 then JSON_FALSE else if c =? 110 then JSON_NULL else JSON_NUMBER)
    end.

(** [hexval(s[i]) << 12 | ... | hexval(s[i + 3])] *)
Definition hex4 (s : list Z) (i : Z) : option Z :=
  a ← rd8 s i; b ← rd8 s (u32 (i + 1)); c ← rd8 s (u32 (i + 2)); d ← rd8 s (u32 (i + 3));
  Some ((hexval a <<. 12) |. (hexval b <<. 8) |. (hexval c <<. 4) |. hexval d).

(** The code point of the escape [\u] whose digits start at [i], a surrogate pair
    included, and the position after it. *)
Definition decode_u (s : list Z) (i : Z) : option (Z * Z) :=
  cp ← hex4 s i;
  let i := u32 (i + 4) in
  pair ← (if (cp >=? 0xD800) && (cp <=? 0xDBFF) && (u32 (i + 5) <? len s) then
            a ← rd8 s i;
            if a =? BSLASH then b ← rd8 s (u32 (i + 1)); Some (b =? 117) else Some false
          else Some false);
  r ← (if (pair : bool) then
         lo ← hex4 s (u32 (i + 2));
         Some (if (lo >=? 0xDC00) && (lo <=? 0xDFFF)
               then (0x10000 + ((cp - 0xD800) <<. 10) + (lo - 0xDC00), u32 (i + 6)) else (cp, i))
       else Some (cp, i));
  let cp := r.1 in
  Some (if (cp >=? 0xD800) && (cp <=? 0xDFFF) then 0xFFFD else cp, r.2).

(** The bytes [u[0..k)] of a code point. *)
Definition utf8_enc (cp : Z) : list Z :=
  if cp <? 0x80 then [cp]
  else if cp <? 0x800 then [0xC0 |. (cp >>. 6); 0x80 |. (cp &. 0x3F)]
  else if cp <? 0x10000 then [0xE0 |. (cp >>. 12); 0x80 |. ((cp >>. 6) &. 0x3F); 0x80 |. (cp &. 0x3F)]
  else [0xF0 |. (cp >>. 18); 0x80 |. ((cp >>. 12) &. 0x3F); 0x80 |. ((cp >>. 6) &. 0x3F); 0x80 |. (cp &. 0x3F)].

(** The code point of the escape whose letter is at [i]. *)
Definition decode_escape (s : list Z) (i : Z) : option (Z * Z) :=
  e ← rd8 s i;
  let i := u32 (i + 1) in
  if e =? 98 then Some (8, i) else if e =? 102 then Some (12, i) else if e =? 110 then Some (10, i)
  else if e =? 114 then Some (13, i) else if e =? 116 then Some (9, i)
  else if e =? 117 then decode_u s i
  else Some (e, i).

(** [out] is the buffer; the result is the number of bytes decoded (inner [None]: -1) and
    the buffer. *)
Fixpoint decode_loop (fuel : nat) (s : list Z) (i o cap : Z) (out : list Z) : option (option Z * list Z) :=
  if u32 (i + 1) <? len s then
    match fuel with
    | O => None
    | S fuel' =>
        c ← rd8 s i;
        if negb (c =? BSLASH) then
          if u32 (o + 1) >=? cap then Some (None, out)
          else out ← wr8 out o c; decode_loop fuel' s (u32 (i + 1)) (u32 (o + 1)) cap out
        else
          r ← decode_escape s (u32 (i + 1));
          if r.1 =? 0 then Some (None, out)
          else
            let u := utf8_enc r.1 in
            if u32 (o + len u) >=? cap then Some (None, out)
            else out ← copy_bytes out o u; decode_loop fuel' s r.2 (u32 (o + len u)) cap out
    end
  else out ← wr8 out o 0; Some (Some o, out).

Definition decode_string (s : list Z) (out : list Z) (cap : Z) : option (option Z * list Z) :=
  r ← skip_string s 0;
  match r with
  | None => Some (None, out)
  | Some i =>
      if negb (i =? len s) || (cap =? 0) then Some (None, out) else decode_loop (length s) s 1 0 cap out
  end.

Definition json_string (v : list Z) (out : list Z) (cap : Z) : option (option Z * list Z) :=
  decode_string (trim v) out cap.

(** Does the decoded key literal equal [key]?  [kb] has 64 bytes. *)
Definition key_match (lit key : list Z) : option bool :=
  r ← (if len lit <=? 128 then decode_string lit (repeat 0 64) 64 else Some (None, []));
  Some (match r.1 with
        | Some kn => (kn =? len key) && bool_decide (take (Z.to_nat kn) r.2 = key)
        | None => false
        end).

(** The results 1, 0 and -1 of the lookups. *)
Inductive jfind (A : Type) : Type :=
  | Found (x : A) | Absent | Malformed.
Arguments Found {A} x.
Arguments Absent {A}.
Arguments Malformed {A}.

Fixpoint member_loop (fuel : nat) (s key : list Z) (i : Z) : option (jfind (list Z)) :=
  match fuel with
  | O => None
  | S fuel' =>
      r ← skip_key s i;
      match r with
      | None => Some Malformed
      | Some (lit, vs) =>
          mt ← key_match lit key;
          r ← skip_value (value_fuel s) s vs 1;
          match r with
          | None => Some Malformed
          | Some i =>
              if (mt : bool) then Some (Found (span s vs i))
              else
                i ← ws s i;
                if i >=? len s then Some Malformed
                else
                  c ← rd8 s i;
                  if c =? RBRACE then Some Absent
                  else if negb (c =? COMMA) then Some Malformed
                  else i ← ws s (u32 (i + 1)); member_loop fuel' s key i
          end
      end
  end.

Definition json_member (v key : list Z) : option (jfind (list Z)) :=
  let s := trim v in
  obj ← peek s 0 (Z.eqb LBRACE);
  if negb obj then Some Malformed
  else
    i ← ws s 1;
    e ← peek s i (Z.eqb RBRACE);
    if (e : bool) then Some (if u32 (i + 1) =? len s then Absent else Malformed)
    else member_loop (length s) s key i.

(** The elements from number [n] on: the count and, at [index], the element. *)
Fixpoint element_loop (fuel : nat) (s : list Z) (index n i : Z) (out : option (list Z)) :
  option (option (Z * option (list Z))) :=
  match fuel with
  | O => None
  | S fuel' =>
      r ← skip_value (value_fuel s) s i 1;
      match r with
      | None => Some None
      | Some j =>
          let out := if n =? index then Some (span s i j) else out in
          let n := u32 (n + 1) in
          j ← ws s j;
          if j >=? len s then Some None
          else
            c ← rd8 s j;
            if c =? RBRACK then Some (Some (n, out))
            else if negb (c =? COMMA) then Some None
            else j ← ws s (u32 (j + 1)); element_loop fuel' s index n j out
      end
  end.

(** The count and the element; [None] (inner) for -1. *)
Definition json_element (v : list Z) (index : Z) : option (option (Z * option (list Z))) :=
  let s := trim v in
  arr ← peek s 0 (Z.eqb LBRACK);
  if negb arr then Some None
  else
    i ← ws s 1;
    e ← peek s i (Z.eqb RBRACK);
    if (e : bool) then Some (Some (0, None)) else element_loop (length s) s index 0 i None.

Fixpoint u64_loop (v : list Z) (r : Z) : option Z :=
  match v with
  | [] => Some r
  | c :: v' => if (c <? 48) || (c >? 57) then None else u64_loop v' (u64 (u64 (r * 10) + (c - 48)))
  end.

(** The value, [None] for "not such a number". *)
Definition json_u64 (v : list Z) : option Z :=
  let v := trim v in
  if (len v =? 0) || (len v >? 19) then None
  else
    r ← u64_loop v 0;
    if (len v >? 1) && (v.[0] =? 48) then None else Some r.

Definition json_member_str (v key out : list Z) (cap : Z) : option (bool * list Z) :=
  m ← json_member v key;
  match m with
  | Found x => r ← json_string x out cap; Some (match r.1 with Some _ => true | None => false end, r.2)
  | _ => Some (false, out)
  end.

(** Where the member after position [pos] (0 for the first) starts. *)
Definition next_start (s : list Z) (pos : Z) : option (jfind Z) :=
  if pos =? 0 then
    i ← ws s 1;
    e ← peek s i (Z.eqb RBRACE);
    Some (if (e : bool) then if u32 (i + 1) =? len s then Absent else Malformed else Found i)
  else
    i ← ws s pos;
    if i >=? len s then Some Malformed
    else
      c ← rd8 s i;
      if c =? RBRACE then Some Absent
      else if negb (c =? COMMA) then Some Malformed
      else i ← ws s (u32 (i + 1)); Some (Found i).

(** The length of the decoded key, the value and the new position; the buffer [key] as
    it is left. *)
Definition json_next_member (v : list Z) (pos : Z) (key : list Z) (kcap : Z) :
  option (jfind (Z * list Z * Z) * list Z) :=
  let s := trim v in
  obj ← peek s 0 (Z.eqb LBRACE);
  if negb obj then Some (Malformed, key)
  else
    st ← next_start s pos;
    match st with
    | Absent => Some (Absent, key)
    | Malformed => Some (Malformed, key)
    | Found i =>
        r ← skip_string s i;
        match r with
        | None => Some (Malformed, key)
        | Some j =>
            d ← decode_string (span s i j) key kcap;
            match d.1 with
            | None => Some (Malformed, d.2)
            | Some kn =>
                k ← ws s j;
                colon ← peek s k (Z.eqb COLON);
                if (colon : bool) then
                  vs ← ws s (u32 (k + 1));
                  r ← skip_value (value_fuel s) s vs 1;
                  Some (match r with
                        | None => Malformed
                        | Some i => Found (kn, span s vs i, i)
                        end, d.2)
                else Some (Malformed, d.2)
            end
        end
    end.
