(* ===== verification/JsonGram.v ===== *)
(** * JSON: the reader recognizes the grammar

    The list parsers of [JsonList] accept exactly the texts of its grammar, and
    return exactly what follows them. *)
From S2P Require Import Prelude Bytes Json JsonList.

(** Characters that could continue a number. *)
Definition num_char (c : Z) : bool := is_digit c || (c =? 46) || (c =? 101) || (c =? 69).

(** What can follow a value. *)
Definition delim (r : list Z) : Prop := starts num_char r = false.

(** How a value can start. *)
Definition value_start (c : Z) : bool :=
  (c =? QUOTE) || (c =? 45) || is_digit c || (c =? 116) || (c =? 102) || (c =? 110) || (c =? LBRACE) || (c =? LBRACK).

(** Levels of nesting left at a depth. *)
Definition levels (depth : Z) : nat := Z.to_nat (JSON_DEPTH_MAX - depth).

(** ** Strings *)

Lemma str_l_complete b r : string_body b -> str_l (b ++ QUOTE :: r) = Some r.
Proof.
  induction 1 as [|c b Hc Hq Hb _ IH|e b He _ IH|h1 h2 h3 h4 b Hh _ IH]; [done| | |].
  - simpl. rewrite (proj2 (Z.eqb_neq c QUOTE)), (proj2 (Z.ltb_ge c 32)), (proj2 (Z.eqb_neq c BSLASH)) by done. done.
  - simpl. rewrite He. destruct (Z.eqb_spec e 117) as [->|]; [done|]. done.
  - simpl. rewrite !Forall_cons in Hh. destruct Hh as (-> & -> & -> & -> & _). done.
Qed.

Lemma str_l_sound l r : str_l l = Some r -> exists b, l = b ++ QUOTE :: r /\ string_body b.
Proof.
  remember (length l) as k eqn:Hk. revert l Hk.
  induction (lt_wf k) as [k _ IH]. intros l -> Hr. destruct l as [|c l]; [done|]. simpl in Hr.
  destruct (Z.eqb_spec c QUOTE) as [->|Hq]; [simplify_eq; exists []; split; [done|constructor]|].
  destruct (Z.ltb_spec c 32); [done|]. destruct (Z.eqb_spec c BSLASH) as [->|Hb].
  - destruct l as [|e l]; [done|]. destruct (Z.eqb_spec e 117) as [->|He].
    + destruct l as [|h1 [|h2 [|h3 [|h4 l]]]]; try done. destruct (_ && _) eqn:Hh; [|done].
      destruct (IH (length l) ltac:(simpl; lia) l eq_refl Hr) as (b & -> & Hb). breflect.
      exists (BSLASH :: 117 :: h1 :: h2 :: h3 :: h4 :: b). split; [done|]. constructor; [|done]. by repeat constructor.
    + destruct (simple_escape e) eqn:Hs; [|done].
      destruct (IH (length l) ltac:(simpl; lia) l eq_refl Hr) as (b & -> & Hb).
      exists (BSLASH :: e :: b). split; [done|]. by constructor.
  - destruct (IH (length l) ltac:(simpl; lia) l eq_refl Hr) as (b & -> & Hb').
    exists (c :: b). split; [done|]. by constructor.
Qed.

Lemma string_l_spec l r : string_l l = Some r <-> exists t, l = t ++ r /\ string_lit t.
Proof.
  split.
  - unfold string_l. destruct l as [|c l]; [done|]. destruct (Z.eqb_spec c QUOTE) as [->|]; [|done].
    intros (b & -> & Hb)%str_l_sound. exists (QUOTE :: b ++ [QUOTE]). split; [|by exists b].
    simpl. by rewrite <- app_assoc.
  - intros (t & -> & b & -> & Hb). simpl. rewrite <- app_assoc. by apply str_l_complete.
Qed.

(** ** Numbers *)

Lemma drop_digits_sound l : exists t, l = t ++ drop_digits l /\ Forall (fun c => is_digit c = true) t.
Proof.
  induction l as [|c l (t & Hl & Ht)]; [by exists []|]. simpl. destruct (is_digit c) eqn:Hc; [|by exists []].
  exists (c :: t). split; [simpl; by f_equal|by constructor].
Qed.

Lemma digits_l_sound l r : digits_l l = Some r -> exists t, l = t ++ r /\ all_digits t.
Proof.
  intros Hr. pose proof (digits_l_shorter _ _ Hr) as Hlt. unfold digits_l in Hr. destruct (starts _ _); [|done].
  destruct (drop_digits_sound l) as (t & Hl & Ht). injection Hr as Hr. rewrite Hr in Hl. exists t. split; [done|].
  split; [|done]. intros ->. simpl in Hl. rewrite Hl in Hlt. lia.
Qed.

Lemma digits_l_complete t r : all_digits t -> starts is_digit r = false -> digits_l (t ++ r) = Some r.
Proof.
  intros [Hne Ht] Hr. unfold digits_l. assert (Hd : drop_digits (t ++ r) = r).
  { clear Hne. induction Ht as [|c t Hc Ht IH]; simpl; [|by rewrite Hc].
    destruct r as [|c r]; [done|]. simpl in Hr |- *. by rewrite Hr. }
  rewrite Hd. destruct Ht as [|c t Hc Ht]; [done|]. simpl. by rewrite Hc.
Qed.

Lemma starts_eqb x l : starts (Z.eqb x) l = true <-> exists l', l = x :: l'.
Proof.
  destruct l as [|c l]; simpl; [naive_solver|]. rewrite Z.eqb_eq. naive_solver.
Qed.

Lemma opt_l_sound p l : exists g, l = g ++ opt_l p l /\ (g = [] \/ exists c, g = [c] /\ p c = true).
Proof.
  unfold opt_l. destruct l as [|c l]; simpl; [exists []; auto|]. destruct (p c) eqn:E; [exists [c]|exists []]; eauto.
Qed.

Lemma number_l_sound l r : number_l l = Some r -> exists t, l = t ++ r /\ number_lit t.
Proof.
  unfold number_l. destruct (opt_l_sound (Z.eqb 45) l) as (g & Hl & Hg).
  set (l1 := opt_l _ l) in *. clearbody l1. subst l.
  destruct (if starts (Z.eqb 48) l1 then _ else _) as [l2|] eqn:E2; simpl; [|done].
  assert (H2 : exists a, l1 = a ++ l2 /\ int_part a).
  { destruct (starts _ l1) eqn:E.
    - apply starts_eqb in E as [l' ->]. simplify_eq. exists [48]. split; [done|by left].
    - apply digits_l_sound in E2 as (a & -> & Ha). exists a. split; [done|]. right. split; [done|].
      destruct a; [by destruct Ha|]. cbn [starts app] in E. apply Z.eqb_neq in E. simpl. congruence. }
  destruct H2 as (a & -> & Ha). clear E2.
  destruct (if starts (Z.eqb 46) l2 then _ else _) as [l3|] eqn:E3; simpl; [|done].
  assert (H3 : exists f, l2 = f ++ l3 /\ frac_part f).
  { destruct (starts _ l2) eqn:E.
    - apply starts_eqb in E as [l' ->]. apply digits_l_sound in E3 as (d & Hd & Ha'). simpl in Hd. subst.
      exists (46 :: d). split; [done|]. right. eauto.
    - simplify_eq. exists []. split; [done|by left]. }
  destruct H3 as (f & -> & Hf). clear E3. intros Hr.
  assert (H4 : exists e, l3 = e ++ r /\ exp_part e).
  { destruct l3 as [|c l3]; simpl in Hr; [simplify_eq; exists []; split; [done|by left]|].
    destruct (_ || _) eqn:E; [|simplify_eq; exists []; split; [done|by left]].
    apply digits_l_sound in Hr as (d & Hd & Ha').
    destruct (opt_l_sound (fun c => (c =? 43) || (c =? 45)) l3) as (g' & Hl3 & Hg').
    exists (c :: g' ++ d). split; [rewrite Hl3, Hd; simpl; by rewrite app_assoc|].
    right. exists c, g', d. split; [done|]. apply orb_true_iff in E. rewrite !Z.eqb_eq in E. split; [done|].
    split; [|done]. destruct Hg' as [->|(x & -> & Hx)]; [auto|]. apply orb_true_iff in Hx. rewrite !Z.eqb_eq in Hx.
    destruct Hx as [->| ->]; auto. }
  destruct H4 as (e & -> & He). exists (g ++ a ++ f ++ e). split; [by rewrite <- !app_assoc|].
  exists g, a, f, e. split; [done|]. split; [|done]. destruct Hg as [->|(x & -> & Hx%Z.eqb_eq)]; [auto|]. subst. auto.
Qed.

Lemma frac_exp_start f e r :
  frac_part f -> exp_part e -> delim r ->
  starts is_digit (f ++ e ++ r) = false /\ starts is_digit (e ++ r) = false /\ starts (Z.eqb 46) (e ++ r) = false.
Proof.
  intros Hf He Hr. assert (Hd : starts is_digit r = false /\ starts (Z.eqb 46) r = false).
  { unfold delim, num_char in Hr. destruct r as [|c r]; [done|]. cbn [starts] in *. rewrite (Z.eqb_sym 46).
    by destruct (is_digit c), (c =? 46). }
  assert (He' : starts is_digit (e ++ r) = false /\ starts (Z.eqb 46) (e ++ r) = false).
  { destruct He as [->|(x & g & d & -> & Hx & _)]; [done|]. by destruct Hx as [->| ->]. }
  split; [|done]. destruct Hf as [->|(d & -> & _)]; [apply He'|done].
Qed.

Lemma exp_complete e r :
  exp_part e -> delim r ->
  (if starts (fun c => (c =? 101) || (c =? 69)) (e ++ r)
   then digits_l (opt_l (fun c => (c =? 43) || (c =? 45)) (tail (e ++ r))) else Some (e ++ r)) = Some r.
Proof.
  intros He Hr. assert (Hd : starts is_digit r = false).
  { unfold delim, num_char in Hr. destruct r as [|c r]; [done|]. cbn [starts] in *. by destruct (is_digit c). }
  destruct He as [->|(x & g & d & -> & Hx & Hg & Ha)].
  - simpl. unfold delim, num_char in Hr. destruct r as [|c r]; [done|]. cbn [starts] in *.
    by destruct (c =? 101), (c =? 69), (is_digit c), (c =? 46).
  - replace (starts _ _) with true by by destruct Hx as [->| ->]. simpl. rewrite <- app_assoc.
    replace (opt_l _ (g ++ d ++ r)) with (d ++ r); [by apply digits_l_complete|].
    destruct Hg as [->|[->| ->]]; [|done..]. destruct Ha as [Hne Ha]. destruct Ha as [|c d Hc Ha]; [done|].
    unfold opt_l. cbn [starts app]. unfold is_digit in Hc. breflect.
    rewrite (proj2 (Z.eqb_neq c 43)), (proj2 (Z.eqb_neq c 45)) by lia. done.
Qed.

Lemma number_l_complete t r : number_lit t -> delim r -> number_l (t ++ r) = Some r.
Proof.
  intros (g & a & f & e & -> & Hg & Ha & Hf & He) Hr. rewrite <- !app_assoc. unfold number_l.
  pose proof (frac_exp_start f e r Hf He Hr) as (H1 & H2 & H3).
  replace (opt_l _ (g ++ _)) with (a ++ f ++ e ++ r).
  2: { destruct Hg as [->| ->]; [|done]. simpl. destruct Ha as [->|[[Hne Ha] _]]; [done|].
       destruct Ha as [|c a Hc Ha]; [done|]. unfold opt_l, is_digit in *. cbn [starts app]. breflect.
       rewrite (proj2 (Z.eqb_neq 45 c)) by lia. done. }
  replace (if starts (Z.eqb 48) _ then _ else _) with (Some (f ++ e ++ r)).
  2: { destruct Ha as [->|[Ha Hz]]; [done|]. rewrite digits_l_complete by done.
       destruct a as [|c a]; [by destruct Ha|]. cbn [starts app]. destruct (Z.eqb_spec 48 c); [subst; done|done]. }
  simpl. replace (if starts (Z.eqb 46) _ then _ else _) with (Some (e ++ r)).
  2: { destruct Hf as [->|(d & -> & Hd)]; [cbn [app]; by rewrite H3|]. simpl. by rewrite digits_l_complete. }
  simpl. by apply exp_complete.
Qed.

(** ** Whitespace *)

Lemma drop_ws_sound l : exists w, l = w ++ drop_ws l /\ blank w /\ starts is_ws (drop_ws l) = false.
Proof.
  induction l as [|c l (w & Hl & Hw & Hs)]; [exists []; split; [done|]; by split; [constructor|]|]. simpl. destruct (is_ws c) eqn:Hc.
  - exists (c :: w). split; [simpl; by f_equal|]. split; [by constructor|done].
  - exists []. split; [done|]. by split; [constructor|].
Qed.

Lemma drop_ws_blank w l : blank w -> starts is_ws l = false -> drop_ws (w ++ l) = l.
Proof.
  intros Hw Hl. induction Hw as [|c w Hc Hw IH]; simpl; [|by rewrite Hc].
  destruct l as [|c l]; [done|]. simpl in Hl |- *. by rewrite Hl.
Qed.

Lemma value_start_ws c : value_start c = true -> is_ws c = false /\ c <> RBRACE /\ c <> RBRACK.
Proof.
  unfold value_start, is_digit, is_ws. intros Hc. rewrite !orb_true_iff, andb_true_iff, !Z.eqb_eq in Hc.
  rewrite Z.geb_leb, !Z.leb_le in Hc. unfold QUOTE, LBRACE, LBRACK, RBRACE, RBRACK in *.
  split; [|lia]. rewrite !orb_false_iff, !Z.eqb_neq. lia.
Qed.

Lemma number_start t : number_lit t -> exists c t', t = c :: t' /\ ((c =? 45) || is_digit c) = true.
Proof.
  intros (g & a & f & e & -> & [->| ->] & Ha & _); [|eauto]. simpl.
  destruct Ha as [->|[[Hne Ha] _]]; [eexists _, _; done|]. destruct Ha as [|c a Hc Ha]; [done|].
  simpl. eexists _, _. split; [done|]. by rewrite Hc, orb_true_r.
Qed.

Lemma value_starts d t : value d t -> exists c t', t = c :: t' /\ value_start c = true.
Proof.
  destruct 1 as [d t (b & -> & _)|d t Hn|d t Hl|[] d w _|[] d w t _ _]; try by eexists _, _.
  - apply number_start in Hn as (c & t' & -> & Hc). eexists _, _. split; [done|]. unfold value_start.
    apply orb_true_iff in Hc as [-> | ->]; by rewrite ?orb_true_r.
  - destruct Hl as [->|[->| ->]]; by eexists _, _.
Qed.

Lemma items_starts obj d t : items obj d t -> exists c t', t = c :: t' /\ value_start c = true.
Proof.
  assert (Hk : forall k v, key_part obj k -> value d v -> exists c t', k ++ v = c :: t' /\ value_start c = true).
  { intros k v Hk Hv. destruct Hk as [|k w w' (b & -> & _) _ _]; [by eapply value_starts|]. by eexists _, _. }
  destruct 1 as [obj d k v w Hkp Hv _|obj d k v w w' t Hkp Hv _ _ _];
    destruct (Hk _ _ Hkp Hv) as (c & t' & He & Hc); rewrite app_assoc, He; by eexists _, _.
Qed.

(** ** Values *)

Lemma levels_S depth : depth < JSON_DEPTH_MAX -> levels depth = S (levels (depth + 1)).
Proof. unfold levels. lia. Qed.

Lemma key_l_sound obj l r : key_l obj l = Some r -> exists k, l = k ++ r /\ key_part obj k.
Proof.
  unfold key_l. destruct obj; [|intros [= ->]; exists []; split; [done|constructor]].
  destruct (string_l l) as [l1|] eqn:E; simpl; [|done]. apply string_l_spec in E as (t & -> & Ht).
  destruct (drop_ws_sound l1) as (w & Hl1 & Hw & _). destruct (starts _ _) eqn:Hc; [|done].
  apply starts_eqb in Hc as [l2 Hc]. rewrite Hc in *. simpl. intros [= <-].
  destruct (drop_ws_sound l2) as (w' & Hl2 & Hw' & _).
  exists (t ++ w ++ COLON :: w'). split; [|by constructor]. rewrite <- !app_assoc. simpl. by rewrite <- Hl2, <- Hl1.
Qed.

Lemma literal_sound lit l r d :
  lit = LIT_TRUE \/ lit = LIT_FALSE \/ lit = LIT_NULL -> Some (lit_l lit l) = Some (Some r) ->
  exists t, l = t ++ r /\ value d t.
Proof. intros Hlit [= ->%lit_l_app]. exists lit. split; [done|]. by apply v_literal. Qed.

Lemma open_char c : negb (c =? LBRACE) && negb (c =? LBRACK) = false -> c = open_of (c =? LBRACE).
Proof.
  destruct (Z.eqb_spec c LBRACE) as [->|]; [done|]. destruct (Z.eqb_spec c LBRACK) as [->|]; done.
Qed.

Lemma value_l_sound n :
  (forall l depth r, value_l n l depth = Some (Some r) -> exists t, l = t ++ r /\ value (levels depth) t) /\
  (forall l depth obj r, items_l n l depth obj = Some (Some r) ->
     exists t, l = t ++ close_of obj :: r /\ items obj (levels (depth + 1)) t).
Proof.
  induction n as [n IH] using lt_wf_ind. split.
  - intros [|c l] depth r Hr; destruct n as [|n]; try done; cbn [value_l] in Hr.
    all: destruct (c =? QUOTE);
      [apply (inj Some), string_l_spec in Hr as (t & -> & Ht); exists t; split; [done|by apply v_string]|].
    all: destruct (_ || _);
      [apply (inj Some), number_l_sound in Hr as (t & -> & Ht); exists t; split; [done|by apply v_number]|].
    all: destruct (c =? 116); [eapply literal_sound; [|exact Hr]; auto|].
    all: destruct (c =? 102); [eapply literal_sound; [|exact Hr]; auto|].
    all: destruct (c =? 110); [eapply literal_sound; [|exact Hr]; auto|].
    all: destruct (_ && _) eqn:Ho; [done|]; apply open_char in Ho.
    all: destruct (depth >=? _) eqn:Hd; [done|]; breflect; rewrite levels_S by done.
    all: destruct (drop_ws_sound l) as (w & Hl & Hw & _); set (obj := c =? LBRACE) in *; clearbody obj; subst c.
    all: destruct (starts _ _) eqn:E; [|try done].
    1,2: apply starts_eqb in E as [l' E]; rewrite E in *; simpl in Hr; injection Hr as <-;
         exists (open_of obj :: w ++ [close_of obj]); split; [|by apply v_empty];
         rewrite Hl at 1; simpl; by rewrite <- app_assoc.
    apply IH in Hr as (t & Ht & Hi); [|lia]. exists (open_of obj :: w ++ t ++ [close_of obj]).
    split; [|by apply v_items]. rewrite Hl at 1. rewrite Ht. simpl. by rewrite <- !app_assoc.
  - intros l depth obj r Hr. destruct n as [|n]; [done|]. cbn [items_l] in Hr.
    destruct (key_l obj l) as [l1|] eqn:Ek; [|done]. apply key_l_sound in Ek as (k & -> & Hk).
    destruct (value_l n l1 (depth + 1)) as [[l2|]|] eqn:Ev; try done. simpl in Hr.
    apply IH in Ev as (v & -> & Hv); [|lia]. destruct (drop_ws_sound l2) as (w & Hl2 & Hw & _).
    destruct (drop_ws l2) as [|c l3]; [done|]. destruct (Z.eqb_spec c (close_of obj)) as [->|_].
    + simplify_eq. exists (k ++ v ++ w). split; [by rewrite <- !app_assoc|by apply i_one].
    + destruct (Z.eqb_spec c COMMA) as [->|]; [|done]. simpl in Hr. apply IH in Hr as (t & Ht & Hi); [|lia].
      destruct (drop_ws_sound l3) as (w' & Hl3 & Hw' & _). exists (k ++ v ++ w ++ COMMA :: w' ++ t).
      split; [|by apply i_more]. rewrite Hl2, Hl3, Ht. repeat (rewrite <- app_assoc; simpl). done.
Qed.

Lemma blank_start w r : blank w -> starts (fun c => is_ws c || (c =? COMMA) || (c =? RBRACE) || (c =? RBRACK)) r = true ->
  delim (w ++ r).
Proof.
  assert (Hc : forall c, is_ws c || (c =? COMMA) || (c =? RBRACE) || (c =? RBRACK) = true -> num_char c = false).
  { intros c Hc. unfold num_char, is_digit, is_ws, COMMA, RBRACE, RBRACK in *.
    rewrite !orb_true_iff, !Z.eqb_eq in Hc.
    rewrite !orb_false_iff, andb_false_iff, !Z.eqb_neq, Z.geb_leb, !Z.leb_gt. lia. }
  intros Hw Hr. destruct Hw as [|c w Hws Hw]; unfold delim; simpl.
  - destruct r as [|c r]; [done|]. by apply Hc.
  - apply Hc. by rewrite Hws.
Qed.

Lemma key_l_complete obj k r : key_part obj k -> starts is_ws r = false -> key_l obj (k ++ r) = Some r.
Proof.
  destruct 1 as [|k w w' Hk Hw Hw']; intros Hr; [done|]. unfold key_l.
  rewrite (proj2 (string_l_spec _ ((w ++ COLON :: w') ++ r))).
  2: { exists k. by rewrite <- app_assoc. }
  simpl. rewrite <- app_assoc, drop_ws_blank by done. simpl. by rewrite drop_ws_blank.
Qed.

Lemma value_l_eq n c l depth :
  value_l n (c :: l) depth =
    if c =? QUOTE then Some (string_l (c :: l))
    else if (c =? 45) || is_digit c then Some (number_l (c :: l))
    else if c =? 116 then Some (lit_l LIT_TRUE (c :: l))
    else if c =? 102 then Some (lit_l LIT_FALSE (c :: l))
    else if c =? 110 then Some (lit_l LIT_NULL (c :: l))
    else if negb (c =? LBRACE) && negb (c =? LBRACK) then Some None
    else if depth >=? JSON_DEPTH_MAX then Some None
    else
      let obj := c =? LBRACE in
      let l := drop_ws l in
      if starts (Z.eqb (close_of obj)) l then Some (Some (tail l))
      else match n with O => None | S n' => items_l n' l depth obj end.
Proof. by destruct n. Qed.

Lemma open_value n obj l depth :
  depth < JSON_DEPTH_MAX ->
  value_l n (open_of obj :: l) depth =
    if starts (Z.eqb (close_of obj)) (drop_ws l) then Some (Some (tail (drop_ws l)))
    else match n with O => None | S n' => items_l n' (drop_ws l) depth obj end.
Proof.
  intros Hd. rewrite value_l_eq, Z.geb_leb. apply Z.leb_gt in Hd. rewrite Hd. by destruct obj.
Qed.

Lemma scalar_value n t r depth :
  string_lit t \/ number_lit t \/ (t = LIT_TRUE \/ t = LIT_FALSE \/ t = LIT_NULL) -> delim r ->
  value_l n (t ++ r) depth = Some (Some r).
Proof.
  intros [Ht|[Ht|Ht]] Hr.
  - pose proof Ht as (b & Hb & _). rewrite Hb at 1. simpl. rewrite value_l_eq. simpl. f_equal.
    pose proof (proj2 (string_l_spec (t ++ r) r) (ex_intro _ t (conj eq_refl Ht))) as Hs. rewrite Hb in Hs. exact Hs.
  - pose proof (number_start _ Ht) as (c & t' & -> & Hc). simpl. rewrite value_l_eq, Hc.
    destruct (Z.eqb_spec c QUOTE) as [->|]; [done|]. f_equal. by apply (number_l_complete (c :: t')).
  - destruct Ht as [->|[->| ->]]; cbv [LIT_TRUE LIT_FALSE LIT_NULL]; cbn [app]; by rewrite value_l_eq.
Qed.

Lemma close_delim obj w r : blank w -> delim (w ++ close_of obj :: r).
Proof. intros Hw. apply blank_start; [done|]. by destruct obj. Qed.

Lemma not_close c obj : value_start c = true -> (close_of obj =? c) = false.
Proof. intros (_ & H1 & H2)%value_start_ws. apply Z.eqb_neq. destruct obj; simpl; congruence. Qed.

Lemma value_l_complete n :
  (forall d t r depth x, value d t -> delim r -> depth + Z.of_nat d <= JSON_DEPTH_MAX ->
     value_l n (t ++ r) depth = Some x -> x = Some r) /\
  (forall obj d t r depth x, items obj d t -> depth + 1 + Z.of_nat d <= JSON_DEPTH_MAX ->
     items_l n (t ++ close_of obj :: r) depth obj = Some x -> x = Some r).
Proof.
  induction n as [n IH] using lt_wf_ind. split.
  - intros d t r depth x Hv Hr Hd.
    destruct Hv as [d t Ht|d t Ht|d t Ht|obj d w Hw|obj d w t Hw Hi].
    1-3: rewrite scalar_value by auto; congruence.
    + simpl. rewrite <- app_assoc, open_value, drop_ws_blank by (done || lia || by destruct obj).
      simpl. rewrite Z.eqb_refl. congruence.
    + pose proof (items_starts _ _ _ Hi) as (c & t' & Ht & Hc). pose proof (value_start_ws _ Hc) as [Hws _].
      simpl. rewrite <- !app_assoc, open_value, drop_ws_blank by (done || lia || by rewrite Ht).
      replace (starts _ (t ++ _)) with false by (rewrite Ht; symmetry; by apply not_close).
      destruct n as [|n]; [done|]. apply IH with (d := d); [lia|done|lia].
  - intros obj d t r depth x Hi Hd. destruct n as [|n]; [done|]. cbn [items_l].
    assert (Hone : forall k v rest, key_part obj k -> value d v -> delim rest ->
      key_l obj (k ++ v ++ rest) = Some (v ++ rest) /\
      forall y, value_l n (v ++ rest) (depth + 1) = Some y -> y = Some rest).
    { intros k v rest' Hk Hv Hr. pose proof (value_starts _ _ Hv) as (c & v' & Ev & Hc). apply value_start_ws in Hc as [Hc _].
      split; [apply key_l_complete; [done|by rewrite Ev]|]. intros y.
      apply (proj1 (IH n ltac:(lia))) with (d := d); [done..|lia]. }
    destruct Hi as [obj d k v w Hk Hv Hw|obj d k v w w' t Hk Hv Hw Hw' Hi].
    + rewrite <- !app_assoc. destruct (Hone k v (w ++ close_of obj :: r)) as [-> Hx]; [done..|by apply close_delim|].
      destruct (value_l _ _ _) as [y|]; [|done]. rewrite (Hx y eq_refl). cbn [mbind option_bind].
      rewrite drop_ws_blank by (done || by destruct obj). rewrite Z.eqb_refl. congruence.
    + rewrite <- !app_assoc. cbn [app]. rewrite <- app_assoc.
      destruct (Hone k v (w ++ COMMA :: w' ++ t ++ close_of obj :: r)) as [-> Hx]; [done..|by apply blank_start|].
      destruct (value_l _ _ _) as [y|]; [|done]. rewrite (Hx y eq_refl). cbn [mbind option_bind].
      rewrite drop_ws_blank by done. replace (COMMA =? close_of obj) with false by by destruct obj.
      change (negb (COMMA =? COMMA)) with false. cbv iota.
      pose proof (items_starts _ _ _ Hi) as (c & t' & Ht & Hc). apply value_start_ws in Hc as [Hc _].
      rewrite drop_ws_blank by (done || by rewrite Ht). apply IH with (d := d); [lia|done|lia].
Qed.

(** With enough fuel a text is accepted up to [r] exactly if it starts with a value. *)
Lemma value_l_spec n l depth r :
  (2 * length l + 1 <= n)%nat -> delim r -> depth <= JSON_DEPTH_MAX ->
  value_l n l depth = Some (Some r) <-> exists t, l = t ++ r /\ value (levels depth) t.
Proof.
  intros Hn Hr Hd. split; [apply value_l_sound|]. intros (t & -> & Ht).
  destruct (proj1 (value_l_total n) (t ++ r) depth Hn) as [x Hx]. rewrite Hx. f_equal.
  apply (proj1 (value_l_complete n)) with (d := levels depth) in Hx; [done..|]. unfold levels, JSON_DEPTH_MAX in *. lia.
Qed.
