(* ===== verification/JsonText.v ===== *)
(** * JSON: string literals and the text they stand for

    [escape_l]/[chars_l] say what a string literal stands for, [escaped] what the
    writer puts between the quotes for a text; the decoder and the writer of
    [Json] compute them, inside their buffers. *)
From S2P Require Import Prelude Bytes Json JsonList JsonGram.

(** ** Decoding *)

Definition hexl (a b c d : Z) : Z := (hexval a <<. 12) |. (hexval b <<. 8) |. (hexval c <<. 4) |. hexval d.

Definition surrogate (cp : Z) : bool := (cp >=? 0xD800) && (cp <=? 0xDFFF).

(** A code point that is half of a surrogate pair alone is replaced. *)
Definition unpaired (cp : Z) : Z := if surrogate cp then 0xFFFD else cp.

(** The second half of a surrogate pair, if one follows. *)
Definition low_half (l : list Z) : option (Z * list Z) :=
  match l with
  | x :: y :: a :: b :: c :: d :: l' =>
      let lo := hexl a b c d in
      if (x =? BSLASH) && (y =? 117) && ((lo >=? 0xDC00) && (lo <=? 0xDFFF)) then Some (lo, l') else None
  | _ => None
  end.

(** The code point of the escape after a backslash, and what follows it. *)
Definition escape_l (l : list Z) : Z * list Z :=
  match l with
  | [] => (0, [])
  | e :: l1 =>
      if e =? 117 then
        match l1 with
        | a :: b :: c :: d :: l2 =>
            let cp := hexl a b c d in
            match (if (cp >=? 0xD800) && (cp <=? 0xDBFF) then low_half l2 else None) with
            | Some (lo, l3) => (unpaired (0x10000 + ((cp - 0xD800) <<. 10) + (lo - 0xDC00)), l3)
            | None => (unpaired cp, l2)
            end
        | _ => (0, [])
        end
      else (if e =? 98 then 8 else if e =? 102 then 12 else if e =? 110 then 10 else if e =? 114 then 13
            else if e =? 116 then 9 else e, l1)
  end.

(** The bytes a string body stands for; [None] if it holds a NUL.  [n] bounds the
    number of characters. *)
Fixpoint chars_l (n : nat) (b : list Z) : option (list Z) :=
  match b, n with
  | [], _ => Some []
  | _, O => None
  | c :: b', S n' =>
      if c =? BSLASH then
        let '(cp, r) := escape_l b' in
        if cp =? 0 then None else app (utf8_enc cp) <$> chars_l n' r
      else cons c <$> chars_l n' b'
  end.

Definition chars (b : list Z) : option (list Z) := chars_l (length b) b.

(** ** Buffers *)

(** The buffer holds the text [t], up to its position. *)
Definition holds (m : list Z) (t : list Z) : Prop := take (length t) m = t /\ (length t <= length m)%nat.

(** What the decoder leaves: the text and a NUL if it fits, a failure otherwise. *)
Definition decoded (cap : Z) (t : list Z) (u : option (list Z)) (r : option Z) (out : list Z) : Prop :=
  match u with
  | Some u => if len (t ++ u) <? cap then r = Some (len (t ++ u)) /\ holds out (t ++ u ++ [0]) else r = None
  | None => r = None
  end.

Lemma holds_nil m : holds m [].
Proof. split; [done|simpl; lia]. Qed.

Lemma wr8_holds m t x : holds m t -> len t < len m ->
  exists m', wr8 m (len t) x = Some m' /\ holds m' (t ++ [x]) /\ length m' = length m.
Proof.
  intros [Ht Hlt] Hl. unfold wr8, len in *. rewrite (proj2 (Z.leb_le 0 _)), (proj2 (Z.ltb_lt _ _)) by lia.
  eexists. split; [done|]. rewrite length_insert. split; [|done]. unfold holds. rewrite length_app, length_insert. simpl.
  split; [|lia]. rewrite Nat2Z.id.
  rewrite Nat.add_1_r, (take_S_r _ _ x) by (apply list_lookup_insert_eq; lia).
  rewrite take_insert_ge, Ht by lia. done.
Qed.

Lemma copy_holds m t u : holds m t -> len t + len u <= len m -> len m < 2 ^ 32 ->
  exists m', copy_bytes m (len t) u = Some m' /\ holds m' (t ++ u) /\ length m' = length m.
Proof.
  revert m t. induction u as [|x u IH]; intros m t Ht Hl Hm; simpl.
  - rewrite app_nil_r. by exists m.
  - assert (Hx : len (x :: u) = 1 + len u) by (unfold len; simpl length; lia).
    destruct (wr8_holds m t x Ht) as (m1 & -> & Hm1 & Hlen); [unfold len in *; lia|]. simpl.
    replace (u32 (len t + 1)) with (len (t ++ [x])).
    2: { unfold len in *. rewrite length_app, wrap_small; [simpl; lia|]. unfold fits. lia. }
    destruct (IH m1 (t ++ [x]) Hm1) as (m2 & H2 & Hh & Hl2).
    { unfold len in *. rewrite length_app, Hlen. simpl. lia. }
    { unfold len in *. lia. }
    exists m2. split; [done|]. rewrite <- app_assoc in Hh. split; [done|congruence].
Qed.

(** ** The decoder *)

Lemma string_body_esc l :
  string_body (BSLASH :: l) ->
  (exists e b, l = e :: b /\ simple_escape e = true /\ string_body b) \/
  (exists a b c d r, l = 117 :: a :: b :: c :: d :: r /\ Forall (fun h => is_hex h = true) [a; b; c; d] /\ string_body r).
Proof. inversion 1; subst; [done|left; eauto|right; eauto 10]. Qed.

Lemma low_half_body l lo r :
  string_body l -> low_half l = Some (lo, r) -> r ⊑ l /\ (length r <= length l)%nat /\ string_body r.
Proof.
  intros Hb. destruct l as [|x [|y [|a [|b [|c [|d l]]]]]]; try done. unfold low_half.
  destruct (_ && _) eqn:E; [|done]. intros [= _ <-]. breflect. subst x y.
  split; [by repeat apply suffix_cons_r|]. split; [simpl; lia|].
  apply string_body_esc in Hb as [(e & b0 & [= <- _] & ? & _)|(? & ? & ? & ? & ? & [= _ _ _ _ ->] & _ & Hb)]; done.
Qed.

Lemma escape_l_body l cp r :
  string_body (BSLASH :: l) -> escape_l l = (cp, r) -> r ⊑ l /\ (length r < length l)%nat /\ string_body r.
Proof.
  intros Hb He. apply string_body_esc in Hb as [(e & b & -> & Hs & Hb)|(a & b & c & d & l2 & -> & _ & Hb)].
  - simpl in He. destruct (Z.eqb_spec e 117) as [->|]; [done|]. injection He as _ <-.
    split; [by apply suffix_cons_r|]. split; [simpl; lia|done].
  - assert (Hl2 : forall l, l ⊑ l2 -> l ⊑ (117 :: a :: b :: c :: d :: l2)) by (intros; by repeat apply suffix_cons_r).
    simpl in He. destruct (if _ && _ then _ else _) as [[lo l3]|] eqn:E; injection He as _ <-.
    + destruct (_ && _); [|done]. apply low_half_body in E as (? & ? & ?); [|done]. simpl. split; [auto|]. split; [lia|done].
    + split; [by apply Hl2|]. simpl. split; [lia|done].
Qed.

Section decoder.
Context (s : list Z) (Hs : len s <= 2 ^ 32 - 8).

Lemma hex4_idx a b c d l :
  (a :: b :: c :: d :: l) ⊑ s -> hex4 s (idx s (a :: b :: c :: d :: l)) = Some (hexl a b c d).
Proof.
  intros Hl. unfold hex4.
  pose proof (idx_skip s Hs [a]) as H1. pose proof (idx_skip s Hs [a; b]) as H2. pose proof (idx_skip s Hs [a; b; c]) as H3.
  change (len [a]) with 1 in H1. change (len [a; b]) with 2 in H2. change (len [a; b; c]) with 3 in H3. simpl app in *.
  rewrite rd8_idx by done. simpl. rewrite H1, rd8_idx by (done || lia || rest). simpl.
  rewrite H2, rd8_idx by (done || lia || rest). simpl. rewrite H3, rd8_idx by (done || lia || rest). done.
Qed.

(** The test for a second half reads what [low_half] looks at. *)
Lemma low_list l :
  (l ++ [QUOTE]) ⊑ s -> string_body l ->
  exists p, (if u32 (idx s (l ++ [QUOTE]) + 5) <? len s then
               a ← rd8 s (idx s (l ++ [QUOTE]));
               if a =? BSLASH then b ← rd8 s (u32 (idx s (l ++ [QUOTE]) + 1)); Some (b =? 117) else Some false
             else Some false) = Some p /\
    if (p : bool) then exists a b c d l', l = BSLASH :: 117 :: a :: b :: c :: d :: l'
    else low_half l = None.
Proof.
  intros Hl Hb. pose proof (idx_range _ _ Hl) as Hr. destruct (_ <? len s) eqn:E.
  - destruct l as [|x l]; simpl app in *; rewrite rd8_idx by done; [by exists false|]. simpl. destruct (Z.eqb_spec x BSLASH) as [->|Hx].
    + rewrite idx_next by done. apply string_body_esc in Hb as [(e & b & -> & Hs' & _)|(a & b & c & d & r & -> & _)].
      * simpl app. rewrite rd8_idx by rest. exists false. destruct (Z.eqb_spec e 117) as [->|He]; [done|].
        split; [simpl; by rewrite (proj2 (Z.eqb_neq e 117))|]. by destruct b as [|? [|? [|? [|? ?]]]].
      * simpl app. rewrite rd8_idx by rest. exists true. split; [done|]. eauto 10.
    + exists false. split; [done|]. by destruct l as [|? [|? [|? [|? [|? ?]]]]].
  - exists false. split; [done|]. rewrite wrap_small in E; [|unfold fits, idx, len in *; rewrite length_app in *; simpl in *; lia].
    breflect. unfold idx, len in *. rewrite length_app in *. simpl length in *.
    destruct l as [|? [|? [|? [|? [|? [|? ?]]]]]]; try done. simpl length in *. lia.
Qed.

Lemma decode_u_list a b c d l :
  (a :: b :: c :: d :: l ++ [QUOTE]) ⊑ s -> string_body l ->
  decode_u s (idx s (a :: b :: c :: d :: l ++ [QUOTE])) =
    Some ((escape_l (117 :: a :: b :: c :: d :: l)).1, idx s ((escape_l (117 :: a :: b :: c :: d :: l)).2 ++ [QUOTE])).
Proof.
  intros Hl Hb. unfold decode_u. rewrite hex4_idx by done. simpl. set (cp := hexl a b c d).
  pose proof (idx_skip s Hs [a; b; c; d] (l ++ [QUOTE])) as H4. change (len [a; b; c; d]) with 4 in H4. simpl app in H4.
  rewrite H4 by (done || lia). clear H4. assert (Hl' : (l ++ [QUOTE]) ⊑ s) by rest.
  destruct (low_list l Hl' Hb) as (p & Hp & Hlow). destruct ((cp >=? 55296) && (cp <=? 56319)); simpl; [|done].
  rewrite Hp. simpl. destruct p; simpl; [|by rewrite Hlow].
  destruct Hlow as (a' & b' & c' & d' & l' & ->). simpl app in *.
  pose proof (idx_skip s Hs [BSLASH; 117]) as H2. change (len [BSLASH; 117]) with 2 in H2. simpl app in H2.
  rewrite H2, hex4_idx by (done || lia || rest). simpl. destruct ((hexl a' b' c' d' >=? _) && _); [|done].
  pose proof (idx_skip s Hs [BSLASH; 117; a'; b'; c'; d']) as H6. change (len [BSLASH; 117; a'; b'; c'; d']) with 6 in H6.
  simpl app in H6. by rewrite H6 by (done || lia).
Qed.

Lemma decode_escape_list l :
  (l ++ [QUOTE]) ⊑ s -> string_body (BSLASH :: l) ->
  decode_escape s (idx s (l ++ [QUOTE])) = Some ((escape_l l).1, idx s ((escape_l l).2 ++ [QUOTE])).
Proof.
  intros Hl Hb. unfold decode_escape.
  apply string_body_esc in Hb as [(e & b & -> & He & Hb)|(a & b & c & d & r & -> & Hh & Hb)]; simpl app in *;
    rewrite rd8_idx by done; cbn [mbind option_bind]; rewrite idx_next by done.
  - destruct (Z.eqb_spec e 117) as [->|He']; [done|]. unfold escape_l. rewrite (proj2 (Z.eqb_neq e 117)) by done.
    cbn [fst snd]. repeat case_match; done.
  - apply decode_u_list; [rest|done].
Qed.

Lemma utf8_enc_len cp : 1 <= len (utf8_enc cp) <= 4.
Proof. unfold utf8_enc, len. repeat case_match; simpl; lia. Qed.

Lemma body_tail c b : string_body (c :: b) -> c <> BSLASH -> string_body b.
Proof. by inversion 1. Qed.

Lemma decoded_too_long cap t v u out : cap <= len t + len v -> decoded cap t (app v <$> u) None out.
Proof.
  intros Hc. unfold decoded. destruct u as [u|]; simpl; [|done].
  rewrite (proj2 (Z.ltb_ge _ _)); [done|]. unfold len in *. rewrite !length_app. lia.
Qed.

Lemma decoded_step cap t v u r out : decoded cap (t ++ v) u r out -> decoded cap t (app v <$> u) r out.
Proof. unfold decoded. destruct u as [u|]; simpl; [|done]. by rewrite <- !app_assoc. Qed.

Lemma decode_loop_list n b t cap out :
  (b ++ [QUOTE]) ⊑ s -> string_body b -> (length b <= n)%nat ->
  holds out t -> len t < cap -> cap <= len out -> len out <= 2 ^ 32 - 8 ->
  exists r out', decode_loop n s (idx s (b ++ [QUOTE])) (len t) cap out = Some (r, out') /\
    length out' = length out /\ decoded cap t (chars_l n b) r out'.
Proof.
  revert b t out. induction n as [|n IH]; intros b t out Hl Hb Hn Ht Hc Hcap Hout.
  1,2: assert (Hcond : (u32 (idx s (b ++ [QUOTE]) + 1) <? len s) = negb (bool_decide (b = [])))
    by (pose proof (idx_range _ _ Hl) as Hr; rewrite wrap_small by (unfold fits, idx, len in *; rewrite length_app in *; simpl in *; lia);
        unfold idx, len in *; rewrite length_app in *; destruct b; simpl in *; [apply Z.ltb_ge|apply Z.ltb_lt]; lia).
  1,2: destruct b as [|c b]; simpl in Hn; try lia.
  1,2: cbn [decode_loop]; rewrite Hcond; simpl negb; cbv iota;
       destruct (wr8_holds out t 0 Ht) as (m & -> & Hm & Hlm); [lia|]; simpl;
       eexists _, _; split; [done|]; split; [done|]; unfold decoded; rewrite app_nil_r, (proj2 (Z.ltb_lt _ _)) by done; done.
  cbn [decode_loop]. rewrite Hcond. simpl negb. cbv iota. clear Hcond. simpl app in *.
  rewrite rd8_idx by done. cbn [mbind option_bind chars_l]. destruct (Z.eqb_spec c BSLASH) as [->|Hne]; cbn [negb].
  - rewrite idx_next, decode_escape_list by (done || rest). cbn [mbind option_bind fst snd].
    destruct (escape_l b) as [cp r] eqn:He. destruct (escape_l_body _ _ _ Hb He) as (Hr & Hlt & Hrb). cbn [fst snd].
    destruct (cp =? 0); [by eexists _, _|]. pose proof (utf8_enc_len cp) as Hu. set (v := utf8_enc cp) in *.
    rewrite wrap_small by (unfold fits, len in *; lia). destruct (_ >=? cap) eqn:E; breflect.
    { eexists _, _. split; [done|]. split; [done|]. by apply decoded_too_long. }
    destruct (copy_holds out t v Ht) as (m & -> & Hm & Hlm); [unfold len in *; lia..|]. cbn [mbind option_bind].
    replace (len t + len v) with (len (t ++ v)) in * by (unfold len; rewrite length_app; lia).
    destruct (IH r (t ++ v) m) as (x & out' & Hx & Hlx & Hd); [|done|lia|done|done|unfold len in *; lia..|].
    { etrans; [apply suffix_app; exact Hr|rest]. }
    exists x, out'. split; [done|]. split; [congruence|]. by apply decoded_step.
  - rewrite wrap_small by (unfold fits, len in *; lia). change (cons c <$> chars_l n b) with (app [c] <$> chars_l n b).
    destruct (_ >=? cap) eqn:E; breflect.
    { eexists _, _. split; [done|]. split; [done|]. apply decoded_too_long. unfold len. simpl length. unfold len in *. lia. }
    destruct (wr8_holds out t c Ht) as (m & -> & Hm & Hlm); [lia|]. cbn [mbind option_bind].
    replace (len t + 1) with (len (t ++ [c])) in * by (unfold len; rewrite length_app; simpl; lia).
    rewrite idx_next by done.
    destruct (IH b (t ++ [c]) m) as (x & out' & Hx & Hlx & Hd); [rest|by eapply body_tail|lia|done|done|unfold len in *; lia..|].
    exists x, out'. split; [done|]. split; [congruence|]. by apply decoded_step.
Qed.
End decoder.

Lemma chars_enough b n : string_body b -> (length b <= n)%nat -> chars_l n b = chars b.
Proof.
  unfold chars. intros Hb Hn. assert (H : forall m, (length b <= m)%nat -> chars_l n b = chars_l m b); [|by apply H].
  revert b Hb Hn. induction n as [|n IH]; intros [|c b] Hb Hn m Hm; simpl in Hn, Hm; try lia; try by destruct m.
  destruct m as [|m]; [lia|]. cbn [chars_l]. destruct (Z.eqb_spec c BSLASH) as [->|Hne].
  - destruct (escape_l b) as [cp r] eqn:He. destruct (escape_l_body _ _ _ Hb He) as (_ & Hlt & Hrb).
    by rewrite (IH r Hrb ltac:(lia) m ltac:(lia)).
  - by rewrite (IH b (body_tail _ _ Hb Hne) ltac:(lia) m ltac:(lia)).
Qed.

(** [decode_string] on any text: what a string literal stands for, or a failure. *)
Lemma decode_string_spec s out cap :
  len s <= 2 ^ 32 - 8 -> 0 <= cap <= len out -> len out <= 2 ^ 32 - 8 ->
  exists r out', decode_string s out cap = Some (r, out') /\ length out' = length out /\
    (forall b, s = QUOTE :: b ++ [QUOTE] -> string_body b -> decoded cap [] (chars b) r out') /\
    (~ string_lit s -> r = None).
Proof.
  intros Hs Hcap Hout. unfold decode_string.
  pose proof (string_list s Hs s (reflexivity s)) as Hstr.
  replace (idx s s) with 0 in Hstr by (unfold idx; lia). rewrite Hstr. cbn [mbind option_bind].
  destruct (string_l s) as [r|] eqn:E; simpl.
  2: { eexists _, _. split; [done|]. split; [done|]. split; [|done]. intros b -> Hb.
       rewrite (proj2 (string_l_spec _ [])) in E; [done|]. eexists. rewrite app_nil_r. split; [done|]. by exists b. }
  apply string_l_spec in E as (t & Ht & Hlit).
  destruct (decide (r = [])) as [->|Hr].
  2: { rewrite (proj2 (Z.eqb_neq (idx s r) (len s))) by (unfold idx, len; destruct r; [done|]; simpl; lia). simpl.
       eexists _, _. split; [done|]. split; [done|]. split; [|done]. intros b Hb1 Hb.
       exfalso. apply Hr. assert (Hl : string_l s = Some []).
       { apply string_l_spec. exists s. rewrite app_nil_r. split; [done|]. by exists b. }
       assert (Hl' : string_l s = Some r) by (apply string_l_spec; eauto). congruence. }
  rewrite app_nil_r in Ht. subst t. unfold idx at 1. change (len []) with 0. rewrite Z.sub_0_r, Z.eqb_refl. simpl.
  destruct (Z.eqb_spec cap 0) as [->|Hc].
  { eexists _, _. split; [done|]. split; [done|]. split; [|done]. intros b _ _. unfold decoded.
    destruct (chars b) as [u|]; [|done]. by rewrite (proj2 (Z.ltb_ge _ 0)) by (unfold len; lia). }
  destruct Hlit as (b & Hb1 & Hb).
  assert (Hsuf : (b ++ [QUOTE]) ⊑ s) by (rewrite Hb1; by apply suffix_cons_r).
  destruct (decode_loop_list s Hs (length s) b [] cap out Hsuf Hb) as (r & out' & Hd & Hl & Hdec);
    [|apply holds_nil|change (len []) with 0; lia|lia|lia|].
  { rewrite Hb1. simpl. rewrite length_app. simpl. lia. }
  replace (idx s (b ++ [QUOTE])) with 1 in Hd by (rewrite Hb1; unfold idx, len; simpl; lia).
  exists r, out'. split; [done|]. split; [done|]. split; [|intros []; by exists b].
  intros b' Hb' Hbb. assert (b' = b) as ->.
  { rewrite Hb1 in Hb'. injection Hb' as Hb'. by apply app_inj_tail in Hb' as [-> _]. }
  rewrite chars_enough in Hdec; [done|done|]. rewrite Hb1. simpl. rewrite length_app. lia.
Qed.
