(* ===== verification/JsonWrite.v ===== *)
(** * JSON: the writer

    [escaped] is what [jw_str] puts between the quotes; the writer stays inside its
    buffer and reports exactly the texts that do not fit, its output is always a
    string literal, and the decoder gives back the text that was written. *)
From S2P Require Import Prelude Bytes Json JsonList JsonGram JsonText.

(** The writer holds the text [t], NUL-terminated. *)
Record writes (w : jw) (t : list Z) : Prop := mk_writes {
  wr_mem : len (w_mem w) = w_cap w;
  wr_cap : fits 32 (w_cap w);
  wr_ok : w_overflow w = false;
  wr_len : w_len w = len t;
  wr_room : len t < w_cap w;
  wr_text : holds (w_mem w) (t ++ [0])
}.

(** The outcome of writing [u] after [t]: the longer text, or the overflow mark. *)
Definition written (w : jw) (t u : list Z) (w' : jw) : Prop :=
  w_cap w' = w_cap w /\
  if len t + len u <? w_cap w then writes w' (t ++ u) else w_overflow w' = true.

(** One character of the text (or one invalid byte): what is written, what is left. *)
Definition char_out (l : list Z) : list Z * list Z :=
  match l with
  | [] => ([], [])
  | c :: l' =>
      if (c =? QUOTE) || (c =? BSLASH) then ([BSLASH; c], l')
      else if c =? 10 then ([BSLASH; 110], l')
      else if c =? 13 then ([BSLASH; 114], l')
      else if c =? 9 then ([BSLASH; 116], l')
      else if (c <? 0x20) || (c =? 0x7F) then ([BSLASH; 117; 48; 48; hex_char (c >>. 4); hex_char (c &. 15)], l')
      else
        let k := Z.to_nat (default 0 (utf8_seq l)) in
        if (k =? 0)%nat then ([BSLASH; 117; 102; 102; 102; 100], l') else (take k l, drop k l)
  end.

Fixpoint escaped_l (n : nat) (l : list Z) : list Z :=
  match l, n with
  | [], _ | _, O => []
  | _, S n' => let '(e, r) := char_out l in e ++ escaped_l n' r
  end.

Definition escaped (s : list Z) : list Z := escaped_l (length s) s.

(** A Unicode scalar value other than NUL. *)
Definition scalar (cp : Z) : Prop := 0 < cp <= 0x10FFFF /\ ~ (0xD800 <= cp <= 0xDFFF).

(** [b] stands for [u], whatever the bound. *)
Definition reads (b u : list Z) : Prop := forall n, (length b <= n)%nat -> chars_l n b = Some u.

(** ** UTF-8 sequences *)

Lemma utf8_cont_total s i n cp :
  0 <= i -> i + Z.of_nat n <= len s -> is_Some (utf8_cont s i n cp).
Proof.
  revert i cp. induction n as [|n IH]; intros i cp Hi Hn; cbn [utf8_cont]; [by eexists|].
  rewrite rd8_in by (unfold len in Hn; lia). simpl. destruct (negb _); [by eexists|]. apply IH; lia.
Qed.

Lemma utf8_seq_total c l : exists k, utf8_seq (c :: l) = Some k /\ 0 <= k <= len (c :: l) /\ k <= 4.
Proof.
  unfold utf8_seq. change (rd8 (c :: l) 0) with (Some c). cbn [mbind option_bind].
  assert (Hl : 1 <= len (c :: l)) by (unfold len; simpl; lia).
  destruct (c <? 128); [exists 1; split; [done|lia]|].
  assert (Hgo : forall n cp, 2 <= n <= 4 -> exists k,
    (if n >? len (c :: l) then Some 0
     else r ← utf8_cont (c :: l) 1 (Z.to_nat (n - 1)) cp;
       match r with
       | None => Some 0
       | Some cp =>
           if ((n =? 3) && (cp <? 0x800)) || ((n =? 4) && ((cp <? 0x10000) || (cp >? 0x10FFFF))) ||
              ((cp >=? 0xD800) && (cp <=? 0xDFFF)) then Some 0 else Some n
       end) = Some k /\ 0 <= k <= len (c :: l) /\ k <= 4).
  { intros n cp Hn. destruct (n >? len (c :: l)) eqn:E; [exists 0; split; [done|lia]|]. breflect.
    destruct (utf8_cont_total (c :: l) 1 (Z.to_nat (n - 1)) cp) as [r ->]; [lia..|]. simpl.
    destruct r as [cp'|]; [|exists 0; split; [done|lia]].
    destruct (_ || _); [exists 0|exists n]; (split; [done|lia]). }
  destruct (_ && _); [apply Hgo; lia|]. destruct (_ && _); [apply Hgo; lia|].
  destruct (_ && _); [apply Hgo; lia|]. exists 0. split; [done|lia].
Qed.

Lemma jw_char_out s c l :
  (c :: l) ⊑ s -> len s <= 2 ^ 32 - 8 ->
  exists k, jw_char s (idx s (c :: l)) = Some ((char_out (c :: l)).1, k) /\
    u32 (idx s (c :: l) + k) = idx s (char_out (c :: l)).2 /\
    (char_out (c :: l)).2 ⊑ l.
Proof.
  intros Hl Hs. unfold jw_char. rewrite rd8_idx by done. cbn [mbind option_bind].
  pose proof (idx_next s Hs c l Hl) as Hnext. unfold char_out.
  assert (Hone : forall e : list Z, exists k, Some (e, 1) = Some (fst (e, l), k) /\
    u32 (idx s (c :: l) + k) = idx s (snd (e, l)) /\ snd (e, l) ⊑ l) by (intros e; by exists 1).
  destruct (_ || _); [apply Hone|]. destruct (c =? 10); [apply Hone|]. destruct (c =? 13); [apply Hone|].
  destruct (c =? 9); [apply Hone|]. destruct (_ || _); [apply Hone|].
  replace (drop (Z.to_nat (idx s (c :: l))) s) with (c :: l).
  2: { destruct Hl as [t ->]. unfold idx, len. rewrite length_app. replace (Z.to_nat _) with (length t) by lia.
       by rewrite drop_app_length. }
  destruct (utf8_seq_total c l) as (k & Hk & Hr & H4). rewrite Hk. cbn [mbind option_bind default].
  destruct (Z.eqb_spec k 0) as [->|Hne]; [apply Hone|]. unfold default, from_option. simpl id.
  rewrite (proj2 (Nat.eqb_neq (Z.to_nat k) 0)) by lia. cbn [fst snd]. exists k. split; [done|]. split.
  - pose proof (idx_skip s Hs (take (Z.to_nat k) (c :: l)) (drop (Z.to_nat k) (c :: l))) as Hi.
    rewrite take_drop in Hi. unfold len in Hi, Hr. rewrite length_take in Hi.
    replace (Z.of_nat (_ `min` _)) with k in Hi by lia. apply Hi; [lia|done].
  - destruct (Z.to_nat k) as [|n] eqn:En; [lia|]. simpl. apply suffix_drop.
Qed.

(** ** Writing *)

Lemma written_over w t u w' : w_overflow w' = true -> w_cap w' = w_cap w -> w_cap w <= len t + len u -> written w t u w'.
Proof. intros. split; [done|]. by rewrite (proj2 (Z.ltb_ge _ _)). Qed.

Lemma jw_raw_written w t u : writes w t -> len u < 2 ^ 32 -> exists w', jw_raw w u = Some w' /\ written w t u w'.
Proof.
  intros [Hm Hc Ho Hl Hr Ht] Hu. unfold jw_raw. rewrite Ho, Hl, orb_false_l. unfold fits in Hc.
  assert (Hlt : 0 <= len t /\ 0 <= len u) by (unfold len; lia).
  rewrite (wrap_small 32 (w_cap w - len t)) by (unfold fits; lia).
  destruct ((len u >? w_cap w - len t) || _) eqn:E.
  { eexists. split; [done|]. apply written_over; [done..|]. destruct (len u >? w_cap w - len t) eqn:E1; breflect; [lia|].
    simpl in E. rewrite wrap_small in E by (unfold fits; lia). breflect. lia. }
  apply orb_false_elim in E as [E1 E2]. breflect. rewrite wrap_small in E2 by (unfold fits; lia).
  assert (Ht' : holds (w_mem w) t).
  { destruct Ht as [Ht1 Ht2]. rewrite length_app in *. simpl in *. split; [|lia].
    apply (f_equal (take (length t))) in Ht1. rewrite take_take, take_app_length in Ht1. by rewrite Nat.min_l in Ht1 by lia. }
  destruct (copy_holds (w_mem w) t u Ht') as (m & -> & Hm1 & Hlm); [lia..|]. cbn [mbind option_bind].
  rewrite (wrap_small 32 (len t + len u)) by (unfold fits; lia).
  assert (Hlen : len (t ++ u) = len t + len u) by (unfold len; rewrite length_app; lia). rewrite <- Hlen.
  destruct (wr8_holds m (t ++ u) 0 Hm1) as (m' & -> & Hm2 & Hlm2); [unfold len in *; lia|]. cbn [mbind option_bind].
  eexists. split; [done|]. split; [done|]. rewrite <- Hlen, (proj2 (Z.ltb_lt _ _)) by lia.
  constructor; cbn [w_mem w_cap w_len w_overflow]; try done; [unfold len in *; lia|lia].
Qed.

Lemma jw_raw_over w u : w_overflow w = true -> exists w', jw_raw w u = Some w' /\ w_overflow w' = true /\ w_cap w' = w_cap w.
Proof. intros Ho. unfold jw_raw. rewrite Ho. by eexists. Qed.

(** Writing in two pieces. *)
Lemma written_then w t u v w1 (f : option jw) :
  written w t u w1 ->
  (writes w1 (t ++ u) -> exists w2, f = Some w2 /\ written w1 (t ++ u) v w2) ->
  (w_overflow w1 = true -> exists w2, f = Some w2 /\ w_overflow w2 = true /\ w_cap w2 = w_cap w1) ->
  exists w2, f = Some w2 /\ written w t (u ++ v) w2.
Proof.
  intros [Hc Hw] Hok Hover. assert (Hl : len (u ++ v) = len u + len v) by (unfold len; rewrite length_app; lia).
  assert (Hl' : len (t ++ u) = len t + len u) by (unfold len; rewrite length_app; lia).
  destruct (Z.ltb_spec (len t + len u) (w_cap w)) as [Hlt|Hge].
  - destruct (Hok Hw) as (w2 & -> & Hc2 & Hw2). exists w2. split; [done|]. unfold written.
    rewrite Hl, app_assoc, Z.add_assoc, <- Hl', <- Hc. split; [done|done].
  - destruct (Hover Hw) as (w2 & -> & Ho & Hc2). exists w2. split; [done|].
    apply written_over; [done|congruence|]. unfold len in *. lia.
Qed.

Lemma char_out_len c l : len (char_out (c :: l)).1 <= 6.
Proof.
  unfold char_out. repeat (destruct (_ : bool); [vm_compute; discriminate|]). unfold len. simpl fst.
  destruct (utf8_seq_total c l) as (k & -> & Hk & H4). rewrite length_take. simpl. lia.
Qed.

Lemma jw_loop_over n w s i : w_overflow w = true -> jw_str_loop n w s i = Some w.
Proof. intros Ho. destruct n; cbn [jw_str_loop]; by rewrite Ho, andb_false_r. Qed.

Lemma jw_loop_written n w s l t :
  l ⊑ s -> len s <= 2 ^ 32 - 8 -> (length l <= n)%nat -> writes w t ->
  exists w', jw_str_loop n w s (idx s l) = Some w' /\ written w t (escaped_l n l) w'.
Proof.
  intros Hl Hs. revert l w t Hl. induction n as [|n IH]; intros [|c l] w t Hl Hn Hw; simpl in Hn; try lia;
    cbn [jw_str_loop]; rewrite idx_ltb.
  1,2: exists w; split; [done|]; split; [done|]; cbn [escaped_l]; rewrite app_nil_r; destruct Hw;
       rewrite (proj2 (Z.ltb_lt _ _)) by (change (len []) with 0; lia); done.
  rewrite (wr_ok _ _ Hw). cbn [andb negb].
  destruct (jw_char_out s c l Hl Hs) as (k & -> & Hi & Hsuf). cbn [mbind option_bind fst snd]. rewrite Hi.
  change (escaped_l (S n) (c :: l)) with (let '(e, r) := char_out (c :: l) in e ++ escaped_l n r).
  pose proof (char_out_len c l) as H6. destruct (char_out (c :: l)) as [e r]. cbn [fst snd] in *.
  destruct (jw_raw_written w t e Hw) as (w1 & -> & Hw1); [lia|]. cbn [mbind option_bind].
  eapply written_then; [done| |].
  - intros Hw2. apply IH; [etrans; [done|rest]| |done]. apply suffix_length in Hsuf. lia.
  - intros Ho. rewrite jw_loop_over by done. by eexists.
Qed.

Lemma jw_str_written w t s :
  len s <= 2 ^ 32 - 8 -> writes w t ->
  exists w', jw_str w s = Some w' /\ written w t (QUOTE :: escaped s ++ [QUOTE]) w'.
Proof.
  intros Hs Hw. unfold jw_str. destruct (jw_raw_written w t [QUOTE] Hw) as (w1 & -> & Hw1); [done|]. cbn [mbind option_bind].
  change (QUOTE :: escaped s ++ [QUOTE]) with ([QUOTE] ++ escaped s ++ [QUOTE]).
  eapply written_then; [done| |].
  - intros Hw2. pose proof (jw_loop_written (length s) w1 s s (t ++ [QUOTE]) ltac:(done) Hs ltac:(done) Hw2) as (w2 & Hl & Hw3).
    replace (idx s s) with 0 in Hl by (unfold idx; lia). rewrite Hl. cbn [mbind option_bind].
    eapply written_then; [done| |]; [intros; by apply jw_raw_written|intros; by apply jw_raw_over].
  - intros Ho. rewrite jw_loop_over by done. by apply jw_raw_over.
Qed.

(** ** What is written is a string literal *)

Lemma string_body_app a b : string_body a -> string_body b -> string_body (a ++ b).
Proof. induction 1; intros Hb; simpl; [done|apply sb_char; auto|apply sb_escape; auto|apply sb_unicode; auto]. Qed.

Lemma hex_char_hex k : 0 <= k < 16 -> is_hex (hex_char k) = true.
Proof.
  intros Hk. assert (H : forallb (fun k => is_hex (hex_char k)) (seqZ 0 16) = true) by by vm_compute.
  rewrite forallb_seqZ in H. apply H. lia.
Qed.

Lemma cont_byte c : byte_ok c -> c &. 0xC0 = 0x80 -> 0x80 <= c.
Proof.
  intros Hc Hl. assert (H : forallb (fun c => negb (c &. 0xC0 =? 0x80) || (0x80 <=? c)) (seqZ 0 256) = true) by by vm_compute.
  rewrite forallb_seqZ in H. specialize (H c ltac:(unfold byte_ok in Hc; lia)). rewrite Hl in H. simpl in H. lia.
Qed.

Lemma utf8_cont_bytes s i n cp cp' :
  Forall byte_ok s -> 0 <= i -> utf8_cont s i n cp = Some (Some cp') ->
  Forall (fun c => 0x80 <= c) (take n (drop (Z.to_nat i) s)).
Proof.
  intros Hs. revert i cp. induction n as [|n IH]; intros i cp Hi Hc; [constructor|]. cbn [utf8_cont] in Hc.
  destruct (rd8 s i) as [c|] eqn:Hr; [|done]. cbn [mbind option_bind] in Hc. destruct (negb _) eqn:E; [done|]. breflect.
  pose proof (rd8_byte _ _ _ Hs Hr) as Hb. unfold rd8 in Hr. destruct (i <? 0); [done|].
  rewrite (drop_S _ _ _ Hr). simpl. constructor; [by apply cont_byte|].
  replace (S (Z.to_nat i)) with (Z.to_nat (i + 1)) by lia. by eapply IH; [lia|].
Qed.

Lemma plain_body t : Forall (fun c => 0x80 <= c) t -> string_body t.
Proof. induction 1; constructor; unfold QUOTE, BSLASH; auto; lia. Qed.

Lemma utf8_seq_body c l k :
  Forall byte_ok (c :: l) -> 0x20 <= c -> c <> QUOTE -> c <> BSLASH -> utf8_seq (c :: l) = Some k -> k <> 0 ->
  string_body (take (Z.to_nat k) (c :: l)).
Proof.
  intros Hb H20 Hq Hbs Hk Hne. unfold utf8_seq in Hk. change (rd8 (c :: l) 0) with (Some c) in Hk. cbn [mbind option_bind] in Hk.
  destruct (c <? 128) eqn:E; breflect; [injection Hk as <-; simpl; apply sb_char; auto; constructor|].
  destruct (if _ && _ then _ else _) as [[n cp]|] eqn:En; [|congruence].
  assert (Hn : 2 <= n).
  { destruct (_ && _); [by injection En as <- _|]. destruct (_ && _); [by injection En as <- _|].
    destruct (_ && _); [by injection En as <- _|done]. }
  clear En. destruct (n >? _); [congruence|]. destruct (utf8_cont _ _ _ _) as [[cp'|]|] eqn:Ec; [|simpl in Hk; congruence|done].
  cbn [mbind option_bind] in Hk. destruct (_ || _); injection Hk as <-; [done|].
  apply utf8_cont_bytes in Ec; [|done|done].
  replace (Z.to_nat n) with (S (Z.to_nat (n - 1))) by lia. simpl in Ec |- *. apply sb_char; auto. by apply plain_body.
Qed.

Lemma char_out_body c l : Forall byte_ok (c :: l) -> string_body (char_out (c :: l)).1.
Proof.
  intros Hb. assert (Hc : byte_ok c) by by inversion Hb. unfold char_out.
  destruct (_ || _) eqn:E1. { apply sb_escape; [|constructor]. unfold simple_escape. by rewrite E1. }
  destruct (c =? 10); [apply sb_escape; [done|constructor]|]. destruct (c =? 13); [apply sb_escape; [done|constructor]|].
  destruct (c =? 9); [apply sb_escape; [done|constructor]|]. destruct ((c <? 32) || _) eqn:E2.
  { apply sb_unicode; [|constructor]. unfold byte_ok in Hc. repeat constructor; apply hex_char_hex.
    - rewrite Z.shiftr_div_pow2 by lia. change (2 ^ 4) with 16. dlia.
    - change 15 with (Z.ones 4). rewrite Z.land_ones by lia. change (2 ^ 4) with 16. dlia. }
  breflect. destruct (utf8_seq_total c l) as (k & Hk & Hr & _). rewrite Hk. simpl default.
  destruct (Nat.eqb_spec (Z.to_nat k) 0) as [|Hne]; [apply sb_unicode; [by repeat constructor|constructor]|].
  apply utf8_seq_body; auto. lia.
Qed.

Lemma char_out_rest c l : (char_out (c :: l)).2 ⊑ l.
Proof.
  unfold char_out. destruct (_ || _); [done|]. destruct (c =? 10); [done|]. destruct (c =? 13); [done|].
  destruct (c =? 9); [done|]. destruct (_ || _); [done|].
  destruct (Z.to_nat _) as [|k]; [done|]. simpl. apply suffix_drop.
Qed.

Lemma suffix_Forall {A} (P : A -> Prop) l r : suffix r l -> Forall P l -> Forall P r.
Proof. intros [k ->]. rewrite Forall_app. naive_solver. Qed.

Lemma escaped_body s : Forall byte_ok s -> string_body (escaped s).
Proof.
  unfold escaped. generalize (length s) as n. intros n. revert s.
  induction n as [|n IH]; intros [|c l] Hb; try constructor. cbn [escaped_l].
  pose proof (char_out_body c l Hb) as Ho. pose proof (char_out_rest c l) as Hr.
  destruct (char_out (c :: l)) as [e r]. cbn [fst snd] in *. apply string_body_app; [done|]. apply IH.
  inversion Hb. by eapply suffix_Forall.
Qed.

(** ** Round trip *)

(** [cont x] is a continuation byte with payload [x]. *)
Lemma cont_bits x : 0 <= x < 64 -> 0x80 |. x = 0x80 + x /\ (0x80 + x) &. 0xC0 = 0x80 /\ (0x80 + x) &. 0x3F = x.
Proof.
  intros Hx. assert (H : forallb (fun x => (0x80 |. x =? 0x80 + x) && ((0x80 + x) &. 0xC0 =? 0x80) && ((0x80 + x) &. 0x3F =? x))
    (seqZ 0 64) = true) by by vm_compute.
  rewrite forallb_seqZ in H. specialize (H x ltac:(lia)). by breflect.
Qed.

Lemma lead_bits x :
  (0 <= x < 32 -> 0xC0 |. x = 0xC0 + x /\ (0xC0 + x) &. 0x1F = x) /\
  (0 <= x < 16 -> 0xE0 |. x = 0xE0 + x /\ (0xE0 + x) &. 0x0F = x) /\
  (0 <= x < 8 -> 0xF0 |. x = 0xF0 + x /\ (0xF0 + x) &. 0x07 = x).
Proof.
  assert (H1 : forallb (fun x => (0xC0 |. x =? 0xC0 + x) && ((0xC0 + x) &. 0x1F =? x)) (seqZ 0 32) = true) by by vm_compute.
  assert (H2 : forallb (fun x => (0xE0 |. x =? 0xE0 + x) && ((0xE0 + x) &. 0x0F =? x)) (seqZ 0 16) = true) by by vm_compute.
  assert (H3 : forallb (fun x => (0xF0 |. x =? 0xF0 + x) && ((0xF0 + x) &. 0x07 =? x)) (seqZ 0 8) = true) by by vm_compute.
  rewrite forallb_seqZ in H1, H2, H3.
  split_and!; intros Hx; [specialize (H1 x ltac:(lia))|specialize (H2 x ltac:(lia))|specialize (H3 x ltac:(lia))]; by breflect.
Qed.

(** The bytes of a code point in base 64. *)
Lemma utf8_enc_digits cp :
  scalar cp ->
  (cp < 0x80 /\ utf8_enc cp = [cp]) \/
  (exists a b, utf8_enc cp = [0xC0 + a; 0x80 + b] /\ cp = a * 64 + b /\ 2 <= a < 32 /\ 0 <= b < 64) \/
  (exists a b c, utf8_enc cp = [0xE0 + a; 0x80 + b; 0x80 + c] /\ cp = (a * 64 + b) * 64 + c /\ 0x800 <= cp /\
     0 <= a < 16 /\ 0 <= b < 64 /\ 0 <= c < 64) \/
  (exists a b c d, utf8_enc cp = [0xF0 + a; 0x80 + b; 0x80 + c; 0x80 + d] /\ cp = ((a * 64 + b) * 64 + c) * 64 + d /\
     0x10000 <= cp /\ 0 <= a < 5 /\ 0 <= b < 64 /\ 0 <= c < 64 /\ 0 <= d < 64).
Proof.
  intros [Hcp _]. unfold utf8_enc. change 0x3F with (Z.ones 6). rewrite !Z.land_ones, !Z.shiftr_div_pow2 by lia.
  change (2 ^ 6) with 64. change (2 ^ 12) with (64 * 64). change (2 ^ 18) with (64 * 64 * 64).
  rewrite <- !Z.div_div by lia.
  pose proof (Z.div_mod cp 64 ltac:(lia)) as H1. pose proof (Z.mod_pos_bound cp 64 ltac:(lia)) as B1.
  set (q1 := cp / 64) in *. set (d := cp mod 64) in *. clearbody q1 d.
  pose proof (Z.div_mod q1 64 ltac:(lia)) as H2. pose proof (Z.mod_pos_bound q1 64 ltac:(lia)) as B2.
  set (q2 := q1 / 64) in *. set (c := q1 mod 64) in *. clearbody q2 c.
  pose proof (Z.div_mod q2 64 ltac:(lia)) as H3. pose proof (Z.mod_pos_bound q2 64 ltac:(lia)) as B3.
  set (a := q2 / 64) in *. set (b := q2 mod 64) in *. clearbody a b.
  rewrite (proj1 (cont_bits d B1)), (proj1 (cont_bits c B2)), (proj1 (cont_bits b B3)).
  destruct (lead_bits q1) as [L1 _], (lead_bits q2) as [_ [L2 _]], (lead_bits a) as [_ [_ L3]].
  destruct (Z.ltb_spec cp 128); [by left|]. right. destruct (Z.ltb_spec cp 2048).
  { left. exists q1, d. rewrite (proj1 (L1 ltac:(lia))). split; [done|lia]. }
  right. destruct (Z.ltb_spec cp 65536).
  - left. exists q2, c, d. rewrite (proj1 (L2 ltac:(lia))). split; [done|lia].
  - right. exists a, b, c, d. rewrite (proj1 (L3 ltac:(lia))). split; [done|lia].
Qed.

Lemma utf8_cont_step s i n cp x :
  rd8 s i = Some (0x80 + x) -> 0 <= x < 64 -> 0 <= cp < 0x4000000 ->
  utf8_cont s i (S n) cp = utf8_cont s (i + 1) n (cp * 64 + x).
Proof.
  intros Hr Hx Hcp. cbn [utf8_cont]. rewrite Hr. cbn [mbind option_bind]. destruct (cont_bits x Hx) as (_ & -> & ->).
  cbn [negb Z.eqb Pos.eqb]. rewrite Z.shiftl_mul_pow2, wrap_small by (unfold fits; lia).
  rewrite <- Z.shiftl_mul_pow2, lor_shiftl by lia. done.
Qed.

(** Decide comparisons by arithmetic. *)
Ltac bdec :=
  rewrite ?Z.geb_leb, ?Z.gtb_ltb;
  repeat match goal with
  | |- context [?x <? ?y] => first [rewrite (proj2 (Z.ltb_lt x y)) by lia | rewrite (proj2 (Z.ltb_ge x y)) by lia]
  | |- context [?x <=? ?y] => first [rewrite (proj2 (Z.leb_le x y)) by lia | rewrite (proj2 (Z.leb_gt x y)) by lia]
  end; cbn [andb orb negb].

Lemma utf8_seq_enc cp l : scalar cp -> utf8_seq (utf8_enc cp ++ l) = Some (len (utf8_enc cp)).
Proof.
  intros Hs. pose proof Hs as [Hr Hsur].
  assert (Hlen : forall x, len (x ++ l) = len x + len l) by (intros; unfold len; rewrite length_app; lia).
  assert (Hl0 : 0 <= len l) by (unfold len; lia).
  assert (Hs' : (cp <? 0xD800) = true \/ (0xDFFF <? cp) = true) by (rewrite !Z.ltb_lt; lia).
  destruct (utf8_enc_digits cp Hs) as [[Hlt ->]|[(a & b & -> & Hcp & Ha & Hb)|[(a & b & c & -> & Hcp & Hge & Ha & Hb & Hc)|
    (a & b & c & d & -> & Hcp & Hge & Ha & Hb & Hc & Hd)]]]; unfold utf8_seq; rewrite Hlen; simpl app.
  all: change (rd8 (?x :: ?t) 0) with (Some x); cbn [mbind option_bind].
  - by bdec.
  - change (len [192 + a; 128 + b]) with 2. bdec. rewrite (proj2 (proj1 (lead_bits a) ltac:(lia))).
    change (Z.to_nat (2 - 1)) with 1%nat. rewrite (utf8_cont_step _ _ _ _ b) by (done || lia). cbn [utf8_cont mbind option_bind].
    rewrite <- Hcp. by bdec.
  - change (len [224 + a; 128 + b; 128 + c]) with 3. bdec. rewrite (proj2 (proj1 (proj2 (lead_bits a)) ltac:(lia))).
    change (Z.to_nat (3 - 1)) with 2%nat.
    rewrite (utf8_cont_step _ _ _ _ b), (utf8_cont_step _ _ _ _ c) by (done || lia). cbn [utf8_cont mbind option_bind].
    rewrite <- Hcp. rewrite Z.geb_leb, !Z.leb_antisym. destruct Hs' as [-> | ->]; bdec; by rewrite ?andb_false_r.
  - change (len [240 + a; 128 + b; 128 + c; 128 + d]) with 4. bdec. rewrite (proj2 (proj2 (proj2 (lead_bits a)) ltac:(lia))).
    change (Z.to_nat (4 - 1)) with 3%nat.
    rewrite (utf8_cont_step _ _ _ _ b), (utf8_cont_step _ _ _ _ c), (utf8_cont_step _ _ _ _ d) by (done || lia).
    cbn [utf8_cont mbind option_bind]. rewrite <- Hcp. by bdec.
Qed.

(** The escape of a control character stands for it. *)
Lemma hexl_ctrl c : 0 <= c < 0x80 -> hexl 48 48 (hex_char (c >>. 4)) (hex_char (c &. 15)) = c.
Proof.
  intros Hc. assert (H : forallb (fun c => hexl 48 48 (hex_char (c >>. 4)) (hex_char (c &. 15)) =? c) (seqZ 0 128) = true)
    by by vm_compute.
  rewrite forallb_seqZ in H. apply Z.eqb_eq, H. lia.
Qed.

Lemma reads_nil : reads [] [].
Proof. by intros []. Qed.

Lemma reads_plain t b u : Forall (fun c => c <> BSLASH) t -> reads b u -> reads (t ++ b) (t ++ u).
Proof.
  intros Ht Hb. induction Ht as [|c t Hc Ht IH]; [done|]. intros [|n] Hn; simpl in Hn; [lia|]. cbn [chars_l app].
  rewrite (proj2 (Z.eqb_neq _ _) Hc), IH by lia. done.
Qed.

Lemma reads_escape e b u cp :
  escape_l (e ++ b) = (cp, b) -> cp <> 0 -> reads b u -> reads (BSLASH :: e ++ b) (utf8_enc cp ++ u).
Proof.
  intros He Hcp Hb [|n] Hn; simpl in Hn; [lia|]. cbn [chars_l]. rewrite Z.eqb_refl, He, (proj2 (Z.eqb_neq _ _) Hcp).
  rewrite length_app in Hn. by rewrite Hb by lia.
Qed.

(** A character is written as something that stands for it. *)
Lemma char_out_reads cp l :
  scalar cp -> exists e, char_out (utf8_enc cp ++ l) = (e, l) /\ forall b u, reads b u -> reads (e ++ b) (utf8_enc cp ++ u).
Proof.
  intros Hs. pose proof (utf8_seq_enc cp l Hs) as Hseq. pose proof (utf8_enc_len cp) as Hlen.
  destruct (Z.ltb_spec cp 0x80) as [Hlt|Hge].
  - assert (Henc : utf8_enc cp = [cp]) by (unfold utf8_enc; by rewrite (proj2 (Z.ltb_lt _ _))).
    rewrite Henc in *. destruct Hs as [Hr _]. simpl app in *. unfold char_out. rewrite Hseq.
    destruct (_ || _) eqn:E1.
    { exists [BSLASH; cp]. split; [done|]. intros b u Hb.
      pose proof (reads_escape [cp] b u cp) as He. rewrite Henc in He. apply He; [|lia|done].
      apply orb_true_iff in E1. rewrite !Z.eqb_eq in E1. by destruct E1 as [-> | ->]. }
    destruct (Z.eqb_spec cp 10) as [->|]; [eexists; split; [done|]; intros b u Hb; by apply (reads_escape [110] b u _ eq_refl)|].
    destruct (Z.eqb_spec cp 13) as [->|]; [eexists; split; [done|]; intros b u Hb; by apply (reads_escape [114] b u _ eq_refl)|].
    destruct (Z.eqb_spec cp 9) as [->|]; [eexists; split; [done|]; intros b u Hb; by apply (reads_escape [116] b u _ eq_refl)|].
    destruct ((cp <? 32) || _) eqn:E2.
    { eexists. split; [done|]. intros b u Hb.
      pose proof (reads_escape [117; 48; 48; hex_char (cp >>. 4); hex_char (cp &. 15)] b u cp) as He.
      rewrite Henc in He. apply He; [|lia|done].
      simpl app. unfold escape_l. cbn [Z.eqb Pos.eqb]. rewrite hexl_ctrl by lia. unfold unpaired, surrogate. by bdec. }
    exists [cp]. split; [done|]. intros b u Hb. apply (reads_plain [cp]); [|done]. apply orb_false_iff in E1.
    rewrite !Z.eqb_neq in E1. repeat constructor. apply E1.
  - exists (utf8_enc cp). assert (Hb : Forall (fun c => 0x80 <= c) (utf8_enc cp)).
    { destruct (utf8_enc_digits cp Hs) as [[? _]|[(a & b & -> & ?)|[(a & b & c & -> & ?)|(a & b & c & d & -> & ?)]]];
        [lia|idtac..]; repeat constructor; lia. }
    split.
    + destruct (utf8_enc cp) as [|c t] eqn:Et; [unfold len in Hlen; simpl in Hlen; lia|]. simpl app in *. apply Forall_cons in Hb as [Hc _]. unfold char_out. rewrite Hseq.
      unfold QUOTE, BSLASH. rewrite !(fun y H => proj2 (Z.eqb_neq c y) H) by lia. bdec.
      simpl default. unfold len. rewrite Nat2Z.id. cbn [orb Nat.eqb length].
      change (S (length t)) with (length (c :: t)). change (c :: t ++ l) with ((c :: t) ++ l).
      by rewrite take_app_length, drop_app_length.
    + intros b u Hr. apply reads_plain; [|done]. eapply Forall_impl; [exact Hb|]. intros x Hx. unfold BSLASH. simpl in Hx. lia.
Qed.

Lemma escaped_reads cps n : Forall scalar cps -> (length (cps ≫= utf8_enc) <= n)%nat ->
  reads (escaped_l n (cps ≫= utf8_enc)) (cps ≫= utf8_enc).
Proof.
  intros Hc. revert n. induction Hc as [|cp cps Hcp Hc IH]; intros n Hn; [destruct n; apply reads_nil|].
  rewrite bind_cons in *. destruct (char_out_reads cp (cps ≫= utf8_enc) Hcp) as (e & He & Hr).
  pose proof (utf8_enc_len cp) as Hl. rewrite length_app in Hn. unfold len in Hl.
  destruct n as [|n]; [lia|]. unfold escaped_l; fold escaped_l.
  destruct (utf8_enc cp ++ (cps ≫= utf8_enc)) as [|x t] eqn:E.
  { apply (f_equal length) in E. rewrite length_app in E. simpl in E. lia. }
  rewrite <- E in *. rewrite He. apply Hr, IH. lia.
Qed.

Lemma utf8_bytes cps : Forall scalar cps -> Forall byte_ok (cps ≫= utf8_enc).
Proof.
  intros Hc. apply bind_bytes. eapply Forall_impl; [exact Hc|]. intros cp Hs. unfold byte_ok. pose proof Hs as [Hr _].
  destruct (utf8_enc_digits cp Hs) as [[? ->]|[(a & b & -> & ?)|[(a & b & c & -> & ?)|(a & b & c & d & -> & ?)]]];
    repeat constructor; lia.
Qed.

Lemma escaped_len s : len (escaped s) <= 6 * len s.
Proof.
  unfold escaped, len. generalize (length s) at 1 as n. intros n. revert s.
  induction n as [|n IH]; intros [|c l]; try (simpl; lia). cbn [escaped_l].
  pose proof (char_out_len c l) as H6. pose proof (suffix_length _ _ (char_out_rest c l)) as Hr.
  destruct (char_out (c :: l)) as [e r]. cbn [fst snd] in *. rewrite length_app. specialize (IH r). unfold len in H6. simpl length. lia.
Qed.
