(* ===== verification/JsonSpell.v ===== *)
(** * JSON: how a text is spelled as a string

    [spells s b]: the bytes [s] are written as the string body [b].  The relation says what
    [jw_str] of [lib/http/json.c] has to write without reference to its code: UTF-8 is
    given by the arithmetic of RFC 3629, escapes by RFC 8259.  Every byte string has exactly
    one spelling, the one the writer produces. *)
From S2P Require Import Prelude Bytes Json JsonList JsonGram JsonText JsonWrite.

(** ** Specification *)

(** The UTF-8 encoding of a code point. *)
Definition utf8_of (cp : Z) : list Z :=
  if cp <? 0x80 then [cp]
  else if cp <? 0x800 then [0xC0 + cp / 64; 0x80 + cp mod 64]
  else if cp <? 0x10000 then [0xE0 + cp / 4096; 0x80 + (cp / 64) mod 64; 0x80 + cp mod 64]
  else [0xF0 + cp / 262144; 0x80 + (cp / 4096) mod 64; 0x80 + (cp / 64) mod 64; 0x80 + cp mod 64].

(** The characters with an escape of their own, and the letter of the escape. *)
Definition named : list (Z * Z) := [(34, 34); (92, 92); (10, 110); (13, 114); (9, 116)].

(** The digits of "0123456789abcdef". *)
Definition hex_digits : list Z := [48; 49; 50; 51; 52; 53; 54; 55; 56; 57; 97; 98; 99; 100; 101; 102].

(** A character that stands for itself. *)
Definition plain (cp : Z) : Prop := scalar cp /\ 0x20 <= cp /\ cp <> 34 /\ cp <> 92 /\ cp <> 0x7F.

Inductive spells : list Z -> list Z -> Prop :=
| sp_nil : spells [] []
| sp_named c e l b : (c, e) ∈ named -> spells l b -> spells (c :: l) (92 :: e :: b)
| sp_control c l b :
    0 <= c < 0x20 \/ c = 0x7F -> c ∉ named.*1 -> spells l b ->
    spells (c :: l) ([92; 117; 48; 48; hex_digits.[c / 16]; hex_digits.[c mod 16]] ++ b)
| sp_plain cp l b : plain cp -> spells l b -> spells (utf8_of cp ++ l) (utf8_of cp ++ b)
| sp_invalid c l b : (* no character starts with this byte *)
    0x80 <= c -> (forall cp r, scalar cp -> c :: l <> utf8_of cp ++ r) -> spells l b ->
    spells (c :: l) ([92; 117; 102; 102; 102; 100] ++ b).

(** ** UTF-8 *)

Lemma utf8_of_enc cp : scalar cp -> utf8_of cp = utf8_enc cp.
Proof.
  intros Hs. pose proof Hs as [Hr _]. unfold utf8_of.
  destruct (utf8_enc_digits cp Hs) as [[Hlt ->]|[(a & b & -> & Hcp & Ha & Hb)|[(a & b & c & -> & Hcp & Hge & Ha & Hb & Hc)|
    (a & b & c & d & -> & Hcp & Hge & Ha & Hb & Hc & Hd)]]].
  - by rewrite (proj2 (Z.ltb_lt _ _)).
  - rewrite (proj2 (Z.ltb_ge cp 128)), (proj2 (Z.ltb_lt cp 2048)) by lia. repeat f_equal; dlia.
  - rewrite (proj2 (Z.ltb_ge cp 128)), (proj2 (Z.ltb_ge cp 2048)), (proj2 (Z.ltb_lt cp 65536)) by lia. repeat f_equal; dlia.
  - rewrite (proj2 (Z.ltb_ge cp 128)), (proj2 (Z.ltb_ge cp 2048)), (proj2 (Z.ltb_ge cp 65536)) by lia. repeat f_equal; dlia.
Qed.

Lemma cont_value c : byte_ok c -> c &. 0xC0 = 0x80 -> exists x, c = 0x80 + x /\ 0 <= x < 64.
Proof.
  intros Hc Hl. assert (H : forallb (fun c => negb (c &. 0xC0 =? 0x80) || ((0x80 <=? c) && (c <? 0xC0))) (seqZ 0 256) = true) by by vm_compute.
  rewrite forallb_seqZ in H. specialize (H c ltac:(unfold byte_ok in Hc; lia)). rewrite Hl in H. cbn [Z.eqb Pos.eqb negb orb] in H. breflect.
  exists (c - 0x80). lia.
Qed.

(** One continuation byte that was accepted. *)
Lemma cont_inv s i n cp cp' :
  Forall byte_ok s -> utf8_cont s i (S n) cp = Some (Some cp') -> 0 <= cp < 0x4000000 ->
  exists x, rd8 s i = Some (0x80 + x) /\ 0 <= x < 64 /\ utf8_cont s (i + 1) n (cp * 64 + x) = Some (Some cp').
Proof.
  intros Hs Hc Hcp. pose proof Hc as Hc'. cbn [utf8_cont] in Hc. destruct (rd8 s i) as [c|] eqn:Hr; [|done]. cbn [mbind option_bind] in Hc.
  destruct (negb (_ =? 128)) eqn:E; [done|]. breflect. destruct (cont_value c (rd8_byte _ _ _ Hs Hr) E) as (x & -> & Hx).
  exists x. split; [done|]. split; [done|]. by rewrite (utf8_cont_step _ _ _ _ x) in Hc'.
Qed.

(** A sequence that is accepted encodes a character. *)
Lemma utf8_seq_sound c l k :
  Forall byte_ok (c :: l) -> c <> 0 -> utf8_seq (c :: l) = Some k -> k <> 0 ->
  exists cp, scalar cp /\ utf8_of cp = take (Z.to_nat k) (c :: l) /\ (c < 0x80 -> cp = c) /\ (0x80 <= c -> 0x80 <= cp).
Proof.
  intros Hb H0 Hk Hne. pose proof (proj1 (proj1 (Forall_cons _ _ _) Hb)) as Hc. unfold byte_ok in Hc.
  unfold utf8_seq in Hk. change (rd8 (c :: l) 0) with (Some c) in Hk. cbn [mbind option_bind] in Hk.
  destruct (Z.ltb_spec c 128).
  { injection Hk as <-. exists c. split; [unfold scalar; lia|]. split; [|lia]. unfold utf8_of. by rewrite (proj2 (Z.ltb_lt c 128)). }
  destruct ((c >=? 194) && (c <=? 223)) eqn:E2; [|destruct ((c >=? 224) && (c <=? 239)) eqn:E3; [|destruct ((c >=? 240) && (c <=? 244)) eqn:E4; [|congruence]]]; breflect.
  - destruct (2 >? _); [congruence|]. change (Z.to_nat (2 - 1)) with 1%nat in Hk.
    replace (c &. 31) with (c - 192) in Hk by (destruct (lead_bits (c - 192)) as [L _]; destruct (L ltac:(lia)) as [_ L']; by rewrite <- L' at 1; f_equal; lia).
    destruct (utf8_cont _ _ _ _) as [[cp|]|] eqn:Ec; cbn [mbind option_bind] in Hk; [|congruence|done].
    apply cont_inv in Ec as (x & Hr & Hx & Ec); [|done|lia]. cbn [utf8_cont] in Ec. injection Ec as <-.
    destruct (_ || _) eqn:Ev; injection Hk as <-; [done|]. breflect. destruct l as [|c1 l]; [done|]. injection Hr as ->.
    exists ((c - 192) * 64 + x). split; [unfold scalar; lia|]. split; [|lia]. unfold utf8_of.
    rewrite (proj2 (Z.ltb_ge _ 128)), (proj2 (Z.ltb_lt _ 2048)) by lia. simpl. repeat f_equal; dlia.
  - destruct (3 >? _); [congruence|]. change (Z.to_nat (3 - 1)) with 2%nat in Hk.
    replace (c &. 15) with (c - 224) in Hk by (destruct (lead_bits (c - 224)) as [_ [L _]]; destruct (L ltac:(lia)) as [_ L']; by rewrite <- L' at 1; f_equal; lia).
    destruct (utf8_cont _ _ _ _) as [[cp|]|] eqn:Ec; cbn [mbind option_bind] in Hk; [|congruence|done].
    apply cont_inv in Ec as (x & Hr & Hx & Ec); [|done|lia]. apply cont_inv in Ec as (y & Hr' & Hy & Ec); [|done|lia].
    cbn [utf8_cont] in Ec. injection Ec as <-. set (cp := ((c - 224) * 64 + x) * 64 + y) in *.
    destruct (_ || _) eqn:Ev; injection Hk as <-; [done|]. destruct l as [|c1 [|c2 l]]; [done..|]. injection Hr as ->. injection Hr' as ->.
    cbn [Z.eqb Pos.eqb andb orb] in Ev. breflect.
    exists cp. split; [unfold scalar; lia|]. split; [|lia]. unfold utf8_of.
    rewrite (proj2 (Z.ltb_ge _ 128)), (proj2 (Z.ltb_ge _ 2048)), (proj2 (Z.ltb_lt _ 65536)) by lia. simpl. repeat f_equal; dlia.
  - destruct (4 >? _); [congruence|]. change (Z.to_nat (4 - 1)) with 3%nat in Hk.
    replace (c &. 7) with (c - 240) in Hk by (destruct (lead_bits (c - 240)) as [_ [_ L]]; destruct (L ltac:(lia)) as [_ L']; by rewrite <- L' at 1; f_equal; lia).
    destruct (utf8_cont _ _ _ _) as [[cp|]|] eqn:Ec; cbn [mbind option_bind] in Hk; [|congruence|done].
    apply cont_inv in Ec as (x & Hr & Hx & Ec); [|done|lia]. apply cont_inv in Ec as (y & Hr' & Hy & Ec); [|done|lia].
    apply cont_inv in Ec as (z & Hr2 & Hz & Ec); [|done|lia].
    cbn [utf8_cont] in Ec. injection Ec as <-. set (cp := (((c - 240) * 64 + x) * 64 + y) * 64 + z) in *.
    destruct (_ || _) eqn:Ev; injection Hk as <-; [done|]. destruct l as [|c1 [|c2 [|c3 l]]]; [done..|]. injection Hr as ->. injection Hr' as ->. injection Hr2 as ->.
    cbn [Z.eqb Pos.eqb andb orb] in Ev. breflect.
    exists cp. split; [unfold scalar; lia|]. split; [|lia]. unfold utf8_of.
    rewrite (proj2 (Z.ltb_ge _ 128)), (proj2 (Z.ltb_ge _ 2048)), (proj2 (Z.ltb_ge _ 65536)) by lia. simpl. repeat f_equal; dlia.
Qed.

(** ** The spelling of a text *)

Lemma hex_char_digit k : 0 <= k < 16 -> hex_char k = hex_digits.[k].
Proof.
  intros Hk. assert (H : forallb (fun k => hex_char k =? hex_digits.[k]) (seqZ 0 16) = true) by by vm_compute.
  rewrite forallb_seqZ in H. apply Z.eqb_eq, H. lia.
Qed.

Lemma control_out c : 0 <= c < 256 -> hex_char (c >>. 4) = hex_digits.[c / 16] /\ hex_char (c &. 15) = hex_digits.[c mod 16].
Proof.
  intros Hc. rewrite Z.shiftr_div_pow2 by lia. change 15 with (Z.ones 4). rewrite Z.land_ones by lia. change (2 ^ 4) with 16.
  split; apply hex_char_digit; dlia.
Qed.

(** The first step of the writer is a step of the specification. *)
Lemma char_out_spells c l b : Forall byte_ok (c :: l) ->
  spells (char_out (c :: l)).2 b -> spells (c :: l) ((char_out (c :: l)).1 ++ b).
Proof.
  intros Hb. pose proof (proj1 (proj1 (Forall_cons _ _ _) Hb)) as Hc. unfold byte_ok in Hc. unfold char_out, QUOTE, BSLASH.
  destruct ((c =? 34) || (c =? 92)) eqn:E1.
  { intros Hsp. apply sp_named; [|done]. apply orb_true_iff in E1. rewrite !Z.eqb_eq in E1. unfold named. destruct E1 as [-> | ->]; set_solver. }
  destruct (Z.eqb_spec c 10) as [->|]; [intros Hsp; apply sp_named; [unfold named; set_solver|done]|].
  destruct (Z.eqb_spec c 13) as [->|]; [intros Hsp; apply sp_named; [unfold named; set_solver|done]|].
  destruct (Z.eqb_spec c 9) as [->|]; [intros Hsp; apply sp_named; [unfold named; set_solver|done]|].
  apply orb_false_iff in E1. rewrite !Z.eqb_neq in E1.
  assert (Hn : c ∉ named.*1) by (unfold named; simpl; rewrite !not_elem_of_cons; split_and!; try lia; apply not_elem_of_nil).
  destruct ((c <? 32) || (c =? 127)) eqn:E2.
  { cbn [fst snd]. destruct (control_out c ltac:(lia)) as [-> ->]. intros Hsp. apply sp_control; [|done..]. breflect. lia. }
  breflect. destruct (utf8_seq_total c l) as (k & Hk & Hr & _). rewrite Hk. simpl default.
  destruct (Nat.eqb_spec (Z.to_nat k) 0) as [Ek|Ek]; cbn [fst snd].
  - intros Hsp. assert (k = 0) as -> by lia.
    assert (Hbad : forall cp r, scalar cp -> c :: l <> utf8_of cp ++ r).
    { intros cp r Hs E. rewrite E, utf8_of_enc, utf8_seq_enc in Hk by done. injection Hk as Hk. pose proof (utf8_enc_len cp). lia. }
    apply sp_invalid; [|done|done]. destruct (Z.le_gt_cases 128 c) as [|Hlt]; [done|]. exfalso. apply (Hbad c l); [unfold scalar; lia|].
    unfold utf8_of. by rewrite (proj2 (Z.ltb_lt c 128)).
  - intros Hsp. destruct (utf8_seq_sound c l k Hb) as (cp & Hs & E & H1 & H2); [lia|done|lia|].
    pose proof (sp_plain cp (drop (Z.to_nat k) (c :: l)) b) as Hp. rewrite E, take_drop in Hp. apply Hp; [|done].
    split; [done|]. destruct (Z.lt_ge_cases c 128) as [Hlt|Hge]; [rewrite H1 by done|specialize (H2 Hge)]; lia.
Qed.

Lemma escaped_spells n s : Forall byte_ok s -> (length s <= n)%nat -> spells s (escaped_l n s).
Proof.
  revert s. induction n as [|n IH]; intros [|c l] Hb Hn; cbn [length] in Hn; try (constructor || lia).
  pose proof (char_out_spells c l) as Hs. pose proof (char_out_rest c l) as Hr. cbn [escaped_l].
  destruct (char_out (c :: l)) as [e r]. cbn [fst snd] in *. apply Hs; [done|]. apply IH.
  - apply Forall_cons in Hb as [_ Hb]. by eapply suffix_Forall.
  - destruct Hr as [t ->]. rewrite length_app in Hn. lia.
Qed.

(** The specification leaves no choice. *)
Lemma spells_step s b : spells s b -> Forall byte_ok s -> s <> [] ->
  exists e r b', char_out s = (e, r) /\ b = e ++ b' /\ spells r b' /\ (length r < length s)%nat.
Proof.
  intros Hs Hb Hne. unfold char_out, QUOTE, BSLASH. destruct Hs as [|c e l b He Hs|c l b Hc Hn Hs|cp l b Hp Hs|c l b Hc Hbad Hs]; [done|idtac..].
  - unfold named in He. rewrite !elem_of_cons in He. exists [92; e], l, b.
    destruct He as [[= -> ->]|[[= -> ->]|[[= -> ->]|[[= -> ->]|[[= -> ->]|He%elem_of_nil]]]]]; try done; split_and!; try done; simpl; lia.
  - unfold named in Hn. simpl in Hn. rewrite !not_elem_of_cons in Hn. destruct Hn as (N1 & N2 & N3 & N4 & N5 & _).
    rewrite !(fun y H => proj2 (Z.eqb_neq c y) H) by done. cbn [orb].
    assert (E : (c <? 32) || (c =? 127) = true) by (apply orb_true_iff; rewrite Z.ltb_lt, Z.eqb_eq; lia). rewrite E.
    destruct (control_out c ltac:(lia)) as [-> ->]. eexists _, l, b. split_and!; try done. simpl. lia.
  - destruct Hp as (Hsc & H20 & N1 & N2 & N3). pose proof (utf8_seq_enc cp l Hsc) as Hq. rewrite <- utf8_of_enc in Hq by done.
    pose proof (utf8_enc_len cp) as Hlen. rewrite <- utf8_of_enc in Hlen by done.
    assert (Hhd : exists c t, utf8_of cp = c :: t /\ 0x20 <= c /\ c <> 34 /\ c <> 92 /\ c <> 0x7F).
    { pose proof Hsc as [Hr _]. unfold utf8_of. destruct (Z.ltb_spec cp 128); [by eexists _, _|]. destruct (Z.ltb_spec cp 2048); [eexists _, _; split; [done|dlia]|].
      destruct (Z.ltb_spec cp 65536); eexists _, _; (split; [done|dlia]). }
    destruct Hhd as (c & t & Et & B1 & B2 & B3 & B4). exists (utf8_of cp), l, b. rewrite Et in *. cbn [app] in *. rewrite Hq.
    rewrite !(fun y H => proj2 (Z.eqb_neq c y) H) by lia. rewrite (proj2 (Z.ltb_ge c 32)) by lia. cbn [orb]. simpl default. unfold len. rewrite Nat2Z.id.
    cbn [Nat.eqb length]. change (S (length t)) with (length (c :: t)). change (c :: t ++ l) with ((c :: t) ++ l).
    rewrite take_app_length, drop_app_length. split_and!; try done. rewrite length_app. simpl. lia.
  - rewrite !(fun y H => proj2 (Z.eqb_neq c y) H) by lia. rewrite (proj2 (Z.ltb_ge c 32)) by lia. cbn [orb].
    destruct (utf8_seq_total c l) as (k & Hk & Hr & _). rewrite Hk. simpl default. destruct (Nat.eqb_spec (Z.to_nat k) 0) as [Ek|Ek].
    + eexists _, l, b. split_and!; try done. simpl. lia.
    + exfalso. destruct (utf8_seq_sound c l k Hb) as (cp & Hsc & E & _); [lia|done|lia|].
      apply (Hbad cp (drop (Z.to_nat k) (c :: l)) Hsc). by rewrite E, take_drop.
Qed.

Lemma spells_nil b : spells [] b -> b = [].
Proof.
  intros H. remember [] as s eqn:E. destruct H as [| | |cp l b _ _|]; try done. exfalso. unfold utf8_of in E. destruct (cp <? 128); [done|].
  destruct (cp <? 2048); [done|]. by destruct (cp <? 65536).
Qed.

Lemma spells_unique n s b : Forall byte_ok s -> (length s <= n)%nat -> spells s b -> b = escaped_l n s.
Proof.
  revert s b. induction n as [|n IH]; intros [|c l] b Hb Hn Hs; cbn [length] in Hn; try lia; [by apply spells_nil..|].
  destruct (spells_step _ _ Hs Hb) as (e & r & b' & E & -> & Hr & Hl); [done|]. cbn [escaped_l]. pose proof (char_out_rest c l) as Hsuf. rewrite E in *.
  cbn [snd length] in *. f_equal. apply IH; [|lia|done]. apply Forall_cons in Hb as [_ Hb]. by eapply suffix_Forall.
Qed.
