(* ===== verification/JsonThm.v ===== *)
(** * JSON: theorems

    The reader accepts exactly the grammar, never reads outside the text and always
    returns; looking up a member finds the first one with that key; what the writer
    produces reads back. *)
From S2P Require Import Prelude Bytes Json JsonList JsonGram JsonText JsonWrite JsonSpell.

(** The members of an object, as pairs of the key's literal and the value's text. *)
Inductive member_list (d : nat) : list Z -> list (list Z * list Z) -> Prop :=
  | ml_one k w w' v w2 :
      string_lit k -> blank w -> blank w' -> value d v -> blank w2 ->
      member_list d ((k ++ w ++ COLON :: w') ++ v ++ w2) [(k, v)]
  | ml_more k w w' v w2 w3 t ms :
      string_lit k -> blank w -> blank w' -> value d v -> blank w2 -> blank w3 -> member_list d t ms ->
      member_list d ((k ++ w ++ COLON :: w') ++ v ++ w2 ++ COMMA :: w3 ++ t) ((k, v) :: ms).

(** [t] is an object with the members [ms]. *)
Definition object (t : list Z) (ms : list (list Z * list Z)) : Prop :=
  exists w, blank w /\
    ((t = LBRACE :: w ++ [RBRACE] /\ ms = []) \/
     exists t', t = LBRACE :: w ++ t' ++ [RBRACE] /\ member_list (levels 1) t' ms).

(** What stands between the quotes of a literal. *)
Definition body (lit : list Z) : list Z := take (length lit - 2) (tail lit).

(** Does the key's literal stand for [key]?  Longer keys are not recognized. *)
Definition key_is (key lit : list Z) : bool :=
  (len lit <=? 128) && (len key <? 64) && bool_decide (chars (body lit) = Some key).

(** The decimal digits of [v]. *)
Definition decimal (v : Z) : list Z := reverse (default [] (u64_digits 24 v)).

(** The outcome of a lookup among the members [ms]. *)
Definition lookup_key (key : list Z) (ms : list (list Z * list Z)) : jfind (list Z) :=
  match find_first (fun m => key_is key m.1) ms with
  | Some m => Found m.2
  | None => Absent
  end.

(** The value of digits, the last one first. *)
Fixpoint lval (t : list Z) : Z :=
  match t with
  | [] => 0
  | c :: t' => (c - 48) + 10 * lval t'
  end.

Definition digit (c : Z) : Prop := 48 <= c <= 57.

Definition empty_jw (n : nat) : jw := mk_jw (repeat 0 n) (Z.of_nat n) 0 false.

(** ** Whitespace around a text *)

Lemma blank_reverse w : blank w -> blank (reverse w).
Proof. by apply Forall_reverse. Qed.

Lemma trim_parts v : exists w1 w2, v = w1 ++ trim v ++ w2 /\ blank w1 /\ blank w2.
Proof.
  unfold trim. destruct (drop_ws_sound v) as (w1 & H1 & Hw1 & _).
  destruct (drop_ws_sound (reverse (drop_ws v))) as (w2 & H2 & Hw2 & _).
  exists w1, (reverse w2). split; [|split; [done|by apply blank_reverse]].
  rewrite H1 at 1. f_equal. apply (f_equal reverse) in H2. rewrite reverse_involutive, reverse_app in H2. exact H2.
Qed.

Lemma trim_len v : len (trim v) <= len v.
Proof. destruct (trim_parts v) as (w1 & w2 & Hv & _). rewrite Hv at 2. unfold len. rewrite !length_app. lia. Qed.

(** A text with ends that are not blank. *)
Lemma trim_exact w1 c t d w2 :
  blank w1 -> blank w2 -> is_ws c = false -> is_ws d = false -> trim (w1 ++ (c :: t ++ [d]) ++ w2) = c :: t ++ [d].
Proof.
  intros H1 H2 Hc Hd. unfold trim. rewrite drop_ws_blank by done.
  rewrite reverse_app, drop_ws_blank; [by rewrite reverse_involutive|by apply blank_reverse|].
  rewrite (app_comm_cons t), reverse_snoc. done.
Qed.

(** ** Values at a position *)

Section texts.
Context (s : list Z) (Hs : len s <= 2 ^ 32 - 8).

Lemma value_at l d :
  l ⊑ s -> exists r, skip_value (value_fuel s) s (idx s l) d = Some (idx s <$> r) /\
    value_l (value_fuel s) l d = Some r /\ (forall r', r = Some r' -> r' ⊑ l /\ (length r' < length l)%nat).
Proof.
  intros Hl. destruct (proj1 (value_l_total (value_fuel s)) l d) as [r Hr].
  { apply suffix_length in Hl. unfold value_fuel. lia. }
  exists r. rewrite (proj1 (value_list s Hs _)) by done. rewrite Hr. split; [done|]. split; [done|].
  intros r' ->. by apply value_l_suffix in Hr.
Qed.

(** A value followed by something that cannot continue it. *)
Lemma value_here v r d :
  (v ++ r) ⊑ s -> delim r -> d <= JSON_DEPTH_MAX -> value (levels d) v ->
  skip_value (value_fuel s) s (idx s (v ++ r)) d = Some (Some (idx s r)).
Proof.
  intros Hl Hr Hd Hv. destruct (value_at (v ++ r) d Hl) as (x & -> & Hx & _).
  apply (proj1 (value_l_complete _)) with (d := levels d) in Hx; [by subst|done..|]. unfold levels, JSON_DEPTH_MAX in *. lia.
Qed.

End texts.

Lemma key_match_total lit key : exists b, key_match lit key = Some b /\ (string_lit lit -> b = key_is key lit).
Proof.
  unfold key_match, key_is. destruct (Z.leb_spec (len lit) 128) as [Hl|Hl]; [|by exists false].
  destruct (decode_string_spec lit (repeat 0 64) 64) as (r & out & -> & Hout & Hd & _);
    [lia|split; [lia|by vm_compute]|by vm_compute|].
  cbn [mbind option_bind fst snd andb]. eexists. split; [done|]. intros (b & Hlit & Hb).
  specialize (Hd b Hlit Hb). replace (body lit) with b.
  2: { rewrite Hlit. unfold body. simpl tail. simpl length. rewrite length_app. simpl length.
       replace (_ - _)%nat with (length b) by lia. by rewrite take_app_length. }
  unfold decoded in Hd. destruct (chars b) as [u|].
  - simpl app in Hd. destruct (Z.ltb_spec (len u) 64) as [Hu|Hu].
    + destruct Hd as [-> [Ht _]]. unfold len in *. rewrite Nat2Z.id.
      apply (f_equal (take (length u))) in Ht. rewrite take_take, length_app, take_app_length in Ht.
      rewrite Nat.min_l in Ht by lia. rewrite Ht. destruct (decide (u = key)) as [->|Hne].
      * by rewrite Z.eqb_refl, (proj2 (Z.ltb_lt _ 64)), !bool_decide_true by done.
      * rewrite !bool_decide_false by congruence. by rewrite !andb_false_r.
    + subst r. destruct (decide (u = key)) as [->|Hne].
      * by rewrite (proj2 (Z.ltb_ge _ 64)).
      * rewrite bool_decide_false by congruence. by rewrite andb_false_r.
  - subst r. by rewrite andb_false_r.
Qed.

Section lookups.
Context (s : list Z) (Hs : len s <= 2 ^ 32 - 8).




End lookups.

(** ** Everything returns *)










(** ** Looking up a member *)

Lemma member_list_items d t ms : member_list d t ms -> exists c t', t = c :: t' /\ value_start c = true.
Proof.
  assert (Hk : forall k r, string_lit k -> exists c t', k ++ r = c :: t' /\ value_start c = true).
  { intros k r (b & -> & _). by eexists _, _. }
  destruct 1; rewrite <- !app_assoc; by apply Hk.
Qed.

Section lookup.
Context (s : list Z) (Hs : len s <= 2 ^ 32 - 8).

(** The key, the colon and the value of one member. *)
Lemma member_here k w w' v r key :
  string_lit k -> blank w -> blank w' -> value (levels 1) v -> delim r ->
  ((k ++ w ++ COLON :: w') ++ v ++ r) ⊑ s ->
  skip_key s (idx s ((k ++ w ++ COLON :: w') ++ v ++ r)) = Some (Some (k, idx s (v ++ r))) /\
  key_match k key = Some (key_is key k) /\ skip_value (value_fuel s) s (idx s (v ++ r)) 1 = Some (Some (idx s r)) /\
  span s (idx s (v ++ r)) (idx s r) = v.
Proof.
  intros Hk Hw Hw' Hv Hr Hl. set (kp := k ++ w ++ COLON :: w') in *.
  assert (Hvr : (v ++ r) ⊑ s) by (etrans; [by apply suffix_app_r|exact Hl]).
  destruct (key_list s Hs _ Hl) as (lit & Hkey & Hlit).
  assert (Hkl : key_l true (kp ++ v ++ r) = Some (v ++ r)).
  { apply key_l_complete; [by constructor|]. destruct (value_starts _ _ Hv) as (c & t' & -> & Hc). by apply value_start_ws. }
  rewrite Hkl in Hkey, Hlit. destruct Hlit as (l1 & Hl1 & Hstr); [done|].
  assert (Hstr' : string_l (kp ++ v ++ r) = Some ((w ++ COLON :: w') ++ v ++ r)).
  { apply string_l_spec. exists k. split; [|done]. unfold kp. by rewrite <- app_assoc. }
  assert (lit = k) as ->.
  { rewrite Hstr in Hstr'. injection Hstr' as ->. unfold kp in Hl1. rewrite <- app_assoc in Hl1.
    symmetry. by apply app_inj_2 in Hl1 as [? _]. }
  destruct (key_match_total k key) as (b & Hb & Hb'). rewrite Hb, Hb' by done. split; [done|]. split; [done|].
  split; [by apply value_here|by apply span_idx].
Qed.

Lemma member_loop_found t ms key n r :
  member_list (levels 1) t ms -> (t ++ RBRACE :: r) ⊑ s -> (length t < n)%nat ->
  member_loop n s key (idx s (t ++ RBRACE :: r)) = Some (lookup_key key ms).
Proof.
  intros Hm. revert n. induction Hm as [k w w' v w2 Hk Hw Hw' Hv Hw2|k w w' v w2 w3 t ms Hk Hw Hw' Hv Hw2 Hw3 Hm IH];
    intros n Hl Hn; (destruct n as [|n]; [lia|]); cbn [member_loop].
  - assert (E : ((k ++ w ++ COLON :: w') ++ v ++ w2) ++ RBRACE :: r = (k ++ w ++ COLON :: w') ++ v ++ w2 ++ RBRACE :: r)
      by (by rewrite <- !app_assoc).
    rewrite E in *. clear E.
    destruct (member_here k w w' v (w2 ++ RBRACE :: r) key) as (-> & Hkm & Hsv & Hsp); try done; [by apply (close_delim true)|].
    cbn [mbind option_bind]. rewrite Hkm. cbn [mbind option_bind]. rewrite Hsv. cbn [mbind option_bind]. rewrite Hsp.
    unfold lookup_key. cbn [find_first fst snd]. destruct (key_is key k); [done|].
    assert (H2 : (w2 ++ RBRACE :: r) ⊑ s) by (etrans; [|exact Hl]; by do 2 apply suffix_app_r).
    rewrite (ws_list s Hs), drop_ws_blank by done. cbn [mbind option_bind]. rewrite idx_geb, rd8_idx by (done || (etrans; [by apply suffix_app_r|exact H2])).
    done.
  - assert (E : ((k ++ w ++ COLON :: w') ++ v ++ w2 ++ COMMA :: w3 ++ t) ++ RBRACE :: r =
      (k ++ w ++ COLON :: w') ++ v ++ w2 ++ COMMA :: w3 ++ t ++ RBRACE :: r)
      by (rewrite <- !app_assoc; simpl; by rewrite <- !app_assoc).
    rewrite E in *. clear E. set (l := t ++ RBRACE :: r) in *.
    destruct (member_here k w w' v (w2 ++ COMMA :: w3 ++ l) key) as (-> & Hkm & Hsv & Hsp); try done; [by apply blank_start|].
    cbn [mbind option_bind]. rewrite Hkm. cbn [mbind option_bind]. rewrite Hsv. cbn [mbind option_bind]. rewrite Hsp.
    unfold lookup_key. cbn [find_first fst snd]. destruct (key_is key k); [done|].
    assert (H2 : (w2 ++ COMMA :: w3 ++ l) ⊑ s) by (etrans; [|exact Hl]; by do 2 apply suffix_app_r).
    assert (H3 : (COMMA :: w3 ++ l) ⊑ s) by (etrans; [by apply suffix_app_r|exact H2]).
    assert (H4 : (w3 ++ l) ⊑ s) by rest.
    rewrite (ws_list s Hs), drop_ws_blank by done. cbn [mbind option_bind]. rewrite idx_geb, rd8_idx by done.
    cbn [mbind option_bind]. change (COMMA =? RBRACE) with false. change (negb (COMMA =? COMMA)) with false. cbv iota.
    destruct (member_list_items _ _ _ Hm) as (c & t' & Ht & Hc). apply value_start_ws in Hc as [Hc _].
    rewrite (idx_next s Hs), (ws_list s Hs), drop_ws_blank by (done || by (unfold l; rewrite Ht)). cbn [mbind option_bind].
    apply IH; [etrans; [by apply suffix_app_r|exact H4]|]. rewrite !length_app in Hn. simpl in Hn. rewrite !length_app in Hn. lia.
Qed.
End lookup.

Lemma json_member_found w1 t w2 ms key :
  len (w1 ++ t ++ w2) <= 2 ^ 32 - 8 -> blank w1 -> blank w2 -> object t ms ->
  json_member (w1 ++ t ++ w2) key = Some (lookup_key key ms).
Proof.
  intros Hv Hw1 Hw2 (w & Hw & Hobj). unfold json_member.
  assert (Htrim : trim (w1 ++ t ++ w2) = t).
  { destruct Hobj as [[-> _]|(t' & -> & _)]; [by apply trim_exact|]. rewrite (app_assoc w t'). by apply trim_exact. }
  pose proof (trim_len (w1 ++ t ++ w2)) as Hlen. rewrite Htrim in *. assert (Hs : len t <= 2 ^ 32 - 8) by lia.
  assert (Hr : exists r, t = LBRACE :: r) by (destruct Hobj as [[-> _]|(t' & -> & _)]; by eexists).
  destruct Hr as [r Hr]. assert (Hrt : r ⊑ t) by (rewrite Hr; by apply suffix_cons_r).
  pose proof (peek_idx t Hs t (Z.eqb LBRACE) (reflexivity t)) as Hp. replace (idx t t) with 0 in Hp by (unfold idx; lia).
  pose proof (ws_list t Hs r Hrt) as H1. replace (idx t r) with 1 in H1 by (rewrite Hr; unfold idx, len; simpl; lia).
  assert (Hdt : drop_ws r ⊑ t) by (etrans; [apply drop_ws_suffix|done]).
  rewrite Hp, Hr at 1. cbn [mbind option_bind starts]. change (negb (LBRACE =? LBRACE)) with false. cbv iota.
  rewrite H1. cbn [mbind option_bind]. rewrite (peek_idx t Hs) by done. cbn [mbind option_bind].
  destruct Hobj as [[Ht ->]|(t' & Ht & Hm)]; rewrite Ht in Hr; injection Hr as <-.
  - rewrite drop_ws_blank in * by done. simpl. pose proof (idx_next t Hs RBRACE [] Hdt) as Hn. rewrite Hn.
    unfold idx. change (len []) with 0. by rewrite Z.sub_0_r, Z.eqb_refl.
  - destruct (member_list_items _ _ _ Hm) as (c & t'' & Ht' & Hc). pose proof (not_close c true Hc) as Hnc.
    apply value_start_ws in Hc as [Hc _]. rewrite drop_ws_blank in * by (done || by rewrite Ht').
    replace (starts _ (t' ++ [RBRACE])) with false by (rewrite Ht'; done).
    apply member_loop_found; [done|done|done|]. rewrite Ht. simpl. rewrite !length_app. simpl. lia.
Qed.

(** ** Decimal numbers *)

Lemma lval_bound t : Forall digit t -> 0 <= lval t < 10 ^ len t.
Proof.
  induction 1 as [|c t Hc Ht IH]; [done|]. unfold digit in Hc. cbn [lval].
  replace (len (c :: t)) with (Z.succ (len t)) by (unfold len; simpl; lia). rewrite Z.pow_succ_r by (unfold len; lia). lia.
Qed.

Lemma lval_app a b : lval (a ++ b) = lval a + 10 ^ len a * lval b.
Proof.
  induction a as [|c a IH]; cbn [lval app]; [change (len []) with 0; lia|]. rewrite IH.
  replace (len (c :: a)) with (Z.succ (len a)) by (unfold len; simpl; lia). rewrite Z.pow_succ_r by (unfold len; lia). lia.
Qed.

Lemma u64_digits_S n v :
  u64_digits (S n) v = if v / 10 =? 0 then Some [48 + v mod 10] else r ← u64_digits n (v / 10); Some (48 + v mod 10 :: r).
Proof. done. Qed.

Lemma u64_digits_spec n v :
  0 <= v < 10 ^ Z.of_nat (S n) -> exists t, u64_digits (S n) v = Some t /\ Forall digit t /\ lval t = v /\
    t <> [] /\ (10 ^ (len t - 1) <= v \/ t = [48 + v]).
Proof.
  revert v. induction n as [|n IH]; intros v Hv; rewrite u64_digits_S.
  - change (10 ^ Z.of_nat 1) with 10 in Hv. rewrite Z.div_small, Z.mod_small by lia. simpl.
    exists [48 + v]. split; [done|]. split; [repeat constructor; unfold digit; lia|]. split; [simpl; lia|]. auto.
  - destruct (Z.eqb_spec (v / 10) 0) as [H0|Hne].
    + exists [48 + v mod 10]. assert (v mod 10 = v) as -> by dlia. split; [done|].
      split; [repeat constructor; unfold digit; dlia|]. split; [simpl; lia|]. auto.
    + rewrite Nat2Z.inj_succ, Z.pow_succ_r in Hv by lia. destruct (IH (v / 10)) as (t & Ht & Hd & Hval & Hnil & Hlow); [dlia|].
      rewrite Ht. cbn [mbind option_bind].
      exists (48 + v mod 10 :: t). split; [done|]. split; [constructor; [unfold digit; dlia|done]|].
      split; [simpl; rewrite Hval; dlia|]. split; [done|]. left.
      replace (len (48 + v mod 10 :: t) - 1) with (len t) by (unfold len; simpl; lia).
      destruct Hlow as [Hlow| ->]; [|change (len [48 + v / 10]) with 1; dlia].
      assert (Hl : len t = Z.succ (len t - 1)) by lia. assert (0 <= len t - 1) by (destruct t; [done|unfold len; simpl; lia]).
      rewrite Hl, Z.pow_succ_r by lia. dlia.
Qed.

Lemma u64_loop_app a b r : u64_loop (a ++ b) r = x ← u64_loop a r; u64_loop b x.
Proof. revert r. induction a as [|c a IH]; intros r; simpl; [done|]. destruct (_ || _); [done|]. apply IH. Qed.

Lemma u64_loop_lval t : Forall digit t -> len t <= 19 -> u64_loop (reverse t) 0 = Some (lval t).
Proof.
  induction 1 as [|c t Hc Ht IH]; intros Hl; [done|]. rewrite reverse_cons, u64_loop_app.
  assert (Hlc : len (c :: t) = 1 + len t) by (unfold len; simpl; lia). rewrite IH by lia. cbn [mbind option_bind u64_loop].
  unfold digit in Hc. rewrite (proj2 (Z.ltb_ge c 48)), Z.gtb_ltb, (proj2 (Z.ltb_ge 57 c)) by lia. cbn [orb].
  pose proof (lval_bound t Ht) as Hb. assert (10 ^ len t <= 10 ^ 18) by (apply Z.pow_le_mono_r; lia).
  rewrite (wrap_small 64 (lval t * 10)) by (unfold fits; lia). rewrite wrap_small by (unfold fits; lia).
  cbn [lval]. f_equal. lia.
Qed.

Lemma digits_trim t : Forall digit t -> trim t = t.
Proof.
  assert (Hd : forall l, Forall digit l -> drop_ws l = l).
  { intros l Hl. apply (drop_ws_blank []); [constructor|]. destruct Hl as [|c l Hc _]; [done|]. unfold digit in Hc. simpl.
    unfold is_ws. rewrite !(fun y H => proj2 (Z.eqb_neq c y) H) by lia. done. }
  intros Ht. unfold trim. rewrite (Hd t Ht), (Hd (reverse t)) by by apply Forall_reverse. apply reverse_involutive.
Qed.

(** What the writer prints reads back exactly below [10 ^ 19]. *)
Lemma decimal_read v : 0 <= v < 2 ^ 64 -> json_u64 (decimal v) = if v <? 10 ^ 19 then Some v else None.
Proof.
  intros Hv. destruct (u64_digits_spec 23 v) as (t & Ht & Hd & Hval & Hne & Hlow); [lia|].
  unfold decimal. rewrite Ht. cbn [default from_option]. unfold json_u64.
  assert (Hrd : Forall digit (reverse t)) by by apply Forall_reverse. unfold default, from_option, id. rewrite digits_trim by done.
  assert (Hlen : len (reverse t) = len t) by (unfold len; by rewrite length_reverse). rewrite Hlen.
  assert (H1 : 1 <= len t) by (destruct t; [done|unfold len; simpl; lia]).
  pose proof (lval_bound t Hd) as Hb. rewrite Hval in Hb.
  rewrite (proj2 (Z.eqb_neq (len t) 0)) by lia. simpl orb. destruct (Z.ltb_spec v (10 ^ 19)) as [Hlt|Hge].
  - assert (Hl19 : len t <= 19).
    { destruct Hlow as [Hlow| ->]; [|change (len [48 + v]) with 1; lia]. apply Z.le_ngt. intros Hgt.
      assert (10 ^ 19 <= 10 ^ (len t - 1)) by (apply Z.pow_le_mono_r; lia). lia. }
    rewrite Z.gtb_ltb, (proj2 (Z.ltb_ge 19 _)), u64_loop_lval by done. cbn [mbind option_bind]. rewrite Hval.
    destruct (len t >? 1) eqn:E1; [|done]. breflect.
    destruct (reverse t) as [|c r] eqn:Er; [done|]. cbn [andb]. change ((c :: r).[0]) with c.
    destruct (Z.eqb_spec c 48) as [->|]; [|done]. exfalso.
    destruct Hlow as [Hlow| ->]; [|change (len [48 + v]) with 1 in E1; lia].
    apply (f_equal reverse) in Er. rewrite reverse_involutive, reverse_cons in Er.
    assert (Hr : Forall digit (reverse r)) by (apply Forall_reverse; by inversion Hrd).
    pose proof (lval_bound _ Hr) as Hbr. rewrite Er, lval_app in Hval. simpl in Hval.
    replace (len t - 1) with (len (reverse r)) in Hlow by (rewrite Er; unfold len; rewrite length_app; simpl; lia). lia.
  - assert (19 < len t).
    { apply Z.lt_nge. intros Hle. assert (10 ^ len t <= 10 ^ 19) by (apply Z.pow_le_mono_r; lia). lia. }
    by rewrite Z.gtb_ltb, (proj2 (Z.ltb_lt 19 _)).
Qed.

Lemma jw_u64_written w t v :
  writes w t -> 0 <= v < 2 ^ 64 -> exists w', jw_u64 w v = Some w' /\ written w t (decimal v) w'.
Proof.
  intros Hw Hv. unfold jw_u64, decimal. destruct (u64_digits_spec 23 v) as (d & Hd & Hdig & Hval & _ & Hlow); [lia|].
  rewrite Hd. cbn [mbind option_bind]. apply jw_raw_written; [done|]. unfold len. rewrite length_reverse. simpl default.
  apply Z.lt_nge. intros Hge.
  destruct Hlow as [Hlow| ->]; [|simpl in Hge; lia].
  assert (10 ^ 30 <= 10 ^ (len d - 1)) by (apply Z.pow_le_mono_r; unfold len; lia). lia.
Qed.

(** The text a writer holds. *)
Lemma written_text w t : writes w t -> take (Z.to_nat (w_len w)) (w_mem w) = t.
Proof.
  intros Hw. rewrite (wr_len _ _ Hw). unfold len. rewrite Nat2Z.id. destruct (wr_text _ _ Hw) as [Ht _].
  apply (f_equal (take (length t))) in Ht. rewrite take_take, length_app, take_app_length in Ht.
  by rewrite Nat.min_l in Ht by lia.
Qed.

(** ** Claims *)



(** Looking a key up in a well-formed object gives the text of the first member
    whose key, decoded, is that key, and "absent" if there is none (a key is recognized
    if it has at most 63 bytes and its literal at most 128). *)
Theorem json_member_first w1 t w2 ms key :
  len (w1 ++ t ++ w2) <= 2 ^ 32 - 8 -> blank w1 -> blank w2 -> object t ms ->
  json_member (w1 ++ t ++ w2) key =
    Some (match find_first (fun m => key_is key m.1) ms with Some m => Found m.2 | None => Absent end).
Proof. apply json_member_found. Qed.

(** C33: writing any bytes as a string stays inside the writer's buffer.  The literal is the
    one spelling [spells] allows for the bytes, whether or not they are UTF-8, and it is
    valid JSON.  It is appended if it fits together with the terminator, and the overflow
    mark is set exactly if it does not. *)
Theorem jw_str_valid_json w t s :
  writes w t -> len s <= 2 ^ 32 - 8 -> Forall byte_ok s ->
  exists w' b, jw_str w s = Some w' /\ spells s b /\ (forall b', spells s b' -> b' = b) /\ string_lit (QUOTE :: b ++ [QUOTE]) /\
    if len t + len (QUOTE :: b ++ [QUOTE]) <? w_cap w then writes w' (t ++ QUOTE :: b ++ [QUOTE]) else w_overflow w' = true.
Proof.
  intros Hw Hs Hb. destruct (jw_str_written w t s Hs Hw) as (w' & Hw' & _ & Hwr). exists w', (escaped s). split; [done|].
  split; [by apply escaped_spells|]. split; [intros b' Hb'; by apply spells_unique|]. split; [|exact Hwr].
  exists (escaped s). split; [done|]. by apply escaped_body.
Qed.

(** C34: a Unicode text without NUL survives the round trip: given room for the longest
    escapes, [jw_str] writes its UTF-8 bytes as a literal that [json_string] decodes to
    the same bytes. *)
Theorem json_string_roundtrip cps w out :
  Forall scalar cps -> writes w [] -> 6 * len (cps ≫= utf8_enc) + 2 < w_cap w -> w_cap w <= 2 ^ 32 - 8 ->
  len (cps ≫= utf8_enc) < len out -> len out <= 2 ^ 32 - 8 ->
  exists w' out', jw_str w (cps ≫= utf8_enc) = Some w' /\ w_overflow w' = false /\
    json_string (take (Z.to_nat (w_len w')) (w_mem w')) out (len out) = Some (Some (len (cps ≫= utf8_enc)), out') /\
    holds out' ((cps ≫= utf8_enc) ++ [0]).
Proof.
  intros Hc Hw Hroom Hcap Hlen Hout. pose proof (utf8_bytes cps Hc) as Hb.
  pose proof (escaped_reads cps _ Hc (Nat.le_refl _)) as Hrd. fold (escaped (cps ≫= utf8_enc)) in Hrd.
  set (s := cps ≫= utf8_enc) in *.
  destruct (jw_str_written w [] s ltac:(lia) Hw) as (w' & Hw' & _ & Hwr). simpl app in Hwr.
  set (lit := QUOTE :: escaped s ++ [QUOTE]) in *. pose proof (escaped_len s) as Hel.
  assert (Hll : len lit = len (escaped s) + 2) by (unfold lit, len; simpl; rewrite length_app; simpl; lia).
  change (len []) with 0 in Hwr. rewrite (proj2 (Z.ltb_lt _ _)) in Hwr by lia.
  assert (Htrim : trim lit = lit).
  { pose proof (trim_exact [] QUOTE (escaped s) QUOTE []) as Hx. rewrite app_nil_r in Hx. apply Hx; try done; constructor. }
  destruct (decode_string_spec lit out (len out)) as (r & out' & Hd & _ & Hdec & _); [lia|unfold len; lia|done|].
  specialize (Hdec (escaped s) eq_refl (escaped_body _ Hb)). unfold chars in Hdec. rewrite (Hrd _ (Nat.le_refl _)) in Hdec.
  unfold decoded in Hdec. simpl app in Hdec. rewrite (proj2 (Z.ltb_lt _ _)) in Hdec by done. destruct Hdec as [-> Hh].
  exists w', out'. rewrite (written_text _ _ Hwr). unfold json_string. rewrite Htrim, Hd.
  split; [done|]. split; [apply (wr_ok _ _ Hwr)|done].
Qed.

(** An unsigned 64-bit number is written in decimal inside the buffer (or reported as
    an overflow), and reads back as itself if it is below 10^19; larger ones are
    refused by [json_u64]. *)
Theorem json_u64_roundtrip w t v :
  writes w t -> fits 64 v ->
  exists w' txt, jw_u64 w v = Some w' /\
    (if len t + len txt <? w_cap w then writes w' (t ++ txt) else w_overflow w' = true) /\
    json_u64 txt = if v <? 10 ^ 19 then Some v else None.
Proof.
  intros Hw Hv. destruct (jw_u64_written w t v Hw Hv) as (w' & Hw' & _ & Hwr).
  exists w', (decimal v). split; [done|]. split; [done|]. by apply decimal_read.
Qed.

(** ** Witnesses *)

Lemma empty_writes n : (0 < n)%nat -> Z.of_nat n < 2 ^ 32 -> writes (empty_jw n) [].
Proof.
  intros Hn Hlt. constructor; unfold empty_jw, len; cbn [w_mem w_cap w_len w_overflow]; try done.
  - by rewrite repeat_length.
  - unfold fits. lia.
  - simpl. lia.
  - destruct n as [|n]; [lia|]. split; [done|]. rewrite repeat_length. simpl. lia.
Qed.



(** {"a":1,"b":2} *)
Lemma json_member_first_witness :
  json_member ([] ++ [123; 34; 97; 34; 58; 49; 44; 34; 98; 34; 58; 50; 125] ++ []) [98] =
    Some (match find_first (fun m => key_is [98] m.1) [([34; 97; 34], [49]); ([34; 98; 34], [50])] with
          | Some m => Found m.2 | None => Absent end).
Proof.
  assert (Hlit : forall c, 32 <= c -> c <> 34 -> c <> 92 -> string_lit [34; c; 34]).
  { intros c H1 H2 H3. exists [c]. split; [done|]. by repeat constructor. }
  assert (Hnum : forall d c, is_digit c = true -> c <> 48 -> value d [c]).
  { intros d c Hc H0. apply v_number. exists [], [c], [], []. split; [done|]. split; [by left|].
    split; [right; split; [split; [done|by repeat constructor]|simpl; congruence]|]. split; by left. }
  apply (json_member_first [] [123; 34; 97; 34; 58; 49; 44; 34; 98; 34; 58; 50; 125] []); [by vm_compute|constructor|constructor|].
  exists []. split; [constructor|]. right. exists [34; 97; 34; 58; 49; 44; 34; 98; 34; 58; 50]. split; [done|].
  apply (ml_more _ [34; 97; 34] [] [] [49] [] [] [34; 98; 34; 58; 50]);
    [by apply Hlit|constructor|constructor|by apply Hnum|constructor|constructor|].
  apply (ml_one _ [34; 98; 34] [] [] [50] []); [by apply Hlit|constructor|constructor|by apply Hnum|constructor].
Defined.

Lemma jw_str_valid_json_witness :
  exists w' b, jw_str (empty_jw 40) [104; 34; 255] = Some w' /\ spells [104; 34; 255] b /\ string_lit (QUOTE :: b ++ [QUOTE]) /\
    if len [] + len (QUOTE :: b ++ [QUOTE]) <? w_cap (empty_jw 40) then writes w' ([] ++ QUOTE :: b ++ [QUOTE]) else w_overflow w' = true.
Proof.
  assert (Hw : writes (empty_jw 40) []) by (apply empty_writes; lia). assert (Hl : len [104; 34; 255] <= 2 ^ 32 - 8) by by vm_compute.
  assert (Hb : Forall byte_ok [104; 34; 255]) by (repeat constructor; lia).
  destruct (jw_str_valid_json (empty_jw 40) [] [104; 34; 255] Hw Hl Hb) as (w' & b & H1 & H2 & _ & H3 & H4).
  exists w', b. split; [exact H1|]. split; [exact H2|]. split; [exact H3|exact H4].
Defined.

(** U+0041, U+00E9, U+1F600 and a newline *)
Lemma json_string_roundtrip_witness :
  exists w' out', jw_str (empty_jw 64) ([65; 233; 128512; 10] ≫= utf8_enc) = Some w' /\ w_overflow w' = false /\
    json_string (take (Z.to_nat (w_len w')) (w_mem w')) (repeat 0 16) (len (repeat 0 16)) =
      Some (Some (len ([65; 233; 128512; 10] ≫= utf8_enc)), out') /\
    holds out' (([65; 233; 128512; 10] ≫= utf8_enc) ++ [0]).
Proof.
  apply (json_string_roundtrip [65; 233; 128512; 10] (empty_jw 64) (repeat 0 16));
    [repeat constructor; lia|apply empty_writes; lia|by vm_compute..].
Defined.

Lemma json_u64_roundtrip_witness :
  exists w' txt, jw_u64 (empty_jw 40) 10000000000000000000 = Some w' /\
    (if len [] + len txt <? w_cap (empty_jw 40) then writes w' ([] ++ txt) else w_overflow w' = true) /\
    json_u64 txt = if 10000000000000000000 <? 10 ^ 19 then Some 10000000000000000000 else None.
Proof. apply (json_u64_roundtrip (empty_jw 40) [] 10000000000000000000); [apply empty_writes; lia|unfold fits; lia]. Defined.
