(* ===== verification/Bn.v ===== *)
(** * Big numbers with Montgomery multiplication

    [lib/crypto/bn.c] and the part of [nanox/ecc.h] it implements.  A number is an
    array of 32-bit limbs, the least significant first; the functions work on the
    first [n] limbs of the arrays they are given.  Every function reads a limb before
    it writes the limb of the same index, so the calls of the source whose result
    overwrites an operand are the calls written here.  The locals [x] and [acc] of
    [nx_mod_exp] start as zeros; the code reads only the limbs it wrote before. *)
From S2P Require Import Prelude Bytes.

(** ** Data *)

Definition NX_BN_MAX_BITS : Z := 4096.
Definition NX_BN_LIMBS : Z := NX_BN_MAX_BITS / 32 + 2.

Record nx_mont := mk_mont {
  mt_n : Z;
  mt_m : list Z;
  mt_minv : Z;
  mt_rr : list Z;
  mt_one : list Z;
  mt_bits : Z
}.

(** [memset(a, 0, n * 4)] and [memcpy(dst, src, n * 4)] *)
Definition zero_limbs (a : list Z) (n : Z) : list Z := replicate (Z.to_nat n) 0 ++ drop (Z.to_nat n) a.
Definition copy_limbs (dst src : list Z) (n : Z) : list Z := take (Z.to_nat n) src ++ drop (Z.to_nat n) dst.

(** ** Conversions and comparison *)

Fixpoint from_be_loop (out : list Z) (n : Z) (be : list Z) (idxs : list Z) : list Z * bool :=
  match idxs with
  | [] => (out, true)
  | i :: idxs' =>
      let v := be.[Z.of_nat (length be) - 1 - i] in
      if i / 4 >=? n then if negb (v =? 0) then (out, false) else from_be_loop out n be idxs'
      else from_be_loop (out.[i / 4 := out.[i / 4] |. u32 (v <<. (8 * (i mod 4)))]) n be idxs'
  end.

Definition nx_bn_from_be (out : list Z) (n : Z) (be : list Z) : list Z * bool :=
  from_be_loop (zero_limbs out n) n be (seqZ 0 (Z.of_nat (length be))).

(** The [len] bytes written to [be]. *)
Definition nx_bn_to_be (len : Z) (a : list Z) (n : Z) : list Z :=
  reverse ((fun i => if i / 4 <? n then u8 (a.[i / 4] >>. (8 * (i mod 4))) else 0) <$> seqZ 0 len).

Definition nx_bn_cmp (a b : list Z) (n : Z) : Z :=
  match find_first (fun i => negb (a.[i] =? b.[i])) (reverse (seqZ 0 n)) with
  | Some i => if a.[i] <? b.[i] then -1 else 1
  | None => 0
  end.

Definition nx_bn_is_zero (a : list Z) (n : Z) : bool :=
  for_each (seqZ 0 n) (fun x i => x |. a.[i]) 0 =? 0.

(** [__builtin_clz] on 32 bits, for a non-zero argument. *)
Definition clz32 (x : Z) : Z := 31 - Z.log2 x.

Definition nx_bn_bits (a : list Z) (n : Z) : Z :=
  match find_first (fun i => negb (a.[i] =? 0)) (reverse (seqZ 0 n)) with
  | Some i => u32 (i * 32 + (32 - clz32 a.[i]))
  | None => 0
  end.

(** ** Addition and subtraction *)

(** The result limbs and the borrow. *)
Definition sub_n (out a b : list Z) (n : Z) : list Z * Z :=
  for_each (seqZ 0 n) (fun '(out, borrow) i =>
    let d := u64 (u64 (a.[i] - b.[i]) - borrow) in (out.[i := u32 d], (d >>. 32) &. 1)) (out, 0).

(** The result limbs and the carry. *)
Definition add_n (out a b : list Z) (n : Z) : list Z * Z :=
  for_each (seqZ 0 n) (fun '(out, carry) i =>
    let s := u64 (u64 (a.[i] + b.[i]) + carry) in (out.[i := u32 s], s >>. 32)) (out, 0).

Definition dbl_mod (c : nx_mont) (a : list Z) : list Z :=
  let n := mt_n c in
  let top := a.[n - 1] >>. 31 in
  let a := for_each (reverse (seqZ 1 (n - 1))) (fun a i => a.[i := u32 (a.[i] <<. 1) |. (a.[i - 1] >>. 31)]) a in
  let a := a.[0 := u32 (a.[0] <<. 1)] in
  if negb (top =? 0) || (nx_bn_cmp a (mt_m c) n >=? 0) then (sub_n a a (mt_m c) n).1 else a.

(** ** Montgomery arithmetic *)

Fixpoint skip_zeros (be : list Z) : list Z :=
  match be with
  | [] => []
  | x :: be' => if x =? 0 then skip_zeros be' else be
  end.

(** Newton's iteration for the inverse of an odd limb. *)
Definition limb_inv (m0 : Z) : Z :=
  for_each (seqZ 0 5) (fun x _ => u32 (x * u32 (2 - u32 (m0 * x)))) m0.

(** [None]: the modulus is refused. *)
Definition nx_mont_init (mod_be : list Z) : option nx_mont :=
  let be := skip_zeros mod_be in
  let len := Z.of_nat (length be) in
  if (len =? 0) || (len >? NX_BN_MAX_BITS / 8) || (be.[len - 1] &. 1 =? 0) then None
  else
    let zeros := replicate (Z.to_nat NX_BN_LIMBS) 0 in
    let n := (len + 3) / 4 in
    let m := (nx_bn_from_be zeros n be).1 in
    let bits := nx_bn_bits m n in
    if bits <? 2 then None
    else
      let minv := u32 (0 - limb_inv m.[0]) in
      let c := mk_mont n m minv zeros zeros bits in
      let one := for_each (seqZ 0 (32 * n)) (fun a _ => dbl_mod c a) (zeros.[0 := 1]) in
      let rr := for_each (seqZ 0 (32 * n)) (fun a _ => dbl_mod c a) (copy_limbs zeros one n) in
      Some (mk_mont n m minv rr one bits).

(** [t += a * bi] on the limbs below [n]: the limbs and the carry. *)
Definition mul_row (t a : list Z) (bi n : Z) : list Z * Z :=
  for_each (seqZ 0 n) (fun '(t, carry) j =>
    let s := u64 (u64 (t.[j] + u64 (a.[j] * bi)) + carry) in (t.[j := u32 s], s >>. 32)) (t, 0).

(** [t = (t + q * m) / 2^32] on the limbs below [n], the first of which vanishes. *)
Definition red_row (t m : list Z) (q n carry : Z) : list Z * Z :=
  for_each (seqZ 1 (n - 1)) (fun '(t, carry) j =>
    let s := u64 (u64 (t.[j] + u64 (q * m.[j])) + carry) in (t.[j - 1 := u32 s], s >>. 32)) (t, carry).

(** One round: [t = (t + a * b[i] + q * m) / 2^32]. *)
Definition mont_round (c : nx_mont) (a b : list Z) (t : list Z) (i : Z) : list Z :=
  let n := mt_n c in
  let '(t, carry) := mul_row t a b.[i] n in
  let s := u64 (t.[n] + carry) in
  let t := t.[n := u32 s] in
  let t := t.[n + 1 := u32 (s >>. 32)] in
  let q := u32 (t.[0] * mt_minv c) in
  let carry := u64 (t.[0] + u64 (q * (mt_m c).[0])) >>. 32 in
  let '(t, carry) := red_row t (mt_m c) q n carry in
  let s := u64 (t.[n] + carry) in
  let t := t.[n - 1 := u32 s] in
  t.[n := u32 (t.[n + 1] + u32 (s >>. 32))].

Definition nx_mont_mul (c : nx_mont) (out a b : list Z) : list Z :=
  let n := mt_n c in
  let t := replicate (Z.to_nat (NX_BN_LIMBS + 2)) 0 in
  let t := for_each (seqZ 0 n) (mont_round c a b) t in
  let t := if negb (t.[n] =? 0) || (nx_bn_cmp t (mt_m c) n >=? 0) then (sub_n t t (mt_m c) n).1 else t in
  copy_limbs out t n.

Definition nx_mont_to (c : nx_mont) (out a : list Z) : list Z := nx_mont_mul c out a (mt_rr c).

Definition nx_mont_from (c : nx_mont) (out a : list Z) : list Z :=
  nx_mont_mul c out a ((replicate (Z.to_nat NX_BN_LIMBS) 0).[0 := 1]).

Definition nx_mod_add (c : nx_mont) (out a b : list Z) : list Z :=
  let '(out, carry) := add_n out a b (mt_n c) in
  if negb (carry =? 0) || (nx_bn_cmp out (mt_m c) (mt_n c) >=? 0) then (sub_n out out (mt_m c) (mt_n c)).1 else out.

Definition nx_mod_sub (c : nx_mont) (out a b : list Z) : list Z :=
  let '(out, borrow) := sub_n out a b (mt_n c) in
  if negb (borrow =? 0) then (add_n out out (mt_m c) (mt_n c)).1 else out.

(** One bit of the exponent: square, and multiply if it is set. *)
Definition exp_bit (c : nx_mont) (x : list Z) (byte : Z) (acc : list Z) (bit : Z) : list Z :=
  let acc := nx_mont_mul c acc acc acc in
  if negb ((byte >>. bit) &. 1 =? 0) then nx_mont_mul c acc acc x else acc.

Definition nx_mod_exp (c : nx_mont) (out base exp : list Z) : list Z :=
  let zeros := replicate (Z.to_nat NX_BN_LIMBS) 0 in
  let x := nx_mont_to c zeros base in
  let acc := copy_limbs zeros (mt_one c) (mt_n c) in
  let acc := for_each exp (fun acc byte => for_each (reverse (seqZ 0 8)) (exp_bit c x byte) acc) acc in
  nx_mont_from c out acc.

(** ** Values *)

(** The number in the first [n] limbs. *)
Fixpoint bv (a : list Z) (n : nat) : Z :=
  match n with
  | O => 0
  | S n' => bv a n' + a.[Z.of_nat n'] * 2 ^ (32 * Z.of_nat n')
  end.

Definition bval (a : list Z) (n : Z) : Z := bv a (Z.to_nat n).

(** The number in big-endian bytes. *)
Definition be_val (be : list Z) : Z := fold_left (fun r x => r * 256 + x) be 0.

Definition limb_ok (x : Z) : Prop := 0 <= x < 2 ^ 32.
