(* ===== verification/BnFacts.v ===== *)
(** * Big numbers: what the limb operations compute

    [bval a n] is the number in the first [n] limbs of [a]; comparison, addition,
    subtraction, doubling and the rows of a multiplication compute on it what they
    should. *)
From S2P Require Import Prelude Bytes Bn.

(** The limbs below [n] are 32-bit values. *)
Definition limbs (a : list Z) (n : Z) : Prop :=
  n <= Z.of_nat (length a) /\ forall j, 0 <= j < n -> limb_ok a.[j].

(** ** Values *)

Lemma bval_0 a : bval a 0 = 0.
Proof. done. Qed.

Lemma bval_S a i : 0 <= i -> bval a (i + 1) = bval a i + a.[i] * 2 ^ (32 * i).
Proof.
  intros Hi. unfold bval. replace (Z.to_nat (i + 1)) with (S (Z.to_nat i)) by lia. cbn [bv].
  by rewrite Z2Nat.id by lia.
Qed.

Lemma bval_ext a b n : (forall j, 0 <= j < n -> a.[j] = b.[j]) -> bval a n = bval b n.
Proof.
  intros He. destruct (Z.leb_spec 0 n) as [Hn|]; [|unfold bval; by replace (Z.to_nat n) with O by lia].
  revert He. pattern n. apply natlike_ind; [done| |done]. intros m Hm IH He.
  rewrite <- Z.add_1_r in *. rewrite !bval_S, IH, He; [done|lia|intros; apply He; lia|lia..].
Qed.

Lemma bval_set a k x n : 0 <= n <= k -> bval (a.[k := x]) n = bval a n.
Proof. intros Hk. apply bval_ext. intros j Hj. apply arr_get_set_ne; lia. Qed.

Lemma limbs_le a n m : limbs a n -> m <= n -> limbs a m.
Proof. intros [Hl Ha] Hm. split; [lia|]. intros j Hj. apply Ha. lia. Qed.

Lemma pow32_S i : 0 <= i -> 2 ^ (32 * (i + 1)) = 2 ^ 32 * 2 ^ (32 * i).
Proof. intros Hi. rewrite <- Z.pow_add_r by lia. f_equal. lia. Qed.

Lemma bval_bound a n : 0 <= n -> limbs a n -> 0 <= bval a n < 2 ^ (32 * n).
Proof.
  intros Hn. pattern n. apply natlike_ind; [done| |done]. intros m Hm IH Ha. rewrite <- Z.add_1_r in *.
  rewrite bval_S, pow32_S by lia. assert (Hb := proj2 Ha m ltac:(lia)). unfold limb_ok in Hb.
  specialize (IH (limbs_le _ _ m Ha ltac:(lia))). set (W := 2 ^ (32 * m)) in *. nia.
Qed.

Lemma limbs_set a n k x : limbs a n -> 0 <= k -> limb_ok x -> limbs (a.[k := x]) n.
Proof.
  intros [Hl Ha] Hk Hx. split; [by rewrite arr_set_length|]. intros j Hj. destruct (decide (j = k)) as [->|Hne].
  - rewrite arr_get_set_eq by lia. done.
  - rewrite arr_get_set_ne by lia. by apply Ha.
Qed.

(** Limbs written up to an index. *)
Lemma limbs_step a i x : limbs a i -> 0 <= i < Z.of_nat (length a) -> limb_ok x -> limbs (a.[i := x]) (i + 1).
Proof.
  intros [Hl Ha] Hi Hx. split; [rewrite arr_set_length; lia|]. intros j Hj. destruct (decide (j = i)) as [->|Hne].
  - rewrite arr_get_set_eq by lia. done.
  - rewrite arr_get_set_ne by lia. apply Ha. lia.
Qed.

Lemma bval_step a i x :
  0 <= i < Z.of_nat (length a) -> bval (a.[i := x]) (i + 1) = bval a i + x * 2 ^ (32 * i).
Proof. intros Hi. rewrite bval_S, bval_set, arr_get_set_eq by lia. done. Qed.

(** ** Words *)

Lemma word_split s : 0 <= s -> u32 s + (s >>. 32) * 2 ^ 32 = s.
Proof.
  intros Hs. unfold wrap. rewrite Z.shiftr_div_pow2 by lia. pose proof (Z.div_mod s (2 ^ 32) ltac:(lia)). lia.
Qed.

Lemma u32_ok x : limb_ok (u32 x).
Proof. apply (wrap_fits 32 x). lia. Qed.

Lemma word_carry s k : 0 <= s -> s < 2 ^ 32 * k -> 0 <= s >>. 32 < k.
Proof.
  intros Hs Hk. rewrite Z.shiftr_div_pow2 by lia. split; [apply Z.div_pos; lia|]. apply Z.div_lt_upper_bound; lia.
Qed.

(** A sum of a limb, a product of limbs and a carry fits 64 bits. *)
Lemma mac_fits t a b c :
  limb_ok t -> limb_ok a -> limb_ok b -> limb_ok c ->
  u64 (u64 (t + u64 (a * b)) + c) = t + a * b + c /\ 0 <= t + a * b + c < 2 ^ 32 * 2 ^ 32.
Proof.
  unfold limb_ok. intros Ht Ha Hb Hc. assert (Hp : 0 <= a * b <= (2 ^ 32 - 1) * (2 ^ 32 - 1)) by nia.
  rewrite (wrap_small 64 (a * b)) by (unfold fits; lia). rewrite (wrap_small 64 (t + a * b)) by (unfold fits; lia).
  rewrite wrap_small by (unfold fits; lia). split; [done|lia].
Qed.

(** ** Comparison *)

Lemma rev_seqZ_S n : 0 <= n -> reverse (seqZ 0 (n + 1)) = n :: reverse (seqZ 0 n).
Proof. 
  intros Hn. replace (n + 1) with (Z.of_nat (S (Z.to_nat n))) by lia. rewrite seqZ_S, reverse_snoc, Z2Nat.id by lia. done.
Qed.

Lemma cmp_spec a b n :
  0 <= n -> limbs a n -> limbs b n ->
  (nx_bn_cmp a b n = -1 /\ bval a n < bval b n) \/ (nx_bn_cmp a b n = 0 /\ bval a n = bval b n) \/
  (nx_bn_cmp a b n = 1 /\ bval b n < bval a n).
Proof.
  intros Hn. pattern n. apply natlike_ind; [|clear n Hn|done].
  - intros _ _. right. left. done.
  - intros n Hn IH Ha Hb. rewrite <- Z.add_1_r in *. unfold nx_bn_cmp. rewrite rev_seqZ_S by done. cbn [find_first].
    rewrite !bval_S by lia. pose proof (bval_bound a n Hn (limbs_le _ _ n Ha ltac:(lia))) as Ba.
    pose proof (bval_bound b n Hn (limbs_le _ _ n Hb ltac:(lia))) as Bb. set (W := 2 ^ (32 * n)) in *.
    destruct (Z.eqb_spec a.[n] b.[n]) as [He|Hne]; cbn [negb].
    + rewrite He. specialize (IH (limbs_le _ _ n Ha ltac:(lia)) (limbs_le _ _ n Hb ltac:(lia))). unfold nx_bn_cmp in IH. lia.
    + destruct (Z.ltb_spec a.[n] b.[n]); [left|right; right]; (split; [done|nia]).
Qed.

Lemma cmp_ge a b n : 0 <= n -> limbs a n -> limbs b n -> (nx_bn_cmp a b n >=? 0) = (bval b n <=? bval a n).
Proof.
  intros Hn Ha Hb. rewrite Z.geb_leb. apply eq_bool_prop_intro. rewrite !Is_true_true, !Z.leb_le.
  destruct (cmp_spec a b n Hn Ha Hb) as [[-> ?]|[[-> ?]|[-> ?]]]; lia.
Qed.

(** ** Subtraction and addition *)

(** The state of a loop that writes limbs: the written part, the rest as before. *)
Definition written_to (out0 out : list Z) (i : Z) : Prop :=
  length out = length out0 /\ limbs out i /\ forall j, i <= j -> out.[j] = out0.[j].

Lemma written_start out : written_to out out 0.
Proof. split; [done|]. split; [|done]. split; [lia|]. intros; lia. Qed.

Lemma written_next out0 out i x :
  written_to out0 out i -> 0 <= i < Z.of_nat (length out0) -> limb_ok x -> written_to out0 (out.[i := x]) (i + 1).
Proof.
  intros (Hl & Ha & Hr) Hi Hx. split; [by rewrite arr_set_length|]. split; [apply limbs_step; [done|lia|done]|].
  intros j Hj. rewrite arr_get_set_ne by lia. apply Hr. lia.
Qed.

Lemma sub_n_spec out a b n :
  0 <= n <= Z.of_nat (length out) -> limbs a n -> limbs b n ->
  let '(out', borrow) := sub_n out a b n in
  written_to out out' n /\ 0 <= borrow <= 1 /\ bval out' n = bval a n - bval b n + borrow * 2 ^ (32 * n).
Proof.
  intros Hn Ha Hb. unfold sub_n.
  apply (for_seqZ (fun i '(o, w) => written_to out o i /\ 0 <= w <= 1 /\ bval o i = bval a i - bval b i + w * 2 ^ (32 * i)) _ 0 n);
    [lia|split; [apply written_start|split; [lia|done]]|].
  intros i [o w] Hi (Ho & Hw & Hv). pose proof Ho as (Hlo & _ & _). cbn [fst snd].
  assert (Hai := proj2 Ha i ltac:(lia)). assert (Hbi := proj2 Hb i ltac:(lia)). unfold limb_ok in Hai, Hbi.
  set (d := u64 (u64 (a.[i] - b.[i]) - w)).
  assert (Hd : d = (a.[i] - b.[i] - w) mod 2 ^ 64) by (unfold d, wrap; by rewrite Zminus_mod_idemp_l).
  assert (Hborrow : u32 d = a.[i] - b.[i] - w + ((d >>. 32) &. 1) * 2 ^ 32 /\ 0 <= (d >>. 32) &. 1 <= 1).
  { rewrite Hd. destruct (Z.ltb_spec (a.[i] - b.[i] - w) 0) as [Hneg|Hpos].
    - replace (_ mod 2 ^ 64) with (a.[i] - b.[i] - w + 2 ^ 64) by (apply Z.mod_unique with (-1); lia).
      replace ((_ >>. 32) &. 1) with 1.
      + unfold wrap. split; [|lia]. symmetry. apply Z.mod_unique with (2 ^ 32 - 1); lia.
      + rewrite Z.shiftr_div_pow2 by lia. replace (_ / 2 ^ 32) with (2 ^ 32 - 1) by (apply Z.div_unique with (a.[i] - b.[i] - w + 2 ^ 32); lia). done.
    - rewrite Z.mod_small by lia. rewrite Z.shiftr_div_pow2, Z.div_small by lia. change (0 &. 1) with 0. unfold wrap. rewrite Z.mod_small by lia. lia. }
  destruct Hborrow as [Hu Hw']. split; [apply written_next; [done|lia|apply u32_ok]|]. split; [done|].
  rewrite bval_step, !bval_S, pow32_S, Hv, Hu by lia. ring.
Qed.

Lemma add_n_spec out a b n :
  0 <= n <= Z.of_nat (length out) -> limbs a n -> limbs b n ->
  let '(out', carry) := add_n out a b n in
  written_to out out' n /\ 0 <= carry <= 1 /\ bval out' n + carry * 2 ^ (32 * n) = bval a n + bval b n.
Proof.
  intros Hn Ha Hb. unfold add_n.
  apply (for_seqZ (fun i '(o, w) => written_to out o i /\ 0 <= w <= 1 /\ bval o i + w * 2 ^ (32 * i) = bval a i + bval b i) _ 0 n);
    [lia|split; [apply written_start|split; [lia|done]]|].
  intros i [o w] Hi (Ho & Hw & Hv). pose proof Ho as (Hlo & _ & _). cbn [fst snd].
  assert (Hai := proj2 Ha i ltac:(lia)). assert (Hbi := proj2 Hb i ltac:(lia)). unfold limb_ok in Hai, Hbi.
  rewrite (wrap_small 64 (a.[i] + b.[i])), (wrap_small 64 (a.[i] + b.[i] + w)) by (unfold fits; lia).
  assert (H0 : 0 <= a.[i] + b.[i] + w < 2 ^ 32 * 2) by lia.
  pose proof (word_split _ (proj1 H0)) as Hs. pose proof (word_carry _ _ (proj1 H0) (proj2 H0)) as Hc.
  split; [apply written_next; [done|lia|apply u32_ok]|]. split; [lia|].
  rewrite bval_step, !bval_S, pow32_S by lia. set (W := 2 ^ (32 * i)) in *. set (h := _ >>. 32) in *.
  replace (u32 (a.[i] + b.[i] + w)) with (a.[i] + b.[i] + w - h * 2 ^ 32) by lia. lia.
Qed.

(** ** Reduction below the modulus *)

(** Subtracting the modulus once brings a number below twice the modulus (with its
    carry) below the modulus. *)
Lemma reduce_once a m n top :
  0 <= n -> limbs a n -> limbs m n -> 0 <= top -> bval a n + top * 2 ^ (32 * n) < 2 * bval m n ->
  let r := if negb (top =? 0) || (nx_bn_cmp a m n >=? 0) then (sub_n a a m n).1 else a in
  written_to a r n /\ 0 <= bval r n < bval m n /\
  (bval r n = bval a n + top * 2 ^ (32 * n) \/ bval r n = bval a n + top * 2 ^ (32 * n) - bval m n).
Proof.
  intros Hn Ha Hm Ht Hlt. pose proof (bval_bound a n Hn Ha) as Ba. pose proof (bval_bound m n Hn Hm) as Bm.
  pose proof (sub_n_spec a a m n ltac:(destruct Ha; lia) Ha Hm) as Hsub. rewrite cmp_ge by done.
  destruct (sub_n a a m n) as [o w]. destruct Hsub as (Ho & Hw & Hv). cbn [fst]. set (W := 2 ^ (32 * n)) in *.
  pose proof (bval_bound o n Hn (proj1 (proj2 Ho))) as Bo. fold W in Bo.
  destruct (_ || _) eqn:E.
  - split; [done|]. apply orb_true_iff in E. rewrite negb_true_iff, Z.eqb_neq, Z.leb_le in E.
    assert (Ht1 : top = 0 \/ top = 1) by nia. assert (Hw1 : w = 0 \/ w = 1) by lia.
    destruct Ht1 as [-> | ->], Hw1 as [-> | ->]; lia.
  - apply orb_false_elim in E as [E1 E2]. rewrite negb_false_iff, Z.eqb_eq in E1. apply Z.leb_gt in E2. subst top.
    split; [|lia]. split; [done|]. split; done.
Qed.

(** ** Doubling *)


(** A limb shifted left by one bit, with the bit that comes in. *)
Lemma shl_limb x y :
  limb_ok x -> limb_ok y -> limb_ok (u32 (x <<. 1) |. (y >>. 31)) /\
  u32 (x <<. 1) |. (y >>. 31) = 2 * x - (x >>. 31) * 2 ^ 32 + (y >>. 31) /\ 0 <= y >>. 31 <= 1 /\ 0 <= x >>. 31 <= 1.
Proof.
  unfold limb_ok. intros Hx Hy.
  assert (Hy' : 0 <= y >>. 31 <= 1).
  { rewrite Z.shiftr_div_pow2 by lia. split; [apply Z.div_pos; lia|]. apply Z.lt_succ_r, Z.div_lt_upper_bound; lia. }
  assert (Hx' : 0 <= x >>. 31 <= 1).
  { rewrite Z.shiftr_div_pow2 by lia. split; [apply Z.div_pos; lia|]. apply Z.lt_succ_r, Z.div_lt_upper_bound; lia. }
  assert (Hlow : u32 (x <<. 1) = (x - (x >>. 31) * 2 ^ 31) <<. 1).
  { rewrite !Z.shiftl_mul_pow2 by lia. unfold wrap. symmetry. apply Z.mod_unique with (x >>. 31); [|lia].
    rewrite Z.shiftr_div_pow2 by lia. pose proof (Z.div_mod x (2 ^ 31) ltac:(lia)). pose proof (Z.mod_pos_bound x (2 ^ 31) ltac:(lia)). lia. }
  assert (He : u32 (x <<. 1) |. (y >>. 31) = 2 * x - (x >>. 31) * 2 ^ 32 + (y >>. 31)).
  { rewrite Hlow, lor_shiftl by lia. lia. }
  split; [|done]. rewrite He. clear Hlow He. rewrite !Z.shiftr_div_pow2 in * by lia.
  pose proof (Z.div_mod x (2 ^ 31) ltac:(lia)). pose proof (Z.mod_pos_bound x (2 ^ 31) ltac:(lia)).  lia.
Qed.

(** The limbs from [i] on, as a number. *)
Lemma shift_loop a n :
  1 <= n -> limbs a n ->
  let a' := for_each (reverse (seqZ 1 (n - 1))) (fun a i => a.[i := u32 (a.[i] <<. 1) |. (a.[i - 1] >>. 31)]) a in
  length a' = length a /\ (forall j, n <= j -> a'.[j] = a.[j]) /\ a'.[0] = a.[0] /\
  forall j, 1 <= j < n -> a'.[j] = u32 (a.[j] <<. 1) |. (a.[j - 1] >>. 31).
Proof.
  intros Hn [Hl Ha].
  pose proof (rev_for_seqZ (fun i a' => length a' = length a /\ (forall j, 0 <= j < i \/ n <= j -> a'.[j] = a.[j]) /\
    forall j, i <= j < n -> a'.[j] = u32 (a.[j] <<. 1) |. (a.[j - 1] >>. 31))
    (fun a i => a.[i := u32 (a.[i] <<. 1) |. (a.[i - 1] >>. 31)]) 1 (n - 1) a) as H.
  destruct H as (H1 & H2 & H3).
  - lia.
  - split; [done|]. split; [done|]. lia.
  - intros i b Hi (H1 & H2 & H3). split; [by rewrite arr_set_length|]. split.
    + intros j Hj. rewrite arr_get_set_ne by lia. apply H2. lia.
    + intros j Hj. destruct (decide (j = i)) as [->|Hne].
      * rewrite arr_get_set_eq by lia. rewrite !H2 by lia. done.
      * rewrite arr_get_set_ne by lia. apply H3. lia.
  - split; [done|]. split; [intros; apply H2; lia|]. split; [apply H2; lia|done].
Qed.

Lemma shift_value a b n :
  1 <= n -> limbs a n -> b.[0] = u32 (a.[0] <<. 1) ->
  (forall j, 1 <= j < n -> b.[j] = u32 (a.[j] <<. 1) |. (a.[j - 1] >>. 31)) ->
  bval b n + (a.[n - 1] >>. 31) * 2 ^ (32 * n) = 2 * bval a n.
Proof.
  intros Hn Ha H0 Hj. assert (Hgo : forall k, 1 <= k <= n -> bval b k + (a.[k - 1] >>. 31) * 2 ^ (32 * k) = 2 * bval a k); [|apply Hgo; lia].
  intros k Hk. replace k with (1 + (k - 1)) by lia. pattern (k - 1).
  apply (Zlt_0_ind (fun x => x <= n - 1 -> bval b (1 + x) + (a.[1 + x - 1] >>. 31) * 2 ^ (32 * (1 + x)) = 2 * bval a (1 + x))); [|lia|lia].
  clear k Hk. intros x IH Hx0 Hx. destruct (decide (x = 0)) as [->|Hne].
  - change (1 + 0) with (0 + 1). rewrite !bval_S, !bval_0, H0 by lia. change (0 + 1 - 1) with 0.
    destruct (shl_limb a.[0] 0 (proj2 Ha 0 ltac:(lia)) ltac:(unfold limb_ok; lia)) as (_ & He & _).
    change (0 >>. 31) with 0 in He. rewrite Z.lor_0_r in He. rewrite He. change (2 ^ (32 * (0 + 1))) with (2 ^ 32). change (2 ^ (32 * 0)) with 1. lia.
  - specialize (IH (x - 1) ltac:(lia) ltac:(lia)). replace (1 + (x - 1)) with x in IH by lia.
    replace (1 + x) with (x + 1) by lia. rewrite !bval_S, Hj, pow32_S by lia. replace (x + 1 - 1) with x by lia.
    destruct (shl_limb a.[x] a.[x - 1] (proj2 Ha x ltac:(lia)) (proj2 Ha (x - 1) ltac:(lia))) as (_ & -> & _).
    set (W := 2 ^ (32 * x)) in *. nia.
Qed.

Lemma shift_limbs a b n :
  1 <= n -> limbs a n -> length b = length a -> b.[0] = u32 (a.[0] <<. 1) ->
  (forall j, 1 <= j < n -> b.[j] = u32 (a.[j] <<. 1) |. (a.[j - 1] >>. 31)) -> limbs b n.
Proof.
  intros Hn Ha Hl H0 Hj. split; [destruct Ha; lia|]. intros j Hjn. destruct (decide (j = 0)) as [->|Hne].
  - rewrite H0. apply u32_ok.
  - rewrite Hj by lia. apply shl_limb; apply (proj2 Ha); lia.
Qed.
