(* ===== verification/BnMont.v ===== *)
(** * Big numbers: Montgomery multiplication and exponentiation

    A multiplication computes [a * b / 2^(32 n)] modulo the modulus, the set-up
    computes the constants it needs, and the exponentiation the power. *)
From S2P Require Import Prelude Bytes Bn BnFacts.

(** ** Congruence *)

Definition congr (m x y : Z) : Prop := exists k, x = y + k * m.

#[export] Instance congr_equiv m : Equivalence (congr m).
Proof.
  split.
  - intros x. exists 0. lia.
  - intros x y [k ->]. exists (- k). lia.
  - intros x y z [k ->] [l ->]. exists (k + l). lia.
Qed.

#[export] Instance congr_add m : Proper (congr m ==> congr m ==> congr m) Z.add.
Proof. intros x x' [k ->] y y' [l ->]. exists (k + l). lia. Qed.

#[export] Instance congr_mul m : Proper (congr m ==> congr m ==> congr m) Z.mul.
Proof. intros x x' [k ->] y y' [l ->]. exists (x' * l + k * y' + k * l * m). lia. Qed.

Lemma congr_unique m x y : congr m x y -> 0 <= x < m -> 0 <= y < m -> x = y.
Proof. intros [k ->] Hx Hy. assert (k = 0) by nia. lia. Qed.

Lemma congr_mod m x : 0 < m -> congr m (x mod m) x.
Proof. intros Hm. exists (- (x / m)). pose proof (Z.div_mod x m ltac:(lia)). lia. Qed.

Lemma congr_mult m k : congr m (k * m) 0.
Proof. exists k. lia. Qed.

(** A power of two can be cancelled modulo an odd number. *)
Lemma congr_cancel m k x y : Z.odd m = true -> 0 <= k -> congr m (x * 2 ^ k) (y * 2 ^ k) -> congr m x y.
Proof.
  intros Hodd Hk. apply Z.odd_spec in Hodd as [p Hp]. revert x y. pattern k. apply natlike_ind; [|clear k Hk|done].
  - intros x y. by rewrite !Z.mul_1_r.
  - intros k Hk IH x y [l Hl]. rewrite Z.pow_succ_r in Hl by done. apply IH.
    exists ((x - y) * 2 ^ k - l * p). subst m. set (W := 2 ^ k) in *.
    assert (Hj : l = 2 * ((x - y) * W - l * p)) by nia. remember ((x - y) * W - l * p) as j eqn:Ej.
    assert (l * p = 2 * j * p) by (rewrite Hj at 1; ring). nia.
Qed.

(** ** The context of a multiplication *)

Record mont_ok (c : nx_mont) : Prop := mk_mont_ok {
  mo_n : 1 <= mt_n c <= NX_BN_MAX_BITS / 32;
  mo_m : limbs (mt_m c) (mt_n c);
  mo_odd : Z.odd (bval (mt_m c) (mt_n c)) = true;
  mo_big : 1 < bval (mt_m c) (mt_n c);
  mo_minv : congr (2 ^ 32) ((mt_m c).[0] * mt_minv c) (-1)
}.

(** ** Rows *)

Lemma mul_row_spec t a bi n :
  0 <= n <= Z.of_nat (length t) -> limbs t n -> limbs a n -> limb_ok bi ->
  let '(t', carry) := mul_row t a bi n in
  written_to t t' n /\ limb_ok carry /\ bval t' n + carry * 2 ^ (32 * n) = bval t n + bval a n * bi.
Proof.
  intros Hn Ht Ha Hb. unfold mul_row.
  apply (for_seqZ (fun i '(t', c) => written_to t t' i /\ limb_ok c /\ bval t' i + c * 2 ^ (32 * i) = bval t i + bval a i * bi) _ 0 n);
    [lia|split; [apply written_start|split; [unfold limb_ok; lia|done]]|].
  intros i [t' c] Hi (Hw & Hc & Hv). pose proof Hw as (Hl & _ & Hr). rewrite (Hr i) by lia.
  assert (Hti := proj2 Ht i ltac:(lia)). assert (Hai := proj2 Ha i ltac:(lia)).
  destruct (mac_fits _ _ _ _ Hti Hai Hb Hc) as [-> Hs]. set (s := t.[i] + a.[i] * bi + c) in *.
  pose proof (word_split s (proj1 Hs)) as Hsp. pose proof (word_carry s _ (proj1 Hs) (proj2 Hs)) as Hcr.
  split; [apply written_next; [done|lia|apply u32_ok]|]. split; [done|].
  rewrite bval_step, !bval_S, pow32_S by lia. replace (u32 s) with (s - (s >>. 32) * 2 ^ 32) by lia.
  unfold s at 1. lia.
Qed.

Lemma red_row_spec t m q n carry :
  1 <= n <= Z.of_nat (length t) -> limbs t n -> limbs m n -> limb_ok q -> limb_ok carry ->
  2 ^ 32 * carry = t.[0] + q * m.[0] ->
  let '(t', c) := red_row t m q n carry in
  written_to t t' (n - 1) /\ limb_ok c /\ 2 ^ 32 * (bval t' (n - 1) + c * 2 ^ (32 * (n - 1))) = bval t n + q * bval m n.
Proof.
  intros Hn Ht Hm Hq Hc H0. unfold red_row.
  pose proof (for_seqZ (fun i '(t', c) => written_to t t' (i - 1) /\ limb_ok c /\
    2 ^ 32 * (bval t' (i - 1) + c * 2 ^ (32 * (i - 1))) = bval t i + q * bval m i)
    (fun '(t, carry) j => let s := u64 (u64 (t.[j] + u64 (q * m.[j])) + carry) in (t.[j - 1 := u32 s], s >>. 32)) 1 (n - 1) (t, carry)) as H.
  replace (1 + (n - 1)) with n in H by lia. apply H; [lia| |].
  - split; [apply written_start|]. split; [done|]. change (bval t 1) with (bval t (0 + 1)). change (bval m 1) with (bval m (0 + 1)).
    rewrite !bval_S, !bval_0 by lia. change (2 ^ (32 * (1 - 1))) with 1. change (2 ^ (32 * 0)) with 1. change (bval t (1 - 1)) with 0. lia.
  - clear H. intros i [t' c] Hi (Hw & Hcc & Hv). pose proof Hw as (Hl & _ & Hr). rewrite (Hr i) by lia.
    assert (Hti := proj2 Ht i ltac:(lia)). assert (Hmi := proj2 Hm i ltac:(lia)).
    destruct (mac_fits _ _ _ _ Hti Hq Hmi Hcc) as [-> Hs]. set (s := t.[i] + q * m.[i] + c) in *.
    pose proof (word_split s (proj1 Hs)) as Hsp. pose proof (word_carry s _ (proj1 Hs) (proj2 Hs)) as Hcr.
    replace (i + 1 - 1) with (i - 1 + 1) by lia. split; [apply written_next; [done|lia|apply u32_ok]|]. split; [done|].
    rewrite bval_step, !bval_S by lia. rewrite (pow32_S (i - 1)) by lia.
    replace (2 ^ (32 * i)) with (2 ^ 32 * 2 ^ (32 * (i - 1))) by (rewrite <- pow32_S by lia; do 2 f_equal; lia).
    replace (u32 s) with (s - (s >>. 32) * 2 ^ 32) by lia. unfold s at 1. set (W := 2 ^ (32 * (i - 1))) in *. lia.
Qed.

(** ** One round *)

(** The factor [q] makes the lowest limb vanish. *)
Lemma q_clears t0 m0 minv :
  limb_ok t0 -> limb_ok m0 -> congr (2 ^ 32) (m0 * minv) (-1) ->
  let q := u32 (t0 * minv) in
  let carry := u64 (t0 + u64 (q * m0)) >>. 32 in
  limb_ok q /\ limb_ok carry /\ 2 ^ 32 * carry = t0 + q * m0.
Proof.
  intros Ht Hm Hinv q carry. pose proof (u32_ok (t0 * minv)) as Hq. fold q in Hq.
  destruct (mac_fits t0 q m0 0 Ht Hq Hm ltac:(unfold limb_ok; lia)) as [_ Hs]. rewrite Z.add_0_r in Hs.
  assert (Hp : 0 <= q * m0 < 2 ^ 64) by (unfold limb_ok in *; nia).
  assert (Hcarry : carry = (t0 + q * m0) / 2 ^ 32).
  { unfold carry. rewrite (wrap_small 64 (q * m0)), (wrap_small 64 (t0 + q * m0)) by (unfold fits; lia).
    by rewrite Z.shiftr_div_pow2 by lia. }
  assert (Hdiv : congr (2 ^ 32) (t0 + q * m0) 0).
  { unfold q, wrap. rewrite (congr_mod (2 ^ 32) (t0 * minv)) by lia.
    replace (t0 * minv * m0) with (t0 * (m0 * minv)) by ring. rewrite Hinv. exists 0. lia. }
  destruct Hdiv as [k Hk]. assert (carry = k) as -> by (rewrite Hcarry; symmetry; apply Z.div_unique with 0; lia).
  split; [done|]. split; [unfold limb_ok; nia|lia].
Qed.

(** The limbs of the accumulator: [n + 1] of them in use, and the one above. *)
Definition acc_ok (n : Z) (t : list Z) : Prop := n + 2 <= Z.of_nat (length t) /\ limbs t (n + 1).

Lemma mont_round_spec c a b t i :
  mont_ok c -> let n := mt_n c in let M := bval (mt_m c) n in
  limbs a n -> bval a n < M -> limb_ok b.[i] -> acc_ok n t -> bval t (n + 1) < 2 * M ->
  let t' := mont_round c a b t i in
  length t' = length t /\ acc_ok n t' /\ bval t' (n + 1) < 2 * M /\
  exists q, 2 ^ 32 * bval t' (n + 1) = bval t (n + 1) + bval a n * b.[i] + q * M.
Proof.
  intros [Hn Hm _ Hbig Hinv] n M Ha HaM Hb [Hlen Ht] HtM. fold n in Hn, Hm, Hinv. fold M in Hbig. unfold mont_round. fold n.
  assert (Htn : limbs t n) by (eapply limbs_le; [done|lia]).
  pose proof (mul_row_spec t a b.[i] n ltac:(lia) Htn Ha Hb) as Hrow. destruct (mul_row t a b.[i] n) as [t1 c1].
  destruct Hrow as ((Hl1 & Hlb1 & Hr1) & Hc1 & Hv1). rewrite (Hr1 n) by lia.
  assert (Htn1 := proj2 Ht n ltac:(lia)). assert (Hs : 0 <= t.[n] + c1 < 2 ^ 32 * 2) by (unfold limb_ok in *; lia).
  rewrite (wrap_small 64 (t.[n] + c1)) by (unfold fits; lia). set (s := t.[n] + c1) in *.
  pose proof (word_split s (proj1 Hs)) as Hsp. pose proof (word_carry s _ (proj1 Hs) (proj2 Hs)) as Hcr.
  set (h := s >>. 32) in *. rewrite (wrap_small 32 h) by (unfold fits; lia).
  set (t3 := (t1.[n := u32 s]).[n + 1 := h]).
  assert (Hl3 : length t3 = length t) by (unfold t3; by rewrite !arr_set_length).
  assert (Hb3 : limbs t3 n) by (apply limbs_set; [apply limbs_set; [done|lia|apply u32_ok]|lia|unfold limb_ok; lia]).
  assert (Hv3 : bval t3 n = bval t1 n) by (unfold t3; by rewrite !bval_set by lia).
  assert (H3n : t3.[n] = u32 s) by (unfold t3; rewrite arr_get_set_ne, arr_get_set_eq by lia; done).
  assert (H3n1 : t3.[n + 1] = h) by (unfold t3; rewrite arr_get_set_eq; [done|rewrite arr_set_length; lia]).
  destruct (q_clears t3.[0] (mt_m c).[0] (mt_minv c) (proj2 Hb3 0 ltac:(lia)) (proj2 Hm 0 ltac:(lia)) Hinv) as (Hq & Hk & Hk0).
  set (q := u32 (t3.[0] * mt_minv c)) in *. set (k := u64 (t3.[0] + u64 (q * (mt_m c).[0])) >>. 32) in *.
  pose proof (red_row_spec t3 (mt_m c) q n k ltac:(lia) Hb3 Hm Hq Hk Hk0) as Hred.
  destruct (red_row t3 (mt_m c) q n k) as [t4 c4]. destruct Hred as ((Hl4 & Hb4 & Hr4) & Hc4 & Hv4).
  rewrite (Hr4 n) by lia. rewrite H3n. pose proof (u32_ok s) as Hus.
  assert (Hs2 : 0 <= u32 s + c4 < 2 ^ 32 * 2) by (unfold limb_ok in *; lia).
  rewrite (wrap_small 64 (u32 s + c4)) by (unfold fits; lia). set (s2 := u32 s + c4) in *.
  pose proof (word_split s2 (proj1 Hs2)) as Hsp2. pose proof (word_carry s2 _ (proj1 Hs2) (proj2 Hs2)) as Hcr2.
  set (h2 := s2 >>. 32) in *. rewrite (wrap_small 32 h2) by (unfold fits; lia).
  rewrite (arr_get_set_ne _ (n - 1) (n + 1)) by lia. rewrite (Hr4 (n + 1)) by lia. rewrite H3n1.
  rewrite (wrap_small 32 (h + h2)) by (unfold fits; lia).
  set (t6 := (t4.[n - 1 := u32 s2]).[n := h + h2]).
  assert (Hl6 : length t6 = length t) by (unfold t6; rewrite !arr_set_length; congruence).
  assert (Hb6 : limbs t6 (n + 1)).
  { apply limbs_step; [|rewrite arr_set_length; lia|unfold limb_ok; lia].
    replace n with (n - 1 + 1) at 2 by lia. apply limbs_step; [done|lia|apply u32_ok]. }
  assert (Hv6 : bval t6 (n + 1) = bval t4 (n - 1) + u32 s2 * 2 ^ (32 * (n - 1)) + (h + h2) * 2 ^ (32 * n)).
  { unfold t6. rewrite bval_step by (rewrite arr_set_length; lia). f_equal. replace n with (n - 1 + 1) at 2 by lia.
    rewrite bval_step by lia. done. }
  assert (Heq : 2 ^ 32 * bval t6 (n + 1) = bval t (n + 1) + bval a n * b.[i] + q * M).
  { rewrite Hv6, bval_S by lia. rewrite Hv3 in Hv4. fold M in Hv4.
    replace (2 ^ (32 * n)) with (2 ^ 32 * 2 ^ (32 * (n - 1))) in * by (rewrite <- pow32_S by lia; do 2 f_equal; lia).
    set (W := 2 ^ (32 * (n - 1))) in *. replace (u32 s2) with (s2 - h2 * 2 ^ 32) by lia. unfold s2. 
    replace (u32 s) with (s - h * 2 ^ 32) by lia. unfold s. nia. }
  split; [done|]. split; [split; [lia|done]|]. split; [|by exists q].
  assert (0 <= b.[i] /\ 0 <= bval a n) by (split; [unfold limb_ok in Hb; lia|apply bval_bound; [lia|done]]).
  unfold limb_ok in Hb, Hq. nia.
Qed.

(** ** Multiplication *)

Lemma copy_limbs_spec out t n :
  0 <= n <= Z.of_nat (length out) -> limbs t n ->
  length (copy_limbs out t n) = length out /\ limbs (copy_limbs out t n) n /\ bval (copy_limbs out t n) n = bval t n.
Proof.
  intros Hn [Hl Ht]. unfold copy_limbs.
  assert (Hlen : length (take (Z.to_nat n) t ++ drop (Z.to_nat n) out) = length out)
    by (rewrite length_app, length_take, length_drop; lia).
  assert (He : forall j, 0 <= j < n -> (take (Z.to_nat n) t ++ drop (Z.to_nat n) out).[j] = t.[j]).
  { intros j Hj. rewrite lookup_total_app_l by (rewrite length_take; lia). apply list_lookup_total_correct.
    rewrite lookup_take_lt by lia. apply list_lookup_lookup_total_lt. lia. }
  split; [done|]. split; [|by apply bval_ext]. split; [lia|]. intros j Hj. rewrite He by done. by apply Ht.
Qed.

Lemma replicate_limbs k n : n <= Z.of_nat k -> limbs (replicate k 0) n /\ bval (replicate k 0) n = 0.
Proof.
  intros Hn. assert (H0 : forall j, 0 <= j < n -> (replicate k 0).[j] = 0).
  { intros j Hj. apply lookup_total_replicate_2. lia. }
  split.
  - split; [by rewrite length_replicate|]. intros j Hj. rewrite H0 by done. unfold limb_ok. lia.
  - destruct (Z.leb_spec 0 n) as [Hp|]; [|unfold bval; by replace (Z.to_nat n) with O by lia].
    clear Hn. revert H0. pattern n. apply natlike_ind; [done| |done]. intros m Hm IH H0. rewrite <- Z.add_1_r in *.
    rewrite bval_S, H0 by lia. rewrite IH; [lia|]. intros; apply H0; lia.
Qed.

Lemma bn_sizes : NX_BN_MAX_BITS / 32 = 128 /\ NX_BN_LIMBS = 130.
Proof. done. Qed.

Lemma mont_mul_spec c out a b :
  mont_ok c -> let n := mt_n c in let M := bval (mt_m c) n in
  n <= Z.of_nat (length out) -> limbs a n -> bval a n < M -> limbs b n ->
  let r := nx_mont_mul c out a b in
  length r = length out /\ limbs r n /\ 0 <= bval r n < M /\ congr M (bval r n * 2 ^ (32 * n)) (bval a n * bval b n).
Proof.
  intros Hok n M Hout Ha HaM Hb. pose proof Hok as [Hn Hm Hodd Hbig Hinv]. fold n in Hn, Hm, Hbig. fold M in Hbig. destruct bn_sizes as [Hs1 Hs2].
  unfold nx_mont_mul. fold n.
  set (t0 := replicate (Z.to_nat (NX_BN_LIMBS + 2)) 0). destruct (replicate_limbs (Z.to_nat (NX_BN_LIMBS + 2)) (n + 1) ltac:(lia)) as [Hl0 Hv0].
  fold t0 in Hl0, Hv0.
  pose proof (for_seqZ (fun i t => acc_ok n t /\ bval t (n + 1) < 2 * M /\ congr M (bval t (n + 1) * 2 ^ (32 * i)) (bval a n * bval b i))
    (mont_round c a b) 0 n t0) as H. destruct H as (Ht & Hlt & Hcg); [lia| | |].
  - split; [split; [unfold t0; rewrite length_replicate; lia|done]|]. rewrite Hv0. split; [lia|]. rewrite bval_0. exists 0. lia.
  - intros i t Hi (Ht & Hlt & Hcg).
    destruct (mont_round_spec c a b t i Hok Ha HaM (proj2 Hb i ltac:(lia)) Ht Hlt) as (_ & Ht' & Hlt' & q & Hq).
    split; [done|]. split; [done|]. fold n M in Hq. rewrite (bval_S b i), pow32_S by lia.
    replace (bval (mont_round c a b t i) (n + 1) * (2 ^ 32 * 2 ^ (32 * i)))
      with (2 ^ 32 * bval (mont_round c a b t i) (n + 1) * 2 ^ (32 * i)) by ring.
    rewrite Hq. replace (_ * 2 ^ (32 * i)) with (bval t (n + 1) * 2 ^ (32 * i) + bval a n * b.[i] * 2 ^ (32 * i) + q * 2 ^ (32 * i) * M) by ring.
    rewrite Hcg, (congr_mult M (q * 2 ^ (32 * i))). exists 0. ring.
  - rewrite Z.add_0_l in *. set (t := for_each (seqZ 0 n) (mont_round c a b) t0) in *. clearbody t.
    destruct Ht as [Hlen Htl]. assert (Htn : limbs t n) by (eapply limbs_le; [done|lia]). assert (Htop := proj2 Htl n ltac:(lia)).
    rewrite bval_S in Hlt, Hcg by lia.
    destruct (reduce_once t (mt_m c) n t.[n] ltac:(lia) Htn Hm (proj1 Htop) Hlt) as ((_ & Hrl & _) & Hrb & Hrv).
    set (r := if negb (t.[n] =? 0) || (nx_bn_cmp t (mt_m c) n >=? 0) then (sub_n t t (mt_m c) n).1 else t) in *. clearbody r.
    destruct (copy_limbs_spec out r n ltac:(lia) Hrl) as (H1 & H2 & H3). rewrite H3. split; [done|]. split; [done|]. split; [done|].
    assert (Hr : congr M (bval r n) (bval t n + t.[n] * 2 ^ (32 * n))).
    { destruct Hrv as [-> | ->]; [done|]. exists (-1). fold M. lia. }
    rewrite Hr. exact Hcg.
Qed.

(** The result is determined by the congruence. *)
Lemma mont_mul_val c out a b v :
  mont_ok c -> let n := mt_n c in let M := bval (mt_m c) n in
  n <= Z.of_nat (length out) -> limbs a n -> bval a n < M -> limbs b n ->
  congr M (bval a n * bval b n) (v * 2 ^ (32 * n)) ->
  let r := nx_mont_mul c out a b in
  length r = length out /\ limbs r n /\ bval r n = v mod M.
Proof.
  intros Hok n M Hout Ha HaM Hb Hv. pose proof (mo_big c Hok) as Hbig. fold n M in Hbig.
  destruct (mont_mul_spec c out a b Hok Hout Ha HaM Hb) as (H1 & H2 & H3 & H4). fold n M in H2, H3, H4. cbv zeta in *.
  split; [done|]. split; [done|]. apply (congr_unique M); [|done|apply Z.mod_pos_bound; lia].
  rewrite congr_mod by lia. apply (congr_cancel M (32 * n)); [exact (mo_odd c Hok)|pose proof (mo_n c Hok); unfold n; lia|].
  rewrite H4. exact Hv.
Qed.

(** ** Doubling, addition and subtraction modulo the modulus *)

Lemma dbl_mod_spec c a :
  1 <= mt_n c -> let n := mt_n c in let M := bval (mt_m c) n in
  limbs (mt_m c) n -> limbs a n -> bval a n < M ->
  length (dbl_mod c a) = length a /\ limbs (dbl_mod c a) n /\ bval (dbl_mod c a) n = (2 * bval a n) mod M.
Proof.
  intros Hn n M Hm Ha HaM. fold n in Hn. unfold dbl_mod. fold n.
  destruct (shift_loop a n Hn Ha) as (Hl & Hhi & H0 & Hj). set (a1 := for_each _ _ a) in *. clearbody a1. rewrite H0.
  set (b := a1.[0 := u32 (a.[0] <<. 1)]).
  assert (Hlb : length b = length a) by (unfold b; by rewrite arr_set_length).
  assert (Hb0 : b.[0] = u32 (a.[0] <<. 1)) by (unfold b; apply arr_get_set_eq; destruct Ha; lia).
  assert (Hbj : forall j, 1 <= j < n -> b.[j] = u32 (a.[j] <<. 1) |. (a.[j - 1] >>. 31)).
  { intros j Hjn. unfold b. rewrite arr_get_set_ne by lia. by apply Hj. }
  pose proof (shift_value a b n Hn Ha Hb0 Hbj) as Hv. pose proof (shift_limbs a b n Hn Ha Hlb Hb0 Hbj) as Hbl.
  destruct (shl_limb a.[n - 1] 0 (proj2 Ha (n - 1) ltac:(lia)) ltac:(unfold limb_ok; lia)) as (_ & _ & _ & Htop).
  destruct (reduce_once b (mt_m c) n (a.[n - 1] >>. 31) ltac:(lia) Hbl Hm (proj1 Htop)) as ((Hrl & Hrb & _) & Hlt & Hr).
  { fold M. lia. }
  set (r := if negb (a.[n - 1] >>. 31 =? 0) || (nx_bn_cmp b (mt_m c) n >=? 0) then (sub_n b b (mt_m c) n).1 else b) in *.
  clearbody r. fold M in Hlt, Hr. rewrite Hv in Hr. split; [congruence|]. split; [done|].
  destruct Hr as [Hr|Hr]; [apply Z.mod_unique with 0|apply Z.mod_unique with 1]; lia.
Qed.

(** Doubling [k] times. *)
Lemma dbl_loop c a k x :
  1 <= mt_n c -> let n := mt_n c in let M := bval (mt_m c) n in
  limbs (mt_m c) n -> limbs a n -> 0 < M -> bval a n = x mod M -> 0 <= k ->
  let r := for_each (seqZ 0 k) (fun a _ => dbl_mod c a) a in
  length r = length a /\ limbs r n /\ bval r n = (x * 2 ^ k) mod M.
Proof.
  intros Hn n M Hm Ha HM Hx Hk r.
  assert (H : length r = length a /\ limbs r n /\ bval r n = (x * 2 ^ (0 + k)) mod M); [|by rewrite Z.add_0_l in H].
  unfold r. apply (for_seqZ (fun i b => length b = length a /\ limbs b n /\ bval b n = (x * 2 ^ i) mod M)); [done| |].
  - split; [done|]. split; [done|]. by rewrite Z.mul_1_r.
  - intros i b Hi (Hl & Hb & Hv). pose proof (Z.mod_pos_bound (x * 2 ^ i) M HM).
    destruct (dbl_mod_spec c b Hn Hm Hb) as (H1 & H2 & H3); [fold n M; lia|]. fold n M in H2, H3.
    split; [congruence|]. split; [done|]. rewrite H3, Hv, Z.pow_add_r by lia. rewrite Z.mul_mod_idemp_r by lia. f_equal. lia.
Qed.

Lemma mod_add_spec c out a b :
  1 <= mt_n c -> let n := mt_n c in let M := bval (mt_m c) n in
  n <= Z.of_nat (length out) -> limbs (mt_m c) n -> limbs a n -> limbs b n -> bval a n < M -> bval b n < M ->
  limbs (nx_mod_add c out a b) n /\ bval (nx_mod_add c out a b) n = (bval a n + bval b n) mod M.
Proof.
  intros Hn n M Hout Hm Ha Hb HaM HbM. unfold nx_mod_add. fold n.
  pose proof (add_n_spec out a b n ltac:(lia) Ha Hb) as Hadd. destruct (add_n out a b n) as [o k]. destruct Hadd as ((_ & Hol & _) & Hk & Hv).
  destruct (reduce_once o (mt_m c) n k ltac:(lia) Hol Hm (proj1 Hk)) as ((_ & Hrb & _) & Hlt & Hr); [fold M; lia|].
  split; [done|]. fold M in Hlt, Hr. rewrite Hv in Hr.
  pose proof (bval_bound a n ltac:(lia) Ha). pose proof (bval_bound b n ltac:(lia) Hb).
  destruct Hr as [Hr|Hr]; [apply Z.mod_unique with 0|apply Z.mod_unique with 1]; lia.
Qed.

Lemma mod_sub_spec c out a b :
  1 <= mt_n c -> let n := mt_n c in let M := bval (mt_m c) n in
  n <= Z.of_nat (length out) -> limbs (mt_m c) n -> limbs a n -> limbs b n -> bval a n < M -> bval b n < M ->
  limbs (nx_mod_sub c out a b) n /\ bval (nx_mod_sub c out a b) n = (bval a n - bval b n) mod M.
Proof.
  intros Hn n M Hout Hm Ha Hb HaM HbM. unfold nx_mod_sub. fold n.
  pose proof (sub_n_spec out a b n ltac:(lia) Ha Hb) as Hsub. destruct (sub_n out a b n) as [o w].
  destruct Hsub as ((Hlo & Hol & _) & Hw & Hv). pose proof (bval_bound a n ltac:(lia) Ha) as Ba.
  pose proof (bval_bound b n ltac:(lia) Hb) as Bb. pose proof (bval_bound o n ltac:(lia) Hol) as Bo.
  pose proof (bval_bound (mt_m c) n ltac:(lia) Hm) as Bm. fold M in Bm.
  assert (Hw1 : w = 0 \/ w = 1) by lia. destruct Hw1 as [-> | ->]; cbn [Z.eqb negb].
  - split; [done|]. apply Z.mod_unique with 0; lia.
  - pose proof (add_n_spec o o (mt_m c) n ltac:(lia) Hol Hm) as Hadd. destruct (add_n o o (mt_m c) n) as [p k]. cbn [fst].
    destruct Hadd as ((_ & Hpl & _) & Hk & Hv2). split; [done|]. pose proof (bval_bound p n ltac:(lia) Hpl) as Bp.
    fold M in Hv2. assert (Hk1 : k = 0 \/ k = 1) by lia. apply Z.mod_unique with (-1); destruct Hk1 as [-> | ->]; lia.
Qed.

(** ** Inverse of a limb *)

Lemma newton_step m0 x k : 0 <= k -> congr (2 ^ k) (m0 * x) 1 -> congr (2 ^ (2 * k)) (m0 * (x * (2 - m0 * x))) 1.
Proof.
  intros Hk [j Hj]. exists (- (j * j)). replace (2 * k) with (k + k) by lia. rewrite Z.pow_add_r by lia.
  replace (m0 * (x * (2 - m0 * x))) with (m0 * x * (2 - m0 * x)) by ring. rewrite Hj. ring.
Qed.

Lemma congr_pow_le m k l x y : 0 <= k <= l -> m = 2 ^ k -> congr (2 ^ l) x y -> congr m x y.
Proof.
  intros Hk -> [j ->]. exists (j * 2 ^ (l - k)). f_equal. rewrite <- Z.mul_assoc, <- Z.pow_add_r by lia. do 2 f_equal. lia.
Qed.

Lemma limb_inv_spec m0 : Z.odd m0 = true -> congr (2 ^ 32) (m0 * limb_inv m0) 1.
Proof.
  intros Hodd. unfold limb_inv.
  set (f := fun x => u32 (x * u32 (2 - u32 (m0 * x)))).
  assert (Hf : forall x, congr (2 ^ 32) (f x) (x * (2 - m0 * x))).
  { intros x. unfold f, wrap. rewrite congr_mod by lia. rewrite (congr_mod (2 ^ 32) (2 - _)) by lia.
    assert (H : congr (2 ^ 32) (2 - (m0 * x) mod 2 ^ 32) (2 - m0 * x)).
    { destruct (congr_mod (2 ^ 32) (m0 * x) ltac:(lia)) as [k ->]. exists (- k). ring. }
    by rewrite H. }
  assert (Hstep : forall k x, 0 <= k <= 32 -> congr (2 ^ k) (m0 * x) 1 -> congr (2 ^ (Z.min 32 (2 * k))) (m0 * f x) 1).
  { intros k x Hk Hx. apply (newton_step m0 x k (proj1 Hk)) in Hx.
    assert (Hf' : congr (2 ^ Z.min 32 (2 * k)) (f x) (x * (2 - m0 * x))) by (apply (congr_pow_le _ (Z.min 32 (2 * k)) 32); [lia|done|apply Hf]).
    rewrite Hf'. apply (congr_pow_le _ (Z.min 32 (2 * k)) (2 * k)); [lia|done|exact Hx]. }
  assert (H0 : congr (2 ^ 1) (m0 * m0) 1).
  { apply Z.odd_spec in Hodd as [p ->]. exists (2 * p * p + 2 * p). change (2 ^ 1) with 2. ring. }
  change (for_each (seqZ 0 5) _ m0) with (f (f (f (f (f m0))))).
  pose proof (Hstep 1 _ ltac:(lia) H0) as H1. change (Z.min 32 (2 * 1)) with 2 in H1.
  pose proof (Hstep 2 _ ltac:(lia) H1) as H2. change (Z.min 32 (2 * 2)) with 4 in H2.
  pose proof (Hstep 4 _ ltac:(lia) H2) as H3. change (Z.min 32 (2 * 4)) with 8 in H3.
  pose proof (Hstep 8 _ ltac:(lia) H3) as H4. change (Z.min 32 (2 * 8)) with 16 in H4.
  exact (Hstep 16 _ ltac:(lia) H4).
Qed.
