(* ===== verification/BnThm.v ===== *)
(** * Big numbers: conversions, set-up and theorems

    Reading and printing big-endian bytes, the set-up of a modulus, and the theorems
    about multiplication and exponentiation. *)
From S2P Require Import Prelude Bytes Bn BnFacts BnMont.

(** ** Bytes *)

Lemma be_val_snoc l x : be_val (l ++ [x]) = be_val l * 256 + x.
Proof. unfold be_val. by rewrite fold_left_app. Qed.

Lemma be_val_le l : be_val l = le_dec (reverse l).
Proof.
  induction l as [|x l IH] using rev_ind; [done|]. rewrite be_val_snoc, reverse_snoc, IH. simpl. lia.
Qed.

Lemma be_val_cons x l : be_val (x :: l) = x * 256 ^ Z.of_nat (length l) + be_val l.
Proof.
  induction l as [|y l IH] using rev_ind; [unfold be_val; simpl; lia|].
  rewrite app_comm_cons, !be_val_snoc, IH, length_app. simpl. rewrite Nat2Z.inj_add, Z.pow_add_r by lia. change (256 ^ Z.of_nat 1) with 256. lia.
Qed.

Lemma be_val_bound l : Forall byte_ok l -> 0 <= be_val l < 256 ^ Z.of_nat (length l).
Proof.
  intros Hl. rewrite be_val_le. pose proof (le_dec_bound (reverse l) (proj2 (Forall_reverse _ _) Hl)) as H.
  rewrite length_reverse in H. change 256 with (2 ^ 8). rewrite <- Z.pow_mul_r by lia. done.
Qed.

Lemma skip_zeros_val l : be_val (skip_zeros l) = be_val l.
Proof.
  induction l as [|x l IH]; [done|]. simpl. destruct (Z.eqb_spec x 0) as [->|]; [|done]. rewrite IH, be_val_cons. lia.
Qed.

(** The low [i] bytes. *)
Definition low (be : list Z) (i : Z) : Z := le_dec (take (Z.to_nat i) (reverse be)).

Lemma low_0 be : low be 0 = 0.
Proof. done. Qed.

Lemma low_all be : low be (Z.of_nat (length be)) = be_val be.
Proof. unfold low. rewrite Nat2Z.id, be_val_le, take_ge; [done|]. by rewrite length_reverse. Qed.

Lemma le_dec_snoc l x : le_dec (l ++ [x]) = le_dec l + x * 256 ^ Z.of_nat (length l).
Proof.
  induction l as [|y l IH]; [simpl; lia|]. cbn [app le_dec length]. rewrite IH, Nat2Z.inj_succ, Z.pow_succ_r by lia. lia.
Qed.

Lemma le_dec_app_le a b : Forall byte_ok b -> le_dec a <= le_dec (a ++ b).
Proof. intros Hb. induction a as [|x a IH]; [by apply le_dec_bound|]. simpl. lia. Qed.

Lemma low_S be i : 0 <= i < Z.of_nat (length be) ->
  low be (i + 1) = low be i + be.[Z.of_nat (length be) - 1 - i] * 256 ^ i.
Proof.
  intros Hi. unfold low. replace (Z.to_nat (i + 1)) with (S (Z.to_nat i)) by lia.
  assert (Hx : reverse be !! Z.to_nat i = Some be.[Z.of_nat (length be) - 1 - i]).
  { rewrite reverse_lookup by lia. replace (length be - S (Z.to_nat i))%nat with (Z.to_nat (Z.of_nat (length be) - 1 - i)) by lia.
    apply list_lookup_lookup_total_lt. lia. }
  rewrite (take_S_r _ _ _ Hx), le_dec_snoc, length_take, length_reverse.
  by replace (Z.of_nat (Z.to_nat i `min` length be)) with i by lia.
Qed.

Lemma low_bound be i : Forall byte_ok be -> 0 <= i -> 0 <= low be i < 256 ^ i.
Proof.
  intros Hb Hi. unfold low. pose proof (le_dec_bound (take (Z.to_nat i) (reverse be))) as H.
  destruct H as [H1 H2]; [by apply Forall_take, Forall_reverse|]. split; [done|]. eapply Z.lt_le_trans; [exact H2|].
  change 256 with (2 ^ 8). rewrite <- Z.pow_mul_r by lia. apply Z.pow_le_mono_r; [lia|]. rewrite length_take. lia.
Qed.

(** ** Reading a number *)

(** The limbs after [i] bytes: the value so far, nothing above. *)
Definition from_be_inv (be out : list Z) (n i : Z) : Prop :=
  limbs out n /\ (i / 4 < n -> out.[i / 4] < 256 ^ (i mod 4)) /\
  (forall j, i / 4 < j < n -> out.[j] = 0) /\ bval out n = low be i.

Lemma byte_into_limb x v k : 0 <= k < 4 -> 0 <= x < 256 ^ k -> byte_ok v ->
  x |. u32 (v <<. (8 * k)) = x + v * 256 ^ k /\ 0 <= x + v * 256 ^ k < 256 ^ (k + 1) /\ limb_ok (x + v * 256 ^ k).
Proof.
  intros Hk Hx Hv. unfold byte_ok in Hv. assert (Hp : 256 ^ k = 2 ^ (8 * k)) by (change 256 with (2 ^ 8); by rewrite <- Z.pow_mul_r by lia).
  assert (Hle : 256 ^ (k + 1) <= 2 ^ 32).
  { change 256 with (2 ^ 8). rewrite <- Z.pow_mul_r by lia. apply Z.pow_le_mono_r; lia. }
  assert (Hb : 0 <= x + v * 256 ^ k < 256 ^ (k + 1)) by (rewrite Z.pow_add_r by lia; change (256 ^ 1) with 256; nia).
  rewrite Hp in *. rewrite wrap_small.
  - split; [|split; [done|unfold limb_ok; lia]]. rewrite Z.lor_comm, lor_shiftl by lia. lia.
  - rewrite Z.shiftl_mul_pow2 by lia. unfold fits. nia.
Qed.

(** Changing one limb. *)
Lemma bval_change a k x n : 0 <= k < n -> n <= Z.of_nat (length a) -> bval (a.[k := x]) n = bval a n + (x - a.[k]) * 2 ^ (32 * k).
Proof.
  intros Hk Hl. assert (Hgo : forall m, k < m <= n -> bval (a.[k := x]) m = bval a m + (x - a.[k]) * 2 ^ (32 * k)); [|apply Hgo; lia].
  intros m Hm. replace m with (k + 1 + (m - k - 1)) by lia. pattern (m - k - 1).
  apply (Zlt_0_ind (fun d => d <= n - k - 1 -> bval (a.[k := x]) (k + 1 + d) = bval a (k + 1 + d) + (x - a.[k]) * 2 ^ (32 * k))); [|lia|lia].
  clear m Hm. intros d IH Hd Hdn. destruct (decide (d = 0)) as [->|Hne].
  - rewrite Z.add_0_r, bval_step, bval_S by lia. lia.
  - replace (k + 1 + d) with (k + 1 + (d - 1) + 1) by lia. rewrite !bval_S, IH, arr_get_set_ne by lia. lia.
Qed.

Lemma from_be_step be out n i :
  Forall byte_ok be -> 0 <= i < Z.of_nat (length be) -> i / 4 < n -> from_be_inv be out n i ->
  from_be_inv be (out.[i / 4 := out.[i / 4] |. u32 (be.[Z.of_nat (length be) - 1 - i] <<. (8 * (i mod 4)))]) n (i + 1).
Proof.
  intros Hbe Hi Hn (Hl & Hlt & Hz & Hv). set (v := be.[_]).
  assert (Hvb : byte_ok v).
  { unfold v. rewrite Forall_forall in Hbe. apply Hbe, arr_get_elem. lia. }
  assert (Hq : 0 <= i / 4) by (apply Z.div_pos; lia). pose proof (Z.mod_pos_bound i 4 ltac:(lia)) as Hr.
  pose proof (Z.div_mod i 4 ltac:(lia)) as Hdm. pose proof (proj2 Hl (i / 4) ltac:(lia)) as Hx. unfold limb_ok in Hx.
  destruct (byte_into_limb out.[i / 4] v (i mod 4) Hr ltac:(split; [lia|by apply Hlt]) Hvb) as (-> & Hb1 & Hb2).
  set (x := out.[i / 4] + v * 256 ^ (i mod 4)) in *. set (q := i / 4) in *. set (r := i mod 4) in *.
  assert (Hdiv : ((i + 1) / 4 = q /\ (i + 1) mod 4 = r + 1) \/ ((i + 1) / 4 = q + 1 /\ (i + 1) mod 4 = 0)).
  { destruct (decide (r = 3)).
    - right. split; [symmetry; apply Z.div_unique with 0; lia|symmetry; apply Z.mod_unique with (q + 1); lia].
    - left. split; [symmetry; apply Z.div_unique with (r + 1); lia|symmetry; apply Z.mod_unique with q; lia]. }
  destruct Hl as [Hll Hla].
  split; [apply limbs_set; [done|done|done]|]. split; [|split].
  - intros Hlt'. destruct Hdiv as [[-> ->]|[Hd ->]].
    + rewrite arr_get_set_eq by lia. lia.
    + rewrite Hd in *. rewrite arr_get_set_ne, Hz by lia. done.
  - intros j Hj. rewrite arr_get_set_ne by lia. apply Hz. destruct Hdiv as [[? _]|[? _]]; lia.
  - rewrite bval_change, Hv, low_S by lia. fold v. unfold x.
    replace (256 ^ i) with (256 ^ r * 2 ^ (32 * q)).
    + ring.
    + change 256 with (2 ^ 8). rewrite <- !Z.pow_mul_r, <- Z.pow_add_r by lia. f_equal. lia.
Qed.

Lemma from_be_spec be out n k :
  Forall byte_ok be -> forall i, 0 <= i -> 0 <= n -> Z.of_nat (length be) = i + Z.of_nat k -> from_be_inv be out n i ->
  let '(out', ok) := from_be_loop out n be (seqZ i (Z.of_nat k)) in
  length out' = length out /\ limbs out' n /\ (ok = true -> bval out' n = be_val be) /\ (ok = false -> 2 ^ (32 * n) <= be_val be).
Proof.
  intros Hbe. revert out. induction k as [|k IH]; intros out i Hi Hn Hlen Hinv; cbn [from_be_loop].
  - split; [done|]. destruct Hinv as (Hl & _ & _ & Hv). split; [done|]. split; [|done]. intros _.
    rewrite Hv, <- low_all. f_equal. lia.
  - rewrite seqZ_cons by lia. cbn [from_be_loop]. replace (Z.pred (Z.of_nat (S k))) with (Z.of_nat k) by lia. rewrite <- Z.add_1_r.
    destruct (i / 4 >=? n) eqn:E; breflect.
    + set (v := be.[Z.of_nat (length be) - 1 - i]).
      assert (Hvb : byte_ok v) by (unfold v; rewrite Forall_forall in Hbe; apply Hbe, arr_get_elem; lia). unfold byte_ok in Hvb.
      assert (Hi4 : 4 * n <= i) by (pose proof (Z.div_mod i 4 ltac:(lia)); pose proof (Z.mod_pos_bound i 4 ltac:(lia)); lia).
      pose proof (low_bound be i Hbe Hi) as Hlow. pose proof (low_S be i ltac:(lia)) as HS. fold v in HS.
      destruct (Z.eqb_spec v 0) as [Hv0|Hv0]; cbn [negb].
      * apply IH; [lia|done|lia|]. destruct Hinv as (Hl & _ & _ & Hv). split; [done|].
        assert ((i + 1) / 4 >= n) by (pose proof (Z.div_le_mono i (i + 1) 4 ltac:(lia) ltac:(lia)); lia).
        split; [lia|]. split; [lia|]. rewrite Hv, HS, Hv0. lia.
      * split; [done|]. split; [apply Hinv|]. split; [done|]. intros _.
        assert (Hmono : low be (i + 1) <= be_val be).
        { rewrite <- low_all. unfold low. rewrite Nat2Z.id. rewrite <- (take_drop (Z.to_nat (i + 1)) (take (length be) (reverse be))).
          rewrite take_take, Nat.min_l by lia. apply le_dec_app_le. by apply Forall_drop, Forall_take, Forall_reverse. }
        assert (2 ^ (32 * n) <= 256 ^ i).
        { change 256 with (2 ^ 8). rewrite <- Z.pow_mul_r by lia. apply Z.pow_le_mono_r; lia. }
        assert (256 ^ i <= v * 256 ^ i) by (pose proof (Z.pow_pos_nonneg 256 i); nia). lia.
    + pose proof (from_be_step be out n i Hbe ltac:(lia) E Hinv) as Hinv'.
      specialize (IH _ (i + 1) ltac:(lia) Hn ltac:(lia) Hinv'). rewrite arr_set_length in IH. exact IH.
Qed.

Lemma zero_limbs_spec out n :
  0 <= n <= Z.of_nat (length out) ->
  length (zero_limbs out n) = length out /\ forall j, 0 <= j < n -> (zero_limbs out n).[j] = 0.
Proof.
  intros Hn. unfold zero_limbs. split; [rewrite length_app, length_replicate, length_drop; lia|].
  intros j Hj. rewrite lookup_total_app_l by (rewrite length_replicate; lia). apply lookup_total_replicate_2. lia.
Qed.

Lemma bval_zero a n : (forall j, 0 <= j < n -> a.[j] = 0) -> bval a n = 0.
Proof.
  intros H. rewrite (bval_ext a (replicate (Z.to_nat n) 0)); [apply replicate_limbs; lia|].
  intros j Hj. rewrite H by done. symmetry. apply lookup_total_replicate_2. lia.
Qed.

Lemma bn_from_be_spec out n be :
  Forall byte_ok be -> 0 <= n <= Z.of_nat (length out) ->
  let '(out', ok) := nx_bn_from_be out n be in
  length out' = length out /\ limbs out' n /\ (ok = true <-> be_val be < 2 ^ (32 * n)) /\ (ok = true -> bval out' n = be_val be).
Proof.
  intros Hbe Hn. unfold nx_bn_from_be. destruct (zero_limbs_spec out n Hn) as [Hl Hz].
  pose proof (from_be_spec be (zero_limbs out n) n (length be) Hbe 0 ltac:(lia) ltac:(lia) ltac:(lia)) as H.
  destruct (from_be_loop _ n be _) as [out' ok]. destruct H as (H1 & H2 & H3 & H4).
  { split; [|split; [|split]].
    - split; [lia|]. intros j Hj. rewrite Hz by done. unfold limb_ok. lia.
    - intros H0. rewrite Hz; [done|]. split; [done|exact H0].
    - intros j Hj. apply Hz. change (0 / 4) with 0 in Hj. lia.
    - by rewrite bval_zero. }
  split; [lia|]. split; [done|]. split; [|done]. destruct ok.
  - split; [|done]. intros _. rewrite <- H3 by done. apply bval_bound; [lia|done].
  - split; [done|]. specialize (H4 eq_refl). lia.
Qed.

(** ** Length in bits *)

Lemma bn_bits_spec a n :
  0 <= n <= 2 ^ 26 -> limbs a n ->
  nx_bn_bits a n = if bval a n =? 0 then 0 else Z.log2 (bval a n) + 1.
Proof.
  intros [Hn Hmax]. revert Hmax. pattern n. apply natlike_ind; [done| |done]. clear n Hn. intros n Hn IH Hmax Ha.
  rewrite <- Z.add_1_r in *. specialize (IH ltac:(lia) (limbs_le _ _ n Ha ltac:(lia))).
  unfold nx_bn_bits in *. rewrite rev_seqZ_S by done. cbn [find_first]. rewrite bval_S by done.
  pose proof (bval_bound a n Hn (limbs_le _ _ n Ha ltac:(lia))) as Hb. pose proof (proj2 Ha n ltac:(lia)) as Hx. unfold limb_ok in Hx.
  destruct (Z.eqb_spec a.[n] 0) as [H0|H0]; cbn [negb].
  - rewrite H0, Z.mul_0_l, Z.add_0_r. exact IH.
  - clear IH. pose proof (Z.pow_pos_nonneg 2 (32 * n) ltac:(lia) ltac:(lia)). rewrite (proj2 (Z.eqb_neq _ 0)) by nia.
    assert (Hlog : Z.log2 (bval a n + a.[n] * 2 ^ (32 * n)) = Z.log2 a.[n] + 32 * n).
    { pose proof (Z.log2_nonneg a.[n]) as L0. assert (Hpos : 0 < a.[n]) by lia. pose proof (Z.log2_spec _ Hpos) as [L1 L2].
      apply Z.log2_unique; [lia|]. rewrite Z.pow_succ_r in L2 by done. rewrite Z.pow_succ_r, Z.pow_add_r by lia.
      set (W := 2 ^ (32 * n)) in *. set (L := 2 ^ Z.log2 a.[n]) in *. nia. }
    rewrite Hlog. unfold clz32. assert (Z.log2 a.[n] < 32) by (apply Z.log2_lt_pow2; lia). pose proof (Z.log2_nonneg a.[n]).
    rewrite wrap_small by (unfold fits; lia). lia.
Qed.

Lemma bits_small a n : 0 <= n <= 2 ^ 26 -> limbs a n -> (nx_bn_bits a n <? 2) = (bval a n <? 2).
Proof.
  intros Hn Ha. rewrite bn_bits_spec by done. pose proof (bval_bound a n ltac:(lia) Ha) as Hb.
  destruct (Z.eqb_spec (bval a n) 0) as [->|]; [done|]. apply eq_bool_prop_intro. rewrite !Is_true_true, !Z.ltb_lt. split; intros H.
  - apply Z.lt_nge. intros Hge. pose proof (Z.log2_le_mono 2 (bval a n) Hge) as Hl. change (Z.log2 2) with 1 in Hl. lia.
  - assert (bval a n = 1) as -> by lia. done.
Qed.

(** ** Set-up of a modulus *)

Lemma skip_zeros_head l : match skip_zeros l with [] => True | x :: _ => x <> 0 end.
Proof. induction l as [|x l IH]; [done|]. simpl. by destruct (Z.eqb_spec x 0). Qed.

Lemma skip_zeros_bytes l : Forall byte_ok l -> Forall byte_ok (skip_zeros l).
Proof. induction 1 as [|x l Hx Hl IH]; [constructor|]. simpl. destruct (x =? 0); [done|]. by constructor. Qed.

Lemma last_byte_odd l : l <> [] -> (l.[Z.of_nat (length l) - 1] &. 1 =? 0) = negb (Z.odd (be_val l)).
Proof.
  intros Hne. destruct l as [|x l _] using rev_ind; [done|]. rewrite be_val_snoc, length_app. simpl length.
  replace (Z.to_nat (Z.of_nat (length l + 1) - 1)) with (length l) by lia.
  rewrite lookup_total_app_r, Nat.sub_diag by lia. change ([x] !!! 0%nat) with x.
  rewrite Z.odd_add, Z.odd_mul. change (Z.odd 256) with false. rewrite andb_false_r, xorb_false_l.
  change 1 with (Z.ones 1). rewrite Z.land_ones by lia. change (2 ^ 1) with 2. rewrite Zmod_odd. by destruct (Z.odd x).
Qed.

Lemma limb0_odd a n : 1 <= n -> Z.odd (bval a n) = Z.odd a.[0].
Proof.
  intros Hn. replace n with (1 + (n - 1)) by lia. pattern (n - 1). apply natlike_ind; [| |lia].
  - change (1 + 0) with (0 + 1). rewrite bval_S by lia. change (2 ^ (32 * 0)) with 1. by rewrite bval_0, Z.mul_1_r.
  - intros x Hx IH. replace (1 + Z.succ x) with (1 + x + 1) by lia. rewrite bval_S, Z.odd_add, IH, Z.odd_mul by lia.
    rewrite Z.odd_pow by lia. change (Z.odd 2) with false. by rewrite andb_false_r, xorb_false_r.
Qed.

(** A modulus the set-up accepts. *)
Definition good_modulus (v : Z) : Prop := Z.odd v = true /\ 1 < v < 2 ^ NX_BN_MAX_BITS.

Lemma skip_zeros_len l :
  Forall byte_ok l -> skip_zeros l <> [] ->
  256 ^ (Z.of_nat (length (skip_zeros l)) - 1) <= be_val l < 256 ^ Z.of_nat (length (skip_zeros l)).
Proof.
  intros Hl Hne. pose proof (skip_zeros_head l) as Hh. pose proof (skip_zeros_bytes l Hl) as Hb. rewrite <- skip_zeros_val.
  split; [|by apply be_val_bound]. destruct (skip_zeros l) as [|x t]; [done|]. inversion Hb as [|? ? Hx Ht]; subst.
  rewrite be_val_cons. pose proof (be_val_bound t Ht). unfold byte_ok in Hx. simpl length.
  replace (Z.of_nat (S (length t)) - 1) with (Z.of_nat (length t)) by lia.
  pose proof (Z.pow_pos_nonneg 256 (Z.of_nat (length t))). nia.
Qed.

(** What the set-up computes: the modulus and the constants. *)
Record mont_for (v : Z) (c : nx_mont) : Prop := mk_mont_for {
  mf_ok : mont_ok c;
  mf_m : bval (mt_m c) (mt_n c) = v;
  mf_one : limbs (mt_one c) (mt_n c) /\ bval (mt_one c) (mt_n c) = 2 ^ (32 * mt_n c) mod v;
  mf_rr : limbs (mt_rr c) (mt_n c) /\ bval (mt_rr c) (mt_n c) = 2 ^ (64 * mt_n c) mod v
}.

Lemma one_limbs k n : (1 <= k)%nat -> 1 <= n <= Z.of_nat k ->
  limbs ((replicate k 0).[0 := 1]) n /\ bval ((replicate k 0).[0 := 1]) n = 1.
Proof.
  intros Hk Hn. destruct (replicate_limbs k n ltac:(lia)) as [Hl Hv]. split.
  - apply limbs_set; [done|lia|unfold limb_ok; lia].
  - rewrite bval_change, Hv by (rewrite ?length_replicate; lia).
    rewrite lookup_total_replicate_2 by lia. change (2 ^ (32 * 0)) with 1. lia.
Qed.

Lemma mont_init_some c be n m minv bits :
  1 <= n <= NX_BN_MAX_BITS / 32 -> limbs m n -> bval m n = be -> Z.odd be = true -> 1 < be ->
  congr (2 ^ 32) (m.[0] * minv) (-1) ->
  c = mk_mont n m minv (replicate (Z.to_nat NX_BN_LIMBS) 0) (replicate (Z.to_nat NX_BN_LIMBS) 0) bits ->
  let zeros := replicate (Z.to_nat NX_BN_LIMBS) 0 in
  let one := for_each (seqZ 0 (32 * n)) (fun a _ => dbl_mod c a) (zeros.[0 := 1]) in
  let rr := for_each (seqZ 0 (32 * n)) (fun a _ => dbl_mod c a) (copy_limbs zeros one n) in
  mont_for be (mk_mont n m minv rr one bits).
Proof.
  intros Hn Hm Hv Hodd Hbig Hinv Hc zeros one rr. destruct bn_sizes as [Hs1 Hs2].
  assert (Hcn : mt_n c = n) by by rewrite Hc. assert (Hcm : mt_m c = m) by by rewrite Hc.
  assert (Hzl : length zeros = 130%nat) by by vm_compute.
  destruct (one_limbs (Z.to_nat NX_BN_LIMBS) n ltac:(lia) ltac:(lia)) as [Ho1 Ho2]. fold zeros in Ho1, Ho2.
  pose proof (dbl_loop c (zeros.[0 := 1]) (32 * n) 1) as H1. cbv zeta in H1. rewrite Hcn, Hcm, Hv in H1.
  destruct H1 as (L1 & B1 & V1); [lia|done|done|lia|rewrite Ho2, Z.mod_small by lia; done|lia|]. fold one in L1, B1, V1.
  rewrite arr_set_length in L1. rewrite Z.mul_1_l in V1.
  destruct (copy_limbs_spec zeros one n ltac:(lia) B1) as (L2 & B2 & V2).
  pose proof (dbl_loop c (copy_limbs zeros one n) (32 * n) (2 ^ (32 * n))) as H2. cbv zeta in H2. rewrite Hcn, Hcm, Hv in H2.
  destruct H2 as (L3 & B3 & V3); [lia|done|done|lia|by rewrite V2|lia|]. fold rr in L3, B3, V3.
  rewrite <- Z.pow_add_r in V3 by lia. replace (32 * n + 32 * n) with (64 * n) in V3 by lia.
  constructor; cbn [mt_n mt_m mt_one mt_rr]; try done. constructor; cbn [mt_n mt_m mt_minv]; try done; by rewrite Hv.
Qed.

Lemma mont_init_spec be :
  Forall byte_ok be ->
  match nx_mont_init be with
  | Some c => good_modulus (be_val be) /\ mont_for (be_val be) c
  | None => ~ good_modulus (be_val be)
  end.
Proof.
  intros Hbe. unfold nx_mont_init. destruct bn_sizes as [Hs1 Hs2].
  pose proof (skip_zeros_bytes be Hbe) as Hb. pose proof (skip_zeros_val be) as Hval. pose proof (skip_zeros_len be Hbe) as Hlen.
  set (l := skip_zeros be) in *. clearbody l. set (k := Z.of_nat (length l)) in *. unfold good_modulus. change NX_BN_MAX_BITS with 4096 in *.
  assert (HB : 256 ^ 512 = 2 ^ 4096) by exact (eq_sym (Z.pow_mul_r 2 8 512 ltac:(lia) ltac:(lia))).
  assert (HBn : forall n, n <= 128 -> 2 ^ (32 * n) <= 2 ^ 4096) by (intros; apply Z.pow_le_mono_r; lia).
  assert (HBk : forall j, 512 <= j -> 2 ^ 4096 <= 256 ^ j) by (intros; rewrite <- HB; apply Z.pow_le_mono_r; lia).
  clear HB. revert HBn HBk. generalize (2 ^ 4096) as B. intros B HBn HBk.
  destruct (Z.eqb_spec k 0) as [Hk0|Hk0]; cbn [orb].
  { destruct l; [|unfold k in Hk0; simpl in Hk0; lia]. unfold be_val in Hval at 1. simpl in Hval. lia. }
  assert (Hne : l <> []) by (intros ->; unfold k in Hk0; done). destruct (Hlen Hne) as [Hlo Hhi].
  change (4096 / 8) with 512. pose proof (last_byte_odd l Hne) as Hlast. fold k in Hlast. rewrite Hlast, Hval. destruct (k >? 512) eqn:Ek; cbn [orb]; breflect.
  { intros [_ Hlt]. specialize (HBk (k - 1) ltac:(lia)). lia. }
  destruct (Z.odd (be_val be)) eqn:Hodd; cbn [negb]; [|by intros [? _]].
  set (n := (k + 3) / 4). assert (Hn : 1 <= n <= 128 /\ k <= 4 * n) by (unfold n; dlia).
  pose proof (bn_from_be_spec (replicate (Z.to_nat NX_BN_LIMBS) 0) n l Hb) as Hm. rewrite length_replicate in Hm.
  destruct (nx_bn_from_be _ n l) as [m ok]. destruct Hm as (Hml & Hmb & Hok & Hmv); [lia|]. cbn [fst].
  assert (Hfit : be_val be < 2 ^ (32 * n)).
  { eapply Z.lt_le_trans; [exact Hhi|]. change 256 with (2 ^ 8). rewrite <- Z.pow_mul_r by lia. apply Z.pow_le_mono_r; lia. }
  rewrite Hval in Hok, Hmv. specialize (Hmv (proj2 Hok Hfit)). rewrite bits_small, Hmv by (done || lia).
  destruct (Z.ltb_spec (be_val be) 2) as [Hsm|Hbig]; [intros [_ ?]; lia|].
  specialize (HBn n ltac:(lia)).
  split; [split; [done|lia]|]. eapply mont_init_some; try done; [exact (proj1 Hn)|lia|].
  assert (Hinv := limb_inv_spec m.[0]). rewrite <- (limb0_odd m n), Hmv, Hodd in Hinv by lia. specialize (Hinv eq_refl).
  unfold wrap. rewrite congr_mod by lia. replace (m.[0] * (0 - limb_inv m.[0])) with (-1 * (m.[0] * limb_inv m.[0])) by ring.
  rewrite Hinv. done.
Qed.

(** ** Exponentiation *)

Section exponent.
Context (c : nx_mont) (v : Z) (Hc : mont_for v c) (base : list Z).
Context (Hbase : limbs base (mt_n c)) (Hlt : bval base (mt_n c) < v).

#[local] Abbreviation n := (mt_n c).
#[local] Abbreviation R := (2 ^ (32 * mt_n c)).
#[local] Abbreviation g := (bval base (mt_n c)).

(** [a] holds [x] in Montgomery form. *)
Definition mont_form (a : list Z) (x : Z) : Prop :=
  length a = Z.to_nat NX_BN_LIMBS /\ limbs a n /\ bval a n = (x * R) mod v.

Lemma v_pos : 1 < v.
Proof. rewrite <- (mf_m _ _ Hc). apply mo_big. apply Hc. Qed.

Lemma n_range : 1 <= n <= 128.
Proof. exact (mo_n _ (mf_ok _ _ Hc)). Qed.

Lemma mont_form_mul out a b x y :
  mont_form a x -> mont_form b y -> length out = Z.to_nat NX_BN_LIMBS -> mont_form (nx_mont_mul c out a b) (x * y).
Proof.
  intros (Hla & Ha & Hva) (Hlb & Hb & Hvb) Hout. pose proof v_pos as Hv. pose proof n_range as Hn. destruct bn_sizes as [_ Hs].
  pose proof (mont_mul_val c out a b (x * y * R) (mf_ok _ _ Hc)) as H. cbv zeta in H. rewrite (mf_m _ _ Hc) in H.
  destruct H as (H1 & H2 & H3); [lia|done|rewrite Hva; apply Z.mod_pos_bound; lia|done| |].
  - rewrite Hva, Hvb, !congr_mod by lia. exists 0. ring.
  - split; [congruence|]. done.
Qed.

Lemma mont_form_to out : length out = Z.to_nat NX_BN_LIMBS -> mont_form (nx_mont_to c out base) g.
Proof.
  intros Hout. unfold nx_mont_to. pose proof v_pos as Hv. pose proof n_range as Hn. destruct bn_sizes as [_ Hs]. destruct (mf_rr _ _ Hc) as [Hr Hrv].
  pose proof (mont_mul_val c out base (mt_rr c) (g * R) (mf_ok _ _ Hc)) as H. cbv zeta in H. rewrite (mf_m _ _ Hc) in H.
  destruct H as (H1 & H2 & H3); [lia|done|done|done| |].
  - rewrite Hrv, congr_mod by lia. replace (64 * n) with (32 * n + 32 * n) by lia. rewrite Z.pow_add_r by lia. exists 0. ring.
  - split; [congruence|]. done.
Qed.

(** Back to normal form. *)
Lemma mont_form_from out a x :
  mont_form a x -> n <= Z.of_nat (length out) ->
  limbs (nx_mont_from c out a) n /\ bval (nx_mont_from c out a) n = x mod v.
Proof.
  intros (Hla & Ha & Hva) Hout. pose proof v_pos as Hv. pose proof n_range as Hn. destruct bn_sizes as [_ Hs].
  destruct (one_limbs (Z.to_nat NX_BN_LIMBS) n ltac:(lia) ltac:(lia)) as [Ho1 Ho2].
  pose proof (mont_mul_val c out a ((replicate (Z.to_nat NX_BN_LIMBS) 0).[0 := 1]) x (mf_ok _ _ Hc)) as H. cbv zeta in H.
  rewrite (mf_m _ _ Hc) in H. destruct H as (H1 & H2 & H3); [done|done|rewrite Hva; apply Z.mod_pos_bound; lia|done| |done].
  rewrite Hva, Ho2, congr_mod by lia. exists 0. ring.
Qed.

(** The bits of one byte, the high ones first. *)
Lemma exp_byte x acc byte e :
  mont_form x g -> mont_form acc (g ^ e) -> 0 <= e -> byte_ok byte ->
  mont_form (for_each (reverse (seqZ 0 8)) (exp_bit c x byte) acc) (g ^ (e * 256 + byte)).
Proof.
  intros Hx Hacc He Hb. unfold byte_ok in Hb.
  assert (H : mont_form (for_each (reverse (seqZ 0 8)) (exp_bit c x byte) acc) (g ^ (e * 2 ^ (8 - 0) + byte / 2 ^ 0))).
  { apply (rev_for_seqZ (fun i a => mont_form a (g ^ (e * 2 ^ (8 - i) + byte / 2 ^ i)))); [lia| |].
    - change (0 + 8) with 8. replace (e * 2 ^ (8 - 8) + byte / 2 ^ 8) with e; [done|]. rewrite (Z.div_small byte) by (change (2 ^ 8) with 256; lia).
      change (2 ^ (8 - 8)) with 1. lia.
    - intros i a Hi Ha. set (k := e * 2 ^ (8 - (i + 1)) + byte / 2 ^ (i + 1)) in *.
      assert (Hk : 0 <= k) by (unfold k; apply Z.add_nonneg_nonneg; [apply Z.mul_nonneg_nonneg; [done|apply Z.pow_nonneg; lia]|apply Z.div_pos; [lia|apply Z.pow_pos_nonneg; lia]]).
      assert (Hbit : byte / 2 ^ i = 2 * (byte / 2 ^ (i + 1)) + (byte >>. i) &. 1).
      { rewrite Z.shiftr_div_pow2 by lia. change 1 with (Z.ones 1) at 2. rewrite Z.land_ones by lia. change (2 ^ 1) with 2.
        rewrite Z.pow_add_r, <- Z.div_div by (try apply Z.pow_nonzero; lia). change (2 ^ 1) with 2. apply Z.div_mod. lia. }
      assert (He2 : e * 2 ^ (8 - i) = 2 * (e * 2 ^ (8 - (i + 1)))).
      { replace (8 - i) with (Z.succ (8 - (i + 1))) by lia. rewrite Z.pow_succ_r by lia. ring. }
      assert (Hexp : e * 2 ^ (8 - i) + byte / 2 ^ i = k + k + (byte >>. i) &. 1) by (rewrite He2, Hbit; unfold k; ring).
      rewrite Hexp. unfold exp_bit. pose proof (mont_form_mul a a a _ _ Ha Ha (proj1 Ha)) as Hsq. rewrite <- Z.pow_add_r in Hsq by done.
      assert (H01 : (byte >>. i) &. 1 = 0 \/ (byte >>. i) &. 1 = 1).
      { replace ((byte >>. i) &. 1) with ((byte >>. i) mod 2) by (symmetry; apply (Z.land_ones _ 1); lia).
        pose proof (Z.mod_pos_bound (byte >>. i) 2). lia. }
      destruct H01 as [H0|H0]; rewrite H0; cbn [Z.eqb negb Pos.eqb].
      + by rewrite Z.add_0_r.
      + rewrite Z.pow_add_r, Z.pow_1_r by lia. apply mont_form_mul; [done|done|apply Hsq]. }
  change (2 ^ (8 - 0)) with 256 in H. change (2 ^ 0) with 1 in H. by rewrite Z.div_1_r in H.
Qed.

Lemma exp_bytes x acc exp :
  mont_form x g -> mont_form acc 1 -> Forall byte_ok exp ->
  mont_form (for_each exp (fun acc byte => for_each (reverse (seqZ 0 8)) (exp_bit c x byte) acc) acc) (g ^ be_val exp).
Proof.
  intros Hx Hacc Hexp. induction exp as [|b exp IH] using rev_ind; [exact Hacc|].
  apply Forall_app in Hexp as [He Hb]. inversion Hb as [|? ? Hb1 _]; subst. specialize (IH He). rewrite for_each_snoc, be_val_snoc.
  apply exp_byte; [exact Hx|exact IH|apply (be_val_bound exp He)|exact Hb1].
Qed.

Lemma mod_exp_form out exp :
  Forall byte_ok exp -> n <= Z.of_nat (length out) ->
  limbs (nx_mod_exp c out base exp) n /\ bval (nx_mod_exp c out base exp) n = (g ^ be_val exp) mod v.
Proof.
  intros Hexp Hout. pose proof v_pos as Hv. pose proof n_range as Hn. destruct bn_sizes as [_ Hs]. unfold nx_mod_exp. apply mont_form_from; [|done].
  set (zeros := replicate (Z.to_nat NX_BN_LIMBS) 0). assert (Hz : length zeros = Z.to_nat NX_BN_LIMBS) by apply length_replicate.
  pose proof (mont_form_to zeros Hz) as Hx. set (x := nx_mont_to c zeros base) in *. clearbody x.
  destruct (mf_one _ _ Hc) as [Hol Hov]. destruct (copy_limbs_spec zeros (mt_one c) n ltac:(lia) Hol) as (L & B & V).
  apply exp_bytes; [exact Hx| |exact Hexp].
  split; [congruence|]. split; [exact B|]. by rewrite V, Hov, Z.mul_1_l.
Qed.
End exponent.

(** ** Printing a number *)

Lemma limb_extract a n q : 0 <= q < n -> limbs a n -> exists h, bval a n = bval a q + (a.[q] + 2 ^ 32 * h) * 2 ^ (32 * q).
Proof.
  intros Hq Ha. replace n with (q + 1 + (n - q - 1)) by lia. pattern (n - q - 1). apply natlike_ind; [| |lia].
  - exists 0. rewrite Z.add_0_r, bval_S by lia. ring.
  - intros x Hx [h Hh]. replace (q + 1 + Z.succ x) with (q + 1 + x + 1) by lia.
    exists (h + a.[q + 1 + x] * 2 ^ (32 * x)). rewrite bval_S, Hh by lia.
    replace (32 * (q + 1 + x)) with (32 + 32 * x + 32 * q) by lia. rewrite !Z.pow_add_r by lia. ring.
Qed.

Lemma byte_extract a n i :
  0 <= i -> i / 4 < n -> limbs a n -> u8 (a.[i / 4] >>. (8 * (i mod 4))) = bval a n / 256 ^ i mod 256.
Proof.
  intros Hi Hq Ha. pose proof (Z.div_mod i 4 ltac:(lia)) as Hdm. pose proof (Z.mod_pos_bound i 4 ltac:(lia)) as Hr.
  assert (Hq0 : 0 <= i / 4) by (apply Z.div_pos; lia). set (q := i / 4) in *. set (r := i mod 4) in *.
  destruct (limb_extract a n q ltac:(lia) Ha) as [h Hh].
  pose proof (bval_bound a q Hq0 (limbs_le _ _ q Ha ltac:(lia))) as Hb.
  assert (Hdiv : bval a n / 256 ^ i = (a.[q] + 2 ^ 32 * h) / 2 ^ (8 * r)).
  { change 256 with (2 ^ 8). rewrite <- Z.pow_mul_r by lia. replace (8 * i) with (32 * q + 8 * r) by lia.
    rewrite Z.pow_add_r, <- Z.div_div by (try apply Z.pow_nonzero; try apply Z.pow_pos_nonneg; lia). f_equal.
    rewrite Hh, Z.div_add, Z.div_small by (try apply Z.pow_nonzero; lia). done. }
  rewrite Hdiv. unfold wrap. change (2 ^ 8) with 256. rewrite Z.shiftr_div_pow2 by lia.
  replace (2 ^ 32 * h) with (h * 2 ^ (32 - 8 * r) * 2 ^ (8 * r))
    by (rewrite <- Z.mul_assoc, <- Z.pow_add_r by lia; replace (32 - 8 * r + 8 * r) with 32 by lia; ring).
  rewrite Z.div_add by (apply Z.pow_nonzero; lia).
  replace (32 - 8 * r) with (8 * (3 - r) + 8) by lia. rewrite Z.pow_add_r by lia. change (2 ^ 8) with 256.
  rewrite Z.mul_assoc. by rewrite Z.mod_add by lia.
Qed.

Lemma le_dec_bytes v k : 0 <= v -> le_dec ((fun i => v / 256 ^ i mod 256) <$> seqZ 0 (Z.of_nat k)) = v mod 256 ^ Z.of_nat k.
Proof.
  intros Hv. induction k as [|k IH]; [simpl; by rewrite Z.mod_1_r|].
  rewrite seqZ_S, fmap_app. change (?f <$> [?x]) with [f x]. rewrite le_dec_snoc, IH, length_fmap, length_seqZ, Z.add_0_l, Nat2Z.id.
  rewrite Nat2Z.inj_succ, Z.pow_succ_r by lia. rewrite (Z.mul_comm 256), Z.rem_mul_r by (try apply Z.pow_nonzero; try apply Z.pow_pos_nonneg; lia). ring.
Qed.

Lemma to_be_spec len a n : 0 <= len -> limbs a n -> 0 <= n ->
  Forall byte_ok (nx_bn_to_be len a n) /\ Z.of_nat (length (nx_bn_to_be len a n)) = len /\
  be_val (nx_bn_to_be len a n) = bval a n mod 256 ^ len.
Proof.
  intros Hlen Ha Hn. unfold nx_bn_to_be.
  set (f := fun i => if i / 4 <? n then u8 (a.[i / 4] >>. (8 * (i mod 4))) else 0).
  pose proof (bval_bound a n Hn Ha) as Hb.
  assert (Hf : forall i, 0 <= i -> f i = bval a n / 256 ^ i mod 256).
  { intros i Hi. unfold f. destruct (Z.ltb_spec (i / 4) n); [by apply byte_extract|].
    rewrite Z.div_small; [done|]. split; [lia|]. eapply Z.lt_le_trans; [apply Hb|].
    change 256 with (2 ^ 8). rewrite <- Z.pow_mul_r by lia. apply Z.pow_le_mono_r; [lia|].
    pose proof (Z.div_mod i 4 ltac:(lia)). pose proof (Z.mod_pos_bound i 4 ltac:(lia)). lia. }
  assert (Hmap : f <$> seqZ 0 len = (fun i => bval a n / 256 ^ i mod 256) <$> seqZ 0 len).
  { apply list_fmap_ext. intros j i Hj. apply Hf. apply list_elem_of_lookup_2, elem_of_seqZ in Hj. lia. }
  rewrite Hmap. split; [|split].
  - apply Forall_reverse, Forall_fmap, Forall_forall. intros i _. apply Z.mod_pos_bound. lia.
  - rewrite length_reverse, length_fmap, length_seqZ. lia.
  - rewrite be_val_le, reverse_involutive. replace len with (Z.of_nat (Z.to_nat len)) by lia. apply le_dec_bytes. lia.
Qed.

(** The number of limbs of an accepted modulus. *)
Lemma mont_init_n be c : nx_mont_init be = Some c -> mt_n c = (Z.of_nat (length (skip_zeros be)) + 3) / 4.
Proof.
  unfold nx_mont_init. destruct (_ || _ || _); [done|]. destruct (nx_bn_bits _ _ <? 2); [done|]. by intros [= <-].
Qed.

(** ** Correctness *)

(** The bytes of a number of known length are determined by it. *)
Lemma be_val_inj a b : Forall byte_ok a -> Forall byte_ok b -> length a = length b -> be_val a = be_val b -> a = b.
Proof.
  revert b. induction a as [|x a IH]; intros [|y b] Ha Hb Hl; simpl in Hl; try done. intros Hv.
  inversion Ha as [|? ? Hx Ha']; subst. inversion Hb as [|? ? Hy Hb']; subst. rewrite !be_val_cons in Hv.
  injection Hl as Hl. rewrite Hl in Hv. pose proof (be_val_bound a Ha') as Ba. pose proof (be_val_bound b Hb') as Bb. rewrite Hl in Ba.
  assert (x = y) as -> by nia. f_equal. apply IH; [done..|lia].
Qed.

(** The Montgomery set-up accepts exactly the odd moduli greater than 1 of at most
    4096 bits, whatever leading zeros their encoding has. *)
Theorem mont_init_exact be :
  Forall byte_ok be -> (is_Some (nx_mont_init be) <-> good_modulus (be_val be)).
Proof.
  intros Hbe. pose proof (mont_init_spec be Hbe) as H. destruct (nx_mont_init be).
  - destruct H. split; [done|by eexists].
  - split; [intros [? ?]; done|done].
Qed.

(** C35: with a modulus the set-up accepted, the windowless square-and-multiply over
    Montgomery products computes the modular power: the limbs of the result are
    [base ^ exp mod modulus] for every exponent, and are reduced. *)
Theorem mod_exp_correct be c out base exp :
  Forall byte_ok be -> nx_mont_init be = Some c ->
  limbs base (mt_n c) -> bval base (mt_n c) < be_val be -> Forall byte_ok exp -> mt_n c <= Z.of_nat (length out) ->
  let r := nx_mod_exp c out base exp in
  limbs r (mt_n c) /\ bval r (mt_n c) = (bval base (mt_n c) ^ be_val exp) mod be_val be.
Proof.
  intros Hbe Hc Hb Hlt He Ho. pose proof (mont_init_spec be Hbe) as H. rewrite Hc in H. destruct H as [_ Hf].
  by apply (mod_exp_form c (be_val be) Hf base Hb Hlt).
Qed.

(** A number read from big-endian bytes and written back with the same length is the
    same bytes, when the limbs can hold it; when they cannot, the reading fails. *)
Theorem bn_be_roundtrip out n be :
  Forall byte_ok be -> 0 <= n <= Z.of_nat (length out) ->
  let '(a, ok) := nx_bn_from_be out n be in
  (ok = true <-> be_val be < 2 ^ (32 * n)) /\ (ok = true -> nx_bn_to_be (Z.of_nat (length be)) a n = be).
Proof.
  intros Hbe Hn. pose proof (bn_from_be_spec out n be Hbe Hn) as H. destruct (nx_bn_from_be out n be) as [a ok].
  destruct H as (_ & Ha & Hok & Hv). split; [done|]. intros Ht.
  destruct (to_be_spec (Z.of_nat (length be)) a n ltac:(lia) Ha ltac:(lia)) as (Hb & Hl & Hval).
  apply be_val_inj; [done..|lia|]. rewrite Hval, (Hv Ht). apply Z.mod_small. by apply be_val_bound.
Qed.

(** *** Witnesses *)

(** 2^31 - 1 with a leading zero byte, and the base 7. *)
Definition ex_mod : list Z := [0; 0x7f; 0xff; 0xff; 0xff].

Lemma mont_init_exact_witness : is_Some (nx_mont_init ex_mod) /\ good_modulus (be_val ex_mod).
Proof.
  assert (H : Forall byte_ok ex_mod) by (repeat constructor; unfold byte_ok; lia).
  assert (G : good_modulus (be_val ex_mod)) by (split; vm_compute; [done|split; reflexivity]).
  split; [|done]. by apply (mont_init_exact ex_mod H).
Defined.

Lemma mod_exp_correct_witness :
  exists c, nx_mont_init ex_mod = Some c /\ bval (nx_mod_exp c [0] [7] [1; 0]) (mt_n c) = 7 ^ 256 mod 2147483647.
Proof.
  assert (H : Forall byte_ok ex_mod) by (repeat constructor; unfold byte_ok; lia).
  pose proof (mont_init_spec ex_mod H) as Hi. destruct (nx_mont_init ex_mod) as [c|] eqn:E; [clear Hi|destruct Hi; split; vm_compute; [done|split; reflexivity]].
  exists c. split; [done|]. assert (Hn : mt_n c = 1) by exact (mont_init_n _ _ E).
  destruct (mod_exp_correct ex_mod c [0] [7] [1; 0] H E) as [_ Hr].
  - rewrite Hn. split; [done|]. intros j Hj. assert (j = 0) as -> by lia. unfold limb_ok. vm_compute. split; [discriminate|reflexivity].
  - rewrite Hn. reflexivity.
  - repeat constructor; unfold byte_ok; lia.
  - rewrite Hn. simpl. lia.
  - rewrite Hr, Hn. reflexivity.
Defined.

Lemma bn_be_roundtrip_witness : nx_bn_to_be 5 (nx_bn_from_be [0; 0] 2 ex_mod).1 2 = ex_mod.
Proof.
  assert (H : Forall byte_ok ex_mod) by (repeat constructor; unfold byte_ok; lia).
  pose proof (bn_be_roundtrip [0; 0] 2 ex_mod H ltac:(simpl; lia)) as [_ R]. apply R. reflexivity.
Defined.
