(* ===== verification/Blocks.v ===== *)
(** * Hashing block by block

    The streaming of the hash functions, for a block size and a compression function:
    what a state (chaining value and buffered bytes) has to be after a message, how
    it changes with more input, and the padding of FIPS 180-4. *)
From S2P Require Import Prelude Bytes.

(** Copying into a buffer at an offset; [None] outside of it. *)
Definition blit (dst : list Z) (off : Z) (src : list Z) : option (list Z) :=
  if (0 <=? off) && (off + Z.of_nat (length src) <=? Z.of_nat (length dst))
  then Some (take (Z.to_nat off) dst ++ src ++ drop (Z.to_nat off + length src) dst) else None.

(** The [n] big-endian bytes of [v]. *)
Definition be_bytes (n : nat) (v : Z) : list Z := reverse (le_enc n v).

Section blocks.
Context (B : nat) (HB : (0 < B)%nat) (f : list Z -> list Z -> list Z).

(** [k] blocks of [m] from the chaining value [h]. *)
Fixpoint blocks (k : nat) (h m : list Z) : list Z :=
  match k with
  | O => h
  | S k' => blocks k' (f h (take B m)) (drop B m)
  end.

(** The bytes of [m], padded: a one bit, zeros, and [n] bytes that end the last block
    with the length in bits. *)
Definition pad (n : nat) (m : list Z) : list Z :=
  m ++ 0x80 :: replicate (Z.to_nat ((Z.of_nat B - 1 - Z.of_nat n - Z.of_nat (length m)) mod Z.of_nat B)) 0 ++
  be_bytes n (u64 (8 * Z.of_nat (length m))).

(** The hash of a message: all blocks of the padded message. *)
Definition md_hash (n : nat) (iv m : list Z) : list Z := blocks (length (pad n m) / B) iv (pad n m).

Context (iv : list Z).

(** The state after the message [m]. *)
Definition absorbed (h buf m : list Z) : Prop :=
  exists k, (length buf < B)%nat /\ length m = (k * B + length buf)%nat /\ h = blocks k iv m /\ buf = drop (k * B) m.

(** ** Absorbing *)

Lemma blocks_app k h m x : (k * B <= length m)%nat -> blocks k h (m ++ x) = blocks k h m.
Proof using HB.
  revert h m. induction k as [|k IH]; intros h m Hk; cbn [blocks]; [done|].
  rewrite take_app_le, drop_app_le by lia. apply IH. rewrite length_drop. lia.
Qed.

Lemma blocks_snoc k h m : blocks (S k) h m = f (blocks k h m) (take B (drop (k * B) m)).
Proof using HB.
  revert h m. induction k as [|k IH]; intros h m; [by rewrite drop_0|].
  cbn [blocks] in *. rewrite IH, drop_drop. do 3 f_equal; lia.
Qed.

Lemma absorbed_nil : absorbed iv [] [].
Proof using HB. exists O. by split_and!. Qed.

Lemma absorb_part h buf m x :
  absorbed h buf m -> (length buf + length x < B)%nat -> absorbed h (buf ++ x) (m ++ x).
Proof using HB.
  intros (k & Hb & Hl & Hh & Hr) Hx. exists k. rewrite !length_app. split_and!; [lia|lia| |].
  - by rewrite blocks_app by lia.
  - rewrite drop_app_le by lia. by rewrite <- Hr.
Qed.

Lemma absorb_fill h buf m x :
  absorbed h buf m -> (length buf + length x = B)%nat -> absorbed (f h (buf ++ x)) [] (m ++ x).
Proof using HB.
  intros (k & Hb & Hl & Hh & Hr) Hx. exists (S k). rewrite !length_app. cbn [length]. split_and!; [lia|lia| |].
  - rewrite blocks_snoc, blocks_app, <- Hh by lia. f_equal. rewrite drop_app_le, <- Hr by lia.
    symmetry. apply take_ge. rewrite length_app. lia.
  - symmetry. apply drop_ge. rewrite length_app. lia.
Qed.

Lemma absorbed_all h m : absorbed h [] m -> h = blocks (length m / B) iv m.
Proof using HB.
  intros (k & _ & Hl & -> & _). cbn [length] in Hl. rewrite Hl, Nat.add_0_r, Nat.div_mul by lia. done.
Qed.

(** The buffered length is the length of the message modulo the block size. *)
Lemma absorbed_mod h buf m : absorbed h buf m -> Z.of_nat (length buf) = Z.of_nat (length m) mod Z.of_nat B.
Proof using HB.
  intros (k & Hb & Hl & _ & _). rewrite Hl. apply Z.mod_unique with (Z.of_nat k); lia.
Qed.
End blocks.

(** ** Buffers *)

Lemma blit_some dst off src :
  0 <= off -> off + Z.of_nat (length src) <= Z.of_nat (length dst) ->
  exists d, blit dst off src = Some d /\ length d = length dst /\
            take (Z.to_nat off + length src) d = take (Z.to_nat off) dst ++ src.
Proof.
  intros H0 H1. unfold blit. rewrite (proj2 (Z.leb_le _ _) H0), (proj2 (Z.leb_le _ _) H1). eexists. split; [done|].
  assert (Hl : length (take (Z.to_nat off) dst) = Z.to_nat off) by (rewrite length_take; lia). split.
  - rewrite !length_app, Hl, length_drop. lia.
  - rewrite app_assoc, take_app_length' by (rewrite length_app, Hl; done). done.
Qed.

Lemma length_be_bytes n v : length (be_bytes n v) = n.
Proof. unfold be_bytes. by rewrite length_reverse, le_enc_length. Qed.

(** The big-endian bytes as shifts write them. *)
Lemma be_bytes_8 v : (fun i => u8 (v >>. (56 - 8 * i))) <$> seqZ 0 8 = be_bytes 8 v.
Proof.
  unfold be_bytes. cbn [le_enc]. change (seqZ 0 8) with [0; 1; 2; 3; 4; 5; 6; 7]. cbn [fmap list_fmap].
  rewrite !reverse_cons, reverse_nil. cbn [app]. rewrite !Z.div_div by lia. unfold u8, wrap.
  rewrite !Z.shiftr_div_pow2 by lia. by rewrite Z.div_1_r.
Qed.

(** The padding from its number of zeros and the length counted modulo 2^64. *)
Lemma pad_parts B n m z total :
  Z.of_nat z = (Z.of_nat B - 1 - Z.of_nat n - Z.of_nat (length m)) mod Z.of_nat B -> total = u64 (Z.of_nat (length m)) ->
  pad B n m = (m ++ 0x80 :: replicate z 0) ++ be_bytes n (u64 (total * 8)).
Proof.
  intros Hz ->. unfold pad. rewrite <- Hz, Nat2Z.id, <- app_assoc. cbn [app]. do 4 f_equal. unfold u64, wrap.
  rewrite Zmult_mod_idemp_l. f_equal. lia.
Qed.

(** Byte strings are checked by evaluation. *)
Lemma bytes_check x : forallb (fun b => (0 <=? b) && (b <? 256)) x = true -> Forall byte_ok x.
Proof.
  intros H. apply Forall_forall. intros b Hb. rewrite forallb_forall in H. apply list_elem_of_In in Hb. specialize (H b Hb).
  unfold byte_ok. breflect. lia.
Qed.
