(* ===== verification/Sha256.v ===== *)
(** * SHA-256

    [lib/sha256.c]: the compression function, the streaming interface and the digest
    of a buffer.  An access outside of the block buffer and a loop that does not end
    within its fuel are [None]. *)
From S2P Require Import Prelude Bytes Blocks.

Definition NX_SHA256_DIGEST_SIZE : Z := 32.

Record nx_sha256 := mk_sha256 {
  s2_h : list Z;
  s2_total_len : Z;
  s2_block : list Z;
  s2_block_len : Z
}.

(** One list for each line of the table. *)
Definition K : list Z :=
  [0x428a2f98; 0x71374491; 0xb5c0fbcf; 0xe9b5dba5; 0x3956c25b; 0x59f111f1; 0x923f82a4; 0xab1c5ed5] ++
  [0xd807aa98; 0x12835b01; 0x243185be; 0x550c7dc3; 0x72be5d74; 0x80deb1fe; 0x9bdc06a7; 0xc19bf174] ++
  [0xe49b69c1; 0xefbe4786; 0x0fc19dc6; 0x240ca1cc; 0x2de92c6f; 0x4a7484aa; 0x5cb0a9dc; 0x76f988da] ++
  [0x983e5152; 0xa831c66d; 0xb00327c8; 0xbf597fc7; 0xc6e00bf3; 0xd5a79147; 0x06ca6351; 0x14292967] ++
  [0x27b70a85; 0x2e1b2138; 0x4d2c6dfc; 0x53380d13; 0x650a7354; 0x766a0abb; 0x81c2c92e; 0x92722c85] ++
  [0xa2bfe8a1; 0xa81a664b; 0xc24b8b70; 0xc76c51a3; 0xd192e819; 0xd6990624; 0xf40e3585; 0x106aa070] ++
  [0x19a4c116; 0x1e376c08; 0x2748774c; 0x34b0bcb5; 0x391c0cb3; 0x4ed8aa4a; 0x5b9cca4f; 0x682e6ff3] ++
  [0x748f82ee; 0x78a5636f; 0x84c87814; 0x8cc70208; 0x90befffa; 0xa4506ceb; 0xbef9a3f7; 0xc67178f2].

Definition rotr (x n : Z) : Z := (x >>. n) |. u32 (x <<. (32 - n)).

Definition sched_word (p : list Z) (i : Z) : Z :=
  u32 (p.[4 * i] <<. 24) |. u32 (p.[4 * i + 1] <<. 16) |. u32 (p.[4 * i + 2] <<. 8) |. p.[4 * i + 3].

Definition sched_next (w : list Z) (i : Z) : Z :=
  let s0 := rotr w.[i - 15] 7 ^. rotr w.[i - 15] 18 ^. (w.[i - 15] >>. 3) in
  let s1 := rotr w.[i - 2] 17 ^. rotr w.[i - 2] 19 ^. (w.[i - 2] >>. 10) in
  u32 (w.[i - 16] + s0 + w.[i - 7] + s1).

(** One of the 64 rounds, on the variables [a] to [hh]. *)
Definition round (w : list Z) (s : list Z) (i : Z) : list Z :=
  match s with
  | [a; b; c; d; e; f; g; hh] =>
      let S1 := rotr e 6 ^. rotr e 11 ^. rotr e 25 in
      let ch := (e &. f) ^. (u32 (~. e) &. g) in
      let t1 := u32 (hh + S1 + ch + K.[i] + w.[i]) in
      let S0 := rotr a 2 ^. rotr a 13 ^. rotr a 22 in
      let maj := (a &. b) ^. (a &. c) ^. (b &. c) in
      let t2 := u32 (S0 + maj) in
      [u32 (t1 + t2); a; b; c; u32 (d + t1); e; f; g]
  | _ => s
  end.

Definition compress (h p : list Z) : list Z :=
  let w := replicate 64 0 in
  let w := for_each (seqZ 0 16) (fun w i => w.[i := sched_word p i]) w in
  let w := for_each (seqZ 16 48) (fun w i => w.[i := sched_next w i]) w in
  zip_with (fun x y => u32 (x + y)) h (for_each (seqZ 0 64) (round w) h).

Definition iv256 : list Z :=
  [0x6a09e667; 0xbb67ae85; 0x3c6ef372; 0xa54ff53a; 0x510e527f; 0x9b05688c; 0x1f83d9ab; 0x5be0cd19].

(** The block buffer keeps what it held. *)
Definition nx_sha256_init (ctx : nx_sha256) : nx_sha256 := mk_sha256 iv256 0 (s2_block ctx) 0.

Fixpoint update_loop (fuel : nat) (ctx : nx_sha256) (p : list Z) : option nx_sha256 :=
  let len := Z.of_nat (length p) in
  if len =? 0 then Some ctx
  else
    match fuel with
    | O => None
    | S fuel =>
        let '(mk_sha256 h total block block_len) := ctx in
        if (block_len =? 0) && (len >=? 64)
        then update_loop fuel (mk_sha256 (compress h (take 64 p)) total block block_len) (drop 64 p)
        else
          let n := u32 (64 - block_len) in
          let n := if n >? len then u32 len else n in
          block ← blit block block_len (take (Z.to_nat n) p);
          let block_len := u32 (block_len + n) in
          let ctx := if block_len =? 64 then mk_sha256 (compress h block) total block 0
                     else mk_sha256 h total block block_len in
          update_loop fuel ctx (drop (Z.to_nat n) p)
    end.

Definition nx_sha256_update (ctx : nx_sha256) (data : list Z) : option nx_sha256 :=
  let len := Z.of_nat (length data) in
  update_loop (length data)
    (mk_sha256 (s2_h ctx) (u64 (s2_total_len ctx + len)) (s2_block ctx) (s2_block_len ctx)) data.

(** [ctx->block[ctx->block_len++] = b] *)
Definition put (ctx : nx_sha256) (b : Z) : option nx_sha256 :=
  block ← blit (s2_block ctx) (s2_block_len ctx) [b];
  Some (mk_sha256 (s2_h ctx) (s2_total_len ctx) block (u32 (s2_block_len ctx + 1))).

(** [while (ctx->block_len < lim)] a zero byte *)
Definition zero_fill (lim : Z) (ctx : nx_sha256) : option nx_sha256 :=
  for_each (seqZ (s2_block_len ctx) (lim - s2_block_len ctx)) (fun o _ => ctx ← o; put ctx 0) (Some ctx).

(** The buffered block is compressed. *)
Definition flush (ctx : nx_sha256) (block_len : Z) : nx_sha256 :=
  mk_sha256 (compress (s2_h ctx) (s2_block ctx)) (s2_total_len ctx) (s2_block ctx) block_len.

Definition digest_bytes (h : list Z) : list Z :=
  concat ((fun i => [u8 (h.[i] >>. 24); u8 (h.[i] >>. 16); u8 (h.[i] >>. 8); u8 h.[i]]) <$> seqZ 0 8).

(** The context and the 32 bytes written to [out]. *)
Definition nx_sha256_final (ctx : nx_sha256) : option (nx_sha256 * list Z) :=
  let bits := u64 (s2_total_len ctx * 8) in
  ctx ← put ctx 0x80;
  ctx ← (if s2_block_len ctx >? 56 then ctx ← zero_fill 64 ctx; Some (flush ctx 0) else Some ctx);
  ctx ← zero_fill 56 ctx;
  block ← blit (s2_block ctx) 56 ((fun i => u8 (bits >>. (56 - 8 * i))) <$> seqZ 0 8);
  let ctx := flush (mk_sha256 (s2_h ctx) (s2_total_len ctx) block (s2_block_len ctx)) (s2_block_len ctx) in
  Some (ctx, digest_bytes (s2_h ctx)).

(** With what the stack variable [ctx] happened to hold as block buffer. *)
Definition nx_sha256_buf (stack : nx_sha256) (data : list Z) : option (list Z) :=
  ctx ← nx_sha256_update (nx_sha256_init stack) data;
  '(_, out) ← nx_sha256_final ctx;
  Some out.

(** ** Specification *)

(** All blocks of the padded message, compressed by the code's function; [Sha256Fips] shows
    that this is the SHA-256 of FIPS 180-4. *)
Definition sha256 (m : list Z) : list Z := digest_bytes (md_hash 64 compress 8 iv256 m).

(** Apart from the length, the context has hashed [m]. *)
Definition streamed (ctx : nx_sha256) (m : list Z) : Prop :=
  length (s2_block ctx) = 64%nat /\ 0 <= s2_block_len ctx < 64 /\
  absorbed 64 compress iv256 (s2_h ctx) (take (Z.to_nat (s2_block_len ctx)) (s2_block ctx)) m.

(** The context has hashed [m]. *)
Definition ctx_for (ctx : nx_sha256) (m : list Z) : Prop :=
  streamed ctx m /\ s2_total_len ctx = u64 (Z.of_nat (length m)).

(** The context's buffer holds [buf]; it may be full. *)
Definition holding (ctx : nx_sha256) (buf : list Z) : Prop :=
  length (s2_block ctx) = 64%nat /\ s2_block_len ctx = Z.of_nat (length buf) /\ take (length buf) (s2_block ctx) = buf.

(** ** Streaming *)

Opaque compress.

Lemma update_step_part h total block bl p m :
  streamed (mk_sha256 h total block bl) m ->
  exists n, n = Z.min (64 - bl) (Z.of_nat (length p)) /\
  u32 (64 - bl) = 64 - bl /\ u32 (bl + n) = bl + n /\
  exists block', blit block bl (take (Z.to_nat n) p) = Some block' /\
    streamed (if bl + n =? 64 then mk_sha256 (compress h block') total block' 0 else mk_sha256 h total block' (bl + n)) (m ++ take (Z.to_nat n) p).
Proof.
  intros (Hb & Hbl & Ha); cbn [s2_h s2_block s2_block_len] in *. eexists. split; [done|].
  set (n := Z.min _ _). assert (Hn : 0 <= n <= 64 - bl /\ n <= Z.of_nat (length p)) by lia. clearbody n.
  split; [apply wrap_small; unfold fits; lia|]. split; [apply wrap_small; unfold fits; lia|].
  assert (Ht : length (take (Z.to_nat n) p) = Z.to_nat n) by (rewrite length_take; lia).
  destruct (blit_some block bl (take (Z.to_nat n) p)) as (d & -> & Hd & Hpre); [lia..|]. exists d. split; [done|].
  rewrite Ht in Hpre. assert (Hlt : length (take (Z.to_nat bl) block) = Z.to_nat bl) by (rewrite length_take; lia).
  destruct (Z.eqb_spec (bl + n) 64) as [E|E]; (split; [cbn; lia|split; [cbn; lia|]]); cbn [s2_h s2_block s2_block_len].
  - rewrite take_0. replace d with (take (Z.to_nat bl + Z.to_nat n) d) by (apply take_ge; lia). rewrite Hpre.
    apply absorb_fill; [lia|done|]. rewrite Hlt, Ht. lia.
  - rewrite Z2Nat.inj_add, Hpre by lia. apply absorb_part; [lia|done|]. rewrite Hlt, Ht. lia.
Qed.

Lemma sha256_loop_spec fuel ctx p m :
  (length p <= fuel)%nat -> streamed ctx m ->
  exists ctx', update_loop fuel ctx p = Some ctx' /\ streamed ctx' (m ++ p) /\ s2_total_len ctx' = s2_total_len ctx.
Proof.
  revert ctx p m. induction fuel as [|fuel IH]; intros ctx p m Hf Hs.
  { destruct p; [|simpl in Hf; lia]. exists ctx. by rewrite app_nil_r. }
  destruct ctx as [h total block bl]. cbn [update_loop]. destruct (Z.eqb_spec (Z.of_nat (length p)) 0) as [E0|E0].
  { destruct p; [|simpl in E0; lia]. eexists. by rewrite app_nil_r. }
  destruct ((bl =? 0) && (Z.of_nat (length p) >=? 64)) eqn:Eb; breflect.
  - assert (bl = 0) as -> by lia. assert (Hl : 64 <= Z.of_nat (length p)) by lia.  destruct (IH (mk_sha256 (compress h (take 64 p)) total block 0) (drop 64 p) (m ++ take 64 p)) as (c & -> & Hc & Ht).
    + rewrite length_drop. lia.
    + destruct Hs as (Hb & Hbl & Ha). split; [done|]. split; [done|]. cbn [s2_h s2_block s2_block_len] in *.
      rewrite take_0 in *. apply (absorb_fill 64 ltac:(lia) compress iv256 h [] m (take 64 p) Ha). rewrite length_take. cbn [length]. lia.
    + exists c. rewrite <- app_assoc, take_drop in Hc. done.
  - destruct (update_step_part h total block bl p m Hs) as (n & Hn & E1 & E2 & d & Ed & Hs').
    assert (Hbl : 0 <= bl < 64) by apply Hs.
    assert (En : (if u32 (64 - bl) >? Z.of_nat (length p) then u32 (Z.of_nat (length p)) else u32 (64 - bl)) = n).
    { rewrite E1. destruct (Z.gtb_spec (64 - bl) (Z.of_nat (length p))); [|lia]. rewrite (wrap_small 32) by (unfold fits; lia). lia. }
    cbv zeta. rewrite En, Ed. cbn [mbind option_bind]. rewrite E2.
    destruct (IH _ (drop (Z.to_nat n) p) _ ltac:(rewrite length_drop; lia) Hs') as (c & -> & Hc & Ht).
    exists c. rewrite <- app_assoc, take_drop in Hc. split; [done|]. split; [done|]. rewrite Ht. by destruct (bl + n =? 64).
Qed.

Lemma sha256_init_for ctx : length (s2_block ctx) = 64%nat -> ctx_for (nx_sha256_init ctx) [].
Proof.
  intros Hl. split; [|done]. split; [done|]. split; [done|]. apply absorbed_nil. lia.
Qed.

(** Hashing more data. *)
Lemma sha256_update_for ctx m data :
  ctx_for ctx m -> exists ctx', nx_sha256_update ctx data = Some ctx' /\ ctx_for ctx' (m ++ data).
Proof.
  intros [Hs Ht]. unfold nx_sha256_update.
  destruct (sha256_loop_spec (length data) (mk_sha256 (s2_h ctx) (u64 (s2_total_len ctx + Z.of_nat (length data))) (s2_block ctx) (s2_block_len ctx)) data m)
    as (c & -> & Hc & Htot); [lia|exact Hs|].
  exists c. split; [done|]. split; [done|]. rewrite Htot. cbn [s2_total_len]. rewrite Ht, length_app. unfold u64, wrap.
  rewrite Zplus_mod_idemp_l. f_equal. lia.
Qed.

(** ** Padding *)

Lemma put_holding ctx buf b :
  holding ctx buf -> (length buf < 64)%nat ->
  exists ctx', put ctx b = Some ctx' /\ holding ctx' (buf ++ [b]) /\ s2_h ctx' = s2_h ctx /\ s2_total_len ctx' = s2_total_len ctx.
Proof.
  intros (Hb & Hl & Ht) Hlt. unfold put. rewrite Hl. destruct (blit_some (s2_block ctx) (Z.of_nat (length buf)) [b]) as (d & -> & Hd & Hpre); [simpl; lia..|].
  cbn [mbind option_bind]. eexists. split; [done|]. split; [|done]. rewrite Nat2Z.id in Hpre.
  split; [cbn; lia|]. cbn [s2_block_len s2_block]. rewrite length_app. split.
  - rewrite (wrap_small 32) by (unfold fits; lia). simpl. lia.
  - by rewrite Hpre, Ht.
Qed.

Lemma zero_fill_holding lim ctx buf :
  holding ctx buf -> (length buf <= lim)%nat -> (lim <= 64)%nat ->
  exists ctx', zero_fill (Z.of_nat lim) ctx = Some ctx' /\ holding ctx' (buf ++ replicate (lim - length buf) 0) /\
               s2_h ctx' = s2_h ctx /\ s2_total_len ctx' = s2_total_len ctx.
Proof.
  intros Hh Hle Hlim. unfold zero_fill. assert (Hl : s2_block_len ctx = Z.of_nat (length buf)) by apply Hh. rewrite Hl.
  replace (Z.of_nat lim - Z.of_nat (length buf)) with (Z.of_nat (lim - length buf)) by lia.
  remember (lim - length buf)%nat as k eqn:Hk. generalize (Z.of_nat (length buf)) as i. clear Hl.
  revert ctx buf Hh Hle Hk. induction k as [|k IH]; intros ctx buf Hh Hle Hk i.
  { exists ctx. rewrite app_nil_r. done. }
  rewrite seqZ_cons by lia. cbn [for_each fold_left mbind option_bind].
  destruct (put_holding ctx buf 0 Hh ltac:(lia)) as (c & Hp & Hc & E1 & E2). unfold for_each in *. cbn [fold_left mbind option_bind]. rewrite Hp.
  replace (Z.pred (Z.of_nat (S k))) with (Z.of_nat k) by lia.
  destruct (IH c (buf ++ [0]) Hc) with (i := Z.succ i) as (c' & -> & Hc' & E3 & E4); [rewrite length_app; simpl; lia..|].
  exists c'. split; [done|]. rewrite <- app_assoc in Hc'. split; [done|]. split; congruence.
Qed.

Lemma holding_full ctx buf : holding ctx buf -> length buf = 64%nat -> s2_block ctx = buf.
Proof. intros (Hb & _ & Ht) Hl. rewrite <- Ht, Hl. symmetry. apply take_ge. lia. Qed.

Lemma streamed_holding ctx m : streamed ctx m -> holding ctx (take (Z.to_nat (s2_block_len ctx)) (s2_block ctx)).
Proof.
  intros (Hb & Hl & _). split; [done|]. rewrite length_take, Nat.min_l by lia. split; [lia|done].
Qed.

Lemma final_pad ctx m :
  ctx_for ctx m ->
  exists c, (ctx ← put ctx 0x80;
             ctx ← (if s2_block_len ctx >? 56 then ctx ← zero_fill 64 ctx; Some (flush ctx 0) else Some ctx);
             zero_fill 56 ctx) = Some c /\
  length (s2_block c) = 64%nat /\
  exists z, absorbed 64 compress iv256 (s2_h c) (take 56 (s2_block c)) (m ++ 0x80 :: replicate z 0) /\
            Z.of_nat z = (55 - Z.of_nat (length m)) mod 64.
Proof.
  intros [Hs Ht]. pose proof (streamed_holding ctx m Hs) as Hh. destruct Hs as (Hb & Hbl & Ha).
  pose proof (absorbed_mod 64 ltac:(lia) compress iv256 _ _ _ Ha) as Hmod. rewrite length_take, Nat.min_l in Hmod by lia.
  set (buf := take (Z.to_nat (s2_block_len ctx)) (s2_block ctx)) in *.
  assert (Hlen : length buf = Z.to_nat (s2_block_len ctx)) by (unfold buf; rewrite length_take; lia).
  destruct (put_holding ctx buf 0x80 Hh ltac:(lia)) as (c1 & -> & H1 & E1 & _). cbn [mbind option_bind].
  pose proof (proj1 (proj2 H1)) as Hl1. rewrite length_app in Hl1. cbn [length] in Hl1.
  destruct (Z.gtb_spec (s2_block_len c1) 56) as [Hg|Hg].
  - destruct (zero_fill_holding 64 c1 _ H1) as (c2 & E2 & H2 & Eh2 & _); [rewrite length_app; cbn [length]; lia|lia|].
    change 64 with (Z.of_nat 64). rewrite E2. cbn [mbind option_bind].
    assert (Hfull : s2_block c2 = buf ++ 0x80 :: replicate (63 - length buf) 0).
    { rewrite (holding_full c2 _ H2) by (rewrite !length_app, length_replicate; cbn [length]; lia).
      rewrite <- app_assoc, length_app. cbn [app length]. do 3 f_equal. lia. }
    destruct (zero_fill_holding 56 (flush c2 0) []) as (c3 & E3 & H3 & Eh3 & _); [split; [apply H2|done]|cbn [length]; lia|lia|].
    change 56 with (Z.of_nat 56). rewrite E3. exists c3. split; [done|]. split; [apply H3|].
    exists (63 - length buf + 56)%nat. split; [|rewrite Nat2Z.inj_add, Nat2Z.inj_sub by lia; dlia].
    pose proof (proj2 (proj2 H3)) as Hbuf. rewrite length_app, length_replicate in Hbuf. change (length [] + (56 - length []))%nat with 56%nat in Hbuf. rewrite Hbuf, Eh3.
    cbn [flush s2_h]. rewrite Eh2, E1, Hfull, replicate_add, app_comm_cons, app_assoc.
    apply absorb_part; [lia| |cbn; lia].
    apply absorb_fill; [lia|done|]. cbn [length]. rewrite length_replicate. lia.
  - destruct (zero_fill_holding 56 c1 _ H1) as (c2 & E2 & H2 & Eh2 & _); [rewrite length_app; cbn [length]; lia|lia|].
    cbn [mbind option_bind]. change 56 with (Z.of_nat 56). rewrite E2. exists c2. split; [done|]. split; [apply H2|].
    exists (55 - length buf)%nat. split; [|rewrite Nat2Z.inj_sub by lia; dlia].
    pose proof (proj2 (proj2 H2)) as Hbuf. rewrite !length_app, length_replicate in Hbuf. cbn [length] in Hbuf.
    replace (length buf + 1 + (56 - (length buf + 1)))%nat with 56%nat in Hbuf by lia. rewrite Hbuf, Eh2, E1, <- app_assoc.
    replace (56 - (length buf + 1))%nat with (55 - length buf)%nat by lia. cbn [app].
    apply absorb_part; [lia|done|]. cbn [length]. rewrite length_replicate. lia.
Qed.

Lemma sha256_final_for ctx m : ctx_for ctx m -> exists ctx', nx_sha256_final ctx = Some (ctx', sha256 m).
Proof.
  intros Hc. destruct (final_pad ctx m Hc) as (c & Hp & Hb & z & Ha & Hz). destruct Hc as [_ Ht]. unfold nx_sha256_final.
  destruct (put ctx 0x80) as [c1|]; [|done]. cbn [mbind option_bind] in *.
  destruct (if s2_block_len c1 >? 56 then _ else _) as [c2|]; [|done]. cbn [mbind option_bind] in *. rewrite Hp. cbn [mbind option_bind].
  rewrite be_bytes_8. set (bits := u64 (s2_total_len ctx * 8)).
  destruct (blit_some (s2_block c) 56 (be_bytes 8 bits)) as (d & -> & Hd & Hpre); [lia|rewrite length_be_bytes; lia|].
  cbn [mbind option_bind]. eexists. unfold sha256, md_hash. do 3 f_equal. cbn [flush s2_h s2_block].
  rewrite length_be_bytes in Hpre. change (Z.to_nat 56) with 56%nat in Hpre. rewrite take_ge in Hpre by (rewrite Hd, Hb; simpl; lia). rewrite Hpre.
  unfold bits. rewrite (pad_parts 64 8 m z (s2_total_len ctx)) by done.
  apply absorbed_all; [lia|]. apply absorb_fill; [lia|done|]. rewrite length_be_bytes, length_take. lia.
Qed.

(** The context after the pieces [ps], hashed in turn. *)
Definition update_all (ps : list (list Z)) (ctx : nx_sha256) : option nx_sha256 :=
  for_each ps (fun o p => ctx ← o; nx_sha256_update ctx p) (Some ctx).

Lemma sha256_all_for ps ctx m :
  ctx_for ctx m -> exists ctx', update_all ps ctx = Some ctx' /\ ctx_for ctx' (m ++ concat ps).
Proof.
  revert ctx m. induction ps as [|p ps IH]; intros ctx m Hc; cbn.
  - exists ctx. by rewrite app_nil_r.
  - destruct (sha256_update_for ctx m p Hc) as (c & -> & Hc'). rewrite app_assoc. by apply IH.
Qed.

(** *** Examples *)

Definition ex_stack : nx_sha256 := mk_sha256 [] 5 (replicate 64 0xAA) 9.

(** The first example of FIPS 180-2, the digest of "abc". *)
Lemma sha256_abc :
  nx_sha256_buf ex_stack [97; 98; 99] =
  Some [0xba; 0x78; 0x16; 0xbf; 0x8f; 0x01; 0xcf; 0xea; 0x41; 0x41; 0x40; 0xde; 0x5d; 0xae; 0x22; 0x23;
        0xb0; 0x03; 0x61; 0xa3; 0x96; 0x17; 0x7a; 0x9c; 0xb4; 0x10; 0xff; 0x61; 0xf2; 0x00; 0x15; 0xad].
Proof. vm_compute. reflexivity. Qed.
