(* ===== verification/Sha256Fips.v ===== *)
(** * SHA-256 as FIPS 180-4 defines it

    The hash in terms of words of bits and arithmetic modulo 2^32, with the constants
    computed from the roots of the first primes, independently of [lib/sha256.c]; the code
    modelled in [Sha256] computes it. *)
From S2P Require Import Prelude Bytes Blocks Sha256.

(** ** Specification *)

(** The word whose bit [i] is [f i]. *)
Definition word (f : Z -> bool) : Z := foldr (fun i n => Z.b2z (f i) + 2 * n) 0 (seqZ 0 32).

(** Section 4.1.2: the functions. *)
Definition ROTR (n x : Z) : Z := x / 2 ^ n + (x mod 2 ^ n) * 2 ^ (32 - n).
Definition SHR (n x : Z) : Z := x / 2 ^ n.
Definition XOR3 (x y z : Z) : Z := word (fun i => xorb (Z.testbit x i) (xorb (Z.testbit y i) (Z.testbit z i))).
Definition Ch (x y z : Z) : Z := word (fun i => if Z.testbit x i then Z.testbit y i else Z.testbit z i).
Definition Maj (x y z : Z) : Z :=
  word (fun i => 2 <=? Z.b2z (Z.testbit x i) + Z.b2z (Z.testbit y i) + Z.b2z (Z.testbit z i)).
Definition Sigma0 (x : Z) : Z := XOR3 (ROTR 2 x) (ROTR 13 x) (ROTR 22 x).
Definition Sigma1 (x : Z) : Z := XOR3 (ROTR 6 x) (ROTR 11 x) (ROTR 25 x).
Definition sigma0 (x : Z) : Z := XOR3 (ROTR 7 x) (ROTR 18 x) (SHR 3 x).
Definition sigma1 (x : Z) : Z := XOR3 (ROTR 17 x) (ROTR 19 x) (SHR 10 x).

(** Sections 4.2.2 and 5.3.3: the first 32 bits of the fractional parts of the cube roots
    of the first 64 primes and of the square roots of the first 8. *)
Definition is_prime (n : Z) : bool := forallb (fun d => negb (n mod d =? 0)) (seqZ 2 (n - 2)).
Definition primes : list Z := take 64 (base.filter (fun n => is_prime n = true) (seqZ 2 400)).
Definition cbrt (n : Z) : Z := fold_left (fun r i => if (r + 2 ^ i) ^ 3 <=? n then r + 2 ^ i else r) (rev (seqZ 0 40)) 0.
Definition K_fips : list Z := (fun p => cbrt (p * 2 ^ 96) mod 2 ^ 32) <$> primes.
Definition H0_fips : list Z := (fun p => Z.sqrt (p * 2 ^ 64) mod 2 ^ 32) <$> take 8 primes.

(** Section 6.2.2: the message schedule of a block of 64 bytes, [t] being the number of
    words computed so far. *)
Definition block_words (p : list Z) : list Z :=
  (fun t => p.[4 * t] * 2 ^ 24 + p.[4 * t + 1] * 2 ^ 16 + p.[4 * t + 2] * 2 ^ 8 + p.[4 * t + 3]) <$> seqZ 0 16.
Definition next_word (W : list Z) : list Z :=
  let t := Z.of_nat (length W) in
  W ++ [(sigma1 W.[t - 2] + W.[t - 7] + sigma0 W.[t - 15] + W.[t - 16]) mod 2 ^ 32].
Definition schedule (p : list Z) : list Z := Nat.iter 48 next_word (block_words p).

(** The working variables. *)
Record vars := mk_vars { v_a : Z; v_b : Z; v_c : Z; v_d : Z; v_e : Z; v_f : Z; v_g : Z; v_h : Z }.

Definition fips_round (W : list Z) (v : vars) (t : Z) : vars :=
  let T1 := v_h v + Sigma1 (v_e v) + Ch (v_e v) (v_f v) (v_g v) + K_fips.[t] + W.[t] in
  let T2 := Sigma0 (v_a v) + Maj (v_a v) (v_b v) (v_c v) in
  mk_vars ((T1 + T2) mod 2 ^ 32) (v_a v) (v_b v) (v_c v) ((v_d v + T1) mod 2 ^ 32) (v_e v) (v_f v) (v_g v).

Definition fips_compress (H p : list Z) : list Z :=
  let v := fold_left (fips_round (schedule p)) (seqZ 0 64) (mk_vars H.[0] H.[1] H.[2] H.[3] H.[4] H.[5] H.[6] H.[7]) in
  zip_with (fun x y => (x + y) mod 2 ^ 32) [v_a v; v_b v; v_c v; v_d v; v_e v; v_f v; v_g v; v_h v] H.

(** Section 5.1.1 pads the message ([pad]); the digest is the last hash value, each word
    as four bytes, the most significant first. *)
Definition fips_sha256 (m : list Z) : list Z := concat (be_bytes 4 <$> md_hash 64 fips_compress 8 H0_fips m).

(** ** Words of bits *)

Lemma foldr_bits f n a : 0 <= a ->
  foldr (fun i m => Z.b2z (f i) + 2 * m) 0 (seqZ a (Z.of_nat n)) >= 0 /\
  forall k, 0 <= k -> Z.testbit (foldr (fun i m => Z.b2z (f i) + 2 * m) 0 (seqZ a (Z.of_nat n))) k = if k <? Z.of_nat n then f (a + k) else false.
Proof.
  revert a. induction n as [|n IH]; intros a Ha.
  { change (seqZ a (Z.of_nat 0)) with (@nil Z). cbn [foldr]. split; [lia|]. intros k Hk. rewrite Z.bits_0.
    destruct (Z.ltb_spec k (Z.of_nat 0)); [lia|done]. }
  rewrite seqZ_cons by lia. replace (Z.pred (Z.of_nat (S n))) with (Z.of_nat n) by lia. cbn [foldr].
  destruct (IH (Z.succ a) ltac:(lia)) as [H0 H1]. set (m := foldr _ 0 _) in *. split; [destruct (f a); simpl; lia|].
  intros k Hk. destruct (decide (k = 0)) as [->|Hne].
  - rewrite Z.add_comm, Z.testbit_0_r. destruct (Z.ltb_spec 0 (Z.of_nat (S n))); [|lia]. f_equal. lia.
  - replace k with (Z.succ (k - 1)) at 1 by lia. rewrite Z.add_comm, Z.testbit_succ_r by lia. rewrite H1 by lia.
    replace (Z.succ a + (k - 1)) with (a + k) by lia. destruct (Z.ltb_spec (k - 1) (Z.of_nat n)), (Z.ltb_spec k (Z.of_nat (S n))); try lia; done.
Qed.

Lemma word_bit f k : 0 <= k -> Z.testbit (word f) k = if k <? 32 then f k else false.
Proof. intros Hk. exact (proj2 (foldr_bits f 32 0 ltac:(lia)) k Hk). Qed.

Lemma word_fits f : fits 32 (word f).
Proof.
  destruct (foldr_bits f 32 0 ltac:(lia)) as [H _]. apply fits_bits; [lia|unfold word; change (Z.of_nat 32) with 32 in H; lia|].
  intros i Hi. rewrite word_bit by lia. by rewrite (proj2 (Z.ltb_ge i 32)).
Qed.

(** A word is determined by its bits. *)
Lemma word_eq x f : fits 32 x -> (forall k, 0 <= k < 32 -> Z.testbit x k = f k) -> x = word f.
Proof.
  intros Hx Hb. apply Z.bits_inj'. intros k Hk. rewrite word_bit by done. destruct (Z.ltb_spec k 32); [by apply Hb|by rewrite (testbit_high 32)].
Qed.

Lemma rotr_ROTR x n : fits 32 x -> 0 < n < 32 -> rotr x n = ROTR n x /\ fits 32 (ROTR n x).
Proof.
  intros Hx Hn. unfold rotr, ROTR. assert (Hd : x = 2 ^ n * (x / 2 ^ n) + x mod 2 ^ n) by (apply Z.div_mod; lia).
  assert (Hp : 2 ^ 32 = 2 ^ n * 2 ^ (32 - n)) by (rewrite <- Z.pow_add_r by lia; f_equal; lia).
  pose proof (Z.mod_pos_bound x (2 ^ n) ltac:(lia)) as Hm. pose proof (Z.pow_pos_nonneg 2 (32 - n) ltac:(lia) ltac:(lia)) as Hp1.
  assert (Hq : 0 <= x / 2 ^ n < 2 ^ (32 - n)).
  { unfold fits in Hx. split; [apply Z.div_pos; lia|]. apply Z.div_lt_upper_bound; lia. }
  assert (Hs : u32 (x <<. (32 - n)) = (x mod 2 ^ n) * 2 ^ (32 - n)).
  { unfold u32, wrap. rewrite Z.shiftl_mul_pow2 by lia. rewrite Hp. by rewrite Z.mul_mod_distr_r by lia. }
  rewrite Z.shiftr_div_pow2, Hs by lia. split; [|unfold fits; rewrite Hp; nia].
  rewrite <- Z.add_nocarry_lor; [done|]. rewrite <- Z.shiftl_mul_pow2 by lia. apply Z.bits_inj'. intros i Hi. rewrite Z.land_spec, Z.bits_0.
  destruct (Z.lt_ge_cases i (32 - n)).
  - rewrite Z.shiftl_spec_low by lia. apply andb_false_r.
  - rewrite (testbit_high (32 - n) (x / 2 ^ n)) by (unfold fits; lia). done.
Qed.

Lemma shr_SHR x n : fits 32 x -> 0 <= n -> x >>. n = SHR n x /\ fits 32 (SHR n x).
Proof.
  intros Hx Hn. unfold SHR. split; [by apply Z.shiftr_div_pow2|]. unfold fits in *. pose proof (Z.pow_pos_nonneg 2 n ltac:(lia) Hn).
  split; [apply Z.div_pos; lia|]. apply Z.div_lt_upper_bound; nia.
Qed.

Lemma xor_XOR3 x y z : fits 32 x -> fits 32 y -> fits 32 z -> x ^. y ^. z = XOR3 x y z.
Proof.
  intros Hx Hy Hz. apply word_eq; [by repeat apply lxor_fits|]. intros k Hk. rewrite !Z.lxor_spec. apply xorb_assoc.
Qed.

Lemma ch_Ch x y z : fits 32 x -> fits 32 y -> fits 32 z -> (x &. y) ^. (u32 (~. x) &. z) = Ch x y z.
Proof.
  intros Hx Hy Hz. apply word_eq.
  - apply lxor_fits; [lia|apply fits_land; [lia|done|apply Hy]|]. apply fits_land; [lia|by apply wrap_fits|apply Hz].
  - intros k Hk. rewrite Z.lxor_spec, !Z.land_spec. unfold u32, wrap. rewrite Z.mod_pow2_bits_low by lia. rewrite Z.lnot_spec by lia.
    by destruct (Z.testbit x k), (Z.testbit y k), (Z.testbit z k).
Qed.

Lemma maj_Maj x y z : fits 32 x -> fits 32 y -> fits 32 z -> (x &. y) ^. (x &. z) ^. (y &. z) = Maj x y z.
Proof.
  intros Hx Hy Hz. apply word_eq.
  - repeat apply lxor_fits; try lia; apply fits_land; try lia; try done; [apply Hy|apply Hz|apply Hz].
  - intros k Hk. rewrite !Z.lxor_spec, !Z.land_spec. by destruct (Z.testbit x k), (Z.testbit y k), (Z.testbit z k).
Qed.

(** The constants of the code. *)
Lemma K_is_fips : K = K_fips.
Proof. vm_compute. reflexivity. Qed.

Lemma iv_is_fips : iv256 = H0_fips.
Proof. vm_compute. reflexivity. Qed.

(** ** The compression function *)

Lemma byte_word b0 b1 b2 b3 : byte_ok b0 -> byte_ok b1 -> byte_ok b2 -> byte_ok b3 ->
  u32 (b0 <<. 24) |. u32 (b1 <<. 16) |. u32 (b2 <<. 8) |. b3 = b0 * 2 ^ 24 + b1 * 2 ^ 16 + b2 * 2 ^ 8 + b3 /\
  fits 32 (b0 * 2 ^ 24 + b1 * 2 ^ 16 + b2 * 2 ^ 8 + b3).
Proof.
  unfold byte_ok. intros H0 H1 H2 H3. rewrite !Z.shiftl_mul_pow2 by lia. rewrite !wrap_small by (unfold fits; lia).
  assert (Hlor : forall x y n, 0 <= n -> 0 <= y < 2 ^ n -> x * 2 ^ n |. y = x * 2 ^ n + y).
  { intros x y n Hn Hy. rewrite <- Z.add_nocarry_lor; [done|]. rewrite <- Z.shiftl_mul_pow2 by lia. apply Z.bits_inj'. intros i Hi.
    rewrite Z.land_spec, Z.bits_0. destruct (Z.lt_ge_cases i n); [by rewrite Z.shiftl_spec_low|].
    rewrite (testbit_high n y) by (unfold fits; lia). apply andb_false_r. }
  rewrite (Hlor b0 (b1 * 2 ^ 16) 24) by lia. replace (b0 * 2 ^ 24 + b1 * 2 ^ 16) with ((b0 * 2 ^ 8 + b1) * 2 ^ 16) by lia.
  rewrite (Hlor _ (b2 * 2 ^ 8) 16) by lia. replace ((b0 * 2 ^ 8 + b1) * 2 ^ 16 + b2 * 2 ^ 8) with ((b0 * 2 ^ 16 + b1 * 2 ^ 8 + b2) * 2 ^ 8) by lia.
  rewrite Hlor by lia. unfold fits. lia.
Qed.

(** The words computed so far, in the array of the code. *)
Definition words_ok (w W : list Z) : Prop :=
  length w = 64%nat /\ take (length W) w = W /\ Forall (fits 32) W.

Lemma words_get w W i : words_ok w W -> 0 <= i < Z.of_nat (length W) -> w.[i] = W.[i] /\ fits 32 W.[i].
Proof.
  intros (Hl & Ht & Hf) Hi. split.
  - rewrite <- Ht at 1. rewrite !list_lookup_total_alt, lookup_take_lt by lia. done.
  - rewrite Forall_forall in Hf. apply Hf, arr_get_elem. lia.
Qed.

Lemma words_push w W x : words_ok w W -> (length W < 64)%nat -> fits 32 x -> words_ok (w.[Z.of_nat (length W) := x]) (W ++ [x]).
Proof.
  intros (Hl & Ht & Hf) Hlt Hx. split; [by rewrite arr_set_length|]. rewrite length_app. cbn [length]. split; [|apply Forall_app; auto].
  rewrite Nat2Z.id, Nat.add_1_r, (take_S_r _ _ x) by (apply list_lookup_insert_eq; lia). rewrite take_insert_ge by lia. by rewrite Ht.
Qed.

Lemma block_words_ok p : length p = 64%nat -> Forall byte_ok p ->
  words_ok (for_each (seqZ 0 16) (fun w i => w.[i := sched_word p i]) (replicate 64 0)) (block_words p).
Proof.
  intros Hl Hp. unfold block_words.
  pose proof (for_seqZ (fun i w => words_ok w ((fun t => p.[4 * t] * 2 ^ 24 + p.[4 * t + 1] * 2 ^ 16 + p.[4 * t + 2] * 2 ^ 8 + p.[4 * t + 3]) <$> seqZ 0 i))
    (fun w i => w.[i := sched_word p i]) 0 16 (replicate 64 0) ltac:(lia)) as Hi. cbv beta in Hi. apply Hi; [by split_and!|].
  intros i w Hi' Hw. rewrite seqZ_app by lia. rewrite fmap_app. clear Hi.
  rewrite Forall_forall in Hp. assert (Hb : forall j, 0 <= j < 64 -> byte_ok p.[j]) by (intros j Hj; apply Hp, arr_get_elem; lia).
  destruct (byte_word p.[4 * i] p.[4 * i + 1] p.[4 * i + 2] p.[4 * i + 3]) as [E Hf]; [apply Hb; lia..|].
  assert (Hlen : Z.of_nat (length ((fun t => p.[4 * t] * 2 ^ 24 + p.[4 * t + 1] * 2 ^ 16 + p.[4 * t + 2] * 2 ^ 8 + p.[4 * t + 3]) <$> seqZ 0 i)) = i)
    by (rewrite length_fmap, length_seqZ; lia).
  unfold sched_word. rewrite E. rewrite (seqZ_cons (0 + i) 1) by lia. change (seqZ (Z.succ (0 + i)) (Z.pred 1)) with (@nil Z).
  rewrite Z.add_0_l. cbn [fmap list_fmap]. rewrite <- Hlen at 1. apply words_push; [done|lia|done].
Qed.

Lemma next_word_ok w W : words_ok w W -> (16 <= length W < 64)%nat ->
  words_ok (w.[Z.of_nat (length W) := sched_next w (Z.of_nat (length W))]) (next_word W).
Proof.
  intros Hw Hl. unfold next_word, sched_next. set (t := Z.of_nat (length W)).
  destruct (words_get w W (t - 15) Hw ltac:(lia)) as [-> F15]. destruct (words_get w W (t - 2) Hw ltac:(lia)) as [-> F2].
  destruct (words_get w W (t - 16) Hw ltac:(lia)) as [-> _]. destruct (words_get w W (t - 7) Hw ltac:(lia)) as [-> _].
  destruct (rotr_ROTR W.[t - 15] 7 F15 ltac:(lia)) as [-> ?]. destruct (rotr_ROTR W.[t - 15] 18 F15 ltac:(lia)) as [-> ?].
  destruct (rotr_ROTR W.[t - 2] 17 F2 ltac:(lia)) as [-> ?]. destruct (rotr_ROTR W.[t - 2] 19 F2 ltac:(lia)) as [-> ?].
  destruct (shr_SHR W.[t - 15] 3 F15 ltac:(lia)) as [-> ?]. destruct (shr_SHR W.[t - 2] 10 F2 ltac:(lia)) as [-> ?].
  rewrite !xor_XOR3 by done. fold (sigma0 W.[t - 15]) (sigma1 W.[t - 2]).
  replace (u32 _) with ((sigma1 W.[t - 2] + W.[t - 7] + sigma0 W.[t - 15] + W.[t - 16]) mod 2 ^ 32) by (unfold u32, wrap; f_equal; lia).
  apply words_push; [done|lia|]. apply (wrap_fits 32). lia.
Qed.

Lemma next_word_length W : length (next_word W) = S (length W).
Proof. unfold next_word. rewrite length_app. simpl. lia. Qed.

Lemma schedule_ok p : length p = 64%nat -> Forall byte_ok p -> exists w,
  for_each (seqZ 16 48) (fun w i => w.[i := sched_next w i]) (for_each (seqZ 0 16) (fun w i => w.[i := sched_word p i]) (replicate 64 0)) = w /\
  words_ok w (schedule p) /\ length (schedule p) = 64%nat.
Proof.
  intros Hl Hp. eexists. split; [done|]. pose proof (block_words_ok p Hl Hp) as H0. set (w0 := for_each (seqZ 0 16) _ _) in *. clearbody w0.
  assert (L0 : length (block_words p) = 16%nat) by (unfold block_words; by rewrite length_fmap, length_seqZ).
  pose proof (for_seqZ (fun i w => words_ok w (Nat.iter (Z.to_nat (i - 16)) next_word (block_words p)) /\ length (Nat.iter (Z.to_nat (i - 16)) next_word (block_words p)) = Z.to_nat i)
    (fun w i => w.[i := sched_next w i]) 16 48 w0 ltac:(lia)) as Hi. cbv beta in Hi. apply Hi; [by split|].
  intros i w Hi' [Hw Hlen]. replace (Z.to_nat (i + 1 - 16)) with (S (Z.to_nat (i - 16))) by lia. rewrite Nat.iter_succ. split.
  - replace i with (Z.of_nat (length (Nat.iter (Z.to_nat (i - 16)) next_word (block_words p)))) at 1 2 by lia. apply next_word_ok; [done|lia].
  - rewrite next_word_length. lia.
Qed.

Definition vars_list (v : vars) : list Z := [v_a v; v_b v; v_c v; v_d v; v_e v; v_f v; v_g v; v_h v].

Lemma round_fips w W v t :
  words_ok w W -> length W = 64%nat -> 0 <= t < 64 -> Forall (fits 32) (vars_list v) ->
  round w (vars_list v) t = vars_list (fips_round W v t) /\ Forall (fits 32) (vars_list (fips_round W v t)).
Proof.
  intros Hw HW Ht Hv. destruct (words_get w W t Hw ltac:(lia)) as [Ew _].
  destruct v as [a b c d e f g h]. unfold vars_list in *. cbn [v_a v_b v_c v_d v_e v_f v_g v_h] in *.
  repeat (apply Forall_cons in Hv as [? Hv]). unfold round, fips_round. cbn [v_a v_b v_c v_d v_e v_f v_g v_h]. rewrite Ew, K_is_fips.
  destruct (rotr_ROTR e 6) as [-> ?]; [done|lia|]. destruct (rotr_ROTR e 11) as [-> ?]; [done|lia|]. destruct (rotr_ROTR e 25) as [-> ?]; [done|lia|].
  destruct (rotr_ROTR a 2) as [-> ?]; [done|lia|]. destruct (rotr_ROTR a 13) as [-> ?]; [done|lia|]. destruct (rotr_ROTR a 22) as [-> ?]; [done|lia|].
  rewrite !xor_XOR3, ch_Ch, maj_Maj by done. fold (Sigma0 a) (Sigma1 e). set (T1 := h + _ + _ + _ + _). set (T2 := Sigma0 a + _).
  replace (u32 (u32 T1 + u32 T2)) with ((T1 + T2) mod 2 ^ 32) by (unfold u32, wrap; by rewrite <- Zplus_mod).
  replace (u32 (d + u32 T1)) with ((d + T1) mod 2 ^ 32) by (unfold u32, wrap; by rewrite Zplus_mod_idemp_r).
  split; [done|]. repeat (apply Forall_cons; split); try done; apply (wrap_fits 32); lia.
Qed.

Lemma rounds_fips w W l v :
  words_ok w W -> length W = 64%nat -> Forall (fun t => 0 <= t < 64) l -> Forall (fits 32) (vars_list v) ->
  for_each l (round w) (vars_list v) = vars_list (fold_left (fips_round W) l v) /\ Forall (fits 32) (vars_list (fold_left (fips_round W) l v)).
Proof.
  intros Hw HW. unfold for_each. revert v. induction l as [|t l IH]; intros v Hl Hv; cbn [fold_left]; [done|]. apply Forall_cons in Hl as [Ht Hl].
  destruct (round_fips w W v t Hw HW Ht Hv) as [-> Hv']. by apply IH.
Qed.

(** The hash value after the rounds. *)
Lemma sums_fips h v : length h = 8%nat ->
  zip_with (fun x y => u32 (x + y)) h (vars_list v) = zip_with (fun x y => (x + y) mod 2 ^ 32) (vars_list v) h /\
  length (zip_with (fun x y => (x + y) mod 2 ^ 32) (vars_list v) h) = 8%nat /\
  Forall (fits 32) (zip_with (fun x y => (x + y) mod 2 ^ 32) (vars_list v) h).
Proof.
  intros Hl. split; [|split; [by rewrite length_zip_with, Hl|]].
  - clear Hl. generalize (vars_list v) as l. induction h as [|x h IH]; intros [|y l]; cbn [zip_with]; [done..|]. rewrite IH. f_equal.
    unfold u32, wrap. f_equal. lia.
  - apply Forall_forall. intros x Hx. apply elem_of_lookup_zip_with in Hx as (i & a & b & -> & _). apply (wrap_fits 32). lia.
Qed.

#[local] Transparent compress.

Definition vars_of (H : list Z) : vars := mk_vars H.[0] H.[1] H.[2] H.[3] H.[4] H.[5] H.[6] H.[7].

Lemma compress_eq h p : compress h p = zip_with (fun x y => u32 (x + y)) h
  (for_each (seqZ 0 64) (round (for_each (seqZ 16 48) (fun w i => w.[i := sched_next w i])
    (for_each (seqZ 0 16) (fun w i => w.[i := sched_word p i]) (replicate 64 0)))) h).
Proof. reflexivity. Qed.

Lemma fips_compress_eq H p : fips_compress H p =
  zip_with (fun x y => (x + y) mod 2 ^ 32) (vars_list (fold_left (fips_round (schedule p)) (seqZ 0 64) (vars_of H))) H.
Proof. reflexivity. Qed.

Lemma compress_fips h p :
  length h = 8%nat -> Forall (fits 32) h -> length p = 64%nat -> Forall byte_ok p ->
  compress h p = fips_compress h p /\ length (fips_compress h p) = 8%nat /\ Forall (fits 32) (fips_compress h p).
Proof.
  intros Hl Hh Hp Hb. rewrite compress_eq, fips_compress_eq. destruct (schedule_ok p Hp Hb) as (w & -> & Hw & HW).
  assert (Hs : Forall (fun t => 0 <= t < 64) (seqZ 0 64)) by (apply Forall_forall; intros t Ht%elem_of_seqZ; lia).
  assert (Ev : vars_list (vars_of h) = h) by (destruct h as [|a [|b [|c [|d [|e [|f [|g [|x [|]]]]]]]]]; done).
  rewrite <- Ev in Hh. destruct (rounds_fips w (schedule p) (seqZ 0 64) (vars_of h) Hw HW Hs Hh) as [E _]. rewrite Ev in E. rewrite E.
  by apply sums_fips.
Qed.

Lemma blocks_fips k h m :
  length h = 8%nat -> Forall (fits 32) h -> (k * 64 <= length m)%nat -> Forall byte_ok m ->
  blocks 64 compress k h m = blocks 64 fips_compress k h m /\ length (blocks 64 compress k h m) = 8%nat /\ Forall (fits 32) (blocks 64 compress k h m).
Proof.
  revert h m. induction k as [|k IH]; intros h m Hl Hh Hm Hb; cbn [blocks]; [done|].
  destruct (compress_fips h (take 64 m) Hl Hh) as (-> & Hl' & Hf'); [rewrite length_take; lia|by apply Forall_take|].
  apply IH; [done|done|rewrite length_drop; lia|by apply Forall_drop].
Qed.

Lemma pad_bytes m : Forall byte_ok m -> Forall byte_ok (pad 64 8 m).
Proof.
  intros Hm. unfold pad. apply Forall_app. split; [done|]. apply Forall_cons. split; [done|]. apply Forall_app. split; [by apply Forall_replicate|].
  unfold be_bytes. rewrite Forall_reverse. apply le_enc_bytes.
Qed.

(** The digest of the code's model is the standard's. *)
Lemma sha256_fips m : Forall byte_ok m -> sha256 m = fips_sha256 m.
Proof.
  intros Hm. unfold sha256, fips_sha256, md_hash. set (k := (length (pad 64 8 m) / 64)%nat).
  destruct (blocks_fips k iv256 (pad 64 8 m)) as (E & Hl & Hf).
  - done.
  - by repeat (apply Forall_cons; split).
  - unfold k. pose proof (Nat.div_mod_eq (length (pad 64 8 m)) 64). lia.
  - by apply pad_bytes.
  - rewrite <- iv_is_fips, <- E. set (h := blocks 64 compress k iv256 (pad 64 8 m)) in *. clearbody h. clear -Hl Hf.
    do 8 (destruct h as [|? h]; [done|]). destruct h; [|done]. clear Hl. unfold digest_bytes, be_bytes.
    change (seqZ 0 8) with [0; 1; 2; 3; 4; 5; 6; 7]. cbn [fmap list_fmap]. unfold u8, wrap. rewrite !Z.shiftr_div_pow2 by lia.
    cbn [le_enc concat]. rewrite !reverse_cons, !reverse_nil. cbn [app]. rewrite !Z.div_div by lia. done.
Qed.

(** C36: however a message of bytes is cut into pieces, initialising, updating with every
    piece and finishing give the digest FIPS 180-4 defines for the whole message, the
    constants being computed from the roots of the primes and the functions given by their
    bits.  The block buffer is never written outside of its 64 bytes, and what it held
    before does not matter. *)
Theorem sha256_streaming stack ps :
  length (s2_block stack) = 64%nat -> Forall byte_ok (concat ps) ->
  exists ctx ctx', update_all ps (nx_sha256_init stack) = Some ctx /\ nx_sha256_final ctx = Some (ctx', fips_sha256 (concat ps)).
Proof.
  intros Hl Hb. destruct (sha256_all_for ps _ [] (sha256_init_for stack Hl)) as (c & Hu & Hc).
  destruct (sha256_final_for c _ Hc) as (c' & Hf). exists c, c'. by rewrite <- sha256_fips.
Qed.

(** *** Examples *)

Lemma sha256_streaming_witness :
  exists ctx ctx', update_all [[97]; []; [98; 99]] (nx_sha256_init ex_stack) = Some ctx /\
                   nx_sha256_final ctx = Some (ctx', fips_sha256 [97; 98; 99]).
Proof. apply (sha256_streaming ex_stack [[97]; []; [98; 99]]); [reflexivity|]. apply bytes_check. reflexivity. Defined.
