(* ===== verification/Sha512.v ===== *)
(** * SHA-384 and SHA-512

    [lib/crypto/sha512.c]: the compression function and the streaming interface that the
    two digests share.  An access outside of the block buffer and a loop that does not
    end within its fuel are [None]. *)
From S2P Require Import Prelude Bytes Blocks.

Definition NX_SHA512_DIGEST_SIZE : Z := 64.
Definition NX_SHA384_DIGEST_SIZE : Z := 48.

Record nx_sha512 := mk_sha512 {
  s5_h : list Z;
  s5_total_len : Z;
  s5_block : list Z;
  s5_block_len : Z;
  s5_out_len : Z
}.

Definition K : list Z :=
  [0x428a2f98d728ae22; 0x7137449123ef65cd; 0xb5c0fbcfec4d3b2f; 0xe9b5dba58189dbbc;
   0x3956c25bf348b538; 0x59f111f1b605d019; 0x923f82a4af194f9b; 0xab1c5ed5da6d8118;
   0xd807aa98a3030242; 0x12835b0145706fbe; 0x243185be4ee4b28c; 0x550c7dc3d5ffb4e2;
   0x72be5d74f27b896f; 0x80deb1fe3b1696b1; 0x9bdc06a725c71235; 0xc19bf174cf692694;
   0xe49b69c19ef14ad2; 0xefbe4786384f25e3; 0x0fc19dc68b8cd5b5; 0x240ca1cc77ac9c65;
   0x2de92c6f592b0275; 0x4a7484aa6ea6e483; 0x5cb0a9dcbd41fbd4; 0x76f988da831153b5;
   0x983e5152ee66dfab; 0xa831c66d2db43210; 0xb00327c898fb213f; 0xbf597fc7beef0ee4;
   0xc6e00bf33da88fc2; 0xd5a79147930aa725; 0x06ca6351e003826f; 0x142929670a0e6e70;
   0x27b70a8546d22ffc; 0x2e1b21385c26c926; 0x4d2c6dfc5ac42aed; 0x53380d139d95b3df;
   0x650a73548baf63de; 0x766a0abb3c77b2a8; 0x81c2c92e47edaee6; 0x92722c851482353b;
   0xa2bfe8a14cf10364; 0xa81a664bbc423001; 0xc24b8b70d0f89791; 0xc76c51a30654be30;
   0xd192e819d6ef5218; 0xd69906245565a910; 0xf40e35855771202a; 0x106aa07032bbd1b8;
   0x19a4c116b8d2d0c8; 0x1e376c085141ab53; 0x2748774cdf8eeb99; 0x34b0bcb5e19b48a8;
   0x391c0cb3c5c95a63; 0x4ed8aa4ae3418acb; 0x5b9cca4f7763e373; 0x682e6ff3d6b2b8a3;
   0x748f82ee5defb2fc; 0x78a5636f43172f60; 0x84c87814a1f0ab72; 0x8cc702081a6439ec;
   0x90befffa23631e28; 0xa4506cebde82bde9; 0xbef9a3f7b2c67915; 0xc67178f2e372532b;
   0xca273eceea26619c; 0xd186b8c721c0c207; 0xeada7dd6cde0eb1e; 0xf57d4f7fee6ed178;
   0x06f067aa72176fba; 0x0a637dc5a2c898a6; 0x113f9804bef90dae; 0x1b710b35131c471b;
   0x28db77f523047d84; 0x32caab7b40c72493; 0x3c9ebe0a15c9bebc; 0x431d67c49c100d4c;
   0x4cc5d4becb3e42b6; 0x597f299cfc657e2a; 0x5fcb6fab3ad6faec; 0x6c44198c4a475817].

Definition IV512 : list Z :=
  [0x6a09e667f3bcc908; 0xbb67ae8584caa73b; 0x3c6ef372fe94f82b; 0xa54ff53a5f1d36f1;
   0x510e527fade682d1; 0x9b05688c2b3e6c1f; 0x1f83d9abfb41bd6b; 0x5be0cd19137e2179].

Definition IV384 : list Z :=
  [0xcbbb9d5dc1059ed8; 0x629a292a367cd507; 0x9159015a3070dd17; 0x152fecd8f70e5939;
   0x67332667ffc00b31; 0x8eb44a8768581511; 0xdb0c2e0d64f98fa7; 0x47b5481dbefa4fa4].

Definition rotr (x n : Z) : Z := (x >>. n) |. u64 (x <<. (64 - n)).

Definition sched_word (p : list Z) (i : Z) : Z :=
  for_each (seqZ 0 8) (fun v j => u64 (v <<. 8) |. p.[8 * i + j]) 0.

Definition sched_next (w : list Z) (i : Z) : Z :=
  let s0 := rotr w.[i - 15] 1 ^. rotr w.[i - 15] 8 ^. (w.[i - 15] >>. 7) in
  let s1 := rotr w.[i - 2] 19 ^. rotr w.[i - 2] 61 ^. (w.[i - 2] >>. 6) in
  u64 (w.[i - 16] + s0 + w.[i - 7] + s1).

(** One of the 80 rounds, on the variables [a] to [hh]. *)
Definition round (w : list Z) (s : list Z) (i : Z) : list Z :=
  match s with
  | [a; b; c; d; e; f; g; hh] =>
      let S1 := rotr e 14 ^. rotr e 18 ^. rotr e 41 in
      let ch := (e &. f) ^. (u64 (~. e) &. g) in
      let t1 := u64 (hh + S1 + ch + K.[i] + w.[i]) in
      let S0 := rotr a 28 ^. rotr a 34 ^. rotr a 39 in
      let maj := (a &. b) ^. (a &. c) ^. (b &. c) in
      let t2 := u64 (S0 + maj) in
      [u64 (t1 + t2); a; b; c; u64 (d + t1); e; f; g]
  | _ => s
  end.

Definition compress (h p : list Z) : list Z :=
  let w := replicate 80 0 in
  let w := for_each (seqZ 0 16) (fun w i => w.[i := sched_word p i]) w in
  let w := for_each (seqZ 16 64) (fun w i => w.[i := sched_next w i]) w in
  zip_with (fun x y => u64 (x + y)) h (for_each (seqZ 0 80) (round w) h).

(** The block buffer keeps what it held. *)
Definition nx_sha512_init (ctx : nx_sha512) : nx_sha512 := mk_sha512 IV512 0 (s5_block ctx) 0 NX_SHA512_DIGEST_SIZE.
Definition nx_sha384_init (ctx : nx_sha512) : nx_sha512 := mk_sha512 IV384 0 (s5_block ctx) 0 NX_SHA384_DIGEST_SIZE.

Fixpoint update_loop (fuel : nat) (ctx : nx_sha512) (p : list Z) : option nx_sha512 :=
  let len := Z.of_nat (length p) in
  if len =? 0 then Some ctx
  else
    match fuel with
    | O => None
    | S fuel =>
        let '(mk_sha512 h total block block_len out_len) := ctx in
        let n := u32 (128 - block_len) in
        let n := if n >? len then u32 len else n in
        block ← blit block block_len (take (Z.to_nat n) p);
        let block_len := u32 (block_len + n) in
        let ctx := if block_len =? 128 then mk_sha512 (compress h block) total block 0 out_len
                   else mk_sha512 h total block block_len out_len in
        update_loop fuel ctx (drop (Z.to_nat n) p)
    end.

Definition nx_sha512_update (ctx : nx_sha512) (data : list Z) : option nx_sha512 :=
  let len := Z.of_nat (length data) in
  update_loop (length data)
    (mk_sha512 (s5_h ctx) (u64 (s5_total_len ctx + len)) (s5_block ctx) (s5_block_len ctx) (s5_out_len ctx)) data.

(** [while (ctx->block_len != 112u)] a zero byte *)
Fixpoint zero_fill (fuel : nat) (ctx : nx_sha512) : option nx_sha512 :=
  if s5_block_len ctx =? 112 then Some ctx
  else match fuel with
       | O => None
       | S fuel => ctx ← nx_sha512_update ctx [0]; zero_fill fuel ctx
       end.

Definition digest_byte (h : list Z) (i : Z) : Z := u8 (h.[i / 8] >>. (56 - 8 * (i mod 8))).

(** The context and the [out_len] bytes written to [out]. *)
Definition nx_sha512_final (ctx : nx_sha512) : option (nx_sha512 * list Z) :=
  let bits := u64 (s5_total_len ctx * 8) in
  ctx ← nx_sha512_update ctx [0x80];
  ctx ← zero_fill 128 ctx;
  let len := for_each (seqZ 0 8) (fun len i => len.[15 - i := u8 (bits >>. (8 * i))]) (replicate 16 0) in
  ctx ← nx_sha512_update ctx len;
  Some (ctx, digest_byte (s5_h ctx) <$> seqZ 0 (s5_out_len ctx)).

(** With what the stack variable [c] happened to hold as block buffer. *)
Definition nx_sha384 (stack : nx_sha512) (data : list Z) : option (list Z) :=
  c ← nx_sha512_update (nx_sha384_init stack) data;
  '(_, out) ← nx_sha512_final c;
  Some out.

Definition nx_sha512_buf (stack : nx_sha512) (data : list Z) : option (list Z) :=
  c ← nx_sha512_update (nx_sha512_init stack) data;
  '(_, out) ← nx_sha512_final c;
  Some out.

(** ** Specification *)

(** The digest of FIPS 180-4 with the initial value [iv], cut to [out_len] bytes. *)
Definition sha512_gen (iv : list Z) (out_len : Z) (m : list Z) : list Z :=
  digest_byte (md_hash 128 compress 16 iv m) <$> seqZ 0 out_len.

(** Apart from the length, the context has hashed [m]. *)
Definition streamed (iv : list Z) (ctx : nx_sha512) (m : list Z) : Prop :=
  length (s5_block ctx) = 128%nat /\ 0 <= s5_block_len ctx < 128 /\
  absorbed 128 compress iv (s5_h ctx) (take (Z.to_nat (s5_block_len ctx)) (s5_block ctx)) m.

(** The context has hashed [m]. *)
Definition ctx_for (iv : list Z) (out_len : Z) (ctx : nx_sha512) (m : list Z) : Prop :=
  streamed iv ctx m /\ s5_total_len ctx = u64 (Z.of_nat (length m)) /\ s5_out_len ctx = out_len.

(** ** Streaming *)

Opaque compress.

Lemma update_step iv h total block bl ol p m :
  streamed iv (mk_sha512 h total block bl ol) m ->
  exists n, n = Z.min (128 - bl) (Z.of_nat (length p)) /\
  u32 (128 - bl) = 128 - bl /\ u32 (bl + n) = bl + n /\
  exists block', blit block bl (take (Z.to_nat n) p) = Some block' /\
    streamed iv (if bl + n =? 128 then mk_sha512 (compress h block') total block' 0 ol else mk_sha512 h total block' (bl + n) ol)
      (m ++ take (Z.to_nat n) p).
Proof.
  intros (Hb & Hbl & Ha); cbn [s5_h s5_block s5_block_len] in *. eexists. split; [done|].
  set (n := Z.min _ _). assert (Hn : 0 <= n <= 128 - bl /\ n <= Z.of_nat (length p)) by lia. clearbody n.
  split; [apply wrap_small; unfold fits; lia|]. split; [apply wrap_small; unfold fits; lia|].
  assert (Ht : length (take (Z.to_nat n) p) = Z.to_nat n) by (rewrite length_take; lia).
  destruct (blit_some block bl (take (Z.to_nat n) p)) as (d & -> & Hd & Hpre); [lia..|]. exists d. split; [done|].
  rewrite Ht in Hpre. assert (Hlt : length (take (Z.to_nat bl) block) = Z.to_nat bl) by (rewrite length_take; lia).
  destruct (Z.eqb_spec (bl + n) 128) as [E|E]; (split; [cbn; lia|split; [cbn; lia|]]); cbn [s5_h s5_block s5_block_len].
  - rewrite take_0. replace d with (take (Z.to_nat bl + Z.to_nat n) d) by (apply take_ge; lia). rewrite Hpre.
    apply absorb_fill; [lia|done|]. rewrite Hlt, Ht. lia.
  - rewrite Z2Nat.inj_add, Hpre by lia. apply absorb_part; [lia|done|]. rewrite Hlt, Ht. lia.
Qed.

Lemma sha512_loop_spec iv fuel ctx p m :
  (length p <= fuel)%nat -> streamed iv ctx m ->
  exists ctx', update_loop fuel ctx p = Some ctx' /\ streamed iv ctx' (m ++ p) /\
               s5_total_len ctx' = s5_total_len ctx /\ s5_out_len ctx' = s5_out_len ctx.
Proof.
  revert ctx p m. induction fuel as [|fuel IH]; intros ctx p m Hf Hs.
  { destruct p; [|simpl in Hf; lia]. exists ctx. by rewrite app_nil_r. }
  destruct ctx as [h total block bl ol]. cbn [update_loop]. destruct (Z.eqb_spec (Z.of_nat (length p)) 0) as [E0|E0].
  { destruct p; [|simpl in E0; lia]. eexists. by rewrite app_nil_r. }
  destruct (update_step iv h total block bl ol p m Hs) as (n & Hn & E1 & E2 & d & Ed & Hs').
  assert (Hbl : 0 <= bl < 128) by apply Hs.
  assert (En : (if u32 (128 - bl) >? Z.of_nat (length p) then u32 (Z.of_nat (length p)) else u32 (128 - bl)) = n).
  { rewrite E1. destruct (Z.gtb_spec (128 - bl) (Z.of_nat (length p))); [|lia]. rewrite (wrap_small 32) by (unfold fits; lia). lia. }
  cbv zeta. rewrite En, Ed. cbn [mbind option_bind]. rewrite E2.
  destruct (IH _ (drop (Z.to_nat n) p) _ ltac:(rewrite length_drop; lia) Hs') as (c & -> & Hc & Ht & Ho).
  exists c. rewrite <- app_assoc, take_drop in Hc. rewrite Ht, Ho. split; [done|]. split; [done|]. by destruct (bl + n =? 128).
Qed.

Lemma update_streamed iv ctx m data :
  streamed iv ctx m ->
  exists ctx', nx_sha512_update ctx data = Some ctx' /\ streamed iv ctx' (m ++ data) /\
               s5_total_len ctx' = u64 (s5_total_len ctx + Z.of_nat (length data)) /\ s5_out_len ctx' = s5_out_len ctx.
Proof.
  intros Hs. unfold nx_sha512_update. cbv zeta.
  apply (sha512_loop_spec iv (length data) (mk_sha512 _ _ (s5_block ctx) (s5_block_len ctx) _) data m); [lia|exact Hs].
Qed.

(** Hashing more data. *)
Lemma sha512_update_for iv ol ctx m data :
  ctx_for iv ol ctx m -> exists ctx', nx_sha512_update ctx data = Some ctx' /\ ctx_for iv ol ctx' (m ++ data).
Proof.
  intros (Hs & Ht & Ho). destruct (update_streamed iv ctx m data Hs) as (c & -> & Hc & E1 & E2).
  exists c. split; [done|]. split; [done|]. split; [|congruence]. rewrite E1, Ht, length_app. unfold u64, wrap.
  rewrite Zplus_mod_idemp_l. f_equal. lia.
Qed.

Lemma sha512_init_for ctx : length (s5_block ctx) = 128%nat -> ctx_for IV512 NX_SHA512_DIGEST_SIZE (nx_sha512_init ctx) [].
Proof. intros Hl. split; [|done]. split; [done|]. split; [done|]. apply absorbed_nil. lia. Qed.

Lemma sha384_init_for ctx : length (s5_block ctx) = 128%nat -> ctx_for IV384 NX_SHA384_DIGEST_SIZE (nx_sha384_init ctx) [].
Proof. intros Hl. split; [|done]. split; [done|]. split; [done|]. apply absorbed_nil. lia. Qed.

(** ** Padding *)

(** The zeros that are missing to fill the buffer up to byte 112. *)
Lemma zero_fill_spec iv fuel ctx m k :
  streamed iv ctx m -> Z.of_nat k = (112 - s5_block_len ctx) mod 128 -> (k <= fuel)%nat ->
  exists ctx', zero_fill fuel ctx = Some ctx' /\ streamed iv ctx' (m ++ replicate k 0) /\ s5_block_len ctx' = 112 /\
               s5_out_len ctx' = s5_out_len ctx.
Proof.
  revert ctx m fuel. induction k as [|k IH]; intros ctx m fuel Hs Hk Hf.
  - assert (Hbl : 0 <= s5_block_len ctx < 128) by apply Hs. assert (E : s5_block_len ctx = 112) by dlia.
    destruct fuel; cbn [zero_fill]; rewrite E; exists ctx; by rewrite app_nil_r.
  - assert (Hbl : 0 <= s5_block_len ctx < 128) by apply Hs. destruct fuel as [|fuel]; [lia|]. cbn [zero_fill].
    destruct (Z.eqb_spec (s5_block_len ctx) 112) as [E|E]; [rewrite E in Hk; change ((112 - 112) mod 128) with 0 in Hk; lia|].
    destruct (update_streamed iv ctx m [0] Hs) as (c & -> & Hc & _ & Ho). cbn [mbind option_bind].
    assert (Hbl' : s5_block_len c = (s5_block_len ctx + 1) mod 128).
    { destruct Hs as (Hb1 & _ & Ha1). destruct Hc as (Hb2 & Hr2 & Ha2).
      apply absorbed_mod in Ha1; [|lia]. apply absorbed_mod in Ha2; [|lia].
      rewrite length_take, Nat.min_l in Ha1, Ha2 by lia. rewrite length_app in Ha2. cbn [length] in Ha2. dlia. }
    destruct (IH c (m ++ [0]) fuel Hc) as (c' & -> & Hc' & E' & Ho'); [rewrite Hbl'; dlia|lia|].
    exists c'. rewrite <- app_assoc in Hc'. split; [done|]. split; [done|]. split; [done|congruence].
Qed.

Lemma length_field bits :
  for_each (seqZ 0 8) (fun len i => len.[15 - i := u8 (bits >>. (8 * i))]) (replicate 16 0) = replicate 8 0 ++ be_bytes 8 bits.
Proof.
  rewrite <- be_bytes_8. reflexivity.
Qed.

Lemma be_bytes_zeros bits : 0 <= bits < 2 ^ 64 -> replicate 8 0 ++ be_bytes 8 bits = be_bytes 16 bits.
Proof.
  intros Hb. unfold be_bytes. replace (le_enc 16 bits) with (le_enc 8 bits ++ replicate 8 0); [by rewrite reverse_app|].
  change 16%nat with (8 + 8)%nat. cbn [le_enc plus]. rewrite !Z.div_div by lia. cbn [app replicate].
  repeat f_equal; symmetry; apply Z.mod_0_l || (rewrite Z.div_small; [done|lia]); done.
Qed.

Lemma sha512_final_for iv ol ctx m :
  ctx_for iv ol ctx m -> exists ctx', nx_sha512_final ctx = Some (ctx', sha512_gen iv ol m).
Proof.
  intros (Hs & Ht & Ho). unfold nx_sha512_final.
  destruct (update_streamed iv ctx m [0x80] Hs) as (c1 & -> & H1 & _ & O1). cbn [mbind option_bind].
  assert (Hbl : s5_block_len c1 = (Z.of_nat (length m) + 1) mod 128).
  { destruct H1 as (Hb1 & Hr1 & Ha1). apply absorbed_mod in Ha1; [|lia].
    rewrite length_take, Nat.min_l, length_app in Ha1 by lia. cbn [length] in Ha1. rewrite Nat2Z.inj_add in Ha1. change (Z.of_nat 1) with 1 in Ha1. lia. }
  set (z := Z.to_nat ((112 - s5_block_len c1) mod 128)).
  assert (Hz : Z.of_nat z = (112 - s5_block_len c1) mod 128) by (unfold z; dlia).
  destruct (zero_fill_spec iv 128 c1 _ z H1 Hz ltac:(dlia)) as (c2 & -> & H2 & E2 & O2). cbn [mbind option_bind].
  set (bits := u64 (s5_total_len ctx * 8)). rewrite length_field, be_bytes_zeros by (apply wrap_fits; lia).
  destruct (update_streamed iv c2 _ (be_bytes 16 bits) H2) as (c3 & -> & H3 & _ & O3). cbn [mbind option_bind].
  eexists. do 3 f_equal. unfold sha512_gen. rewrite O3, O2, O1, Ho. f_equal. f_equal. unfold md_hash, bits in *.
  assert (E3 : s5_block_len c3 = 0).
  { destruct H3 as (Hb3 & Hr3 & Ha3). apply absorbed_mod in Ha3; [|lia]. destruct H2 as (Hb2 & Hr2 & Ha2). apply absorbed_mod in Ha2; [|lia].
    rewrite length_take, Nat.min_l in Ha2, Ha3 by lia. rewrite length_app, length_be_bytes in Ha3.
    set (l := length (_ ++ replicate z 0)) in *. clearbody l. clear -Ha2 Ha3 E2 Hr3. dlia. }
  rewrite <- (app_assoc m [0x80]) in H3. cbn [app] in H3.
  rewrite <- (pad_parts 128 16 m z (s5_total_len ctx)) in H3 by (done || (rewrite Hz, Hbl; clear; dlia)).
  apply absorbed_all; [lia|]. destruct H3 as (_ & _ & Ha3). rewrite E3 in Ha3. exact Ha3.
Qed.

(** The context after the pieces [ps], hashed in turn. *)
Definition update_all (ps : list (list Z)) (ctx : nx_sha512) : option nx_sha512 :=
  for_each ps (fun o p => ctx ← o; nx_sha512_update ctx p) (Some ctx).

Lemma sha512_all_for iv ol ps ctx m :
  ctx_for iv ol ctx m -> exists ctx', update_all ps ctx = Some ctx' /\ ctx_for iv ol ctx' (m ++ concat ps).
Proof.
  revert ctx m. induction ps as [|p ps IH]; intros ctx m Hc; cbn.
  - exists ctx. by rewrite app_nil_r.
  - destruct (sha512_update_for iv ol ctx m p Hc) as (c & -> & Hc'). rewrite app_assoc. by apply IH.
Qed.

(** The digests of a message. *)
Definition sha384 (m : list Z) : list Z := sha512_gen IV384 NX_SHA384_DIGEST_SIZE m.
Definition sha512 (m : list Z) : list Z := sha512_gen IV512 NX_SHA512_DIGEST_SIZE m.

(** However a message is cut into pieces, the streaming interface gives its SHA-512 or
    SHA-384 digest of FIPS 180-4, according to how the context was initialised.  The
    padding loop ends, and the block buffer is never written outside of its 128 bytes. *)
Theorem sha512_streaming stack ps :
  length (s5_block stack) = 128%nat ->
  (exists ctx ctx', update_all ps (nx_sha512_init stack) = Some ctx /\ nx_sha512_final ctx = Some (ctx', sha512 (concat ps))) /\
  (exists ctx ctx', update_all ps (nx_sha384_init stack) = Some ctx /\ nx_sha512_final ctx = Some (ctx', sha384 (concat ps))).
Proof.
  intros Hl. split.
  - destruct (sha512_all_for _ _ ps _ [] (sha512_init_for stack Hl)) as (c & Hu & Hc).
    destruct (sha512_final_for _ _ c _ Hc) as (c' & Hf). by exists c, c'.
  - destruct (sha512_all_for _ _ ps _ [] (sha384_init_for stack Hl)) as (c & Hu & Hc).
    destruct (sha512_final_for _ _ c _ Hc) as (c' & Hf). by exists c, c'.
Qed.

(** *** Examples *)

Definition ex_stack : nx_sha512 := mk_sha512 [] 5 (replicate 128 0xAA) 9 0.

Lemma sha512_streaming_witness :
  exists ctx ctx', update_all [[97]; []; [98; 99]] (nx_sha384_init ex_stack) = Some ctx /\
                   nx_sha512_final ctx = Some (ctx', sha384 [97; 98; 99]).
Proof. apply (sha512_streaming ex_stack [[97]; []; [98; 99]]). reflexivity. Defined.

(** The examples of FIPS 180-2 for "abc". *)
Lemma sha512_abc :
  nx_sha512_buf ex_stack [97; 98; 99] =
  Some [0xdd; 0xaf; 0x35; 0xa1; 0x93; 0x61; 0x7a; 0xba; 0xcc; 0x41; 0x73; 0x49; 0xae; 0x20; 0x41; 0x31;
        0x12; 0xe6; 0xfa; 0x4e; 0x89; 0xa9; 0x7e; 0xa2; 0x0a; 0x9e; 0xee; 0xe6; 0x4b; 0x55; 0xd3; 0x9a;
        0x21; 0x92; 0x99; 0x2a; 0x27; 0x4f; 0xc1; 0xa8; 0x36; 0xba; 0x3c; 0x23; 0xa3; 0xfe; 0xeb; 0xbd;
        0x45; 0x4d; 0x44; 0x23; 0x64; 0x3c; 0xe8; 0x0e; 0x2a; 0x9a; 0xc9; 0x4f; 0xa5; 0x4c; 0xa4; 0x9f] /\
  nx_sha384 ex_stack [97; 98; 99] =
  Some [0xcb; 0x00; 0x75; 0x3f; 0x45; 0xa3; 0x5e; 0x8b; 0xb5; 0xa0; 0x3d; 0x69; 0x9a; 0xc6; 0x50; 0x07;
        0x27; 0x2c; 0x32; 0xab; 0x0e; 0xde; 0xd1; 0x63; 0x1a; 0x8b; 0x60; 0x5a; 0x43; 0xff; 0x5b; 0xed;
        0x80; 0x86; 0x07; 0x2b; 0xa1; 0xe7; 0xcc; 0x23; 0x58; 0xba; 0xec; 0xa1; 0x34; 0xc8; 0x25; 0xa7].
Proof. split; vm_compute; reflexivity. Qed.
