(* ===== verification/Hash.v ===== *)
(** * Hash interface, HMAC and HKDF

    [lib/crypto/hash.c] over the contexts of [Sha256] and [Sha512].  The members of the
    union in [struct nx_hash] are kept apart: the code uses the member that its [id]
    selects, and only after it initialised it.  What uninitialised storage holds is the
    argument [stack] of the functions with a local context. *)
From S2P Require Import Prelude Bytes Blocks Sha256 Sha512.

(** ** Data *)

Definition NX_HASH_MAX : Z := 64.
Definition NX_HASH_BLOCK_MAX : Z := 128.

Definition NX_HASH_SHA256 : Z := 1.
Definition NX_HASH_SHA384 : Z := 2.
Definition NX_HASH_SHA512 : Z := 3.

Record nx_hash := mk_hash {
  h_id : Z;
  h_len : Z;
  h_block : Z;
  h_s256 : nx_sha256;
  h_s512 : nx_sha512
}.

Record nx_hmac := mk_hmac { hm_inner : nx_hash; hm_outer : nx_hash }.

(** ** Hashes *)

Definition nx_hash_len (id : Z) : Z :=
  if id =? NX_HASH_SHA256 then 32
  else if id =? NX_HASH_SHA384 then 48
  else if id =? NX_HASH_SHA512 then 64
  else 0.

Definition nx_hash_init (h : nx_hash) (id : Z) : nx_hash :=
  if id =? NX_HASH_SHA256
  then mk_hash id (nx_hash_len id) 64 (nx_sha256_init (h_s256 h)) (h_s512 h)
  else mk_hash id (nx_hash_len id) 128 (h_s256 h)
         (if id =? NX_HASH_SHA384 then nx_sha384_init (h_s512 h) else nx_sha512_init (h_s512 h)).

Definition nx_hash_update (h : nx_hash) (data : list Z) : option nx_hash :=
  if h_id h =? NX_HASH_SHA256
  then c ← nx_sha256_update (h_s256 h) data; Some (mk_hash (h_id h) (h_len h) (h_block h) c (h_s512 h))
  else c ← nx_sha512_update (h_s512 h) data; Some (mk_hash (h_id h) (h_len h) (h_block h) (h_s256 h) c).

(** The context and the bytes written to [out]. *)
Definition nx_hash_final (h : nx_hash) : option (nx_hash * list Z) :=
  if h_id h =? NX_HASH_SHA256
  then '(c, out) ← nx_sha256_final (h_s256 h); Some (mk_hash (h_id h) (h_len h) (h_block h) c (h_s512 h), out)
  else '(c, out) ← nx_sha512_final (h_s512 h); Some (mk_hash (h_id h) (h_len h) (h_block h) (h_s256 h) c, out).

Definition nx_hash_buf (stack : nx_hash) (id : Z) (data : list Z) : option (list Z) :=
  h ← nx_hash_update (nx_hash_init stack id) data;
  '(_, out) ← nx_hash_final h;
  Some out.

Definition nx_wipe (p : list Z) (len : Z) : option (list Z) := blit p 0 (replicate (Z.to_nat len) 0).

Definition nx_ct_equal (a b : list Z) (len : Z) : bool :=
  for_each (seqZ 0 len) (fun d i => u8 (d |. (a.[i] ^. b.[i]))) 0 =? 0.

(** ** HMAC *)

(** [pad[i] = k[i] ^ c] for the bytes of a block. *)
Definition xor_pad (k : list Z) (block c : Z) : list Z := (fun i => u8 (k.[i] ^. c)) <$> seqZ 0 block.

Definition nx_hmac_init (m : nx_hmac) (stack : nx_hash) (id : Z) (key : list Z) : option nx_hmac :=
  let key_len := Z.of_nat (length key) in
  let block := if id =? NX_HASH_SHA256 then 64 else 128 in
  let k := replicate (Z.to_nat NX_HASH_BLOCK_MAX) 0 in
  k ← (if key_len >? block then d ← nx_hash_buf stack id key; blit k 0 d
       else if negb (key_len =? 0) then blit k 0 key else Some k);
  inner ← nx_hash_update (nx_hash_init (hm_inner m) id) (xor_pad k block 0x36);
  outer ← nx_hash_update (nx_hash_init (hm_outer m) id) (xor_pad k block 0x5C);
  Some (mk_hmac inner outer).

Definition nx_hmac_update (m : nx_hmac) (data : list Z) : option nx_hmac :=
  inner ← nx_hash_update (hm_inner m) data;
  Some (mk_hmac inner (hm_outer m)).

(** [in] is a local of [NX_HASH_MAX] bytes with contents [buf]. *)
Definition nx_hmac_final (m : nx_hmac) (buf : list Z) : option (nx_hmac * list Z) :=
  '(inner, d) ← nx_hash_final (hm_inner m);
  buf ← blit buf 0 d;
  outer ← nx_hash_update (hm_outer m) (take (Z.to_nat (h_len inner)) buf);
  '(outer, out) ← nx_hash_final outer;
  Some (mk_hmac inner outer, out).

(** The uninitialised locals of the functions below. *)
Record locals := mk_locals { l_hmac : nx_hmac; l_hash : nx_hash; l_buf : list Z }.

Definition nx_hmac_buf (l : locals) (id : Z) (key data : list Z) : option (list Z) :=
  m ← nx_hmac_init (l_hmac l) (l_hash l) id key;
  m ← nx_hmac_update m data;
  '(_, out) ← nx_hmac_final m (l_buf l);
  Some out.

(** ** HKDF *)

(** An absent salt is the empty one. *)
Definition nx_hkdf_extract (l : locals) (id : Z) (salt ikm : list Z) : option (list Z) :=
  let salt := if Z.of_nat (length salt) =? 0 then replicate (Z.to_nat (nx_hash_len id)) 0 else salt in
  nx_hmac_buf l id salt ikm.

(** The HMAC of a round of the loop, written to [t]. *)
Definition hkdf_round (l : locals) (id : Z) (prk info t : list Z) (ctr : Z) : option (list Z) :=
  let hl := nx_hash_len id in
  m ← nx_hmac_init (l_hmac l) (l_hash l) id (take (Z.to_nat hl) prk);
  m ← (if ctr >? 1 then nx_hmac_update m (take (Z.to_nat hl) t) else Some m);
  m ← nx_hmac_update m info;
  m ← nx_hmac_update m [ctr];
  '(_, d) ← nx_hmac_final m (l_buf l);
  blit t 0 d.

(** The loop, with [t] and [ctr] of the source and the bytes [out] has so far. *)
Fixpoint hkdf_loop (fuel : nat) (l : locals) (id : Z) (prk info : list Z) (len : Z) (t : list Z) (ctr : Z) (out : list Z) :
    option (list Z) :=
  let hl := nx_hash_len id in
  let done := Z.of_nat (length out) in
  if done <? len then
    match fuel with
    | O => None
    | S fuel =>
        t ← hkdf_round l id prk info t ctr;
        let n := if len - done <? hl then len - done else hl in
        hkdf_loop fuel l id prk info len t (u8 (ctr + 1)) (out ++ take (Z.to_nat n) t)
    end
  else Some out.

(** The bytes written to [out]. *)
Definition nx_hkdf_expand (l : locals) (id : Z) (prk info : list Z) (len : Z) : option (list Z) :=
  hkdf_loop (Z.to_nat len) l id prk info len (l_buf l) 1 [].

(** ** Specification *)

(** The digests the interface offers. *)
Definition digest (id : Z) (m : list Z) : list Z :=
  if id =? NX_HASH_SHA256 then sha256 m else if id =? NX_HASH_SHA384 then sha384 m else sha512 m.

Definition known (id : Z) : Prop := id = NX_HASH_SHA256 \/ id = NX_HASH_SHA384 \/ id = NX_HASH_SHA512.

Definition block_size (id : Z) : nat := if id =? NX_HASH_SHA256 then 64 else 128.

(** The key of RFC 2104: hashed if it is longer than a block, and filled with zeros. *)
Definition hmac_key (id : Z) (key : list Z) : list Z :=
  let k := if decide (block_size id < length key)%nat then digest id key else key in
  k ++ replicate (block_size id - length k) 0.

(** HMAC of RFC 2104. *)
Definition hmac (id : Z) (key m : list Z) : list Z :=
  let k := hmac_key id key in
  digest id (map (Z.lxor 0x5C) k ++ digest id (map (Z.lxor 0x36) k ++ m)).

(** T(i) of RFC 5869. *)
Fixpoint hkdf_t (id : Z) (prk info : list Z) (i : nat) : list Z :=
  match i with
  | O => []
  | S i' => hmac id prk (hkdf_t id prk info i' ++ info ++ [Z.of_nat i])
  end.

(** HKDF-Expand of RFC 5869: the first bytes of T(1), T(2), ... *)
Definition hkdf_expand (id : Z) (prk info : list Z) (len : nat) : list Z :=
  take len (concat (hkdf_t id prk info <$> seq 1 len)).

(** Storage for a context has its buffers, whatever they hold. *)
Definition storage (h : nx_hash) : Prop := length (s2_block (h_s256 h)) = 64%nat /\ length (s5_block (h_s512 h)) = 128%nat.

Definition locals_ok (l : locals) : Prop :=
  storage (hm_inner (l_hmac l)) /\ storage (hm_outer (l_hmac l)) /\ storage (l_hash l) /\ length (l_buf l) = Z.to_nat NX_HASH_MAX.

(** The context has hashed [m]. *)
Definition hashed (id : Z) (h : nx_hash) (m : list Z) : Prop :=
  h_id h = id /\ h_len h = nx_hash_len id /\
  if id =? NX_HASH_SHA256 then Sha256.ctx_for (h_s256 h) m
  else if id =? NX_HASH_SHA384 then Sha512.ctx_for IV384 NX_SHA384_DIGEST_SIZE (h_s512 h) m
  else Sha512.ctx_for IV512 NX_SHA512_DIGEST_SIZE (h_s512 h) m.

(** ** The interface *)

Opaque nx_sha256_update nx_sha256_final nx_sha512_update nx_sha512_final sha256 sha384 sha512.

Lemma hash_init_for h id : storage h -> hashed id (nx_hash_init h id) [].
Proof.
  intros [H1 H2]. unfold hashed, nx_hash_init. destruct (id =? NX_HASH_SHA256) eqn:E1; [by repeat split; apply sha256_init_for|].
  split; [done|]. split; [done|]. cbn [h_s512]. destruct (id =? NX_HASH_SHA384); [by apply sha384_init_for|by apply sha512_init_for].
Qed.

Lemma hash_update_for h id m data : hashed id h m -> exists h', nx_hash_update h data = Some h' /\ hashed id h' (m ++ data).
Proof.
  intros (Hid & Hl & Hc). unfold nx_hash_update, hashed in *. rewrite Hid. destruct (id =? NX_HASH_SHA256) eqn:E1.
  - destruct (sha256_update_for _ _ data Hc) as (c & -> & Hc'). by eexists.
  - destruct (id =? NX_HASH_SHA384); destruct (sha512_update_for _ _ _ _ data Hc) as (c & -> & Hc'); by eexists.
Qed.

Lemma hash_final_for h id m :
  hashed id h m -> exists h', nx_hash_final h = Some (h', digest id m) /\ h_len h' = nx_hash_len id.
Proof.
  intros (Hid & Hl & Hc). unfold nx_hash_final, digest. rewrite Hid. destruct (id =? NX_HASH_SHA256) eqn:E1.
  - destruct (sha256_final_for _ _ Hc) as (c & ->). by eexists.
  - destruct (id =? NX_HASH_SHA384); destruct (sha512_final_for _ _ _ _ Hc) as (c & ->); by eexists.
Qed.

Lemma hash_buf_for stack id data : storage stack -> nx_hash_buf stack id data = Some (digest id data).
Proof.
  intros Hs. unfold nx_hash_buf. destruct (hash_update_for _ id [] data (hash_init_for stack id Hs)) as (h & -> & Hh).
  cbn [mbind option_bind]. by destruct (hash_final_for _ _ _ Hh) as (h' & -> & _).
Qed.

Lemma digest_length id m : known id -> length (digest id m) = Z.to_nat (nx_hash_len id).
Proof. by intros [-> | [-> | ->]]. Qed.

Lemma hash_len_range id : known id -> 32 <= nx_hash_len id <= 64.
Proof. intros [-> | [-> | ->]]; cbn; lia. Qed.

Lemma digest_byte_list id m : Forall byte_ok (digest id m).
Proof.
  assert (H8 : forall x, byte_ok (u8 x)) by (intros x; apply (wrap_fits 8); lia).
  unfold digest. destruct (_ =? _); [|destruct (_ =? _)].
  - Transparent sha256. unfold sha256, digest_bytes. repeat constructor; apply H8.
  - Transparent sha384. unfold sha384, sha512_gen. apply Forall_fmap, Forall_forall. intros; apply H8.
  - Transparent sha512. unfold sha512, sha512_gen. apply Forall_fmap, Forall_forall. intros; apply H8.
Qed.

Opaque sha256 sha384 sha512.

(** ** Comparison *)

(** The comparison decides equality of the first [len] bytes. *)
Lemma ct_equal_spec (a b : list Z) len :
  0 <= len <= Z.of_nat (length a) -> len <= Z.of_nat (length b) ->
  Forall byte_ok (take (Z.to_nat len) a) -> Forall byte_ok (take (Z.to_nat len) b) ->
  nx_ct_equal a b len = bool_decide (take (Z.to_nat len) a = take (Z.to_nat len) b).
Proof.
  intros Ha Hb Fa Fb. unfold nx_ct_equal.
  assert (Hget : forall l i, Forall byte_ok (take (Z.to_nat len) l) -> len <= Z.of_nat (length l) -> 0 <= i < len -> byte_ok (lookup_total (A := Z) (Z.to_nat i) l)).
  { intros l i Hl Hlen Hi. apply (Forall_lookup_total_1 _ _ (Z.to_nat i)) in Hl; [|rewrite length_take; lia].
    rewrite lookup_total_take_lt in Hl by lia. done. }
  assert (Gx : forall i, 0 <= i < len -> fits 8 (Z.lxor a.[i] b.[i])).
  { intros i Hi. apply lxor_fits; [lia|apply Hget; (done || lia)|apply Hget; (done || lia)]. }
  set (f := fun d i => _). pose proof (for_seqZ (fun i d => fits 8 d /\ (d = 0 <-> forall j, 0 <= j < i -> a.[j] = b.[j])) f 0 len 0) as H.
  cbv beta in H. destruct H as [_ H]; [lia|split; [done|split; [intros _ j; lia|done]]| |].
  - intros i d Hi [Hd IH]. unfold f. rewrite wrap_small by (apply fits_lor; [lia|done|apply Gx; lia]).
    split; [apply fits_lor; [lia|done|apply Gx; lia]|]. rewrite Z.lor_eq_0_iff, Z.lxor_eq_0_iff, IH. split.
    + intros [H1 H2] j Hj. destruct (decide (j = i)) as [->|]; [done|apply H1; lia].
    + intros H1. split; [intros j Hj|]; apply H1; lia.
  - apply eq_true_iff_eq. rewrite Z.eqb_eq, bool_decide_eq_true, H. split.
    + intros He. apply list_eq_same_length with (Z.to_nat len); [rewrite length_take; lia..|].
      intros i x y Hi Hx Hy. rewrite lookup_take_lt in Hx, Hy by lia. specialize (He (Z.of_nat i) ltac:(lia)).
      rewrite Nat2Z.id in He. apply list_lookup_total_correct in Hx, Hy. congruence.
    + intros He j Hj. assert (E : take (Z.to_nat len) a !! Z.to_nat j = take (Z.to_nat len) b !! Z.to_nat j) by congruence.
      rewrite !lookup_take_lt in E by lia. by rewrite !list_lookup_total_alt, E.
Qed.

(** ** HMAC *)

(** The padded key, as the loop over its bytes has it. *)
Lemma xor_pad_spec k (n : nat) c :
  Forall byte_ok k -> (n <= length k)%nat -> 0 <= c < 256 -> xor_pad k (Z.of_nat n) c = map (Z.lxor c) (take n k).
Proof.
  intros Hk Hn Hc. unfold xor_pad. rewrite <- (Nat2Z.id n) at 2. rewrite <- (arr_take_seqZ k (Z.of_nat n)) by lia.
  change (map (Z.lxor c)) with (fmap (M := list) (Z.lxor c)). rewrite <- list_fmap_compose. apply list_fmap_ext. intros _ i Hi%list_elem_of_lookup_2.
  apply elem_of_seqZ in Hi. unfold compose. rewrite Z.lxor_comm. apply wrap_small, lxor_fits; [lia|exact Hc|].
  rewrite Forall_forall in Hk. apply Hk, arr_get_elem. lia.
Qed.

Lemma key_block id key stack :
  known id -> storage stack -> Forall byte_ok key ->
  exists k, (if Z.of_nat (length key) >? Z.of_nat (block_size id) then d ← nx_hash_buf stack id key; blit (replicate (Z.to_nat NX_HASH_BLOCK_MAX) 0) 0 d
             else if negb (Z.of_nat (length key) =? 0) then blit (replicate (Z.to_nat NX_HASH_BLOCK_MAX) 0) 0 key
             else Some (replicate (Z.to_nat NX_HASH_BLOCK_MAX) 0)) = Some k /\
            Forall byte_ok k /\ (block_size id <= length k)%nat /\ take (block_size id) k = hmac_key id key.
Proof.
  intros Hid Hs Hk. set (z := replicate (Z.to_nat NX_HASH_BLOCK_MAX) 0).
  assert (Hz : length z = 128%nat) by done. assert (Hzb : Forall byte_ok z) by (apply Forall_replicate; unfold byte_ok; lia).
  assert (Hbs : (64 <= block_size id <= 128)%nat) by (unfold block_size; destruct (_ =? _); lia).
  assert (Hb : forall x, (length x <= block_size id)%nat -> Forall byte_ok x ->
    exists k, blit z 0 x = Some k /\ Forall byte_ok k /\ (block_size id <= length k)%nat /\
              take (block_size id) k = x ++ replicate (block_size id - length x) 0).
  { intros x Hx Hxb. unfold blit. rewrite Hz. rewrite (proj2 (Z.leb_le (0 + Z.of_nat (length x)) (Z.of_nat 128)) ltac:(lia)). cbn [andb Z.leb Z.compare].
    change (Z.to_nat 0) with O. rewrite take_0, app_nil_l, Nat.add_0_l. eexists. split; [done|]. split.
    { apply Forall_app. split; [done|]. by apply Forall_drop. }
    rewrite length_app, length_drop, Hz. split; [lia|]. rewrite take_app_ge by lia. f_equal. unfold z. rewrite drop_replicate, take_replicate.
    change (Z.to_nat NX_HASH_BLOCK_MAX) with 128%nat. f_equal. lia. }
  unfold hmac_key. destruct (Z.gtb_spec (Z.of_nat (length key)) (Z.of_nat (block_size id))) as [Hg|Hg].
  - rewrite hash_buf_for by done. cbn [mbind option_bind]. rewrite decide_True by lia.
    apply Hb; [|apply digest_byte_list]. rewrite digest_length by done. pose proof (hash_len_range id Hid). lia.
  - rewrite decide_False by lia. destruct (Z.eqb_spec (Z.of_nat (length key)) 0) as [E|E]; cbn [negb]; [|by apply Hb; [lia|]].
    destruct key; [|cbn in E; lia]. exists z. split; [done|]. split; [done|]. split; [lia|]. unfold z. rewrite take_replicate. cbn [app length].
    f_equal. change (Z.to_nat NX_HASH_BLOCK_MAX) with 128%nat. lia.
Qed.

(** The context has authenticated [m] under [key]. *)
Definition macing (id : Z) (key : list Z) (c : nx_hmac) (m : list Z) : Prop :=
  hashed id (hm_inner c) (map (Z.lxor 0x36) (hmac_key id key) ++ m) /\ hashed id (hm_outer c) (map (Z.lxor 0x5C) (hmac_key id key)).

Lemma hmac_init_for c stack id key :
  known id -> storage stack -> storage (hm_inner c) -> storage (hm_outer c) -> Forall byte_ok key ->
  exists c', nx_hmac_init c stack id key = Some c' /\ macing id key c' [].
Proof.
  intros Hid Hs Hi Ho Hk. unfold nx_hmac_init.
  assert (E : (if id =? NX_HASH_SHA256 then 64 else 128) = Z.of_nat (block_size id)) by (unfold block_size; by destruct (_ =? _)). rewrite E.
  destruct (key_block id key stack Hid Hs Hk) as (k & -> & Hkb & Hkl & Hkv). cbn [mbind option_bind].
  rewrite !xor_pad_spec by (done || lia). rewrite Hkv.
  destruct (hash_update_for _ id [] (map (Z.lxor 0x36) (hmac_key id key)) (hash_init_for (hm_inner c) id Hi)) as (hi & -> & Hhi).
  destruct (hash_update_for _ id [] (map (Z.lxor 0x5C) (hmac_key id key)) (hash_init_for (hm_outer c) id Ho)) as (ho & -> & Hho).
  cbn [mbind option_bind]. eexists. split; [done|]. split; [|done]. by rewrite app_nil_r.
Qed.

Lemma hmac_update_for c id key m data :
  macing id key c m -> exists c', nx_hmac_update c data = Some c' /\ macing id key c' (m ++ data).
Proof.
  intros [Hi Ho]. unfold nx_hmac_update. destruct (hash_update_for _ _ _ data Hi) as (h & -> & Hh).
  eexists. split; [done|]. split; [by rewrite app_assoc|done].
Qed.

Lemma hmac_final_for c id key m buf :
  known id -> macing id key c m -> length buf = Z.to_nat NX_HASH_MAX ->
  exists c', nx_hmac_final c buf = Some (c', hmac id key m).
Proof.
  intros Hid [Hi Ho] Hbuf. unfold nx_hmac_final. destruct (hash_final_for _ _ _ Hi) as (h & -> & Hl). cbn [mbind option_bind].
  pose proof (hash_len_range id Hid) as Hr. set (d := digest id (_ ++ m)). assert (Hd : length d = Z.to_nat (nx_hash_len id)) by by apply digest_length.
  destruct (blit_some buf 0 d) as (b & -> & Hb & Hpre); [lia|rewrite Hd, Hbuf; unfold NX_HASH_MAX; lia|]. cbn [mbind option_bind].
  change (Z.to_nat 0) with O in Hpre. rewrite take_0, app_nil_l, Nat.add_0_l in Hpre. rewrite Hl, <- Hd, Hpre.
  destruct (hash_update_for _ _ _ d Ho) as (ho & -> & Hho). cbn [mbind option_bind].
  destruct (hash_final_for _ _ _ Hho) as (ho' & -> & _). by eexists.
Qed.

Lemma hmac_length id key m : known id -> length (hmac id key m) = Z.to_nat (nx_hash_len id).
Proof. intros. by apply digest_length. Qed.

(** However the data is cut into pieces, the HMAC context gives HMAC of RFC 2104 of
    the whole data under its key, for keys shorter and longer than a block. *)
Theorem hmac_rfc2104 l id key ps :
  known id -> locals_ok l -> Forall byte_ok key ->
  exists c c' c'', nx_hmac_init (l_hmac l) (l_hash l) id key = Some c /\
    for_each ps (fun o p => c ← o; nx_hmac_update c p) (Some c) = Some c' /\
    nx_hmac_final c' (l_buf l) = Some (c'', hmac id key (concat ps)).
Proof.
  intros Hid (Hi & Ho & Hh & Hb) Hk. destruct (hmac_init_for (l_hmac l) (l_hash l) id key) as (c & Hc & Hm); [done..|].
  exists c. assert (G : forall ps c m, macing id key c m ->
    exists c', for_each ps (fun o p => c ← o; nx_hmac_update c p) (Some c) = Some c' /\ macing id key c' (m ++ concat ps)).
  { clear. induction ps as [|p ps IH]; intros c m Hc; cbn; [exists c; by rewrite app_nil_r|].
    destruct (hmac_update_for c id key m p Hc) as (c' & -> & Hc'). rewrite app_assoc. by apply IH. }
  destruct (G ps c [] Hm) as (c' & Hu & Hm'). destruct (hmac_final_for c' id key _ (l_buf l) Hid Hm' Hb) as (c'' & Hf).
  by exists c', c''.
Qed.

(** ** HKDF *)

Section hkdf.
Context (l : locals) (id : Z) (prk info : list Z).
Context (Hid : known id) (Hl : locals_ok l) (Hprk : Forall byte_ok prk) (Hpl : length prk = Z.to_nat (nx_hash_len id)).

#[local] Abbreviation T := (hkdf_t id prk info).
#[local] Abbreviation hl := (Z.to_nat (nx_hash_len id)).

Lemma hkdf_t_length i : (0 < i)%nat -> length (T i) = hl.
Proof. intros Hi. destruct i; [lia|]. by apply hmac_length. Qed.

Lemma hkdf_stream_S i : concat (T <$> seq 1 (S i)) = concat (T <$> seq 1 i) ++ T (S i).
Proof. rewrite seq_S, fmap_app, concat_app. cbn [fmap list_fmap concat plus]. by rewrite app_nil_r. Qed.

Lemma hkdf_stream_length i : length (concat (T <$> seq 1 i)) = (i * hl)%nat.
Proof.
  induction i as [|i IH]; [done|]. rewrite hkdf_stream_S, length_app, IH, hkdf_t_length by lia. lia.
Qed.

Lemma hkdf_stream_enough len k j : (len <= k * hl)%nat -> take len (concat (T <$> seq 1 (k + j))) = take len (concat (T <$> seq 1 k)).
Proof. intros Hk. rewrite seq_app, fmap_app, concat_app, take_app_le; [done|]. by rewrite hkdf_stream_length. Qed.

(** Round [i + 1] computes T(i + 1) from T(i). *)
Lemma hkdf_round_spec t i :
  (i < 255)%nat -> length t = Z.to_nat NX_HASH_MAX -> ((0 < i)%nat -> take hl t = T i) ->
  exists t', hkdf_round l id prk info t (1 + Z.of_nat i) = Some t' /\ length t' = Z.to_nat NX_HASH_MAX /\ take hl t' = T (S i).
Proof.
  intros Hi Ht Htv. unfold hkdf_round. destruct Hl as (L1 & L2 & L3 & L4). rewrite (take_ge prk) by lia.
  destruct (hmac_init_for (l_hmac l) (l_hash l) id prk) as (c & -> & Hm); [done..|]. cbn [mbind option_bind].
  assert (exists c', (if 1 + Z.of_nat i >? 1 then nx_hmac_update c (take hl t) else Some c) = Some c' /\ macing id prk c' (T i)) as (c1 & -> & Hm1).
  { destruct (Z.gtb_spec (1 + Z.of_nat i) 1).
    - rewrite Htv by lia. by apply (hmac_update_for c id prk []).
    - assert (i = 0%nat) as -> by lia. by exists c. }
  cbn [mbind option_bind]. destruct (hmac_update_for c1 id prk _ info Hm1) as (c2 & -> & Hm2). cbn [mbind option_bind].
  destruct (hmac_update_for c2 id prk _ [1 + Z.of_nat i] Hm2) as (c3 & -> & Hm3). cbn [mbind option_bind].
  destruct (hmac_final_for c3 id prk _ (l_buf l) Hid Hm3 L4) as (c4 & ->). cbn [mbind option_bind].
  replace (hmac id prk ((T i ++ info) ++ [1 + Z.of_nat i])) with (T (S i))
    by (cbn [hkdf_t]; rewrite <- app_assoc; repeat f_equal; lia).
  pose proof (hash_len_range id Hid) as Hr. pose proof (hkdf_t_length (S i) ltac:(lia)) as HT.
  destruct (blit_some t 0 (T (S i))) as (t' & -> & Ht' & Hpre); [lia|rewrite HT, Ht; unfold NX_HASH_MAX; lia|].
  exists t'. split; [done|]. split; [congruence|]. change (Z.to_nat 0) with O in Hpre. by rewrite take_0, app_nil_l, Nat.add_0_l, HT in Hpre.
Qed.

(** The loop after [i] rounds. *)
Lemma hkdf_loop_spec (len : nat) fuel t i :
  length t = Z.to_nat NX_HASH_MAX -> ((0 < i)%nat -> take hl t = T i) -> (i <= 255)%nat -> (len <= 255 * hl)%nat ->
  (len <= i + fuel)%nat ->
  hkdf_loop fuel l id prk info (Z.of_nat len) t (u8 (1 + Z.of_nat i)) (take len (concat (T <$> seq 1 i))) =
  Some (take len (concat (T <$> seq 1 (i + fuel)))).
Proof.
  pose proof (hash_len_range id Hid) as Hr. revert t i. induction fuel as [|fuel IH]; intros t i Ht Htv Hi Hlen Hf; cbn [hkdf_loop];
    rewrite length_take, hkdf_stream_length.
  { rewrite (proj2 (Z.ltb_ge _ _)) by nia. by rewrite Nat.add_0_r. }
  destruct (Z.ltb_spec (Z.of_nat (len `min` (i * hl))) (Z.of_nat len)) as [Hlt|Hge].
  2: { rewrite hkdf_stream_enough by lia. done. }
  assert (Hi255 : (i < 255)%nat) by (destruct (decide (i = 255)%nat) as [->|]; lia).
  rewrite (wrap_small 8 (1 + Z.of_nat i)), (Nat.min_r len) by (unfold fits; lia). destruct (hkdf_round_spec t i Hi255 Ht Htv) as (t' & -> & Ht' & Htv').
  cbn [mbind option_bind]. replace (1 + Z.of_nat i + 1) with (1 + Z.of_nat (S i)) by lia.
  rewrite Nat.add_succ_r, <- Nat.add_succ_l, <- (IH t' (S i)); [|done|done|lia|lia|lia].
  f_equal. rewrite hkdf_stream_S, (take_app_ge (concat (T <$> seq 1 i))) by (rewrite hkdf_stream_length; lia).
  rewrite (take_ge (concat _)) by (rewrite hkdf_stream_length; lia). f_equal. rewrite hkdf_stream_length, <- Htv', take_take.
  f_equal. destruct (Z.ltb_spec (Z.of_nat len - Z.of_nat (i * hl)) (nx_hash_len id)); lia.
Qed.
End hkdf.

(** C37: the expansion gives HKDF-Expand of RFC 5869 for every output length up to 255
    digests: the first [len] bytes of T(1), T(2), ..., each the HMAC of the one before,
    the info and the counter byte.  The loop ends. *)
Theorem hkdf_expand_rfc5869 l id prk info (len : nat) :
  known id -> locals_ok l -> Forall byte_ok prk -> Z.of_nat (length prk) = nx_hash_len id -> Z.of_nat len <= 255 * nx_hash_len id ->
  nx_hkdf_expand l id prk info (Z.of_nat len) = Some (hkdf_expand id prk info len).
Proof.
  intros Hid Hl Hb Hp Hlen. unfold nx_hkdf_expand. rewrite Nat2Z.id.
  pose proof (hkdf_loop_spec l id prk info Hid Hl Hb ltac:(lia) len len (l_buf l) 0) as H.
  cbn [seq fmap list_fmap concat plus] in H. rewrite take_nil in H. apply H; [apply Hl|lia..].
Qed.

(** *** Witnesses *)

Definition ex_hash : nx_hash := mk_hash 7 7 7 Sha256.ex_stack Sha512.ex_stack.
Definition ex_locals : locals := mk_locals (mk_hmac ex_hash ex_hash) ex_hash (replicate 64 0xEE).

Lemma ex_locals_ok : locals_ok ex_locals.
Proof. by repeat split. Qed.

Lemma hmac_rfc2104_witness :
  exists c c' c'', nx_hmac_init (l_hmac ex_locals) (l_hash ex_locals) NX_HASH_SHA256 [1; 2] = Some c /\
    for_each [[3]; [4; 5]] (fun o p => c ← o; nx_hmac_update c p) (Some c) = Some c' /\
    nx_hmac_final c' (l_buf ex_locals) = Some (c'', hmac NX_HASH_SHA256 [1; 2] [3; 4; 5]).
Proof.
  apply (hmac_rfc2104 ex_locals NX_HASH_SHA256 [1; 2] [[3]; [4; 5]]); [by left|exact ex_locals_ok|].
  repeat constructor; unfold byte_ok; lia.
Defined.

Lemma hkdf_expand_rfc5869_witness :
  nx_hkdf_expand ex_locals NX_HASH_SHA384 (replicate 48 11) [1; 2; 3] 100 =
  Some (hkdf_expand NX_HASH_SHA384 (replicate 48 11) [1; 2; 3] 100).
Proof.
  apply (hkdf_expand_rfc5869 ex_locals NX_HASH_SHA384 (replicate 48 11) [1; 2; 3] 100).
  - right. by left.
  - exact ex_locals_ok.
  - apply Forall_replicate. unfold byte_ok. lia.
  - reflexivity.
  - cbn. lia.
Defined.

(** The first test case of RFC 5869, appendix A: extraction and expansion. *)
Lemma hkdf_rfc5869_a1 :
  (prk ← nx_hkdf_extract ex_locals NX_HASH_SHA256 (seqZ 0 13) (replicate 22 0x0b);
  nx_hkdf_expand ex_locals NX_HASH_SHA256 prk (seqZ 0xf0 10) 42) =
  Some [0x3c; 0xb2; 0x5f; 0x25; 0xfa; 0xac; 0xd5; 0x7a; 0x90; 0x43; 0x4f; 0x64; 0xd0; 0x36; 0x2f; 0x2a;
        0x2d; 0x2d; 0x0a; 0x90; 0xcf; 0x1a; 0x5a; 0x4c; 0x5d; 0xb0; 0x2d; 0x56; 0xec; 0xc4; 0xc5; 0xbf;
        0x34; 0x00; 0x72; 0x08; 0xd5; 0xb8; 0x87; 0x18; 0x58; 0x65].
Proof. vm_compute. reflexivity. Qed.
