(* ===== verification/Rsa.v ===== *)
(** * RSA signature verification

    [lib/crypto/rsa.c]: the public operation, PKCS #1 v1.5 and PSS.  The arguments [s],
    [m] and [stack] are what the uninitialised locals hold.  [0] is a valid signature,
    [-1] a refused one; [None] stands for an access out of bounds. *)
From S2P Require Import Prelude Bytes Blocks Sha256 Sha512 Hash Bn.

Definition RSA_MAX_BYTES : Z := NX_BN_MAX_BITS / 8.

(** The uninitialised locals. *)
Record rsa_locals := mk_rsa_locals { rl_s : list Z; rl_m : list Z; rl_stack : nx_hash; rl_t : list Z }.

(** The bytes written to [em], whose number is [*k_out]; [None]: bad input. *)
Definition rsa_public (l : rsa_locals) (n e sig : list Z) : option (list Z) :=
  let n := skip_zeros n in
  let n_len := Z.of_nat (length n) in
  let sig_len := Z.of_nat (length sig) in
  let e_len := Z.of_nat (length e) in
  if (n_len <? 128) || (n_len >? RSA_MAX_BYTES) || negb (sig_len =? n_len) || (e_len =? 0) || (e_len >? 8) then None
  else
    match nx_mont_init n with
    | None => None
    | Some c =>
        let '(s, ok) := nx_bn_from_be (rl_s l) (mt_n c) sig in
        if negb ok || (nx_bn_cmp s (mt_m c) (mt_n c) >=? 0) then None
        else Some (nx_bn_to_be n_len (nx_mod_exp c (rl_m l) s e) (mt_n c))
    end.

(** ** PKCS #1 v1.5 *)

Definition DI_SHA256 : list Z :=
  [0x30; 0x31; 0x30; 0x0d; 0x06; 0x09; 0x60; 0x86; 0x48; 0x01; 0x65; 0x03; 0x04; 0x02; 0x01; 0x05; 0x00; 0x04; 0x20].
Definition DI_SHA384 : list Z :=
  [0x30; 0x41; 0x30; 0x0d; 0x06; 0x09; 0x60; 0x86; 0x48; 0x01; 0x65; 0x03; 0x04; 0x02; 0x02; 0x05; 0x00; 0x04; 0x30].
Definition DI_SHA512 : list Z :=
  [0x30; 0x51; 0x30; 0x0d; 0x06; 0x09; 0x60; 0x86; 0x48; 0x01; 0x65; 0x03; 0x04; 0x02; 0x03; 0x05; 0x00; 0x04; 0x40].

Definition digest_info (hash_id : Z) : option (list Z) :=
  if hash_id =? NX_HASH_SHA256 then Some DI_SHA256
  else if hash_id =? NX_HASH_SHA384 then Some DI_SHA384
  else if hash_id =? NX_HASH_SHA512 then Some DI_SHA512
  else None.

(** [want] is the static buffer of [RSA_MAX_BYTES] bytes, with what it held. *)
Definition pkcs1_want (want : list Z) (k hl : Z) (di digest : list Z) : option (list Z) :=
  let tlen := Z.of_nat (length DI_SHA256) + hl in
  want ← blit want 0 [0x00];
  want ← blit want 1 [0x01];
  want ← blit want 2 (replicate (Z.to_nat (k - tlen - 3)) 0xFF);
  want ← blit want (k - tlen - 1) [0x00];
  want ← blit want (k - tlen) (take (length DI_SHA256) di);
  blit want (k - hl) (take (Z.to_nat hl) digest).

Definition nx_rsa_verify_pkcs1 (l : rsa_locals) (want n e : list Z) (hash_id : Z) (digest sig : list Z) : option Z :=
  match digest_info hash_id with
  | None => Some (-1)
  | Some di =>
      let hl := nx_hash_len hash_id in
      match rsa_public l n e sig with
      | None => Some (-1)
      | Some em =>
          let k := Z.of_nat (length em) in
          let tlen := Z.of_nat (length DI_SHA256) + hl in
          if k <? tlen + 11 then Some (-1)
          else
            want ← pkcs1_want want k hl di digest;
            Some (if nx_ct_equal em want k then 0 else -1)
      end
  end.

(** ** PSS *)

(** The bytes [done] to [done + n] of [out] are xored with [t]. *)
Definition xor_into (out : list Z) (done n : Z) (t : list Z) : list Z :=
  for_each (seqZ 0 n) (fun out i => out.[done + i := out.[done + i] ^. t.[i]]) out.

Fixpoint mgf1_loop (fuel : nat) (l : rsa_locals) (hash_id : Z) (seed out : list Z) (len ctr done : Z) : option (list Z) :=
  let hl := nx_hash_len hash_id in
  if done <? len then
    match fuel with
    | O => None
    | S fuel =>
        let c := [u8 (ctr >>. 24); u8 (ctr >>. 16); u8 (ctr >>. 8); u8 ctr] in
        h ← nx_hash_update (nx_hash_init (rl_stack l) hash_id) seed;
        h ← nx_hash_update h c;
        '(_, d) ← nx_hash_final h;
        t ← blit (rl_t l) 0 d;
        let n := Z.min hl (len - done) in
        mgf1_loop fuel l hash_id seed (xor_into out done n t) len (u32 (ctr + 1)) (done + n)
    end
  else Some out.

(** [out ^= MGF1(seed, len)] *)
Definition mgf1_xor (l : rsa_locals) (hash_id : Z) (seed out : list Z) (len : Z) : option (list Z) :=
  mgf1_loop (Z.to_nat len) l hash_id seed out len 0 0.

(** The checks of the [em_len] bytes [EM]. *)
Definition pss_em (l : rsa_locals) (EM : list Z) (em_len em_bits hash_id : Z) (digest : list Z) : option Z :=
  let hl := nx_hash_len hash_id in
  let slen := hl in
  if (em_len <? hl + slen + 2) || negb (EM.[em_len - 1] =? 0xBC) then Some (-1)
  else
    let db_len := em_len - hl - 1 in
    let db := take (Z.to_nat db_len) EM in
    let H := take (Z.to_nat hl) (drop (Z.to_nat db_len) EM) in
    let zero_bits := 8 * em_len - em_bits in
    if negb (db.[0] &. u8 (0xFF <<. (8 - zero_bits)) =? 0) then Some (-1)
    else
      db ← mgf1_xor l hash_id H db db_len;
      let db := db.[0 := db.[0] &. u8 (0xFF >>. zero_bits)] in
      let ps := db_len - slen - 1 in
      if negb (forallb (fun i => db.[i] =? 0) (seqZ 0 ps)) then Some (-1)
      else if negb (db.[ps] =? 0x01) then Some (-1)
      else
        let salt := take (Z.to_nat slen) (drop (Z.to_nat (db_len - slen)) db) in
        let mprime := replicate 8 0 ++ take (Z.to_nat hl) digest ++ salt in
        h2 ← nx_hash_buf (rl_stack l) hash_id mprime;
        Some (if nx_ct_equal h2 H hl then 0 else -1).

(** The checks of the encoded message [em] of [k] bytes; [top] is the first byte of the
    modulus that is not zero. *)
Definition pss_check (l : rsa_locals) (em : list Z) (top hash_id : Z) (digest : list Z) : option Z :=
  let k := Z.of_nat (length em) in
  let top_bits := 8 - clz32 (u32 (top <<. 24) |. 0x00FFFFFF) in
  let mod_bits := (k - 1) * 8 + top_bits in
  let em_bits := mod_bits - 1 in
  let em_len := (em_bits + 7) / 8 in
  let EM := drop (Z.to_nat (k - em_len)) em in
  if (em_len <? k) && negb (em.[0] =? 0) then Some (-1)
  else pss_em l EM em_len em_bits hash_id digest.

Definition nx_rsa_verify_pss (l : rsa_locals) (n e : list Z) (hash_id : Z) (digest sig : list Z) : option Z :=
  if nx_hash_len hash_id =? 0 then Some (-1)
  else
    match rsa_public l n e sig with
    | None => Some (-1)
    | Some em => pss_check l em (skip_zeros n).[0] hash_id digest
    end.

(** ** Specification *)

(** The keys and signatures the public operation works on; the length of the modulus is in
    bytes, leading zero bytes not counted. *)
Definition rsa_input (n e sig : list Z) : Prop :=
  (128 <= length (skip_zeros n) <= 512)%nat /\ Z.odd (be_val n) = true /\ (1 <= length e <= 8)%nat /\
  length sig = length (skip_zeros n) /\ be_val sig < be_val n.

(** EMSA-PKCS1-v1_5 of RFC 8017 in [k] bytes. *)
Definition emsa_pkcs1 (k : nat) (di digest : list Z) : list Z :=
  [0x00; 0x01] ++ replicate (k - 3 - length (di ++ digest)) 0xFF ++ [0x00] ++ di ++ digest.

(** MGF1 of RFC 8017. *)
Definition mgf1 (id : Z) (seed : list Z) (len : nat) : list Z :=
  take len (concat ((fun i => digest id (seed ++ be_bytes 4 (Z.of_nat i))) <$> seq 0 len)).

(** The first [z] bits of a byte string cleared. *)
Definition clear_top (z : Z) (l : list Z) : list Z :=
  match l with [] => [] | x :: l' => x mod 2 ^ (8 - z) :: l' end.

(** EMSA-PSS of RFC 8017 for [em_bits], with a salt as long as the digest. *)
Definition emsa_pss (id em_bits : Z) (mhash salt : list Z) : list Z :=
  let em_len := (em_bits + 7) / 8 in
  let hl := Z.to_nat (nx_hash_len id) in
  let H := digest id (replicate 8 0 ++ mhash ++ salt) in
  let db_len := (Z.to_nat em_len - hl - 1)%nat in
  let DB := replicate (db_len - hl - 1) 0 ++ [0x01] ++ salt in
  clear_top (8 * em_len - em_bits) (zip_with Z.lxor DB (mgf1 id H db_len)) ++ H ++ [0xBC].
