(* ===== verification/RsaThm.v ===== *)
(** * RSA signatures: what is accepted

    The public operation is the modular power; PKCS #1 v1.5 and PSS verification accept
    exactly the signatures whose power is the encoding that RFC 8017 defines. *)
From S2P Require Import Prelude Bytes Blocks Sha256 Sha512 Hash Bn BnFacts BnMont BnThm Rsa.

Definition rsa_locals_ok (l : rsa_locals) : Prop :=
  length (rl_s l) = Z.to_nat NX_BN_LIMBS /\ length (rl_m l) = Z.to_nat NX_BN_LIMBS /\ storage (rl_stack l) /\
  length (rl_t l) = Z.to_nat NX_HASH_MAX.

Lemma big_modulus n : Forall byte_ok n -> (128 <= length (skip_zeros n) <= 512)%nat -> 1 < be_val n < 2 ^ NX_BN_MAX_BITS.
Proof.
  intros Hn Hl. destruct (skip_zeros_len n Hn) as [Hlo Hhi]; [intros E; rewrite E in Hl; cbn in Hl; lia|]. split.
  - eapply Z.lt_le_trans; [|exact Hlo]. apply Z.pow_gt_1; lia.
  - eapply Z.lt_le_trans; [exact Hhi|]. change NX_BN_MAX_BITS with (8 * 512). rewrite (Z.pow_mul_r 2 8 512) by lia.
    apply Z.pow_le_mono_r; lia.
Qed.

Lemma rsa_public_spec l n e sig :
  rsa_locals_ok l -> Forall byte_ok n -> Forall byte_ok e -> Forall byte_ok sig ->
  match rsa_public l n e sig with
  | Some em => rsa_input n e sig /\ Forall byte_ok em /\ length em = length (skip_zeros n) /\
               be_val em = (be_val sig ^ be_val e) mod be_val n
  | None => ~ rsa_input n e sig
  end.
Proof.
  intros (Ls & Lm & _) Hn He Hsig. unfold rsa_public. change RSA_MAX_BYTES with 512.
  destruct ((Z.of_nat (length (skip_zeros n)) <? 128) || _ || _ || _ || _) eqn:Eg.
  { intros (H1 & _ & H3 & H4 & _). breflect; lia. }
  assert (Hlen : (128 <= length (skip_zeros n) <= 512)%nat /\ length sig = length (skip_zeros n) /\ (1 <= length e <= 8)%nat) by (breflect; lia).
  clear Eg. destruct Hlen as (Hnl & Hsl & Hel). pose proof (big_modulus n Hn Hnl) as Hbig.
  pose proof (mont_init_spec (skip_zeros n) (skip_zeros_bytes n Hn)) as Hi. rewrite skip_zeros_val in Hi.
  destruct (nx_mont_init (skip_zeros n)) as [c|]; [|intros (_ & Hodd & _); apply Hi; by split].
  destruct Hi as [[Hodd _] Hf]. pose proof Hf as [Hok Hm _ _]. pose proof Hok as [Hcn Hml _ _ _]. destruct bn_sizes as [Hs1 Hs2].
  pose proof (bn_from_be_spec (rl_s l) (mt_n c) sig Hsig ltac:(lia)) as Hfrom.
  destruct (nx_bn_from_be (rl_s l) (mt_n c) sig) as [s ok]. destruct Hfrom as (_ & Hslimb & Hoki & Hval).
  pose proof (bval_bound (mt_m c) (mt_n c) ltac:(lia) Hml) as Hmb. rewrite Hm in Hmb.
  destruct ok; cbn [negb orb]; [|intros (_ & _ & _ & _ & Hlt); assert (false = true) by (apply Hoki; lia); done].
  rewrite (cmp_ge s (mt_m c) (mt_n c)) by (done || lia). rewrite Hm, (Hval eq_refl).
  destruct (Z.leb_spec (be_val n) (be_val sig)) as [Hge|Hlt]; [intros (_ & _ & _ & _ & ?); lia|].
  destruct (mod_exp_form c (be_val n) Hf s Hslimb ltac:(rewrite Hval by done; lia) (rl_m l) e He ltac:(lia)) as [Hrl Hrv].
  rewrite (Hval eq_refl) in Hrv.
  destruct (to_be_spec (Z.of_nat (length (skip_zeros n))) _ (mt_n c) ltac:(lia) Hrl ltac:(lia)) as (Hb & Hl & Hv).
  split; [split_and!; (done || lia)|]. split; [done|]. split; [lia|]. rewrite Hv, Hrv. apply Z.mod_small.
  pose proof (Z.mod_pos_bound (be_val sig ^ be_val e) (be_val n) ltac:(lia)). split; [lia|].
  destruct (skip_zeros_len n Hn) as [_ ?]; [intros E; rewrite E in Hnl; cbn in Hnl; lia|]. lia.
Qed.

(** ** PKCS #1 v1.5 *)

(** Writing at the end of what is written so far. *)
Lemma blit_snoc buf pre x :
  take (length pre) buf = pre -> (length pre + length x <= length buf)%nat ->
  exists b, blit buf (Z.of_nat (length pre)) x = Some b /\ length b = length buf /\ take (length (pre ++ x)) b = pre ++ x.
Proof.
  intros Hp Hl. destruct (blit_some buf (Z.of_nat (length pre)) x) as (b & Hb & Hlen & Ht); [lia..|].
  exists b. split; [done|]. split; [done|]. rewrite length_app. rewrite Nat2Z.id, Hp in Ht. done.
Qed.

Lemma digest_info_known id di :
  digest_info id = Some di -> known id /\ length di = 19%nat /\ Forall byte_ok di.
Proof.
  unfold digest_info, known. intros H.
  destruct (Z.eqb_spec id NX_HASH_SHA256); [|destruct (Z.eqb_spec id NX_HASH_SHA384); [|destruct (Z.eqb_spec id NX_HASH_SHA512)]];
    try done; injection H as <-; (split; [tauto|split; [done|repeat constructor; unfold byte_ok; lia]]).
Qed.

Lemma digest_info_unknown id : digest_info id = None -> ~ known id.
Proof. intros H [-> | [-> | ->]]; discriminate. Qed.

(** The next write is at the end of what is written so far. *)
Ltac next_blit E :=
  match type of E with
  | blit ?b ?o ?x = _ =>
      match goal with
      | |- context [blit b ?p x] => replace o with p in E by (rewrite ?length_app; cbn [length app]; lia)
      end
  end; rewrite E; cbn [mbind option_bind].

Lemma pkcs1_want_spec want k hl di digest :
  length want = 512%nat -> (k <= 512)%nat -> length di = 19%nat -> Z.of_nat (length digest) = hl -> 19 + hl + 11 <= Z.of_nat k ->
  exists w, pkcs1_want want (Z.of_nat k) hl di digest = Some w /\ length w = 512%nat /\ take k w = emsa_pkcs1 k di digest.
Proof.
  intros Hw Hk Hdi Hd Hroom. unfold pkcs1_want. change (Z.of_nat (length DI_SHA256)) with 19. change (length DI_SHA256) with 19%nat.
  rewrite (take_ge digest), (take_ge di) by lia. set (f := replicate (Z.to_nat (Z.of_nat k - (19 + hl) - 3)) 0xFF).
  assert (Hf : Z.of_nat (length f) = Z.of_nat k - (19 + hl) - 3) by (unfold f; rewrite length_replicate; lia).
  destruct (blit_snoc want [] [0x00]) as (w1 & E1 & L1 & T1); [done|cbn [length]; lia|]. next_blit E1.
  destruct (blit_snoc w1 _ [0x01] T1) as (w2 & E2 & L2 & T2); [rewrite !length_app; cbn [length]; lia|]. next_blit E2.
  destruct (blit_snoc w2 _ f T2) as (w3 & E3 & L3 & T3); [rewrite !length_app; cbn [length]; lia|]. next_blit E3.
  destruct (blit_snoc w3 _ [0x00] T3) as (w4 & E4 & L4 & T4); [rewrite !length_app; cbn [length]; lia|]. next_blit E4.
  destruct (blit_snoc w4 _ di T4) as (w5 & E5 & L5 & T5); [rewrite !length_app; cbn [length]; lia|]. next_blit E5.
  destruct (blit_snoc w5 _ digest T5) as (w6 & E6 & L6 & T6); [rewrite !length_app; cbn [length]; lia|]. next_blit E6.
  exists w6. split; [done|]. split; [lia|].
  assert (El : length (((((([] ++ [0]) ++ [1]) ++ f) ++ [0]) ++ di) ++ digest) = k) by (rewrite !length_app; cbn [length]; lia).
  rewrite El in T6. rewrite T6. unfold emsa_pkcs1. rewrite <- !app_assoc. cbn [app]. do 3 f_equal. unfold f. f_equal. rewrite length_app. lia.
Qed.

Lemma emsa_pkcs1_bytes k di digest :
  Forall byte_ok di -> Forall byte_ok digest -> (length di + length digest + 3 <= k)%nat ->
  Forall byte_ok (emsa_pkcs1 k di digest) /\ length (emsa_pkcs1 k di digest) = k.
Proof.
  intros Hdi Hd Hk. unfold emsa_pkcs1. split.
  - repeat (apply Forall_app; split); try done; try (apply Forall_replicate; unfold byte_ok; lia);
      repeat constructor; unfold byte_ok; lia.
  - rewrite !length_app, length_replicate. cbn [length]. lia.
Qed.

(** C10: PKCS #1 v1.5 verification accepts a signature exactly when the key is an odd modulus
    of 128 to 512 bytes without its leading zero bytes (1017 to 4096 bits) with an exponent
    of 1 to 8 bytes, the signature has the length of the modulus and is smaller, and its power is the whole encoding
    [00 01 FF .. FF 00 DigestInfo digest], with no freedom in the padding. *)
Theorem rsa_pkcs1_exact l want n e id digest sig :
  rsa_locals_ok l -> length want = Z.to_nat RSA_MAX_BYTES -> Forall byte_ok n -> Forall byte_ok e -> Forall byte_ok sig ->
  Forall byte_ok digest -> Z.of_nat (length digest) = nx_hash_len id ->
  exists r, nx_rsa_verify_pkcs1 l want n e id digest sig = Some r /\ (r = 0 \/ r = -1) /\
    (r = 0 <-> rsa_input n e sig /\ exists di, digest_info id = Some di /\
       (be_val sig ^ be_val e) mod be_val n = be_val (emsa_pkcs1 (length (skip_zeros n)) di digest)).
Proof.
  intros Hl Hw Hn He Hsig Hd Hdl. unfold nx_rsa_verify_pkcs1.
  destruct (digest_info id) as [di|] eqn:Edi; [|exists (-1); split; [done|split; [tauto|]]; split; [done|intros (_ & ? & ? & _); done]].
  destruct (digest_info_known id di Edi) as (Hid & Hdil & Hdib). pose proof (hash_len_range id Hid) as Hr.
  pose proof (rsa_public_spec l n e sig Hl Hn He Hsig) as Hp.
  destruct (rsa_public l n e sig) as [em|]; [|exists (-1); split; [done|split; [tauto|]]; split; [done|tauto]].
  destruct Hp as (Hin & Heb & Hel & Hev). assert (Hk : (128 <= length em <= 512)%nat) by (rewrite Hel; apply Hin).
  change (Z.of_nat (length DI_SHA256)) with 19. rewrite (proj2 (Z.ltb_ge _ _)) by lia.
  destruct (pkcs1_want_spec want (length em) (nx_hash_len id) di digest) as (w & -> & Hwl & Hwt); [done|lia|done|done|lia|]. cbn [mbind option_bind].
  destruct (emsa_pkcs1_bytes (length em) di digest) as [Hwb Hwlen]; [done..|lia|].
  rewrite ct_equal_spec; [|lia|lia|by rewrite Nat2Z.id, take_ge|by rewrite Nat2Z.id, Hwt].
  rewrite Nat2Z.id, Hwt, (take_ge em) by lia. eexists. split; [done|]. split; [destruct (bool_decide _); tauto|].
  rewrite <- Hel, <- Hev. case_bool_decide as Eq; (split; [intros E; try done|]).
  - split; [done|]. exists di. by rewrite <- Eq.
  - done.
  - intros (_ & di' & [= <-] & Ev). exfalso. apply Eq, be_val_inj; [done..|lia|done].
Qed.

(** The length check counts bytes, not bits: a modulus of 1017 bits passes it. *)
Lemma modulus_of_1017_bits :
  let n := 1 :: replicate 126 0 ++ [1] in rsa_input n [3] (replicate 128 0) /\ Z.log2 (be_val n) + 1 = 1017.
Proof. vm_compute. repeat split; lia || discriminate || done. Qed.

(** *** Witness *)

(** A 1024-bit key with the exponent 3. *)
Definition ex_n : list Z :=
  [189; 155; 66; 181; 31; 232; 33; 97; 190; 118; 10; 235; 195; 149; 36; 49; 42; 202; 168; 222; 15; 79; 227; 213;
   169; 141; 122; 62; 109; 145; 168; 153; 161; 77; 77; 89; 58; 202; 113; 49; 121; 183; 177; 161; 187; 113; 12; 3;
   103; 112; 32; 51; 203; 134; 141; 193; 44; 77; 74; 235; 59; 210; 53; 118; 125; 107; 80; 155; 54; 86; 104; 181;
   77; 172; 72; 196; 157; 30; 65; 35; 45; 173; 125; 176; 186; 159; 39; 136; 108; 99; 21; 123; 149; 1; 228; 22;
   227; 53; 155; 184; 61; 235; 106; 143; 133; 244; 22; 243; 253; 175; 75; 48; 239; 138; 173; 233; 71; 187; 76; 52;
   233; 89; 159; 17; 132; 38; 183; 213].

Definition ex_e : list Z := [3].

Definition ex_digest : list Z :=
  [59; 138; 244; 28; 3; 114; 106; 135; 186; 165; 154; 80; 106; 131; 70; 177; 175; 209; 16; 143; 127; 118; 45; 68;
   3; 149; 220; 211; 1; 55; 100; 209].

(** Its PKCS #1 v1.5 signature of the digest. *)
Definition ex_sig : list Z :=
  [48; 167; 46; 31; 103; 15; 74; 209; 40; 158; 180; 35; 21; 93; 66; 51; 99; 231; 251; 22; 165; 201; 194; 222;
   49; 151; 177; 92; 151; 233; 77; 201; 219; 6; 35; 7; 253; 245; 234; 54; 115; 146; 197; 7; 160; 245; 115; 15;
   16; 227; 247; 40; 137; 118; 216; 247; 105; 30; 186; 95; 249; 88; 100; 159; 3; 191; 193; 31; 175; 225; 166; 108;
   191; 146; 65; 192; 71; 105; 100; 90; 223; 73; 119; 52; 100; 228; 160; 237; 24; 128; 222; 95; 143; 98; 34; 232;
   98; 247; 168; 236; 63; 47; 60; 66; 211; 200; 246; 18; 115; 239; 30; 216; 116; 79; 250; 44; 200; 118; 110; 117;
   27; 19; 218; 71; 91; 164; 146; 245].

Definition ex_rsa_locals : rsa_locals := mk_rsa_locals (replicate 130 5) (replicate 130 6) ex_hash (replicate 64 7).

Lemma ex_rsa_locals_ok : rsa_locals_ok ex_rsa_locals.
Proof. by repeat split. Qed.

Lemma rsa_pkcs1_exact_witness :
  nx_rsa_verify_pkcs1 ex_rsa_locals (replicate 512 9) ex_n ex_e NX_HASH_SHA256 ex_digest ex_sig = Some 0.
Proof.
  destruct (rsa_pkcs1_exact ex_rsa_locals (replicate 512 9) ex_n ex_e NX_HASH_SHA256 ex_digest ex_sig ex_rsa_locals_ok) as (r & Hr & _ & Hacc);
    [reflexivity|apply bytes_check; reflexivity..|reflexivity|].
  rewrite Hr. f_equal. apply Hacc. split.
  - vm_compute. split; [split; apply Nat.leb_le; reflexivity|]. split; [reflexivity|]. split; [split; apply Nat.leb_le; reflexivity|]. split; reflexivity.
  - exists DI_SHA256. split; [reflexivity|]. vm_compute. reflexivity.
Defined.
