(* ===== verification/RsaPss.v ===== *)
(** * RSA-PSS: what is accepted

    MGF1 computes the mask of RFC 8017, and the checks of the encoded message accept
    exactly the encodings of the digest, for some salt as long as it. *)
From S2P Require Import Prelude Bytes Blocks Sha256 Sha512 Hash Bn BnFacts BnMont BnThm Rsa RsaThm.

(** ** The mask generation function *)

Lemma be_bytes_4 v : [u8 (v >>. 24); u8 (v >>. 16); u8 (v >>. 8); u8 v] = be_bytes 4 v.
Proof.
  unfold be_bytes. cbn [le_enc]. rewrite !reverse_cons, reverse_nil. cbn [app]. rewrite !Z.div_div by lia. unfold u8, wrap.
  by rewrite !Z.shiftr_div_pow2 by lia.
Qed.

(** Looking up in the concatenation of blocks of the same length. *)
Lemma concat_blocks_lookup (f : nat -> list Z) hl N i x :
  (forall j, length (f j) = hl) -> (i < N)%nat -> (x < hl)%nat ->
  concat (f <$> seq 0 N) !!! (i * hl + x)%nat = f i !!! x.
Proof.
  intros Hf. assert (G : forall s N i, (i < N)%nat -> (x < hl)%nat -> concat (f <$> seq s N) !!! (i * hl + x)%nat = f (s + i)%nat !!! x).
  { intros s n. revert s. induction n as [|n IH]; intros s [|k] Hk Hx; [lia|lia| |]; cbn [seq fmap list_fmap concat].
    - rewrite lookup_total_app_l by (rewrite Hf; lia). by rewrite Nat.add_0_r.
    - rewrite lookup_total_app_r by (rewrite Hf; lia). rewrite Hf. replace (S k * hl + x - hl)%nat with (k * hl + x)%nat by lia.
      rewrite IH by lia. f_equal. f_equal. lia. }
  intros. by rewrite G.
Qed.

Lemma xor_into_spec out (d n : nat) t :
  (d + n <= length out)%nat ->
  let r := xor_into out (Z.of_nat d) (Z.of_nat n) t in
  length r = length out /\ forall j, r !!! j = if decide (d <= j < d + n)%nat then Z.lxor (out !!! j) (t !!! (j - d)%nat) else out !!! j.
Proof.
  intros Hl. unfold xor_into. set (f := fun o i => _).
  pose proof (for_seqZ (fun i r => length r = length out /\ forall j, r !!! j =
    if decide (d <= j < d + Z.to_nat i)%nat then Z.lxor (out !!! j) (t !!! (j - d)%nat) else out !!! j) f 0 (Z.of_nat n) out) as H.
  cbv beta in H. rewrite Z.add_0_l, Nat2Z.id in H. apply H; [lia| |].
  - split; [done|]. intros j. by rewrite decide_False by lia.
  - intros i r Hi [Hrl Hr]. unfold f. rewrite length_insert. split; [done|]. intros j.
    replace (Z.to_nat (Z.of_nat d + i)) with (d + Z.to_nat i)%nat by lia.
    destruct (decide (j = d + Z.to_nat i)%nat) as [->|Hne].
    + rewrite list_lookup_total_insert_eq by lia. rewrite Hr. rewrite decide_False, decide_True by lia. do 2 f_equal. lia.
    + rewrite list_lookup_total_insert_ne by done. rewrite Hr. destruct (decide (d <= j < d + Z.to_nat i)%nat); [rewrite decide_True by lia; done|].
      by rewrite decide_False by lia.
Qed.

Section mgf1.
Context (l : rsa_locals) (id : Z) (seed : list Z) (Hl : rsa_locals_ok l) (Hid : known id).

#[local] Abbreviation hl := (Z.to_nat (nx_hash_len id)).
Definition mgf_block (i : nat) : list Z := digest id (seed ++ be_bytes 4 (Z.of_nat i)).

(** The loop after [i] rounds, which masked the first [i * hl] bytes of [out]. *)
Lemma mgf1_loop_spec (len : nat) fuel out0 out i :
  length out0 = len -> length out = len -> (len <= 1024)%nat -> (len <= i + fuel)%nat -> (i <= len)%nat ->
  (forall j, out !!! j = if decide (j < len `min` (i * hl))%nat then Z.lxor (out0 !!! j) (concat (mgf_block <$> seq 0 len) !!! j) else out0 !!! j) ->
  exists r, mgf1_loop fuel l id seed out (Z.of_nat len) (Z.of_nat i) (Z.of_nat (len `min` (i * hl))) = Some r /\ length r = len /\
    forall j, (j < len)%nat -> r !!! j = Z.lxor (out0 !!! j) (concat (mgf_block <$> seq 0 len) !!! j).
Proof.
  pose proof (hash_len_range id Hid) as Hr. destruct Hl as (_ & _ & Hst & Ht).
  assert (Hbl : forall j, length (mgf_block j) = hl) by (intros; by apply digest_length).
  revert out i. induction fuel as [|fuel IH]; intros out i H0 Hol Hmax Hf Hi Hv; cbn [mgf1_loop].
  { rewrite (proj2 (Z.ltb_ge _ _)) by nia. exists out. split; [done|]. split; [done|]. intros j Hj. by rewrite Hv, decide_True by nia. }
  destruct (Z.ltb_spec (Z.of_nat (len `min` (i * hl))) (Z.of_nat len)) as [Hlt|Hge].
  2: { exists out. split; [done|]. split; [done|]. intros j Hj. by rewrite Hv, decide_True by lia. }
  rewrite be_bytes_4.
  destruct (hash_update_for _ id [] seed (hash_init_for (rl_stack l) id Hst)) as (h1 & -> & H1). cbn [mbind option_bind].
  destruct (hash_update_for _ id _ (be_bytes 4 (Z.of_nat i)) H1) as (h2 & -> & H2). cbn [mbind option_bind].
  destruct (hash_final_for _ _ _ H2) as (h3 & -> & _). cbn [mbind option_bind app]. fold (mgf_block i).
  destruct (blit_some (rl_t l) 0 (mgf_block i)) as (t & -> & Htl & Hpre); [lia|rewrite Hbl, Ht; unfold NX_HASH_MAX; lia|]. cbn [mbind option_bind].
  change (Z.to_nat 0) with O in Hpre. rewrite take_0, app_nil_l, Nat.add_0_l, Hbl in Hpre.
  rewrite (Nat.min_r len (i * hl)) in * by lia. replace (Z.min (nx_hash_len id) (Z.of_nat len - Z.of_nat (i * hl))) with (Z.of_nat (hl `min` (len - i * hl))) by lia.
  rewrite (wrap_small 32) by (unfold fits; lia). replace (Z.of_nat i + 1) with (Z.of_nat (S i)) by lia.
  replace (Z.of_nat (i * hl) + Z.of_nat (hl `min` (len - i * hl))) with (Z.of_nat (len `min` (S i * hl))) by lia.
  destruct (xor_into_spec out (i * hl) (hl `min` (len - i * hl)) t ltac:(lia)) as [Xl Xv].
  apply IH; [done|lia|done|lia|nia|]. intros j. rewrite Xv, Hv. destruct (decide (j < i * hl)%nat) as [Hj|Hj].
  - rewrite decide_False, decide_True by lia. done.
  - destruct (decide (j < len `min` (S i * hl))%nat) as [Hj2|Hj2]; [|by rewrite decide_False by lia].
    rewrite decide_True by lia. f_equal. assert (Hx : (j - i * hl < hl)%nat) by lia.
    replace j with (i * hl + (j - i * hl))%nat at 2 by lia. assert (i < len)%nat by nia. rewrite concat_blocks_lookup by (done || lia). rewrite <- Hpre.
    by rewrite lookup_total_take_lt by lia.
Qed.

Lemma mgf1_length len : length (mgf1 id seed len) = len.
Proof.
  unfold mgf1. rewrite length_take. pose proof (hash_len_range id Hid) as Hr. fold mgf_block.
  assert (G : length (concat (mgf_block <$> seq 0 len)) = (len * hl)%nat); [|nia]. generalize 0%nat as s.
  induction len as [|n IH]; intros s; [done|]. cbn [seq fmap list_fmap concat]. rewrite length_app, IH. unfold mgf_block at 1. rewrite digest_length by done. lia.
Qed.

Lemma mgf1_xor_spec out (len : nat) :
  length out = len -> (len <= 1024)%nat -> mgf1_xor l id seed out (Z.of_nat len) = Some (zip_with Z.lxor out (mgf1 id seed len)).
Proof.
  intros Hol Hmax. unfold mgf1_xor. rewrite Nat2Z.id.
  destruct (mgf1_loop_spec len len out out 0) as (r & Hr & Hrl & Hrv); [done|done|done|lia|lia|intros j; by rewrite decide_False by lia|].
  cbn [Nat.mul] in Hr. rewrite Nat.min_0_r in Hr. change (Z.of_nat 0) with 0 in Hr. rewrite Hr. f_equal.
  pose proof (mgf1_length len) as Hml.
  apply list_eq_same_length with len; [rewrite length_zip_with; lia|done|]. intros j x y Hj Hx Hy.
  apply lookup_zip_with_Some in Hy as (a & b & -> & Ha & Hb). apply list_lookup_total_correct in Hx, Ha, Hb.
  rewrite <- Hx, <- Ha, <- Hb, Hrv by done. f_equal. unfold mgf1. by rewrite lookup_total_take_lt.
Qed.
End mgf1.

(** ** Masks on the first byte *)

(** A property of the bytes and the numbers of bits in one, by cases. *)
Lemma byte_bits_ind (p : Z -> Z -> bool) :
  forallb (fun z => forallb (p z) (seqZ 0 256)) (seqZ 0 8) = true -> forall z x, 0 <= z < 8 -> byte_ok x -> p z x = true.
Proof.
  intros H z x Hz Hx. rewrite forallb_seqZ in H. specialize (H z ltac:(lia)). rewrite forallb_seqZ in H. apply H. unfold byte_ok in Hx. lia.
Qed.

Lemma top_mask z x : 0 <= z < 8 -> byte_ok x -> (x &. u8 (0xFF <<. (8 - z)) =? 0) = (x <? 2 ^ (8 - z)).
Proof.
  intros Hz Hx. apply eqb_true_iff. revert z x Hz Hx. apply byte_bits_ind. vm_compute. reflexivity.
Qed.

Lemma low_mask z x : 0 <= z < 8 -> byte_ok x -> x &. u8 (0xFF >>. z) = x mod 2 ^ (8 - z).
Proof.
  intros Hz Hx. apply Z.eqb_eq. revert z x Hz Hx. apply byte_bits_ind. vm_compute. reflexivity.
Qed.

Lemma top_bits_spec x : 0 < x < 256 -> 8 - clz32 (u32 (x <<. 24) |. 0x00FFFFFF) = Z.log2 x + 1.
Proof.
  intros Hx. apply Z.eqb_eq.
  pose proof (byte_bits_ind (fun _ x => (x =? 0) || (8 - clz32 (u32 (x <<. 24) |. 0x00FFFFFF) =? Z.log2 x + 1)) eq_refl 0 x ltac:(lia) ltac:(unfold byte_ok; lia)) as H.
  cbv beta in H. apply orb_true_iff in H as [H|H]; [apply Z.eqb_eq in H; lia|done].
Qed.

Lemma lxor_mod a b w : 0 <= w -> (Z.lxor a b) mod 2 ^ w = Z.lxor (a mod 2 ^ w) (b mod 2 ^ w).
Proof.
  intros Hw. apply Z.bits_inj'. intros i Hi. rewrite Z.lxor_spec. destruct (Z.ltb_spec i w).
  - by rewrite !Z.mod_pow2_bits_low, Z.lxor_spec by lia.
  - by rewrite !Z.mod_pow2_bits_high by lia.
Qed.

Lemma lxor_swap a b c : Z.lxor a b = c <-> a = Z.lxor c b.
Proof.
  split; [intros <-|intros ->]; by rewrite Z.lxor_assoc, Z.lxor_nilpotent, Z.lxor_0_r.
Qed.

Lemma xor_list_swap (x m d : list Z) : length x = length m -> length d = length m -> zip_with Z.lxor x m = d <-> x = zip_with Z.lxor d m.
Proof.
  revert x d. induction m as [|b m IH]; intros [|a x] [|c d]; cbn [length zip_with]; try done; intros Hx Hd.
  split; intros E; injection E as E1 E2; f_equal; try (apply lxor_swap; done); apply IH; (done || lia).
Qed.

(** Unmasking with the top bits cleared gives [d] exactly when [x] is [d] masked. *)
Lemma clear_top_swap z x m d :
  0 <= z < 8 -> length x = length m -> length d = length m -> (0 < length m)%nat ->
  0 <= x.[0] < 2 ^ (8 - z) -> 0 <= d.[0] < 2 ^ (8 - z) ->
  clear_top z (zip_with Z.lxor x m) = d <-> x = clear_top z (zip_with Z.lxor d m).
Proof.
  intros Hz Hx Hd. destruct m as [|b m], x as [|a x], d as [|c d]; cbn [length] in *; try lia. intros _.
  change (Z.to_nat 0) with O. cbn [lookup_total list_lookup_total zip_with clear_top]. intros Ha Hc.
  rewrite !lxor_mod, (Z.mod_small a), (Z.mod_small c) by lia.
  split; intros E; injection E as E1 E2; f_equal; try (apply lxor_swap; done);
    apply xor_list_swap; (done || lia).
Qed.

Lemma clear_top_small z l : 0 <= z < 8 -> (0 < length l)%nat -> 0 <= (clear_top z l).[0] < 2 ^ (8 - z).
Proof. intros Hz Hl. destruct l as [|x l]; [cbn in Hl; lia|]. change (Z.to_nat 0) with O. cbn. apply Z.mod_pos_bound, Z.pow_pos_nonneg; lia. Qed.

Lemma clear_top_set z db :
  0 <= z < 8 -> (0 < length db)%nat -> byte_ok db.[0] -> db.[0 := db.[0] &. u8 (0xFF >>. z)] = clear_top z db.
Proof.
  intros Hz Hl Hb. rewrite low_mask by done. destruct db as [|x db]; [cbn in Hl; lia|]. done.
Qed.

(** The padding, the marker and the salt of the data block. *)
Lemma data_block_split db (ps hl : nat) :
  length db = (ps + 1 + hl)%nat ->
  (forallb (fun i => db.[i] =? 0) (seqZ 0 (Z.of_nat ps)) = true /\ db.[Z.of_nat ps] = 1) <->
  db = replicate ps 0 ++ [1] ++ take hl (drop (ps + 1) db).
Proof.
  intros Hl. rewrite forallb_seqZ, Nat2Z.id. rewrite take_ge by (rewrite length_drop; lia). split.
  - intros [Hz H1]. apply list_eq. intros i. destruct (decide (i < ps)%nat) as [Hi|Hi].
    + rewrite lookup_app_l, lookup_replicate_2 by (rewrite ?length_replicate; lia). specialize (Hz (Z.of_nat i) ltac:(lia)). apply Z.eqb_eq in Hz.
      rewrite Nat2Z.id in Hz. rewrite (list_lookup_lookup_total_lt db i) by lia. by rewrite Hz.
    + rewrite lookup_app_r, length_replicate by (rewrite length_replicate; lia). destruct (decide (i = ps)) as [->|].
      * rewrite Nat.sub_diag. cbn. rewrite (list_lookup_lookup_total_lt db ps) by lia. by rewrite H1.
      * rewrite lookup_app_r by (cbn; lia). rewrite lookup_drop. cbn [length]. f_equal. lia.
  - intros E. split.
    + intros i Hi. apply Z.eqb_eq. rewrite E. rewrite lookup_total_app_l by (rewrite length_replicate; lia).
      apply lookup_total_replicate_2. lia.
    + rewrite E. rewrite lookup_total_app_r by (rewrite length_replicate; lia). by rewrite length_replicate, Nat.sub_diag.
Qed.

(** ** The checks *)

(** The parts of an encoded message. *)
Lemma em_parts (EM : list Z) dbl hl :
  length EM = (dbl + hl + 1)%nat ->
  exists mdb H b, EM = mdb ++ H ++ [b] /\ length mdb = dbl /\ length H = hl /\
    take dbl EM = mdb /\ take hl (drop dbl EM) = H /\ EM !!! (dbl + hl)%nat = b.
Proof.
  intros Hl. exists (take dbl EM), (take hl (drop dbl EM)), (EM !!! (dbl + hl)%nat). split; [|split_and!; try done; rewrite !length_take, ?length_drop; lia].
  rewrite <- (take_drop dbl EM) at 1. f_equal. rewrite <- (take_drop hl (drop dbl EM)) at 1. f_equal. rewrite drop_drop.
  rewrite (drop_S EM (EM !!! (dbl + hl)%nat) (dbl + hl)) by (apply list_lookup_lookup_total_lt; lia). by rewrite drop_ge by lia.
Qed.

Lemma zip_xor_bytes a b : Forall byte_ok a -> Forall byte_ok b -> Forall byte_ok (zip_with Z.lxor a b).
Proof.
  intros Ha. revert b. induction Ha as [|x a Hx Ha IH]; intros b Hb; [done|]. destruct Hb as [|y b Hy Hb]; [done|].
  cbn. constructor; [by apply (lxor_fits 8)|by apply IH].
Qed.

Lemma mgf1_bytes id seed len : Forall byte_ok (mgf1 id seed len).
Proof.
  unfold mgf1. apply Forall_take, Forall_concat. apply Forall_fmap, Forall_forall. intros x _. apply digest_byte_list.
Qed.

Lemma byte_head (x : list Z) : Forall byte_ok x -> (0 < length x)%nat -> byte_ok x.[0].
Proof. intros Hx Hl. by apply Forall_lookup_total_1. Qed.

Section pss.
Context (l : rsa_locals) (id : Z) (mhash : list Z) (Hl : rsa_locals_ok l) (Hid : known id).
Context (Hmh : Z.of_nat (length mhash) = nx_hash_len id).

#[local] Abbreviation hl := (Z.to_nat (nx_hash_len id)).

(** The encoding for a salt. *)
Definition data_block (dbl : nat) (salt : list Z) : list Z := replicate (dbl - hl - 1) 0 ++ [1] ++ salt.

Lemma data_block_head z dbl salt : 0 <= z < 8 -> 0 <= (data_block dbl salt).[0] < 2 ^ (8 - z).
Proof.
  intros Hz. assert (1 < 2 ^ (8 - z)) by (apply Z.pow_gt_1; lia). unfold data_block. change (Z.to_nat 0) with O.
  destruct (dbl - hl - 1)%nat; cbn; lia.
Qed.

(** Unmasking and the checks of the data block find the salt of an encoding, if any. *)
Lemma data_block_checks z dbl mdb M salt :
  0 <= z < 8 -> (hl + 1 <= dbl)%nat -> length mdb = dbl -> length M = dbl -> 0 <= mdb.[0] < 2 ^ (8 - z) -> length salt = hl ->
  let db := clear_top z (zip_with Z.lxor mdb M) in
  (forallb (fun i => db.[i] =? 0) (seqZ 0 (Z.of_nat (dbl - hl - 1))) = true /\ db.[Z.of_nat (dbl - hl - 1)] = 1 /\
   take hl (drop (dbl - hl) db) = salt) <->
  mdb = clear_top z (zip_with Z.lxor (data_block dbl salt) M).
Proof.
  intros Hz Hdbl Hm HM H0 Hs db. assert (Hdl : length db = (dbl - hl - 1 + 1 + hl)%nat).
  { unfold db. destruct (zip_with Z.lxor mdb M) eqn:E; apply (f_equal length) in E; rewrite length_zip_with in E; cbn [length clear_top] in *; lia. }
  rewrite <- clear_top_swap; [|done|lia|unfold data_block; rewrite !length_app, length_replicate; cbn [length]; lia|lia|done|by apply data_block_head].
  fold db. pose proof (data_block_split db (dbl - hl - 1) hl Hdl) as Hsp. replace (dbl - hl - 1 + 1)%nat with (dbl - hl)%nat in Hsp by lia. split.
  - intros (H1 & H2 & H3). rewrite H3 in Hsp. by apply Hsp.
  - intros E. assert (E3 : take hl (drop (dbl - hl) db) = salt).
    { rewrite E. unfold data_block. rewrite app_assoc, drop_app_length' by (rewrite length_app, length_replicate; cbn; lia). apply take_ge. lia. }
    rewrite E3 in Hsp. destruct Hsp as [_ Hsp]. destruct (Hsp E) as [? ?]. done.
Qed.

(** The checks on the parts: accepted exactly when the masked data block and the hash are
    those of an encoding. *)
Lemma pss_em_parts mdb H b em_len em_bits (dbl : nat) :
  Forall byte_ok mdb -> Forall byte_ok H -> length mdb = dbl -> length H = hl -> em_len = Z.of_nat (dbl + hl + 1) ->
  (hl + 1 <= dbl)%nat -> (dbl <= 512)%nat -> 0 <= 8 * em_len - em_bits < 8 ->
  exists r, pss_em l (mdb ++ H ++ [b]) em_len em_bits id mhash = Some r /\ (r = 0 \/ r = -1) /\
    (r = 0 <-> exists salt, length salt = hl /\ Forall byte_ok salt /\ H = digest id (replicate 8 0 ++ mhash ++ salt) /\ b = 0xBC /\
       mdb = clear_top (8 * em_len - em_bits) (zip_with Z.lxor (data_block dbl salt) (mgf1 id H dbl))).
Proof.
  intros Hmb HHb Hml HHl Hem Hdbl Hmax Hz. set (z := 8 * em_len - em_bits) in *. unfold pss_em. fold z. pose proof (hash_len_range id Hid) as Hr.
  assert (reject : forall P : Prop, ~ P -> exists r, Some (-1) = Some r /\ (r = 0 \/ r = -1) /\ (r = 0 <-> P)).
  { intros P HP. exists (-1). split; [done|]. split; [tauto|]. split; [done|tauto]. }
  replace (Z.to_nat (em_len - nx_hash_len id - 1)) with dbl by lia. replace (em_len - nx_hash_len id - 1) with (Z.of_nat dbl) by lia.
  replace (Z.to_nat (em_len - 1)) with (dbl + hl)%nat by lia.
  rewrite (take_app_length' mdb), (drop_app_length' mdb), (take_app_length' H) by done.
  rewrite (lookup_total_app_r mdb), (lookup_total_app_r H) by lia. replace (dbl + hl - length mdb - length H)%nat with O by lia.
  rewrite (proj2 (Z.ltb_ge em_len _)) by lia. change ([b] !!! 0%nat) with b. cbn [orb].
  destruct (Z.eqb_spec b 0xBC) as [->|Hb]; cbn [negb]; [|apply reject; intros (? & ? & ? & ? & ? & ?); done].
  pose proof (byte_head mdb Hmb ltac:(lia)) as Hb0. rewrite top_mask by done. pose proof (mgf1_length id H Hid dbl) as HM.
  destruct (Z.ltb_spec mdb.[0] (2 ^ (8 - z))) as [H0|H0]; cbn [negb].
  2: { apply reject. intros (s & Hs & _ & _ & _ & E). pose proof (clear_top_small z (zip_with Z.lxor (data_block dbl s) (mgf1 id H dbl)) Hz) as G.
       rewrite <- E in G. rewrite length_zip_with, HM in G. unfold data_block in G. rewrite !length_app, length_replicate in G. cbn [length] in G. lia. }
  rewrite mgf1_xor_spec by (done || lia). cbn [mbind option_bind]. pose proof (zip_xor_bytes _ _ Hmb (mgf1_bytes id H dbl)) as Hxb.
  assert (Hxl : length (zip_with Z.lxor mdb (mgf1 id H dbl)) = dbl) by (rewrite length_zip_with; lia).
  rewrite clear_top_set by (done || lia || (apply byte_head; [done|lia])).
  set (db := clear_top z (zip_with Z.lxor mdb (mgf1 id H dbl))). 
  replace (Z.to_nat (Z.of_nat dbl - nx_hash_len id)) with (dbl - hl)%nat by lia. set (salt := take hl (drop (dbl - hl) db)).
  replace (Z.of_nat dbl - nx_hash_len id - 1) with (Z.of_nat (dbl - hl - 1)) by lia.
  assert (Hdl : length db = dbl) by (unfold db; destruct (zip_with Z.lxor mdb (mgf1 id H dbl)); done).
  assert (Hsl : length salt = hl) by (unfold salt; rewrite length_take, length_drop; lia).
  assert (Hsb : Forall byte_ok salt).
  { unfold salt. apply Forall_take, Forall_drop. unfold db. destruct Hxb as [|x y Hx Hy]; [done|]. constructor; [|done]. unfold byte_ok in *.
    pose proof (Z.mod_pos_bound x (2 ^ (8 - z)) ltac:(apply Z.pow_pos_nonneg; lia)). pose proof (Z.mod_le x (2 ^ (8 - z)) ltac:(lia) ltac:(apply Z.pow_pos_nonneg; lia)). lia. }
  pose proof (fun s Hs => data_block_checks z dbl mdb (mgf1 id H dbl) s Hz Hdbl Hml HM (conj (proj1 Hb0) H0) Hs) as Hck. cbv zeta in Hck. fold db salt in Hck.
  destruct (forallb _ _) eqn:Ez; cbn [negb]; [|apply reject; intros (s & Hs & _ & _ & _ & E); apply (Hck s Hs) in E as (E & _); done].
  destruct (Z.eqb_spec db.[Z.of_nat (dbl - hl - 1)] 1) as [E1|E1]; cbn [negb]; [|apply reject; intros (s & Hs & _ & _ & _ & E); apply (Hck s Hs) in E as (_ & E & _); done].
  rewrite hash_buf_for by apply Hl. cbn [mbind option_bind]. rewrite (take_ge mhash) by lia.
  pose proof (digest_length id (replicate 8 0 ++ mhash ++ salt) Hid) as Hdig.
  rewrite ct_equal_spec; [|lia|lia|apply Forall_take, digest_byte_list|by apply Forall_take]. rewrite !take_ge by lia.
  eexists. split; [done|]. split; [destruct (bool_decide _); tauto|]. case_bool_decide as Eq; (split; [intros E; try done|]).
  - exists salt. split_and!; try done. apply (Hck salt Hsl). done.
  - done.
  - intros (s & Hs & _ & EH & _ & E). apply (Hck s Hs) in E as (_ & _ & Es). exfalso. apply Eq. congruence.
Qed.

(** [EM] is the encoding of the digest for some salt. *)
Definition pss_encodes (EM : list Z) (em_bits : Z) : Prop :=
  2 * nx_hash_len id + 2 <= (em_bits + 7) / 8 /\
  exists salt, length salt = hl /\ Forall byte_ok salt /\ EM = emsa_pss id em_bits mhash salt.

Lemma pss_em_spec EM em_bits :
  let em_len := Z.of_nat (length EM) in
  Forall byte_ok EM -> (length EM <= 512)%nat -> 0 <= 8 * em_len - em_bits < 8 ->
  exists r, pss_em l EM em_len em_bits id mhash = Some r /\ (r = 0 \/ r = -1) /\ (r = 0 <-> pss_encodes EM em_bits).
Proof.
  intros em_len Hb Hmax Hz. pose proof (hash_len_range id Hid) as Hr. assert (Hel : (em_bits + 7) / 8 = em_len) by dlia. unfold pss_encodes. rewrite Hel.
  destruct (Z.ltb_spec em_len (2 * nx_hash_len id + 2)) as [Hshort|Hlong].
  { unfold pss_em. rewrite (proj2 (Z.ltb_lt em_len _)) by lia. cbn [orb]. exists (-1). split; [done|]. split; [tauto|]. split; [done|lia]. }
  destruct (em_parts EM (length EM - hl - 1) hl) as (mdb & H & b & HEM & Hml & HHl & _); [lia|]. rewrite HEM in Hb.
  apply Forall_app in Hb as [Hmb [HHb _]%Forall_app].
  destruct (pss_em_parts mdb H b em_len em_bits _ Hmb HHb Hml HHl) as (r & Hrun & Hr01 & Hacc); [lia|lia|lia|done|].
  rewrite HEM. exists r. split; [done|]. split; [done|]. rewrite Hacc. unfold emsa_pss. rewrite Hel. fold (data_block (Z.to_nat em_len - hl - 1)).
  replace (Z.to_nat em_len - hl - 1)%nat with (length EM - hl - 1)%nat by lia. split.
  - intros (s & Hs & Hsb & EH & -> & Em). split; [lia|]. exists s. split; [done|]. split; [done|]. rewrite <- EH. unfold data_block in Em. by rewrite <- Em.
  - intros (_ & s & Hs & Hsb & Em). exists s. apply app_inj_1 in Em as [Em Em2].
    + apply app_inj_1 in Em2 as [EH Eb]; [|by rewrite HHl, digest_length]. injection Eb as ->. rewrite <- EH in Em. done.
    + rewrite Hml. match goal with |- _ = length (clear_top _ ?x) => assert (Hx : length x = (length EM - hl - 1)%nat) end.
      { rewrite length_zip_with, mgf1_length, !length_app, length_replicate, Hs by done. cbn [length]. lia. }
      destruct (zip_with _ _ _); done.
Qed.
End pss.

(** The number of bits of a modulus from its first byte. *)
Lemma modulus_bits n :
  Forall byte_ok n -> skip_zeros n <> [] ->
  0 < (skip_zeros n).[0] < 256 /\ Z.log2 (be_val n) = (Z.of_nat (length (skip_zeros n)) - 1) * 8 + Z.log2 (skip_zeros n).[0].
Proof.
  intros Hn Hne. pose proof (skip_zeros_head n) as Hh. pose proof (skip_zeros_bytes n Hn) as Hb. rewrite <- skip_zeros_val.
  destruct (skip_zeros n) as [|x t]; [done|]. inversion Hb as [|? ? Hx Ht]; subst. change ((x :: t).[0]) with x. unfold byte_ok in Hx.
  split; [lia|]. rewrite be_val_cons. pose proof (be_val_bound t Ht) as Hbt. cbn [length].
  replace (Z.of_nat (S (length t)) - 1) with (Z.of_nat (length t)) by lia.
  assert (Hp : 256 ^ Z.of_nat (length t) = 2 ^ (8 * Z.of_nat (length t))) by (rewrite Z.pow_mul_r by lia; done).
  destruct (Z.log2_spec x ltac:(lia)) as [L1 L2]. pose proof (Z.log2_nonneg x). apply Z.log2_unique; [lia|]. rewrite Hp in *.
  set (s := Z.log2 x) in *. replace (Z.of_nat (length t) * 8 + s) with (s + 8 * Z.of_nat (length t)) by lia.
  rewrite <- Z.add_succ_l, !Z.pow_add_r by lia. set (P := 2 ^ (8 * Z.of_nat (length t))) in *. nia.
Qed.

Lemma clear_top_wf z x : 0 <= z -> Forall byte_ok x -> Forall byte_ok (clear_top z x) /\ length (clear_top z x) = length x.
Proof.
  intros Hz Hx. destruct Hx as [|a x Ha Hx]; [done|]. split; [|done]. cbn. constructor; [|done]. unfold byte_ok in *.
  destruct (Z.leb_spec 0 (8 - z)); [|rewrite Z.pow_neg_r, Z.mod_0_r by lia; lia].
  pose proof (Z.pow_pos_nonneg 2 (8 - z) ltac:(lia) ltac:(lia)).
  pose proof (Z.mod_pos_bound a (2 ^ (8 - z)) ltac:(lia)). pose proof (Z.mod_le a (2 ^ (8 - z)) ltac:(lia) ltac:(lia)). lia.
Qed.

Lemma emsa_pss_wf id em_bits mhash salt :
  known id -> 0 <= em_bits -> 2 * nx_hash_len id + 2 <= (em_bits + 7) / 8 -> Z.of_nat (length salt) = nx_hash_len id -> Forall byte_ok salt ->
  Forall byte_ok (emsa_pss id em_bits mhash salt) /\ Z.of_nat (length (emsa_pss id em_bits mhash salt)) = (em_bits + 7) / 8.
Proof.
  intros Hid Hb Hroom Hs Hsb. pose proof (hash_len_range id Hid) as Hr. unfold emsa_pss.
  set (H := digest id _). set (dbl := (Z.to_nat ((em_bits + 7) / 8) - Z.to_nat (nx_hash_len id) - 1)%nat). set (DB := replicate _ _ ++ _).
  assert (HDB : Forall byte_ok DB /\ length DB = dbl).
  { unfold DB. split; [|rewrite !length_app, length_replicate; cbn [length]; lia].
    apply Forall_app. split; [apply Forall_replicate; unfold byte_ok; lia|]. constructor; [unfold byte_ok; lia|done]. }
  destruct HDB as [Hdb Hdl]. pose proof (mgf1_length id H Hid dbl) as HM.
  destruct (clear_top_wf (8 * ((em_bits + 7) / 8) - em_bits) (zip_with Z.lxor DB (mgf1 id H dbl))) as [Cb Cl];
    [dlia|apply zip_xor_bytes; [done|apply mgf1_bytes]|].
  split.
  - apply Forall_app. split; [done|]. apply Forall_app. split; [apply digest_byte_list|]. repeat constructor; unfold byte_ok; lia.
  - rewrite !length_app, Cl, length_zip_with, HM, Hdl. unfold H. rewrite digest_length by done. cbn [length]. lia.
Qed.

(** The decoded message is an encoding followed by nothing but a zero byte, if any. *)
Lemma pss_check_spec l em N top id mhash :
  rsa_locals_ok l -> known id -> Z.of_nat (length mhash) = nx_hash_len id -> Forall byte_ok em -> (128 <= length em <= 512)%nat ->
  0 < top < 256 -> Z.log2 N = (Z.of_nat (length em) - 1) * 8 + Z.log2 top ->
  exists r, pss_check l em top id mhash = Some r /\ (r = 0 \/ r = -1) /\
    (r = 0 <-> 2 * nx_hash_len id + 2 <= (Z.log2 N + 7) / 8 /\
       exists salt, length salt = Z.to_nat (nx_hash_len id) /\ Forall byte_ok salt /\ be_val em = be_val (emsa_pss id (Z.log2 N) mhash salt)).
Proof.
  intros Hl Hid Hmh Hem Hk Htop HN. unfold pss_check. rewrite top_bits_spec by done.
  replace ((Z.of_nat (length em) - 1) * 8 + (Z.log2 top + 1) - 1) with (Z.log2 N) by lia.
  assert (Hs : 0 <= Z.log2 top <= 7) by (split; [apply Z.log2_nonneg|]; apply Z.lt_succ_r, Z.log2_lt_pow2; lia).
  set (em_len := (Z.log2 N + 7) / 8). assert (Hel : em_len = Z.of_nat (length em) \/ em_len = Z.of_nat (length em) - 1 /\ Z.log2 top = 0) by (unfold em_len; dlia).
  assert (HE : forall salt, 2 * nx_hash_len id + 2 <= em_len -> length salt = Z.to_nat (nx_hash_len id) -> Forall byte_ok salt ->
    Forall byte_ok (emsa_pss id (Z.log2 N) mhash salt) /\ Z.of_nat (length (emsa_pss id (Z.log2 N) mhash salt)) = em_len).
  { intros s H1 H2 H3. pose proof (hash_len_range id Hid). apply emsa_pss_wf; try done; lia. }
  set (EM := drop _ em). assert (HEl : Z.of_nat (length EM) = em_len) by (unfold EM; rewrite length_drop; lia).
  assert (HEb : Forall byte_ok EM) by by apply Forall_drop.
  destruct ((em_len <? Z.of_nat (length em)) && negb (em.[0] =? 0)) eqn:E0.
  - exists (-1). split; [done|]. split; [tauto|]. split; [done|]. intros (H1 & s & H2 & H3 & Ev). exfalso.
    apply andb_true_iff in E0 as [E0 E1]. apply Z.ltb_lt in E0. apply negb_true_iff, Z.eqb_neq in E1. destruct (HE s H1 H2 H3) as [Eb El].
    pose proof (be_val_bound _ Eb) as Hbound. rewrite El, <- Ev in Hbound. destruct em as [|x em]; [cbn in Hk; lia|]. rewrite be_val_cons in Hbound.
    inversion Hem as [|? ? Hx Hem']; subst. pose proof (be_val_bound em Hem'). change ((x :: em).[0]) with x in E1. unfold byte_ok in Hx.
    cbn [length] in Hel, E0. replace em_len with (Z.of_nat (length em)) in Hbound by lia. nia.
  - destruct (pss_em_spec l id mhash Hl Hid Hmh EM (Z.log2 N) HEb) as (r & Hr & H01 & Hacc); [lia|rewrite HEl; unfold em_len; dlia|].
    rewrite HEl in Hr. exists r. split; [done|]. split; [done|]. rewrite Hacc. unfold pss_encodes. fold em_len.
    assert (Hval : be_val em = be_val EM).
    { destruct Hel as [Hel|[Hel _]]; unfold EM; rewrite Hel; [by rewrite Z.sub_diag|]. replace (Z.to_nat _) with 1%nat by lia.
      destruct em as [|x em]; [done|]. apply andb_false_iff in E0 as [E0|E0]; [apply Z.ltb_ge in E0; lia|].
      apply negb_false_iff, Z.eqb_eq in E0. change ((x :: em).[0]) with x in E0. subst x. rewrite be_val_cons. cbn [drop]. rewrite drop_0. lia. }
    rewrite Hval. split; intros (H1 & s & H2 & H3 & Ev); (split; [done|]); exists s; (split; [done|]); (split; [done|]); [by rewrite Ev|].
    destruct (HE s H1 H2 H3) as [Eb El]. apply be_val_inj; [done..|lia|done].
Qed.

Lemma hash_len_known id : nx_hash_len id <> 0 -> known id.
Proof.
  unfold nx_hash_len, known. destruct (Z.eqb_spec id NX_HASH_SHA256); [tauto|]. destruct (Z.eqb_spec id NX_HASH_SHA384); [tauto|].
  destruct (Z.eqb_spec id NX_HASH_SHA512); [tauto|done].
Qed.

(** C11: PSS verification accepts a signature exactly when the key is an odd modulus of 128 to
    512 bytes (1017 to 4096 bits) with an exponent of 1 to 8 bytes, the signature has the
    length of the modulus and is smaller, and its power is an EMSA-PSS encoding of RFC 8017 of the digest, for the bits of the modulus and some salt as long as the
    digest: the mask, the padding, the cleared top bits, the trailer and the hash all
    have to be right, and every such encoding is accepted. *)
Theorem rsa_pss_exact l n e id mhash sig :
  rsa_locals_ok l -> Forall byte_ok n -> Forall byte_ok e -> Forall byte_ok sig -> Z.of_nat (length mhash) = nx_hash_len id ->
  exists r, nx_rsa_verify_pss l n e id mhash sig = Some r /\ (r = 0 \/ r = -1) /\
    (r = 0 <-> known id /\ rsa_input n e sig /\ 2 * nx_hash_len id + 2 <= (Z.log2 (be_val n) + 7) / 8 /\
       exists salt, length salt = Z.to_nat (nx_hash_len id) /\ Forall byte_ok salt /\
         (be_val sig ^ be_val e) mod be_val n = be_val (emsa_pss id (Z.log2 (be_val n)) mhash salt)).
Proof.
  intros Hl Hn He Hsig Hmh. unfold nx_rsa_verify_pss. destruct (Z.eqb_spec (nx_hash_len id) 0) as [E0|E0].
  { exists (-1). split; [done|]. split; [tauto|]. split; [done|]. intros (Hid & _). pose proof (hash_len_range id Hid). lia. }
  pose proof (hash_len_known id E0) as Hid. pose proof (rsa_public_spec l n e sig Hl Hn He Hsig) as Hp.
  destruct (rsa_public l n e sig) as [em|]; [|exists (-1); split; [done|split; [tauto|]]; split; [done|tauto]].
  destruct Hp as (Hin & Heb & Hel & Hev). assert (Hk : (128 <= length em <= 512)%nat) by (rewrite Hel; apply Hin).
  destruct (modulus_bits n Hn) as [Ht Hb]; [intros E; rewrite E in Hel; cbn in Hel; lia|]. rewrite <- Hel in Hb.
  destruct (pss_check_spec l em (be_val n) _ id mhash Hl Hid Hmh Heb Hk Ht Hb) as (r & Hr & H01 & Hacc).
  exists r. split; [done|]. split; [done|]. rewrite Hacc, Hev. tauto.
Qed.

(** *** Witness *)

(** Its PSS signature of the digest, with the salt 0, 1, ..., 31. *)
Definition ex_pss_sig : list Z :=
  [171; 186; 14; 95; 171; 189; 229; 68; 234; 85; 228; 229; 11; 42; 240; 89; 132; 9; 237; 9; 125; 58; 206; 128;
   40; 180; 162; 41; 31; 18; 189; 179; 101; 219; 83; 47; 49; 146; 109; 74; 167; 48; 65; 168; 176; 149; 119; 89;
   232; 157; 208; 225; 42; 23; 82; 25; 97; 243; 78; 248; 188; 170; 221; 55; 103; 133; 59; 146; 192; 180; 15; 108;
   112; 114; 196; 13; 207; 248; 142; 207; 21; 159; 83; 27; 20; 221; 94; 198; 73; 39; 172; 231; 215; 239; 17; 178;
   122; 63; 10; 3; 67; 72; 27; 206; 3; 81; 34; 149; 135; 213; 169; 159; 35; 3; 1; 110; 57; 4; 49; 7;
   41; 20; 31; 154; 15; 233; 170; 127].

Lemma rsa_pss_exact_witness : nx_rsa_verify_pss ex_rsa_locals ex_n ex_e NX_HASH_SHA256 ex_digest ex_pss_sig = Some 0.
Proof.
  destruct (rsa_pss_exact ex_rsa_locals ex_n ex_e NX_HASH_SHA256 ex_digest ex_pss_sig ex_rsa_locals_ok) as (r & Hr & _ & Hacc);
    [apply bytes_check; reflexivity..|reflexivity|].
  rewrite Hr. f_equal. apply Hacc. split; [by left|]. split; [|split].
  - vm_compute. split; [split; apply Nat.leb_le; reflexivity|]. split; [reflexivity|]. split; [split; apply Nat.leb_le; reflexivity|]. split; reflexivity.
  - vm_compute. discriminate.
  - exists (seqZ 0 32). split; [reflexivity|]. split; [apply bytes_check; reflexivity|]. vm_compute. reflexivity.
Defined.
