(* ===== verification/Chacha.v ===== *)
(** * ChaCha20, Poly1305 and their AEAD

    [lib/crypto/chacha.c] (RFC 8439).  Poly1305 works on five 26-bit limbs.  [None]
    stands for an access outside of a buffer or a loop that does not end within its
    fuel. *)
From S2P Require Import Prelude Bytes Blocks Hash.

(** ** ChaCha20 *)

Definition rotl (x n : Z) : Z := u32 (x <<. n) |. (x >>. (32 - n)).

(** [le32(p + i)] *)
Definition le32 (p : list Z) (i : Z) : Z :=
  p.[i] |. u32 (p.[i + 1] <<. 8) |. u32 (p.[i + 2] <<. 16) |. u32 (p.[i + 3] <<. 24).

(** The bytes that are written. *)
Definition put_le32 (v : Z) : list Z := [u8 v; u8 (v >>. 8); u8 (v >>. 16); u8 (v >>. 24)].

(** The quarter round on the words [a], [b], [c] and [d] of [x]. *)
Definition QR (a b c d : Z) (x : list Z) : list Z :=
  let x := x.[a := u32 (x.[a] + x.[b])] in
  let x := x.[d := rotl (x.[d] ^. x.[a]) 16] in
  let x := x.[c := u32 (x.[c] + x.[d])] in
  let x := x.[b := rotl (x.[b] ^. x.[c]) 12] in
  let x := x.[a := u32 (x.[a] + x.[b])] in
  let x := x.[d := rotl (x.[d] ^. x.[a]) 8] in
  let x := x.[c := u32 (x.[c] + x.[d])] in
  x.[b := rotl (x.[b] ^. x.[c]) 7].

Definition double_round (x : list Z) : list Z :=
  QR 3 4 9 14 (QR 2 7 8 13 (QR 1 6 11 12 (QR 0 5 10 15
    (QR 3 7 11 15 (QR 2 6 10 14 (QR 1 5 9 13 (QR 0 4 8 12 x))))))).

Definition initial_state (key : list Z) (counter : Z) (nonce : list Z) : list Z :=
  [0x61707865; 0x3320646e; 0x79622d32; 0x6b206574] ++ ((fun i => le32 key (4 * i)) <$> seqZ 0 8) ++
  [counter] ++ ((fun i => le32 nonce (4 * i)) <$> seqZ 0 3).

(** The 64 bytes written to [out]. *)
Definition nx_chacha20_block (key : list Z) (counter : Z) (nonce : list Z) : list Z :=
  let s := initial_state key counter nonce in
  let x := for_each (seqZ 0 10) (fun x _ => double_round x) s in
  concat ((fun i => put_le32 (u32 (x.[i] + s.[i]))) <$> seqZ 0 16).

(** The bytes written to [out]. *)
Fixpoint xor_loop (fuel : nat) (key : list Z) (counter : Z) (nonce inp : list Z) : option (list Z) :=
  let len := Z.of_nat (length inp) in
  if len =? 0 then Some []
  else
    match fuel with
    | O => None
    | S fuel =>
        let ks := nx_chacha20_block key counter nonce in
        let n := if len <? 64 then len else 64 in
        rest ← xor_loop fuel key (u32 (counter + 1)) nonce (drop (Z.to_nat n) inp);
        Some (((fun i => inp.[i] ^. ks.[i]) <$> seqZ 0 n) ++ rest)
    end.

Definition chacha20_xor (key : list Z) (counter : Z) (nonce inp : list Z) : option (list Z) :=
  xor_loop (length inp) key counter nonce inp.

(** ** Poly1305 *)

Record poly := mk_poly { p_r : list Z; p_h : list Z; p_pad : list Z; p_buf : list Z; p_buf_len : Z }.

(** The buffer keeps what it held. *)
Definition poly_init (p : poly) (key : list Z) : poly :=
  mk_poly
    [le32 key 0 &. 0x3ffffff; (le32 key 3 >>. 2) &. 0x3ffff03; (le32 key 6 >>. 4) &. 0x3ffc0ff;
     (le32 key 9 >>. 6) &. 0x3f03fff; (le32 key 12 >>. 8) &. 0x00fffff]
    [0; 0; 0; 0; 0] ((fun i => le32 key (16 + 4 * i)) <$> seqZ 0 4) (p_buf p) 0.

Definition M26 : Z := 0x3ffffff.

(** The new limbs, from the five products. *)
Definition poly_carry (d0 d1 d2 d3 d4 : Z) : list Z :=
  let c := u32 (d0 >>. 26) in
  let h0 := u32 d0 &. M26 in
  let d1 := u64 (d1 + c) in
  let c := u32 (d1 >>. 26) in
  let h1 := u32 d1 &. M26 in
  let d2 := u64 (d2 + c) in
  let c := u32 (d2 >>. 26) in
  let h2 := u32 d2 &. M26 in
  let d3 := u64 (d3 + c) in
  let c := u32 (d3 >>. 26) in
  let h3 := u32 d3 &. M26 in
  let d4 := u64 (d4 + c) in
  let c := u32 (d4 >>. 26) in
  let h4 := u32 d4 &. M26 in
  let h0 := u32 (h0 + u32 (c * 5)) in
  let c := h0 >>. 26 in
  let h0 := h0 &. M26 in
  let h1 := u32 (h1 + c) in
  [h0; h1; h2; h3; h4].

(** The limbs [h] after the block [m]. *)
Definition poly_block (r h m : list Z) (hibit : Z) : list Z :=
  let r0 := r.[0] in let r1 := r.[1] in let r2 := r.[2] in let r3 := r.[3] in let r4 := r.[4] in
  let s1 := u32 (r1 * 5) in let s2 := u32 (r2 * 5) in let s3 := u32 (r3 * 5) in let s4 := u32 (r4 * 5) in
  let h0 := u32 (h.[0] + (le32 m 0 &. M26)) in
  let h1 := u32 (h.[1] + ((le32 m 3 >>. 2) &. M26)) in
  let h2 := u32 (h.[2] + ((le32 m 6 >>. 4) &. M26)) in
  let h3 := u32 (h.[3] + ((le32 m 9 >>. 6) &. M26)) in
  let h4 := u32 (h.[4] + ((le32 m 12 >>. 8) |. hibit)) in
  let d0 := u64 (h0 * r0 + h1 * s4 + h2 * s3 + h3 * s2 + h4 * s1) in
  let d1 := u64 (h0 * r1 + h1 * r0 + h2 * s4 + h3 * s3 + h4 * s2) in
  let d2 := u64 (h0 * r2 + h1 * r1 + h2 * r0 + h3 * s4 + h4 * s3) in
  let d3 := u64 (h0 * r3 + h1 * r2 + h2 * r1 + h3 * r0 + h4 * s4) in
  let d4 := u64 (h0 * r4 + h1 * r3 + h2 * r2 + h3 * r1 + h4 * r0) in
  poly_carry d0 d1 d2 d3 d4.

Fixpoint poly_loop (fuel : nat) (p : poly) (m : list Z) : option poly :=
  let len := Z.of_nat (length m) in
  if len =? 0 then Some p
  else
    match fuel with
    | O => None
    | S fuel =>
        let '(mk_poly r h pad buf buf_len) := p in
        let n := u32 (16 - buf_len) in
        let n := if n >? len then len else n in
        buf ← blit buf buf_len (take (Z.to_nat n) m);
        let buf_len := u32 (buf_len + n) in
        let p := if buf_len =? 16 then mk_poly r (poly_block r h buf (1 <<. 24)) pad buf 0 else mk_poly r h pad buf buf_len in
        poly_loop fuel p (drop (Z.to_nat n) m)
    end.

Definition poly_update (p : poly) (m : list Z) : option poly := poly_loop (length m) p m.

Definition poly_pad (p : poly) : option poly :=
  let '(mk_poly r h pad buf buf_len) := p in
  if negb (buf_len =? 0) then
    buf ← blit buf buf_len (replicate (Z.to_nat (16 - buf_len)) 0);
    Some (mk_poly r (poly_block r h buf (1 <<. 24)) pad buf 0)
  else Some p.

(** The carries of [poly_final]. *)
Definition final_carry (h : list Z) : list Z :=
  let h0 := h.[0] in let h1 := h.[1] in let h2 := h.[2] in let h3 := h.[3] in let h4 := h.[4] in
  let c := h1 >>. 26 in
  let h1 := h1 &. M26 in
  let h2 := u32 (h2 + c) in
  let c := h2 >>. 26 in
  let h2 := h2 &. M26 in
  let h3 := u32 (h3 + c) in
  let c := h3 >>. 26 in
  let h3 := h3 &. M26 in
  let h4 := u32 (h4 + c) in
  let c := h4 >>. 26 in
  let h4 := h4 &. M26 in
  let h0 := u32 (h0 + u32 (c * 5)) in
  let c := h0 >>. 26 in
  let h0 := h0 &. M26 in
  let h1 := u32 (h1 + c) in
  [h0; h1; h2; h3; h4].

(** [h] or [g = h - p], without a branch. *)
Definition final_select (h : list Z) : list Z :=
  let h0 := h.[0] in let h1 := h.[1] in let h2 := h.[2] in let h3 := h.[3] in let h4 := h.[4] in
  let g0 := u32 (h0 + 5) in
  let c := g0 >>. 26 in
  let g0 := g0 &. M26 in
  let g1 := u32 (h1 + c) in
  let c := g1 >>. 26 in
  let g1 := g1 &. M26 in
  let g2 := u32 (h2 + c) in
  let c := g2 >>. 26 in
  let g2 := g2 &. M26 in
  let g3 := u32 (h3 + c) in
  let c := g3 >>. 26 in
  let g3 := g3 &. M26 in
  let g4 := u32 (h4 + c - (1 <<. 26)) in
  let mask := u32 ((g4 >>. 31) - 1) in
  let nmask := u32 (~. mask) in
  [(h0 &. nmask) |. (g0 &. mask); (h1 &. nmask) |. (g1 &. mask); (h2 &. nmask) |. (g2 &. mask);
   (h3 &. nmask) |. (g3 &. mask); (h4 &. nmask) |. (g4 &. mask)].

(** The limbs packed into words, and the sum with [pad] as bytes. *)
Definition final_add (h pad : list Z) : list Z :=
  let h0 := h.[0] in let h1 := h.[1] in let h2 := h.[2] in let h3 := h.[3] in let h4 := h.[4] in
  let w0 := (h0 |. u32 (h1 <<. 26)) &. 0xffffffff in
  let w1 := ((h1 >>. 6) |. u32 (h2 <<. 20)) &. 0xffffffff in
  let w2 := ((h2 >>. 12) |. u32 (h3 <<. 14)) &. 0xffffffff in
  let w3 := ((h3 >>. 18) |. u32 (h4 <<. 8)) &. 0xffffffff in
  let f := u64 (w0 + pad.[0]) in
  let w0 := u32 f in
  let f := u64 (w1 + pad.[1] + (f >>. 32)) in
  let w1 := u32 f in
  let f := u64 (w2 + pad.[2] + (f >>. 32)) in
  let w2 := u32 f in
  let f := u64 (w3 + pad.[3] + (f >>. 32)) in
  let w3 := u32 f in
  put_le32 w0 ++ put_le32 w1 ++ put_le32 w2 ++ put_le32 w3.

(** The 16 bytes written to [tag]. *)
Definition poly_final (p : poly) : option (list Z) :=
  let '(mk_poly r h pad buf buf_len) := p in
  h ← (if negb (buf_len =? 0) then
         buf ← blit buf buf_len [1];
         buf ← blit buf (buf_len + 1) (replicate (Z.to_nat (15 - buf_len)) 0);
         Some (poly_block r h buf 0)
       else Some h);
  Some (final_add (final_select (final_carry h)) pad).

(** [stack] is what the uninitialised [struct poly] holds. *)
Definition nx_poly1305 (stack : poly) (key msg : list Z) : option (list Z) :=
  p ← poly_update (poly_init stack key) msg;
  poly_final p.

(** ** The AEAD *)

Definition le64_bytes (v : Z) : list Z := (fun i => u8 (v >>. (8 * i))) <$> seqZ 0 8.

Definition aead_tag (stack : poly) (key nonce aad ct : list Z) : option (list Z) :=
  let block := nx_chacha20_block key 0 nonce in
  p ← poly_update (poly_init stack block) aad;
  p ← poly_pad p;
  p ← poly_update p ct;
  p ← poly_pad p;
  p ← poly_update p (le64_bytes (Z.of_nat (length aad)) ++ le64_bytes (Z.of_nat (length ct)));
  poly_final p.

(** The ciphertext and the tag. *)
Definition nx_chacha_seal (stack : poly) (key nonce aad pt : list Z) : option (list Z * list Z) :=
  ct ← chacha20_xor key 1 nonce pt;
  tag ← aead_tag stack key nonce aad ct;
  Some (ct, tag).

(** The result and what is written to [pt]. *)
Definition nx_chacha_open (stack : poly) (key nonce aad ct tag : list Z) : option (Z * list Z) :=
  want ← aead_tag stack key nonce aad ct;
  if negb (nx_ct_equal want tag 16) then Some (-1, replicate (length ct) 0)
  else
    pt ← chacha20_xor key 1 nonce ct;
    Some (0, pt).

(** ** Specification *)

Definition P1305 : Z := 2 ^ 130 - 5.

(** The clamp of RFC 8439, 2.5. *)
Definition CLAMP : Z := 0x0ffffffc0ffffffc0ffffffc0fffffff.

(** The number of a block: its bytes and a one after the last. *)
Definition block_num (b : list Z) : Z := le_dec (b ++ [1]).

(** The blocks of 16 bytes of [m], the last of which may be shorter. *)
Definition chunks (m : list Z) : list (list Z) := (fun i => take 16 (drop (i * 16) m)) <$> seq 0 ((length m + 15) / 16).

(** The accumulator after the blocks. *)
Definition poly_acc (r : Z) (bs : list (list Z)) (acc : Z) : Z :=
  fold_left (fun acc b => ((acc + block_num b) * r) mod P1305) bs acc.

(** Poly1305 of RFC 8439. *)
Definition poly1305 (key m : list Z) : list Z :=
  let r := le_dec (take 16 key) &. CLAMP in
  let s := le_dec (take 16 (drop 16 key)) in
  le_enc 16 ((poly_acc r (chunks m) 0 + s) mod 2 ^ 128).

(** The data the tag of the AEAD is computed on (RFC 8439, 2.8). *)
Definition pad16 (m : list Z) : list Z := m ++ replicate (Z.to_nat (- Z.of_nat (length m) mod 16)) 0.

Definition mac_data (aad ct : list Z) : list Z :=
  pad16 aad ++ pad16 ct ++ le_enc 8 (Z.of_nat (length aad)) ++ le_enc 8 (Z.of_nat (length ct)).

(** The ChaCha20 key stream. *)
Fixpoint keystream (n : nat) (key : list Z) (counter : Z) (nonce : list Z) : list Z :=
  match n with O => [] | S n => nx_chacha20_block key counter nonce ++ keystream n key (u32 (counter + 1)) nonce end.
