(* ===== verification/Poly.v ===== *)
(** * Poly1305: arithmetic modulo 2^130 - 5

    The limb operations of [Chacha] compute on the number [pval h] what RFC 8439 defines:
    a block multiplies into the accumulator modulo 2^130 - 5, and the end reduces it
    completely and adds the second half of the key modulo 2^128. *)
From S2P Require Import Prelude Bytes Blocks Hash Chacha.

(** ** Little-endian numbers *)

Lemma le_dec_app a b : le_dec (a ++ b) = le_dec a + 2 ^ (8 * Z.of_nat (length a)) * le_dec b.
Proof.
  induction a as [|x a IH]; [cbn [app le_dec length]; change (8 * Z.of_nat 0) with 0; lia|]. cbn [app le_dec length]. rewrite IH.
  replace (8 * Z.of_nat (S (length a))) with (8 + 8 * Z.of_nat (length a)) by lia. rewrite Z.pow_add_r by lia. ring.
Qed.

Lemma le_dec_split k b :
  Forall byte_ok b -> (k <= length b)%nat ->
  le_dec (take k b) = le_dec b mod 2 ^ (8 * Z.of_nat k) /\ le_dec (drop k b) = le_dec b / 2 ^ (8 * Z.of_nat k).
Proof.
  intros Hb Hk. pose proof (le_dec_app (take k b) (drop k b)) as E. rewrite take_drop, length_take, Nat.min_l in E by lia.
  pose proof (le_dec_bound (take k b) (Forall_take _ _ _ Hb)) as Ht. rewrite length_take, Nat.min_l in Ht by lia.
  split; [apply Z.mod_unique with (le_dec (drop k b))|apply Z.div_unique with (le_dec (take k b))]; lia.
Qed.

(** A slice of the low bits. *)
Lemma slice x w j k : 0 <= j -> 0 <= k -> j + k <= w -> (x mod 2 ^ w / 2 ^ j) mod 2 ^ k = x / 2 ^ j mod 2 ^ k.
Proof.
  intros Hj Hk Hw. apply Z.bits_inj'. intros i Hi. destruct (Z.ltb_spec i k).
  - by rewrite !Z.mod_pow2_bits_low, !Z.div_pow2_bits, Z.mod_pow2_bits_low by lia.
  - by rewrite !Z.mod_pow2_bits_high by lia.
Qed.

Lemma le32_4 a b c d : byte_ok a -> byte_ok b -> byte_ok c -> byte_ok d -> le32 [a; b; c; d] 0 = a + 2 ^ 8 * b + 2 ^ 16 * c + 2 ^ 24 * d.
Proof.
  unfold byte_ok. intros Ha Hb Hc Hd. unfold le32. cbn [Z.add Z.to_nat Pos.to_nat Pos.iter_op Init.Nat.add]. simpl (_ !!! _).
  rewrite !(wrap_small 32) by (unfold fits; rewrite Z.shiftl_mul_pow2 by lia; lia).
  rewrite (Z.lor_comm a), lor_shiftl by lia. rewrite (Z.lor_comm (b * 2 ^ 8 + a)), lor_shiftl by lia.
  rewrite (Z.lor_comm (c * 2 ^ 16 + _)), lor_shiftl by lia. lia.
Qed.

Lemma le32_spec p i :
  Forall byte_ok p -> 0 <= i -> i + 4 <= Z.of_nat (length p) -> le32 p i = le_dec p / 2 ^ (8 * i) mod 2 ^ 32.
Proof.
  intros Hp Hi Hl. set (k := Z.to_nat i). destruct (le_dec_split k p Hp ltac:(lia)) as [_ Hd].
  destruct (le_dec_split 4 (drop k p) (Forall_drop _ _ _ Hp) ltac:(rewrite length_drop; lia)) as [Ht _].
  rewrite Hd in Ht. replace (8 * Z.of_nat k) with (8 * i) in Ht by lia. change (8 * Z.of_nat 4) with 32 in Ht. rewrite <- Ht.
  assert (Hdl : (4 <= length (drop k p))%nat) by (rewrite length_drop; lia).
  assert (Hget : forall j, (j < 4)%nat -> p !!! Z.to_nat (i + Z.of_nat j) = drop k p !!! j).
  { intros j Hj. rewrite lookup_total_drop. f_equal. lia. }
  pose proof (Forall_drop _ k _ Hp) as Hb. destruct (drop k p) as [|a [|b [|c [|d t]]]] eqn:E; cbn [length] in Hdl; try lia.
  inversion Hb as [|? ? Ha Hb1]; inversion Hb1 as [|? ? Hb' Hb2]; inversion Hb2 as [|? ? Hc' Hb3]; inversion Hb3 as [|? ? Hd' Hb4]; subst.
  pose proof (Hget 0%nat ltac:(lia)) as G0. pose proof (Hget 1%nat ltac:(lia)) as G1. pose proof (Hget 2%nat ltac:(lia)) as G2. pose proof (Hget 3%nat ltac:(lia)) as G3.
  change (Z.of_nat 1) with 1 in G1. change (Z.of_nat 2) with 2 in G2. change (Z.of_nat 3) with 3 in G3. rewrite Z.add_0_r in G0. simpl in G0, G1, G2, G3. unfold le32. rewrite G0, G1, G2, G3. pose proof (le32_4 a b c d Ha Hb' Hc' Hd') as E4.
  unfold le32 in E4. simpl (_ !!! _) in E4. rewrite E4. cbn [take le_dec]. rewrite take_0. cbn [le_dec]. clear. lia.
Qed.

(** ** Limbs *)

Definition pval (h : list Z) : Z := h.[0] + 2 ^ 26 * h.[1] + 2 ^ 52 * h.[2] + 2 ^ 78 * h.[3] + 2 ^ 104 * h.[4].

Lemma pval5 a b c d e : pval [a; b; c; d; e] = a + 2 ^ 26 * b + 2 ^ 52 * c + 2 ^ 78 * d + 2 ^ 104 * e.
Proof. reflexivity. Qed.

Definition limb26 (x : Z) : Prop := 0 <= x < 2 ^ 26.

(** The limbs of the accumulator between blocks. *)
Definition acc_limbs (h : list Z) : Prop :=
  limb26 h.[0] /\ 0 <= h.[1] < 2 ^ 26 + 64 /\ limb26 h.[2] /\ limb26 h.[3] /\ limb26 h.[4].

Definition full_limbs (h : list Z) : Prop := limb26 h.[0] /\ limb26 h.[1] /\ limb26 h.[2] /\ limb26 h.[3] /\ limb26 h.[4].

Lemma full5 a b c d e : full_limbs [a; b; c; d; e] = (limb26 a /\ limb26 b /\ limb26 c /\ limb26 d /\ limb26 e).
Proof. reflexivity. Qed.

Lemma acc5 a b c d e : acc_limbs [a; b; c; d; e] = (limb26 a /\ 0 <= b < 2 ^ 26 + 64 /\ limb26 c /\ limb26 d /\ limb26 e).
Proof. reflexivity. Qed.

Lemma and_M26 x : x &. M26 = x mod 2 ^ 26.
Proof. change M26 with (Z.ones 26). apply Z.land_ones. lia. Qed.

Lemma shr26 x : x >>. 26 = x / 2 ^ 26.
Proof. apply Z.shiftr_div_pow2. lia. Qed.

(** The five limbs of a number. *)
Lemma limbs5 M : M mod 2 ^ 26 + 2 ^ 26 * (M / 2 ^ 26 mod 2 ^ 26) + 2 ^ 52 * (M / 2 ^ 52 mod 2 ^ 26) + 2 ^ 78 * (M / 2 ^ 78 mod 2 ^ 26) +
  2 ^ 104 * (M / 2 ^ 104) = M.
Proof.
  assert (E2 : M / 2 ^ 52 = M / 2 ^ 26 / 2 ^ 26) by (rewrite Z.div_div by lia; done).
  assert (E3 : M / 2 ^ 78 = M / 2 ^ 52 / 2 ^ 26) by (rewrite Z.div_div by lia; done).
  assert (E4 : M / 2 ^ 104 = M / 2 ^ 78 / 2 ^ 26) by (rewrite Z.div_div by lia; done).
  pose proof (Z.div_mod M (2 ^ 26) ltac:(lia)) as D1. pose proof (Z.div_mod (M / 2 ^ 26) (2 ^ 26) ltac:(lia)) as D2.
  pose proof (Z.div_mod (M / 2 ^ 52) (2 ^ 26) ltac:(lia)) as D3. pose proof (Z.div_mod (M / 2 ^ 78) (2 ^ 26) ltac:(lia)) as D4.
  rewrite <- E2 in D2. rewrite <- E3 in D3. rewrite <- E4 in D4.
  generalize dependent (M / 2 ^ 26). generalize dependent (M / 2 ^ 52). generalize dependent (M / 2 ^ 78). generalize dependent (M / 2 ^ 104). intros. lia.
Qed.

(** The limbs of a block of 16 bytes. *)
Lemma block_limbs m :
  Forall byte_ok m -> length m = 16%nat ->
  let M := le_dec m in
  le32 m 0 &. M26 = M mod 2 ^ 26 /\ (le32 m 3 >>. 2) &. M26 = M / 2 ^ 26 mod 2 ^ 26 /\ (le32 m 6 >>. 4) &. M26 = M / 2 ^ 52 mod 2 ^ 26 /\
  (le32 m 9 >>. 6) &. M26 = M / 2 ^ 78 mod 2 ^ 26 /\ le32 m 12 >>. 8 = M / 2 ^ 104 /\ 0 <= M < 2 ^ 128.
Proof.
  intros Hm Hl M. pose proof (le_dec_bound m Hm) as Hb. rewrite Hl in Hb. change (8 * Z.of_nat 16) with 128 in Hb. fold M in Hb.
  rewrite !and_M26, !Z.shiftr_div_pow2, !le32_spec by (done || lia). fold M.
  rewrite (slice _ 32 2 26), (slice _ 32 4 26), (slice _ 32 6 26), !Z.div_div by lia. rewrite <- !Z.pow_add_r by lia.
  split_and!; try done; try lia.
  - change (8 * 0) with 0. rewrite Z.pow_0_r, Z.div_1_r. pose proof (slice M 32 0 26 ltac:(lia) ltac:(lia) ltac:(lia)) as S0. by rewrite Z.pow_0_r, !Z.div_1_r in S0.
  - rewrite Z.mod_small; [rewrite Z.div_div by lia; by rewrite <- Z.pow_add_r by lia|]. split; [apply Z.div_pos; lia|].
    apply Z.div_lt_upper_bound; [lia|]. rewrite <- Z.pow_add_r by lia. exact (proj2 Hb).
Qed.

(** One carry: what goes to the next limb and the limb that stays. *)
Lemma carry_hi d : 0 <= d < 2 ^ 58 -> u32 (d >>. 26) = d / 2 ^ 26.
Proof.
  intros Hd. rewrite shr26. apply wrap_small. split; [apply Z.div_pos; lia|]. apply Z.div_lt_upper_bound; lia.
Qed.

Lemma carry_lo d : 0 <= d -> u32 d &. M26 = d mod 2 ^ 26.
Proof.
  intros Hd. rewrite and_M26. unfold wrap. pose proof (slice d 32 0 26 ltac:(lia) ltac:(lia) ltac:(lia)) as E.
  by rewrite Z.pow_0_r, !Z.div_1_r in E.
Qed.

(** The quotient and the rest, for [lia]. *)
Ltac split26 d :=
  let c := fresh "c" in let x := fresh "x" in
  pose proof (Z.div_mod d (2 ^ 26) ltac:(lia)); pose proof (Z.mod_pos_bound d (2 ^ 26) ltac:(lia));
  set (c := d / 2 ^ 26) in *; set (x := d mod 2 ^ 26) in *; clearbody c x.

Lemma poly_carry_spec d0 d1 d2 d3 d4 :
  0 <= d0 < 2 ^ 57 + 2 ^ 56 -> 0 <= d1 < 2 ^ 57 + 2 ^ 56 -> 0 <= d2 < 2 ^ 57 + 2 ^ 56 -> 0 <= d3 < 2 ^ 57 + 2 ^ 56 -> 0 <= d4 < 2 ^ 55 + 2 ^ 54 ->
  let h := poly_carry d0 d1 d2 d3 d4 in
  acc_limbs h /\ exists k, pval h + P1305 * k = d0 + 2 ^ 26 * d1 + 2 ^ 52 * d2 + 2 ^ 78 * d3 + 2 ^ 104 * d4.
Proof.
  intros H0 H1 H2 H3 H4. unfold poly_carry. rewrite (carry_hi d0), (carry_lo d0) by lia. split26 d0.
  rewrite (wrap_small 64 (d1 + c)) by (unfold fits; lia). rewrite (carry_hi (d1 + c)), (carry_lo (d1 + c)) by lia. split26 (d1 + c).
  rewrite (wrap_small 64 (d2 + c0)) by (unfold fits; lia). rewrite (carry_hi (d2 + c0)), (carry_lo (d2 + c0)) by lia. split26 (d2 + c0).
  rewrite (wrap_small 64 (d3 + c1)) by (unfold fits; lia). rewrite (carry_hi (d3 + c1)), (carry_lo (d3 + c1)) by lia. split26 (d3 + c1).
  rewrite (wrap_small 64 (d4 + c2)) by (unfold fits; lia). rewrite (carry_hi (d4 + c2)), (carry_lo (d4 + c2)) by lia. split26 (d4 + c2).
  rewrite (wrap_small 32 (c3 * 5)) by (unfold fits; lia). rewrite (wrap_small 32 (x + c3 * 5)) by (unfold fits; lia).
  rewrite shr26, and_M26. split26 (x + c3 * 5). rewrite (wrap_small 32 (x0 + c4)) by (unfold fits; lia).
  rewrite acc5, pval5. unfold limb26, P1305. split; [lia|]. exists c3. lia.
Qed.

Lemma dot_bound H S h0 h1 h2 h3 h4 a b c d e :
  0 <= h0 <= H -> 0 <= h1 <= H -> 0 <= h2 <= H -> 0 <= h3 <= H -> 0 <= h4 <= H -> 0 <= a -> 0 <= b -> 0 <= c -> 0 <= d -> 0 <= e ->
  a + b + c + d + e <= S -> 0 <= h0 * a + h1 * b + h2 * c + h3 * d + h4 * e <= H * S.
Proof.
  intros. assert (G : forall x y, 0 <= x <= H -> 0 <= y -> 0 <= x * y <= H * y) by (intros; split; nia).
  pose proof (G h0 a ltac:(lia) ltac:(lia)). pose proof (G h1 b ltac:(lia) ltac:(lia)). pose proof (G h2 c ltac:(lia) ltac:(lia)).
  pose proof (G h3 d ltac:(lia) ltac:(lia)). pose proof (G h4 e ltac:(lia) ltac:(lia)).
  assert (H * (a + b + c + d + e) <= H * S) by (apply Z.mul_le_mono_nonneg_l; lia). lia.
Qed.

Lemma mod_from_sum x y k : x + P1305 * k = y -> x mod P1305 = y mod P1305.
Proof. intros <-. rewrite Z.mul_comm, Z.mod_add by done. done. Qed.

(** The products, reduced. *)
Lemma poly_mul_spec r0 r1 r2 r3 r4 g0 g1 g2 g3 g4 :
  limb26 r0 -> limb26 r1 -> limb26 r2 -> limb26 r3 -> limb26 r4 ->
  0 <= g0 <= 2 ^ 27 + 64 -> 0 <= g1 <= 2 ^ 27 + 64 -> 0 <= g2 <= 2 ^ 27 + 64 -> 0 <= g3 <= 2 ^ 27 + 64 -> 0 <= g4 <= 2 ^ 27 + 64 ->
  let h := poly_carry (u64 (g0 * r0 + g1 * (r4 * 5) + g2 * (r3 * 5) + g3 * (r2 * 5) + g4 * (r1 * 5)))
                      (u64 (g0 * r1 + g1 * r0 + g2 * (r4 * 5) + g3 * (r3 * 5) + g4 * (r2 * 5)))
                      (u64 (g0 * r2 + g1 * r1 + g2 * r0 + g3 * (r4 * 5) + g4 * (r3 * 5)))
                      (u64 (g0 * r3 + g1 * r2 + g2 * r1 + g3 * r0 + g4 * (r4 * 5)))
                      (u64 (g0 * r4 + g1 * r3 + g2 * r2 + g3 * r1 + g4 * r0)) in
  acc_limbs h /\ pval h mod P1305 = (pval [g0; g1; g2; g3; g4] * pval [r0; r1; r2; r3; r4]) mod P1305.
Proof.
  unfold limb26. intros R0 R1 R2 R3 R4 G0 G1 G2 G3 G4.
  pose proof (dot_bound (2 ^ 27 + 64) (21 * 2 ^ 26) g0 g1 g2 g3 g4 r0 (r4 * 5) (r3 * 5) (r2 * 5) (r1 * 5) G0 G1 G2 G3 G4 ltac:(lia) ltac:(lia) ltac:(lia) ltac:(lia) ltac:(lia) ltac:(lia)) as D0.
  pose proof (dot_bound (2 ^ 27 + 64) (21 * 2 ^ 26) g0 g1 g2 g3 g4 r1 r0 (r4 * 5) (r3 * 5) (r2 * 5) G0 G1 G2 G3 G4 ltac:(lia) ltac:(lia) ltac:(lia) ltac:(lia) ltac:(lia) ltac:(lia)) as D1.
  pose proof (dot_bound (2 ^ 27 + 64) (21 * 2 ^ 26) g0 g1 g2 g3 g4 r2 r1 r0 (r4 * 5) (r3 * 5) G0 G1 G2 G3 G4 ltac:(lia) ltac:(lia) ltac:(lia) ltac:(lia) ltac:(lia) ltac:(lia)) as D2.
  pose proof (dot_bound (2 ^ 27 + 64) (21 * 2 ^ 26) g0 g1 g2 g3 g4 r3 r2 r1 r0 (r4 * 5) G0 G1 G2 G3 G4 ltac:(lia) ltac:(lia) ltac:(lia) ltac:(lia) ltac:(lia) ltac:(lia)) as D3.
  pose proof (dot_bound (2 ^ 27 + 64) (5 * 2 ^ 26) g0 g1 g2 g3 g4 r4 r3 r2 r1 r0 G0 G1 G2 G3 G4 ltac:(lia) ltac:(lia) ltac:(lia) ltac:(lia) ltac:(lia) ltac:(lia)) as D4.
  remember (g0 * r0 + g1 * (r4 * 5) + g2 * (r3 * 5) + g3 * (r2 * 5) + g4 * (r1 * 5)) as d0 eqn:E0.
  remember (g0 * r1 + g1 * r0 + g2 * (r4 * 5) + g3 * (r3 * 5) + g4 * (r2 * 5)) as d1 eqn:E1.
  remember (g0 * r2 + g1 * r1 + g2 * r0 + g3 * (r4 * 5) + g4 * (r3 * 5)) as d2 eqn:E2.
  remember (g0 * r3 + g1 * r2 + g2 * r1 + g3 * r0 + g4 * (r4 * 5)) as d3 eqn:E3.
  remember (g0 * r4 + g1 * r3 + g2 * r2 + g3 * r1 + g4 * r0) as d4 eqn:E4.
  assert (P1 : (2 ^ 27 + 64) * (21 * 2 ^ 26) < 2 ^ 57 + 2 ^ 56) by reflexivity. assert (P2 : (2 ^ 27 + 64) * (5 * 2 ^ 26) < 2 ^ 55 + 2 ^ 54) by reflexivity.
  rewrite (wrap_small 64 d0), (wrap_small 64 d1), (wrap_small 64 d2), (wrap_small 64 d3), (wrap_small 64 d4) by (unfold fits; clear E0 E1 E2 E3 E4; lia).
  destruct (poly_carry_spec d0 d1 d2 d3 d4) as [HA [k Hk]]; [clear E0 E1 E2 E3 E4; lia..|]. split; [exact HA|].
  apply mod_from_sum with (k + (g1 * r4 + g2 * r3 + g3 * r2 + g4 * r1 + 2 ^ 26 * (g2 * r4 + g3 * r3 + g4 * r2) + 2 ^ 52 * (g3 * r4 + g4 * r3) + 2 ^ 78 * (g4 * r4))).
  rewrite Z.mul_add_distr_l, Z.add_assoc, Hk, E0, E1, E2, E3, E4, !pval5. unfold P1305. ring.
Qed.

(** A block of 16 bytes, with the bit [hibit] above it, multiplies into the accumulator. *)
Lemma poly_block_spec r h m hibit :
  full_limbs r -> acc_limbs h -> Forall byte_ok m -> length m = 16%nat -> hibit = 0 \/ hibit = 2 ^ 24 ->
  let h' := poly_block r h m hibit in
  acc_limbs h' /\ pval h' mod P1305 = ((pval h + le_dec m + hibit * 2 ^ 104) * pval r) mod P1305.
Proof.
  intros (R0 & R1 & R2 & R3 & R4) (A0 & A1 & A2 & A3 & A4) Hm Hl Hhi.
  destruct (block_limbs m Hm Hl) as (E0 & E1 & E2 & E3 & E4 & HM). pose proof (limbs5 (le_dec m)) as H5. unfold poly_block. rewrite E0, E1, E2, E3, E4.
  pose proof (Z.mod_pos_bound (le_dec m) (2 ^ 26) ltac:(lia)) as B0. pose proof (Z.mod_pos_bound (le_dec m / 2 ^ 26) (2 ^ 26) ltac:(lia)) as B1.
  pose proof (Z.mod_pos_bound (le_dec m / 2 ^ 52) (2 ^ 26) ltac:(lia)) as B2. pose proof (Z.mod_pos_bound (le_dec m / 2 ^ 78) (2 ^ 26) ltac:(lia)) as B3.
  assert (B4 : 0 <= le_dec m / 2 ^ 104 < 2 ^ 24) by (split; [apply Z.div_pos; lia|apply Z.div_lt_upper_bound; lia]).
  assert (Eor : (le_dec m / 2 ^ 104) |. hibit = le_dec m / 2 ^ 104 + hibit).
  { destruct Hhi as [-> | ->]; [by rewrite Z.lor_0_r, Z.add_0_r|]. rewrite Z.lor_comm. change (2 ^ 24) with (1 <<. 24) at 1.
    rewrite lor_shiftl by lia. lia. }
  rewrite Eor. clear E0 E1 E2 E3 E4 Eor. unfold limb26 in A0, A2, A3, A4.
  set (m0 := le_dec m mod 2 ^ 26) in *. set (m1 := (le_dec m / 2 ^ 26) mod 2 ^ 26) in *. set (m2 := (le_dec m / 2 ^ 52) mod 2 ^ 26) in *.
  set (m3 := (le_dec m / 2 ^ 78) mod 2 ^ 26) in *. set (m4 := le_dec m / 2 ^ 104) in *. clearbody m0 m1 m2 m3 m4.
  assert (Hs : forall x, limb26 x -> u32 (x * 5) = x * 5) by (unfold limb26; intros; apply wrap_small; unfold fits; lia).
  rewrite !Hs by done.
  rewrite (wrap_small 32 (h.[0] + m0)), (wrap_small 32 (h.[1] + m1)), (wrap_small 32 (h.[2] + m2)), (wrap_small 32 (h.[3] + m3)),
    (wrap_small 32 (h.[4] + (m4 + hibit))) by (unfold fits; lia).
  match goal with |- context [poly_carry (u64 (?g0 * _ + ?g1 * _ + ?g2 * _ + ?g3 * _ + ?g4 * _)) _ _ _ _] =>
    destruct (poly_mul_spec (r.[0]) (r.[1]) (r.[2]) (r.[3]) (r.[4]) g0 g1 g2 g3 g4) as [HA HV]; [done..|lia|lia|lia|lia|lia|] end.
  split; [exact HA|]. rewrite HV. f_equal. rewrite !pval5, <- H5. unfold pval. ring.
Qed.

(** ** The end *)

Lemma final_carry_spec h : acc_limbs h -> full_limbs (final_carry h) /\ pval (final_carry h) mod P1305 = pval h mod P1305.
Proof.
  intros (A0 & A1 & A2 & A3 & A4). unfold limb26 in *. unfold final_carry, pval at 2.
  generalize dependent (h.[0]). generalize dependent (h.[1]). generalize dependent (h.[2]). generalize dependent (h.[3]). generalize dependent (h.[4]).
  intros h4 A4 h3 A3 h2 A2 h1 A1 h0 A0. rewrite !shr26, !and_M26.
  split26 h1. rewrite (wrap_small 32 (h2 + c)) by (unfold fits; lia). split26 (h2 + c).
  rewrite (wrap_small 32 (h3 + c0)) by (unfold fits; lia). split26 (h3 + c0).
  rewrite (wrap_small 32 (h4 + c1)) by (unfold fits; lia). split26 (h4 + c1).
  rewrite (wrap_small 32 (c2 * 5)) by (unfold fits; lia). rewrite (wrap_small 32 (h0 + c2 * 5)) by (unfold fits; lia). split26 (h0 + c2 * 5).
  rewrite (wrap_small 32 (x + c3)) by (unfold fits; lia). split.
  - rewrite full5. unfold limb26. lia.
  - rewrite pval5. apply mod_from_sum with c2. unfold P1305. lia.
Qed.

(** The masks select one of two limbs. *)
Lemma select_mask a b (g : bool) :
  0 <= a < 2 ^ 32 -> 0 <= b < 2 ^ 32 ->
  let mask := u32 ((if g then 0 else 1) - 1) in (a &. u32 (~. mask)) |. (b &. mask) = if g then b else a.
Proof.
  intros Ha Hb. destruct g; cbv zeta.
  - change (u32 (0 - 1)) with (Z.ones 32). change (u32 (~. (Z.ones 32))) with 0. rewrite Z.land_0_r, Z.land_ones, Z.lor_0_l by lia. apply Z.mod_small. lia.
  - change (u32 (1 - 1)) with 0. change (u32 (~. 0)) with (Z.ones 32). rewrite Z.land_0_r, Z.land_ones, Z.lor_0_r by lia. apply Z.mod_small. lia.
Qed.

Lemma final_select_spec h : full_limbs h -> full_limbs (final_select h) /\ pval (final_select h) = pval h mod P1305.
Proof.
  intros (A0 & A1 & A2 & A3 & A4). unfold limb26 in *. unfold final_select, pval at 2.
  generalize dependent (h.[0]). generalize dependent (h.[1]). generalize dependent (h.[2]). generalize dependent (h.[3]). generalize dependent (h.[4]).
  intros h4 A4 h3 A3 h2 A2 h1 A1 h0 A0. rewrite !shr26, !and_M26.
  rewrite (wrap_small 32 (h0 + 5)) by (unfold fits; lia). split26 (h0 + 5).
  rewrite (wrap_small 32 (h1 + c)) by (unfold fits; lia). split26 (h1 + c).
  rewrite (wrap_small 32 (h2 + c0)) by (unfold fits; lia). split26 (h2 + c0).
  rewrite (wrap_small 32 (h3 + c1)) by (unfold fits; lia). split26 (h3 + c1).
  change (1 <<. 26) with (2 ^ 26). set (g4 := u32 (h4 + c2 - 2 ^ 26)). set (sel := 2 ^ 26 <=? h4 + c2).
  assert (Hg : 0 <= g4 < 2 ^ 32 /\ g4 >>. 31 = if sel then 0 else 1).
  { unfold g4, sel. split; [apply wrap_fits; lia|]. rewrite Z.shiftr_div_pow2 by lia. destruct (Z.leb_spec (2 ^ 26) (h4 + c2)).
    - rewrite wrap_small by (unfold fits; lia). apply Z.div_small. lia.
    - unfold wrap. replace ((h4 + c2 - 2 ^ 26) mod 2 ^ 32) with (h4 + c2 - 2 ^ 26 + 2 ^ 32) by (apply Z.mod_unique with (-1); lia).
      symmetry. apply Z.div_unique with (h4 + c2 - 2 ^ 26 + 2 ^ 32 - 2 ^ 31); lia. }
  destruct Hg as [Hg ->]. rewrite !select_mask by lia.
  assert (Hs : if sel then g4 = 0 /\ h4 + c2 = 2 ^ 26 else h4 + c2 < 2 ^ 26).
  { unfold sel, g4. destruct (Z.leb_spec (2 ^ 26) (h4 + c2)); [|done]. assert (h4 + c2 = 2 ^ 26) as -> by lia. done. }
  clearbody sel. rewrite full5, pval5. unfold limb26, P1305. destruct sel.
  - destruct Hs as [-> Hs]. split; [lia|]. apply Z.mod_unique with 1; lia.
  - split; [lia|]. symmetry. apply Z.mod_small. lia.
Qed.

(** Two limbs packed into a word. *)
Lemma pack_word lo hi k :
  0 <= k < 32 -> 0 <= lo < 2 ^ k -> 0 <= hi -> (lo |. u32 (hi <<. k)) &. 0xffffffff = lo + 2 ^ k * (hi mod 2 ^ (32 - k)).
Proof.
  intros Hk Hlo Hhi. change 0xffffffff with (Z.ones 32). rewrite Z.land_ones, Z.shiftl_mul_pow2 by lia. unfold wrap.
  assert (E : 2 ^ 32 = 2 ^ (32 - k) * 2 ^ k) by (rewrite <- Z.pow_add_r by lia; f_equal; lia).
  assert (Hp : 0 < 2 ^ k) by (apply Z.pow_pos_nonneg; lia). assert (Hq : 0 < 2 ^ (32 - k)) by (apply Z.pow_pos_nonneg; lia).
  rewrite E, Z.mul_mod_distr_r by lia. pose proof (Z.mod_pos_bound hi (2 ^ (32 - k)) Hq) as Hm. set (x := hi mod 2 ^ (32 - k)) in *.
  rewrite <- (Z.shiftl_mul_pow2 x) by lia. rewrite Z.lor_comm, lor_shiftl by lia. rewrite Z.mod_small by nia. lia.
Qed.

Lemma le_enc_app a b x : le_enc (a + b) x = le_enc a x ++ le_enc b (x / 2 ^ (8 * Z.of_nat a)).
Proof.
  revert x. induction a as [|a IH]; intros x; cbn [plus le_enc app]; [by rewrite Z.div_1_r|]. rewrite IH. do 2 f_equal. change 256 with (2 ^ 8).
  replace (8 * Z.of_nat (S a)) with (8 + 8 * Z.of_nat a) by lia. by rewrite Z.div_div, Z.pow_add_r by lia.
Qed.

Lemma le_enc_mod n x k : 8 * Z.of_nat n <= k -> le_enc n (x mod 2 ^ k) = le_enc n x.
Proof.
  revert x k. induction n as [|n IH]; intros x k Hk; [done|]. cbn [le_enc]. change 256 with (2 ^ 8).
  pose proof (slice x k 0 8 ltac:(lia) ltac:(lia) ltac:(lia)) as E. rewrite Z.pow_0_r, !Z.div_1_r in E. rewrite E. f_equal.
  rewrite <- (IH (x / 2 ^ 8) (k - 8)) by lia. f_equal.
  replace k with (8 + (k - 8)) at 1 by lia. rewrite Z.pow_add_r, Z.rem_mul_r by lia.
  rewrite (Z.mul_comm (2 ^ 8)), Z.div_add by lia. rewrite (Z.div_small (x mod 2 ^ 8)) by (apply Z.mod_pos_bound; lia). lia.
Qed.

Lemma put_le32_enc v : put_le32 v = le_enc 4 v.
Proof.
  unfold put_le32. cbn [le_enc]. rewrite !Z.div_div by lia. unfold u8, wrap. by rewrite !Z.shiftr_div_pow2 by lia.
Qed.

(** Four words as bytes. *)
Lemma words_enc t0 t1 t2 t3 c X :
  X = t0 + 2 ^ 32 * t1 + 2 ^ 64 * t2 + 2 ^ 96 * t3 + 2 ^ 128 * c -> 0 <= t0 < 2 ^ 32 -> 0 <= t1 < 2 ^ 32 -> 0 <= t2 < 2 ^ 32 -> 0 <= t3 < 2 ^ 32 ->
  le_enc 16 (X mod 2 ^ 128) = put_le32 t0 ++ put_le32 t1 ++ put_le32 t2 ++ put_le32 t3.
Proof.
  intros -> H0 H1 H2 H3. rewrite le_enc_mod by done. change 16%nat with (4 + (4 + (4 + 4)))%nat. rewrite !le_enc_app, !put_le32_enc.
  change (8 * Z.of_nat 4) with 32.
  rewrite <- (le_enc_mod 4 (t0 + _ + _ + _ + _) 32) by done. rewrite <- (le_enc_mod 4 (_ / 2 ^ 32) 32) by done.
  rewrite <- (le_enc_mod 4 (_ / 2 ^ 32 / 2 ^ 32) 32) by done. rewrite <- (le_enc_mod 4 (_ / 2 ^ 32 / 2 ^ 32 / 2 ^ 32) 32) by done.
  set (y0 := t0 + _ + _ + _ + _). set (y3 := t3 + 2 ^ 32 * c). set (y2 := t2 + 2 ^ 32 * y3). set (y1 := t1 + 2 ^ 32 * y2).
  assert (E0 : y0 = t0 + 2 ^ 32 * y1) by (unfold y0, y1, y2, y3; lia).
  assert (D0 : y0 / 2 ^ 32 = y1) by (symmetry; apply Z.div_unique with t0; lia). rewrite D0.
  assert (D1 : y1 / 2 ^ 32 = y2) by (symmetry; apply Z.div_unique with t1; lia). rewrite D1.
  assert (D2 : y2 / 2 ^ 32 = y3) by (symmetry; apply Z.div_unique with t2; lia). rewrite D2.
  assert (M0 : y0 mod 2 ^ 32 = t0) by (symmetry; apply Z.mod_unique with y1; lia). assert (M1 : y1 mod 2 ^ 32 = t1) by (symmetry; apply Z.mod_unique with y2; lia).
  assert (M2 : y2 mod 2 ^ 32 = t2) by (symmetry; apply Z.mod_unique with y3; lia). assert (M3 : y3 mod 2 ^ 32 = t3) by (symmetry; apply Z.mod_unique with c; lia).
  rewrite M0, M1, M2, M3. done.
Qed.

Definition wval (w : list Z) : Z := w.[0] + 2 ^ 32 * w.[1] + 2 ^ 64 * w.[2] + 2 ^ 96 * w.[3].
Definition word32 (x : Z) : Prop := 0 <= x < 2 ^ 32.
Definition words (w : list Z) : Prop := word32 w.[0] /\ word32 w.[1] /\ word32 w.[2] /\ word32 w.[3].

(** The quotient and the rest by a power of two, for [lia]. *)
Ltac split_at d k :=
  let c := fresh "a" in let x := fresh "b" in
  pose proof (Z.div_mod d (2 ^ k) ltac:(lia)); pose proof (Z.mod_pos_bound d (2 ^ k) ltac:(lia));
  set (c := d / 2 ^ k) in *; set (x := d mod 2 ^ k) in *; clearbody c x.

(** The sum of two numbers of four words, modulo 2^128. *)
Lemma add_words w0 w1 w2 w3 p0 p1 p2 p3 :
  word32 w0 -> word32 w1 -> word32 w2 -> word32 w3 -> word32 p0 -> word32 p1 -> word32 p2 -> word32 p3 ->
  let f0 := u64 (w0 + p0) in let f1 := u64 (w1 + p1 + (f0 >>. 32)) in
  let f2 := u64 (w2 + p2 + (f1 >>. 32)) in let f3 := u64 (w3 + p3 + (f2 >>. 32)) in
  put_le32 (u32 f0) ++ put_le32 (u32 f1) ++ put_le32 (u32 f2) ++ put_le32 (u32 f3) =
  le_enc 16 ((w0 + 2 ^ 32 * w1 + 2 ^ 64 * w2 + 2 ^ 96 * w3 + (p0 + 2 ^ 32 * p1 + 2 ^ 64 * p2 + 2 ^ 96 * p3)) mod 2 ^ 128).
Proof.
  unfold word32. intros W0 W1 W2 W3 P0 P1 P2 P3. cbv zeta. rewrite !Z.shiftr_div_pow2 by lia.
  rewrite (wrap_small 64 (w0 + p0)) by (unfold fits; lia). unfold wrap at 1. split_at (w0 + p0) 32.
  rewrite (wrap_small 64 (w1 + p1 + a)) by (unfold fits; lia). unfold wrap at 1. split_at (w1 + p1 + a) 32.
  rewrite (wrap_small 64 (w2 + p2 + a0)) by (unfold fits; lia). unfold wrap at 1. split_at (w2 + p2 + a0) 32.
  rewrite (wrap_small 64 (w3 + p3 + a1)) by (unfold fits; lia). unfold wrap at 1. split_at (w3 + p3 + a1) 32.
  symmetry. apply words_enc with a2; lia.
Qed.

Lemma final_add_spec h pad :
  full_limbs h -> words pad -> final_add h pad = le_enc 16 ((pval h + wval pad) mod 2 ^ 128).
Proof.
  intros (A0 & A1 & A2 & A3 & A4) (W0 & W1 & W2 & W3). unfold limb26 in *. unfold final_add, pval, wval.
  generalize dependent (h.[0]). generalize dependent (h.[1]). generalize dependent (h.[2]). generalize dependent (h.[3]). generalize dependent (h.[4]).
  intros h4 A4 h3 A3 h2 A2 h1 A1 h0 A0. rewrite (Z.shiftr_div_pow2 h1), (Z.shiftr_div_pow2 h2), (Z.shiftr_div_pow2 h3) by lia.
  assert (B1 : 0 <= h1 / 2 ^ 6 < 2 ^ 20) by (split; [apply Z.div_pos; lia|apply Z.div_lt_upper_bound; lia]).
  assert (B2 : 0 <= h2 / 2 ^ 12 < 2 ^ 14) by (split; [apply Z.div_pos; lia|apply Z.div_lt_upper_bound; lia]).
  assert (B3 : 0 <= h3 / 2 ^ 18 < 2 ^ 8) by (split; [apply Z.div_pos; lia|apply Z.div_lt_upper_bound; lia]).
  rewrite !pack_word by lia. change (32 - 26) with 6. change (32 - 20) with 12. change (32 - 14) with 18. change (32 - 8) with 24.
  split_at h1 6. split_at h2 12. split_at h3 18. split_at h4 24.
  rewrite add_words by (unfold word32 in *; lia). f_equal.
  match goal with |- ?x mod _ = ?y mod _ => replace y with (x + a2 * 2 ^ 128) by lia end. symmetry. apply Z.mod_add. lia.
Qed.
