(* ===== verification/ChachaThm.v ===== *)
(** * ChaCha20-Poly1305: the authenticated encryption

    Poly1305 as the code computes it, block by block, is the one of RFC 8439; the tag of
    the AEAD is Poly1305 of the padded data under the one-time key, and what is sealed
    is opened again. *)
From S2P Require Import Prelude Bytes Blocks Hash Chacha Poly.

(** ** The key *)

Lemma le32_take p n i : 0 <= i -> i + 4 <= Z.of_nat n -> le32 (take n p) i = le32 p i.
Proof. intros Hi Hn. unfold le32. by rewrite !lookup_total_take_lt by lia. Qed.

Lemma limb_land M C j : 0 <= j -> (M &. C) / 2 ^ j mod 2 ^ 26 = (M / 2 ^ j mod 2 ^ 26) &. (C / 2 ^ j mod 2 ^ 26).
Proof.
  intros Hj. rewrite <- !Z.shiftr_div_pow2, <- !Z.land_ones, Z.shiftr_land by lia.
  apply Z.bits_inj'. intros i Hi. rewrite !Z.land_spec. destruct (Z.testbit (Z.ones 26) i); by rewrite ?andb_true_r, ?andb_false_r.
Qed.

(** A mask inside the 26 bits. *)
Lemma land_in_26 x k : 0 <= k < 2 ^ 26 -> x &. k = (x mod 2 ^ 26) &. k.
Proof.
  intros Hk. rewrite <- (Z.mod_small k (2 ^ 26)) at 1 by done. rewrite <- !Z.land_ones by lia.
  apply Z.bits_inj'. intros i Hi. rewrite !Z.land_spec. destruct (Z.testbit (Z.ones 26) i); by rewrite ?andb_true_r, ?andb_false_r.
Qed.

Lemma poly_init_r stack key :
  Forall byte_ok key -> (16 <= length key)%nat ->
  full_limbs (p_r (poly_init stack key)) /\ pval (p_r (poly_init stack key)) = le_dec (take 16 key) &. CLAMP.
Proof.
  intros Hk Hl. unfold poly_init. cbn [p_r]. rewrite full5, pval5.
  destruct (block_limbs (take 16 key)) as (E0 & E1 & E2 & E3 & E4 & HM); [by apply Forall_take|rewrite length_take; lia|].
  rewrite !le32_take in * by lia. set (M := le_dec (take 16 key)) in *. rewrite !and_M26 in *.
  rewrite (land_in_26 (_ >>. 2)), (land_in_26 (_ >>. 4)), (land_in_26 (_ >>. 6)), E1, E2, E3, E4, E0 by lia.
  change 0x3ffff03 with (CLAMP / 2 ^ 26 mod 2 ^ 26). change 0x3ffc0ff with (CLAMP / 2 ^ 52 mod 2 ^ 26). change 0x3f03fff with (CLAMP / 2 ^ 78 mod 2 ^ 26).
  rewrite <- !limb_land by lia.
  assert (H0 : M mod 2 ^ 26 = (M &. CLAMP) mod 2 ^ 26).
  { pose proof (limb_land M CLAMP 0 ltac:(lia)) as G. rewrite Z.pow_0_r, !Z.div_1_r in G. rewrite G. change (CLAMP mod 2 ^ 26) with (Z.ones 26).
    rewrite Z.land_ones, Z.mod_mod by lia. done. }
  assert (H4 : M / 2 ^ 104 &. 0xfffff = (M &. CLAMP) / 2 ^ 104).
  { change 0xfffff with (CLAMP / 2 ^ 104). by rewrite <- !Z.shiftr_div_pow2, Z.shiftr_land by lia. }
  rewrite H0, H4, limbs5. split; [|done]. unfold limb26. split_and!; try (apply Z.mod_pos_bound; lia); rewrite <- H4;
    [apply Z.land_nonneg; lia|]. change 0xfffff with (Z.ones 20). rewrite Z.land_ones by lia. pose proof (Z.mod_pos_bound (M / 2 ^ 104) (2 ^ 20)). lia.
Qed.

Lemma poly_init_pad stack key :
  Forall byte_ok key -> (32 <= length key)%nat ->
  words (p_pad (poly_init stack key)) /\ wval (p_pad (poly_init stack key)) = le_dec (take 16 (drop 16 key)).
Proof.
  intros Hk Hl. unfold poly_init. cbn [p_pad]. change (seqZ 0 4) with [0; 1; 2; 3]. cbn [fmap list_fmap].
  destruct (le_dec_split 16 key Hk ltac:(lia)) as [_ Hd].
  destruct (le_dec_split 16 (drop 16 key) (Forall_drop _ _ _ Hk) ltac:(rewrite length_drop; lia)) as [Ht _]. rewrite Hd in Ht. rewrite Ht.
  rewrite !le32_spec by (done || lia). change (8 * Z.of_nat 16) with 128.
  assert (E : forall j, 0 <= j -> le_dec key / 2 ^ (8 * (16 + 4 * j)) = le_dec key / 2 ^ 128 / 2 ^ (32 * j)).
  { intros j Hj. rewrite Z.div_div by lia. rewrite <- Z.pow_add_r by lia. do 2 f_equal. lia. }
  rewrite !E by lia. set (X := le_dec key / 2 ^ 128). split; [split_and!; apply Z.mod_pos_bound; lia|]. unfold wval. simpl (_ !!! _).
  replace (32 * 0) with 0 by lia. rewrite Z.pow_0_r, Z.div_1_r.
  assert (E2 : X / 2 ^ (32 * 2) = X / 2 ^ 32 / 2 ^ 32) by (rewrite Z.div_div by lia; done).
  assert (E3 : X / 2 ^ (32 * 3) = X / 2 ^ 32 / 2 ^ 32 / 2 ^ 32) by (rewrite !Z.div_div by lia; done). change (32 * 1) with 32. rewrite E2, E3.
  split_at X 32. split_at a 32. split_at a0 32. split_at a1 32. apply Z.mod_unique with a2; lia.
Qed.

(** ** Streaming *)

Definition hblock (r : list Z) (h b : list Z) : list Z := poly_block r h b (1 <<. 24).
Definition h0 : list Z := [0; 0; 0; 0; 0].

(** The context has absorbed [m] under the key parts [r] and [pad]. *)
Definition poly_for (r pad : list Z) (p : poly) (m : list Z) : Prop :=
  p_r p = r /\ p_pad p = pad /\ length (p_buf p) = 16%nat /\ 0 <= p_buf_len p < 16 /\
  absorbed 16 (hblock r) h0 (p_h p) (take (Z.to_nat (p_buf_len p)) (p_buf p)) m.

Lemma poly_init_for stack key :
  length (p_buf stack) = 16%nat -> poly_for (p_r (poly_init stack key)) (p_pad (poly_init stack key)) (poly_init stack key) [].
Proof. intros Hl. split_and!; try done. apply absorbed_nil. lia. Qed.

Lemma poly_step r h pad buf bl x m :
  poly_for r pad (mk_poly r h pad buf bl) m -> bl + Z.of_nat (length x) <= 16 ->
  exists d, blit buf bl x = Some d /\
    poly_for r pad (if bl + Z.of_nat (length x) =? 16 then mk_poly r (hblock r h d) pad d 0 else mk_poly r h pad d (bl + Z.of_nat (length x))) (m ++ x).
Proof.
  intros (_ & _ & Hb & Hbl & Ha) Hx. cbn [p_h p_buf p_buf_len] in *.
  destruct (blit_some buf bl x) as (d & -> & Hd & Hpre); [lia..|]. exists d. split; [done|].
  assert (Hlt : length (take (Z.to_nat bl) buf) = Z.to_nat bl) by (rewrite length_take; lia).
  destruct (Z.eqb_spec (bl + Z.of_nat (length x)) 16) as [E|E]; (split_and!; [done|done|cbn; lia|cbn; lia|cbn; lia|]); cbn [p_h p_buf p_buf_len].
  - rewrite take_0. replace d with (take (Z.to_nat bl + length x) d) by (apply take_ge; lia). rewrite Hpre. apply absorb_fill; [lia|done|lia].
  - rewrite Z2Nat.inj_add, Nat2Z.id, Hpre by lia. apply absorb_part; [lia|done|lia].
Qed.

Lemma poly_loop_for fuel r pad p m data :
  (length data <= fuel)%nat -> poly_for r pad p m -> exists p', poly_loop fuel p data = Some p' /\ poly_for r pad p' (m ++ data).
Proof.
  revert p m data. induction fuel as [|fuel IH]; intros p m data Hf Hp.
  { destruct data; [|simpl in Hf; lia]. exists p. by rewrite app_nil_r. }
  destruct p as [r' h pad' buf bl]. assert (r' = r) as -> by apply Hp. assert (pad' = pad) as -> by apply Hp.
  assert (Hbl : 0 <= bl < 16) by apply Hp. cbn [poly_loop]. destruct (Z.eqb_spec (Z.of_nat (length data)) 0) as [E0|E0].
  { destruct data; [|simpl in E0; lia]. eexists. by rewrite app_nil_r. }
  rewrite (wrap_small 32 (16 - bl)) by (unfold fits; lia). set (n := if 16 - bl >? Z.of_nat (length data) then _ else _).
  assert (Hn : 0 < n <= 16 - bl /\ n <= Z.of_nat (length data)) by (unfold n; destruct (Z.gtb_spec (16 - bl) (Z.of_nat (length data))); lia). clearbody n.
  assert (Ht : Z.of_nat (length (take (Z.to_nat n) data)) = n) by (rewrite length_take; lia).
  destruct (poly_step r h pad buf bl (take (Z.to_nat n) data) m Hp ltac:(lia)) as (d & -> & Hp'). cbn [mbind option_bind].
  rewrite Ht in Hp'. rewrite (wrap_small 32 (bl + n)) by (unfold fits; lia). change (poly_block r h d (1 <<. 24)) with (hblock r h d).
  destruct (IH _ _ (drop (Z.to_nat n) data) ltac:(rewrite length_drop; lia) Hp') as (p' & -> & Hp''). exists p'. split; [done|].
  by rewrite <- app_assoc, take_drop in Hp''.
Qed.

Lemma poly_update_for r pad p m data : poly_for r pad p m -> exists p', poly_update p data = Some p' /\ poly_for r pad p' (m ++ data).
Proof. intros Hp. by apply poly_loop_for. Qed.

(** The padding of the AEAD, up to a multiple of 16 bytes. *)
Lemma poly_pad_for r pad p m :
  poly_for r pad p m ->
  exists p', poly_pad p = Some p' /\ poly_for r pad p' (m ++ replicate (Z.to_nat (- Z.of_nat (length m) mod 16)) 0).
Proof.
  intros Hp. destruct p as [r' h pad' buf bl]. assert (r' = r) as -> by apply Hp. assert (pad' = pad) as -> by apply Hp.
  assert (Hbl : 0 <= bl < 16) by apply Hp. assert (Hb : length buf = 16%nat) by apply Hp.
  assert (Hmod : bl = Z.of_nat (length m) mod 16).
  { destruct Hp as (_ & _ & _ & _ & Ha). apply absorbed_mod in Ha; [|lia]. cbn [p_buf p_buf_len] in Ha. rewrite length_take, Nat.min_l in Ha by lia. lia. }
  cbn [poly_pad]. destruct (Z.eqb_spec bl 0) as [E|E]; cbn [negb].
  - eexists. split; [done|]. replace (- Z.of_nat (length m) mod 16) with 0 by dlia. rewrite app_nil_r. exact Hp.
  - replace (- Z.of_nat (length m) mod 16) with (16 - bl) by dlia. set (z := replicate (Z.to_nat (16 - bl)) 0).
    assert (Hz : Z.of_nat (length z) = 16 - bl) by (unfold z; rewrite length_replicate; lia).
    destruct (poly_step r h pad buf bl z m Hp ltac:(lia)) as (d & -> & Hp'). cbn [mbind option_bind]. eexists. split; [done|].
    rewrite Hz in Hp'. rewrite (proj2 (Z.eqb_eq _ _)) in Hp' by lia. exact Hp'.
Qed.

(** ** The accumulator *)

Lemma blocks_fold (f : list Z -> list Z -> list Z) k h m :
  blocks 16 f k h m = fold_left f ((fun i => take 16 (drop (i * 16) m)) <$> seq 0 k) h.
Proof.
  induction k as [|k IH]; [done|]. rewrite blocks_snoc by lia. rewrite seq_S, fmap_app, fold_left_app, IH. done.
Qed.

Lemma block_num_app b : block_num b = le_dec b + 2 ^ (8 * Z.of_nat (length b)).
Proof. unfold block_num. rewrite le_dec_app. cbn [le_dec]. lia. Qed.

(** Whole blocks: the limbs follow the accumulator. *)
Lemma fold_blocks_val r R bs h acc :
  full_limbs r -> pval r = R -> acc_limbs h -> pval h mod P1305 = acc -> Forall (fun b => Forall byte_ok b /\ length b = 16%nat) bs ->
  acc_limbs (fold_left (hblock r) bs h) /\ pval (fold_left (hblock r) bs h) mod P1305 = poly_acc R bs acc.
Proof.
  intros Hr HR. revert h acc. induction bs as [|b bs IH]; intros h acc Hh Hv Hbs; [done|].
  inversion Hbs as [|? ? [Hb Hbl] Hbs']; subst. cbn [fold_left poly_acc].
  destruct (poly_block_spec r h b (1 <<. 24) Hr Hh Hb Hbl (or_intror eq_refl)) as [Hh' Hv']. apply IH; [done| |done].
  unfold hblock. rewrite Hv', block_num_app, Hbl. change (8 * Z.of_nat 16) with (24 + 104). rewrite Z.pow_add_r by lia. change (1 <<. 24) with (2 ^ 24).
  symmetry. rewrite <- Z.mul_mod_idemp_l, Z.add_mod_idemp_l, Z.mul_mod_idemp_l by done. f_equal. ring.
Qed.

(** The blocks of a message: the whole ones and the rest. *)
Lemma chunks_split m k x :
  length m = (k * 16 + length x)%nat -> x = drop (k * 16) m -> (length x < 16)%nat ->
  chunks m = ((fun i => take 16 (drop (i * 16) m)) <$> seq 0 k) ++ (if decide (x = []) then [] else [x]).
Proof.
  intros Hl Hx Hlt. unfold chunks. rewrite Hl. destruct x as [|a x].
  - rewrite decide_True, app_nil_r by done. do 2 f_equal. cbn [length]. rewrite Nat.add_0_r, Nat.div_add_l by lia. cbn. lia.
  - rewrite decide_False by done. replace ((k * 16 + length (a :: x) + 15) / 16)%nat with (S k).
    + rewrite seq_S, fmap_app. cbn [fmap list_fmap plus]. rewrite <- Hx, take_ge by lia. done.
    + cbn [length] in *. apply Nat.div_unique with (length x); lia.
Qed.

Lemma blocks_bytes m k : Forall byte_ok m -> (k * 16 <= length m)%nat ->
  Forall (fun b => Forall byte_ok b /\ length b = 16%nat) ((fun i => take 16 (drop (i * 16) m)) <$> seq 0 k).
Proof.
  intros Hm Hk. apply Forall_fmap, Forall_forall. intros i Hi%elem_of_seq. unfold compose. split; [by apply Forall_take, Forall_drop|].
  rewrite length_take, length_drop. lia.
Qed.

(** The end of the message: the last block, if it is shorter, and the reduction. *)
Lemma poly_final_for r pad R S p m :
  full_limbs r -> pval r = R -> words pad -> wval pad = S -> Forall byte_ok m -> poly_for r pad p m ->
  poly_final p = Some (le_enc 16 ((poly_acc R (chunks m) 0 + S) mod 2 ^ 128)).
Proof.
  intros Hr HR Hw HS Hm Hp. destruct p as [r' h pad' buf bl]. assert (r' = r) as -> by apply Hp. assert (pad' = pad) as -> by apply Hp.
  destruct Hp as (_ & _ & Hb & Hbl & (k & Hlt & Hlen & Hh & Hrest)). cbn [p_h p_buf p_buf_len] in *.
  set (x := take (Z.to_nat bl) buf) in *. assert (Hxl : length x = Z.to_nat bl) by (unfold x; rewrite length_take; lia).
  rewrite blocks_fold in Hh. pose proof (blocks_bytes m k Hm ltac:(lia)) as Hbs.
  destruct (fold_blocks_val r R _ h0 0 Hr HR ltac:(repeat split; done) eq_refl Hbs) as [Hacc Hval]. rewrite <- Hh in Hacc, Hval.
  rewrite (chunks_split m k x Hlen Hrest Hlt). unfold poly_acc in *. rewrite fold_left_app. rewrite <- Hval.
  assert (Hend : forall h, acc_limbs h -> final_add (final_select (final_carry h)) pad = le_enc 16 ((pval h mod P1305 + S) mod 2 ^ 128)).
  { intros h' Hh'. destruct (final_carry_spec h' Hh') as [F1 V1]. destruct (final_select_spec _ F1) as [F2 V2]. rewrite final_add_spec by done.
    by rewrite V2, V1, HS. }
  cbn [poly_final]. destruct (Z.eqb_spec bl 0) as [E|E]; cbn [negb].
  - cbn [mbind option_bind]. rewrite Hend by done. rewrite decide_True by (apply length_zero_iff_nil; lia). done.
  - destruct (blit_some buf bl [1]) as (d1 & -> & L1 & T1); [cbn; lia..|]. cbn [mbind option_bind]. cbn [length] in T1.
    set (z := replicate (Z.to_nat (15 - bl)) 0). assert (Hz : length z = Z.to_nat (15 - bl)) by apply length_replicate.
    destruct (blit_some d1 (bl + 1) z) as (d2 & -> & L2 & T2); [lia..|]. cbn [mbind option_bind].
    rewrite take_ge in T2 by lia. replace (Z.to_nat (bl + 1)) with (Z.to_nat bl + 1)%nat in T2 by lia. rewrite T1 in T2. fold x in T2. subst d2.
    assert (Hxb : Forall byte_ok x) by (rewrite Hrest; by apply Forall_drop).
    destruct (poly_block_spec r h ((x ++ [1]) ++ z) 0 Hr Hacc) as [Hacc' Hval']; [|rewrite !length_app; cbn [length]; lia|by left|].
    { repeat (apply Forall_app; split); try done; [repeat constructor; unfold byte_ok; lia|apply Forall_replicate; unfold byte_ok; lia]. }
    rewrite Hend by done. rewrite Hval', decide_False by (intros E'; rewrite E' in Hxl; cbn in Hxl; lia). cbn [fold_left]. do 4 f_equal.
    rewrite le_dec_app. assert (Ez : forall n, le_dec (replicate n 0) = 0) by (induction n; cbn [replicate le_dec]; lia). unfold z. rewrite Ez.
    fold (block_num x). rewrite <- (Z.mul_mod_idemp_l (pval h mod P1305 + _)), Z.add_mod_idemp_l, Z.mul_mod_idemp_l, HR by done. f_equal. ring.
Qed.

(** ** The cipher *)

Lemma block_length key c nonce : length (nx_chacha20_block key c nonce) = 64%nat.
Proof. reflexivity. Qed.

Lemma block_bytes key c nonce : Forall byte_ok (nx_chacha20_block key c nonce).
Proof.
  unfold nx_chacha20_block. apply Forall_concat, Forall_fmap, Forall_forall. intros i _. unfold compose. rewrite put_le32_enc. apply le_enc_bytes.
Qed.

Opaque nx_chacha20_block.

Lemma keystream_length n key c nonce : length (keystream n key c nonce) = (64 * n)%nat.
Proof. revert c. induction n as [|n IH]; intros c; [done|]. cbn [keystream]. rewrite length_app, block_length, IH. lia. Qed.

Lemma keystream_bytes n key c nonce : Forall byte_ok (keystream n key c nonce).
Proof. revert c. induction n as [|n IH]; intros c; [done|]. cbn [keystream]. apply Forall_app. split; [apply block_bytes|apply IH]. Qed.

(** Longer key streams extend shorter ones. *)
Lemma keystream_app n k key c nonce : exists x, keystream (n + k) key c nonce = keystream n key c nonce ++ x.
Proof.
  revert c. induction n as [|n IH]; intros c; [by eexists|]. destruct (IH (u32 (c + 1))) as [x Hx]. exists x. cbn [plus keystream]. rewrite Hx. by rewrite app_assoc.
Qed.

Lemma zip_with_take (a b : list Z) : zip_with Z.lxor a b = zip_with Z.lxor a (take (length a) b).
Proof. revert b. induction a as [|x a IH]; intros [|y b]; cbn; [done..|]. by rewrite IH. Qed.

Lemma xor_prefix (inp ks : list Z) n :
  0 <= n <= Z.of_nat (length inp) -> n <= Z.of_nat (length ks) ->
  (fun i => inp.[i] ^. ks.[i]) <$> seqZ 0 n = zip_with Z.lxor (take (Z.to_nat n) inp) (take (Z.to_nat n) ks).
Proof.
  intros H1 H2. rewrite <- !(arr_take_seqZ _ n) by lia. generalize (seqZ 0 n). induction l as [|i l IH]; [done|]. cbn. by rewrite IH.
Qed.

Lemma zip_with_split (a b c d : list Z) :
  length a = length c -> zip_with Z.lxor (a ++ b) (c ++ d) = zip_with Z.lxor a c ++ zip_with Z.lxor b d.
Proof. intros H. by rewrite zip_with_app. Qed.

(** Encryption is the exclusive or with the key stream. *)
Lemma chacha20_xor_spec key c nonce inp :
  chacha20_xor key c nonce inp = Some (zip_with Z.lxor inp (keystream (length inp) key c nonce)).
Proof.
  unfold chacha20_xor. enough (G : forall fuel c inp, (length inp <= fuel)%nat -> xor_loop fuel key c nonce inp = Some (zip_with Z.lxor inp (keystream fuel key c nonce))) by by apply G.
  clear. induction fuel as [|fuel IH]; intros c inp Hf; [destruct inp; [done|cbn in Hf; lia]|]. cbn [xor_loop keystream].
  destruct (Z.eqb_spec (Z.of_nat (length inp)) 0) as [E|E]; [destruct inp; [done|cbn in E; lia]|].
  set (n := if Z.of_nat (length inp) <? 64 then _ else _). assert (Hn : n = Z.min 64 (Z.of_nat (length inp))) by (unfold n; destruct (Z.ltb_spec (Z.of_nat (length inp)) 64); lia).
  clearbody n. rewrite IH by (rewrite length_drop; lia). cbn [mbind option_bind]. f_equal.
  rewrite xor_prefix by (rewrite ?block_length; lia). set (B := nx_chacha20_block key c nonce). assert (HB : length B = 64%nat) by apply block_length.
  rewrite <- (take_drop (Z.to_nat n) inp) at 3. destruct (Z.leb_spec 64 (Z.of_nat (length inp))) as [Hl|Hl].
  - replace (Z.to_nat n) with 64%nat by lia. rewrite (take_ge B) by lia. rewrite zip_with_split by (rewrite length_take; lia). done.
  - rewrite (drop_ge inp) by lia. cbn [zip_with]. rewrite !app_nil_r. rewrite (zip_with_take _ (B ++ _)). rewrite length_take.
    replace (Z.to_nat n `min` length inp)%nat with (Z.to_nat n) by lia. by rewrite take_app_le by lia.
Qed.

(** ** Correctness *)

Definition key_ok (k : list Z) : Prop := Forall byte_ok k /\ (32 <= length k)%nat.

(** C38: Poly1305 over five 26-bit limbs gives the tag of RFC 8439 of every message under
    every key: the blocks accumulated modulo 2^130 - 5, fully reduced, plus the second
    half of the key modulo 2^128.  No limb or product overflows its type. *)
Theorem poly1305_correct stack key msg :
  length (p_buf stack) = 16%nat -> key_ok key -> Forall byte_ok msg -> nx_poly1305 stack key msg = Some (poly1305 key msg).
Proof.
  intros Hs [Hk Hkl] Hm. unfold nx_poly1305, poly1305.
  destruct (poly_update_for _ _ _ [] msg (poly_init_for stack key Hs)) as (p & -> & Hp). cbn [mbind option_bind].
  destruct (poly_init_r stack key Hk ltac:(lia)) as [Hr HR]. destruct (poly_init_pad stack key Hk Hkl) as [Hw HW].
  by rewrite (poly_final_for _ _ _ _ p msg Hr HR Hw HW Hm Hp).
Qed.

Lemma le64_enc v : le64_bytes v = le_enc 8 v.
Proof.
  unfold le64_bytes. change (seqZ 0 8) with [0; 1; 2; 3; 4; 5; 6; 7]. cbn [fmap list_fmap le_enc]. rewrite !Z.div_div by lia. unfold u8, wrap.
  rewrite !Z.shiftr_div_pow2 by lia. by rewrite Z.div_1_r.
Qed.

(** The tag the code computes. *)
Lemma aead_tag_spec stack key nonce aad ct :
  length (p_buf stack) = 16%nat -> Forall byte_ok aad -> Forall byte_ok ct ->
  aead_tag stack key nonce aad ct = Some (poly1305 (nx_chacha20_block key 0 nonce) (mac_data aad ct)).
Proof.
  intros Hs Ha Hc. unfold aead_tag. set (B := nx_chacha20_block key 0 nonce).
  assert (HB : Forall byte_ok B) by apply block_bytes. assert (HBl : length B = 64%nat) by apply block_length.
  destruct (poly_update_for _ _ _ [] aad (poly_init_for stack B Hs)) as (p1 & -> & H1). cbn [mbind option_bind app] in *.
  destruct (poly_pad_for _ _ _ _ H1) as (p2 & -> & H2). cbn [mbind option_bind].
  destruct (poly_update_for _ _ _ _ ct H2) as (p3 & -> & H3). cbn [mbind option_bind].
  destruct (poly_pad_for _ _ _ _ H3) as (p4 & -> & H4). cbn [mbind option_bind].
  destruct (poly_update_for _ _ _ _ (le64_bytes (Z.of_nat (length aad)) ++ le64_bytes (Z.of_nat (length ct))) H4) as (p5 & -> & H5). cbn [mbind option_bind].
  destruct (poly_init_r stack B HB ltac:(lia)) as [Hr HR]. destruct (poly_init_pad stack B HB ltac:(lia)) as [Hw HW].
  assert (Em : ((aad ++ replicate (Z.to_nat (- Z.of_nat (length aad) mod 16)) 0) ++ ct) ++
    replicate (Z.to_nat (- Z.of_nat (length ((aad ++ replicate (Z.to_nat (- Z.of_nat (length aad) mod 16)) 0) ++ ct)) mod 16)) 0 = pad16 aad ++ pad16 ct).
  { unfold pad16. rewrite <- !app_assoc. do 4 f_equal. f_equal. rewrite !length_app, length_replicate, !Nat2Z.inj_add, Z2Nat.id by dlia. dlia. }
  rewrite Em, !le64_enc in H5. unfold poly1305, mac_data. rewrite app_assoc.
  refine (poly_final_for _ _ _ _ p5 _ Hr HR Hw HW _ H5). unfold pad16.
  rewrite !Forall_app. split_and!; try exact Ha; try exact Hc; try apply le_enc_bytes; apply Forall_replicate; unfold byte_ok; lia.
Qed.

(** The encryption of RFC 8439: the key stream from block 1. *)
Definition chacha_crypt (key nonce m : list Z) : list Z := zip_with Z.lxor m (keystream (length m) key 1 nonce).

Lemma chacha_crypt_length key nonce m : length (chacha_crypt key nonce m) = length m.
Proof. unfold chacha_crypt. rewrite length_zip_with, keystream_length. lia. Qed.

Lemma chacha_crypt_inv key nonce m : chacha_crypt key nonce (chacha_crypt key nonce m) = m.
Proof.
  unfold chacha_crypt at 1. rewrite chacha_crypt_length. unfold chacha_crypt. pose proof (keystream_length (length m) key 1 nonce) as Hl.
  assert (G : forall a k : list Z, (length a <= length k)%nat -> zip_with Z.lxor (zip_with Z.lxor a k) k = a).
  { induction a as [|x a IH]; intros [|y k]; cbn [length zip_with]; try done; try lia. intros H. rewrite IH by lia.
    by rewrite Z.lxor_assoc, Z.lxor_nilpotent, Z.lxor_0_r. }
  apply G. lia.
Qed.

Lemma chacha_crypt_bytes key nonce m : Forall byte_ok m -> Forall byte_ok (chacha_crypt key nonce m).
Proof.
  intros Hm. unfold chacha_crypt. pose proof (keystream_bytes (length m) key 1 nonce) as Hk. revert Hk. generalize (keystream (length m) key 1 nonce).
  induction Hm as [|x m Hx Hm IH]; intros k Hk; [done|]. destruct Hk as [|y k Hy Hk]; [done|]. constructor; [by apply (lxor_fits 8)|by apply IH].
Qed.

(** C12: opening accepts exactly the tag of RFC 8439 over the additional data and the
    ciphertext, and gives -1 and zeros for every other tag; what it gives for an accepted
    tag is the decryption, so that what was sealed is opened again, and nothing else is. *)
Theorem chacha_aead_exact stack key nonce aad ct tag :
  length (p_buf stack) = 16%nat -> Forall byte_ok aad -> Forall byte_ok ct -> Forall byte_ok tag -> length tag = 16%nat ->
  nx_chacha_open stack key nonce aad ct tag =
    Some (if bool_decide (tag = poly1305 (nx_chacha20_block key 0 nonce) (mac_data aad ct))
          then (0, chacha_crypt key nonce ct) else (-1, replicate (length ct) 0)) /\
  (forall pt, Forall byte_ok pt -> nx_chacha_seal stack key nonce aad pt = Some (ct, tag) -> nx_chacha_open stack key nonce aad ct tag = Some (0, pt)) /\
  (forall pt, Forall byte_ok pt -> nx_chacha_open stack key nonce aad ct tag = Some (0, pt) -> nx_chacha_seal stack key nonce aad pt = Some (ct, tag)).
Proof.
  intros Hs Ha Hc Ht Htl. set (T := poly1305 (nx_chacha20_block key 0 nonce) (mac_data aad ct)).
  assert (HT : Forall byte_ok T /\ length T = 16%nat) by (split; [apply le_enc_bytes|apply le_enc_length]). destruct HT as [HTb HTl].
  assert (Hopen : nx_chacha_open stack key nonce aad ct tag = Some (if bool_decide (tag = T) then (0, chacha_crypt key nonce ct) else (-1, replicate (length ct) 0))).
  { unfold nx_chacha_open. rewrite aead_tag_spec by done. cbn [mbind option_bind]. fold T.
    rewrite ct_equal_spec; [|lia|lia|by rewrite take_ge by lia|by rewrite take_ge by lia]. rewrite !take_ge by lia.
    case_bool_decide as E1; case_bool_decide as E2; try congruence; [cbn [negb]|done]. rewrite chacha20_xor_spec. done. }
  split; [done|]. rewrite Hopen. split; intros pt Hpt Hseal.
  - unfold nx_chacha_seal in Hseal. rewrite chacha20_xor_spec in Hseal. cbn [mbind option_bind] in Hseal. fold (chacha_crypt key nonce pt) in Hseal.
    rewrite aead_tag_spec in Hseal by (done || by apply chacha_crypt_bytes). cbn [mbind option_bind] in Hseal. injection Hseal as Hct Htag.
    rewrite bool_decide_true by (unfold T; by rewrite <- Hct). by rewrite <- Hct, chacha_crypt_inv.
  - case_bool_decide as E; [|done]. injection Hseal as <-. unfold nx_chacha_seal. rewrite chacha20_xor_spec. cbn [mbind option_bind].
    fold (chacha_crypt key nonce (chacha_crypt key nonce ct)). rewrite chacha_crypt_inv, aead_tag_spec by done. cbn [mbind option_bind]. fold T. by rewrite E.
Qed.

(** *** Witnesses *)

Definition ex_poly : poly := mk_poly [] [] [] (replicate 16 0xAA) 3.

Lemma poly1305_correct_witness : nx_poly1305 ex_poly (seqZ 1 32) (seqZ 5 40) = Some (poly1305 (seqZ 1 32) (seqZ 5 40)).
Proof.
  apply (poly1305_correct ex_poly (seqZ 1 32) (seqZ 5 40)); [reflexivity|split; [apply bytes_check; reflexivity|apply Nat.leb_le; reflexivity]|apply bytes_check; reflexivity].
Defined.

(** The key, nonce and additional data of RFC 8439, 2.8.2, with a short plaintext. *)
Definition ex_key : list Z := seqZ 0x80 32.
Definition ex_nonce : list Z := [7; 0; 0; 0; 0x40; 0x41; 0x42; 0x43; 0x44; 0x45; 0x46; 0x47].
Definition ex_aad : list Z := [0x50; 0x51; 0x52; 0x53; 0xc0; 0xc1; 0xc2; 0xc3; 0xc4; 0xc5; 0xc6; 0xc7].
Definition ex_pt : list Z := [0x4c; 0x61; 0x64; 0x69; 0x65; 0x73].

Definition ex_ct : list Z := [211; 26; 141; 52; 100; 142].
Definition ex_tag : list Z := [165; 79; 203; 112; 225; 117; 15; 108; 8; 189; 190; 175; 28; 54; 105; 11].

Lemma chacha_aead_exact_witness :
  nx_chacha_seal ex_poly ex_key ex_nonce ex_aad ex_pt = Some (ex_ct, ex_tag) /\
  nx_chacha_open ex_poly ex_key ex_nonce ex_aad ex_ct ex_tag = Some (0, ex_pt).
Proof.
  assert (E : nx_chacha_seal ex_poly ex_key ex_nonce ex_aad ex_pt = Some (ex_ct, ex_tag)) by (vm_compute; reflexivity). split; [exact E|].
  destruct (chacha_aead_exact ex_poly ex_key ex_nonce ex_aad ex_ct ex_tag) as (_ & H & _); [reflexivity|apply bytes_check; reflexivity..|reflexivity|].
  apply H; [apply bytes_check; reflexivity|exact E].
Defined.

(** The example of RFC 8439, 2.8.2. *)
Definition ex_sunscreen : list Z :=
  [76; 97; 100; 105; 101; 115; 32; 97; 110; 100; 32; 71; 101; 110; 116; 108; 101; 109; 101; 110; 32; 111; 102; 32;
   116; 104; 101; 32; 99; 108; 97; 115; 115; 32; 111; 102; 32; 39; 57; 57; 58; 32; 73; 102; 32; 73; 32; 99;
   111; 117; 108; 100; 32; 111; 102; 102; 101; 114; 32; 121; 111; 117; 32; 111; 110; 108; 121; 32; 111; 110; 101; 32;
   116; 105; 112; 32; 102; 111; 114; 32; 116; 104; 101; 32; 102; 117; 116; 117; 114; 101; 44; 32; 115; 117; 110; 115;
   99; 114; 101; 101; 110; 32; 119; 111; 117; 108; 100; 32; 98; 101; 32; 105; 116; 46].

Lemma chacha_rfc8439 :
  nx_chacha_seal ex_poly ex_key ex_nonce ex_aad ex_sunscreen =
  Some ([211; 26; 141; 52; 100; 142; 96; 219; 123; 134; 175; 188; 83; 239; 126; 194; 164; 173; 237; 81; 41; 110; 8; 254;
   169; 226; 181; 167; 54; 238; 98; 214; 61; 190; 164; 94; 140; 169; 103; 18; 130; 250; 251; 105; 218; 146; 114; 139;
   26; 113; 222; 10; 158; 6; 11; 41; 5; 214; 165; 182; 126; 205; 59; 54; 146; 221; 189; 127; 45; 119; 139; 140;
   152; 3; 174; 227; 40; 9; 27; 88; 250; 179; 36; 228; 250; 214; 117; 148; 85; 133; 128; 139; 72; 49; 215; 188;
   63; 244; 222; 240; 142; 75; 122; 157; 229; 118; 210; 101; 134; 206; 198; 75; 97; 22],
   [0x1a; 0xe1; 0x0b; 0x59; 0x4f; 0x09; 0xe2; 0x6a; 0x7e; 0x90; 0x2e; 0xcb; 0xd0; 0x60; 0x06; 0x91]).
Proof. vm_compute. reflexivity. Qed.
