(* ===== verification/Uaccess.v ===== *)
(** * User memory access

    [kernel/mm/uaccess.c]: the only way system calls touch user memory.  A range is
    checked against the user half and page by page against the page tables of the
    caller's address space, and then copied through the physical-memory window.
    [None] stands for a loop that does not end within its fuel. *)
From S2P Require Import Prelude Bytes Abi BootAbi Bitmap Pmm ElfPlan Pt PtFree Vmm Program.

(** ** Operations *)

Definition nx_user_range_ok (va len : Z) : bool :=
  (va >=? NX_USER_BASE) && (va <? NX_USER_TOP) && (len <=? NX_USER_TOP - va).

(** 0 when the byte is not accessible as required. *)
Definition user_page (root va : Z) (write : bool) (s : vst) : Z :=
  match nx_pt_query root va s with
  | inl _ => 0
  | inr (pa, flags, _) =>
      if (flags &. NX_PTE_P =? 0) || (flags &. NX_PTE_U =? 0) || (write && (flags &. NX_PTE_W =? 0)) then 0 else pa
  end.

Fixpoint check_loop (fuel : nat) (root page end_ : Z) (write : bool) (s : vst) : option (res unit) :=
  if page <? end_ then
    match fuel with
    | O => None
    | S fuel => if user_page root page write s =? 0 then Some (Err NX_EFAULT) else check_loop fuel root (u64 (page + NX_PAGE_4K)) end_ write s
    end
  else Some (Ok ()).

Definition nx_uaccess_check (root va len : Z) (write : bool) (s : vst) : option (res unit) :=
  if len =? 0 then Some (Ok ())
  else if negb (nx_user_range_ok va len) then Some (Err NX_EFAULT)
  else check_loop (Z.to_nat (len / NX_PAGE_4K + 2)) root (va &. u64 (~. (NX_PAGE_4K - 1))) (u64 (va + len)) write s.

(** The bytes at the [n] physical addresses from [pa]. *)
Definition load_bytes (d : Z -> Z) (pa n : Z) : list Z := (fun i => d (pa + i)) <$> seqZ 0 n.

(** The chunk of a page the copy handles next: its physical address and length. *)
Definition next_chunk (root va len : Z) (write : bool) (s : vst) : Z * Z :=
  let pa := user_page root va write s in
  let off := va &. (NX_PAGE_4K - 1) in
  let chunk := NX_PAGE_4K - off in
  (u64 (u64 (pa - off) + off), if chunk >? len then len else chunk).

(** The loop of [copy] to the kernel: the bytes written to the kernel buffer. *)
Fixpoint copy_in_loop (fuel : nat) (root va len : Z) (s : vst) : option (list Z) :=
  if len =? 0 then Some []
  else
    match fuel with
    | O => None
    | S fuel =>
        let '(pa, chunk) := next_chunk root va len false s in
        rest ← copy_in_loop fuel root (u64 (va + chunk)) (u64 (len - chunk)) s;
        Some (load_bytes (v_data (pt_ctx s)) pa chunk ++ rest)
    end.

(** The loop of [copy] to user memory. *)
Fixpoint copy_out_loop (fuel : nat) (root va : Z) (src : list Z) (s : vst) : option vst :=
  let len := Z.of_nat (length src) in
  if len =? 0 then Some s
  else
    match fuel with
    | O => None
    | S fuel =>
        let '(pa, chunk) := next_chunk root va len true s in
        copy_out_loop fuel root (u64 (va + chunk)) (drop (Z.to_nat chunk) src) (set_data s pa (take (Z.to_nat chunk) src))
    end.

Definition nx_uaccess_copy_in (root va len : Z) (s : vst) : option (res (list Z)) :=
  st ← nx_uaccess_check root va len false s;
  match st with
  | Err e => Some (Err e)
  | Ok _ => b ← copy_in_loop (Z.to_nat (len / NX_PAGE_4K + 2)) root va len s; Some (Ok b)
  end.

Definition nx_uaccess_copy_out (root va : Z) (src : list Z) (s : vst) : option (res unit * vst) :=
  st ← nx_uaccess_check root va (Z.of_nat (length src)) true s;
  match st with
  | Err e => Some (Err e, s)
  | Ok _ => s ← copy_out_loop (Z.to_nat (Z.of_nat (length src) / NX_PAGE_4K + 2)) root va src s; Some (Ok (), s)
  end.

(** ** Specification *)

(** The physical address of a byte the user may read, or write. *)
Definition user_xlat (root : Z) (write : bool) (s : vst) (va : Z) : option Z :=
  match nx_pt_query root va s with
  | inl _ => None
  | inr (pa, flags, _) =>
      if Z.testbit flags 0 && Z.testbit flags 2 && (negb write || Z.testbit flags 1) then Some pa else None
  end.

(** The byte is in the user half and accessible, in a page other than physical page 0. *)
Definition user_byte_ok (root : Z) (write : bool) (s : vst) (va : Z) : Prop :=
  NX_USER_BASE <= va < NX_USER_TOP /\ exists pa, user_xlat root write s va = Some pa /\ 4096 <= pa.

Definition user_range_acc (root va len : Z) (write : bool) (s : vst) : Prop :=
  forall a, va <= a < va + len -> user_byte_ok root write s a.

(** What user memory shows at an address. *)
Definition user_load (root : Z) (s : vst) (va : Z) : Z := v_data (pt_ctx s) (default 0 (user_xlat root false s va)).

(** The bytes stored one after the other at the translated addresses. *)
Fixpoint user_store (root va : Z) (src : list Z) (s : vst) (d : Z -> Z) : Z -> Z :=
  match src with
  | [] => d
  | x :: src => user_store root (va + 1) src s (store_bytes d (default 0 (user_xlat root true s va)) [x])
  end.

(** ** Pages *)

Lemma user_page_xlat root va write s : user_page root va write s = default 0 (user_xlat root write s va).
Proof.
  unfold user_page, user_xlat. destruct (nx_pt_query root va s) as [?|[[pa f] sz]]; [done|].
  pose proof (flag_testbit f 0 ltac:(lia)) as E0. pose proof (flag_testbit f 1 ltac:(lia)) as E1. pose proof (flag_testbit f 2 ltac:(lia)) as E2.
  change (2 ^ 0) with NX_PTE_P in E0. change (2 ^ 1) with NX_PTE_W in E1. change (2 ^ 2) with NX_PTE_U in E2. rewrite <- E0, <- E1, <- E2.
  destruct (f &. NX_PTE_P =? 0), (f &. NX_PTE_U =? 0), write, (f &. NX_PTE_W =? 0); done.
Qed.

Lemma index_same_page va i l : (l <= 3)%nat -> 0 <= va -> 0 <= i -> va mod 4096 + i < 4096 -> index_of (va + i) l = index_of va l.
Proof.
  intros Hl Hva Hi Hp. rewrite !index_of_spec by lia. f_equal. unfold level_size. rewrite Z.pow_add_r by lia. change (2 ^ 12) with 4096.
  rewrite <- !Z.div_div by (lia || apply Z.pow_pos_nonneg; lia). f_equal. dlia.
Qed.

Lemma find_same_page l m t va i :
  (l <= 3)%nat -> 0 <= va -> 0 <= i -> va mod 4096 + i < 4096 ->
  match find_loop l m t va with
  | inr (t', j, sz) => find_loop l m t (va + i) = inr (t', j, sz) /\ (sz = NX_PAGE_4K \/ sz = NX_PAGE_2M \/ sz = NX_PAGE_1G)
  | inl e => find_loop l m t (va + i) = inl e
  end.
Proof.
  intros Hl Hva Hi Hp. revert t Hl. induction l as [|l IH]; intros t Hl; cbn [find_loop]; rewrite (index_same_page va i) by lia;
    destruct (present (pte m t _)); cbn [negb]; try done; [by split; [|left]|].
  destruct (large (pte m t _)); cbn [andb]; [|by apply IH; lia].
  destruct ((S l =? 1)%nat || (S l =? 2)%nat); [|by apply IH; lia]. split; [done|]. destruct (S l =? 1)%nat; tauto.
Qed.

Lemma canonical_same_page va i : 0 <= va -> 0 <= i -> va mod 4096 + i < 4096 -> nx_pt_is_canonical (va + i) = nx_pt_is_canonical va.
Proof.
  intros Hva Hi Hp. unfold nx_pt_is_canonical. rewrite !Z.shiftr_div_pow2 by lia. change (2 ^ 47) with (4096 * 2 ^ 35). rewrite <- !Z.div_div by lia.
  replace ((va + i) / 4096) with (va / 4096) by dlia. done.
Qed.

(** Inside a page the physical address follows the virtual one. *)
Lemma query_same_page root va i (s : vst) :
  0 <= va -> 0 <= i -> va mod 4096 + i < 4096 ->
  nx_pt_query root (va + i) s = match nx_pt_query root va s with inl e => inl e | inr (pa, f, sz) => inr (pa + i, f, sz) end /\
  match nx_pt_query root va s with inl _ => True | inr (pa, f, sz) => pa mod 4096 = va mod 4096 /\ 0 <= pa < 2 ^ 53 end.
Proof.
  intros Hva Hi Hp. unfold nx_pt_query, find_leaf. rewrite canonical_same_page by done. destruct (nx_pt_is_canonical va); cbn [negb]; [|done].
  pose proof (find_same_page 3 (pt_mem s) root va i ltac:(lia) Hva Hi Hp) as Hf. destruct (find_loop 3 (pt_mem s) root va) as [e|[[t j] sz]]; [by rewrite Hf|].
  destruct Hf as [-> Hsz]. set (e := pte (pt_mem s) t j). assert (Hsz' : exists k, sz = 4096 * 2 ^ k /\ 0 <= k <= 18).
  { destruct Hsz as [-> | [-> | ->]]; [exists 0|exists 9|exists 18]; done. }
  destruct Hsz' as (k & -> & Hk). assert (Hones : 4096 * 2 ^ k - 1 = Z.ones (12 + k)) by (rewrite Z.ones_equiv, Z.pow_add_r by lia; lia).
  rewrite Hones, !land_ones_mod by lia. fold (entry_addr e). destruct (entry_addr_range e) as [He1 He2].
  set (base := entry_addr e &. u64 (~. (Z.ones (12 + k)))). assert (Hb : 0 <= base < 2 ^ 52 /\ base mod 4096 = 0).
  { unfold base. split.
    - apply (fits_land 52); [lia|exact He1|apply wrap_fits; lia].
    - change 4096 with (2 ^ 12). rewrite <- land_ones_mod by lia. rewrite Z.land_comm, Z.land_assoc, (Z.land_comm (Z.ones 12)), land_ones_mod by lia.
      change (2 ^ 12) with 4096. rewrite He2. apply Z.land_0_l. }
  assert (Hpow : 2 ^ (12 + k) = 4096 * 2 ^ k) by (rewrite Z.pow_add_r by lia; lia). assert (H2k : 0 < 2 ^ k <= 2 ^ 18) by (split; [apply Z.pow_pos_nonneg; lia|apply Z.pow_le_mono_r; lia]).
  pose proof (Z.mod_pos_bound va (2 ^ (12 + k)) ltac:(lia)) as Hm.
  assert (Hmod : va mod 2 ^ (12 + k) mod 4096 = va mod 4096) by (rewrite Hpow, Z.rem_mul_r, Z.mul_comm, Z.mod_add, Z.mod_mod by lia; done).
  assert (Hadd : (va + i) mod 2 ^ (12 + k) = va mod 2 ^ (12 + k) + i).
  { symmetry. apply Z.mod_unique with (va / 2 ^ (12 + k)); [|pose proof (Z.div_mod va (2 ^ (12 + k)) ltac:(lia)); lia].
    left. split; [lia|]. rewrite Hpow in *. pose proof (Z.div_mod (va mod (4096 * 2 ^ k)) 4096 ltac:(lia)) as D. rewrite Hmod in D.
    pose proof (Z.mod_pos_bound va 4096 ltac:(lia)) as Hr. clear - D Hm Hp Hi Hr. revert D Hm Hp Hr.
    generalize (va mod (4096 * 2 ^ k) / 4096) as q, (va mod (4096 * 2 ^ k)) as x, (va mod 4096) as r, (2 ^ k) as w. intros. lia. }
  rewrite Hadd. set (x := va mod 2 ^ (12 + k)) in *. clearbody base x. clear Hsz Hones Hadd.
  assert (Hx : 0 <= x < 2 ^ 30 /\ i < 4096) by (pose proof (Z.mod_pos_bound va 4096 ltac:(lia)); lia).
  rewrite (wrap_small 64 (base + (x + i))), (wrap_small 64 (base + x)) by (unfold fits; lia). split; [by rewrite Z.add_assoc|]. split; [|lia].
  rewrite Z.add_mod, (proj2 Hb), Z.add_0_l, Z.mod_mod by lia. exact Hmod.
Qed.

Lemma xlat_same_page root w s va i :
  0 <= va -> 0 <= i -> va mod 4096 + i < 4096 ->
  user_xlat root w s (va + i) = (fun p => p + i) <$> user_xlat root w s va /\
  (forall pa, user_xlat root w s va = Some pa -> pa mod 4096 = va mod 4096 /\ 0 <= pa < 2 ^ 53).
Proof.
  intros Hva Hi Hp. destruct (query_same_page root va i s Hva Hi Hp) as [E Hb]. unfold user_xlat. rewrite E.
  destruct (nx_pt_query root va s) as [?|[[pa f] sz]]; [done|]. destruct (_ && _ && _); [|done]. split; [done|]. intros ? [= <-]. done.
Qed.

(** Whether a byte is accessible depends on its page. *)
Lemma byte_ok_page root w s a b :
  a / 4096 = b / 4096 -> NX_USER_BASE <= a < NX_USER_TOP -> user_byte_ok root w s a -> user_byte_ok root w s b.
Proof.
  unfold user_byte_ok, NX_USER_BASE, NX_USER_TOP. intros Hp Ha [_ (pa & Hx & Hpa)]. split; [dlia|].
  set (base := a / 4096 * 4096). assert (Eb : a = base + a mod 4096 /\ b = base + b mod 4096 /\ base mod 4096 = 0 /\ 0 <= base) by (unfold base; dlia).
  destruct Eb as (Ea & Eb & Em & E0). pose proof (Z.mod_pos_bound a 4096 ltac:(lia)). pose proof (Z.mod_pos_bound b 4096 ltac:(lia)).
  destruct (xlat_same_page root w s base (a mod 4096) E0 ltac:(lia) ltac:(lia)) as [Xa Xm]. rewrite <- Ea, Hx in Xa.
  destruct (xlat_same_page root w s base (b mod 4096) E0 ltac:(lia) ltac:(lia)) as [Xb _]. rewrite <- Eb in Xb.
  destruct (user_xlat root w s base) as [p0|]; [|done]. injection Xa as Xa. destruct (Xm p0 eq_refl). rewrite Xb. cbn. eexists. split; [done|].
  clear Hx Xb. dlia.
Qed.

(** ** The check *)

Lemma check_loop_spec root w s fuel page end_ :
  page mod 4096 = 0 -> NX_USER_BASE <= page -> end_ <= NX_USER_TOP -> end_ - page <= 4096 * Z.of_nat fuel ->
  (check_loop fuel root page end_ w s = Some (Ok ()) /\ forall a, page <= a < end_ -> user_byte_ok root w s a) \/
  (check_loop fuel root page end_ w s = Some (Err NX_EFAULT) /\ exists a, page <= a < end_ /\ a mod 4096 = 0 /\ ~ user_byte_ok root w s a).
Proof.
  revert page. induction fuel as [|fuel IH]; intros page Hal Hb Ht Hf; cbn [check_loop].
  { rewrite (proj2 (Z.ltb_ge _ _)) by lia. left. split; [done|lia]. }
  destruct (Z.ltb_spec page end_) as [Hlt|Hge]; [|left; split; [done|lia]]. unfold NX_USER_BASE, NX_USER_TOP in *.
  assert (Hok : if user_page root page w s =? 0 then ~ user_byte_ok root w s page else user_byte_ok root w s page).
  { rewrite user_page_xlat. unfold user_byte_ok, NX_USER_BASE, NX_USER_TOP.
    destruct (xlat_same_page root w s page 0 ltac:(lia) ltac:(lia) ltac:(lia)) as [_ Hm]. destruct (user_xlat root w s page) as [pa|]; cbn.
    - destruct (Hm pa eq_refl) as [Hm1 Hm2]. clear Hm. destruct (Z.eqb_spec pa 0) as [->|]; [intros [_ (? & [= <-] & ?)]; lia|].
      split; [lia|]. exists pa. split; [done|]. dlia.
    - intros [_ (? & ? & _)]. done. }
  destruct (Z.eqb_spec (user_page root page w s) 0) as [E|E].
  - right. split; [done|]. by exists page.
  - change NX_PAGE_4K with 4096. rewrite (wrap_small 64 (page + 4096)) by (unfold fits; lia).
    destruct (IH (page + 4096)) as [[-> Hall]|[-> (a & Ha)]]; [dlia|lia|lia|lia| |].
    + left. split; [done|]. intros a Ha. destruct (Z.ltb_spec a (page + 4096)); [|apply Hall; lia].
      apply (byte_ok_page root w s page); [dlia|unfold NX_USER_BASE, NX_USER_TOP; lia|exact Hok].
    + right. split; [done|]. exists a. split; [lia|tauto].
Qed.

(** The check succeeds exactly on the ranges whose bytes are all accessible. *)
Lemma uaccess_check_spec root va len w s :
  fits 64 va -> fits 64 len ->
  (nx_uaccess_check root va len w s = Some (Ok ()) /\ user_range_acc root va len w s) \/
  (nx_uaccess_check root va len w s = Some (Err NX_EFAULT) /\ ~ user_range_acc root va len w s).
Proof.
  unfold fits, user_range_acc. intros Hva Hlen. unfold nx_uaccess_check. destruct (Z.eqb_spec len 0) as [->|Hne]; [left; split; [done|lia]|].
  unfold nx_user_range_ok. destruct ((va >=? NX_USER_BASE) && (va <? NX_USER_TOP) && (len <=? NX_USER_TOP - va)) eqn:E; cbn [negb].
  2: { right. split; [done|]. intros Hall. destruct (Hall va ltac:(lia)) as [H1 _]. destruct (Hall (va + len - 1) ltac:(lia)) as [H2 _].
       unfold NX_USER_BASE, NX_USER_TOP in *. breflect; lia. }
  assert (Hr : NX_USER_BASE <= va < NX_USER_TOP /\ len <= NX_USER_TOP - va) by (breflect; lia). clear E.
  unfold NX_USER_BASE, NX_USER_TOP in Hr. change (NX_PAGE_4K - 1) with (Z.ones 12). rewrite (mask_down 64 12) by (unfold fits; lia).
  rewrite (wrap_small 64 (va + len)) by (unfold fits; lia). change (2 ^ 12) with 4096. change NX_PAGE_4K with 4096.
  destruct (check_loop_spec root w s (Z.to_nat (len / 4096 + 2)) (va / 4096 * 4096) (va + len)) as [[-> Hall]|[-> (a & Ha & Hal & Hn)]];
    [dlia|unfold NX_USER_BASE; dlia|unfold NX_USER_TOP; lia|dlia| |].
  - left. split; [done|]. intros a Ha. apply Hall. dlia.
  - right. split; [done|]. intros Hall. apply Hn. destruct (Z.leb_spec va a); [apply Hall; lia|].
    apply (byte_ok_page root w s va); [dlia|unfold NX_USER_BASE, NX_USER_TOP; lia|apply Hall; lia].
Qed.

(** ** The copies *)

Lemma next_chunk_spec root va len w s :
  0 < len -> user_byte_ok root w s va ->
  exists pa chunk, next_chunk root va len w s = (pa, chunk) /\ user_xlat root w s va = Some pa /\ 0 <= pa < 2 ^ 53 /\
    chunk = Z.min len (4096 - va mod 4096) /\ forall i, 0 <= i < chunk -> user_xlat root w s (va + i) = Some (pa + i).
Proof.
  unfold user_byte_ok, NX_USER_BASE, NX_USER_TOP. intros Hlen [Hva (pa & Hx & Hpa)]. unfold next_chunk. rewrite user_page_xlat, Hx. change (default 0 (Some pa)) with pa.
  change (NX_PAGE_4K - 1) with (Z.ones 12). rewrite land_ones_mod by lia. change (2 ^ 12) with 4096. change NX_PAGE_4K with 4096.
  pose proof (Z.mod_pos_bound va 4096 ltac:(lia)) as Hm. destruct (xlat_same_page root w s va 0 ltac:(lia) ltac:(lia) ltac:(lia)) as [_ Hb].
  destruct (Hb pa Hx) as [Hb1 Hb2]. assert (Hge : va mod 4096 <= pa) by (rewrite <- Hb1; apply Z.mod_le; lia).
  rewrite (wrap_small 64 (pa - va mod 4096)) by (unfold fits; lia). rewrite Z.sub_add, (wrap_small 64 pa) by (unfold fits; lia).
  eexists _, _. split; [done|]. split; [done|]. split; [done|]. split; [destruct (Z.gtb_spec (4096 - va mod 4096) len); lia|].
  intros i Hi. destruct (xlat_same_page root w s va i ltac:(lia) ltac:(lia)) as [-> _]; [|by rewrite Hx].
  destruct (Z.gtb_spec (4096 - va mod 4096) len); lia.
Qed.

Lemma copy_in_loop_spec root s fuel va len :
  0 <= len -> va + len <= NX_USER_TOP -> user_range_acc root va len false s -> (0 < len -> len + va mod 4096 <= 4096 * Z.of_nat fuel) ->
  copy_in_loop fuel root va len s = Some (user_load root s <$> seqZ va len).
Proof.
  revert va len. induction fuel as [|fuel IH]; intros va len Hlen Htop Hacc Hf; cbn [copy_in_loop].
  { pose proof (Z.mod_pos_bound va 4096 ltac:(lia)). by replace len with 0 by lia. }
  destruct (Z.eqb_spec len 0) as [->|Hne]; [done|]. pose proof (Hacc va ltac:(lia)) as Hok.
  destruct (next_chunk_spec root va len false s ltac:(lia) Hok) as (pa & chunk & -> & Hx & Hpa & Hc & Hin).
  pose proof (Z.mod_pos_bound va 4096 ltac:(lia)) as Hm. destruct Hok as [Hva _]. unfold NX_USER_BASE, NX_USER_TOP in *.
  rewrite (wrap_small 64 (va + chunk)), (wrap_small 64 (len - chunk)) by (unfold fits; lia).
  rewrite IH; [|lia|lia|intros a Ha; apply Hacc; lia|].
  2: { intros Hrest. replace chunk with (4096 - va mod 4096) by lia. dlia. }
  cbn [mbind option_bind]. f_equal. replace len with (chunk + (len - chunk)) at 2 by lia. rewrite seqZ_app, fmap_app by lia. f_equal.
  unfold load_bytes. replace (seqZ va chunk) with ((fun i => va + i) <$> seqZ 0 chunk) by (rewrite fmap_add_seqZ; f_equal; lia).
  rewrite <- list_fmap_compose. apply list_fmap_ext. intros _ i Hi%list_elem_of_lookup_2. apply elem_of_seqZ in Hi. unfold compose, user_load.
  by rewrite Hin by lia.
Qed.

(** Stores through an address space leave the address space alone. *)
Definition data_only (s s' : vst) : Prop :=
  pt_mem s' = pt_mem s /\ v_pmm (pt_ctx s') = v_pmm (pt_ctx s) /\ v_tables (pt_ctx s') = v_tables (pt_ctx s) /\ v_panic (pt_ctx s') = v_panic (pt_ctx s).

Lemma xlat_data_only root w s s' va : data_only s s' -> user_xlat root w s' va = user_xlat root w s va.
Proof. intros (Hm & _). unfold user_xlat, nx_pt_query, find_leaf. by rewrite Hm. Qed.

Lemma acc_data_only root va len w s s' : data_only s s' -> user_range_acc root va len w s -> user_range_acc root va len w s'.
Proof. intros Hd Hacc a Ha. destruct (Hacc a Ha) as [Hr Hx]. split; [done|]. by rewrite (xlat_data_only _ _ s). Qed.

Lemma store_ext d e pa b x : (forall y, d y = e y) -> store_bytes d pa b x = store_bytes e pa b x.
Proof. intros H. unfold store_bytes. destruct (_ && _); [done|apply H]. Qed.

Lemma user_store_ext root va src s s' d e x :
  data_only s s' -> (forall y, d y = e y) -> user_store root va src s' d x = user_store root va src s e x.
Proof.
  intros Hs. revert va d e. induction src as [|b src IH]; intros va d e Hd; [apply Hd|]. cbn [user_store]. apply IH. intros y.
  rewrite (xlat_data_only root true s s') by done. by apply store_ext.
Qed.

Lemma user_store_app root va a b s d : user_store root va (a ++ b) s d = user_store root (va + Z.of_nat (length a)) b s (user_store root va a s d).
Proof.
  revert va d. induction a as [|x a IH]; intros va d; cbn [app user_store length]; [by rewrite Z.add_0_r|]. rewrite IH. f_equal. lia.
Qed.

(** Bytes stored at consecutive physical addresses. *)
Lemma store_chunk root va b s pa d x :
  (forall i, 0 <= i < Z.of_nat (length b) -> user_xlat root true s (va + i) = Some (pa + i)) ->
  store_bytes d pa b x = user_store root va b s d x.
Proof.
  revert va pa d. induction b as [|y b IH]; intros va pa d Hx; cbn [user_store].
  { unfold store_bytes. cbn [length]. destruct (Z.leb_spec pa x), (Z.ltb_spec x (pa + Z.of_nat 0)); try lia; done. }
  cbn [length] in Hx. pose proof (Hx 0 ltac:(lia)) as H0. rewrite !Z.add_0_r in H0. rewrite H0. change (default 0 (Some pa)) with pa.
  rewrite <- (IH (va + 1) (pa + 1)) by (intros i Hi; rewrite <- !Z.add_assoc; apply Hx; lia). unfold store_bytes. cbn [length].
  destruct (Z.leb_spec pa x), (Z.ltb_spec x (pa + Z.of_nat (S (length b)))), (Z.leb_spec (pa + 1) x), (Z.ltb_spec x (pa + 1 + Z.of_nat (length b))),
    (Z.ltb_spec x (pa + Z.of_nat 1)); cbn [andb]; try lia; try done.
  - replace (x - pa) with (1 + (x - (pa + 1))) by lia. rewrite Z2Nat.inj_add by lia. done.
  - replace (x - pa) with 0 by lia. done.
Qed.

Lemma copy_out_loop_spec root fuel va src s :
  va + Z.of_nat (length src) <= NX_USER_TOP -> user_range_acc root va (Z.of_nat (length src)) true s ->
  (0 < Z.of_nat (length src) -> Z.of_nat (length src) + va mod 4096 <= 4096 * Z.of_nat fuel) ->
  exists s', copy_out_loop fuel root va src s = Some s' /\ data_only s s' /\
             forall x, v_data (pt_ctx s') x = user_store root va src s (v_data (pt_ctx s)) x.
Proof.
  revert va src s. induction fuel as [|fuel IH]; intros va src s Htop Hacc Hf; cbn [copy_out_loop].
  { pose proof (Z.mod_pos_bound va 4096 ltac:(lia)). destruct src; [|cbn [length] in Hf; lia]. by exists s. }
  destruct (Z.eqb_spec (Z.of_nat (length src)) 0) as [E|Hne]; [destruct src; [|cbn [length] in E; lia]; by exists s|].
  pose proof (Hacc va ltac:(lia)) as Hok.
  destruct (next_chunk_spec root va (Z.of_nat (length src)) true s ltac:(lia) Hok) as (pa & chunk & -> & Hx & Hpa & Hc & Hin).
  pose proof (Z.mod_pos_bound va 4096 ltac:(lia)) as Hm. destruct Hok as [Hva _]. unfold NX_USER_BASE, NX_USER_TOP in *.
  rewrite (wrap_small 64 (va + chunk)) by (unfold fits; lia). set (s1 := set_data s pa (take (Z.to_nat chunk) src)).
  assert (Hd1 : data_only s s1) by done. assert (Hl1 : Z.of_nat (length (drop (Z.to_nat chunk) src)) = Z.of_nat (length src) - chunk) by (rewrite length_drop; lia).
  assert (Ht1 : Z.of_nat (length (take (Z.to_nat chunk) src)) = chunk) by (rewrite length_take; lia).
  destruct (IH (va + chunk) (drop (Z.to_nat chunk) src) s1) as (s' & -> & Hd & Hv); [lia| | |].
  { intros a Ha. apply (acc_data_only root va (Z.of_nat (length src)) true s s1 Hd1 Hacc). lia. }
  { rewrite Hl1. intros Hrest. replace chunk with (4096 - va mod 4096) by lia. dlia. }
  exists s'. split; [done|]. split; [destruct Hd as (? & ? & ? & ?); by split_and!|]. intros x. rewrite Hv.
  rewrite <- (take_drop (Z.to_nat chunk) src) at 2. rewrite user_store_app, Ht1. apply user_store_ext; [done|]. intros y.
  cbn [s1 set_data set_ctx pt_ctx v_data]. apply store_chunk. rewrite Ht1. exact Hin.
Qed.

(** ** Correctness *)

(** Only translations of the range are written. *)
Lemma user_store_confined root va src s d x :
  (forall i, 0 <= i < Z.of_nat (length src) -> exists pa, user_xlat root true s (va + i) = Some pa) ->
  user_store root va src s d x <> d x -> exists i, 0 <= i < Z.of_nat (length src) /\ user_xlat root true s (va + i) = Some x.
Proof.
  revert va d. induction src as [|b src IH]; intros va d Hx Hne; [done|]. cbn [user_store length] in *.
  destruct (Hx 0 ltac:(lia)) as [pa H0]. rewrite Z.add_0_r in H0. rewrite H0 in Hne. change (default 0 (Some pa)) with pa in Hne.
  destruct (Z.eq_dec x pa) as [->|Hpa]; [exists 0; rewrite Z.add_0_r; split; [lia|done]|].
  destruct (IH (va + 1) (store_bytes d pa [b])) as (i & Hi & Ei).
  - intros i Hi. destruct (Hx (1 + i) ltac:(lia)) as [q Hq]. exists q. by rewrite <- Z.add_assoc.
  - intros E. apply Hne. rewrite E. unfold store_bytes. cbn [length]. destruct (Z.leb_spec pa x), (Z.ltb_spec x (pa + Z.of_nat 1)); try lia; done.
  - exists (1 + i). split; [lia|]. by rewrite Z.add_assoc.
Qed.

Lemma acc_top root va len w s : 0 < len -> user_range_acc root va len w s -> va + len <= NX_USER_TOP.
Proof. intros Hl Hacc. destruct (Hacc (va + len - 1) ltac:(lia)) as [? _]. lia. Qed.

(** C39: copying from user memory gives, for any address and length a task can pass, exactly
    the bytes user memory shows there when every byte of the range is in the user half and
    mapped for user access, and NX_EFAULT when any byte is not.  The copy ends. *)
Theorem copy_in_exact root va len s :
  fits 64 va -> fits 64 len ->
  (user_range_acc root va len false s /\ nx_uaccess_copy_in root va len s = Some (Ok (user_load root s <$> seqZ va len))) \/
  (~ user_range_acc root va len false s /\ nx_uaccess_copy_in root va len s = Some (Err NX_EFAULT)).
Proof.
  intros Hva Hlen. unfold nx_uaccess_copy_in. destruct (uaccess_check_spec root va len false s Hva Hlen) as [[-> Hacc]|[-> Hn]]; cbn [mbind option_bind]; [left|by right].
  split; [done|]. unfold fits in *. change NX_PAGE_4K with 4096. destruct (Z.eq_dec len 0) as [->|Hne]; [done|].
  pose proof (acc_top root va len false s ltac:(lia) Hacc). rewrite copy_in_loop_spec; [done|lia|done|done|]. intros _. dlia.
Qed.

(** C9: copying to user memory writes, for any address a task can pass, either the whole
    buffer at the addresses the range translates to, when every byte of it is in the user
    half and mapped writable for user access, or nothing at all with NX_EFAULT.  No other
    byte of physical memory changes, and no page table. *)
Theorem copy_out_confined root va src s :
  fits 64 va -> fits 64 (Z.of_nat (length src)) ->
  (user_range_acc root va (Z.of_nat (length src)) true s /\
   exists s', nx_uaccess_copy_out root va src s = Some (Ok (), s') /\ data_only s s' /\
     (forall x, v_data (pt_ctx s') x = user_store root va src s (v_data (pt_ctx s)) x) /\
     (forall x, v_data (pt_ctx s') x <> v_data (pt_ctx s) x ->
        exists a, va <= a < va + Z.of_nat (length src) /\ NX_USER_BASE <= a < NX_USER_TOP /\ user_xlat root true s a = Some x)) \/
  (~ user_range_acc root va (Z.of_nat (length src)) true s /\ nx_uaccess_copy_out root va src s = Some (Err NX_EFAULT, s)).
Proof.
  intros Hva Hlen. unfold nx_uaccess_copy_out.
  destruct (uaccess_check_spec root va (Z.of_nat (length src)) true s Hva Hlen) as [[-> Hacc]|[-> Hn]]; cbn [mbind option_bind]; [left|by right].
  split; [done|]. unfold fits in *. change NX_PAGE_4K with 4096. set (fuel := Z.to_nat _).
  assert (exists s', copy_out_loop fuel root va src s = Some s' /\ data_only s s' /\ forall x, v_data (pt_ctx s') x = user_store root va src s (v_data (pt_ctx s)) x) as (s' & -> & Hd & Hv).
  { destruct src as [|b src]; [by exists s|]. assert (Hpos : 0 < Z.of_nat (length (b :: src))) by (cbn [length]; lia).
    pose proof (acc_top root va _ true s Hpos Hacc).
    apply copy_out_loop_spec; [done|done|]. intros _. unfold fuel. set (n := Z.of_nat (length (b :: src))). assert (0 <= n) by lia. clearbody n. dlia. }
  cbn [mbind option_bind]. exists s'. split; [done|]. split; [done|]. split; [done|]. intros x Hne. rewrite Hv in Hne.
  apply user_store_confined in Hne as (i & Hi & Hx); [exists (va + i); split; [lia|]; split; [apply (Hacc (va + i)); lia|done]|].
  intros i Hi. destruct (Hacc (va + i) ltac:(lia)) as [_ (pa & Hx & _)]. by exists pa.
Qed.

(** *** Witnesses *)

(** A user page at the start of the user half. *)
Definition ex_space : vst := (nx_pt_map 0x101000 NX_USER_BASE 0x7000 NX_PAGE_4K (NX_PTE_U |. NX_PTE_W) small_vmm).2.

Lemma copy_in_exact_witness :
  nx_uaccess_copy_in 0x101000 (NX_USER_BASE + 4090) 6 ex_space = Some (Ok (user_load 0x101000 ex_space <$> seqZ (NX_USER_BASE + 4090) 6)) /\
  nx_uaccess_copy_in 0x101000 (NX_USER_BASE + 4090) 7 ex_space = Some (Err NX_EFAULT).
Proof.
  split.
  - destruct (copy_in_exact 0x101000 (NX_USER_BASE + 4090) 6 ex_space) as [[_ H]|[_ H]]; [split; reflexivity || discriminate..|exact H|].
    vm_compute in H. discriminate.
  - destruct (copy_in_exact 0x101000 (NX_USER_BASE + 4090) 7 ex_space) as [[_ H]|[_ H]]; [split; reflexivity || discriminate..| |exact H].
    vm_compute in H. discriminate.
Defined.

Lemma copy_out_confined_witness :
  exists s', nx_uaccess_copy_out 0x101000 (NX_USER_BASE + 16) [1; 2; 3] ex_space = Some (Ok (), s') /\ data_only ex_space s' /\ v_data (pt_ctx s') 0x7011 = 2.
Proof.
  destruct (copy_out_confined 0x101000 (NX_USER_BASE + 16) [1; 2; 3] ex_space) as [(_ & s' & H & Hd & Hv & _)|[_ H]]; [split; reflexivity || discriminate..| |].
  - exists s'. split; [exact H|]. split; [exact Hd|]. rewrite Hv. vm_compute. reflexivity.
  - apply (f_equal (option_map fst)) in H. vm_compute in H. discriminate.
Defined.
