(* ===== verification/Blk.v ===== *)
(** * Block device layer

    [kernel/dev/blk.c] over the request interface of [kernel/dev/virtio_blk.c]: reads,
    writes and flushes of whole blocks, and the crash-test layer with its emulated
    volatile write cache and its crash point; and the system calls of [kernel/syscall.c]
    for them.

    The virtio device itself is a parameter: [hw_in], [hw_out] and [hw_flush] are what it
    does with a request of the driver, [VblkLaws] is what the driver relies on. *)
From S2P Require Import Prelude Bytes Abi BootAbi Bitmap Pmm StoreFmt Store StoreDev.

(** ** virtio-blk requests *)

Definition NX_VBLK_SECTOR : Z := 512.
Definition NX_VBLK_MAX_PAGES : Z := 8.

(** [enum nx_vblk_status] *)
Definition NX_VBLK_OK : Z := 0.
Definition NX_VBLK_E_IO : Z := 1.
Definition NX_VBLK_E_UNSUPP : Z := 2.
Definition NX_VBLK_E_TIMEOUT : Z := 3.
Definition NX_VBLK_E_RANGE : Z := 4.

(** What the device does with a request: the status and, for [T_IN], what it left in
    the data pages.  [hw_out h sector bytes pages] gets the data pages. *)
Class vblk_hw (H : Type) := {
  hw_in : H -> Z -> Z -> Z * list (list Z) * H;
  hw_out : H -> Z -> Z -> list (list Z) -> Z * H;
  hw_flush : H -> Z * H;
}.

(** [struct nx_vblk]: the fields the requests use; [vb_pages] are the bounce pages. *)
Record nx_vblk (H : Type) := mk_vblk {
  vb_hw : H;
  vb_sectors : Z;
  vb_read_only : bool;
  vb_has_flush : bool;
  vb_pages : list (list Z);
}.
Arguments mk_vblk {H}.
Arguments vb_hw {H}.
Arguments vb_sectors {H}.
Arguments vb_read_only {H}.
Arguments vb_has_flush {H}.
Arguments vb_pages {H}.

(** ** The block device object *)

Definition NX_BLK_SIZE : Z := 4096.
Definition NX_BLK_IO_MAX : Z := 8.
Definition NX_BLK_CACHE_PAGES : Z := 128.
Definition SECTORS_PER_BLOCK : Z := NX_BLK_SIZE / NX_VBLK_SECTOR.

Inductive nx_blk_lose : Set := NX_LOSE_ALL | NX_LOSE_NONE | NX_LOSE_TORN | NX_LOSE_REORDER.

#[export] Instance nx_blk_lose_eq_dec : EqDecision nx_blk_lose.
Proof. solve_decision. Defined.

Record nx_blk_test := mk_test {
  tst_enabled : bool;
  tst_volatile_cache : bool;
  tst_flush_noop : bool;
  tst_crash_at : Z;
  tst_lose : nx_blk_lose;
  tst_ops : Z;
}.

(** [struct nx_blkdev] with the static state of the file.  [k_cache] holds the entries in
    use of [cache], oldest first, and [k_free] those of [free_pages], the last one first;
    [k_mem] is the content of the cache pages by physical address. *)
Record nx_blkdev (H : Type) := mk_blkdev {
  k_dev : nx_vblk H;
  k_blocks : Z;
  k_reads : Z;
  k_writes : Z;
  k_flushes : Z;
  k_test : nx_blk_test;
  k_cache : list (Z * Z);
  k_free : list Z;
  k_ready : bool;
  k_mem : Z -> list Z;
}.
Arguments mk_blkdev {H}.
Arguments k_dev {H}.
Arguments k_blocks {H}.
Arguments k_reads {H}.
Arguments k_writes {H}.
Arguments k_flushes {H}.
Arguments k_test {H}.
Arguments k_cache {H}.
Arguments k_free {H}.
Arguments k_ready {H}.
Arguments k_mem {H}.

Section ops.
Context {H : Type} `{!vblk_hw H}.
Implicit Types (d : nx_vblk H) (b : nx_blkdev H).

Definition with_hw (h : H) d : nx_vblk H := mk_vblk h (vb_sectors d) (vb_read_only d) (vb_has_flush d) (vb_pages d).
Definition with_pages (p : list (list Z)) d : nx_vblk H := mk_vblk (vb_hw d) (vb_sectors d) (vb_read_only d) (vb_has_flush d) p.

(** Data pages of a request. *)
Definition request_pages (bytes : Z) : Z := u32 (bytes + 4095) / 4096.

(** The range check of both transfers. *)
Definition bad_range d (sector bytes : Z) : bool :=
  (bytes =? 0) || negb (bytes mod NX_VBLK_SECTOR =? 0) || (u64 (sector + bytes / NX_VBLK_SECTOR) >? vb_sectors d).

Definition nx_vblk_read d (sector bytes : Z) : Z * nx_vblk H :=
  if bad_range d sector bytes then (NX_VBLK_E_RANGE, d)
  else if request_pages bytes >? NX_VBLK_MAX_PAGES then (NX_VBLK_E_RANGE, d)
  else
    let '(st, p, h) := hw_in (vb_hw d) sector bytes in
    (st, with_pages (p ++ drop (length p) (vb_pages d)) (with_hw h d)).

Definition nx_vblk_write d (sector bytes : Z) : Z * nx_vblk H :=
  if bad_range d sector bytes then (NX_VBLK_E_RANGE, d)
  else if request_pages bytes >? NX_VBLK_MAX_PAGES then (NX_VBLK_E_RANGE, d)
  else
    let '(st, h) := hw_out (vb_hw d) sector bytes (take (Z.to_nat (request_pages bytes)) (vb_pages d)) in
    (st, with_hw h d).

Definition nx_vblk_flush d : Z * nx_vblk H :=
  if negb (vb_has_flush d) then (NX_VBLK_E_UNSUPP, d)
  else let '(st, h) := hw_flush (vb_hw d) in (st, with_hw h d).

Definition with_dev (d : nx_vblk H) b : nx_blkdev H :=
  mk_blkdev d (k_blocks b) (k_reads b) (k_writes b) (k_flushes b) (k_test b) (k_cache b) (k_free b) (k_ready b) (k_mem b).
Definition with_counts (r w f : Z) b : nx_blkdev H :=
  mk_blkdev (k_dev b) (k_blocks b) r w f (k_test b) (k_cache b) (k_free b) (k_ready b) (k_mem b).
Definition with_cache (c : list (Z * Z)) (fr : list Z) (m : Z -> list Z) b : nx_blkdev H :=
  mk_blkdev (k_dev b) (k_blocks b) (k_reads b) (k_writes b) (k_flushes b) (k_test b) c fr (k_ready b) m.
Definition with_ops (n : Z) b : nx_blkdev H :=
  let t := k_test b in
  mk_blkdev (k_dev b) (k_blocks b) (k_reads b) (k_writes b) (k_flushes b)
    (mk_test (tst_enabled t) (tst_volatile_cache t) (tst_flush_noop t) (tst_crash_at t) (tst_lose t) n)
    (k_cache b) (k_free b) (k_ready b) (k_mem b).

Definition nx_blk_pending b : Z := Z.of_nat (length (k_cache b)).

(** ** Device access *)

Definition status (st : Z) : res unit := if st =? NX_VBLK_OK then Ok () else Err NX_EIO.

(** [memcpy] of the blocks [src] to the bounce pages, then one request. *)
Definition dev_write b (blk count : Z) (src : list (list Z)) : res unit * nx_blkdev H :=
  let pages := for_each (seqZ 0 count) (fun p i => p.[i := src.[i]]) (vb_pages (k_dev b)) in
  let '(st, d) := nx_vblk_write (with_pages pages (k_dev b)) (u64 (blk * SECTORS_PER_BLOCK)) (u32 (count * NX_BLK_SIZE)) in
  (status st, with_dev d b).

Definition dev_flush b : res unit * nx_blkdev H :=
  let '(st, d) := nx_vblk_flush (k_dev b) in (status st, with_dev d b).

(** One entry of the cache. *)
Definition cache_writeback b (e : Z * Z) : res unit * nx_blkdev H := dev_write b e.1 1 [k_mem b e.2].

(** With an empty cache [cache_n--] would wrap; the callers exclude it. *)
Definition cache_evict_oldest b : res unit * nx_blkdev H :=
  match k_cache b with
  | [] => (Err NX_EIO, b)
  | e :: c => let '(st, b) := cache_writeback b e in (st, with_cache c (e.2 :: k_free b) (k_mem b) b)
  end.

(** ** Crash point *)

(** The newest entry is the one with nothing after it. *)
Definition crash_entry (lose : nx_blk_lose) (newest : bool) b (e : Z * Z) : nx_blkdev H :=
  let keep := bool_decide (lose = NX_LOSE_NONE) || (bool_decide (lose = NX_LOSE_TORN) && negb newest) || (bool_decide (lose = NX_LOSE_REORDER) && newest) in
  if keep then (cache_writeback b e).2
  else if bool_decide (lose = NX_LOSE_TORN) && newest then
    let page := take (Z.to_nat (NX_BLK_SIZE / 2)) (k_mem b e.2) ++ drop (Z.to_nat (NX_BLK_SIZE / 2)) (vb_pages (k_dev b)).[0] in
    with_dev (nx_vblk_write (with_pages ((vb_pages (k_dev b)).[0 := page]) (k_dev b)) (u64 (e.1 * SECTORS_PER_BLOCK)) (NX_BLK_SIZE / 2)).2 b
  else b.

Fixpoint crash_loop (lose : nx_blk_lose) (c : list (Z * Z)) b : nx_blkdev H :=
  match c with
  | [] => b
  | e :: c => crash_loop lose c (crash_entry lose (bool_decide (c = [])) b e)
  end.

Definition crash b : nx_blkdev H :=
  let b := crash_loop (tst_lose (k_test b)) (k_cache b) b in
  if vb_has_flush (k_dev b) then with_dev (nx_vblk_flush (k_dev b)).2 b else b.

(** A kernel function that may stop the machine: [Stopped b] is the state it stops in. *)
Inductive outcome (A : Type) : Type :=
| Ret (r : res A) (b : nx_blkdev H)
| Stopped (b : nx_blkdev H).
Arguments Ret {A} r b.
Arguments Stopped {A} b.

(** The machine stops ([inl]) when the operation is the crash point. *)
Definition count_op b : nx_blkdev H + nx_blkdev H :=
  let t := k_test b in
  if negb (tst_enabled t) then inr b
  else
    let b := with_ops (u32 (tst_ops t + 1)) b in
    if negb (tst_crash_at t =? 0) && (u32 (tst_ops t + 1) =? tst_crash_at t) then inl (crash b) else inr b.

(** ** Operations *)

Definition bad_blocks b (blk count : Z) : bool :=
  (count =? 0) || (count >? NX_BLK_IO_MAX) || (blk >=? k_blocks b) || (count >? k_blocks b - blk).

(** Newer data from the cache over the blocks read, oldest first. *)
Definition overlay b (blk count : Z) (dst : list (list Z)) : list (list Z) :=
  for_each (k_cache b)
    (fun dst e => if (e.1 >=? blk) && (e.1 <? blk + count) then dst.[e.1 - blk := k_mem b e.2] else dst) dst.

Definition nx_blk_read b (blk count : Z) : outcome (list (list Z)) :=
  if bad_blocks b blk count then Ret (Err NX_EINVAL) b
  else
    let '(st, d) := nx_vblk_read (k_dev b) (u64 (blk * SECTORS_PER_BLOCK)) (u32 (count * NX_BLK_SIZE)) in
    let b := with_dev d b in
    if negb (st =? NX_VBLK_OK) then Ret (Err NX_EIO) b
    else
      let dst := (fun i => (vb_pages d).[i]) <$> seqZ 0 count in
      Ret (Ok (overlay b blk count dst)) (with_counts (u64 (k_reads b + 1)) (k_writes b) (k_flushes b) b).

(** One block into the cache; a full cache gives up its oldest block first. *)
Definition cache_add b (blk : Z) (data : list Z) : res unit * nx_blkdev H :=
  let '(st, b) := match k_free b with [] => cache_evict_oldest b | _ :: _ => (Ok (), b) end in
  match st, k_free b with
  | Err _, _ => (Err NX_EIO, b)
  | Ok _, [] => (Err NX_EIO, b) (* excluded: the eviction freed a page *)
  | Ok _, pa :: fr => (Ok (), with_cache (k_cache b ++ [(blk, pa)]) fr (fun x => if x =? pa then data else k_mem b x) b)
  end.

Fixpoint cache_blocks b (blk : Z) (src : list (list Z)) : res unit * nx_blkdev H :=
  match src with
  | [] => (Ok (), b)
  | data :: src =>
      match cache_add b blk data with
      | (Ok _, b) => cache_blocks b (blk + 1) src
      | (Err e, b) => (Err e, b)
      end
  end.

Definition caching b : bool := tst_enabled (k_test b) && tst_volatile_cache (k_test b) && k_ready b.

Definition nx_blk_write b (blk count : Z) (src : list (list Z)) : outcome unit :=
  if bad_blocks b blk count then Ret (Err NX_EINVAL) b
  else if vb_read_only (k_dev b) then Ret (Err NX_EIO) b
  else
    match count_op b with
    | inl b => Stopped b
    | inr b =>
        let b := with_counts (k_reads b) (u64 (k_writes b + 1)) (k_flushes b) b in
        let '(st, b) := if negb (caching b) then dev_write b blk count src else cache_blocks b blk src in
        Ret st b
    end.

(** Write every cached block back, oldest first, up to the first failure. *)
Fixpoint writeback_all (c : list (Z * Z)) b : res unit * nx_blkdev H :=
  match c with
  | [] => (Ok (), b)
  | e :: c =>
      match cache_writeback b e with
      | (Ok _, b) => writeback_all c b
      | (Err _, b) => (Err NX_EIO, b)
      end
  end.

Definition nx_blk_flush b : outcome unit :=
  match count_op b with
  | inl b => Stopped b
  | inr b =>
      let t := k_test b in
      let b := with_counts (k_reads b) (k_writes b) (u64 (k_flushes b + 1)) b in
      if tst_enabled t && tst_flush_noop t then Ret (Ok ()) b
      else if tst_enabled t && tst_volatile_cache t then
        match writeback_all (k_cache b) b with
        | (Err e, b) => Ret (Err e) b
        | (Ok _, b) => let '(st, b) := dev_flush (with_cache [] (rev ((k_cache b).*2) ++ k_free b) (k_mem b) b) in Ret st b
        end
      else let '(st, b) := dev_flush b in Ret st b
  end.

(** ** System calls *)

(** [look]: what [blk_lookup] says of the handle; [copy]: whether the user buffer can be
    written, or could be copied to [src].  Success stands for the number of blocks. *)
Definition sys_blk_read (look copy : res unit) b (blk count : Z) : outcome (list (list Z)) :=
  match look with
  | Err e => Ret (Err e) b
  | Ok _ =>
      if (count =? 0) || (count >? NX_BLK_IO_MAX) || (blk >=? k_blocks b) || (count >? k_blocks b - blk) then Ret (Err NX_EINVAL) b
      else match copy with Err e => Ret (Err e) b | Ok _ => nx_blk_read b blk count end
  end.

Definition sys_blk_write (look copy : res unit) b (blk count : Z) (src : list (list Z)) : outcome unit :=
  match look with
  | Err e => Ret (Err e) b
  | Ok _ =>
      if (count =? 0) || (count >? NX_BLK_IO_MAX) || (blk >=? k_blocks b) || (count >? k_blocks b - blk) then Ret (Err NX_EINVAL) b
      else match copy with Err e => Ret (Err e) b | Ok _ => nx_blk_write b blk count src end
  end.

Definition sys_blk_flush (look : res unit) b : outcome unit :=
  match look with Err e => Ret (Err e) b | Ok _ => nx_blk_flush b end.

(** The pages of the emulated cache; [None]: out of memory, a panic. *)
Fixpoint setup_pages (n : nat) (free : list Z) (p : nx_pmm) : option (list Z * nx_pmm) :=
  match n with
  | O => Some (free, p)
  | S n => let '(pa, p) := nx_pmm_alloc p in if pa =? 0 then None else setup_pages n (pa :: free) p
  end.

Definition nx_blk_test_setup b (p : nx_pmm) : option (nx_blkdev H * nx_pmm) :=
  if k_ready b then Some (b, p)
  else
    '(free, p) ← setup_pages (Z.to_nat NX_BLK_CACHE_PAGES) (k_free b) p;
    Some (mk_blkdev (k_dev b) (k_blocks b) (k_reads b) (k_writes b) (k_flushes b) (k_test b) (k_cache b) free true (k_mem b), p).
End ops.
Arguments Ret {H A} r b.
Arguments Stopped {H A} b.
Arguments outcome : clear implicits.
