(* ===== verification/BlkThm.v ===== *)
(** * Block device layer: the device contract of the store

    The kernel's block layer, with or without its emulated write cache and crash point,
    over any virtio device obeying [VblkLaws] satisfies the contract [StDevLaws] the store
    relies on.  Two conditions are needed and kept: flushes are not switched off
    ([honest_flush]), and with the emulated cache on the device fails no write
    ([reliable_writeback]).  Every theorem on the store therefore holds for the store on this layer;
    the crash theorem is stated for it. *)
From S2P Require Import Prelude Bytes Abi BootAbi Bitmap Pmm StoreFmt Store StoreDev Blk.

(** ** What the driver relies on *)

(** [hw_view] is what reads return, [hw_durable h img] says that the medium may hold [img]
    when power fails.  A request for [c] blocks from block [b] on covers [c * 4096] bytes
    from sector [b * 8] on; the last block of a write may be written in part, up to the end
    of a sector.  A [hw_readable] device does not fail reads, a [hw_reliable]
    one does not fail writes. *)
Class VblkLaws (H : Type) `{!vblk_hw H} := {
  hw_view : H -> Z -> list Z;
  hw_durable : H -> (Z -> list Z) -> Prop;
  hw_readable : H -> Prop;
  hw_reliable : H -> Prop;
  hw_in_data h b c st p h' :
    hw_in h (b * 8) (c * 4096) = (st, p, h') -> st = NX_VBLK_OK -> p = hw_view h <$> seqZ b c;
  hw_in_pages h b c : 0 <= c -> length (hw_in h (b * 8) (c * 4096)).1.2 = Z.to_nat c;
  hw_in_view h s n x : hw_view (hw_in h s n).2 x = hw_view h x;
  hw_in_durable h s n img : hw_durable (hw_in h s n).2 img -> hw_durable h img;
  hw_in_readable h s n : hw_readable h -> (hw_in h s n).1.1 = NX_VBLK_OK /\ hw_readable (hw_in h s n).2;
  hw_in_reliable h s n : hw_reliable h -> hw_reliable (hw_in h s n).2;
  hw_out_view_in h b p x :
    (hw_out h (b * 8) (Z.of_nat (length p) * 4096) p).1 = NX_VBLK_OK -> in_write b (Z.of_nat (length p)) x ->
    hw_view (hw_out h (b * 8) (Z.of_nat (length p) * 4096) p).2 x = p.[x - b];
  hw_out_view_out h b p x :
    ~ in_write b (Z.of_nat (length p)) x -> hw_view (hw_out h (b * 8) (Z.of_nat (length p) * 4096) p).2 x = hw_view h x;
  hw_out_durable h b n p img :
    (Z.of_nat (length p) - 1) * 4096 < n <= Z.of_nat (length p) * 4096 -> n mod 512 = 0 ->
    hw_durable (hw_out h (b * 8) n p).2 img ->
    exists img0, hw_durable h img0 /\ forall x,
      img x = img0 x \/ (in_write b (Z.of_nat (length p)) x /\ leaves p.[x - b] (img x));
  hw_out_readable h s n p : hw_readable h -> hw_readable (hw_out h s n p).2;
  hw_out_reliable h s n p : hw_reliable h -> (hw_out h s n p).1 = NX_VBLK_OK /\ hw_reliable (hw_out h s n p).2;
  hw_flush_view h x : hw_view (hw_flush h).2 x = hw_view h x;
  hw_flush_durable h img :
    hw_durable (hw_flush h).2 img -> hw_durable h img /\ ((hw_flush h).1 = NX_VBLK_OK -> forall x, img x = hw_view h x);
  hw_flush_readable h : hw_readable h -> hw_readable (hw_flush h).2;
  hw_flush_reliable h : hw_reliable h -> hw_reliable (hw_flush h).2;
}.

(** ** The device of the store *)

(** A machine that runs, or one that reached its crash point in state [b0] and left [b].
    Nothing runs after the stop: the device then fails every write and flush, and reads
    show what they would have shown before the stop. *)
Inductive machine (H : Type) : Type :=
| Up (b : nx_blkdev H)
| Down (b0 b : nx_blkdev H).
Arguments Up {H} b.
Arguments Down {H} b0 b.

Section device.
Context {H : Type} `{!vblk_hw H}.
Implicit Types (b : nx_blkdev H) (m : machine H).

(** The device functions of [user/core/persist.c]: the handle of the block device is valid
    with the rights to read and write, and the buffers are the program's own memory, so
    looking up and copying succeed.  [d_read] is for one block, the only size the store asks
    for. *)
Definition d_read m (blk : Z) : option (list Z) * machine H :=
  match m with
  | Down b0 _ => (match sys_blk_read (Ok ()) (Ok ()) b0 blk 1 with Ret (Ok p) _ => Some p.[0] | _ => None end, m)
  | Up b =>
      match sys_blk_read (Ok ()) (Ok ()) b blk 1 with
      | Ret (Ok p) b' => (Some p.[0], Up b')
      | Ret (Err _) b' => (None, Up b')
      | Stopped b' => (None, Down b b')
      end
  end.

Fixpoint d_write (fuel : nat) m (blk : Z) (bs : list (list Z)) : bool * machine H :=
  let n := Z.of_nat (length bs) in
  if n =? 0 then (true, m)
  else
    match fuel, m with
    | S fuel, Up b =>
        let k := if n >? NX_BLK_IO_MAX then NX_BLK_IO_MAX else n in
        match sys_blk_write (Ok ()) (Ok ()) b blk k (take (Z.to_nat k) bs) with
        | Ret (Ok _) b' => d_write fuel (Up b') (u64 (blk + k)) (drop (Z.to_nat k) bs)
        | Ret (Err _) b' => (false, Up b')
        | Stopped b' => (false, Down b b')
        end
    | _, _ => (false, m)
    end.

Definition d_flush m : bool * machine H :=
  match m with
  | Down _ _ => (false, m)
  | Up b =>
      match sys_blk_flush (Ok ()) b with
      | Ret (Ok _) b' => (true, Up b')
      | Ret (Err _) b' => (false, Up b')
      | Stopped b' => (false, Down b b')
      end
  end.
End device.

(** The system calls check what the block layer checks again. *)
Lemma sys_read_eq {H : Type} `{!vblk_hw H} (b : nx_blkdev H) (blk c : Z) : sys_blk_read (Ok ()) (Ok ()) b blk c = nx_blk_read b blk c.
Proof. unfold sys_blk_read, nx_blk_read. fold (bad_blocks b blk c). by destruct (bad_blocks b blk c). Qed.

Lemma sys_write_eq {H : Type} `{!vblk_hw H} (b : nx_blkdev H) (blk c : Z) src : sys_blk_write (Ok ()) (Ok ()) b blk c src = nx_blk_write b blk c src.
Proof. unfold sys_blk_write, nx_blk_write. fold (bad_blocks b blk c). by destruct (bad_blocks b blk c). Qed.

Section spec.
Context {H : Type} `{!vblk_hw H, !VblkLaws H}.
Implicit Types (b : nx_blkdev H) (h : H) (m : machine H).

Abbreviation hw b := (vb_hw (k_dev b)).

(** The cached writes, oldest first. *)
Definition cached b : list (Z * list Z) := (fun e => (e.1, k_mem b e.2)) <$> k_cache b.

Definition blk_view b (x : Z) : list Z := cache_block (rev (cached b)) x (hw_view (hw b) x).

(** What the medium may hold when power fails with the writes [W] on their way. *)
Definition possible (W : list (Z * list Z)) (x : Z) (c : list Z) : Prop := Exists (fun e => e.1 = x /\ leaves e.2 c) W.

#[export] Instance possible_decision W x c : Decision (possible W x c).
Proof. unfold possible. apply _. Defined.

Definition poss h (W : list (Z * list Z)) (img : Z -> list Z) : Prop :=
  exists img0, hw_durable h img0 /\ forall x, img x = img0 x \/ possible W x (img x).

(** The state the boot code sets up and every operation keeps. *)
Record blk_wf b : Prop := {
  bo_sectors : fits 64 (vb_sectors (k_dev b));
  bo_blocks : k_blocks b = vb_sectors (k_dev b) / SECTORS_PER_BLOCK;
  bo_pages : Z.of_nat (length (vb_pages (k_dev b))) = NX_VBLK_MAX_PAGES;
  bo_empty : caching b = false -> k_cache b = [];
  bo_count : k_ready b = true -> Z.of_nat (length (k_cache b)) + Z.of_nat (length (k_free b)) = NX_BLK_CACHE_PAGES;
  bo_distinct : NoDup ((k_cache b).*2 ++ k_free b);
  bo_range : Forall (fun e => 0 <= e.1 < k_blocks b) (k_cache b);
}.

(** The test switch that makes flushes do nothing is off. *)
Definition honest_flush b : Prop := tst_flush_noop (k_test b) = false.

(** While the emulated cache is on, the device does not fail writes: [cache_evict_oldest]
    drops a block whose write-back failed ([BlkStore.evict_failure_loses_write]). *)
Definition reliable_writeback b : Prop := caching b = true -> hw_reliable (hw b).

Record blk_ok b : Prop := {
  bo_wf :> blk_wf b;
  bo_noop : honest_flush b;
  bo_reliable : reliable_writeback b;
}.

(** ** Lemmas: what power failure may leave *)

Lemma possible_app W1 W2 x c : possible (W1 ++ W2) x c <-> possible W1 x c \/ possible W2 x c.
Proof. apply Exists_app. Qed.

Lemma poss_mono h W W' img : (forall x c, possible W x c -> possible W' x c) -> poss h W img -> poss h W' img.
Proof. intros Hs (img0 & Hd & Hi). exists img0. split; [done|]. intros x. destruct (Hi x); auto. Qed.

(** The blocks of a write with their numbers. *)
Definition numbered (n0 : Z) (p : list (list Z)) : list (Z * list Z) := imap (fun i c => (n0 + Z.of_nat i, c)) p.

Lemma numbered_possible n0 p x c :
  in_write n0 (Z.of_nat (length p)) x -> leaves p.[x - n0] c -> possible (numbered n0 p) x c.
Proof.
  intros Hx Hc. unfold in_write in Hx. apply Exists_exists. exists (x, p.[x - n0]). split; [|done].
  apply list_elem_of_lookup. exists (Z.to_nat (x - n0)). unfold numbered. rewrite list_lookup_imap.
  rewrite (list_lookup_lookup_total_lt p) by lia. simpl. do 2 f_equal. lia.
Qed.

Lemma possible_numbered n0 p x c :
  possible (numbered n0 p) x c -> in_write n0 (Z.of_nat (length p)) x /\ leaves p.[x - n0] c.
Proof.
  intros ([y d] & Hin & Hy & Hl)%Exists_exists. simpl in Hy, Hl. subst y.
  apply imap_cache_elem in Hin as [Hx ->]. done.
Qed.

Lemma possible_nil x c : ~ possible [] x c.
Proof. by intros ?%Exists_nil. Qed.

Lemma poss_out h n0 n p st h' W img :
  hw_out h (n0 * 8) n p = (st, h') -> (Z.of_nat (length p) - 1) * 4096 < n <= Z.of_nat (length p) * 4096 -> n mod 512 = 0 ->
  poss h' W img -> poss h (W ++ numbered n0 p) img.
Proof.
  intros E Hn Hm (img1 & Hd & Hi). pose proof (hw_out_durable h n0 n p img1 Hn Hm) as Hl. rewrite E in Hl.
  destruct (Hl Hd) as (img0 & Hd0 & Hi0). exists img0. split; [done|]. intros x. rewrite possible_app.
  destruct (Hi x) as [Hx|Hx]; [|tauto]. rewrite Hx. destruct (Hi0 x) as [Hx0|[Hw Hv]]; [by left|].
  right. right. by apply numbered_possible.
Qed.

Lemma poss_flush h st h' W img : hw_flush h = (st, h') -> poss h' W img -> poss h W img.
Proof.
  intros E (img0 & Hd & Hi). exists img0. split; [|done]. pose proof (hw_flush_durable h img0) as Hl. rewrite E in Hl. by apply Hl.
Qed.

Lemma poss_in h s n W img : poss (hw_in h s n).2 W img -> poss h W img.
Proof. intros (img0 & Hd & Hi). exists img0. split; [by eapply hw_in_durable|done]. Qed.

(** Splitting off the writes of one operation. *)
Lemma poss_split h W N img :
  poss h (W ++ N) img -> exists img1, poss h W img1 /\ forall x, img x = img1 x \/ possible N x (img x).
Proof.
  intros (img0 & Hd & Hi). exists (fun x => if decide (possible W x (img x)) then img x else img0 x). split.
  - exists img0. split; [done|]. intros x. case_decide; auto.
  - intros x. case_decide; [by left|]. destruct (Hi x) as [|Hp%possible_app]; tauto.
Qed.

(** ** Lemmas: cached blocks *)

Lemma cache_block_key c x v v' : x ∈ c.*1 -> cache_block c x v = cache_block c x v'.
Proof.
  induction c as [|[y d] c IH]; simpl; [by intros ?%elem_of_nil|]. destruct (Z.eqb_spec y x) as [|Hne]; [done|].
  intros [->|Hx]%elem_of_cons; [done|auto].
Qed.

Lemma cache_block_notin c x v : x ∉ c.*1 -> cache_block c x v = v.
Proof.
  induction c as [|[y d] c IH]; simpl; [done|]. rewrite not_elem_of_cons. intros [Hne Hx].
  rewrite (proj2 (Z.eqb_neq y x)) by done. auto.
Qed.

Lemma cache_block_snoc c y d x v : cache_block (rev (c ++ [(y, d)])) x v = if y =? x then d else cache_block (rev c) x v.
Proof. by rewrite rev_app_distr. Qed.

Lemma cache_block_first c y d x v : cache_block (rev ((y, d) :: c)) x v = cache_block (rev c) x (if y =? x then d else v).
Proof. simpl. by rewrite cache_block_app. Qed.

(** ** Lemmas: requests *)

(** Only the device and the bounce pages differ. *)
Definition moved b b' : Prop :=
  exists h p, Z.of_nat (length p) = NX_VBLK_MAX_PAGES /\ b' = with_dev (with_hw h (with_pages p (k_dev b))) b.

Lemma moved_trans b1 b2 b3 : moved b1 b2 -> moved b2 b3 -> moved b1 b3.
Proof. intros (h & p & Hp & ->) (h' & p' & Hp' & ->). by exists h', p'. Qed.

Lemma moved_refl b : Z.of_nat (length (vb_pages (k_dev b))) = NX_VBLK_MAX_PAGES -> moved b b.
Proof. intros Hp. exists (hw b), (vb_pages (k_dev b)). split; [done|]. by destruct b as [[] ? ? ? ? ? ? ? ?]. Qed.

Lemma moved_ok b b' : blk_ok b -> moved b b' -> (hw_reliable (hw b) -> hw_reliable (hw b')) -> blk_ok b'.
Proof.
  intros [[] Hn Hrel] (h & p & Hp & ->) Hr. split; [by split|done|]. intros Hc. apply Hr, Hrel, Hc.
Qed.

(** A write request of the blocks [p] from block [n0] on. *)
Record wrote b (n0 : Z) (p : list (list Z)) (r : res unit) b' : Prop := {
  wr_moved : moved b b';
  wr_poss W img : poss (hw b') W img -> poss (hw b) (W ++ numbered n0 p) img;
  wr_out x : ~ in_write n0 (Z.of_nat (length p)) x -> hw_view (hw b') x = hw_view (hw b) x;
  wr_in x : r = Ok () -> in_write n0 (Z.of_nat (length p)) x -> hw_view (hw b') x = p.[x - n0];
  wr_reliable : hw_reliable (hw b) -> r = Ok () /\ hw_reliable (hw b');
  wr_readable : hw_readable (hw b) -> hw_readable (hw b');
}.

Lemma bounce_pages (src pages : list (list Z)) n :
  n = Z.of_nat (length src) -> n <= Z.of_nat (length pages) ->
  for_each (seqZ 0 n) (fun p i => p.[i := src.[i]]) pages = src ++ drop (Z.to_nat n) pages.
Proof.
  intros Hn Hl.
  pose proof (for_seqZ (fun i (p : list (list Z)) => p = take (Z.to_nat i) src ++ drop (Z.to_nat i) pages)
    (fun p i => p.[i := src.[i]]) 0 n pages ltac:(lia) eq_refl) as Hi. simpl in Hi. rewrite Hi.
  - by rewrite take_ge by lia.
  - intros i s Hi' ->. rewrite insert_app_r_alt by (rewrite length_take; lia). rewrite length_take_le by lia.
    rewrite Nat.sub_diag. assert (Hd : is_Some (pages !! Z.to_nat i)) by (apply lookup_lt_is_Some; lia). destruct Hd as [y Hy].
    rewrite (drop_S _ y) by done. simpl. replace (Z.to_nat (i + 1)) with (S (Z.to_nat i)) by lia.
    rewrite (take_S_r _ _ src.[i]) by (apply list_lookup_lookup_total_lt; lia). by rewrite <- (assoc_L (++)).
Qed.

Lemma request_ok d (n0 c : Z) :
  fits 64 (vb_sectors d) -> 0 <= n0 -> 1 <= c <= NX_BLK_IO_MAX -> n0 + c <= vb_sectors d / SECTORS_PER_BLOCK ->
  u64 (n0 * SECTORS_PER_BLOCK) = n0 * 8 /\ u32 (c * NX_BLK_SIZE) = c * 4096 /\
  bad_range (H := H) d (n0 * 8) (c * 4096) = false /\ request_pages (c * 4096) = c.
Proof.
  unfold NX_BLK_IO_MAX, fits. change SECTORS_PER_BLOCK with 8. change NX_BLK_SIZE with 4096. intros Hs H0 Hc Hr.
  assert (Hm : (n0 + c) * 8 <= vb_sectors d) by dlia.
  split; [apply wrap_small; unfold fits; lia|]. split; [apply wrap_small; unfold fits; lia|]. split.
  - unfold bad_range, NX_VBLK_SECTOR. replace (c * 4096) with (c * 8 * 512) by lia. rewrite Z.mod_mul, Z.div_mul by lia. rewrite wrap_small by (unfold fits; lia).
    rewrite (proj2 (Z.eqb_neq _ _)) by lia. simpl. rewrite Z.gtb_ltb. apply Z.ltb_ge. lia.
  - unfold request_pages. rewrite wrap_small by (unfold fits; lia). dlia.
Qed.

Lemma status_ok st : status st = Ok () <-> st = NX_VBLK_OK.
Proof. unfold status, NX_VBLK_OK. destruct (Z.eqb_spec st 0); split; congruence. Qed.

Lemma dev_write_wrote b (n0 c : Z) p :
  blk_ok b -> 0 <= n0 -> 1 <= c <= NX_BLK_IO_MAX -> c = Z.of_nat (length p) -> n0 + c <= k_blocks b ->
  wrote b n0 p (dev_write b n0 c p).1 (dev_write b n0 c p).2.
Proof.
  intros Hb H0 Hc Hp Hn. rewrite (bo_blocks _ Hb) in Hn. pose proof (bo_pages _ Hb) as Hpg. unfold NX_VBLK_MAX_PAGES, NX_BLK_IO_MAX in *.
  destruct (request_ok (k_dev b) n0 c (bo_sectors _ Hb) H0 Hc Hn) as (E1 & E2 & E3 & E4).
  unfold dev_write, nx_vblk_write. rewrite E1, E2, E4, bounce_pages by lia. cbn [vb_sectors vb_hw vb_pages with_pages].
  assert (E3' : bad_range (with_pages (p ++ drop (Z.to_nat c) (vb_pages (k_dev b))) (k_dev b)) (n0 * 8) (c * 4096) = false) by exact E3.
  rewrite E3'. unfold NX_VBLK_MAX_PAGES. rewrite Z.gtb_ltb, (proj2 (Z.ltb_ge 8 c)) by lia. rewrite take_app_le, take_ge by lia.
  destruct (hw_out (hw b) (n0 * 8) (c * 4096) p) as [st h'] eqn:E. cbn [fst snd].
  pose proof (hw_out_view_out (hw b) n0 p) as Ho. pose proof (hw_out_view_in (hw b) n0 p) as Hi. rewrite <- Hp in Ho, Hi. pose proof (hw_out_reliable (hw b) (n0 * 8) (c * 4096) p) as Hr.
  pose proof (hw_out_readable (hw b) (n0 * 8) (c * 4096) p) as Hrd. rewrite E in Ho, Hi, Hr, Hrd. cbn [fst snd] in *.
  split; cbn [k_dev vb_hw with_dev with_hw]; try rewrite <- Hp; auto.
  - exists h', (p ++ drop (Z.to_nat c) (vb_pages (k_dev b))). split; [|done]. rewrite length_app, length_drop. unfold NX_VBLK_MAX_PAGES. lia.
  - intros W img. eapply poss_out; [done|lia|dlia].
  - intros x Hst%status_ok Hw. auto.
  - intros Hrel. rewrite status_ok. auto.
Qed.

(** ** Lemmas: the cache *)

(** The writes a list of cache entries stands for. *)
Definition items b (c : list (Z * Z)) : list (Z * list Z) := (fun e => (e.1, k_mem b e.2)) <$> c.

Lemma items_keys b c : (items b c).*1 = c.*1.
Proof. unfold items. rewrite <- list_fmap_compose. by apply list_fmap_ext. Qed.

Lemma items_mem b (f : Z -> list Z) (c : list (Z * Z)) : (forall e, e ∈ c -> f e.2 = k_mem b e.2) -> (fun e => (e.1, f e.2)) <$> c = items b c.
Proof. intros Hm. apply list_fmap_ext. intros i e He. rewrite Hm; [done|]. by eapply list_elem_of_lookup_2. Qed.

Definition entry_ok b (e : Z * Z) : Prop := 0 <= e.1 < k_blocks b.

Lemma numbered_one n0 d : numbered n0 [d] = [(n0, d)].
Proof. unfold numbered. simpl. by rewrite Z.add_0_r. Qed.

Lemma writeback_wrote b e :
  blk_ok b -> entry_ok b e -> wrote b e.1 [k_mem b e.2] (cache_writeback b e).1 (cache_writeback b e).2.
Proof. intros Hb [H0 H1]. apply dev_write_wrote; simpl; unfold NX_BLK_IO_MAX; lia || done. Qed.

Lemma wrote_ok b n0 p r b' : blk_ok b -> wrote b n0 p r b' -> blk_ok b'.
Proof. intros Hb Hw. eapply moved_ok; [done|apply Hw|]. intros Hr. by apply (wr_reliable _ _ _ _ _ Hw). Qed.

Lemma moved_entries b b' c : moved b b' -> Forall (entry_ok b) c -> Forall (entry_ok b') c /\ items b' c = items b c.
Proof. by intros (h & p & Hp & ->). Qed.

Lemma moved_pages b b' : moved b b' -> Z.of_nat (length (vb_pages (k_dev b'))) = NX_VBLK_MAX_PAGES.
Proof. by intros (h & p & Hp & ->). Qed.

Lemma in_one n0 x : in_write n0 1 x <-> x = n0.
Proof. unfold in_write. lia. Qed.

Lemma poss_cons h W e W' img : poss h ((W ++ W') ++ [e]) img -> poss h (W ++ e :: W') img.
Proof.
  apply poss_mono. intros x c. change (e :: W') with ([e] ++ W'). rewrite !possible_app. tauto.
Qed.

Lemma writeback_all_spec c b :
  blk_ok b -> Forall (entry_ok b) c ->
  let r := (writeback_all c b).1 in
  let b' := (writeback_all c b).2 in
  moved b b' /\ (forall W img, poss (hw b') W img -> poss (hw b) (W ++ items b c) img) /\
  (forall x, x ∉ c.*1 -> hw_view (hw b') x = hw_view (hw b) x) /\
  (r = Ok () -> forall x, hw_view (hw b') x = cache_block (rev (items b c)) x (hw_view (hw b) x)) /\
  (hw_reliable (hw b) -> r = Ok () /\ hw_reliable (hw b')) /\ (hw_readable (hw b) -> hw_readable (hw b')).
Proof.
  revert b. induction c as [|e c IH]; intros b Hb Hc; cbn [writeback_all].
  { simpl. split_and!; try done; [by apply moved_refl, bo_pages, bo_wf|]. intros W img. by rewrite app_nil_r. }
  apply Forall_cons in Hc as [He Hc]. pose proof (writeback_wrote b e Hb He) as Hw.
  destruct (cache_writeback b e) as [r1 b1]. cbn [fst snd] in Hw.
  assert (Hout : forall x, x <> e.1 -> hw_view (hw b1) x = hw_view (hw b) x).
  { intros x Hx. apply (wr_out _ _ _ _ _ Hw). by rewrite in_one. }
  pose proof (wrote_ok _ _ _ _ _ Hb Hw) as Hb1. pose proof (moved_entries _ _ _ (wr_moved _ _ _ _ _ Hw) Hc) as [Hc1 Ei].
  assert (Hp1 : forall W img, poss (hw b1) W img -> poss (hw b) (W ++ [(e.1, k_mem b e.2)]) img).
  { intros W img Hp. apply (wr_poss _ _ _ _ _ Hw) in Hp. by rewrite numbered_one in Hp. }
  destruct r1 as [[]|e1]; cbn [fst snd].
  - specialize (IH b1 Hb1 Hc1). cbv zeta in IH. rewrite Ei in IH. destruct IH as (I1 & I2 & I3 & I4 & I5 & I6).
    destruct (writeback_all c b1) as [r b']. cbn [fst snd] in *. split_and!.
    + eapply moved_trans; [apply Hw|done].
    + intros W img Hp. apply I2, Hp1 in Hp. by apply poss_cons.
    + intros x [Hx1 Hx2]%not_elem_of_cons. by rewrite I3, Hout.
    + intros Hr x. rewrite I4 by done. change (items b (e :: c)) with ((e.1, k_mem b e.2) :: items b c). rewrite cache_block_first. f_equal.
      destruct (Z.eqb_spec e.1 x) as [<-|Hne]; [|by apply Hout].
      rewrite (wr_in _ _ _ _ _ Hw) by (done || by apply in_one). by rewrite Z.sub_diag.
    + intros Hr. apply I5. by apply (wr_reliable _ _ _ _ _ Hw).
    + intros Hr. apply I6. by apply (wr_readable _ _ _ _ _ Hw).
  - split_and!.
    + apply Hw.
    + intros W img Hp%Hp1. eapply poss_mono; [|exact Hp]. intros x d. change (items b (e :: c)) with ([(e.1, k_mem b e.2)] ++ items b c).
      rewrite !possible_app. tauto.
    + intros x [Hx1 Hx2]%not_elem_of_cons. by apply Hout.
    + done.
    + intros Hr. by destruct (wr_reliable _ _ _ _ _ Hw Hr).
    + apply Hw.
Qed.

(** The first half of a block over a bounce page leaves what the block itself could. *)
Lemma leaves_half (c page b : list Z) : leaves (take 2048 c ++ page) b -> leaves c b.
Proof.
  unfold leaves. intros Hl. destruct (decide (length c < 512)%nat) as [|Hn]; [by left|right].
  assert (Ht : take 512 (take 2048 c ++ page) = take 512 c) by (rewrite take_app_le, take_take by (rewrite length_take; lia); done).
  destruct Hl as [Hl|[Hl|Hl]]; [|left; congruence|by right]. rewrite length_app, length_take in Hl. lia.
Qed.

(** The torn write of the crash point. *)
Lemma half_write_spec b e page :
  blk_ok b -> entry_ok b e -> page = take 2048 (k_mem b e.2) ++ drop 2048 (vb_pages (k_dev b)).[0] ->
  let b' := with_dev (nx_vblk_write (with_pages ((vb_pages (k_dev b)).[0 := page]) (k_dev b)) (u64 (e.1 * SECTORS_PER_BLOCK)) 2048).2 b in
  moved b b' /\ (hw_reliable (hw b) -> hw_reliable (hw b')) /\
  forall W img, poss (hw b') W img -> poss (hw b) (W ++ [(e.1, k_mem b e.2)]) img.
Proof.
  intros Hb [H0 H1] Hpage. pose proof (bo_pages _ Hb) as Hpg. pose proof (bo_sectors _ Hb) as Hs. rewrite (bo_blocks _ Hb) in H1.
  change SECTORS_PER_BLOCK with 8 in *. unfold NX_VBLK_MAX_PAGES, fits in *. cbv zeta. unfold nx_vblk_write.
  rewrite (wrap_small 64) by (unfold fits; dlia).
  assert (Eb : bad_range (H := H) (with_pages ((vb_pages (k_dev b)).[0 := page]) (k_dev b)) (e.1 * 8) 2048 = false).
  { unfold bad_range. change (2048 / NX_VBLK_SECTOR) with 4. cbn [Z.eqb orb negb vb_sectors with_pages].
    rewrite (wrap_small 64) by (unfold fits; dlia). change (2048 mod NX_VBLK_SECTOR =? 0) with true. cbn [negb orb]. rewrite Z.gtb_ltb. apply Z.ltb_ge. dlia. }
  rewrite Eb. change (request_pages 2048) with 1. cbn [Z.gtb Z.compare]. cbn [vb_hw vb_pages with_pages].
  assert (Et : take (Z.to_nat 1) ((vb_pages (k_dev b)).[0 := page]) = [page]) by (destruct (vb_pages (k_dev b)); [done|]; done).
  assert (Hl : Z.of_nat (length ((vb_pages (k_dev b)).[0 := page])) = 8) by (by rewrite arr_set_length).
  rewrite Et. pose proof (hw_out_reliable (hw b) (e.1 * 8) 2048 [page]) as Hr.
  destruct (hw_out (hw b) (e.1 * 8) 2048 [page]) as [st h] eqn:E. cbn [fst snd] in *. split; [|split].
  - by exists h, ((vb_pages (k_dev b)).[0 := page]).
  - intros Hx. by apply Hr.
  - intros W img Hi. apply (poss_out _ _ _ _ _ _ _ _ E) in Hi; [|simpl; lia|done]. rewrite numbered_one in Hi.
    eapply poss_mono; [|exact Hi]. intros x d. rewrite !possible_app. intros [|Hx]; [by left|right].
    apply Exists_cons in Hx as [[Hx Hd]|Hx]; [|by apply Exists_nil in Hx]. left. split; [done|]. subst page. by eapply leaves_half.
Qed.

Lemma crash_loop_spec lose c b :
  blk_ok b -> Forall (entry_ok b) c ->
  blk_ok (crash_loop lose c b) /\ forall W img, poss (hw (crash_loop lose c b)) W img -> poss (hw b) (W ++ items b c) img.
Proof.
  revert b. induction c as [|e c IH]; intros b Hb Hc; cbn [crash_loop].
  { split; [done|]. intros W img. simpl. by rewrite app_nil_r. }
  apply Forall_cons in Hc as [He Hc].
  assert (Hs : exists b1, crash_entry lose (bool_decide (c = [])) b e = b1 /\ blk_ok b1 /\ moved b b1 /\
    forall W img, poss (hw b1) W img -> poss (hw b) (W ++ [(e.1, k_mem b e.2)]) img).
  { unfold crash_entry. destruct (_ || _); [|destruct (_ && _)].
    - pose proof (writeback_wrote b e Hb He) as Hw. eexists. split; [done|]. split; [by eapply wrote_ok|]. split; [apply Hw|].
      intros W img Hp. apply (wr_poss _ _ _ _ _ Hw) in Hp. by rewrite numbered_one in Hp.
    - change (NX_BLK_SIZE / 2) with 2048. destruct (half_write_spec b e _ Hb He eq_refl) as (Hm & Hr & Hp).
      eexists. split; [done|]. split; [by eapply moved_ok|]. done.
    - eexists. split; [done|]. split; [done|]. split; [by apply moved_refl, bo_pages, bo_wf|]. intros W img. apply poss_mono. intros x d. rewrite possible_app. tauto. }
  destruct Hs as (b1 & -> & Hb1 & Hm & Hp). destruct (moved_entries _ _ _ Hm Hc) as [Hc1 Ei].
  destruct (IH b1 Hb1 Hc1) as [I1 I2]. split; [done|]. intros W img Hi%I2%Hp. rewrite Ei in Hi. by apply poss_cons.
Qed.

Lemma crash_poss b img :
  blk_ok b -> poss (hw (crash b)) [] img -> poss (hw b) (cached b) img.
Proof.
  intros Hb. destruct (crash_loop_spec (tst_lose (k_test b)) (k_cache b) b Hb (bo_range _ Hb)) as [_ Hp]. unfold crash.
  set (b1 := crash_loop _ _ b) in *. intros Hi. apply (Hp [] img). revert Hi. destruct (vb_has_flush (k_dev b1)) eqn:E; [|done].
  unfold nx_vblk_flush. rewrite E. cbn [negb]. destruct (hw_flush (hw b1)) as [st h] eqn:Ef. cbn [snd with_dev k_dev with_hw vb_hw]. by eapply poss_flush.
Qed.

(** ** Lemmas: operations *)

(** What every operation keeps. *)
Record kept b b' : Prop := {
  kp_ok : blk_ok b';
  kp_blocks : k_blocks b' = k_blocks b;
  kp_caching : caching b' = caching b;
  kp_crash : tst_crash_at (k_test b') = tst_crash_at (k_test b);
  kp_readable : hw_readable (hw b) -> hw_readable (hw b');
}.

Lemma kept_trans b1 b2 b3 : kept b1 b2 -> kept b2 b3 -> kept b1 b3.
Proof. intros [] []. split; auto; congruence. Qed.

Lemma wrote_kept b n0 p r b' : blk_ok b -> wrote b n0 p r b' -> kept b b'.
Proof.
  intros Hb Hw. pose proof (wrote_ok _ _ _ _ _ Hb Hw) as Hb'. pose proof (wr_readable _ _ _ _ _ Hw). destruct (wr_moved _ _ _ _ _ Hw) as (h & p' & _ & ->). by split.
Qed.

Lemma with_ops_ok n b : blk_ok b -> blk_ok (with_ops n b).
Proof. intros [[]]. split; [by split|done|done]. Qed.

Lemma with_counts_ok x y z b : blk_ok b -> blk_ok (with_counts x y z b).
Proof. intros [[]]. split; [by split|done|done]. Qed.

Lemma count_op_spec b :
  blk_ok b ->
  match count_op b with
  | inl b' => forall img, poss (hw b') [] img -> poss (hw b) (cached b) img
  | inr b' => kept b b' /\ hw b' = hw b /\ cached b' = cached b
  end.
Proof.
  intros Hb. unfold count_op. destruct (tst_enabled (k_test b)) eqn:E; cbn [negb]; [|by split; [split|]].
  destruct (tst_crash_at (k_test b) =? 0) eqn:Ec; cbn [negb andb].
  - split; [|done]. split; simpl; try done. by apply with_ops_ok.
  - destruct (u32 _ =? _).
    + intros img Hi. apply crash_poss in Hi; [done|by apply with_ops_ok].
    + split; [|done]. split; simpl; try done. by apply with_ops_ok.
Qed.

Lemma overlay_get b (n0 c : Z) dst i :
  Z.of_nat (length dst) = c -> 0 <= i < c -> (overlay b n0 c dst).[i] = cache_block (rev (cached b)) (n0 + i) dst.[i].
Proof.
  intros Hl Hi. unfold overlay, cached. induction (k_cache b) as [|e l IH] using rev_ind; [done|].
  rewrite for_each_snoc, fmap_app. cbn [fmap list_fmap]. rewrite cache_block_snoc, <- IH.
  set (cur := for_each l _ dst).
  assert (Hlen : length cur = length dst).
  { unfold cur, for_each. clear. revert dst. induction l as [|e l IH]; intros dst; [done|]. cbn [fold_left]. rewrite IH. destruct (_ && _); [apply length_insert|done]. }
  destruct (Z.eqb_spec e.1 (n0 + i)) as [He|He].
  - rewrite He, Z.geb_leb, (proj2 (Z.leb_le _ _)), (proj2 (Z.ltb_lt _ _)) by lia. cbn [andb]. replace (n0 + i - n0) with i by lia. by rewrite arr_get_set_eq by lia.
  - destruct ((e.1 >=? n0) && (e.1 <? n0 + c)) eqn:Eb; [|done]. breflect. by rewrite arr_get_set_ne by lia.
Qed.

Lemma bad_blocks_false b (n0 c : Z) :
  0 <= c -> bad_blocks b n0 c = false <-> 1 <= c <= NX_BLK_IO_MAX /\ n0 < k_blocks b /\ n0 + c <= k_blocks b.
Proof.
  intros Hc. unfold bad_blocks, NX_BLK_IO_MAX. rewrite !orb_false_iff, Z.gtb_ltb, Z.geb_leb, Z.gtb_ltb, !Z.ltb_ge, Z.leb_gt, Z.eqb_neq. lia.
Qed.

Lemma read_spec b (n0 c : Z) r b' :
  blk_ok b -> 0 <= n0 -> 0 <= c -> nx_blk_read b n0 c = Ret r b' ->
  kept b b' /\ cached b' = cached b /\ (forall x, hw_view (hw b') x = hw_view (hw b) x) /\
  (forall W img, poss (hw b') W img -> poss (hw b) W img) /\
  (forall p, r = Ok p -> forall i, 0 <= i < c -> p.[i] = blk_view b (n0 + i)) /\
  (hw_readable (hw b) -> 1 <= c <= NX_BLK_IO_MAX -> n0 + c <= k_blocks b -> exists p, r = Ok p).
Proof.
  intros Hb H0 Hc0. unfold nx_blk_read. destruct (bad_blocks b n0 c) eqn:Eb.
  { intros [= <- <-]. split_and!; try done. intros _ Hc Hn. rewrite (proj2 (bad_blocks_false b n0 c Hc0)) in Eb; [done|lia]. }
  apply bad_blocks_false in Eb as (Hc & _ & Hn); [|done]. pose proof Hn as Hn'. rewrite (bo_blocks _ Hb) in Hn'.
  destruct (request_ok (k_dev b) n0 c (bo_sectors _ Hb) H0 Hc Hn') as (E1 & E2 & E3 & E4). unfold NX_BLK_IO_MAX in *.
  unfold nx_vblk_read. rewrite E1, E2, E3, E4, Z.gtb_ltb. unfold NX_VBLK_MAX_PAGES. rewrite (proj2 (Z.ltb_ge 8 c)) by lia.
  pose proof (hw_in_view (hw b) (n0 * 8) (c * 4096)) as Hv. pose proof (hw_in_durable (hw b) (n0 * 8) (c * 4096)) as Hd.
  pose proof (hw_in_readable (hw b) (n0 * 8) (c * 4096)) as Hr. pose proof (hw_in_reliable (hw b) (n0 * 8) (c * 4096)) as Hl.
  pose proof (hw_in_data (hw b) n0 c) as Hx. pose proof (hw_in_pages (hw b) n0 c Hc0) as Hp.
  destruct (hw_in (hw b) (n0 * 8) (c * 4096)) as [[st p] h] eqn:E. cbn [fst snd] in *. specialize (Hx _ _ _ eq_refl).
  set (d := with_pages _ _).
  assert (Hm : kept b (with_dev d b) /\ forall x y z, kept b (with_counts x y z (with_dev d b))).
  { assert (Ho : blk_ok (with_dev d b)).
    { eapply moved_ok; [done| |exact Hl]. exists h, (p ++ drop (length p) (vb_pages (k_dev b))). split; [|done].
      rewrite length_app, length_drop. pose proof (bo_pages _ Hb). unfold NX_VBLK_MAX_PAGES in *. lia. }
    split; [|intros x y z]; split; simpl; try done; try by apply with_counts_ok. all: intros Hz; by apply Hr. }
  destruct Hm as [Hm1 Hm2].
  assert (Hq : forall W img, poss h W img -> poss (hw b) W img) by (intros W img (img0 & ? & ?); exists img0; auto).
  destruct (Z.eqb_spec st NX_VBLK_OK) as [Est|Est]; cbn [negb]; intros [= <- <-].
  - split_and!; try done; [|by eauto]. intros q [= <-] i Hi. specialize (Hx Est).
    assert (Ed : (fun i => (vb_pages d).[i]) <$> seqZ 0 c = p).
    { rewrite arr_take_seqZ; cbn [vb_pages d with_pages]; [|rewrite length_app, length_drop; pose proof (bo_pages _ Hb); unfold NX_VBLK_MAX_PAGES in *; lia].
      by rewrite take_app_le, take_ge by lia. }
    match goal with |- context [overlay _ _ _ ?l] => replace l with p by (symmetry; exact Ed) end. rewrite overlay_get by (rewrite ?Hp; lia). unfold blk_view. change (cached (with_dev d b)) with (cached b). f_equal.
    rewrite Hx, list_lookup_total_alt, list_lookup_fmap, lookup_seqZ_lt by lia. simpl. f_equal. lia.
  - split_and!; try done. intros Hrd. by destruct (Hr Hrd).
Qed.

(** Giving up the oldest block of a full cache changes nothing that can be seen. *)
Lemma evict_spec b :
  blk_ok b -> caching b = true -> k_free b = [] ->
  exists b' pa, cache_evict_oldest b = (Ok (), b') /\ kept b b' /\ k_free b' = [pa] /\
    (forall x, blk_view b' x = blk_view b x) /\
    forall N img, poss (hw b') (cached b' ++ N) img -> poss (hw b) (cached b ++ N) img.
Proof.
  intros Hb Hc Hf. assert (Hrd : k_ready b = true) by (unfold caching in Hc; by destruct (k_ready b), (tst_enabled _ && _)).
  pose proof (bo_count _ Hb Hrd) as Hn. rewrite Hf in Hn. unfold cache_evict_oldest.
  destruct (k_cache b) as [|e c] eqn:Ec; [done|]. pose proof (bo_range _ Hb) as Hr. rewrite Ec in Hr. apply Forall_cons in Hr as [He Hr].
  pose proof (writeback_wrote b e Hb He) as Hw. destruct (cache_writeback b e) as [r b1]. cbn [fst snd] in Hw.
  destruct (wr_reliable _ _ _ _ _ Hw (bo_reliable _ Hb Hc)) as [-> Hrel]. pose proof (wrote_kept _ _ _ _ _ Hb Hw) as Hk.
  assert (Hin : hw_view (hw b1) e.1 = k_mem b e.2).
  { rewrite (wr_in _ _ _ _ _ Hw) by (done || by apply in_one). by rewrite Z.sub_diag. }
  pose proof (wr_out _ _ _ _ _ Hw) as Ho. pose proof (wr_poss _ _ _ _ _ Hw) as Hp. rewrite numbered_one in Hp.
  destruct (wr_moved _ _ _ _ _ Hw) as (h & p & Hpl & ->). pose proof (bo_distinct _ Hb) as Hnd. rewrite Ec, Hf in Hnd.
  eexists _, e.2. split; [done|]. simpl. rewrite Hf. split; [|split; [done|split]].
  - split; simpl; try done; [|apply Hk]. destruct (kp_ok _ _ Hk) as [[A1 A2 A3 A4 A5 A6 A7] A8 A9]. simpl in *.
    split; [split|done|done]; simpl; try done.
    + intros Hx. change (caching b = false) in Hx. congruence.
    + intros _. cbn [length] in *. lia.
    + rewrite app_nil_r in Hnd. by rewrite (Permutation_app_comm c.*2 [e.2]).
  - intros x. unfold blk_view, cached. simpl. rewrite Ec. cbn [fmap list_fmap]. rewrite cache_block_first. f_equal.
    destruct (Z.eqb_spec e.1 x) as [<-|Hne]; [done|]. apply Ho. rewrite in_one. congruence.
  - intros N img Hi%Hp. eapply poss_mono; [|exact Hi]. intros x d. assert (E : cached b = [(e.1, k_mem b e.2)] ++ items b c) by (unfold cached; by rewrite Ec).
    match goal with |- possible ((?l ++ _) ++ _) _ _ -> _ => change l with (items b c) end. rewrite E, !possible_app. tauto.
Qed.

Lemma cache_add_spec b (n0 : Z) data :
  blk_ok b -> caching b = true -> 0 <= n0 < k_blocks b ->
  exists b', cache_add b n0 data = (Ok (), b') /\ kept b b' /\
    (forall x, blk_view b' x = if n0 =? x then data else blk_view b x) /\
    forall N img, poss (hw b') (cached b' ++ N) img -> poss (hw b) (cached b ++ (n0, data) :: N) img.
Proof.
  intros Hb Hc Hn. unfold cache_add.
  assert (Hs : exists b1 pa fr, (match k_free b with [] => cache_evict_oldest b | _ :: _ => (Ok (), b) end) = (Ok (), b1) /\
    kept b b1 /\ k_free b1 = pa :: fr /\ (forall x, blk_view b1 x = blk_view b x) /\
    forall N img, poss (hw b1) (cached b1 ++ N) img -> poss (hw b) (cached b ++ N) img).
  { destruct (k_free b) as [|pa fr] eqn:Ef.
    - destruct (evict_spec b Hb Hc Ef) as (b1 & pa & -> & Hk & Hf & Hv & Hp). by exists b1, pa, [].
    - exists b, pa, fr. by split_and!. }
  destruct Hs as (b1 & pa & fr & -> & Hk & Hf & Hv & Hp). rewrite Hf. eexists. split; [done|].
  pose proof (kp_ok _ _ Hk) as Hb1. pose proof (bo_distinct _ Hb1) as Hnd. rewrite Hf in Hnd.
  assert (Hpa : pa ∉ (k_cache b1).*2) by (apply NoDup_app in Hnd as (_ & Hd & _); intros Hx; apply (Hd pa Hx); left).
  set (b2 := with_cache _ _ _ b1).
  assert (Ec : cached b2 = cached b1 ++ [(n0, data)]).
  { unfold cached, b2. simpl. rewrite fmap_app. simpl. rewrite Z.eqb_refl. f_equal. apply (items_mem b1 (fun x => if x =? pa then data else k_mem b1 x)). intros e He. simpl.
    destruct (Z.eqb_spec e.2 pa) as [E|]; [|done]. destruct Hpa. rewrite <- E. by apply list_elem_of_fmap_2. }
  split; [|split].
  - eapply kept_trans; [exact Hk|]. split; try done. destruct Hb1 as [[A1 A2 A3 A4 A5 A6 A7] A8 A9]. pose proof (kp_caching _ _ Hk) as Hcc.
    pose proof (kp_blocks _ _ Hk) as Hbb. split; [split|done|done]; simpl; try done.
    + intros Hx. change (caching b1 = false) in Hx. congruence.
    + intros Hx. specialize (A5 Hx). rewrite Hf in A5. rewrite length_app. cbn [length] in *. lia.
    + rewrite fmap_app, <- (assoc_L (++)). done.
    + apply Forall_app. split; [done|]. apply Forall_singleton. simpl. by rewrite Hbb.
  - intros x. unfold blk_view at 1. rewrite Ec, cache_block_snoc. destruct (Z.eqb_spec n0 x); [done|]. apply Hv.
  - intros N img Hi. apply (Hp ((n0, data) :: N)). rewrite Ec, <- (assoc_L (++)) in Hi. exact Hi.
Qed.

Lemma cache_blocks_spec src b (n0 : Z) :
  blk_ok b -> caching b = true -> 0 <= n0 -> n0 + Z.of_nat (length src) <= k_blocks b ->
  exists b', cache_blocks b n0 src = (Ok (), b') /\ kept b b' /\
    (forall x, in_write n0 (Z.of_nat (length src)) x -> blk_view b' x = src.[x - n0]) /\
    (forall x, ~ in_write n0 (Z.of_nat (length src)) x -> blk_view b' x = blk_view b x) /\
    forall img, poss (hw b') (cached b') img -> poss (hw b) (cached b ++ numbered n0 src) img.
Proof.
  assert (Hg : forall src b n0, blk_ok b -> caching b = true -> 0 <= n0 -> n0 + Z.of_nat (length src) <= k_blocks b ->
    exists b', cache_blocks b n0 src = (Ok (), b') /\ kept b b' /\
    (forall x, in_write n0 (Z.of_nat (length src)) x -> blk_view b' x = src.[x - n0]) /\
    (forall x, ~ in_write n0 (Z.of_nat (length src)) x -> blk_view b' x = blk_view b x) /\
    forall N img, poss (hw b') (cached b' ++ N) img -> poss (hw b) (cached b ++ numbered n0 src ++ N) img).
  { clear. intros src. induction src as [|data src IH]; intros b n0 Hb Hc H0 Hn; cbn [cache_blocks].
    { exists b. split_and!; try done. unfold in_write. simpl. lia. }
    cbn [length] in Hn. destruct (cache_add_spec b n0 data Hb Hc ltac:(lia)) as (b1 & -> & Hk & Hv & Hp).
    destruct (IH b1 (n0 + 1)) as (b' & -> & Hk' & Hin & Hout & Hp');
      [apply Hk|by rewrite (kp_caching _ _ Hk)|lia|rewrite (kp_blocks _ _ Hk); lia|].
    exists b'. split; [done|]. split; [by eapply kept_trans|]. unfold in_write in *. cbn [length]. split; [|split].
    - intros x Hx. destruct (decide (x = n0)) as [->|Hne].
      + rewrite Hout by lia. rewrite Hv, Z.eqb_refl, Z.sub_diag. done.
      + rewrite Hin by lia. replace (Z.to_nat (x - n0)) with (S (Z.to_nat (x - (n0 + 1)))) by lia. done.
    - intros x Hx. rewrite Hout by lia. rewrite Hv, (proj2 (Z.eqb_neq _ _)) by lia. done.
    - intros N img Hi%Hp'%Hp. eapply poss_mono; [|exact Hi]. intros x d.
      assert (En : numbered n0 (data :: src) = (n0, data) :: numbered (n0 + 1) src).
      { unfold numbered. simpl. rewrite Z.add_0_r. f_equal. apply imap_ext. intros i y _. simpl. f_equal. lia. }
      rewrite En. done. }
  intros Hb Hc H0 Hn. destruct (Hg src b n0 Hb Hc H0 Hn) as (b' & E & Hk & Hin & Hout & Hp). exists b'. split_and!; try done.
  intros img Hi. specialize (Hp [] img). rewrite !app_nil_r in Hp. auto.
Qed.

(** Outcome of a write request: success or failure, or the crash point. *)
Lemma write_spec b (n0 : Z) src :
  blk_ok b -> 0 <= n0 ->
  match nx_blk_write b n0 (Z.of_nat (length src)) src with
  | Stopped b' => forall img, poss (hw b') [] img -> poss (hw b) (cached b) img
  | Ret r b' =>
      kept b b' /\ (r = Ok () -> n0 + Z.of_nat (length src) <= k_blocks b) /\
      (forall x, r = Ok () -> in_write n0 (Z.of_nat (length src)) x -> blk_view b' x = src.[x - n0]) /\
      (forall x, ~ in_write n0 (Z.of_nat (length src)) x -> blk_view b' x = blk_view b x) /\
      forall img, poss (hw b') (cached b') img -> poss (hw b) (cached b ++ numbered n0 src) img
  end.
Proof.
  intros Hb H0. set (c := Z.of_nat (length src)). unfold nx_blk_write.
  assert (Hself : forall b1 e, kept b b1 -> hw b1 = hw b -> cached b1 = cached b ->
    kept b b1 /\ (Err e = Ok () -> n0 + c <= k_blocks b) /\
    (forall x, Err e = Ok () -> in_write n0 c x -> blk_view b1 x = src.[x - n0]) /\
    (forall x, ~ in_write n0 c x -> blk_view b1 x = blk_view b x) /\
    forall img, poss (hw b1) (cached b1) img -> poss (hw b) (cached b ++ numbered n0 src) img).
  { intros b1 e Hk Eh Ec. unfold blk_view. rewrite Eh, Ec. split_and!; try done.
    intros img. apply poss_mono. intros x d. rewrite possible_app. tauto. }
  assert (Hkb : kept b b) by by split.
  destruct (bad_blocks b n0 c) eqn:Eb; [by apply Hself|]. apply bad_blocks_false in Eb as (Hc & _ & Hn); [|lia].
  destruct (vb_read_only _); [by apply Hself|]. pose proof (count_op_spec b Hb) as Ho. destruct (count_op b) as [b1|b1]; [done|].
  destruct Ho as (Hk & Eh & Ec).
  set (b2 := with_counts _ _ _ b1). assert (Hk2 : kept b b2).
  { destruct Hk as [K1 K2 K3 K4 K5]. split; simpl; try done. by apply with_counts_ok. }
  pose proof (kp_ok _ _ Hk2) as Hb2. pose proof (kp_blocks _ _ Hk2) as Hbl.
  assert (Eh2 : hw b2 = hw b) by exact Eh. assert (Ec2 : cached b2 = cached b) by exact Ec. clearbody b2. clear b1 Hk Eh Ec.
  destruct (caching b2) eqn:Eca; cbn [negb].
  - destruct (cache_blocks_spec src b2 n0 Hb2 Eca H0) as (b' & -> & Hk' & Hin & Hout & Hp); [rewrite Hbl; exact Hn|].
    split; [by eapply kept_trans|]. split; [done|]. split; [auto|]. split.
    + intros x Hx. rewrite Hout by done. unfold blk_view. by rewrite Eh2, Ec2.
    + intros img Hi%Hp. by rewrite Eh2, Ec2 in Hi.
  - pose proof (dev_write_wrote b2 n0 c src Hb2 H0 Hc eq_refl) as Hw. rewrite Hbl in Hw. specialize (Hw Hn).
    destruct (dev_write b2 n0 c src) as [r b']. cbn [fst snd] in Hw. pose proof (wrote_kept _ _ _ _ _ Hb2 Hw) as Hk'.
    pose proof (bo_empty _ Hb2 Eca) as He. assert (Ecb : cached b = []) by (rewrite <- Ec2; unfold cached; by rewrite He).
    assert (Ecb' : cached b' = []) by (destruct (wr_moved _ _ _ _ _ Hw) as (h & p & _ & ->); unfold cached; simpl; by rewrite He).
    unfold blk_view. rewrite Ecb, Ecb', <- Eh2. cbn [rev cache_block app]. split; [by eapply kept_trans|]. split; [done|].
    split; [by apply Hw|]. split; [by apply Hw|]. intros img Hi. by apply (wr_poss _ _ _ _ _ Hw) in Hi.
Qed.

Lemma dev_flush_spec b :
  blk_ok b ->
  let r := (dev_flush b).1 in
  let b' := (dev_flush b).2 in
  moved b b' /\ kept b b' /\ (forall x, hw_view (hw b') x = hw_view (hw b) x) /\
  forall W img, poss (hw b') W img -> poss (hw b) W img /\ (r = Ok () -> W = [] -> forall x, img x = hw_view (hw b) x).
Proof.
  intros Hb. unfold dev_flush, nx_vblk_flush. destruct (vb_has_flush (k_dev b)) eqn:E; cbn [negb].
  - pose proof (hw_flush_view (hw b)) as Hv. pose proof (hw_flush_durable (hw b)) as Hd. pose proof (hw_flush_readable (hw b)) as Hr.
    pose proof (hw_flush_reliable (hw b)) as Hl. destruct (hw_flush (hw b)) as [st h]. cbn [fst snd] in *.
    assert (Hm : moved b (with_dev (with_hw h (k_dev b)) b)).
    { exists h, (vb_pages (k_dev b)). split; [by apply bo_pages, bo_wf|]. by destruct b as [[] ? ? ? ? ? ? ? ?]. }
    split; [done|]. split; [split; try done; by eapply moved_ok|]. split; [done|].
    intros W img (img0 & Hi & Hx). simpl in Hi. apply Hd in Hi as [Hi Hf]. split; [by exists img0|].
    intros Hst%status_ok -> x. destruct (Hx x) as [->|Hn]; [by apply Hf|by apply possible_nil in Hn].
  - assert (Eb : with_dev (k_dev b) b = b) by by destruct b. cbn [fst snd]. rewrite Eb. split; [by apply moved_refl, bo_pages, bo_wf|]. split; [by split|].
    split; [done|]. intros W img Hi. split; [done|]. by intros [=]%status_ok.
Qed.

Lemma flush_spec b :
  blk_ok b ->
  match nx_blk_flush b with
  | Stopped b' => forall img, poss (hw b') [] img -> poss (hw b) (cached b) img
  | Ret r b' =>
      kept b b' /\ (forall x, blk_view b' x = blk_view b x) /\
      forall img, poss (hw b') (cached b') img ->
        poss (hw b) (cached b) img /\ (r = Ok () -> forall x, img x = blk_view b x)
  end.
Proof.
  intros Hb. unfold nx_blk_flush. pose proof (count_op_spec b Hb) as Ho. destruct (count_op b) as [b1|b1]; [done|].
  destruct Ho as (Hk & Eh & Ec). set (b2 := with_counts _ _ _ b1). assert (Hk2 : kept b b2).
  { destruct Hk as [K1 K2 K3 K4 K5]. split; simpl; try done. by apply with_counts_ok. }
  pose proof (kp_ok _ _ Hk2) as Hb2. assert (Eh2 : hw b2 = hw b) by exact Eh. assert (Ec2 : cached b2 = cached b) by exact Ec.
  change (k_test b1) with (k_test b2). clearbody b2. clear b1 Hk Eh Ec. rewrite (bo_noop _ Hb2), andb_false_r.
  assert (Ev : forall x, blk_view b2 x = blk_view b x) by (intros x; unfold blk_view; by rewrite Eh2, Ec2).
  destruct (tst_enabled (k_test b2) && tst_volatile_cache (k_test b2)) eqn:Et.
  - destruct (writeback_all_spec (k_cache b2) b2 Hb2 (bo_range _ Hb2)) as (Hm & Hp & Hout & Hin & Hrel & Hrd).
    change (items b2 (k_cache b2)) with (cached b2) in Hp, Hin.
    destruct (writeback_all (k_cache b2) b2) as [r b3]. cbn [fst snd] in *.
    assert (Hb3 : blk_ok b3) by (eapply moved_ok; [done..|]; intros Hx; by apply Hrel).
    destruct Hm as (h & p & Hpl & ->). set (b3 := with_dev _ b2) in *.
    assert (Hk3 : kept b b3) by (eapply kept_trans; [exact Hk2|]; by split).
    destruct r as [[]|e].
    + set (b4 := with_cache [] _ _ b3). assert (Hb4 : blk_ok b4).
      { destruct Hb3 as [[A1 A2 A3 A4 A5 A6 A7] A8 A9]. split; [split|done|done]; simpl; try done.
        - intros Hx. specialize (A5 Hx). simpl in A5. rewrite length_app, length_rev, length_fmap. lia.
        - simpl in A6. by rewrite <- Permutation_rev. }
      assert (Hk4 : kept b b4) by (eapply kept_trans; [exact Hk3|]; by split).
      destruct (dev_flush_spec b4 Hb4) as (Hm5 & Hk5 & Hv5 & Hp5). destruct (dev_flush b4) as [st b5]. cbn [fst snd] in *.
      assert (Ec5 : cached b5 = []) by (destruct Hm5 as (h5 & p5 & _ & ->); done).
      assert (Hfin : forall x, hw_view (hw b4) x = blk_view b x) by (intros x; rewrite <- Ev; exact (Hin eq_refl x)).
      split; [by eapply kept_trans|]. split.
      * intros x. unfold blk_view at 1. rewrite Ec5. cbn [rev cache_block]. by rewrite Hv5, Hfin.
      * intros img Hi. rewrite Ec5 in Hi. apply Hp5 in Hi as [Hi Hx]. split.
        -- apply (Hp [] img) in Hi. by rewrite Eh2, Ec2 in Hi.
        -- intros Hs x. rewrite Hx by done. apply Hfin.
    + split; [done|]. split.
      * intros x. rewrite <- Ev. unfold blk_view. change (cached b3) with (cached b2).
        destruct (decide (x ∈ (k_cache b2).*1)) as [Hx|Hx]; [|by rewrite Hout].
        apply cache_block_key. rewrite <- Permutation_rev. by setoid_rewrite (items_keys b2 (k_cache b2)).
      * intros img Hi. split; [|done]. apply Hp in Hi. change (cached b3) with (cached b2) in Hi. rewrite Eh2, Ec2 in Hi.
        eapply poss_mono; [|exact Hi]. intros x d. rewrite possible_app. tauto.
  - assert (Eca : caching b2 = false) by (unfold caching; by rewrite Et). pose proof (bo_empty _ Hb2 Eca) as He.
    assert (Ecb : cached b2 = []) by (unfold cached; by rewrite He).
    destruct (dev_flush_spec b2 Hb2) as (Hm5 & Hk5 & Hv5 & Hp5). destruct (dev_flush b2) as [st b5]. cbn [fst snd] in *.
    assert (Ec5 : cached b5 = cached b2) by (destruct Hm5 as (h5 & p5 & _ & ->); done).
    split; [by eapply kept_trans|]. split.
    + intros x. rewrite <- Ev. unfold blk_view. by rewrite Ec5, Hv5.
    + intros img Hi. rewrite Ec5 in Hi. apply Hp5 in Hi as [Hi Hx]. rewrite Eh2, Ec2 in Hi. split; [done|].
      intros Hs x. rewrite Hx by done. rewrite <- Ev. unfold blk_view. by rewrite Ecb.
Qed.

(** ** The contract *)

Definition m_view m : Z -> list Z := match m with Up b => blk_view b | Down b0 _ => blk_view b0 end.
Definition m_durable m (img : Z -> list Z) : Prop :=
  match m with Up b => poss (hw b) (cached b) img | Down _ b => poss (hw b) [] img end.

(** The state of the machine, or the one it stopped in. *)
Definition m_state m : nx_blkdev H := match m with Up b => b | Down b0 _ => b0 end.
Definition m_readable m : Prop := hw_readable (hw (m_state m)).

(** The device has at least [cap] blocks. *)
Definition m_ok (cap : Z) m : Prop := blk_ok (m_state m) /\ cap <= k_blocks (m_state m).

Lemma m_ok_kept cap b b' : cap <= k_blocks b -> kept b b' -> m_ok cap (Up b').
Proof. intros Hc Hk. split; [apply Hk|]. simpl. by rewrite (kp_blocks _ _ Hk). Qed.

Lemma m_readable_kept b b' : kept b b' -> m_readable (Up b) -> m_readable (Up b').
Proof. intros Hk Hr. by apply (kp_readable _ _ Hk). Qed.

Lemma read_step cap m (n0 : Z) :
  m_ok cap m -> 0 <= n0 ->
  let '(r, m') := d_read m n0 in
  m_ok cap m' /\ (forall c, r = Some c -> c = m_view m n0) /\ (forall x, m_view m' x = m_view m x) /\
  (forall img, m_durable m' img -> m_durable m img) /\ (m_readable m -> m_readable m' /\ (n0 < cap -> is_Some r)).
Proof.
  intros Hok H0. pose proof Hok as [Hb Hcap]. destruct (nx_blk_read (m_state m) n0 1) as [r b'|b'] eqn:E.
  - pose proof E as Hr. apply read_spec in Hr as (Hk & Ec & Hv & Hp & Hx & Hr); [|done|done|lia].
    assert (Hget : forall p, r = Ok p -> p.[0] = m_view m n0).
    { intros p Ep. rewrite (Hx p Ep 0) by lia. rewrite Z.add_0_r. by destruct m. }
    assert (Hsome : m_readable m -> n0 < cap -> exists p, r = Ok p).
    { intros Hrd Hn. apply Hr; [done|unfold NX_BLK_IO_MAX; lia|lia]. }
    destruct m as [b|b0 b]; cbn [d_read m_state] in *; rewrite sys_read_eq, E.
    + assert (Hview : forall x, blk_view b' x = blk_view b x) by (intros x; unfold blk_view; by rewrite Ec, Hv).
      assert (Hdur : forall img, poss (hw b') (cached b') img -> poss (hw b) (cached b) img) by (intros img; rewrite Ec; apply Hp).
      destruct r as [p|e]; (split; [by eapply m_ok_kept|]); (split; [|split; [done|split; [done|]]]).
      * intros c [= <-]. by apply Hget.
      * intros Hrd. split; [by eapply m_readable_kept|done].
      * done.
      * intros Hrd. split; [by eapply m_readable_kept|]. intros Hn. by destruct (Hsome Hrd Hn).
    + split; [done|]. split; [|split; [done|split; [done|]]].
      * intros c Hc. destruct r as [p|e]; [|done]. injection Hc as <-. by apply Hget.
      * intros Hrd. split; [done|]. intros Hn. by destruct (Hsome Hrd Hn) as [p ->].
  - unfold nx_blk_read in E. destruct (bad_blocks _ _ _); [done|]. destruct (nx_vblk_read _ _ _) as [st d]. by destruct (negb _).
Qed.

Definition writes (n0 : Z) (bs : list (list Z)) (img0 img : Z -> list Z) : Prop :=
  forall x, img x = img0 x \/ (in_write n0 (Z.of_nat (length bs)) x /\ leaves bs.[x - n0] (img x)).

Lemma write_step cap fuel m (n0 : Z) bs :
  m_ok cap m -> 0 <= n0 ->
  let '(r, m') := d_write fuel m n0 bs in
  m_ok cap m' /\ (forall x, r = true -> in_write n0 (Z.of_nat (length bs)) x -> m_view m' x = bs.[x - n0]) /\
  (forall x, ~ in_write n0 (Z.of_nat (length bs)) x -> m_view m' x = m_view m x) /\
  (forall img, m_durable m' img -> exists img0, m_durable m img0 /\ writes n0 bs img0 img) /\
  (m_readable m -> m_readable m').
Proof.
  revert m n0 bs. induction fuel as [|fuel IH]; intros m n0 bs Hok H0; cbn [d_write]; set (n := Z.of_nat (length bs));
    (destruct (Z.eqb_spec n 0) as [Hn|Hn]; [split_and!; try done; [unfold in_write; lia|intros img Hd; exists img; split; [done|by left]]|]).
  { split_and!; try done. intros img Hd. exists img. split; [done|by left]. }
  destruct m as [b|b0 b]; [|split_and!; try done; intros img Hd; exists img; split; [done|by left]].
  destruct Hok as [Hb Hcap]. cbn [m_state] in Hb, Hcap. set (k := if n >? NX_BLK_IO_MAX then NX_BLK_IO_MAX else n).
  assert (Hk : 1 <= k <= n) by (unfold k, NX_BLK_IO_MAX; destruct (Z.gtb_spec n 8); lia). clearbody k.
  assert (Hlk : Z.of_nat (length (take (Z.to_nat k) bs)) = k) by (rewrite length_take; lia).
  assert (Htk : forall x, in_write n0 k x -> (take (Z.to_nat k) bs).[x - n0] = bs.[x - n0]).
  { intros x Hx. unfold in_write in Hx. rewrite !list_lookup_total_alt, lookup_take_lt by lia. done. }
  pose proof (write_spec b n0 (take (Z.to_nat k) bs) Hb H0) as Hw. rewrite Hlk in Hw.
  assert (Hsub : forall x, in_write n0 k x -> in_write n0 n x) by (unfold in_write; lia).
  assert (Hnum : forall W img, poss (hw b) (W ++ numbered n0 (take (Z.to_nat k) bs)) img -> exists img0, poss (hw b) W img0 /\
    forall x, img x = img0 x \/ (in_write n0 k x /\ leaves bs.[x - n0] (img x))).
  { intros W img (img0 & Hp & Hi)%poss_split. exists img0. split; [done|]. intros x. destruct (Hi x) as [|Hx%possible_numbered]; [by left|right].
    rewrite Hlk in Hx. destruct Hx as [Hx Hy]. split; [done|]. by rewrite Htk in Hy. }
  rewrite sys_write_eq. destruct (nx_blk_write b n0 k (take (Z.to_nat k) bs)) as [[[]|e] b'|b'].
  - destruct Hw as (Hkp & Hfit & Hin & Hout & Hp). specialize (Hfit eq_refl).
    assert (Eu : u64 (n0 + k) = n0 + k).
    { apply wrap_small. pose proof (bo_blocks _ Hb) as E. pose proof (bo_sectors _ Hb) as Hs. change SECTORS_PER_BLOCK with 8 in E. unfold fits in *. dlia. }
    rewrite Eu. pose proof (IH (Up b') (n0 + k) (drop (Z.to_nat k) bs) (m_ok_kept _ _ _ Hcap Hkp) ltac:(lia)) as HI.
    destruct (d_write fuel (Up b') (n0 + k) (drop (Z.to_nat k) bs)) as [r m'].
    assert (Hld : Z.of_nat (length (drop (Z.to_nat k) bs)) = n - k) by (rewrite length_drop; lia).
    assert (Hdr : forall x, in_write (n0 + k) (n - k) x -> (drop (Z.to_nat k) bs).[x - (n0 + k)] = bs.[x - n0]).
    { intros x Hx. unfold in_write in Hx. rewrite !list_lookup_total_alt, lookup_drop. do 2 f_equal. lia. }
    unfold writes in *. rewrite Hld in HI. destruct HI as (I1 & I2 & I3 & I4 & I5). split; [done|]. split; [|split; [|split]].
    + intros x Hr Hx. destruct (decide (in_write (n0 + k) (n - k) x)) as [Hx'|Hx'].
      * rewrite I2 by done. by apply Hdr.
      * rewrite I3 by done. simpl. rewrite Hin by (done || (unfold in_write in *; lia)). apply Htk. unfold in_write in *. lia.
    + intros x Hx. unfold in_write in *. rewrite I3 by lia. simpl. apply Hout. lia.
    + intros img Hd. destruct (I4 img Hd) as (img1 & Hd1 & Hx1). apply Hp, Hnum in Hd1 as (img0 & Hd0 & Hx0). exists img0. split; [done|].
      intros x. destruct (Hx1 x) as [->|[Hw1 Hv1]].
      * destruct (Hx0 x) as [|[Hw0 Hv0]]; [by left|right; auto].
      * right. rewrite Hdr in Hv1 by done. split; [unfold in_write in *; lia|done].
    + intros Hr. apply I5. by eapply m_readable_kept.
  - destruct Hw as (Hkp & _ & _ & Hout & Hp). split; [by eapply m_ok_kept|]. split; [done|]. split; [|split].
    + intros x Hx. simpl. apply Hout. auto.
    + intros img Hd. apply Hp, Hnum in Hd as (img0 & Hd0 & Hx0). exists img0. split; [done|]. intros x. destruct (Hx0 x) as [|[Hw0 Hv0]]; [by left|right; auto].
    + by apply m_readable_kept.
  - split; [done|]. split; [done|]. split; [done|]. split.
    + intros img Hd. exists img. split; [by apply Hw|by left].
    + done.
Qed.

Lemma flush_step cap m :
  m_ok cap m ->
  let '(r, m') := d_flush m in
  m_ok cap m' /\ (forall x, m_view m' x = m_view m x) /\
  (forall img, m_durable m' img -> if r then forall x, img x = m_view m x else m_durable m img) /\ (m_readable m -> m_readable m').
Proof.
  destruct m as [b|b0 b]; intros Hok; cbn [d_flush]; [|by split_and!]. destruct Hok as [Hb Hcap].
  pose proof (flush_spec b Hb) as Hf. cbn [sys_blk_flush]. destruct (nx_blk_flush b) as [[[]|e] b'|b'].
  - destruct Hf as (Hk & Hv & Hd). split; [by eapply m_ok_kept|]. split; [done|]. split; [|by apply m_readable_kept]. intros img Hi. by apply Hd.
  - destruct Hf as (Hk & Hv & Hd). split; [by eapply m_ok_kept|]. split; [done|]. split; [|by apply m_readable_kept]. intros img Hi. by apply Hd.
  - split; [done|]. split; [done|]. split; [exact Hf|done].
Qed.
End spec.

(** The machine as the device of a store of up to [cap] blocks: a block layer in good state
    ([blk_ok], so with [honest_flush] and [reliable_writeback]) with at least [cap] blocks.
    Block numbers are [uint64_t]. *)
Record blk_store_dev (H : Type) `{!vblk_hw H, !VblkLaws H} (cap : Z) := mk_dev { dv_m : machine H; dv_ok : m_ok cap dv_m }.
Arguments mk_dev {H _ _ cap}.
Arguments dv_m {H _ _ cap}.
Arguments dv_ok {H _ _ cap}.

(** The device a running block layer is. *)
Definition blk_device {H : Type} `{!vblk_hw H, !VblkLaws H} {cap : Z} (b : nx_blkdev H)
  (Hwf : blk_wf b) (Hflush : honest_flush b) (Hrel : reliable_writeback b) (Hcap : cap <= k_blocks b) : blk_store_dev H cap :=
  mk_dev (Up b) (conj (Build_blk_ok b Hwf Hflush Hrel) Hcap).

Section store_device.
Context {H : Type} `{!vblk_hw H, !VblkLaws H} {cap : Z}.
Implicit Types (d : blk_store_dev H cap) (m : machine H).

Definition is_block (blk : Z) : bool := (0 <=? blk) && (blk <? 2 ^ 64).

Definition m_read m (blk : Z) : option (list Z) * machine H := if is_block blk then d_read m blk else (None, m).
Definition m_write m (blk : Z) (bs : list (list Z)) : bool * machine H := if is_block blk then d_write (length bs) m blk bs else (false, m).

(** The loop of [d_write] ends within its fuel. *)
Lemma d_write_fuel fuel m blk (bs : list (list Z)) : (length bs <= fuel)%nat -> d_write fuel m blk bs = d_write (length bs) m blk bs.
Proof.
  assert (Hg : forall f1 f2 m blk (bs : list (list Z)), (length bs <= f1)%nat -> (length bs <= f2)%nat -> d_write f1 m blk bs = d_write f2 m blk bs).
  { clear. induction f1 as [|f1 IH]; intros f2 m blk bs H1 H2; cbn [d_write].
    - destruct bs; [|simpl in H1; lia]. by destruct f2.
    - destruct f2 as [|f2]; [destruct bs; [done|simpl in H2; lia]|]. cbn [d_write]. destruct (Z.eqb_spec (Z.of_nat (length bs)) 0) as [|Hn]; [done|].
      destruct m as [b|]; [|done]. set (k := if _ >? _ then _ else _).
      assert (Hk : 1 <= k) by (unfold k, NX_BLK_IO_MAX; destruct (_ >? _); lia).
      destruct (sys_blk_write _ _ _ _ _ _) as [[]|]; try done. apply IH; rewrite length_drop; lia. }
  intros Hf. by apply Hg.
Qed.

Lemma m_read_step d (n0 : Z) :
  let '(r, m') := m_read (dv_m d) n0 in
  m_ok cap m' /\ (forall c, r = Some c -> c = m_view (dv_m d) n0) /\ (forall x, m_view m' x = m_view (dv_m d) x) /\
  (forall img, m_durable m' img -> m_durable (dv_m d) img) /\ (m_readable (dv_m d) -> m_readable m' /\ (0 <= n0 < Z.min cap ST_MAX_BLOCKS -> is_Some r)).
Proof.
  unfold m_read, is_block, ST_MAX_BLOCKS. destruct (Z.leb_spec 0 n0); [|split_and!; try done; [apply dv_ok|]; intros Hr; split; [done|lia]].
  destruct (Z.ltb_spec n0 (2 ^ 64)); [|split_and!; try done; [apply dv_ok|]; intros Hr; split; [done|lia]]. cbn [andb].
  pose proof (read_step cap (dv_m d) n0 (dv_ok d) ltac:(lia)) as Hs. destruct (d_read (dv_m d) n0) as [r m']. destruct Hs as (? & ? & ? & ? & Hr).
  split_and!; try done. intros Hx. destruct (Hr Hx) as [? Hy]. split; [done|]. intros ?. apply Hy. lia.
Qed.

Lemma m_write_step d (n0 : Z) bs :
  let '(r, m') := m_write (dv_m d) n0 bs in
  m_ok cap m' /\ (forall x, r = true -> in_write n0 (Z.of_nat (length bs)) x -> m_view m' x = bs.[x - n0]) /\
  (forall x, ~ in_write n0 (Z.of_nat (length bs)) x -> m_view m' x = m_view (dv_m d) x) /\
  (forall img, m_durable m' img -> exists img0, m_durable (dv_m d) img0 /\ writes n0 bs img0 img) /\
  (m_readable (dv_m d) -> m_readable m').
Proof.
  unfold m_write, is_block. destruct (Z.leb_spec 0 n0); [destruct (n0 <? 2 ^ 64)|]; cbn [andb].
  - apply write_step; [apply dv_ok|done].
  - split_and!; try done; [apply dv_ok|]. intros img Hd. exists img. split; [done|by left].
  - split_and!; try done; [apply dv_ok|]. intros img Hd. exists img. split; [done|by left].
Qed.

Lemma m_read_ok d n0 : m_ok cap (m_read (dv_m d) n0).2.
Proof. pose proof (m_read_step d n0) as Hs. destruct (m_read _ _). apply Hs. Qed.

Lemma m_write_ok d n0 bs : m_ok cap (m_write (dv_m d) n0 bs).2.
Proof. pose proof (m_write_step d n0 bs) as Hs. destruct (m_write _ _ _). apply Hs. Qed.

Lemma m_flush_ok d : m_ok cap (d_flush (dv_m d)).2.
Proof. pose proof (flush_step cap _ (dv_ok d)) as Hs. destruct (d_flush _). apply Hs. Qed.

#[export] Instance blk_st_dev : st_dev (blk_store_dev H cap) := {
  bd_read d n0 := ((m_read (dv_m d) n0).1, mk_dev _ (m_read_ok d n0));
  bd_write d n0 bs := ((m_write (dv_m d) n0 bs).1, mk_dev _ (m_write_ok d n0 bs));
  bd_flush d := ((d_flush (dv_m d)).1, mk_dev _ (m_flush_ok d));
}.

(** The kernel's block layer keeps the contract of the store's device. *)
#[export] Instance blk_laws : StDevLaws (blk_store_dev H cap).
Proof.
  refine {| bd_view d := m_view (dv_m d); bd_durable d := m_durable (dv_m d); bd_readable d := m_readable (dv_m d); bd_capacity := Z.min cap ST_MAX_BLOCKS |};
    [lia| | | | | | | | | | | |]; intros d; simpl.
  1-5: intros n0; pose proof (m_read_step d n0) as Hs; rewrite (surjective_pairing (m_read (dv_m d) n0)) in Hs; destruct Hs as (S1 & S2 & S3 & S4 & S5).
  6-9: intros n0 bs; pose proof (m_write_step d n0 bs) as Hs; rewrite (surjective_pairing (m_write (dv_m d) n0 bs)) in Hs; destruct Hs as (S1 & S2 & S3 & S4 & S5).
  10-12: pose proof (flush_step cap _ (dv_ok d)) as Hs; rewrite (surjective_pairing (d_flush (dv_m d))) in Hs; destruct Hs as (S1 & S2 & S3 & S4).
  - intros c d' [= E _]. by apply S2.
  - apply S3.
  - apply S4.
  - intros Hr Hn. by apply S5.
  - intros Hr. by apply S5.
  - intros x. apply S2.
  - intros x. apply S3.
  - intros img Hd. apply (S4 img Hd).
  - apply S5.
  - apply S2.
  - apply S3.
  - apply S4.
Defined.
End store_device.
