(* ===== verification/BlkStore.v ===== *)
(** * The store on the kernel's block layer

    The composition of [lib/store.c] with [kernel/dev/blk.c]: what survives when the machine
    stops at a crash point of the block layer, whatever the persistence policy loses. *)
From S2P Require Import Prelude Bytes Abi BootAbi Bitmap Pmm Crc32 StoreFmt Store StoreDev StoreFacts StoreIo.
From S2P Require Import StoreInv StoreTx StoreCrash StoreMount StoreSnap StoreThm Blk BlkThm.

(** ** A device for the witnesses *)

(** Blocks in memory, and one flag per future write request ([true]: it fails). *)
Record ram := mk_ram { rd_blocks : gmap Z (list Z); rd_wfail : list bool }.

Definition ram_put (n0 : Z) (p : list (list Z)) (m : gmap Z (list Z)) : gmap Z (list Z) :=
  foldr (fun '(x, c) m => <[x := c]> m) m (numbered n0 p).

(** [n] bytes of the pages [p], the last block in part. *)
Definition ram_store (n0 n : Z) (p : list (list Z)) (m : gmap Z (list Z)) : gmap Z (list Z) :=
  let k := Z.to_nat (n / 4096) in
  let m' := ram_put n0 (take k p) m in
  if n mod 4096 =? 0 then m'
  else
    match drop k p with
    | [] => m'
    | c :: _ =>
        let r := Z.to_nat (n mod 4096) in
        <[n0 + n / 4096 := take r c ++ drop r (disk_block m (n0 + n / 4096))]> m'
    end.

#[export] Instance ram_hw : vblk_hw ram := {
  hw_in h s n := (NX_VBLK_OK, disk_block (rd_blocks h) <$> seqZ (s / 8) (n / 4096), h);
  hw_out h s n p :=
    let h' := mk_ram (rd_blocks h) (tl (rd_wfail h)) in
    if hd false (rd_wfail h) then (NX_VBLK_E_IO, h')
    else (NX_VBLK_OK, mk_ram (ram_store (s / 8) n p (rd_blocks h)) (tl (rd_wfail h)));
  hw_flush h := (NX_VBLK_OK, h);
}.

Lemma ram_put_in n0 p m x : in_write n0 (Z.of_nat (length p)) x -> disk_block (ram_put n0 p m) x = p.[x - n0].
Proof. intros Hx. unfold ram_put. rewrite cache_block_flush. by apply imap_cache_in. Qed.

Lemma ram_put_out n0 p m x : ~ in_write n0 (Z.of_nat (length p)) x -> disk_block (ram_put n0 p m) x = disk_block m x.
Proof. intros Hx. unfold ram_put. rewrite cache_block_flush. by apply imap_cache_out. Qed.

Definition ram_view (h : ram) (x : Z) : list Z := disk_block (rd_blocks h) x.

Lemma ram_out_view h b p x :
  ram_view (hw_out h (b * 8) (Z.of_nat (length p) * 4096) p).2 x =
  if negb (hd false (rd_wfail h)) && bool_decide (in_write b (Z.of_nat (length p)) x) then p.[x - b] else ram_view h x.
Proof.
  unfold ram_view. simpl. unfold ram_store. rewrite Z.mod_mul, !Z.div_mul, Nat2Z.id, take_ge by lia.
  destruct (hd false (rd_wfail h)); [done|]. simpl.
  case_bool_decide; [by apply ram_put_in|by apply ram_put_out].
Qed.

(** A block that is written in part keeps its first sector. *)
Lemma part_leaves (r : nat) (c old : list Z) : (512 <= r)%nat -> leaves c (take r c ++ old).
Proof.
  intros Hr. unfold leaves. destruct (decide (length c < 512)%nat) as [|Hn]; [by left|right; left].
  by rewrite take_app_le, take_take, Nat.min_l by (rewrite ?length_take; lia).
Qed.

Lemma ram_store_leaves b n p m x :
  (Z.of_nat (length p) - 1) * 4096 < n <= Z.of_nat (length p) * 4096 -> n mod 512 = 0 ->
  disk_block (ram_store b n p m) x = disk_block m x \/
  (in_write b (Z.of_nat (length p)) x /\ leaves p.[x - b] (disk_block (ram_store b n p m) x)).
Proof.
  intros Hn Hm. unfold ram_store, in_write.
  assert (Hput : forall k, disk_block (ram_put b (take k p) m) x = disk_block m x \/
    (b <= x < b + Z.of_nat (length p) /\ leaves p.[x - b] (disk_block (ram_put b (take k p) m) x))).
  { intros k. destruct (decide (in_write b (Z.of_nat (length (take k p))) x)) as [Hx|Hx]; [right|left; by apply ram_put_out].
    rewrite (ram_put_in _ _ _ _ Hx). unfold in_write in Hx. rewrite length_take in Hx. split; [lia|]. right. left.
    by rewrite !list_lookup_total_alt, lookup_take_lt by lia. }
  destruct (Z.eqb_spec (n mod 4096) 0) as [|Hr]; [apply Hput|].
  destruct (drop (Z.to_nat (n / 4096)) p) as [|c l] eqn:Ed; [apply Hput|].
  assert (Hk : 0 < n /\ 0 <= n / 4096 < Z.of_nat (length p)).
  { apply (f_equal length) in Ed. rewrite length_drop in Ed. cbn [length] in Ed. dlia. }
  destruct (decide (x = b + n / 4096)) as [->|Hne]; [right|].
  - split; [lia|]. unfold disk_block at 1. rewrite lookup_insert_eq. cbn [default].
    replace (b + n / 4096 - b) with (n / 4096) by lia.
    assert (Ec : p.[n / 4096] = c).
    { rewrite list_lookup_total_alt, <- (Nat.add_0_r (Z.to_nat _)), <- lookup_drop, Ed. done. }
    rewrite Ec. apply part_leaves. dlia.
  - assert (Ei : forall v m', disk_block (<[b + n / 4096 := v]> m') x = disk_block m' x) by (intros v m'; unfold disk_block; by rewrite lookup_insert_ne).
    rewrite !Ei. apply Hput.
Qed.

#[export] Instance ram_laws : VblkLaws ram.
Proof.
  refine {| hw_view := ram_view; hw_durable h img := forall x, img x = ram_view h x; hw_readable _ := True; hw_reliable h := Forall (fun f => f = false) (rd_wfail h) |};
    try done.
  - intros h b c st p h'. simpl. rewrite !Z.div_mul by lia. by intros [= <- <- <-].
  - intros h b c Hc. cbn [hw_in ram_hw fst snd]. rewrite !Z.div_mul by lia. rewrite length_fmap, length_seqZ; done.
  - intros h b p x Hs Hx. rewrite ram_out_view. simpl in Hs. destruct (hd false (rd_wfail h)); [done|]. simpl. by rewrite bool_decide_eq_true_2.
  - intros h b p x Hx. rewrite ram_out_view, bool_decide_eq_false_2 by done. by rewrite andb_false_r.
  - intros h b n p img Hn Hm Hi. exists (ram_view h). split; [done|]. intros x. rewrite Hi. unfold ram_view. simpl.
    destruct (hd false (rd_wfail h)); [by left|]. simpl. rewrite Z.div_mul by lia. by apply ram_store_leaves.
  - intros h s n p Hr. simpl. destruct (rd_wfail h) as [|f l]; [done|]. apply Forall_cons in Hr as [-> Hr]. done.
Defined.

(** A machine with the emulated cache and a crash point at operation [k]; its disk of 32
    blocks holds [disk]. *)
Definition ram_blk (k : Z) (lose : nx_blk_lose) (disk : gmap Z (list Z)) : nx_blkdev ram :=
  mk_blkdev (mk_vblk (mk_ram disk []) 256 false true (replicate 8 [])) 32 0 0 0 (mk_test true true false k lose 0) [] (seqZ 1 128) true (fun _ => []).

Lemma ram_blk_wf k lose disk : blk_wf (ram_blk k lose disk).
Proof. split; simpl; try done. apply (NoDup_seqZ 1 128). Qed.

Lemma ram_blk_noop k lose disk : honest_flush (ram_blk k lose disk).
Proof. done. Qed.

Lemma ram_blk_reliable k lose disk : reliable_writeback (ram_blk k lose disk).
Proof. intros _. by apply Forall_nil. Qed.

Definition ram_dev (k : Z) (lose : nx_blk_lose) (disk : gmap Z (list Z)) : io (blk_store_dev ram 32) :=
  mk_io (blk_device (ram_blk k lose disk) (ram_blk_wf k lose disk) (ram_blk_noop k lose disk) (ram_blk_reliable k lose disk) (Z.le_refl 32)) 0 0 0.

(** What is on the disk of a machine. *)
Definition medium (x : io (blk_store_dev ram 32)) : gmap Z (list Z) :=
  match dv_m (io_dev x) with Up b | Down _ b => rd_blocks (vb_hw (k_dev b)) end.

Definition fresh (disk : gmap Z (list Z)) : io (blk_store_dev ram 32) := ram_dev 0 NX_LOSE_ALL disk.

Lemma ram_up k lose disk : powered_up (ram_dev k lose disk) (disk_block disk).
Proof.
  split; [done|]. split; [|done]. intros b. split; [done|]. intros img (img0 & Hd & Hi).
  destruct (Hi b) as [->|Hn]; [symmetry; apply Hd|by apply possible_nil in Hn].
Qed.

(** A store of 32 blocks is formatted; the machine then reaches its crash point, operation
    [k], in the commit of a transaction, where half of the newest write is lost. *)
Definition blk_formatted : gmap Z (list Z) := medium (st_format (fresh ∅) 32 7 2 1).2.
Definition blk_mounted (k : Z) : st_error * store * io (blk_store_dev ram 32) :=
  st_mount (ram_dev k NX_LOSE_TORN blk_formatted) 32 5 0.
Definition blk_tx (k : Z) : gmap (list Z) (list Z) * store * io (blk_store_dev ram 32) :=
  let r := blk_mounted k in tx_run (st_begin r.1.2).2 r.2 (kv (view r.2) (s_cur r.1.2)) sample_ops.
Definition blk_commit (k : Z) : st_error * Z * store * io (blk_store_dev ram 32) :=
  let r := blk_tx k in st_commit r.1.2 r.2 label_c.

Lemma medium_durable x : bd_durable (io_dev x) (disk_block (medium x)).
Proof.
  unfold medium. simpl. unfold m_durable. destruct (dv_m (io_dev x)) as [b|b0 b]; exists (ram_view (vb_hw (k_dev b))); by split; [|left].
Qed.

#[local] Opaque zero_block enc_root enc_super make_super block_crc dec_root dec_super enc_root_body
  enc_super_body root_sane nx_crc32_update nx_crc32.

Lemma formatted_durable : bd_durable (io_dev (st_format (fresh ∅) 32 7 2 1).2) (disk_block blk_formatted).
Proof. unfold blk_formatted. apply medium_durable. Qed.

Lemma blk_session k : exists s x s1 m s2 x2 e g s3 x3,
  store_ok s x /\ room s (Z.of_nat (length sample_ops)) /\ s_blocks s = 32 /\ st_begin s = (ST_OK, s1) /\
  tx_run s1 x (kv (view x) (s_cur s)) sample_ops = (m, s2, x2) /\ st_commit s2 x2 label_c = (e, g, s3, x3) /\ blk_commit k = (e, g, s3, x3) /\
  (blk_mounted k).2 = x.
Proof.
  assert (Hf : (st_format (fresh ∅) 32 7 2 1).1 = ST_OK) by by vm_compute.
  assert (H7 : fits 64 7 /\ fits 64 1 /\ fits 64 5) by (unfold fits; lia). destruct H7 as (H7 & H1 & H5).
  assert (Hc : 32 <= bd_capacity (blk_store_dev ram 32)) by by vm_compute.
  destruct (format_mount_lemma (fresh ∅) 32 7 2 1 _ _ _ 32 5 H7 H1 H5 (pair_eq _ _ Hf) formatted_durable
    (ram_up k NX_LOSE_TORN blk_formatted) Hc (Z.le_refl 32)) as (s & x & E & Hok & _ & Hcur & _ & Hbl & _ & Htx & Hmx).
  destruct (tx_run (st_begin s).2 x (kv (view x) (s_cur s)) sample_ops) as [[m s2] x2] eqn:Er.
  destruct (st_commit s2 x2 label_c) as [[[e g] s3] x3] eqn:Ec.
  exists s, x, (st_begin s).2, m, s2, x2, e, g, s3, x3.
  split; [exact Hok|]. split; [by apply sample_room|]. split; [exact Hbl|]. split; [|split; [exact Er|split; [exact Ec|split]]].
  - unfold st_begin. rewrite (so_mounted _ _ Hok), Htx. reflexivity.
  - unfold blk_commit, blk_tx, blk_mounted. rewrite E. cbn [fst snd]. by rewrite Er.
  - unfold blk_mounted. by rewrite E.
Qed.

(** ** Theorems *)

Section theorems.
Context {H : Type} `{!vblk_hw H, !VblkLaws H}.
Implicit Types (b : nx_blkdev H).

(** C40: the kernel's block layer, with its emulated write cache or without, when flushes
    are not switched off and, with the cache on, the device fails no write.  A read gives
    for every block the newest data written to it.  A write that succeeds changes exactly
    its blocks; one that fails changes no other block.  A flush that succeeds leaves
    nothing at risk: the medium holds the newest data of every block.  Before that, and when
    the machine stops at its crash point under any of its policies, a block on the medium is
    the one it had, or what an unflushed write to it may leave: the block written, one that
    begins with its first sector, or one without a valid checksum. *)
Theorem blk_layer_contract b (n0 c : Z) src :
  blk_wf b -> tst_flush_noop (k_test b) = false -> (caching b = true -> hw_reliable (vb_hw (k_dev b))) -> 0 <= n0 -> 0 <= c ->
  match nx_blk_read b n0 c with
  | Stopped _ => False
  | Ret r b' =>
      blk_wf b' /\ (forall x, blk_view b' x = blk_view b x) /\
      forall p, r = Ok p -> forall i, 0 <= i < c -> p.[i] = blk_view b (n0 + i)
  end /\
  match nx_blk_write b n0 (Z.of_nat (length src)) src with
  | Stopped b' => forall img, poss (vb_hw (k_dev b')) [] img -> poss (vb_hw (k_dev b)) (cached b) img
  | Ret r b' =>
      blk_wf b' /\ (forall x, r = Ok () -> in_write n0 (Z.of_nat (length src)) x -> blk_view b' x = src.[x - n0]) /\
      (forall x, ~ in_write n0 (Z.of_nat (length src)) x -> blk_view b' x = blk_view b x) /\
      forall img, poss (vb_hw (k_dev b')) (cached b') img -> poss (vb_hw (k_dev b)) (cached b ++ numbered n0 src) img
  end /\
  match nx_blk_flush b with
  | Stopped b' => forall img, poss (vb_hw (k_dev b')) [] img -> poss (vb_hw (k_dev b)) (cached b) img
  | Ret r b' =>
      blk_wf b' /\ (forall x, blk_view b' x = blk_view b x) /\
      forall img, poss (vb_hw (k_dev b')) (cached b') img ->
        poss (vb_hw (k_dev b)) (cached b) img /\ (r = Ok () -> forall x, img x = blk_view b x)
  end.
Proof.
  intros Hwf Hflush Hrel H0 Hc. pose proof (Build_blk_ok b Hwf Hflush Hrel) as Hb. split; [|split].
  - destruct (nx_blk_read b n0 c) as [r b'|b'] eqn:E.
    + apply read_spec in E as (Hk & Ec & Hv & _ & Hx & _); [|done..]. split; [apply Hk|]. split; [|done].
      intros x. unfold blk_view. by rewrite Ec, Hv.
    + unfold nx_blk_read in E. destruct (bad_blocks _ _ _); [done|]. destruct (nx_vblk_read _ _ _) as [st d]. by destruct (negb _).
  - pose proof (write_spec b n0 src Hb H0) as Hw. destruct (nx_blk_write _ _ _ _) as [r b'|b']; [|done].
    destruct Hw as (Hk & _ & Hin & Hout & Hp). split; [apply Hk|done].
  - pose proof (flush_spec b Hb) as Hw. destruct (nx_blk_flush _) as [r b'|b']; [|done]. destruct Hw as (Hk & Hv & Hp). split; [apply Hk|done].
Qed.

(** C2: a transaction of the store on the kernel's block layer is atomic under power
    failure, whether or not the machine stops at a crash point of the layer while it runs
    (in [x3] the machine may be down), under each of the layer's persistence policies.  The
    layer must not have its flushes switched off and, with the emulated cache on, the device
    must not fail writes.  Whatever the medium then holds, mounting it succeeds and shows
    exactly the old generation, if the commit did not report success, or exactly the
    contents of the transaction, if it did or reported ST_E_UNKNOWN. *)
Theorem store_on_blk_crash_atomic (cap : Z) b (Hwf : blk_wf b) (Hflush : honest_flush b) (Hrel : reliable_writeback b)
    (Hcap : cap <= k_blocks b) nr nw nf s ops label s1 m s2 x2 e g s3 x3 img (y : io (blk_store_dev H cap)) M boot :
  let x := mk_io (blk_device b Hwf Hflush Hrel Hcap) nr nw nf in
  store_ok s x -> room s (Z.of_nat (length ops)) -> Forall tx_op_ok ops -> Forall byte_ok label ->
  st_begin s = (ST_OK, s1) -> tx_run s1 x (kv (view x) (s_cur s)) ops = (m, s2, x2) ->
  st_commit s2 x2 label = (e, g, s3, x3) -> m_durable (dv_m (io_dev x3)) img -> powered_up y img ->
  s_blocks s <= M -> fits 64 boot ->
  exists s4 y', st_mount y M boot 0 = (ST_OK, s4, y') /\ store_ok s4 y' /\
    ((e <> ST_OK /\ s_cur s4 = s_cur s /\ kv (view y') (s_cur s4) = kv (view x) (s_cur s)) \/
     ((e = ST_OK \/ e = ST_E_UNKNOWN) /\ rt_gen (s_cur s4) = s_max_gen s + 1 /\ kv (view y') (s_cur s4) = m)).
Proof.
  intros x Hs Hroom Hops Hl Hb Hrun Hc Hd Hy HM Hboot.
  destruct (crash_lemma s x ops label s1 m s2 x2 e g s3 x3 img y M boot) as (s4 & y' & E & Hok & _ & _ & Hfin); try done.
  by exists s4, y'.
Qed.
End theorems.

(** ** Witnesses *)

Definition sample_blk : nx_blkdev ram := ram_blk 3 NX_LOSE_ALL (<[6 := [7]]> ∅).

Lemma blk_layer_contract_witness : exists p b', nx_blk_read sample_blk 5 2 = Ret (Ok p) b' /\ p.[1] = blk_view sample_blk (5 + 1).
Proof.
  assert (H5 : 0 <= 5) by lia. assert (H2 : 0 <= 2) by lia. assert (Hi : 0 <= 1 < 2) by lia.
  destruct (blk_layer_contract sample_blk 5 2 [] (ram_blk_wf _ _ _) (ram_blk_noop _ _ _) (ram_blk_reliable _ _ _) H5 H2) as [Hr _].
  destruct (nx_blk_read sample_blk 5 2) as [[p|e] b'|b'] eqn:E; [|discriminate E|discriminate E].
  exists p, b'. split; [reflexivity|]. exact (proj2 (proj2 Hr) p eq_refl 1 Hi).
Defined.

(** The machine stops before the last flush of the commit and tears the newest write, the
    superblock; the store mounts after the restart. *)
Lemma store_on_blk_crash_atomic_witness : exists e g s3 x3 s4 y',
  blk_commit 5 = (e, g, s3, x3) /\ e = ST_E_UNKNOWN /\ st_mount (fresh (medium x3)) 32 9 0 = (ST_OK, s4, y') /\ store_ok s4 y'.
Proof.
  assert (He : (blk_commit 5).1.1.1 = ST_E_UNKNOWN) by by vm_compute.
  assert (Hup : match dv_m (io_dev (blk_mounted 5).2) with Up _ => true | Down _ _ => false end = true) by by vm_compute.
  destruct (blk_session 5) as (s & x & s1 & m & s2 & x2 & e & g & s3 & x3 & Hok & Hroom & Hbl & Hb & Hr & Hc & Hsc & Ex).
  rewrite Hsc in He. rewrite Ex in Hup. assert (H9 : fits 64 9) by (unfold fits; lia). assert (Hle : s_blocks s <= 32) by lia.
  destruct x as [[[b|b0 b] [[Hwf Hflush Hrel] Hcap]] nr nw nf]; [|discriminate Hup].
  destruct (store_on_blk_crash_atomic 32 b Hwf Hflush Hrel Hcap nr nw nf s sample_ops label_c s1 m s2 x2 e g s3 x3 _ _ 32 9 Hok Hroom
    (proj1 sample_args) (proj2 sample_args) Hb Hr Hc (medium_durable x3) (ram_up 0 NX_LOSE_ALL (medium x3)) Hle H9) as (s4 & y' & Hm & Hok' & _).
  exists e, g, s3, x3, s4, y'. split; [exact Hsc|]. split; [exact He|]. split; [exact Hm|exact Hok'].
Defined.

(** ** A failing eviction *)

(** The first write of the device fails; one block is written, then another one until the
    cache is full. *)
Definition failing_blk : nx_blkdev ram :=
  with_dev (with_hw (mk_ram ∅ [true]) (k_dev (ram_blk 0 NX_LOSE_ALL ∅))) (ram_blk 0 NX_LOSE_ALL ∅).
Definition fill (b : nx_blkdev ram) (n : nat) : nx_blkdev ram :=
  Nat.iter n (fun b => match nx_blk_write b 6 1 [[2]] with Ret _ b' | Stopped b' => b' end) b.

(** [cache_evict_oldest] drops the block whose write-back failed.  The write that needed the
    page reports the error, but the write of block 5, which had succeeded, is lost although
    the flush after it succeeds. *)
Lemma evict_failure_loses_write : exists b1 b2 b3 b4,
  nx_blk_write failing_blk 5 1 [[1]] = Ret (Ok ()) b1 /\ nx_blk_write (fill b1 127) 7 1 [[3]] = Ret (Err NX_EIO) b2 /\
  nx_blk_flush b2 = Ret (Ok ()) b3 /\ nx_blk_read b3 5 1 = Ret (Ok [replicate 4096 0]) b4.
Proof. eexists _, _, _, _. split; [reflexivity|]. split; [vm_compute; reflexivity|]. split; [vm_compute; reflexivity|]. vm_compute. reflexivity. Qed.
